(* ===== verification/_CoqProject ===== *)
-Q . S2P
Prelude.v
GoText.v
GoFloat.v
RestartPolicy.v
Rollout.v
Placement.v
Bolt.v
Spool.v
Lease.v
DurableWork.v
Billing.v
ClosePeriod.v
GoTime.v
Sha256.v
RowMap.v
Journal.v
Projection.v
Product.v
JournalStore.v
JournalSystem.v
Authz.v
Accounts.v
Restrictions.v
Quotas.v
Workspaces.v
LogPipeline.v
LogStore.v
FileLogs.v
FileStore.v
UsageRecords.v
UsageIngest.v
UsageLedger.v
UsageCursors.v
Metering.v
MeterJournal.v
MeterCounters.v
UsageSystem.v
