(* ===== verification/Prelude.v ===== *)
(** * Verification of the ebpf-wg-mesh control plane and agents

    ebpf-wg-mesh is a platform service written in Go.  A control plane keeps
    its state in an SQL database, several replicas of it contend for leases,
    and agents on the nodes run containers, ship logs and report back.  This
    library models the decision logic and the stateful protocols of the
    program and proves what makes them correct.  Each file corresponds to a
    package or a few files of the sources.

    ** The parts of the program and where they are modelled

    - [RestartPolicy.v]: [internal/restartpolicy/policy.go].  The pure function
      an agent evaluates for every allocation: start, restart after a back-off
      delay, stop, or report a crash loop.  [GoFloat.v] holds the IEEE binary64
      arithmetic the delay is computed in.  The theorems say that the restart
      budget bounds restarts over any history of evaluations from a count within
      a positive limit (a limit of 0 is not covered), that a crash loop
      is left only by an authorized start or a healthy report, that a recorded
      delay is honoured, and that the delay stays in its bounds.
    - [Spool.v]: [internal/logpipeline/spool.go] and [drops.go], the crash-safe
      queue of log records on a node and its ledger of dropped records.
      [Bolt.v] is the interface to the key-value file it is stored in, as a
      class of operations with laws and a map that satisfies them.  The
      theorems are proved against the interface: the stored counters are exact
      after any sequence of operations, every record is pending, acknowledged
      or counted as dropped, [Append] admits whole batches in order and its
      eviction loop ends, [Commit] acknowledges exactly what was read, a batch
      being read is never evicted, and abandoning or rewinding keeps the account.
    - [Rollout.v]: [internal/controlplane/delivery/rollout_plan.go] with the
      allocation helpers of [allocations.go] and the strategy defaults of
      [service_spec.go].  Planning a rolling update never lowers serving
      capacity, touches only the allocations it may, stays within surge and
      target limits, and completes only when it should.
    - [Placement.v]: [placement.go] and the candidate filters of
      [allocations.go].  Which agent a replica goes to, the batch loop that
      reserves capacity, and the address pools.
    - [Lease.v]: [internal/controlplane/lease.go] and
      [internal/reconciliation/grant.go].  Lease rows with fencing tokens, the
      guard around writes, and the grants agents check before they obey.
      Replicas that acquire, renew, release and write are a step relation;
      fencing holds in every reachable state.
    - [DurableWork.v]: [internal/controlplane/durablework].  The work queue of
      the control plane: enqueueing with deduplication, claiming with an owner
      epoch, heartbeats, completion, failure with retries, pruning.  Workers
      are a step relation over the table; superseded owners are fenced out,
      live leases are exclusive, attempts are bounded, and claims are fair.
    - [Billing.v] and [ClosePeriod.v]: [internal/controlplane/billing], the
      files [rates.go], [credits.go], [rating.go], [statements.go] and parts of
      [accounts.go] and [billing.go].  Exact prices, rounding and the split
      into cents, the credit ledger, and the transaction that closes a period:
      it rates usage, consumes credit, carries small balances, opens the next
      period, freezes the statement and enqueues its invoice with
      [DurableWork.EnqueueTx].  Statements add up to the cent, a period is
      frozen once, balances are carried once, windows tile time, and a
      finalized statement has its work item.
    - [Accounts.v], [Restrictions.v] and [Quotas.v]: [accounts.go],
      [restrictions.go] and [quotas.go] of the same package.  Provisioning gives
      every workspace one account and every user one trial credit, whatever else
      happens to them, the changes other code makes to an account included; unless
      billing is disabled, a pass of the evaluation leaves in every workspace the
      restriction its account calls for, and enforces nothing in shadow mode;
      service changes that pass the quota check keep the limits they are checked
      against, under a fixed plan and without restores.
    - [Authz.v] and [Workspaces.v]: [internal/controlplane/authz/authz.go] and
      [internal/controlplane/workspaces.go].  A scope is the proof of a
      membership: membership is the only grant, resources are as accessible as
      their project, and a denial tells nothing about what exists.  Requests on
      workspaces run on a state later than the one their scope was minted on;
      still, every workspace keeps an administrator, memberships and invitations
      change only by right, and a deleted workspace cannot be reached again.
    - [RowMap.v], [Journal.v], [Projection.v], [Product.v], [JournalStore.v] and
      [JournalSystem.v]: [internal/controlplane/journal] ([table.go],
      [model.go] and [state.go], [projection.go], [product.go], [store.go] and
      [compaction.go]) with the tombstones of
      [internal/controlplane/deletions.go].  The journal is the ordered history
      of the product state.  [RowMap.v] is the persistent table, a treap over
      SHA-256 priorities ([Sha256.v]), which refines a finite map; [Journal.v]
      the states, batches and their difference; [Projection.v] the state with
      the indexes kept step by step, equal to those of a rebuild;
      [Product.v] the SQL tables and what is read from them;
      [JournalStore.v] one replica's commands, receipts, replay and
      notifications; [JournalSystem.v] replicas that share one journal as a
      step relation.  Every replica follows the tables as long as no text has a
      byte that JSON escapes ([command_ok]), a command is applied once for as long
      as its entry or its receipt is on record, which compaction ends only after
      the receipt expired, every scheduled entry carries the epoch its fence
      returned, an error that says a command was not committed is right, entries
      have no gaps and compaction keeps enough of them.
    - [LogPipeline.v], [LogStore.v], [FileLogs.v] and [FileStore.v]:
      [internal/logpipeline] ([cursor.go], [line.go], [batch.go], [backoff.go]
      and [limiter.go]) and [internal/controlplane/logs] ([store.go],
      [file_rows.go], [file_storage.go], [file_lock.go] and [file_query.go]), the
      way of a log line from an agent to a reader.  [LogPipeline.v] has the
      pieces both ends share: a cut line is still text, a limiter is bounded and
      counts what it denies.  [LogStore.v] turns a batch into attributed rows:
      what becomes of every entry, the ones dropped without a count included, and
      that every stored line has a project and an expiry.  [FileLogs.v] is the directory of segment files:
      taking its lock, repairing, naming new segments after the clock, appending,
      rewriting, and pages whose tokens lead through every line of the years 2000
      to 2200 once.  [FileStore.v] has its invariant and shows that histories of
      operations and crashes are runs of an abstract bounded list of records,
      for records that can be read back and a clock that goes on ([clock_runs]).
    - [Metering.v], [MeterJournal.v] and [MeterCounters.v]: [internal/metering]
      ([clock.go], [journal.go], [collector.go], [delivery.go]), the usage an
      agent measures.  [Metering.v] has the timeline, the journal, every
      transaction of the collector and a round of delivery.  The code copies the
      cached metadata of the journal before its transaction begins, so the
      operations whose names end in [_from] take that copy and the stored journal
      apart.  [MeterJournal.v] shows that the timeline never goes back and, over
      histories whose updates do not overlap, that the journal is a contiguous
      run of records within its budget and no record is lost before it was
      acknowledged; [MeterCounters.v] that a task whose samples are folded in the
      order they were read is never charged for more processor time than its
      counter read.  Both have an example of what happens otherwise.
    - [UsageRecords.v], [UsageIngest.v], [UsageLedger.v] and [UsageCursors.v]:
      [api/proto/agentv1/usage.go] and [internal/controlplane/usage]
      ([validate.go], [ingest.go], [attribution.go], [maintain.go] and the
      tables and partitions of [schema.go]).  A report of records is checked,
      fenced by the session, deduplicated by digest, attributed, stored and
      added to hourly totals in one transaction.  Over any history the totals
      are those of a rebuild, the intervals of a resource do not overlap, a
      sequence is stored once, an acknowledgement covers only what is recorded,
      and a report sent again changes nothing.
    - [UsageSystem.v]: both ends joined.  Rounds of delivery bring the whole
      journal of an agent to the control plane, when both ends agree on the cursor
      and the control plane accepts the records ([synced]).
    - [GoText.v]: runes, byte removal and [json.Valid] of the Go library.
      [GoTime.v]: the calendar of package [time].

    ** How code is translated

    A Go struct is a [Record] with the same fields (prefixed where a field name
    is used twice), an enumeration an [Inductive] type, [(T, error)] the sum
    [result], a pointer or a nullable column an [option].  Integers are [Z];
    where the code can reach the end of a machine width the wrap is written
    out ([wrap32], [wrap64], [uwrap64]), and theorems name the bound under
    which none happens.  Times are nanoseconds from Go's zero time.  A table is
    a list of rows or a finite map, an SQL statement the function on it that
    the text describes, and a transaction one step.  [sort.Slice] on total
    orders is the insertion sort [isort].  Random draws, clocks, fresh
    identities and the results of queries outside the model are arguments.
    JSON encodings ([encoding/json], [protojson]), the parser of [net/mail] and
    the letters outside ASCII are parameters; where a theorem needs a law of
    them (decoding what was encoded) it is a named hypothesis, and a witness
    instantiates the parameter.  [stamp] is the precision of a stored time.
    A handler that reads outside its transaction takes both states.

    Bounded recursion: [make_room] in [Spool.v] takes as many rounds as there
    are records, and [append_loop_terminates] shows that to be enough; the
    trimming, rune and JSON scanners take the length of their input (twice it
    for JSON), each round consuming a byte; the address walks take the number
    of addresses, as the loops in the source do; [claim_sweep] takes the eight
    rounds of the source; [month_of] takes the twelve months of a year;
    [search_loop] in [FileLogs.v] takes the length of the page, [make_space] in
    [LogPipeline.v] the number of buckets, [follow] one round per stored record.
    The loops of the usage journal are structural on its records.

    ** What the modelling showed

    The files prove by example where the code departs from its intent: a text
    with an escaped byte makes a replica append an entry without effect
    ([JournalSystem.v]), a cancelled account is released when its last period
    closes ([Restrictions.v]), a product of replicas and resources can wrap and
    pass the quota ([Quotas.v]), a log line of escaped characters is stored but
    can never be read, which blocks the store ([FileStore.v]), a cut attribute is
    not text ([LogPipeline.v]), the walk over an address pool skips addresses
    ([Placement.v]), the total row of the exported statement has a column too
    many ([Billing.v]), a usage record with an identity cut within a letter makes
    its report fail for ever ([UsageCursors.v]), and a minute across a step of
    the clock can be refused and a volume's epochs overlap after a reboot with
    the clock behind ([MeterJournal.v]).  Three more need a particular timing: a
    clock that stepped back names a new segment before the older ones, and the
    next append over budget then loses newer records first ([FileStore.v]); an
    acknowledgement that overlaps a tick takes the journal's sequence back, and
    an unacknowledged record is overwritten ([MeterJournal.v]); a sample that a
    tick overtakes lowers the last reading, and the time is charged twice
    ([MeterCounters.v]).

    ** What is not modelled, and why

    Goroutines, channels, timers and network calls (the loops of [Run] and
    [hold] appear as steps), the SQL engine beyond the statements used, RPC
    servers and presentation, live state caches, the payment provider, source
    and registry clients, builders, kernel and container interfaces of the
    agent, backup and operator tooling.  Of deletions only tombstones are
    modelled, of log storage only the file backend (the other is a database of a
    third party) without failures of the operating system, of usage neither the
    queries for display nor the monitor, of metering neither the sources of
    samples nor the health message.  Usage sums are inputs of billing.  The
    persistence of rollouts, the garbage collection of deletions, routing and the
    configuration of the proxies are state kept in other tables and caches by
    code that is mostly queries, and are left for later. *)

From Stdlib Require Export ZArith Lia.
From stdpp Require Export base option list_numbers sorting gmap strings pretty numbers.
From stdpp Require Export list.

#[global] Open Scope Z_scope.

(** ** Notations *)

Declare Scope go_scope.
Delimit Scope go_scope with go.

(** ** Fallible Go calls: [(T, error)] as a sum *)

Inductive result (E A : Type) : Type :=
| Ok (a : A)
| Err (e : E).
Arguments Ok {E A} _.
Arguments Err {E A} _.

#[export] Instance result_ret {E} : MRet (result E) := fun A a => Ok a.
#[export] Instance result_bind {E} : MBind (result E) :=
  fun A B f r => match r with Ok a => f a | Err e => Err e end.
#[export] Instance result_fmap {E} : FMap (result E) :=
  fun A B f r => match r with Ok a => Ok (f a) | Err e => Err e end.

(** [if cond { return err }] *)
Definition guard_err {E} (c : bool) (e : E) : result E unit :=
  if c then Err e else Ok tt.

Definition is_ok {E A} (r : result E A) : bool :=
  match r with Ok _ => true | Err _ => false end.

Section Results.
Context {E A B : Type}.

Lemma bind_ok (r : result E A) (f : A -> result E B) b :
  r ≫= f = Ok b <-> exists a, r = Ok a /\ f a = Ok b.
Proof. destruct r; simpl; split; naive_solver. Qed.

Lemma bind_err (r : result E A) (f : A -> result E B) e :
  r ≫= f = Err e <-> r = Err e \/ exists a, r = Ok a /\ f a = Err e.
Proof. destruct r; simpl; split; naive_solver. Qed.

Lemma guard_err_ok (c : bool) (e : E) : guard_err c e = Ok tt <-> c = false.
Proof. destruct c; simpl; split; naive_solver. Qed.

Lemma is_ok_true (r : result E A) : is_ok r = true <-> exists a, r = Ok a.
Proof. destruct r; simpl; split; naive_solver. Qed.
End Results.

(** ** Functional record update

    [r <| f := v |>] is the record [r] with its field [f] replaced by [v].  A
    record joins by an [Eta] instance that rebuilds it from its fields. *)

Class Eta (T : Type) := eta_expand : T -> T.
Class FieldSetter {T A : Type} (f : T -> A) := set_field : A -> T -> T.

Ltac build_setter :=
  lazymatch goal with
  | |- @FieldSetter ?T ?A ?f =>
      let v := fresh "v" in let r := fresh "r" in intros v r;
      let e := eval hnf in (@eta_expand T _ r) in
      let p := eval pattern (f r) in e in
      lazymatch p with
      | ?g _ => let t := eval cbv beta in (g v) in exact t
      end
  end.

#[export] Hint Extern 0 (FieldSetter _) => build_setter : typeclass_instances.

Notation "r <| f := v |>" := (set_field (f := f) v r)
  (at level 1, f constr at level 9, v at level 200, left associativity,
   format "r  <| f  :=  v |>") : go_scope.
#[global] Open Scope go_scope.

(** ** Machine integers *)

Definition two32 : Z := 4294967296.
Definition two64 : Z := 18446744073709551616.

Definition uwrap32 (z : Z) : Z := z mod two32.
Definition uwrap64 (z : Z) : Z := z mod two64.
Definition wrap32 (z : Z) : Z := (z + 2147483648) mod two32 - 2147483648.
Definition wrap64 (z : Z) : Z := (z + 9223372036854775808) mod two64 - 9223372036854775808.

Definition in_int32 (z : Z) : Prop := -2147483648 <= z <= 2147483647.
Definition in_int64 (z : Z) : Prop := -9223372036854775808 <= z <= 9223372036854775807.
Definition in_uint64 (z : Z) : Prop := 0 <= z < two64.

Lemma wrap32_small z : in_int32 z -> wrap32 z = z.
Proof. unfold in_int32, wrap32, two32. intros. rewrite Z.mod_small; lia. Qed.

Lemma wrap64_small z : in_int64 z -> wrap64 z = z.
Proof. unfold in_int64, wrap64, two64. intros. rewrite Z.mod_small; lia. Qed.

Lemma uwrap64_small z : in_uint64 z -> uwrap64 z = z.
Proof. unfold in_uint64, uwrap64. intros. apply Z.mod_small. lia. Qed.

Lemma uwrap32_small z : 0 <= z < 2 ^ 32 -> uwrap32 z = z.
Proof. unfold uwrap32. intros. apply Z.mod_small. done. Qed.

Lemma wrap32_in z : in_int32 (wrap32 z).
Proof.
  unfold in_int32, wrap32. pose proof (Z.mod_pos_bound (z + 2147483648) two32 ltac:(reflexivity)).
  unfold two32 in *. lia.
Qed.

Lemma wrap64_in z : in_int64 (wrap64 z).
Proof.
  unfold in_int64, wrap64.
  pose proof (Z.mod_pos_bound (z + 9223372036854775808) two64 ltac:(reflexivity)).
  unfold two64 in *. lia.
Qed.

(** Congruence modulo [2^64]: how unsigned counters compare. *)
Definition eqm64 (a b : Z) : Prop := exists k, a = b + k * two64.
Infix "≡64" := eqm64 (at level 70, no associativity) : go_scope.

#[export] Instance eqm64_equiv : Equivalence eqm64.
Proof.
  split.
  - intros a. exists 0. lia.
  - intros a b [k ->]. exists (- k). lia.
  - intros a b c [k ->] [j ->]. exists (k + j). lia.
Qed.

#[export] Instance eqm64_add : Proper (eqm64 ==> eqm64 ==> eqm64) Z.add.
Proof. intros a a' [k ->] b b' [j ->]. exists (k + j). lia. Qed.

#[export] Instance eqm64_sub : Proper (eqm64 ==> eqm64 ==> eqm64) Z.sub.
Proof. intros a a' [k ->] b b' [j ->]. exists (k - j). lia. Qed.

Lemma uwrap64_eqm z : uwrap64 z ≡64 z.
Proof. exists (- (z / two64)). unfold uwrap64. rewrite Z.mod_eq by done. lia. Qed.

(** ** Time

    An instant is a count of nanoseconds from Go's zero [time.Time]
    (January 1 of year 1, UTC), so [IsZero] is equality with 0.  A
    [*timestamppb.Timestamp] is an [option] of an instant: [nil] is [None]. *)

Abbreviation time := Z (only parsing).
Abbreviation duration := Z (only parsing).
Abbreviation timestamp := (option Z) (only parsing).

Definition nanosecond : duration := 1.
Definition microsecond : duration := 1000.
Definition millisecond : duration := 1000000.
Definition second : duration := 1000000000.
Definition minute : duration := 60 * second.
Definition hour : duration := 60 * minute.

Definition zero_time : time := 0.
Definition is_zero (t : time) : bool := t =? 0.

(** The instant of the Unix epoch on this scale: 62135596800 seconds. *)
Definition unix_epoch : time := 62135596800 * second.

(** [Time.Sub] saturates at the range of a [Duration]. *)
Definition time_sub (a b : time) : duration :=
  Z.max (-9223372036854775808) (Z.min 9223372036854775807 (a - b)).

Definition as_time (ts : timestamp) : time := default unix_epoch ts.

(** ** Lists *)

Definition sumZ {A} (f : A -> Z) (l : list A) : Z := foldr (fun a s => f a + s) 0 l.

Definition countb {A} (p : A -> bool) (l : list A) : Z :=
  sumZ (fun a => if p a then 1 else 0) l.

Definition len {A} (l : list A) : Z := Z.of_nat (length l).

Section ListSums.
Context {A : Type}.
Implicit Types (l : list A).

Lemma sumZ_app (f : A -> Z) l1 l2 : sumZ f (l1 ++ l2) = sumZ f l1 + sumZ f l2.
Proof. induction l1; simpl; lia. Qed.

Lemma sumZ_nonneg (f : A -> Z) l : (forall a, a ∈ l -> 0 <= f a) -> 0 <= sumZ f l.
Proof.
  induction l as [|a l IH]; simpl; intros H; [lia|].
  pose proof (H a ltac:(set_solver)).
  specialize (IH ltac:(set_solver)). lia.
Qed.

Lemma sumZ_plus (f g : A -> Z) l : sumZ (fun a => f a + g a) l = sumZ f l + sumZ g l.
Proof. unfold sumZ. induction l as [|a l IH]; cbn [foldr]; [done|]. lia. Qed.

Lemma sumZ_map {B} (h : B -> A) (f : A -> Z) (l : list B) : sumZ f (map h l) = sumZ (fun b => f (h b)) l.
Proof. unfold sumZ. induction l as [|a l IH]; cbn [foldr map]; [done|]. by rewrite IH. Qed.

Lemma sumZ_ext (f g : A -> Z) l : (forall a, a ∈ l -> f a = g a) -> sumZ f l = sumZ g l.
Proof.
  induction l as [|a l IH]; simpl; intros H; [done|].
  rewrite (H a), IH; set_solver.
Qed.

Lemma sumZ_const l : sumZ (fun _ => 1) l = len l.
Proof. unfold len. induction l; simpl; lia. Qed.

Lemma sumZ_permutation (f : A -> Z) l1 l2 : l1 ≡ₚ l2 -> sumZ f l1 = sumZ f l2.
Proof. induction 1; simpl; lia. Qed.

Lemma countb_cons p (a : A) l : countb p (a :: l) = (if p a then 1 else 0) + countb p l.
Proof. reflexivity. Qed.

Lemma countb_app (p : A -> bool) l1 l2 : countb p (l1 ++ l2) = countb p l1 + countb p l2.
Proof. apply sumZ_app. Qed.

Lemma countb_nonneg (p : A -> bool) l : 0 <= countb p l.
Proof. apply sumZ_nonneg. intros a _. destruct (p a); lia. Qed.

Lemma countb_le_len (p : A -> bool) l : countb p l <= len l.
Proof. unfold countb, len. induction l as [|a l IH]; simpl; [lia|]. destruct (p a); lia. Qed.

Lemma countb_none (p : A -> bool) l : (forall a, a ∈ l -> p a = false) -> countb p l = 0.
Proof.
  unfold countb, sumZ. induction l as [|a l IH]; intros Hp; [done|]. cbn [foldr].
  rewrite Hp, IH by set_solver. done.
Qed.

(** A condition that only one key of the list meets counts one. *)
Lemma countb_one {B} (key : A -> B) (p : A -> bool) l x :
  NoDup (map key l) -> x ∈ l -> p x = true -> (forall a, a ∈ l -> p a = true -> key a = key x) -> countb p l = 1.
Proof.
  induction l as [|a l IH]; intros Hn Hx Hp Hk; [set_solver|].
  cbn [map] in Hn. apply NoDup_cons in Hn as [Ha Hn].
  change (countb p (a :: l)) with ((if p a then 1 else 0) + countb p l).
  assert (Hin : forall b, b ∈ l -> key b ∈ map key l) by (intros b Hb; by apply list_elem_of_fmap_2).
  apply elem_of_cons in Hx as [<-|Hx].
  - rewrite Hp, countb_none; [done|]. intros b Hb. destruct (p b) eqn:E; [|done].
    destruct Ha. rewrite <- (Hk b) by set_solver. auto.
  - rewrite IH by (try done; intros; apply Hk; set_solver). destruct (p a) eqn:E; [|done].
    destruct Ha. rewrite (Hk a) by set_solver. auto.
Qed.

Lemma NoDup_map_eq {B} (key : A -> B) l x y :
  NoDup (map key l) -> x ∈ l -> y ∈ l -> key x = key y -> x = y.
Proof.
  induction l as [|a l IH]; cbn; intros Hn Hx Hy E; [set_solver|].
  apply NoDup_cons in Hn as [Ha Hn].
  apply elem_of_cons in Hx as [->|Hx], Hy as [->|Hy]; auto; destruct Ha; [rewrite E|rewrite <- E];
    by apply list_elem_of_fmap_2.
Qed.

Lemma find_app (p : A -> bool) l1 l2 :
  List.find p (l1 ++ l2) = match List.find p l1 with Some a => Some a | None => List.find p l2 end.
Proof. induction l1 as [|a l1 IH]; [done|]. cbn. by destruct (p a). Qed.

Lemma filter_all (f : A -> bool) l : (forall a, a ∈ l -> f a = true) -> List.filter f l = l.
Proof.
  induction l as [|a l IH]; cbn; intros H; [done|]. rewrite (H a) by set_solver. f_equal. apply IH. set_solver.
Qed.

Lemma NoDup_map_filter {B} (key : A -> B) (p : A -> bool) l : NoDup (map key l) -> NoDup (map key (List.filter p l)).
Proof.
  induction l as [|a l IH]; [done|]. cbn. intros [Ha Hl]%NoDup_cons. destruct (p a); [|by apply IH]. cbn. apply NoDup_cons.
  split; [|by apply IH]. intros (b & E & Hb)%list_elem_of_fmap. apply Ha. rewrite E. apply list_elem_of_fmap_2.
  rewrite list_elem_of_In, filter_In, <- list_elem_of_In in Hb. by destruct Hb.
Qed.

Lemma countb_filter (P : A -> Prop) `{!forall a, Decision (P a)} (p : A -> bool) l :
  (forall a, p a = true <-> P a) -> countb p l = len (filter P l).
Proof.
  intros Hp. unfold countb, sumZ, len. induction l as [|a l IH]; [done|]. cbn [foldr]. rewrite IH, filter_cons.
  specialize (Hp a). destruct (decide (P a)); destruct (p a); cbn [length]; naive_solver lia.
Qed.

Lemma filter_id (P : A -> Prop) `{!forall a, Decision (P a)} l :
  (forall a, a ∈ l -> P a) -> filter P l = l.
Proof.
  induction l as [|a l IH]; intros Hl; [done|]. rewrite filter_cons, decide_True by (apply Hl; set_solver).
  f_equal. apply IH. set_solver.
Qed.

Lemma list_filter_iff' (P Q : A -> Prop) `{!forall a, Decision (P a), !forall a, Decision (Q a)} l :
  (forall a, a ∈ l -> P a <-> Q a) -> filter P l = filter Q l.
Proof.
  induction l as [|a l IH]; intros Hl; [done|]. rewrite !filter_cons, IH by set_solver.
  specialize (Hl a ltac:(set_solver)). destruct (decide (P a)), (decide (Q a)); naive_solver.
Qed.

Lemma len_map {B} (f : A -> B) l : len (map f l) = len l.
Proof. unfold len. by rewrite length_map. Qed.

Lemma len_app l1 l2 : len (l1 ++ l2) = len l1 + len l2.
Proof. unfold len. rewrite length_app. lia. Qed.

Lemma len_nonneg l : 0 <= len l.
Proof. unfold len. lia. Qed.

Lemma len_cons a l : len (a :: l) = 1 + len l.
Proof. unfold len. simpl. lia. Qed.
End ListSums.

(** ** Sorting

    Go's [sort.SliceStable], and [sort.Slice] on keys that are totally ordered,
    as a stable insertion sort; [leb a b] says that [a] may stand before [b]. *)

Section Sorting.
Context {A : Type} (leb : A -> A -> bool).

Fixpoint insert_sorted (a : A) (l : list A) : list A :=
  match l with
  | [] => [a]
  | b :: l' => if leb a b then a :: b :: l' else b :: insert_sorted a l'
  end.

Definition isort (l : list A) : list A := foldr insert_sorted [] l.

Lemma insert_sorted_perm a l : insert_sorted a l ≡ₚ a :: l.
Proof.
  induction l as [|b l IH]; simpl; [done|].
  destruct (leb a b); [done|]. rewrite IH. apply Permutation_swap.
Qed.

Lemma isort_perm l : isort l ≡ₚ l.
Proof. induction l as [|a l IH]; simpl; [done|]. by rewrite insert_sorted_perm, IH. Qed.

Lemma isort_length l : length (isort l) = length l.
Proof. by rewrite isort_perm. Qed.

Lemma isort_elem x l : x ∈ isort l <-> x ∈ l.
Proof. by rewrite isort_perm. Qed.

Lemma isort_id l : Sorted (fun x y => leb x y = true) l -> isort l = l.
Proof.
  induction 1 as [|a l _ IH Hhd]; [done|]. unfold isort in *. cbn [foldr]. rewrite IH.
  destruct Hhd as [|b l Hb]; cbn; [done|]. by rewrite Hb.
Qed.

Context (leb_total : forall a b, leb a b = false -> leb b a = true).

Lemma insert_sorted_sorted a l :
  Sorted (fun x y => leb x y = true) l ->
  Sorted (fun x y => leb x y = true) (insert_sorted a l).
Proof.
  induction l as [|b l IH]; simpl; intros Hs; [by repeat constructor|].
  destruct (leb a b) eqn:Hab; [by constructor; [|constructor]|].
  inversion Hs as [|? ? Hs' Hhd]; subst.
  constructor; [auto|].
  destruct l as [|c l]; simpl; [by constructor; apply leb_total|].
  destruct (leb a c); constructor; [by apply leb_total|by inversion Hhd].
Qed.

Lemma isort_sorted l : Sorted (fun x y => leb x y = true) (isort l).
Proof. induction l; simpl; [constructor|by apply insert_sorted_sorted]. Qed.
Context (leb_trans : forall a b c, leb a b = true -> leb b c = true -> leb a c = true).

Lemma isort_strongly_sorted l : StronglySorted (fun x y => leb x y = true) (isort l).
Proof. apply Sorted_StronglySorted; [|apply isort_sorted]. intros x y z. apply leb_trans. Qed.
End Sorting.

Lemma sublist_map {A B} (f : A -> B) l1 l2 : l1 `sublist_of` l2 -> map f l1 `sublist_of` map f l2.
Proof. induction 1; cbn; by constructor. Qed.

Lemma StronglySorted_app_in {A} (R : A -> A -> Prop) l1 l2 a b :
  StronglySorted R (l1 ++ l2) -> a ∈ l1 -> b ∈ l2 -> R a b.
Proof.
  induction l1 as [|x l1 IH]; intros Hs Ha Hb; [set_solver|].
  cbn in Hs. apply StronglySorted_inv in Hs as [Hs Hx]. rewrite Forall_forall in Hx.
  apply elem_of_cons in Ha as [->|Ha]; [apply Hx|]; set_solver.
Qed.

(** ** Strings *)

Definition str_eqb (s t : string) : bool := bool_decide (s = t).

Lemma str_eqb_eq s t : str_eqb s t = true <-> s = t.
Proof. apply bool_decide_eq_true. Qed.

Lemma str_eqb_neq s t : str_eqb s t = false <-> s <> t.
Proof. apply bool_decide_eq_false. Qed.

Lemma str_eqb_sym a b : str_eqb a b = str_eqb b a.
Proof. destruct (str_eqb b a) eqn:E; [apply str_eqb_eq in E as ->; by apply str_eqb_eq|]. apply str_eqb_neq in E. by apply str_eqb_neq. Qed.

Lemma string_leb_total s t : String.leb s t = false -> String.leb t s = true.
Proof. unfold String.leb. rewrite (String.compare_antisym t s). by destruct (String.compare s t). Qed.

Lemma string_leb_refl s : String.leb s s = true.
Proof. destruct (String.leb s s) eqn:E; [done|]. by rewrite (string_leb_total _ _ E) in E. Qed.

Lemma string_leb_trans s t u : String.leb s t = true -> String.leb t u = true -> String.leb s u = true.
Proof.
  unfold String.leb. revert t u. induction s as [|a s IH]; intros [|b t] [|c u]; cbn; try done.
  unfold Ascii.compare. specialize (IH t u).
  destruct (N.compare_spec (Ascii.N_of_ascii a) (Ascii.N_of_ascii b)) as [E1|E1|E1],
    (N.compare_spec (Ascii.N_of_ascii b) (Ascii.N_of_ascii c)) as [E2|E2|E2],
    (N.compare_spec (Ascii.N_of_ascii a) (Ascii.N_of_ascii c)) as [E3|E3|E3]; try done; try lia; auto.
Qed.

(** Bytes from their codes. *)
Definition bytes (l : list nat) : string := String.string_of_list_ascii (map Ascii.ascii_of_nat l).

(** The UTF-8 encodings of Go's [unicode.IsSpace] characters. *)
Definition space_encodings : list string :=
  map bytes ([[9]; [10]; [11]; [12]; [13]; [32]; [194; 133]; [194; 160]; [225; 154; 128]]
    ++ map (fun b => [226; 128; b]) [128; 129; 130; 131; 132; 133; 134; 135; 136; 137; 138; 168; 169; 175]
    ++ [[226; 129; 159]; [227; 128; 128]])%nat%list.

Fixpoint trim_prefixes (fuel : nat) (prefixes : list string) (s : string) : string :=
  match fuel with
  | O => s
  | S fuel =>
      match List.find (fun p => String.prefix p s) prefixes with
      | Some p => trim_prefixes fuel prefixes
                    (String.substring (String.length p) (String.length s - String.length p) s)
      | None => s
      end
  end.

Definition string_reverse (s : string) : string :=
  String.string_of_list_ascii (reverse (String.list_ascii_of_string s)).

(** [strings.TrimSpace]; each round removes a byte, so the length is enough fuel. *)
Definition TrimSpace (s : string) : string :=
  let left := trim_prefixes (String.length s) space_encodings s in
  string_reverse (trim_prefixes (String.length left) (map string_reverse space_encodings)
    (string_reverse left)).

Definition firstNonEmpty (values : list string) : string :=
  default "" (List.find (fun v => negb (str_eqb v "")) values).

(** [Duration.String] of a whole number of seconds. *)
Definition seconds_string (n : Z) : string :=
  let u := Z.abs n in
  let h := u / 3600 in let m := u / 60 mod 60 in let s := u mod 60 in
  (if n <? 0 then "-" else "")
  +:+ (if 0 <? h then pretty h +:+ "h" else "")
  +:+ (if 0 <? u / 60 then pretty m +:+ "m" else "")
  +:+ pretty s +:+ "s".

Example TrimSpace_example : TrimSpace (" a b" +:+ bytes [194; 160]%nat +:+ " ") = "a b".
Proof. vm_compute. reflexivity. Qed.
Example seconds_string_example : map seconds_string [0; 300; 3600; -61] = ["0s"; "5m0s"; "1h0m0s"; "-1m1s"].
Proof. vm_compute. reflexivity. Qed.

(** ** Shared automation *)

Create HintDb go.
Create Rewrite HintDb go.
#[export] Hint Rewrite @sumZ_app @countb_app @len_app @len_cons : go.
#[export] Hint Resolve countb_nonneg len_nonneg wrap32_in wrap64_in : go.

(** Case on the first boolean test or match of the goal, keeping its equation. *)
Ltac step_case :=
  match goal with
  | |- context [if ?c then _ else _] =>
      lazymatch c with
      | context [if _ then _ else _] => fail
      | context [match _ with _ => _ end] => fail
      | _ => let H := fresh "Hc" in destruct c eqn:H
      end
  end.

(** Turn boolean comparisons among the hypotheses into propositions. *)
Ltac bool_to_prop :=
  repeat match goal with
  | H : _ && _ = true |- _ => apply andb_true_iff in H; destruct H
  | H : _ || _ = false |- _ => apply orb_false_iff in H; destruct H
  | H : negb _ = true |- _ => apply negb_true_iff in H
  | H : negb _ = false |- _ => apply negb_false_iff in H
  | H : (_ <? _) = true |- _ => apply Z.ltb_lt in H
  | H : (_ <? _) = false |- _ => apply Z.ltb_ge in H
  | H : (_ <=? _) = true |- _ => apply Z.leb_le in H
  | H : (_ <=? _) = false |- _ => apply Z.leb_gt in H
  | H : (_ =? _) = true |- _ => apply Z.eqb_eq in H
  | H : (_ =? _) = false |- _ => apply Z.eqb_neq in H
  | H : str_eqb _ _ = true |- _ => apply str_eqb_eq in H
  | H : str_eqb _ _ = false |- _ => apply str_eqb_neq in H
  end.
