(* ===== verification/GoText.v ===== *)
(** * Text of Go's standard library

    What the sources use of [unicode/utf8], [strings] and [encoding/json] on
    arbitrary bytes: splitting a string into runes the way a [[]rune]
    conversion does (an invalid byte becomes U+FFFD), removing a byte, and
    [json.Valid].  A byte is its code, a [Z] from 0 to 255. *)

From S2P Require Import Prelude.

Definition codes (s : string) : list Z :=
  map (fun a => Z.of_nat (Ascii.nat_of_ascii a)) (String.list_ascii_of_string s).
Definition of_codes (l : list Z) : string :=
  String.string_of_list_ascii (map (fun z => Ascii.ascii_of_nat (Z.to_nat z)) l).

Lemma codes_app s t : codes (s +:+ t) = codes s ++ codes t.
Proof.
  unfold codes. rewrite <- map_app. f_equal. induction s as [|a s IH]; [done|].
  exact (f_equal (cons a) IH).
Qed.

Lemma of_codes_codes s : of_codes (codes s) = s.
Proof.
  unfold of_codes, codes. rewrite map_map.
  erewrite map_ext; [|intros a; by rewrite Nat2Z.id, Ascii.ascii_nat_embedding].
  by rewrite map_id, String.string_of_list_ascii_of_string.
Qed.

Lemma codes_of_codes l : Forall (fun z => 0 <= z < 256) l -> codes (of_codes l) = l.
Proof.
  unfold of_codes, codes. intros H. rewrite String.list_ascii_of_string_of_list_ascii, map_map.
  induction H as [|z l Hz _ IH]; [done|]. cbn [map]. rewrite IH. f_equal.
  rewrite Ascii.nat_ascii_embedding by lia. lia.
Qed.

Lemma codes_range s : Forall (fun z => 0 <= z < 256) (codes s).
Proof.
  unfold codes. induction (String.list_ascii_of_string s) as [|a l IH]; cbn; constructor; [|done].
  pose proof (Ascii.nat_ascii_bounded a). lia.
Qed.

(** ** Runes *)

Definition within (lo hi b : Z) : bool := (lo <=? b) && (b <=? hi).

(** The number of bytes [utf8.DecodeRune] consumes for a well-formed encoding at
    the head of the list, and [None] where it reports [RuneError] of width 1. *)
Definition rune_width (l : list Z) : option nat :=
  let cont b := within 128 191 b in
  match l with
  | [] => None
  | b0 :: rest =>
      if b0 <? 128 then Some 1%nat
      else
        match rest with
        | b1 :: rest =>
            if within 194 223 b0 && cont b1 then Some 2%nat
            else
              match rest with
              | b2 :: rest =>
                  let ok3 := if b0 =? 224 then within 160 191 b1
                             else if b0 =? 237 then within 128 159 b1
                             else within 225 239 b0 && cont b1 in
                  if ok3 && cont b2 then Some 3%nat
                  else
                    match rest with
                    | b3 :: _ =>
                        let ok4 := if b0 =? 240 then within 144 191 b1
                                   else if b0 =? 244 then within 128 143 b1
                                   else within 241 243 b0 && cont b1 in
                        if ok4 && cont b2 && cont b3 then Some 4%nat else None
                    | [] => None
                    end
              | [] => None
              end
        | [] => None
        end
  end.

(** U+FFFD in UTF-8. *)
Definition replacement : list Z := [239; 191; 189].

(** The runes of a string, each as the bytes [string(runes)] writes for it.
    Every round consumes a byte, so the length is enough fuel. *)
Fixpoint runes_fuel (fuel : nat) (l : list Z) : list (list Z) :=
  match fuel with
  | O => []
  | S fuel =>
      match l with
      | [] => []
      | _ =>
          match rune_width l with
          | Some w => take w l :: runes_fuel fuel (drop w l)
          | None => replacement :: runes_fuel fuel (drop 1 l)
          end
      end
  end.
Definition runes (l : list Z) : list (list Z) := runes_fuel (length l) l.

(** [len(runes) > n] and [string(runes[:n])]. *)
Definition rune_count (s : string) : Z := len (runes (codes s)).
Definition truncate_runes (n : nat) (s : string) : string := of_codes (mjoin (take n (runes (codes s)))).

Example runes_example :
  runes (codes ("a" +:+ bytes [195; 169; 128; 240; 159; 152; 128]%nat))
  = [[97]; [195; 169]; [239; 191; 189]; [240; 159; 152; 128]].
Proof. vm_compute. reflexivity. Qed.

(** [strings.ReplaceAll(s, <byte>, "")] *)
Definition remove_byte (b : Z) (s : string) : string := of_codes (filter (fun z => z <> b) (codes s)).

Lemma remove_byte_gone b s : b ∉ codes (remove_byte b s).
Proof.
  unfold remove_byte. rewrite codes_of_codes.
  - rewrite list_elem_of_filter. naive_solver.
  - apply Forall_forall. intros z Hz. apply list_elem_of_filter in Hz as [_ Hz].
    pose proof (codes_range s) as H. rewrite Forall_forall in H. auto.
Qed.

(** ** [encoding/json.Valid] *)

Definition json_space (b : Z) : bool := (b =? 32) || (b =? 9) || (b =? 13) || (b =? 10).
Fixpoint skip_space (l : list Z) : list Z :=
  match l with b :: l' => if json_space b then skip_space l' else l | [] => [] end.

Definition digit (b : Z) : bool := within 48 57 b.
Definition hex (b : Z) : bool := digit b || within 97 102 b || within 65 70 b.

(** The rest of the input after a string whose opening quote has been read. *)
Fixpoint json_string (l : list Z) : option (list Z) :=
  match l with
  | [] => None
  | b :: l =>
      if b =? 34 then Some l
      else if b =? 92 then
        match l with
        | e :: l =>
            if bool_decide (e ∈ [98; 102; 110; 114; 116; 92; 47; 34]) then json_string l
            else if e =? 117 then
              match l with
              | h1 :: h2 :: h3 :: h4 :: l =>
                  if hex h1 && hex h2 && hex h3 && hex h4 then json_string l else None
              | _ => None
              end
            else None
        | [] => None
        end
      else if b <? 32 then None
      else json_string l
  end.

Fixpoint skip_digits (l : list Z) : list Z :=
  match l with b :: l' => if digit b then skip_digits l' else l | [] => [] end.
Definition some_digits (l : list Z) : option (list Z) :=
  match l with b :: l' => if digit b then Some (skip_digits l') else None | [] => None end.

Definition json_exponent (l : list Z) : option (list Z) :=
  match l with
  | e :: l' =>
      if (e =? 101) || (e =? 69) then
        match l' with
        | s :: l'' => if (s =? 43) || (s =? 45) then some_digits l'' else some_digits l'
        | [] => None
        end
      else Some l
  | [] => Some l
  end.
Definition json_fraction (l : list Z) : option (list Z) :=
  match l with
  | 46 :: l' => some_digits l' ≫= json_exponent
  | _ => json_exponent l
  end.
Definition json_number (l : list Z) : option (list Z) :=
  match (match l with 45 :: l' => l' | _ => l end) with
  | 48 :: l' => json_fraction l'
  | b :: l' => if within 49 57 b then json_fraction (skip_digits l') else None
  | [] => None
  end.

Definition json_word (word l : list Z) : option (list Z) :=
  if bool_decide (take (length word) l = word) then Some (drop (length word) l) else None.

Definition maxNestingDepth : Z := 10000.

(** What the scanner expects next: a value, the members of an object after [{]
    or [,], or the elements of an array after [[] or [,]. *)
Inductive json_mode := JValue | JMembers | JElements.

(** Every call but the two tail calls of a container reads a byte, and those
    follow one that did: twice the length is enough fuel. *)
Fixpoint json_scan (fuel : nat) (mode : json_mode) (depth : Z) (l : list Z) : option (list Z) :=
  match fuel with
  | O => None
  | S fuel =>
      match mode, skip_space l with
      | JValue, 123 :: l =>
          if maxNestingDepth <=? depth then None
          else match skip_space l with
               | 125 :: l => Some l
               | l => json_scan fuel JMembers (depth + 1) l
               end
      | JValue, 91 :: l =>
          if maxNestingDepth <=? depth then None
          else match skip_space l with
               | 93 :: l => Some l
               | l => json_scan fuel JElements (depth + 1) l
               end
      | JValue, 34 :: l => json_string l
      | JValue, (116 :: _) as l => json_word [116; 114; 117; 101] l
      | JValue, (102 :: _) as l => json_word [102; 97; 108; 115; 101] l
      | JValue, (110 :: _) as l => json_word [110; 117; 108; 108] l
      | JValue, l => json_number l
      | JMembers, 34 :: l =>
          l ← json_string l;
          match skip_space l with
          | 58 :: l =>
              l ← json_scan fuel JValue depth l;
              match skip_space l with
              | 44 :: l => json_scan fuel JMembers depth l
              | 125 :: l => Some l
              | _ => None
              end
          | _ => None
          end
      | JMembers, _ => None
      | JElements, l =>
          l ← json_scan fuel JValue depth l;
          match skip_space l with
          | 44 :: l => json_scan fuel JElements depth l
          | 93 :: l => Some l
          | _ => None
          end
      end
  end.

Definition json_valid (s : string) : bool :=
  let l := codes s in
  match json_scan (S (2 * length l)) JValue 0 l with
  | Some rest => bool_decide (skip_space rest = [])
  | None => false
  end.

(** A quotation mark, which a literal cannot contain. *)
Definition dq : string := bytes [34%nat].

Example json_valid_examples :
  map json_valid ["{}"; " [1, -0.5e+3, true] "; "[1,]"; "01"; "{" +:+ dq +:+ "a" +:+ dq +:+ ":[{}]}"; ""; "nul"]
  = [true; true; false; false; true; false; false].
Proof. vm_compute. reflexivity. Qed.
