(* ===== verification/GoFloat.v ===== *)
(** * Go's [float64]

    IEEE 754 binary64 arithmetic on the Standard Library's [spec_float]
    (round to nearest, ties to even), the comparisons and conversions the
    repository uses, and the integer-exponent path of [math.Pow].  Everything
    computes; no axiom of primitive floats is involved. *)

From S2P Require Import Prelude.
From Stdlib Require Import SpecFloat.

Abbreviation float64 := spec_float (only parsing).

(** ** Arithmetic *)

Definition fadd (x y : float64) : float64 := SFadd 53 1024 x y.
Definition fsub (x y : float64) : float64 := SFsub 53 1024 x y.
Definition fmul (x y : float64) : float64 := SFmul 53 1024 x y.
Definition fdiv (x y : float64) : float64 := SFdiv 53 1024 x y.

(** [float64(n)] for an integer [n]. *)
Definition of_int (n : Z) : float64 := binary_normalize 53 1024 n 0 false.

(** The float nearest to [num * 2^e]: used to write constants. *)
Definition f_zero : float64 := S754_zero false.
Definition f_one : float64 := of_int 1.
Definition f_two : float64 := of_int 2.
Definition f_half : float64 := fdiv f_one f_two.

Definition is_nan (x : float64) : bool := match x with S754_nan => true | _ => false end.
Definition is_inf (x : float64) : bool := match x with S754_infinity _ => true | _ => false end.
Definition is_finite (x : float64) : bool := negb (is_nan x) && negb (is_inf x).
(** No sign bit on a nonzero number: zero counts as nonnegative. *)
Definition is_nonneg (x : float64) : bool :=
  match x with S754_finite s _ _ | S754_infinity s => negb s | _ => true end.

(** ** Comparison by value, false on NaN *)

Definition mantissa (x : float64) : Z :=
  match x with S754_finite true m _ => Zneg m | S754_finite false m _ => Zpos m | _ => 0 end.
Definition exponent (x : float64) : Z :=
  match x with S754_finite _ _ e => e | _ => 0 end.

(** Comparison of [a * 2^ea] with [b * 2^eb]. *)
Definition scaled_cmp (a ea b eb : Z) : comparison :=
  let e := Z.min ea eb in (a * 2 ^ (ea - e)) ?= (b * 2 ^ (eb - e)).

Definition fcmp (x y : float64) : option comparison :=
  match x, y with
  | S754_nan, _ | _, S754_nan => None
  | S754_infinity s, S754_infinity s' =>
      Some (if Bool.eqb s s' then Eq else if s then Lt else Gt)
  | S754_infinity s, _ => Some (if s then Lt else Gt)
  | _, S754_infinity s => Some (if s then Gt else Lt)
  | _, _ => Some (scaled_cmp (mantissa x) (exponent x) (mantissa y) (exponent y))
  end.

Definition fgt (x y : float64) : bool := match fcmp x y with Some Gt => true | _ => false end.
Definition flt (x y : float64) : bool := match fcmp x y with Some Lt => true | _ => false end.
Definition fle (x y : float64) : bool :=
  match fcmp x y with Some Lt | Some Eq => true | _ => false end.
Definition feq (x y : float64) : bool := match fcmp x y with Some Eq => true | _ => false end.

(** ** Conversion to integers

    [int64(x)] drops the fraction; the language leaves the result to the
    implementation when the value does not fit, so it is a parameter. *)

Definition ftrunc (x : float64) : Z :=
  Z.quot (mantissa x * 2 ^ Z.max (exponent x) 0) (2 ^ Z.max (- exponent x) 0).

Definition fits_int64 (x : float64) : bool :=
  is_finite x && (-9223372036854775808 <=? ftrunc x) && (ftrunc x <=? 9223372036854775807).

Definition to_int64 (oob : float64 -> Z) (x : float64) : Z :=
  if fits_int64 x then ftrunc x else oob x.

(** ** [math.Pow] for a nonnegative integer exponent

    The package's square-and-multiply loop on [Frexp]'s mantissa. *)

(** One step of the loop for a binary digit: the running product [a1 * 2^ae]
    and the current square [x1 * 2^xe]. *)
Fixpoint pow_loop (i : positive) (a1 : float64) (ae : Z) (x1 : float64) (xe : Z) : float64 * Z :=
  if (xe <? -4096) || (4096 <? xe) then (a1, ae + xe)
  else
    let sq := fmul x1 x1 in
    let xe2 := 2 * xe in
    let small := flt sq f_half in
    let x1' := if small then fadd sq sq else sq in
    let xe' := if small then xe2 - 1 else xe2 in
    match i with
    | xH => (fmul a1 x1, ae + xe)
    | xO i' => pow_loop i' a1 ae x1' xe'
    | xI i' => pow_loop i' (fmul a1 x1) (ae + xe) x1' xe'
    end.

(** [math.Pow(x, float64(n))] for [x] positive or NaN and [0 <= n < 2^31]. *)
Definition fpow (x : float64) (n : Z) : float64 :=
  match n with
  | Zpos p =>
      if feq x f_one then f_one
      else if n =? 1 then x
      else match x with
           | S754_nan => S754_nan
           | S754_zero _ => f_zero
           | S754_infinity s => S754_infinity false
           | S754_finite _ _ _ =>
               let '(x1, xe) := SFfrexp 53 1024 x in
               let '(a1, ae) := pow_loop p f_one 0 x1 xe in
               SFldexp 53 1024 a1 ae
           end
  | _ => f_one
  end.

Example fpow_ex : fpow f_two 10 = of_int 1024.
Proof. vm_compute. reflexivity. Qed.
Example fpow_overflow : fpow f_two 1024 = S754_infinity false.
Proof. vm_compute. reflexivity. Qed.
Example fpow_tenth : ftrunc (fmul (of_int 1000) (fpow (fdiv (of_int 3) f_two) 3)) = 3375.
Proof. vm_compute. reflexivity. Qed.

(** ** Truncation is monotone *)

Section Truncation.
(** The truncation of [a * 2^e], read at any finer scale [2^s]. *)
Lemma quot_scale (a e s : Z) :
  s <= Z.min e 0 ->
  Z.quot (a * 2 ^ Z.max e 0) (2 ^ Z.max (- e) 0) = Z.quot (a * 2 ^ (e - s)) (2 ^ (- s)).
Proof.
  intros Hs.
  assert (Hp : forall k, 0 <= k -> 2 ^ k <> 0) by (intros; apply Z.pow_nonzero; lia).
  destruct (Z.le_ge_cases 0 e) as [He|He].
  - rewrite Z.max_l, (Z.max_r (- e)) by lia. rewrite Z.pow_0_r, Z.quot_1_r.
    replace (e - s) with (e + - s) by lia. rewrite Z.pow_add_r by lia.
    rewrite Z.mul_assoc, Z.quot_mul by (apply Hp; lia). done.
  - rewrite Z.max_r, (Z.max_l (- e)) by lia. rewrite Z.pow_0_r, Z.mul_1_r.
    replace (2 ^ (- s)) with (2 ^ (- e) * 2 ^ (e - s))
      by (rewrite <- Z.pow_add_r by lia; f_equal; lia).
    rewrite Z.quot_mul_cancel_r by (apply Hp; lia). done.
Qed.

Lemma scaled_cmp_not_gt a ea b eb s :
  s <= Z.min ea eb -> scaled_cmp a ea b eb <> Gt -> a * 2 ^ (ea - s) <= b * 2 ^ (eb - s).
Proof.
  unfold scaled_cmp. intros Hs Hc. apply Z.compare_le_iff in Hc.
  set (e := Z.min ea eb) in *.
  replace (ea - s) with ((ea - e) + (e - s)) by lia.
  replace (eb - s) with ((eb - e) + (e - s)) by lia.
  rewrite !Z.pow_add_r, !Z.mul_assoc by lia.
  apply Z.mul_le_mono_nonneg_r; [apply Z.pow_nonneg; lia|done].
Qed.

Lemma ftrunc_le x y :
  is_finite x = true -> is_finite y = true -> fgt x y = false -> ftrunc x <= ftrunc y.
Proof.
  intros Hx Hy Hc. unfold ftrunc.
  assert (Hgt : scaled_cmp (mantissa x) (exponent x) (mantissa y) (exponent y) <> Gt).
  { unfold fgt, fcmp in Hc. destruct x, y; try discriminate; case_match; congruence. }
  set (s := Z.min (Z.min (exponent x) (exponent y)) 0).
  rewrite (quot_scale (mantissa x) _ s), (quot_scale (mantissa y) _ s) by lia.
  apply Z.quot_le_mono; [apply Z.pow_pos_nonneg; lia|].
  apply scaled_cmp_not_gt; [lia|done].
Qed.

Lemma ftrunc_nonneg x : is_nonneg x = true -> 0 <= ftrunc x.
Proof.
  intros Hx. unfold ftrunc. apply Z.quot_pos; [|apply Z.pow_pos_nonneg; lia].
  destruct x as [| | |[] m e]; simpl in *; try lia; try discriminate.
Qed.
End Truncation.

(** ** Signs of products, and exact small integers *)

Lemma binary_round_aux_nonneg m e l :
  is_nonneg (binary_round_aux 53 1024 false m e l) = true.
Proof.
  unfold binary_round_aux. repeat (destruct (shr_fexp _ _ _ _ _)).
  destruct (shr_m _); try done. by destruct (_ <=? _).
Qed.

Lemma fmul_nonneg x y :
  is_nonneg x = true -> is_nonneg y = true -> is_nonneg (fmul x y) = true.
Proof.
  unfold fmul. destruct x as [|[]| |[]], y as [|[]| |[]]; simpl; try done.
  intros _ _. apply binary_round_aux_nonneg.
Qed.

Lemma binary_round_nonneg m e : is_nonneg (binary_round 53 1024 false m e) = true.
Proof. unfold binary_round. destruct (shl_align _ _ _). apply binary_round_aux_nonneg. Qed.

Lemma fadd_self_nonneg x : is_nonneg x = true -> is_nonneg (fadd x x) = true.
Proof.
  unfold fadd. destruct x as [[]|[]| |[] m e]; simpl; try done.
  intros _. rewrite Z.min_id. destruct (shl_align m e e). apply binary_round_nonneg.
Qed.

Lemma of_int_nonneg n : 0 <= n -> is_nonneg (of_int n) = true.
Proof. intros Hn. destruct n; [done|apply binary_round_nonneg|lia]. Qed.

Lemma pow_loop_nonneg i : forall a1 ae x1 xe,
  is_nonneg a1 = true -> is_nonneg x1 = true -> is_nonneg (fst (pow_loop i a1 ae x1 xe)) = true.
Proof.
  induction i as [i IH|i IH|]; intros a1 ae x1 xe Ha Hx; simpl;
    destruct (_ || _); simpl; try done; try (apply IH; [try apply fmul_nonneg; done|]);
    try (by apply fmul_nonneg);
    destruct (flt _ _); try apply fadd_self_nonneg; by apply fmul_nonneg.
Qed.

Lemma fpow_nonneg x n : is_nonneg x = true -> is_nonneg (fpow x n) = true.
Proof.
  intros Hx. unfold fpow. destruct n as [|p|p]; [reflexivity| |reflexivity].
  destruct (feq x f_one); [reflexivity|]. destruct (_ =? 1); [done|].
  destruct x as [s|s| |s m e]; try done.
  destruct s; [done|].
  destruct (SFfrexp 53 1024 (S754_finite false m e)) as [x1 xe] eqn:Hf.
  assert (is_nonneg x1 = true).
  { simpl in Hf. destruct (_ <=? _); by injection Hf as <- <-. }
  pose proof (pow_loop_nonneg p f_one 0 x1 xe eq_refl ltac:(done)) as Hl.
  destruct (pow_loop _ _ _ _ _) as [a1 ae]. cbn [fst] in Hl.
  destruct a1 as [|[]| |[]]; try exact Hl; [discriminate Hl|apply binary_round_nonneg].
Qed.

(** *** Integers below [2^53] are represented exactly *)

Lemma digits2_size m : digits2_pos m = Pos.size m.
Proof. induction m; simpl; congruence. Qed.

Lemma digits2_bound m : Zpos m < 2 ^ 53 -> Zpos (digits2_pos m) <= 53.
Proof.
  intros Hm. rewrite digits2_size. pose proof (Pos.size_le m) as Hs.
  apply Pos2Z.pos_le_pos in Hs. rewrite Pos2Z.inj_pow, (Pos2Z.inj_xO m) in Hs.
  apply Z.lt_succ_r. apply (Z.pow_lt_mono_r_iff 2); [lia|lia|].
  change (2 ^ Z.succ 53) with (2 * 2 ^ 53). lia.
Qed.

Lemma iter_xO_val m k : Zpos (Pos.iter xO m k) = Zpos m * 2 ^ Zpos k.
Proof.
  induction k as [|k IH] using Pos.peano_ind; [simpl; lia|].
  rewrite Pos.iter_succ, Pos2Z.inj_xO, IH, Pos2Z.inj_succ, Z.pow_succ_r by lia. lia.
Qed.

Lemma iter_xO_digits m k : Zpos (digits2_pos (Pos.iter xO m k)) = Zpos (digits2_pos m) + Zpos k.
Proof.
  induction k as [|k IH] using Pos.peano_ind; [simpl; lia|].
  rewrite Pos.iter_succ. cbn [digits2_pos]. rewrite !Pos2Z.inj_succ, IH. lia.
Qed.

(** A mantissa of exactly 53 digits at a legal exponent needs no rounding. *)
Lemma binary_round_aux_exact m e :
  Zpos (digits2_pos m) = 53 -> -1074 <= e <= 971 ->
  binary_round_aux 53 1024 false (Zpos m) e loc_Exact = S754_finite false m e.
Proof.
  intros Hd He.
  assert (Hs : shr_fexp 53 1024 (Zpos m) e loc_Exact = (Build_shr_record (Zpos m) false false, e)).
  { unfold shr_fexp, fexp, emin. cbn [Zdigits2 shr_record_of_loc]. rewrite Hd.
    replace (Z.sub _ e) with 0 by lia. reflexivity. }
  unfold binary_round_aux. rewrite Hs. cbn [shr_m loc_of_shr_record round_nearest_even].
  rewrite Hs. cbn [shr_m]. replace (e <=? 1024 - 53) with true by (symmetry; apply Z.leb_le; lia).
  reflexivity.
Qed.

Lemma of_int_exact m :
  Zpos m < 2 ^ 53 ->
  exists m' k, of_int (Zpos m) = S754_finite false m' (- k) /\ 0 <= k /\ Zpos m' = Zpos m * 2 ^ k.
Proof.
  intros Hm. pose proof (digits2_bound m Hm) as Hd.
  set (d := Zpos (digits2_pos m)) in *. assert (1 <= d) by (unfold d; lia).
  unfold of_int, binary_normalize, binary_round, fexp, emin, shl_align.
  fold d. replace (Z.max (d + 0 - 53) (3 - 1024 - 53)) with (d - 53) by lia.
  rewrite Z.sub_0_r. destruct (d - 53) as [|p|p] eqn:Hp.
  - exists m, 0. rewrite binary_round_aux_exact by (fold d; lia). split_and!; [done|lia|lia].
  - lia.
  - exists (Pos.iter xO m p), (Zpos p).
    rewrite binary_round_aux_exact by (rewrite ?iter_xO_digits; fold d; lia).
    split_and!; [done|lia|apply iter_xO_val].
Qed.

Lemma of_int_finite n : 0 <= n < 2 ^ 53 -> is_finite (of_int n) = true.
Proof.
  intros Hn. destruct n as [|m|m]; [done| |lia].
  destruct (of_int_exact m) as (m' & k & -> & _); [lia|done].
Qed.

Lemma ftrunc_of_int n : 0 <= n < 2 ^ 53 -> ftrunc (of_int n) = n.
Proof.
  intros Hn. destruct n as [|m|m]; [done| |lia].
  destruct (of_int_exact m) as (m' & k & -> & Hk & Hv); [lia|].
  unfold ftrunc. cbn [mantissa exponent]. rewrite Hv, Z.opp_involutive.
  rewrite Z.max_r, (Z.max_l k) by lia. rewrite Z.pow_0_r, Z.mul_1_r.
  apply Z.quot_mul, Z.pow_nonzero; lia.
Qed.
