(* ===== verification/RestartPolicy.v ===== *)
(** * The restart policy of one allocation ([internal/restartpolicy])

    [policy.go] decides, from a service's restart settings, the durable restart
    observation and the state of the process, whether the agent keeps, starts,
    delays, stops or gives up on a workload.  The file models the settings and
    their canonical form, the merge of a local with a remote observation, the
    back-off delay in binary64 arithmetic, and [Evaluate] itself on every
    branch; it proves the restart budget, the absorbing crash loop, the bounds
    of the delay and the ordering that the merge implements. *)

From S2P Require Import Prelude GoFloat.

(** ** Data *)

(** Protobuf enumerations are open: a wire value outside the named ones is
    kept as its number. *)
Inductive RestartPolicy_t : Type :=
| RESTART_POLICY_UNSPECIFIED
| RESTART_POLICY_ALWAYS
| RESTART_POLICY_ON_FAILURE
| RESTART_POLICY_NEVER
| RESTART_POLICY_OTHER (n : Z).

Inductive RestartCause : Type :=
| RESTART_CAUSE_UNSPECIFIED
| RESTART_CAUSE_EXIT_ZERO
| RESTART_CAUSE_EXIT_NONZERO
| RESTART_CAUSE_SIGNAL
| RESTART_CAUSE_OOM_KILL
| RESTART_CAUSE_LIVENESS
| RESTART_CAUSE_OPERATOR
| RESTART_CAUSE_NODE_LOSS
| RESTART_CAUSE_DISK_EXHAUSTED
| RESTART_CAUSE_OTHER (n : Z).

#[export] Instance RestartPolicy_eq_dec : EqDecision RestartPolicy_t.
Proof. solve_decision. Defined.
#[export] Instance RestartCause_eq_dec : EqDecision RestartCause.
Proof. solve_decision. Defined.

Record ServiceRestart := mkServiceRestart {
  Policy : RestartPolicy_t;
  MaxRestarts : Z;
  WindowSeconds : Z;
  InitialDelayMs : Z;
  MaxDelayMs : Z;
  BackoffMultiplier : float64;
  Jitter : float64;
  StableAfterSeconds : Z;
}.

#[export] Instance ServiceRestart_eta : Eta ServiceRestart := fun r =>
  mkServiceRestart (Policy r) (MaxRestarts r) (WindowSeconds r) (InitialDelayMs r)
    (MaxDelayMs r) (BackoffMultiplier r) (Jitter r) (StableAfterSeconds r).

Record RestartObservation := mkRestartObservation {
  RestartCount : Z;
  WindowStartedAt : timestamp;
  LastRestartAt : timestamp;
  NextRestartAt : timestamp;
  StartedAt : timestamp;
  LastCause : RestartCause;
  LastExitCode : Z;
  LastSignal : Z;
  CrashLoop : bool;
  AppliedRolloutGeneration : Z;
  AppliedOperatorRestartNonce : Z;
  ObsMessage : string;
  AwaitingRestart : bool;
}.

#[export] Instance RestartObservation_eta : Eta RestartObservation := fun o =>
  mkRestartObservation (RestartCount o) (WindowStartedAt o) (LastRestartAt o)
    (NextRestartAt o) (StartedAt o) (LastCause o) (LastExitCode o) (LastSignal o)
    (CrashLoop o) (AppliedRolloutGeneration o) (AppliedOperatorRestartNonce o)
    (ObsMessage o) (AwaitingRestart o).

(** The zero values [&platformv1.ServiceRestart{}] and [&platformv1.RestartObservation{}]. *)
Definition zero_restart : ServiceRestart :=
  mkServiceRestart RESTART_POLICY_UNSPECIFIED 0 0 0 0 f_zero f_zero 0.
Definition zero_observation : RestartObservation :=
  mkRestartObservation 0 None None None None RESTART_CAUSE_UNSPECIFIED 0 0 false 0 0 "" false.

Inductive Action : Type :=
| ActionKeep | ActionStart | ActionWait | ActionStop | ActionCrashLoop.

#[export] Instance Action_eq_dec : EqDecision Action.
Proof. solve_decision. Defined.

Record ProcessState := mkProcessState {
  Running : bool; ExitCode : Z; Signal : Z; OOMKilled : bool; DiskExhausted : bool;
}.

Record Input := mkInput {
  State : ProcessState;
  LivenessFailed : bool;
  DesiredRolloutGeneration : Z;
  OperatorRestartNonce : Z;
}.

Record Decision_t := mkDecision {
  dAction : Action;
  dObservation : RestartObservation;
  dPhase : string;
  dMessage : string;
  dDelay : duration;
}.

(** ** Defaults and labels *)

Definition PhaseCrashLoop : string := "CrashLoop".
Definition PhaseStopped : string := "Stopped".
Definition PhaseBackoff : string := "Backoff".

Definition DefaultPolicy := RESTART_POLICY_ON_FAILURE.
Definition DefaultMaxRestarts : Z := 5.
Definition DefaultWindowSeconds : Z := 300.
Definition DefaultInitialDelayMS : Z := 1000.
Definition DefaultMaxDelayMS : Z := 60000.
Definition DefaultBackoffMultiplier : float64 := of_int 2.
Definition DefaultJitter : float64 := fdiv (of_int 1) (of_int 10).
Definition DefaultStableAfterSecs : Z := 60.

Definition Action_String (a : Action) : string :=
  match a with
  | ActionKeep => "keep"
  | ActionStart => "start"
  | ActionWait => "wait"
  | ActionStop => "stop"
  | ActionCrashLoop => "crash_loop"
  end.

Definition causeLabel (cause : RestartCause) : string :=
  match cause with
  | RESTART_CAUSE_EXIT_ZERO => "exit code 0"
  | RESTART_CAUSE_EXIT_NONZERO => "non-zero exit"
  | RESTART_CAUSE_SIGNAL => "signal"
  | RESTART_CAUSE_OOM_KILL => "OOM kill"
  | RESTART_CAUSE_DISK_EXHAUSTED => "disk exhausted"
  | RESTART_CAUSE_LIVENESS => "liveness restart"
  | RESTART_CAUSE_OPERATOR => "operator restart"
  | RESTART_CAUSE_NODE_LOSS => "node loss"
  | _ => "unspecified"
  end.

Definition policyLabel (policy : RestartPolicy_t) : string :=
  match policy with
  | RESTART_POLICY_ALWAYS => "always"
  | RESTART_POLICY_NEVER => "never"
  | _ => "on-failure"
  end.

(** ** Settings *)

Definition CanonicalRestart (restart : option ServiceRestart) : ServiceRestart :=
  let r := default zero_restart restart in
  let r := if decide (Policy r = RESTART_POLICY_UNSPECIFIED)
           then r <| Policy := DefaultPolicy |> else r in
  let r := if bool_decide (Policy r <> RESTART_POLICY_NEVER)
              && (MaxRestarts r =? 0) && (WindowSeconds r =? 0)
           then r <| MaxRestarts := DefaultMaxRestarts |> <| WindowSeconds := DefaultWindowSeconds |>
           else r in
  let r := if (InitialDelayMs r =? 0) && (MaxDelayMs r =? 0)
              && feq (BackoffMultiplier r) f_zero && feq (Jitter r) f_zero
           then r <| InitialDelayMs := DefaultInitialDelayMS |> <| MaxDelayMs := DefaultMaxDelayMS |>
                  <| BackoffMultiplier := DefaultBackoffMultiplier |> <| Jitter := DefaultJitter |>
           else r in
  let r := if feq (BackoffMultiplier r) f_zero
           then r <| BackoffMultiplier := DefaultBackoffMultiplier |> else r in
  if StableAfterSeconds r =? 0 then r <| StableAfterSeconds := DefaultStableAfterSecs |> else r.

Definition ValidateRestart (restart : option ServiceRestart) : result string unit :=
  match restart with
  | None => Ok tt
  | Some r =>
      _ ← match Policy r with
          | RESTART_POLICY_OTHER n => Err ("unsupported restart policy " +:+ pretty n)
          | _ => Ok tt
          end;
      _ ← guard_err (MaxRestarts r <? 0) "max_restarts must be non-negative";
      _ ← guard_err (WindowSeconds r <? 0) "window_seconds must be non-negative";
      _ ← guard_err (InitialDelayMs r <? 0) "initial_delay_ms must be non-negative";
      _ ← guard_err (MaxDelayMs r <? 0) "max_delay_ms must be non-negative";
      _ ← guard_err ((0 <? MaxDelayMs r) && (MaxDelayMs r <? InitialDelayMs r))
            "max_delay_ms must be greater than or equal to initial_delay_ms";
      _ ← guard_err (flt (BackoffMultiplier r) f_zero) "backoff_multiplier must be non-negative";
      _ ← guard_err (flt (Jitter r) f_zero || fgt (Jitter r) f_one) "jitter must be between 0 and 1";
      guard_err (StableAfterSeconds r <? 0) "stable_after_seconds must be non-negative"
  end.

(** ** Causes *)

Definition ClassifyExit (state : ProcessState) : RestartCause :=
  if OOMKilled state then RESTART_CAUSE_OOM_KILL
  else if DiskExhausted state then RESTART_CAUSE_DISK_EXHAUSTED
  else if negb (Signal state =? 0) then RESTART_CAUSE_SIGNAL
  else if ExitCode state =? 0 then RESTART_CAUSE_EXIT_ZERO
  else RESTART_CAUSE_EXIT_NONZERO.

Definition Failure (cause : RestartCause) : bool :=
  match cause with
  | RESTART_CAUSE_EXIT_NONZERO | RESTART_CAUSE_SIGNAL | RESTART_CAUSE_OOM_KILL
  | RESTART_CAUSE_DISK_EXHAUSTED | RESTART_CAUSE_LIVENESS => true
  | _ => false
  end.

Definition ShouldRestart (policy : RestartPolicy_t) (cause : RestartCause) : bool :=
  match policy with
  | RESTART_POLICY_NEVER => false
  | RESTART_POLICY_ALWAYS => true
  | _ => Failure cause
  end.

(** ** Observations *)

Definition timeFromProto (ts : timestamp) : time :=
  match ts with None => zero_time | Some t => t end.

Definition obsNonce (obs : option RestartObservation) : Z :=
  match obs with None => 0 | Some o => AppliedOperatorRestartNonce o end.

(** [ts == nil || ts.AsTime().IsZero()] *)
Definition ts_unset (ts : timestamp) : bool :=
  match ts with None => true | Some t => is_zero t end.

Definition isEmptyObservation (obs : option RestartObservation) : bool :=
  match obs with
  | None => true
  | Some o =>
      (RestartCount o =? 0) && negb (CrashLoop o) && negb (AwaitingRestart o)
      && bool_decide (LastCause o = RESTART_CAUSE_UNSPECIFIED)
      && bool_decide (LastRestartAt o = None) && bool_decide (StartedAt o = None)
      && (AppliedRolloutGeneration o =? 0) && (AppliedOperatorRestartNonce o =? 0)
  end.

(** [cloneObservation] copies: values have no identity here, so it is the
    identity on [option RestartObservation]. *)
Definition cloneObservation (obs : option RestartObservation) : option RestartObservation := obs.

Definition MergeObservations (local remote : option RestartObservation) : option RestartObservation :=
  match local, remote with
  | None, _ => cloneObservation remote
  | Some l, None => if isEmptyObservation local then cloneObservation remote else cloneObservation local
  | Some l, Some r =>
      if isEmptyObservation local then cloneObservation remote
      else if isEmptyObservation remote then cloneObservation local
      else
        let localTime := timeFromProto (LastRestartAt l) in
        let remoteTime := timeFromProto (LastRestartAt r) in
        if CrashLoop r && negb (CrashLoop l) && negb (remoteTime <? localTime) then cloneObservation remote
        else if CrashLoop l && negb (CrashLoop r) && negb (localTime <? remoteTime) then cloneObservation local
        else if localTime <? remoteTime then cloneObservation remote
        else if remoteTime <? localTime then cloneObservation local
        else if RestartCount l <? RestartCount r then cloneObservation remote
        else cloneObservation local
  end.

Definition authorizedReset (prev : option RestartObservation) (inp : Input) (now : time) : RestartObservation :=
  let next := zero_observation
    <| AppliedRolloutGeneration := DesiredRolloutGeneration inp |>
    <| AppliedOperatorRestartNonce := OperatorRestartNonce inp |>
    <| LastRestartAt := Some now |> in
  match prev with
  | Some p => if AppliedOperatorRestartNonce p <? OperatorRestartNonce inp
              then next <| LastCause := RESTART_CAUSE_OPERATOR |> else next
  | None => next
  end.

Definition resetCrashHistory (obs : RestartObservation) : RestartObservation :=
  obs <| RestartCount := 0 |> <| WindowStartedAt := None |> <| NextRestartAt := None |>
      <| CrashLoop := false |> <| AwaitingRestart := false |>.

Definition crashLoopDecision (obs : RestartObservation) (message : string) : Decision_t :=
  let obs := obs <| CrashLoop := true |> <| AwaitingRestart := false |> in
  let obs := if decide (message = "") then obs else obs <| ObsMessage := message |> in
  mkDecision ActionCrashLoop obs PhaseCrashLoop (ObsMessage obs) 0.

Definition crashLoopMessage (settings : ServiceRestart) (obs : RestartObservation) (cause : RestartCause) : string :=
  "crash loop after " +:+ causeLabel cause +:+ " (" +:+ pretty (RestartCount obs)
  +:+ " restarts, policy " +:+ policyLabel (Policy settings) +:+ ")".

Definition stopMessage (policy : RestartPolicy_t) (cause : RestartCause) : string :=
  if decide (policy = RESTART_POLICY_NEVER) then "process exited; restart policy is never"
  else "process exited (" +:+ causeLabel cause +:+ "); on-failure policy does not restart".

Definition restartingMessage (cause : RestartCause) (count : Z) : string :=
  "restarting after " +:+ causeLabel cause +:+ " (attempt " +:+ pretty count +:+ ")".

(** ** Budget and back-off

    A [Duration] here is a product of an [int32] and a unit of at most a
    second, which fits 64 bits, so the products are written without wrap. *)

Definition budgetExhausted (settings : ServiceRestart) (obs : RestartObservation) (now : time) : bool :=
  let window := WindowSeconds settings * second in
  let started := timeFromProto (WindowStartedAt obs) in
  if (0 <? window) && negb (is_zero started) && negb (now <? started + window) && (0 <? RestartCount obs)
  then true
  else (0 <? MaxRestarts settings) && (MaxRestarts settings <=? RestartCount obs).

Section Evaluation.
(** The result of converting a float that does not fit [int64]. *)
Variable conv_oob : float64 -> Z.

(** The float that [backoffDelay] converts.  [rng] is the draw of
    [rng.Float64()], or [None] for a nil source.  Products and sums are
    rounded one by one (no fused multiply-add). *)
Definition backoff_base (settings : ServiceRestart) (completedRestarts : Z) (rng : option float64) : float64 :=
  let initial := InitialDelayMs settings * millisecond in
  let maxDelay := MaxDelayMs settings * millisecond in
  let initial := if initial <? 0 then 0 else initial in
  let initial := if (0 <? maxDelay) && (maxDelay <? initial) then maxDelay else initial in
  let multiplier := BackoffMultiplier settings in
  let multiplier := if fle multiplier f_zero then f_one else multiplier in
  let base := of_int initial in
  let base := if 0 <? completedRestarts then fmul base (fpow multiplier completedRestarts) else base in
  let base := if (0 <? maxDelay) && fgt base (of_int maxDelay) then of_int maxDelay else base in
  let jitter := Jitter settings in
  let base :=
    match rng with
    | Some u =>
        if fgt jitter f_zero && fgt base f_zero then
          let factor := fadd f_one (fmul (fsub (fmul f_two u) f_one) jitter) in
          let factor := if flt factor f_zero then f_zero else factor in
          fmul base factor
        else base
    | None => base
    end in
  if (0 <? maxDelay) && fgt base (of_int maxDelay) then of_int maxDelay else base.

Definition backoffDelay (settings : ServiceRestart) (completedRestarts : Z) (rng : option float64) : duration :=
  to_int64 conv_oob (backoff_base settings completedRestarts rng).

(** ** [Evaluate], branch by branch *)

(** A newer rollout generation or operator nonce: adopt a healthy first
    process, otherwise start afresh. *)
Definition authorized (current : RestartObservation) (inp : Input) : bool :=
  (AppliedRolloutGeneration current <? DesiredRolloutGeneration inp)
  || (AppliedOperatorRestartNonce current <? OperatorRestartNonce inp).

Definition evaluateAuthorized (now : time) (obs : option RestartObservation)
    (current : RestartObservation) (inp : Input) : Decision_t :=
  if Running (State inp) && negb (LivenessFailed inp) && negb (CrashLoop current)
     && (AppliedRolloutGeneration current =? 0) && (AppliedOperatorRestartNonce current =? 0)
     && (RestartCount current =? 0)
  then
    let current := current <| AppliedRolloutGeneration := DesiredRolloutGeneration inp |>
                           <| AppliedOperatorRestartNonce := OperatorRestartNonce inp |> in
    let current := if ts_unset (StartedAt current) then current <| StartedAt := Some now |> else current in
    mkDecision ActionKeep current "" (ObsMessage current) 0
  else
    let current := authorizedReset (Some current) inp now in
    let current := if 0 <? DesiredRolloutGeneration inp
                   then current <| AppliedRolloutGeneration := DesiredRolloutGeneration inp |> else current in
    let current := current <| AppliedOperatorRestartNonce := OperatorRestartNonce inp |> in
    let current :=
      if obsNonce obs <? OperatorRestartNonce inp
      then current <| LastCause := RESTART_CAUSE_OPERATOR |> <| ObsMessage := "operator restart requested" |>
      else current <| ObsMessage := "new rollout authorized a fresh start" |> in
    mkDecision ActionStart current "Pending" (ObsMessage current) 0.

Definition evaluateRunning (now : time) (settings : ServiceRestart)
    (current : RestartObservation) (inp : Input) : Decision_t :=
  let current := if ts_unset (StartedAt current) then current <| StartedAt := Some now |> else current in
  let current := current <| AwaitingRestart := false |> <| CrashLoop := false |> in
  let current :=
    if 0 <? StableAfterSeconds settings then
      let started := as_time (StartedAt current) in
      if negb (is_zero started) && negb (now <? started + StableAfterSeconds settings * second)
      then (resetCrashHistory current) <| StartedAt := Some started |>
             <| ObsMessage := "crash history reset after a stable run" |>
      else current
    else current in
  let current := current <| AppliedRolloutGeneration := DesiredRolloutGeneration inp |>
                         <| AppliedOperatorRestartNonce := OperatorRestartNonce inp |> in
  mkDecision ActionKeep current "" (ObsMessage current) 0.

(** A fresh exit or liveness failure of a process that was not already
    waiting for its restart. *)
Definition evaluateExit (now : time) (rng : option float64) (settings : ServiceRestart)
    (current : RestartObservation) (inp : Input) (cause : RestartCause) : Decision_t :=
  let current := current <| LastCause := cause |> in
  let current := if negb (LivenessFailed inp)
                 then current <| LastExitCode := ExitCode (State inp) |> <| LastSignal := Signal (State inp) |>
                 else current in
  if negb (ShouldRestart (Policy settings) cause) then
    let current := current <| AwaitingRestart := false |> <| CrashLoop := false |>
                           <| ObsMessage := stopMessage (Policy settings) cause |> in
    mkDecision ActionStop current PhaseStopped (ObsMessage current) 0
  else if budgetExhausted settings current now then
    let current := current <| CrashLoop := true |> <| AwaitingRestart := false |> in
    let current := current <| ObsMessage := crashLoopMessage settings current cause |> in
    crashLoopDecision current (ObsMessage current)
  else
    let delay := backoffDelay settings (RestartCount current) rng in
    let current := current <| RestartCount := wrap32 (RestartCount current + 1) |> in
    let current := if ts_unset (WindowStartedAt current)
                   then current <| WindowStartedAt := Some now |> else current in
    let current := current <| LastRestartAt := Some now |> <| NextRestartAt := Some (now + delay) |>
                           <| AwaitingRestart := true |> <| StartedAt := None |> in
    let current := current <| ObsMessage := restartingMessage cause (RestartCount current) |> in
    if 0 <? delay then mkDecision ActionWait current PhaseBackoff (ObsMessage current) delay
    else mkDecision ActionStart current "Pending" (ObsMessage current) delay.

Definition evaluateAwaiting (now : time) (current : RestartObservation) : Decision_t :=
  let next := timeFromProto (NextRestartAt current) in
  if negb (is_zero next) && (now <? next) then
    mkDecision ActionWait current PhaseBackoff (ObsMessage current) (time_sub next now)
  else
    let current := current <| ObsMessage := restartingMessage (LastCause current) (RestartCount current) |> in
    mkDecision ActionStart current "Pending" (ObsMessage current) 0.

Definition evaluateCause (current : RestartObservation) (inp : Input) : RestartCause :=
  if LivenessFailed inp then RESTART_CAUSE_LIVENESS
  else if negb (Running (State inp)) then ClassifyExit (State inp)
  else LastCause current.

Definition Evaluate (now : time) (rng : option float64) (restart : option ServiceRestart)
    (obs : option RestartObservation) (inp : Input) : Decision_t :=
  let settings := CanonicalRestart restart in
  let current := default zero_observation (cloneObservation obs) in
  if authorized current inp then evaluateAuthorized now obs current inp
  else if Running (State inp) && negb (LivenessFailed inp) then evaluateRunning now settings current inp
  else if CrashLoop current then
    crashLoopDecision current "retry budget exhausted; authorized restart or new rollout required"
  else
    let cause := evaluateCause current inp in
    if negb (AwaitingRestart current) then evaluateExit now rng settings current inp cause
    else evaluateAwaiting now current.
End Evaluation.

(** ** Runs: a sequence of evaluations that feed the observation back *)

Record Tick := mkTick { tNow : time; tDraw : option float64; tInput : Input }.

Section Runs.
Variable conv_oob : float64 -> Z.
Variable restart : option ServiceRestart.

Definition decide_tick (obs : option RestartObservation) (t : Tick) : Decision_t :=
  Evaluate conv_oob (tNow t) (tDraw t) restart obs (tInput t).

Definition next_obs (obs : option RestartObservation) (t : Tick) : option RestartObservation :=
  Some (dObservation (decide_tick obs t)).

Definition replay (obs : option RestartObservation) (ticks : list Tick) : option RestartObservation :=
  foldl next_obs obs ticks.

Fixpoint decisions (obs : option RestartObservation) (ticks : list Tick) : list Decision_t :=
  match ticks with
  | [] => []
  | t :: ticks => decide_tick obs t :: decisions (next_obs obs t) ticks
  end.

Definition cur (obs : option RestartObservation) : RestartObservation := default zero_observation obs.

Definition healthy (i : Input) : bool := Running (State i) && negb (LivenessFailed i).

(** A tick that grants a restart: the observation starts to await one. *)
Definition grants (obs : option RestartObservation) (t : Tick) : bool :=
  negb (AwaitingRestart (cur obs)) && AwaitingRestart (cur (next_obs obs t)).

(** A tick that clears the crash history: an authorized start, or a healthy
    process past its stability period. *)
Definition clears (obs : option RestartObservation) (t : Tick) : bool :=
  let o := cur obs in
  let settings := CanonicalRestart restart in
  let started := if ts_unset (StartedAt o) then tNow t else as_time (StartedAt o) in
  authorized o (tInput t)
  || (healthy (tInput t) && (0 <? StableAfterSeconds settings) && negb (is_zero started)
      && negb (tNow t <? started + StableAfterSeconds settings * second)).

Fixpoint grant_count (obs : option RestartObservation) (ticks : list Tick) : Z :=
  match ticks with
  | [] => 0
  | t :: ticks => (if grants obs t then 1 else 0) + grant_count (next_obs obs t) ticks
  end.

Fixpoint never_clears (obs : option RestartObservation) (ticks : list Tick) : bool :=
  match ticks with
  | [] => true
  | t :: ticks => negb (clears obs t) && never_clears (next_obs obs t) ticks
  end.

Lemma cur_next obs t : cur (next_obs obs t) = dObservation (decide_tick obs t).
Proof. done. Qed.

Lemma decide_tick_cases obs t :
  decide_tick obs t =
    let o := cur obs in let i := tInput t in let st := CanonicalRestart restart in
    if authorized o i then evaluateAuthorized (tNow t) obs o i
    else if healthy i then evaluateRunning (tNow t) st o i
    else if CrashLoop o then
      crashLoopDecision o "retry budget exhausted; authorized restart or new rollout required"
    else if negb (AwaitingRestart o) then
      evaluateExit conv_oob (tNow t) (tDraw t) st o i (evaluateCause o i)
    else evaluateAwaiting (tNow t) o.
Proof. done. Qed.

Lemma crashLoop_fields o m :
  let o' := dObservation (crashLoopDecision o m) in
  RestartCount o' = RestartCount o /\ AwaitingRestart o' = false /\ CrashLoop o' = true
  /\ AppliedRolloutGeneration o' = AppliedRolloutGeneration o
  /\ AppliedOperatorRestartNonce o' = AppliedOperatorRestartNonce o.
Proof. unfold crashLoopDecision. by destruct (decide (m = "")). Qed.

(** *** One step of the restart counter *)

Lemma budget_room now o :
  0 < MaxRestarts (CanonicalRestart restart) ->
  budgetExhausted (CanonicalRestart restart) o now = false ->
  RestartCount o < MaxRestarts (CanonicalRestart restart).
Proof.
  unfold budgetExhausted. intros HN. destruct (_ && _); [done|].
  rewrite (proj2 (Z.ltb_lt _ _) HN). cbn [andb]. apply Z.leb_gt.
Qed.

Lemma authorized_count now obs o i :
  RestartCount (dObservation (evaluateAuthorized now obs o i)) = 0.
Proof.
  unfold evaluateAuthorized. step_case.
  - bool_to_prop. by destruct (ts_unset _).
  - unfold authorizedReset. by repeat step_case.
Qed.

Lemma running_count now st o i :
  let started := if ts_unset (StartedAt o) then now else as_time (StartedAt o) in
  let o' := dObservation (evaluateRunning now st o i) in
  AwaitingRestart o' = false
  /\ RestartCount o' =
     if (0 <? StableAfterSeconds st) && negb (is_zero started)
        && negb (now <? started + StableAfterSeconds st * second)
     then 0 else RestartCount o.
Proof.
  unfold evaluateRunning.
  destruct (ts_unset (StartedAt o)), (0 <? StableAfterSeconds st); cbn [andb]; try done;
    cbn -[Z.ltb Z.mul is_zero as_time second]; by destruct (_ && _).
Qed.

Lemma exit_count conv now rng o i cause :
  let N := MaxRestarts (CanonicalRestart restart) in
  0 < N <= 2147483647 -> 0 <= RestartCount o <= N ->
  let o' := dObservation (evaluateExit conv now rng (CanonicalRestart restart) o i cause) in
  0 <= RestartCount o' <= N
  /\ RestartCount o' = RestartCount o + (if AwaitingRestart o' then 1 else 0).
Proof.
  intros N HN Hc. unfold evaluateExit.
  set (o1 := if negb (LivenessFailed i) then _ else _).
  assert (Ho1 : RestartCount o1 = RestartCount o) by (unfold o1; by destruct (LivenessFailed i)).
  destruct (ShouldRestart _ _); cbn [negb]; [|cbn; lia].
  destruct (budgetExhausted _ o1 now) eqn:Hb.
  { match goal with |- context [crashLoopDecision ?x ?m] =>
      destruct (crashLoop_fields x m) as (-> & -> & _) end. cbn. lia. }
  apply budget_room in Hb; [|unfold N in *; lia].
  fold N in Hb. assert (Hw : wrap32 (RestartCount o1 + 1) = RestartCount o1 + 1)
    by (apply wrap32_small; unfold in_int32; lia).
  destruct (0 <? backoffDelay _ _ _ _), (ts_unset _); cbn; rewrite Hw; lia.
Qed.

Lemma count_step obs t :
  let N := MaxRestarts (CanonicalRestart restart) in
  0 < N <= 2147483647 -> 0 <= RestartCount (cur obs) <= N ->
  let o' := cur (next_obs obs t) in
  0 <= RestartCount o' <= N
  /\ (clears obs t = false ->
      RestartCount o' = RestartCount (cur obs) + (if grants obs t then 1 else 0)).
Proof.
  intros N HN Hc o'. unfold o', clears, grants. rewrite !cur_next, decide_tick_cases. cbv zeta.
  set (o := cur obs) in *. set (i := tInput t). set (st := CanonicalRestart restart) in *.
  destruct (authorized o i).
  { rewrite authorized_count. split; [unfold N; lia|done]. }
  destruct (healthy i).
  { destruct (running_count (tNow t) st o i) as [-> ->].
    rewrite andb_false_r. cbn [andb orb].
    destruct ((_ && _) && _); split; try done; unfold N in *; lia. }
  destruct (CrashLoop o).
  { destruct (crashLoop_fields o "retry budget exhausted; authorized restart or new rollout required")
      as (-> & -> & _). rewrite andb_false_r. split; intros; unfold N in *; lia. }
  destruct (AwaitingRestart o) eqn:Hw; cbn [negb].
  { unfold evaluateAwaiting. step_case; cbn; split; intros; unfold N in *; lia. }
  destruct (exit_count conv_oob (tNow t) (tDraw t) o i (evaluateCause o i)) as [H1 H2]; [done|done|].
  split; [done|]. intros _. exact H2.
Qed.

(** *** The crash loop absorbs *)

(** A tick that neither authorizes a start nor finds the process healthy. *)
Definition failing (o : RestartObservation) (t : Tick) : bool :=
  negb (authorized o (tInput t)) && negb (healthy (tInput t)).

Lemma failing_crash_loop obs t :
  CrashLoop (cur obs) = true -> failing (cur obs) t = true ->
  dAction (decide_tick obs t) = ActionCrashLoop
  /\ CrashLoop (cur (next_obs obs t)) = true
  /\ (forall t', failing (cur (next_obs obs t)) t' = failing (cur obs) t').
Proof.
  intros Hc Hf. unfold failing in Hf. bool_to_prop.
  rewrite cur_next, decide_tick_cases. cbv zeta. rewrite Hc.
  repeat match goal with H : _ = false |- _ => rewrite H end.
  destruct (crashLoop_fields (cur obs)
    "retry budget exhausted; authorized restart or new rollout required") as (_ & _ & H1 & H2 & H3).
  split_and!; [done|done|]. intros t'. unfold failing, authorized. by rewrite H2, H3.
Qed.

(** *** The awaiting state *)

Lemma awaiting_step obs t :
  AwaitingRestart (cur obs) = true -> CrashLoop (cur obs) = false -> failing (cur obs) t = true ->
  decide_tick obs t = evaluateAwaiting (tNow t) (cur obs).
Proof.
  intros Hw Hc Hf. unfold failing in Hf. bool_to_prop.
  rewrite decide_tick_cases. cbv zeta. rewrite Hc, Hw.
  by repeat match goal with H : _ = false |- _ => rewrite H end.
Qed.

Lemma exit_step obs t :
  AwaitingRestart (cur obs) = false -> CrashLoop (cur obs) = false -> failing (cur obs) t = true ->
  decide_tick obs t =
    evaluateExit conv_oob (tNow t) (tDraw t) (CanonicalRestart restart) (cur obs) (tInput t)
      (evaluateCause (cur obs) (tInput t)).
Proof.
  intros Hw Hc Hf. unfold failing in Hf. bool_to_prop.
  rewrite decide_tick_cases. cbv zeta. rewrite Hc, Hw.
  by repeat match goal with H : _ = false |- _ => rewrite H end.
Qed.

(** What the observation of a granted delay holds. *)
Lemma exit_wait_fields now rng o i cause :
  let d := evaluateExit conv_oob now rng (CanonicalRestart restart) o i cause in
  dAction d = ActionWait ->
  0 < dDelay d /\ NextRestartAt (dObservation d) = Some (now + dDelay d)
  /\ AwaitingRestart (dObservation d) = true
  /\ CrashLoop (dObservation d) = CrashLoop o
  /\ AppliedRolloutGeneration (dObservation d) = AppliedRolloutGeneration o
  /\ AppliedOperatorRestartNonce (dObservation d) = AppliedOperatorRestartNonce o.
Proof.
  unfold evaluateExit. destruct (ShouldRestart _ _); cbn [negb]; [|done].
  destruct (budgetExhausted _ _ _); [done|].
  destruct (0 <? backoffDelay _ _ _ _) eqn:Hd; [|done]. intros _.
  apply Z.ltb_lt in Hd. destruct (negb (LivenessFailed i)), (ts_unset _); cbn in *; by split_and!.
Qed.
End Runs.

(** ** The range of the back-off *)

(** Not at most zero: then no sign bit, or NaN. *)
Lemma mult_nonneg m : is_nonneg (if fle m f_zero then f_one else m) = true.
Proof.
  destruct (fle m f_zero) eqn:Hle; [done|].
  destruct m as [|[]| |[] p e]; try done.
  unfold fle, fcmp, scaled_cmp in Hle. cbn [mantissa exponent f_zero] in Hle.
  rewrite Z.mul_0_l in Hle. exfalso.
  assert (0 < 2 ^ (e - Z.min e 0)) by (apply Z.pow_pos_nonneg; lia).
  destruct (Z.compare_spec (Zneg p * 2 ^ (e - Z.min e 0)) 0); try done. nia.
Qed.

Lemma factor_nonneg f : is_nonneg (if flt f f_zero then f_zero else f) = true.
Proof.
  destruct (flt f f_zero) eqn:Hlt; [done|].
  destruct f as [|[]| |[] p e]; try done.
  unfold flt, fcmp, scaled_cmp in Hlt. cbn [mantissa exponent f_zero] in Hlt.
  rewrite Z.mul_0_l in Hlt. exfalso.
  assert (0 < 2 ^ (e - Z.min e 0)) by (apply Z.pow_pos_nonneg; lia).
  destruct (Z.compare_spec (Zneg p * 2 ^ (e - Z.min e 0)) 0); try done; nia.
Qed.

Lemma fcap_range b x y :
  is_finite y = true -> is_nonneg x = true -> is_nonneg y = true -> is_nan x = false ->
  let z := if b && fgt x y then y else x in
  is_nonneg z = true /\ is_nan z = false /\ (b = true -> is_finite z = true /\ fgt z y = false).
Proof.
  intros Hy Hx Hy' Hn. destruct b; cbn [andb]; [|done].
  destruct (fgt x y) eqn:Hg; (split_and!; [done|by destruct y|intros _; split]); try done.
  - unfold fgt, fcmp. destruct y; try done; unfold scaled_cmp; by rewrite Z.compare_refl.
  - destruct x as [|[]| |]; try done. unfold fgt, fcmp in Hg. by destruct y.
Qed.

(** Under a positive maximum the final cap leaves a finite, nonnegative float
    that does not exceed the maximum. *)
Lemma backoff_base_range settings n rng :
  0 <= InitialDelayMs settings -> 0 < MaxDelayMs settings ->
  0 <= MaxDelayMs settings * millisecond < 2 ^ 53 ->
  is_nan (backoff_base settings n rng) = false ->
  is_finite (backoff_base settings n rng) = true
  /\ is_nonneg (backoff_base settings n rng) = true
  /\ fgt (backoff_base settings n rng) (of_int (MaxDelayMs settings * millisecond)) = false.
Proof.
  intros Hi Hm Hmax. unfold backoff_base.
  set (maxD := MaxDelayMs settings * millisecond) in *.
  assert (Hpos : (0 <? maxD) = true) by (apply Z.ltb_lt; unfold maxD, millisecond; lia).
  rewrite Hpos. cbn [andb].
  set (init := if maxD <? _ then _ else _). assert (Hinit : 0 <= init).
  { unfold init, millisecond. repeat step_case; lia. }
  set (mult := if fle _ _ then _ else _). assert (Hmult : is_nonneg mult = true) by apply mult_nonneg.
  set (b0 := if 0 <? n then _ else _). assert (Hb0 : is_nonneg b0 = true).
  { unfold b0. step_case; [apply fmul_nonneg; [|apply fpow_nonneg; done]|]; by apply of_int_nonneg. }
  set (b1 := if fgt b0 _ then _ else _). assert (Hb1 : is_nonneg b1 = true).
  { unfold b1. step_case; [apply of_int_nonneg; lia|done]. }
  set (b2 := match rng with Some _ => _ | None => _ end). assert (Hb2 : is_nonneg b2 = true).
  { unfold b2. destruct rng; [|done]. step_case; [|done].
    apply fmul_nonneg; [done|apply factor_nonneg]. }
  intros Hn. destruct (is_nan b2) eqn:Hn2.
  { by destruct b2. }
  destruct (fcap_range true b2 (of_int maxD)) as (H1 & H2 & H3); try done.
  { by apply of_int_finite. } { apply of_int_nonneg. lia. }
  cbn [andb] in *. destruct H3 as [H3 H4]; [done|]. by split_and!.
Qed.

Lemma classify_failure st :
  Failure (ClassifyExit st) = false <-> ClassifyExit st = RESTART_CAUSE_EXIT_ZERO.
Proof. unfold ClassifyExit. repeat step_case; done. Qed.

(** ** Properties *)

Section Properties.
Variable conv_oob : float64 -> Z.

(** C35: The restart budget.  Feed any sequence of evaluations back into
    itself under settings whose canonical [MaxRestarts] is [N > 0], from a
    counter within [0..N] (a limit of 0 is not covered): the
    restart counter stays within [0..N] (and never wraps its 32 bits), and
    as long as no evaluation clears the history the counter has grown by
    exactly the number of restarts granted, so at most [N] are granted
    between two resets. *)
Theorem restart_budget restart obs ticks :
  let N := MaxRestarts (CanonicalRestart restart) in
  0 < N <= 2147483647 -> 0 <= RestartCount (cur obs) <= N ->
  0 <= RestartCount (cur (replay conv_oob restart obs ticks)) <= N
  /\ (never_clears conv_oob restart obs ticks = true ->
      RestartCount (cur (replay conv_oob restart obs ticks))
      = RestartCount (cur obs) + grant_count conv_oob restart obs ticks).
Proof.
  intros N HN. revert obs. induction ticks as [|t ticks IH]; intros obs Hc; [simpl; split; lia|].
  destruct (count_step conv_oob restart obs t HN Hc) as [H1 H2].
  destruct (IH (next_obs conv_oob restart obs t) H1) as [H3 H4].
  split; [exact H3|]. cbn [never_clears grant_count]. intros Hn. bool_to_prop.
  change (replay conv_oob restart obs (t :: ticks))
    with (replay conv_oob restart (next_obs conv_oob restart obs t) ticks).
  rewrite H4, H2 by done. lia.
Qed.

(** The crash loop is absorbing.  Once an observation is in a crash loop,
    every evaluation of a run in which nothing authorizes a start (no newer
    rollout generation, no newer operator nonce) and the process is never
    seen healthy decides [ActionCrashLoop], and the run ends in the crash
    loop. *)
Theorem crash_loop_absorbing restart obs ticks :
  CrashLoop (cur obs) = true -> Forall (fun t => failing (cur obs) t = true) ticks ->
  Forall (fun d => dAction d = ActionCrashLoop) (decisions conv_oob restart obs ticks)
  /\ CrashLoop (cur (replay conv_oob restart obs ticks)) = true.
Proof.
  revert obs. induction ticks as [|t ticks IH]; intros obs Hc Hf; [by split|].
  inversion Hf as [|? ? Ht Hts]; subst.
  destruct (failing_crash_loop conv_oob restart obs t Hc Ht) as (H1 & H2 & H3).
  destruct (IH (next_obs conv_oob restart obs t) H2) as [H4 H5].
  { eapply Forall_impl; [exact Hts|]. intros t' Ht'. cbn in *. by rewrite H3. }
  split; [by constructor|exact H5].
Qed.

(** The back-off delay is bounded.  With a nonnegative initial delay and a
    positive maximum (both 32-bit milliseconds), [backoffDelay] is between
    zero and the maximum for every restart count, multiplier, jitter and
    random draw, unless the floating-point computation produced NaN. *)
Theorem backoff_delay_bounds settings n rng :
  0 <= InitialDelayMs settings -> 0 < MaxDelayMs settings <= 2147483647 ->
  is_nan (backoff_base settings n rng) = false ->
  0 <= backoffDelay conv_oob settings n rng <= MaxDelayMs settings * millisecond.
Proof.
  intros Hi Hm Hnan.
  assert (Hmax : 0 <= MaxDelayMs settings * millisecond < 2 ^ 53) by (unfold millisecond; lia).
  destruct (backoff_base_range settings n rng Hi ltac:(lia) Hmax Hnan) as (Hf & Hnn & Hgt).
  pose proof (ftrunc_le _ _ Hf (of_int_finite _ Hmax) Hgt) as Hle.
  rewrite ftrunc_of_int in Hle by done. pose proof (ftrunc_nonneg _ Hnn).
  unfold backoffDelay, to_int64, fits_int64. rewrite Hf.
  rewrite (proj2 (Z.leb_le (-9223372036854775808) _)), (proj2 (Z.leb_le _ 9223372036854775807)) by lia.
  cbn [andb]. lia.
Qed.

(** A granted restart is counted once and never starts early.  When an
    exit or liveness failure is answered with a delay, every later evaluation
    that is neither authorized nor healthy waits, with the observation left
    untouched and the remaining time as its delay, strictly before the
    recorded restart time, and from that time on starts the process without
    touching the restart counter. *)
Theorem delay_is_honoured restart obs t t' :
  0 <= tNow t -> AwaitingRestart (cur obs) = false -> CrashLoop (cur obs) = false ->
  failing (cur obs) t = true -> failing (cur obs) t' = true ->
  let d := decide_tick conv_oob restart obs t in
  let d' := decide_tick conv_oob restart (Some (dObservation d)) t' in
  dAction d = ActionWait ->
  (tNow t' < tNow t + dDelay d ->
     dAction d' = ActionWait /\ dObservation d' = dObservation d
     /\ dDelay d' = time_sub (tNow t + dDelay d) (tNow t'))
  /\ (tNow t + dDelay d <= tNow t' ->
     dAction d' = ActionStart /\ RestartCount (dObservation d') = RestartCount (dObservation d)).
Proof.
  intros Hnow Hw Hc Hf Hf' d d' Ha. unfold d in Ha. rewrite exit_step in Ha by done.
  pose proof (exit_wait_fields _ _ _ _ _ _ _ Ha) as (Hd & Hn & Hw' & Hc' & Hg & Ho).
  rewrite <- exit_step in * by done. fold d in Hd, Hn, Hw', Hc', Hg, Ho.
  assert (Hd' : d' = evaluateAwaiting (tNow t') (dObservation d)).
  { apply awaiting_step; cbn; [done|congruence|]. unfold failing, authorized in *. by rewrite Hg, Ho. }
  rewrite Hd'. unfold evaluateAwaiting. rewrite Hn. cbn [timeFromProto].
  replace (is_zero (tNow t + dDelay d)) with false by (symmetry; apply Z.eqb_neq; lia).
  cbn [negb andb]. split; intros Hlt.
  - by rewrite (proj2 (Z.ltb_lt _ _) Hlt).
  - by rewrite (proj2 (Z.ltb_ge _ _) Hlt).
Qed.

(** What stops a process.  For a process that exited (not running, no
    liveness verdict), with nothing authorized, no crash loop and no restart
    pending, the decision is [ActionStop] exactly when the canonical policy
    does not restart on the classified cause: never, or on-failure after
    exit code 0. *)
Theorem stop_iff_policy restart obs t :
  AwaitingRestart (cur obs) = false -> CrashLoop (cur obs) = false ->
  authorized (cur obs) (tInput t) = false ->
  Running (State (tInput t)) = false -> LivenessFailed (tInput t) = false ->
  dAction (decide_tick conv_oob restart obs t) = ActionStop
  <-> (Policy (CanonicalRestart restart) = RESTART_POLICY_NEVER
       \/ (Policy (CanonicalRestart restart) <> RESTART_POLICY_ALWAYS
           /\ ClassifyExit (State (tInput t)) = RESTART_CAUSE_EXIT_ZERO)).
Proof.
  intros Hw Hc Ha Hr Hl.
  rewrite exit_step; [|done|done|unfold failing, healthy; by rewrite Ha, Hr].
  unfold evaluateCause. rewrite Hl, Hr. cbn [negb].
  assert (Hstop : dAction (evaluateExit conv_oob (tNow t) (tDraw t) (CanonicalRestart restart) (cur obs)
      (tInput t) (ClassifyExit (State (tInput t)))) = ActionStop
    <-> ShouldRestart (Policy (CanonicalRestart restart)) (ClassifyExit (State (tInput t))) = false).
  { unfold evaluateExit. destruct (ShouldRestart _ _); cbn [negb]; [|done].
    destruct (budgetExhausted _ _ _); [done|]. by destruct (0 <? _). }
  rewrite Hstop. clear Hstop. pose proof (classify_failure (State (tInput t))) as Hcf.
  generalize dependent (ClassifyExit (State (tInput t))). intros cause Hcf.
  generalize (Policy (CanonicalRestart restart)). intros pol.
  destruct pol; cbn [ShouldRestart]; rewrite ?Hcf; naive_solver.
Qed.
End Properties.

(** ** The order behind [MergeObservations]

    Observations compare by last restart time, then crash loop, then restart
    count; the merge is the maximum, the local one on ties. *)

Definition obs_key (o : RestartObservation) : Z * Z * Z :=
  (timeFromProto (LastRestartAt o), if CrashLoop o then 1 else 0, RestartCount o).

Definition key_lt (a b : Z * Z * Z) : bool :=
  let '(ta, ca, na) := a in let '(tb, cb, nb) := b in
  (ta <? tb) || ((ta =? tb) && ((ca <? cb) || ((ca =? cb) && (na <? nb)))).

(** [MergeObservations] is a lexicographic maximum.  Two non-empty
    observations merge to the one with the later last restart, then the one in
    a crash loop, then the higher restart count, and to the local one when all
    three agree; an empty observation always yields to the other. *)
Theorem merge_is_lexicographic_max local remote :
  MergeObservations local remote =
    (if isEmptyObservation local then remote
     else if isEmptyObservation remote then local
     else if key_lt (obs_key (cur local)) (obs_key (cur remote)) then remote else local).
Proof.
  destruct local as [l|], remote as [r|]; unfold MergeObservations, cloneObservation;
    cbn [isEmptyObservation]; try done; try (by destruct (_ && _)).
  set (el := _ && _). set (er := _ && _). destruct el; [done|]. destruct er; [done|].
  unfold obs_key, key_lt, cur. cbn [from_option id default].
  set (tl := timeFromProto (LastRestartAt l)). set (tr := timeFromProto (LastRestartAt r)).
  destruct (Z.ltb_spec tr tl), (Z.ltb_spec tl tr), (Z.eqb_spec tl tr), (CrashLoop l), (CrashLoop r),
    (RestartCount l <? RestartCount r); try lia; cbn; done.
Qed.

(** ** The canonical form *)

(** The test behind [ValidateRestart] on a non-nil message. *)
Definition restart_valid (r : ServiceRestart) : bool :=
  match Policy r with RESTART_POLICY_OTHER _ => false | _ => true end
  && (0 <=? MaxRestarts r) && (0 <=? WindowSeconds r) && (0 <=? InitialDelayMs r)
  && (0 <=? MaxDelayMs r) && ((MaxDelayMs r <=? 0) || (InitialDelayMs r <=? MaxDelayMs r))
  && negb (flt (BackoffMultiplier r) f_zero)
  && negb (flt (Jitter r) f_zero || fgt (Jitter r) f_one) && (0 <=? StableAfterSeconds r).

Lemma validate_ok r : is_ok (ValidateRestart (Some r)) = restart_valid r.
Proof.
  unfold restart_valid. rewrite !Z.leb_antisym, <- negb_andb. unfold ValidateRestart, guard_err.
  set (v := match Policy r with RESTART_POLICY_OTHER _ => false | _ => true end).
  assert (Hv : is_ok (match Policy r with
    | RESTART_POLICY_OTHER n => Err ("unsupported restart policy " +:+ pretty n) | _ => Ok () end) = v)
    by (unfold v; by destruct (Policy r)).
  revert Hv. generalize (match Policy r with
    | RESTART_POLICY_OTHER n => Err ("unsupported restart policy " +:+ pretty n) | _ => Ok () end) as p.
  intros [[]|e] <-; [|reflexivity]. simpl (is_ok (Ok _)). cbn [mbind result_bind andb].
  repeat (lazymatch goal with |- is_ok (mbind _ (if ?c then _ else _)) = _ => destruct c end;
          cbn [mbind result_bind is_ok andb negb]; [reflexivity|]).
  by destruct (_ <? _).
Qed.

(** Settings that [CanonicalRestart] leaves as they are. *)
Definition canonical (r : ServiceRestart) : bool :=
  negb (bool_decide (Policy r = RESTART_POLICY_UNSPECIFIED))
  && negb (bool_decide (Policy r <> RESTART_POLICY_NEVER) && (MaxRestarts r =? 0) && (WindowSeconds r =? 0))
  && negb (feq (BackoffMultiplier r) f_zero) && negb (StableAfterSeconds r =? 0).

Lemma canonical_fixed r : canonical r = true -> CanonicalRestart (Some r) = r.
Proof.
  unfold canonical. intros H. bool_to_prop. unfold CanonicalRestart. cbn [default from_option id].
  rewrite decide_False by (by eapply bool_decide_eq_false).
  repeat match goal with H : ?a = false |- context [?a] => rewrite H end.
  rewrite andb_false_r. cbn [andb].
  repeat match goal with H : ?a = false |- context [?a] => rewrite H end.
  by rewrite (proj2 (Z.eqb_neq (StableAfterSeconds r) 0)).
Qed.

(** The five rewriting stages of [CanonicalRestart]. *)
Definition stage_policy (r : ServiceRestart) : ServiceRestart :=
  if decide (Policy r = RESTART_POLICY_UNSPECIFIED) then r <| Policy := DefaultPolicy |> else r.
Definition stage_budget (r : ServiceRestart) : ServiceRestart :=
  if bool_decide (Policy r <> RESTART_POLICY_NEVER) && (MaxRestarts r =? 0) && (WindowSeconds r =? 0)
  then r <| MaxRestarts := DefaultMaxRestarts |> <| WindowSeconds := DefaultWindowSeconds |> else r.
Definition stage_backoff (r : ServiceRestart) : ServiceRestart :=
  if (InitialDelayMs r =? 0) && (MaxDelayMs r =? 0)
     && feq (BackoffMultiplier r) f_zero && feq (Jitter r) f_zero
  then r <| InitialDelayMs := DefaultInitialDelayMS |> <| MaxDelayMs := DefaultMaxDelayMS |>
         <| BackoffMultiplier := DefaultBackoffMultiplier |> <| Jitter := DefaultJitter |>
  else r.
Definition stage_multiplier (r : ServiceRestart) : ServiceRestart :=
  if feq (BackoffMultiplier r) f_zero then r <| BackoffMultiplier := DefaultBackoffMultiplier |> else r.
Definition stage_stable (r : ServiceRestart) : ServiceRestart :=
  if StableAfterSeconds r =? 0 then r <| StableAfterSeconds := DefaultStableAfterSecs |> else r.

Lemma canonical_stages restart :
  CanonicalRestart restart =
  stage_stable (stage_multiplier (stage_backoff (stage_budget (stage_policy (default zero_restart restart))))).
Proof. reflexivity. Qed.

Lemma stages_canonical r :
  canonical (stage_stable (stage_multiplier (stage_backoff (stage_budget (stage_policy r))))) = true.
Proof.
  set (r1 := stage_policy r). assert (H1 : bool_decide (Policy r1 = RESTART_POLICY_UNSPECIFIED) = false).
  { unfold r1, stage_policy. destruct (decide _); [done|by apply bool_decide_eq_false]. }
  set (r2 := stage_budget r1).
  assert (H2 : bool_decide (Policy r2 = RESTART_POLICY_UNSPECIFIED) = false
    /\ bool_decide (Policy r2 <> RESTART_POLICY_NEVER) && (MaxRestarts r2 =? 0) && (WindowSeconds r2 =? 0) = false).
  { unfold r2, stage_budget. step_case; [|done]. split; [done|]. cbn. by rewrite andb_false_r. }
  set (r3 := stage_backoff r2).
  assert (H3 : Policy r3 = Policy r2 /\ MaxRestarts r3 = MaxRestarts r2 /\ WindowSeconds r3 = WindowSeconds r2).
  { unfold r3, stage_backoff. by step_case. }
  destruct H2 as [H2 H2'], H3 as (E1 & E2 & E3). rewrite <- E1 in H2. rewrite <- E1, <- E2, <- E3 in H2'.
  unfold canonical, stage_stable, stage_multiplier.
  destruct (feq (BackoffMultiplier r3) f_zero) eqn:H4; cbn -[feq f_zero DefaultBackoffMultiplier Z.eqb];
    destruct (StableAfterSeconds r3 =? 0) eqn:H5; cbn -[feq f_zero DefaultBackoffMultiplier Z.eqb];
    by rewrite ?H2, ?H2', ?H4, ?H5.
Qed.

Lemma stages_valid r :
  restart_valid r = true ->
  restart_valid (stage_stable (stage_multiplier (stage_backoff (stage_budget (stage_policy r))))) = true.
Proof.
  intros Hv.
  assert (H1 : restart_valid (stage_policy r) = true).
  { unfold stage_policy. destruct (decide (Policy r = _)) as [Hp|]; [|done].
    unfold restart_valid in *. rewrite Hp in Hv. exact Hv. }
  assert (H2 : restart_valid (stage_budget (stage_policy r)) = true).
  { unfold stage_budget. step_case; [|done]. revert H1. unfold restart_valid.
    rewrite !andb_true_iff. cbn -[flt fgt f_zero f_one Z.leb DefaultBackoffMultiplier DefaultJitter].
    intros Hr; destruct_and! Hr; split_and!; first [assumption|reflexivity]. }
  generalize dependent (stage_budget (stage_policy r)). clear Hv H1. intros r2 H2.
  assert (H3 : restart_valid (stage_backoff r2) = true).
  { unfold stage_backoff. step_case; [|done]. revert H2. unfold restart_valid.
    rewrite !andb_true_iff. cbn -[flt fgt f_zero f_one Z.leb DefaultBackoffMultiplier DefaultJitter].
    intros Hr; destruct_and! Hr; split_and!; first [assumption|reflexivity]. }
  generalize dependent (stage_backoff r2). clear H2. intros r3 H3.
  assert (H4 : restart_valid (stage_multiplier r3) = true).
  { unfold stage_multiplier. step_case; [|done]. revert H3. unfold restart_valid.
    rewrite !andb_true_iff. cbn -[flt fgt f_zero f_one Z.leb DefaultBackoffMultiplier DefaultJitter].
    intros Hr; destruct_and! Hr; split_and!; first [assumption|reflexivity]. }
  unfold stage_stable. step_case; [|done]. revert H4. unfold restart_valid.
  rewrite !andb_true_iff. cbn -[flt fgt f_zero f_one Z.leb DefaultBackoffMultiplier DefaultJitter].
    intros Hr; destruct_and! Hr; split_and!; first [assumption|reflexivity].
Qed.

(** Canonical settings are complete and stable.  [CanonicalRestart] leaves
    no unspecified policy, no zero multiplier and no zero stability period, is
    idempotent, and turns settings that [ValidateRestart] accepts into settings
    it still accepts. *)
Theorem canonical_restart restart :
  let c := CanonicalRestart restart in
  Policy c <> RESTART_POLICY_UNSPECIFIED
  /\ feq (BackoffMultiplier c) f_zero = false
  /\ StableAfterSeconds c <> 0
  /\ CanonicalRestart (Some c) = c
  /\ (is_ok (ValidateRestart restart) = true -> is_ok (ValidateRestart (Some c)) = true).
Proof.
  pose proof (stages_canonical (default zero_restart restart)) as Hc.
  pose proof (stages_valid (default zero_restart restart)) as Hv.
  rewrite <- canonical_stages in Hc, Hv.
  assert (Hr : is_ok (ValidateRestart restart) = true -> restart_valid (default zero_restart restart) = true).
  { destruct restart as [r|]; [by rewrite validate_ok|intros _; reflexivity]. }
  generalize dependent (CanonicalRestart restart). intros c Hc Hv c'. unfold c'.
  pose proof (canonical_fixed _ Hc) as Hfix. unfold canonical in Hc. bool_to_prop.
  split_and!; [by eapply bool_decide_eq_false|assumption|assumption|assumption|].
  rewrite validate_ok. auto.
Qed.

(** ** Witnesses *)

Definition w_now : time := 63900000000 * second.
Definition w_exit (code : Z) : Input := mkInput (mkProcessState false code 0 false false) false 0 0.
Definition w_up : Input := mkInput (mkProcessState true 0 0 false false) false 0 0.
Definition w_oob (x : float64) : Z := -9223372036854775808.

(** Crash, wait, restart, run briefly, crash again. *)
Definition w_ticks : list Tick :=
  [ mkTick w_now None (w_exit 1); mkTick (w_now + second) None (w_exit 1);
    mkTick (w_now + 2 * second) None w_up; mkTick (w_now + 3 * second) None (w_exit 137) ].

Lemma restart_budget_witness :
  RestartCount (cur (replay w_oob None None w_ticks)) = 0 + grant_count w_oob None None w_ticks
  /\ grant_count w_oob None None w_ticks = 2.
Proof.
  split; [|vm_compute; reflexivity].
  destruct (restart_budget w_oob None None w_ticks) as [_ H].
  - split; [vm_compute; reflexivity|vm_compute; discriminate].
  - split; vm_compute; discriminate.
  - apply H. vm_compute. reflexivity.
Defined.

Lemma crash_loop_absorbing_witness :
  Forall (fun d => dAction d = ActionCrashLoop)
    (decisions w_oob None (Some (zero_observation <| CrashLoop := true |>))
       [mkTick w_now None (w_exit 1); mkTick (w_now + hour) None (w_exit 0)]).
Proof.
  apply (crash_loop_absorbing w_oob None (Some (zero_observation <| CrashLoop := true |>))).
  - reflexivity.
  - repeat constructor.
Defined.

(** The default settings after three restarts, with a draw of one half. *)
Lemma backoff_delay_bounds_witness :
  0 <= backoffDelay w_oob (CanonicalRestart None) 3 (Some f_half)
    <= MaxDelayMs (CanonicalRestart None) * millisecond
  /\ backoffDelay w_oob (CanonicalRestart None) 3 (Some f_half) = 8 * second.
Proof.
  split; [|vm_compute; reflexivity].
  apply backoff_delay_bounds.
  - vm_compute. discriminate.
  - split; [vm_compute; reflexivity|vm_compute; discriminate].
  - vm_compute. reflexivity.
Defined.

Lemma delay_is_honoured_witness :
  dAction (decide_tick w_oob None
             (Some (dObservation (decide_tick w_oob None None (mkTick w_now None (w_exit 1)))))
             (mkTick (w_now + second) None (w_exit 1))) = ActionStart.
Proof.
  refine (proj1 (proj2 (delay_is_honoured w_oob None None (mkTick w_now None (w_exit 1))
           (mkTick (w_now + second) None (w_exit 1)) _ _ _ _ _ _) _)); vm_compute; congruence.
Defined.

Lemma stop_iff_policy_witness :
  dAction (decide_tick w_oob None None (mkTick w_now None (w_exit 0))) = ActionStop.
Proof.
  apply (stop_iff_policy w_oob None None (mkTick w_now None (w_exit 0))); try reflexivity.
  right. split; [discriminate|reflexivity].
Defined.
