(* ===== verification/Rollout.v ===== *)
(** * Rollout decisions ([internal/controlplane/delivery])

    [rollout_plan.go] with the predicates of [allocations.go] it uses: from a
    snapshot of a service's allocations, which of them to remove, promote,
    withdraw or fail, how many to place, and when the rollout is complete.  The
    functions are pure in the source too.

    The file proves that promotion and withdrawal never reduce the ready serving
    capacity, that placement respects the surge limit and the volume of a
    recreate rollout, that completion and failure mean what they say, and that
    a scale-down keeps the readiest allocations. *)

From S2P Require Import Prelude RestartPolicy.

(** ** Data *)

Record RollingStrategy := mkRollingStrategy {
  HealthcheckTimeoutSeconds : option Z; DrainingSeconds : option Z;
}.

Record AllocationRecord := mkAllocationRecord {
  ID : string; ServiceID : string; ProjectID : string; EnvironmentID : string; AgentID : string;
  DesiredSpecRevision : Z; AppliedSpecRevision : Z;
  DesiredRolloutGeneration : Z; AppliedRolloutGeneration : Z;
  Phase : string; aMessage : string; AllocationIPv4 : string; AllocationIPv6 : string;
  Healthy : bool; HealthyIPv4Ports : list Z; HealthyIPv6Ports : list Z;
  CreatedAt : time; UpdatedAt : time; Restart : option RestartObservation;
  OperatorRestartNonce : Z; RolloutState : string;
  DrainStartedAt : option time; DrainDeadline : option time;
}.
#[export] Instance AllocationRecord_eta : Eta AllocationRecord := fun a =>
  mkAllocationRecord (ID a) (ServiceID a) (ProjectID a) (EnvironmentID a) (AgentID a)
    (DesiredSpecRevision a) (AppliedSpecRevision a) (DesiredRolloutGeneration a)
    (AppliedRolloutGeneration a) (Phase a) (aMessage a) (AllocationIPv4 a) (AllocationIPv6 a)
    (Healthy a) (HealthyIPv4Ports a) (HealthyIPv6Ports a) (CreatedAt a) (UpdatedAt a) (Restart a)
    (OperatorRestartNonce a) (RolloutState a) (DrainStartedAt a) (DrainDeadline a).

Definition AllocationRolloutStarting : string := "starting".
Definition AllocationRolloutServing : string := "serving".
Definition AllocationRolloutWithdrawing : string := "withdrawing".
Definition AllocationRolloutDraining : string := "draining".
Definition AllocationRolloutSleeping : string := "sleeping".
Definition AllocationRolloutLost : string := "lost".

Definition rolloutStatePendingBuild : string := "pending_build".
Definition rolloutStateInProgress : string := "in_progress".
Definition rolloutStateSucceeded : string := "succeeded".
Definition rolloutStateFailed : string := "failed".
Definition rolloutStateSuperseded : string := "superseded".

Record rolloutRecord := mkRolloutRecord {
  roServiceID : string; Generation : Z; SpecRevision : Z; State : string;
  Strategy : option RollingStrategy; DesiredReplicaCount : Z; ArtifactID : string;
  ImageDigest : string; FailureReason : string; TargetAllocationID : string; Recreate : bool;
  roCreatedAt : time; ProgressAt : time;
}.

Record rolloutSnapshot := mkRolloutSnapshot {
  Rollout : rolloutRecord; Allocations : list AllocationRecord; Removing : bool;
}.

Record rolloutWithdrawal := mkWithdrawal { wAllocationID : string; wMessage : string }.

Record rolloutAdvanceResult := mkAdvanceResult {
  Changed : bool; IngressChanged : bool; NeedsIngressConvergence : bool; AgentIDs : list string;
  arEnvironmentID : string;
}.
#[export] Instance rolloutAdvanceResult_eta : Eta rolloutAdvanceResult := fun r =>
  mkAdvanceResult (Changed r) (IngressChanged r) (NeedsIngressConvergence r) (AgentIDs r)
    (arEnvironmentID r).

Record rolloutPlan := mkRolloutPlan {
  Result : rolloutAdvanceResult; Remove : list AllocationRecord; Promote : list AllocationRecord;
  Withdraw : list rolloutWithdrawal; pFailure : string; FailureTargets : list AllocationRecord;
  Complete : bool; CompleteRemoval : bool; PlacementSlots : Z; pAllocations : list AllocationRecord;
  Continue : bool; PlacementMessage : string;
}.
#[export] Instance rolloutPlan_eta : Eta rolloutPlan := fun p =>
  mkRolloutPlan (Result p) (Remove p) (Promote p) (Withdraw p) (pFailure p) (FailureTargets p)
    (Complete p) (CompleteRemoval p) (PlacementSlots p) (pAllocations p) (Continue p)
    (PlacementMessage p).
Definition zero_result : rolloutAdvanceResult := mkAdvanceResult false false false [] "".
Definition zero_plan : rolloutPlan :=
  mkRolloutPlan zero_result [] [] [] "" [] false false 0 [] false "".

(** ** Predicates on allocations *)

Definition AllocationReady (rec : AllocationRecord) : bool :=
  negb (str_eqb (RolloutState rec) AllocationRolloutWithdrawing)
  && negb (str_eqb (RolloutState rec) AllocationRolloutDraining)
  && Healthy rec
  && negb (str_eqb (TrimSpace (AllocationIPv4 rec)) "")
  && negb (str_eqb (TrimSpace (AllocationIPv6 rec)) "")
  && (DesiredSpecRevision rec <=? AppliedSpecRevision rec)
  && (DesiredRolloutGeneration rec <=? AppliedRolloutGeneration rec).

Definition in_state (st : string) (a : AllocationRecord) : bool := str_eqb (RolloutState a) st.
Definition filterAllocations (input : list AllocationRecord) (keep : AllocationRecord -> bool)
    : list AllocationRecord := filter (fun a => keep a = true) input.

Definition splitLostAllocations (existing : list AllocationRecord)
    : list AllocationRecord * list AllocationRecord :=
  (filterAllocations existing (fun a => negb (in_state AllocationRolloutLost a)),
   filterAllocations existing (in_state AllocationRolloutLost)).

Definition allocationOccupiesRolloutSlot (a : AllocationRecord) : bool :=
  in_state AllocationRolloutStarting a || in_state AllocationRolloutServing a
  || in_state AllocationRolloutWithdrawing a.

(** The order of [sortAllocationsStable]: by creation, then by identity. *)
Definition alloc_leb (a b : AllocationRecord) : bool :=
  if CreatedAt a =? CreatedAt b then String.leb (ID a) (ID b) else CreatedAt a <? CreatedAt b.
Definition sortAllocationsStable (l : list AllocationRecord) : list AllocationRecord := isort alloc_leb l.

Definition appendAllocationAgentIDs (ids : list string) (l : list AllocationRecord) : list string :=
  ids ++ map AgentID (filterAllocations l (fun a => negb (str_eqb (TrimSpace (AgentID a)) ""))).

(** The order of [selectAllocationsToRemove]: ready, healthy, oldest first. *)
Definition keep_leb (a b : AllocationRecord) : bool :=
  if negb (Bool.eqb (AllocationReady a) (AllocationReady b)) then AllocationReady a
  else if negb (Bool.eqb (Healthy a) (Healthy b)) then Healthy a
  else alloc_leb a b.

Definition selectAllocationsToRemove (existing : list AllocationRecord) (keep : Z)
    : list AllocationRecord * list AllocationRecord :=
  let keep := if keep <? 0 then 0 else keep in
  let sorted := isort keep_leb existing in
  if len sorted <=? keep then ([], sorted)
  else (drop (Z.to_nat keep) sorted, take (Z.to_nat keep) sorted).

(** ** Rollout parameters *)

Definition defaultRolloutMaxUnavailable : Z := 0.
Definition defaultRolloutMaxSurge : Z := 1.
Definition defaultRolloutSchedulingWait : duration := 300 * second.

Definition rolloutTargetReplicaCount (r : rolloutRecord) : Z :=
  if str_eqb (TargetAllocationID r) "" then DesiredReplicaCount r else 1.

Definition rolloutMaxSurge (r : rolloutRecord) : Z :=
  if Recreate r then 0 else defaultRolloutMaxSurge.

Definition rolloutMaxUnavailable (r : rolloutRecord) : Z :=
  if Recreate r then rolloutTargetReplicaCount r else defaultRolloutMaxUnavailable.

Definition GetHealthcheckTimeoutSeconds (s : option RollingStrategy) : Z :=
  match s with Some s => default 0 (HealthcheckTimeoutSeconds s) | None => 0 end.
Definition GetDrainingSeconds (s : option RollingStrategy) : Z :=
  match s with Some s => default 0 (DrainingSeconds s) | None => 0 end.

Definition canonicalRollingStrategy (s : option RollingStrategy) : RollingStrategy :=
  match s with
  | None => mkRollingStrategy (Some 300) (Some 0)
  | Some s => mkRollingStrategy
      (match HealthcheckTimeoutSeconds s with Some v => Some v | None => Some 300 end)
      (match DrainingSeconds s with Some v => Some v | None => Some 0 end)
  end.

Definition maxRolloutDeadline : duration := 24 * 3600 * second.
Definition ValidateRollingStrategy (s : option RollingStrategy) : result string unit :=
  let strategy := Some (canonicalRollingStrategy s) in
  let healthcheckTimeout := GetHealthcheckTimeoutSeconds strategy * second in
  _ ← guard_err ((healthcheckTimeout <? second) || (maxRolloutDeadline <? healthcheckTimeout))
        "healthcheck timeout must be between 1 second and 24h0m0s";
  let drainingTime := GetDrainingSeconds strategy * second in
  guard_err ((drainingTime <? 0) || (maxRolloutDeadline <? drainingTime))
    "draining time must be between 0 seconds and 24h0m0s".

(** Target generation, older allocations being replaced, and the others. *)
Definition splitRolloutAllocations (allocs : list AllocationRecord) (r : rolloutRecord)
    : list AllocationRecord * list AllocationRecord * list AllocationRecord :=
  let live := filterAllocations allocs (fun a => negb (in_state AllocationRolloutLost a)) in
  let older a := DesiredRolloutGeneration a <? Generation r in
  let replaced a := str_eqb (TargetAllocationID r) "" || str_eqb (ID a) (TargetAllocationID r) in
  (filterAllocations live (fun a => DesiredRolloutGeneration a =? Generation r),
   filterAllocations live (fun a => older a && replaced a),
   filterAllocations live (fun a => older a && negb (replaced a))).

Definition rolloutFailureCleanup (target : list AllocationRecord) : list AllocationRecord :=
  filterAllocations target (in_state AllocationRolloutStarting).

Definition GetCrashLoop (o : option RestartObservation) : bool :=
  match o with Some o => CrashLoop o | None => false end.

Definition rolloutAllocationFailure (a : AllocationRecord) (now : time)
    (strategy : option RollingStrategy) : string :=
  if bool_decide (Phase a ∈ ["Error"; "Failed"; "Unhealthy"; "Stopped"; "CrashLoop"]) then
    "replacement allocation " +:+ ID a +:+ " failed readiness: " +:+ firstNonEmpty [aMessage a; Phase a]
  else if GetCrashLoop (Restart a) || str_eqb (Phase a) "CrashLoop" then
    "replacement allocation " +:+ ID a +:+ " entered a crash loop: "
    +:+ firstNonEmpty [aMessage a; "restart budget exhausted"]
  else
    let deadline := CreatedAt a + GetHealthcheckTimeoutSeconds strategy * second in
    if negb (now <? deadline) then
      "replacement allocation " +:+ ID a +:+ " did not become ready within "
      +:+ seconds_string (GetHealthcheckTimeoutSeconds strategy) +:+ ": "
      +:+ firstNonEmpty [aMessage a; "readiness check did not pass"]
    else "".

Definition pendingPlacementMessage (placed desired : Z) (reason : string) : string :=
  let reason := TrimSpace reason in
  let reason := if str_eqb reason "" then "no active healthy node satisfies the placement constraints"
                else reason in
  pretty placed +:+ " of " +:+ pretty desired +:+ " replicas placed; " +:+ reason.

(** ** Deciding a step *)

Definition drained (now : time) (a : AllocationRecord) : bool :=
  in_state AllocationRolloutDraining a
  && (str_eqb (Phase a) "Drained"
      || match DrainDeadline a with Some d => negb (now <? d) | None => false end).

Definition set_state (id st : string) (allocs : list AllocationRecord) : list AllocationRecord :=
  map (fun a => if str_eqb (ID a) id then a <| RolloutState := st |> else a) allocs.

Definition serving_ready (a : AllocationRecord) : bool :=
  in_state AllocationRolloutServing a && AllocationReady a.
Definition starting_ready (a : AllocationRecord) : bool :=
  in_state AllocationRolloutStarting a && AllocationReady a.

(** The promotion loop: each promoted allocation replaces the next serving
    predecessor, while there is one. *)
Fixpoint promote_loop (news olds allocs : list AllocationRecord) (plan : rolloutPlan)
    : list AllocationRecord * rolloutPlan :=
  match news with
  | [] => (allocs, plan)
  | newAlloc :: news =>
      let allocs := set_state (ID newAlloc) AllocationRolloutServing allocs in
      let plan := plan <| Promote := Promote plan ++ [newAlloc] |>
                       <| Result := (Result plan) <| AgentIDs := AgentIDs (Result plan) ++ [AgentID newAlloc] |> |> in
      match olds with
      | [] => promote_loop news [] allocs plan
      | oldAlloc :: olds =>
          let plan := plan <| Withdraw := Withdraw plan
                                ++ [mkWithdrawal (ID oldAlloc) "replacement is ready; waiting for ingress withdrawal"] |> in
          let allocs := set_state (ID oldAlloc) AllocationRolloutWithdrawing allocs in
          let plan := plan <| Result := (Result plan) <| IngressChanged := true |>
                                                      <| NeedsIngressConvergence := true |> |> in
          promote_loop news olds allocs plan
      end
  end.

(** How many ready replacements enter service now. *)
Definition promote_count (readyStarting servingTarget servingOld predecessors : list AllocationRecord)
    (desiredTargetCount : Z) : Z :=
  let promote := len readyStarting in
  if 0 <? len predecessors then
    let needed := Z.max 0 (desiredTargetCount - len servingTarget) in
    let withoutPredecessor := Z.max 0 (needed - len servingOld) in
    let capPromote := len servingOld + withoutPredecessor in
    if capPromote <? promote then capPromote else promote
  else promote.

(** The part after promotion: completion, or the slots left for placement. *)
Definition decide_tail (rollout : rolloutRecord) (allocs : list AllocationRecord) (plan : rolloutPlan)
    : rolloutPlan :=
  let '(target, predecessors, _) := splitRolloutAllocations allocs rollout in
  let desiredTargetCount := rolloutTargetReplicaCount rollout in
  let servingTarget := filterAllocations target serving_ready in
  if (desiredTargetCount <=? wrap32 (len servingTarget)) && (len predecessors =? 0) then
    plan <| Complete := true |>
         <| Result := (Result plan) <| Changed := true |> <| IngressChanged := true |> |>
  else
    let missing := desiredTargetCount - len target in
    let limit := DesiredReplicaCount rollout
                 + (if 0 <? len predecessors then rolloutMaxSurge rollout else 0) in
    let slots := Z.max 0 (Z.min missing (limit - len (filterAllocations allocs allocationOccupiesRolloutSlot))) in
    let slots := if Recreate rollout && (0 <? len predecessors) then 0 else slots in
    plan <| PlacementSlots := slots |> <| pAllocations := allocs |> <| Continue := true |>.

Definition failing (now : time) (rollout : rolloutRecord) (a : AllocationRecord) : bool :=
  negb (negb (in_state AllocationRolloutStarting a) || AllocationReady a)
  && negb (str_eqb (rolloutAllocationFailure a now (Strategy rollout)) "").

Definition decideRollout (snapshot : rolloutSnapshot) (now : time) : rolloutPlan :=
  let rollout := Rollout snapshot in
  let allocs := Allocations snapshot in
  let removed := filterAllocations allocs (drained now) in
  let plan := zero_plan
    <| Remove := removed |>
    <| Result := zero_result <| Changed := negb (len removed =? 0) |> <| AgentIDs := map AgentID removed |> |> in
  let allocs := filterAllocations allocs (fun a => negb (drained now a)) in
  if existsb (in_state AllocationRolloutWithdrawing) allocs then
    plan <| Result := (Result plan) <| NeedsIngressConvergence := true |> <| IngressChanged := true |> |>
  else if Removing snapshot then
    if len allocs =? 0 then
      plan <| CompleteRemoval := true |>
           <| Result := (Result plan) <| Changed := true |> <| IngressChanged := true |> |>
    else plan
  else if negb (str_eqb (State rollout) rolloutStateInProgress) then plan
  else
    let '(target, predecessors, _) := splitRolloutAllocations allocs rollout in
    let desiredTargetCount := rolloutTargetReplicaCount rollout in
    match List.find (failing now rollout) target with
    | Some alloc =>
        plan <| pFailure := rolloutAllocationFailure alloc now (Strategy rollout) |>
             <| FailureTargets := rolloutFailureCleanup target |>
             <| Result := (Result plan) <| Changed := true |>
                            <| AgentIDs := appendAllocationAgentIDs (AgentIDs (Result plan)) target |> |>
    | None =>
        let readyStarting := sortAllocationsStable (filterAllocations target starting_ready) in
        let servingTarget := filterAllocations target serving_ready in
        let servingOld := sortAllocationsStable
          (filterAllocations predecessors (in_state AllocationRolloutServing)) in
        let promote := promote_count readyStarting servingTarget servingOld predecessors desiredTargetCount in
        let '(allocs, plan) := promote_loop (take (Z.to_nat promote) readyStarting) servingOld allocs plan in
        let plan := if 0 <? promote
                    then plan <| Result := (Result plan) <| Changed := true |> |> else plan in
        decide_tail rollout allocs plan
    end.

(** ** Deciding after placement *)

(** The number of predecessors to withdraw, and whether they are surplus. *)
Definition withdraw_count (rollout : rolloutRecord) (allocs : list AllocationRecord) (created : Z)
    : Z * bool :=
  let '(target, predecessors, unaffected) := splitRolloutAllocations allocs rollout in
  let missing := rolloutTargetReplicaCount rollout - len target in
  let servingOld := filterAllocations predecessors (in_state AllocationRolloutServing) in
  let available := len (filterAllocations target serving_ready)
    + countb AllocationReady servingOld + countb serving_ready unaffected in
  let minimumAvailable := Z.max 0 (DesiredReplicaCount rollout - rolloutMaxUnavailable rollout) in
  let limit := DesiredReplicaCount rollout
               + (if 0 <? len predecessors then rolloutMaxSurge rollout else 0) in
  let over := len (filterAllocations allocs allocationOccupiesRolloutSlot) + created - limit in
  let room := missing - created in
  let withdraw := available - minimumAvailable in
  let withdraw := if withdraw <? over then over else withdraw in
  let withdraw := if (0 <? room) && (room <? withdraw) then room else withdraw in
  let withdraw := if len servingOld <? withdraw then len servingOld else withdraw in
  let withdraw := if withdraw <? 0 then 0 else withdraw in
  (withdraw, 0 <? over).

Definition withdraw_message (surplus : bool) : string :=
  if surplus then "surplus predecessor; waiting for ingress withdrawal"
  else "strategy allows temporary unavailability; waiting for ingress withdrawal".

Definition decideRolloutPlacement (snapshot : rolloutSnapshot) (created : Z) (ingressPending : bool)
    (now : time) : rolloutPlan :=
  let plan := zero_plan <| Result := zero_result <| NeedsIngressConvergence := ingressPending |> |> in
  let rollout := Rollout snapshot in
  let allocs := Allocations snapshot in
  let '(target, predecessors, _) := splitRolloutAllocations allocs rollout in
  let desiredTargetCount := rolloutTargetReplicaCount rollout in
  let missing := desiredTargetCount - len target in
  let plan :=
    if ingressPending then plan
    else
      let servingOld := sortAllocationsStable
        (filterAllocations predecessors (in_state AllocationRolloutServing)) in
      let '(withdraw, surplus) := withdraw_count rollout allocs created in
      let chosen := take (Z.to_nat withdraw) servingOld in
      let any := negb (len chosen =? 0) in
      plan <| Withdraw := map (fun a => mkWithdrawal (ID a) (withdraw_message surplus)) chosen |>
           <| Result := (Result plan) <| Changed := any |> <| IngressChanged := any |>
                                      <| NeedsIngressConvergence := any |> |> in
  let pending := NeedsIngressConvergence (Result plan) in
  if Recreate rollout && (0 <? len predecessors) then
    if negb pending then
      plan <| PlacementMessage := "waiting for the previous allocation to stop and release its volume" |>
    else plan
  else
    let placement := if (0 <? missing) && (created <? missing) && negb pending
                     then pendingPlacementMessage (len target + created) desiredTargetCount
                            "no eligible agent has spare capacity for a replacement"
                     else "" in
    let plan := plan <| PlacementMessage := placement |> in
    if (0 <? missing) && (created =? 0) && negb pending
       && (defaultRolloutSchedulingWait <=? time_sub now (ProgressAt rollout))
    then
      plan <| pFailure := "could not schedule a replacement within "
                +:+ seconds_string (defaultRolloutSchedulingWait / second)
                +:+ ": no eligible agent has spare capacity for a replacement" |>
           <| FailureTargets := rolloutFailureCleanup target |>
           <| Result := (Result plan) <| Changed := true |>
                          <| AgentIDs := appendAllocationAgentIDs (AgentIDs (Result plan)) target |> |>
    else plan.

(** ** Persisting a decision *)

(** The effect of [advanceRolloutTx] on the assignments: completed drains are
    deleted, promoted allocations serve, withdrawn ones wait for ingress. *)
Definition persist_withdrawals (ws : list rolloutWithdrawal) (allocs : list AllocationRecord)
    : list AllocationRecord :=
  foldl (fun l w => set_state (wAllocationID w) AllocationRolloutWithdrawing l) allocs ws.

Definition persist_plan (plan : rolloutPlan) (allocs : list AllocationRecord) : list AllocationRecord :=
  let allocs := foldl (fun l r => filter (fun a => ID a <> ID r) l) allocs (Remove plan) in
  let allocs := foldl (fun l p => set_state (ID p) AllocationRolloutServing l) allocs (Promote plan) in
  persist_withdrawals (Withdraw plan) allocs.

(** ** Sets of identities *)

Definition has_id (ids : list string) (a : AllocationRecord) : bool := bool_decide (ID a ∈ ids).

Definition unique_ids (l : list AllocationRecord) : Prop := NoDup (map ID l).

Lemma unique_ids_eq l a b : unique_ids l -> a ∈ l -> b ∈ l -> ID a = ID b -> a = b.
Proof. apply NoDup_map_eq. Qed.

Lemma unique_ids_sublist l1 l2 : l1 `sublist_of` l2 -> unique_ids l2 -> unique_ids l1.
Proof.
  intros Hs Hn. eapply sublist_NoDup; [exact Hn|by apply sublist_map].
Qed.

Lemma unique_ids_filter keep l : unique_ids l -> unique_ids (filterAllocations l keep).
Proof. apply unique_ids_sublist, sublist_filter. Qed.

Lemma unique_ids_perm l1 l2 : l1 ≡ₚ l2 -> unique_ids l1 -> unique_ids l2.
Proof. unfold unique_ids. intros E Hn. by rewrite <- E. Qed.

Lemma filterAllocations_in keep l a : a ∈ filterAllocations l keep <-> keep a = true /\ a ∈ l.
Proof. unfold filterAllocations. by rewrite list_elem_of_filter. Qed.

Lemma filterAllocations_len keep l : len (filterAllocations l keep) <= len l.
Proof. unfold len, filterAllocations. apply inj_le, length_filter. Qed.

(** At most one allocation per identity, and exactly one per present one. *)
Lemma count_ids_le ids l : unique_ids l -> countb (has_id ids) l <= len ids.
Proof.
  intros Hn. rewrite (countb_filter (fun a => ID a ∈ ids)) by (intros; apply bool_decide_eq_true).
  unfold len. rewrite <- (length_map ID). apply inj_le, submseteq_length, NoDup_submseteq.
  - eapply unique_ids_sublist; [apply sublist_filter|done].
  - intros x Hx. apply list_elem_of_fmap in Hx as (a & -> & Ha). by apply list_elem_of_filter in Ha as [? _].
Qed.

Lemma count_ids_ge sub l :
  unique_ids sub -> (forall a, a ∈ sub -> a ∈ l) -> len sub <= countb (has_id (map ID sub)) l.
Proof.
  intros Hn Hs. rewrite (countb_filter (fun a => ID a ∈ map ID sub)) by (intros; apply bool_decide_eq_true).
  unfold len. apply inj_le, submseteq_length, NoDup_submseteq; [by eapply NoDup_fmap_1|].
  intros a Ha. apply list_elem_of_filter. split; [|auto]. apply list_elem_of_fmap. eauto.
Qed.

(** ** Promotion *)

(** The state an allocation ends in: withdrawn, promoted, or as it was. *)
Definition reassign (promoted withdrawn : list string) (a : AllocationRecord) : AllocationRecord :=
  if has_id withdrawn a then a <| RolloutState := AllocationRolloutWithdrawing |>
  else if has_id promoted a then a <| RolloutState := AllocationRolloutServing |>
  else a.

Lemma reassign_nil l : map (reassign [] []) l = l.
Proof. induction l as [|a l IH]; [done|]. cbn. by rewrite IH. Qed.

Lemma set_state_reassign id st a : ID (if str_eqb (ID a) id then a <| RolloutState := st |> else a) = ID a.
Proof. by destruct (str_eqb _ _). Qed.

Lemma has_id_cons id ids a : has_id (id :: ids) a = str_eqb (ID a) id || has_id ids a.
Proof.
  unfold has_id, str_eqb. rewrite <- bool_decide_or. apply bool_decide_ext. set_solver.
Qed.

(** Promoting then withdrawing in one round, with more rounds to follow. *)
Lemma reassign_step n (o : list string) news olds a :
  (length o <= 1)%nat -> ID a ∉ news \/ ID a <> n -> (forall x, x ∈ o -> x ∉ n :: news) ->
  reassign news olds
    (foldl (fun a id => if str_eqb (ID a) id then a <| RolloutState := AllocationRolloutWithdrawing |> else a)
       (if str_eqb (ID a) n then a <| RolloutState := AllocationRolloutServing |> else a) o)
  = reassign (n :: news) (o ++ olds) a.
Proof.
  intros Ho Hn Hd. unfold reassign. destruct o as [|x [|y o]]; [| |cbn in Ho; lia]; cbn [foldl app].
  - rewrite !has_id_cons. unfold has_id. rewrite set_state_reassign.
    destruct (str_eqb (ID a) n) eqn:E; cbn; [|done].
    destruct (bool_decide (ID a ∈ olds)); [done|]. destruct (bool_decide _); done.
  - rewrite !has_id_cons. unfold has_id. rewrite !set_state_reassign.
    destruct (str_eqb (ID a) x) eqn:Ex; cbn [orb].
    + apply str_eqb_eq in Ex. destruct (str_eqb (ID a) n) eqn:En.
      { apply str_eqb_eq in En. specialize (Hd x). set_solver. }
      rewrite (bool_decide_false (ID a ∈ news)) by (specialize (Hd x); set_solver).
      by destruct (bool_decide _).
    + destruct (str_eqb (ID a) n); cbn [orb]; [|done].
      destruct (bool_decide (ID a ∈ olds)); [done|]. destruct (bool_decide _); done.
Qed.

Lemma promote_loop_allocs news : forall olds allocs plan,
  NoDup (map ID news) -> (forall x, x ∈ map ID olds -> x ∉ map ID news) ->
  (promote_loop news olds allocs plan).1
  = map (reassign (map ID news) (map ID (take (length news) olds))) allocs.
Proof.
  induction news as [|n news IH]; intros olds allocs plan Hn Hd; cbn [promote_loop].
  { by rewrite reassign_nil. }
  cbn in Hn. apply NoDup_cons in Hn as [Hn1 Hn]. cbv zeta.
  destruct olds as [|o olds].
  - rewrite IH; [|done|cbn; set_solver]. unfold set_state. rewrite map_map. apply map_ext. intros a.
    rewrite !take_nil. cbn [map length].
    apply (reassign_step _ []); [cbn; lia| |set_solver]. destruct (decide (ID a = ID n)); [left; congruence|by right].
  - rewrite IH; [|done|cbn in Hd; set_solver]. unfold set_state. rewrite !map_map. apply map_ext. intros a.
    cbn [map length take].
    apply (reassign_step _ [ID o]); [cbn; lia| |cbn in Hd; set_solver].
    destruct (decide (ID a = ID n)); [left; congruence|by right].
Qed.

Lemma promote_loop_plan news : forall olds allocs plan,
  let plan' := (promote_loop news olds allocs plan).2 in
  Promote plan' = Promote plan ++ news
  /\ map wAllocationID (Withdraw plan') = map wAllocationID (Withdraw plan) ++ map ID (take (length news) olds)
  /\ Remove plan' = Remove plan /\ Complete plan' = Complete plan
  /\ CompleteRemoval plan' = CompleteRemoval plan /\ Continue plan' = Continue plan
  /\ pFailure plan' = pFailure plan /\ FailureTargets plan' = FailureTargets plan.
Proof.
  induction news as [|n news IH]; intros olds allocs plan; cbn [promote_loop].
  { rewrite !app_nil_r. done. }
  cbv zeta. destruct olds as [|o olds].
  - match goal with |- context [promote_loop news [] ?l ?p] => destruct (IH [] l p) as (H1 & H2 & H3) end.
    rewrite H1, H2, !take_nil. split_and!; try apply H3; cbn; [by rewrite <- app_assoc|done].
  - match goal with |- context [promote_loop news olds ?l ?p] => destruct (IH olds l p) as (H1 & H2 & H3) end.
    rewrite H1, H2. split_and!; try apply H3; cbn; [by rewrite <- app_assoc|].
    rewrite map_app, <- app_assoc. done.
Qed.

Lemma promoted_ready a :
  starting_ready a = true ->
  serving_ready a = false /\ serving_ready (a <| RolloutState := AllocationRolloutServing |>) = true.
Proof.
  unfold starting_ready, serving_ready, AllocationReady, in_state. intros H. bool_to_prop.
  cbn [RolloutState]. rewrite H. split; [reflexivity|].
  change (RolloutState (a <| RolloutState := AllocationRolloutServing |>)) with AllocationRolloutServing.
  cbn [Healthy AllocationIPv4 AllocationIPv6 DesiredSpecRevision AppliedSpecRevision
    DesiredRolloutGeneration AppliedRolloutGeneration].
  rewrite !andb_true_iff. repeat split; try reflexivity; cbn;
    try apply negb_true_iff; try apply str_eqb_neq; try apply Z.leb_le; done.
Qed.

(** Each promotion adds a ready serving allocation; each withdrawal takes at
    most one, and there are no more of them. *)
Lemma reassign_capacity news olds l :
  unique_ids l -> unique_ids news -> (len olds <= len news) ->
  (forall a, a ∈ news -> a ∈ l /\ starting_ready a = true) ->
  (forall x, x ∈ olds -> x ∉ map ID news) ->
  countb serving_ready l <= countb serving_ready (map (reassign (map ID news) olds) l).
Proof.
  intros Hl Hn Hlen Hnews Hd.
  pose proof (count_ids_le olds l Hl) as Hw. pose proof (count_ids_ge news l Hn (fun a H => proj1 (Hnews a H))) as Hp.
  enough (H : countb serving_ready l + countb (has_id (map ID news)) l
     <= countb serving_ready (map (reassign (map ID news) olds) l) + countb (has_id olds) l) by lia.
  assert (Hst : forall a, a ∈ l -> has_id (map ID news) a = true -> starting_ready a = true).
  { intros a Ha H. apply bool_decide_eq_true, list_elem_of_fmap in H as (b & E & Hb).
    destruct (Hnews b Hb) as [Hbl Hs]. by rewrite (unique_ids_eq l a b). }
  clear Hw Hp Hlen Hnews Hl Hn. induction l as [|a l IH]; [done|].
  specialize (IH ltac:(set_solver)). specialize (Hst a ltac:(set_solver)).
  unfold countb, sumZ in *. cbn [map foldr].
  assert (Hone : (if serving_ready a then 1 else 0) + (if has_id (map ID news) a then 1 else 0)
    <= (if serving_ready (reassign (map ID news) olds a) then 1 else 0) + (if has_id olds a then 1 else 0)); [|lia].
  unfold reassign. destruct (has_id olds a) eqn:Ho, (has_id (map ID news) a) eqn:Hp.
  - apply bool_decide_eq_true in Ho, Hp. by destruct (Hd _ Ho).
  - destruct (serving_ready a), (serving_ready _); lia.
  - destruct (promoted_ready a (Hst eq_refl)) as [-> ->]. lia.
  - lia.
Qed.

(** ** The shape of a decision *)

Definition kept (snapshot : rolloutSnapshot) (now : time) : list AllocationRecord :=
  filterAllocations (Allocations snapshot) (fun a => negb (drained now a)).

(** A plan that leaves every remaining allocation as it is. *)
Definition inert (plan : rolloutPlan) : Prop :=
  Promote plan = [] /\ Withdraw plan = [] /\ Complete plan = false /\ Continue plan = false.

(** The promotion of a decision: ready starting allocations of the target
    generation, paired with serving predecessors. *)
Definition news_of (snapshot : rolloutSnapshot) (now : time) : list AllocationRecord :=
  let '(target, predecessors, _) := splitRolloutAllocations (kept snapshot now) (Rollout snapshot) in
  let readyStarting := sortAllocationsStable (filterAllocations target starting_ready) in
  let servingOld := sortAllocationsStable (filterAllocations predecessors (in_state AllocationRolloutServing)) in
  take (Z.to_nat (promote_count readyStarting (filterAllocations target serving_ready) servingOld
    predecessors (rolloutTargetReplicaCount (Rollout snapshot)))) readyStarting.

Definition olds_of (snapshot : rolloutSnapshot) (now : time) : list AllocationRecord :=
  let '(_, predecessors, _) := splitRolloutAllocations (kept snapshot now) (Rollout snapshot) in
  take (length (news_of snapshot now))
    (sortAllocationsStable (filterAllocations predecessors (in_state AllocationRolloutServing))).

Definition after_promotion (snapshot : rolloutSnapshot) (now : time) : list AllocationRecord :=
  map (reassign (map ID (news_of snapshot now)) (map ID (olds_of snapshot now))) (kept snapshot now).

(** Members of the three parts of a split. *)
Lemma split_target allocs r a :
  a ∈ (splitRolloutAllocations allocs r).1.1 <->
  a ∈ allocs /\ RolloutState a <> AllocationRolloutLost /\ DesiredRolloutGeneration a = Generation r.
Proof.
  cbn. rewrite !filterAllocations_in. unfold in_state.
  rewrite negb_true_iff, str_eqb_neq, Z.eqb_eq. naive_solver.
Qed.

Lemma split_predecessors allocs r a :
  a ∈ (splitRolloutAllocations allocs r).1.2 ->
  a ∈ allocs /\ RolloutState a <> AllocationRolloutLost /\ DesiredRolloutGeneration a < Generation r.
Proof.
  cbn. rewrite !filterAllocations_in. unfold in_state.
  rewrite negb_true_iff, str_eqb_neq, andb_true_iff, Z.ltb_lt. naive_solver.
Qed.

Lemma elem_of_take_in {A} (x : A) n l : x ∈ take n l -> x ∈ l.
Proof. intros H. apply elem_of_take in H as (i & H & _). by eapply list_elem_of_lookup_2. Qed.

Lemma news_spec snapshot now a :
  a ∈ news_of snapshot now ->
  a ∈ kept snapshot now /\ starting_ready a = true
  /\ DesiredRolloutGeneration a = Generation (Rollout snapshot).
Proof.
  unfold news_of. pose proof (split_target (kept snapshot now) (Rollout snapshot) a) as Hs.
  destruct (splitRolloutAllocations _ _) as [[target predecessors] un]. cbn in Hs.
  intros H%elem_of_take_in%isort_elem%filterAllocations_in. naive_solver.
Qed.

Lemma olds_spec snapshot now a :
  a ∈ olds_of snapshot now ->
  a ∈ kept snapshot now /\ RolloutState a = AllocationRolloutServing
  /\ DesiredRolloutGeneration a < Generation (Rollout snapshot).
Proof.
  unfold olds_of. pose proof (split_predecessors (kept snapshot now) (Rollout snapshot) a) as Hs.
  destruct (splitRolloutAllocations _ _) as [[target predecessors] un]. cbn in Hs.
  intros [H1 H2]%elem_of_take_in%isort_elem%filterAllocations_in.
  apply str_eqb_eq in H1. naive_solver.
Qed.

Lemma news_unique snapshot now : unique_ids (Allocations snapshot) -> unique_ids (news_of snapshot now).
Proof.
  intros Hu. unfold news_of. destruct (splitRolloutAllocations _ _) as [[target predecessors] un] eqn:E.
  eapply unique_ids_sublist; [apply sublist_take|].
  eapply unique_ids_perm; [symmetry; apply isort_perm|]. apply unique_ids_filter.
  injection E as <- _ _. by do 3 apply unique_ids_filter.
Qed.

Lemma olds_not_news snapshot now x :
  unique_ids (Allocations snapshot) ->
  x ∈ map ID (olds_of snapshot now) -> x ∉ map ID (news_of snapshot now).
Proof.
  intros Hu (o & -> & Ho)%list_elem_of_fmap (n & E & Hn)%list_elem_of_fmap.
  apply olds_spec in Ho as (Ho & _ & Hlt). apply news_spec in Hn as (Hn & _ & Heq).
  assert (o = n) as -> by (eapply unique_ids_eq; [by apply unique_ids_filter|..]; done). lia.
Qed.

Lemma olds_length snapshot now : len (olds_of snapshot now) <= len (news_of snapshot now).
Proof.
  unfold olds_of. destruct (splitRolloutAllocations _ _) as [[? ?] ?]. unfold len. rewrite length_take. lia.
Qed.

Lemma decide_tail_frame rollout allocs plan :
  let plan' := decide_tail rollout allocs plan in
  Remove plan' = Remove plan /\ Promote plan' = Promote plan /\ Withdraw plan' = Withdraw plan
  /\ pFailure plan' = pFailure plan /\ FailureTargets plan' = FailureTargets plan
  /\ CompleteRemoval plan' = CompleteRemoval plan.
Proof.
  unfold decide_tail. destruct (splitRolloutAllocations _ _) as [[? ?] ?]. cbv zeta.
  by destruct (_ && _).
Qed.

(** The loop only looks at as many predecessors as it promotes. *)
Lemma promote_loop_split news olds allocs plan :
  NoDup (map ID news) -> (forall x, x ∈ map ID (take (length news) olds) -> x ∉ map ID news) ->
  (promote_loop news olds allocs plan).1
  = map (reassign (map ID news) (map ID (take (length news) olds))) allocs.
Proof.
  revert olds allocs plan.
  assert (H : forall news olds rest allocs plan, (length news <= length olds)%nat ->
    promote_loop news (olds ++ rest) allocs plan = promote_loop news olds allocs plan).
  { clear. induction news as [|n news IH]; intros olds rest allocs plan Hl; [done|].
    destruct olds as [|o olds]; [cbn in Hl; lia|]. cbn. apply IH. cbn in Hl. lia. }
  intros olds allocs plan Hn Hd. destruct (decide (length news <= length olds)%nat) as [Hl|Hl].
  - pose proof (take_drop (length news) olds) as E. revert Hd.
    generalize dependent (drop (length news) olds). intros rest E Hd.
    rewrite <- E at 1. rewrite H by (rewrite length_take; lia).
    rewrite promote_loop_allocs by done. f_equal. f_equal. rewrite take_take. f_equal. f_equal. lia.
  - rewrite take_ge in * by lia. by rewrite promote_loop_allocs, take_ge by (done || lia).
Qed.

(** Either nothing moves, or the promotion is carried out and the tail decides. *)
Lemma decideRollout_shape snapshot now :
  unique_ids (Allocations snapshot) ->
  let plan := decideRollout snapshot now in
  Remove plan = filterAllocations (Allocations snapshot) (drained now)
  /\ (inert plan
         /\ (FailureTargets plan = [] \/ FailureTargets plan = rolloutFailureCleanup
               (splitRolloutAllocations (kept snapshot now) (Rollout snapshot)).1.1)
      \/ existsb (in_state AllocationRolloutWithdrawing) (kept snapshot now) = false
         /\ State (Rollout snapshot) = rolloutStateInProgress /\ Removing snapshot = false
         /\ Promote plan = news_of snapshot now
         /\ map wAllocationID (Withdraw plan) = map ID (olds_of snapshot now)
         /\ pFailure plan = "" /\ FailureTargets plan = [] /\ CompleteRemoval plan = false
         /\ exists p, Complete p = false /\ Continue p = false
              /\ plan = decide_tail (Rollout snapshot) (after_promotion snapshot now) p).
Proof.
  intros Hu. unfold decideRollout. cbv zeta.
  change (filterAllocations (Allocations snapshot) (fun a => negb (drained now a))) with (kept snapshot now).
  destruct (existsb _ (kept snapshot now)) eqn:Hw; [by split; [|left; split; [|left]]|].
  destruct (Removing snapshot) eqn:Hr.
  { destruct (len _ =? 0); (split; [done|left; split; [done|by left]]). }
  destruct (str_eqb (State _) _) eqn:Hs; cbn [negb]; [|by split; [|left; split; [|left]]]. apply str_eqb_eq in Hs.
  pose proof (news_unique snapshot now Hu) as Hn.
  pose proof (fun x => olds_not_news snapshot now x Hu) as Hd.
  unfold after_promotion, olds_of in *. unfold news_of in *.
  destruct (splitRolloutAllocations (kept snapshot now) (Rollout snapshot)) as [[target preds] un] eqn:Hsp.
  destruct (List.find _ target) as [a|] eqn:Hf; [by split; [|left; split; [|right]]|].
  match type of Hn with unique_ids ?l => set (news := l) in * end.
  match goal with |- context [promote_loop news ?o ?l ?p] =>
    pose proof (promote_loop_plan news o l p) as HP;
    pose proof (promote_loop_split news o l p) as HA;
    destruct (promote_loop news o l p) as [allocs' plan'] eqn:Hpl end.
  cbn [fst snd] in HP, HA. destruct HP as (P1 & P2 & P3 & P4 & P5 & P6 & P7 & P8).
  match goal with |- context [decide_tail _ _ ?p] => set (plan'' := p) end.
  assert (Hsame : Promote plan'' = Promote plan' /\ Withdraw plan'' = Withdraw plan'
    /\ Remove plan'' = Remove plan' /\ Complete plan'' = Complete plan' /\ Continue plan'' = Continue plan'
    /\ pFailure plan'' = pFailure plan' /\ FailureTargets plan'' = FailureTargets plan'
    /\ CompleteRemoval plan'' = CompleteRemoval plan')
    by (unfold plan''; by destruct (0 <? _)).
  clearbody plan''. destruct Hsame as (Q1 & Q2 & Q3 & Q4 & Q5 & Q6 & Q7 & Q8).
  destruct (decide_tail_frame (Rollout snapshot) allocs' plan'') as (T1 & T2 & T3 & T4 & T5 & T6).
  rewrite HA in * by done.
  split; [by rewrite T1, Q3, P3|right]. split_and!; try done; try congruence.
  - by rewrite T2, Q1, P1.
  - by rewrite T3, Q2, P2.
  - by rewrite T4, Q6, P7.
  - by rewrite T5, Q7, P8.
  - by rewrite T6, Q8, P5.
  - exists plan''. rewrite Q4, Q5, P4, P6. done.
Qed.

(** ** The persisted table *)

Lemma foldl_set_state {B} (key : B -> string) st ks : forall l,
  foldl (fun l k => set_state (key k) st l) l ks
  = map (fun a => if has_id (map key ks) a then a <| RolloutState := st |> else a) l.
Proof.
  induction ks as [|k ks IH]; intros l; cbn [foldl map].
  { rewrite (map_ext _ id) by (intros a; reflexivity). by rewrite map_id. }
  rewrite IH. unfold set_state. rewrite map_map. apply map_ext. intros a. rewrite has_id_cons.
  unfold has_id at 1. rewrite set_state_reassign. fold (has_id (map key ks) a).
  destruct (str_eqb (ID a) (key k)), (has_id (map key ks) a); done.
Qed.

Lemma foldl_remove rs : forall (l : list AllocationRecord),
  foldl (fun l r => filter (fun a => ID a <> ID r) l) l rs = filter (fun a => ID a ∉ map ID rs) l.
Proof.
  induction rs as [|r rs IH]; intros l; cbn [foldl map].
  { symmetry. apply filter_id. set_solver. }
  rewrite IH, list_filter_filter. apply list_filter_iff. intros a. rewrite not_elem_of_cons. naive_solver.
Qed.

Lemma removed_kept snapshot now :
  unique_ids (Allocations snapshot) ->
  filter (fun a => ID a ∉ map ID (filterAllocations (Allocations snapshot) (drained now))) (Allocations snapshot)
  = kept snapshot now.
Proof.
  intros Hu. unfold kept, filterAllocations. apply list_filter_iff'. intros a Ha. split.
  - intros Hn. apply negb_true_iff. destruct (drained now a) eqn:E; [|done]. destruct Hn.
    apply list_elem_of_fmap. exists a. split; [done|]. by apply list_elem_of_filter.
  - intros Hn (b & E & Hb)%list_elem_of_fmap. apply list_elem_of_filter in Hb as [Hb Hin].
    apply negb_true_iff in Hn. rewrite (unique_ids_eq _ a b) in Hn by done. congruence.
Qed.

Lemma persist_inert snapshot now :
  unique_ids (Allocations snapshot) -> inert (decideRollout snapshot now) ->
  persist_plan (decideRollout snapshot now) (Allocations snapshot) = kept snapshot now.
Proof.
  intros Hu (H1 & H2 & _). destruct (decideRollout_shape snapshot now Hu) as [H0 _].
  unfold persist_plan, persist_withdrawals. rewrite H0, H1, H2. cbn [foldl]. rewrite foldl_remove. by apply removed_kept.
Qed.

Lemma persist_promotion snapshot now :
  unique_ids (Allocations snapshot) ->
  Promote (decideRollout snapshot now) = news_of snapshot now ->
  map wAllocationID (Withdraw (decideRollout snapshot now)) = map ID (olds_of snapshot now) ->
  persist_plan (decideRollout snapshot now) (Allocations snapshot) = after_promotion snapshot now.
Proof.
  intros Hu H1 H2. destruct (decideRollout_shape snapshot now Hu) as [H0 _].
  unfold persist_plan, persist_withdrawals. rewrite foldl_remove, !foldl_set_state, H0, H1, H2, removed_kept by done.
  unfold after_promotion. rewrite map_map. apply map_ext. intros a. unfold reassign.
  destruct (has_id (map ID (news_of snapshot now)) a) eqn:Hn; [|done].
  change (has_id (map ID (olds_of snapshot now)) (a <| RolloutState := AllocationRolloutServing |>))
    with (has_id (map ID (olds_of snapshot now)) a).
  destruct (has_id (map ID (olds_of snapshot now)) a) eqn:Ho; [|done].
  apply bool_decide_eq_true in Hn, Ho. by destruct (olds_not_news snapshot now _ Hu Ho).
Qed.

Lemma kept_capacity snapshot now :
  countb serving_ready (kept snapshot now) = countb serving_ready (Allocations snapshot).
Proof.
  unfold kept, filterAllocations. induction (Allocations snapshot) as [|a l IH]; [done|].
  rewrite filter_cons. unfold countb, sumZ in *. destruct (decide _) as [_|Hd]; cbn [foldr]; rewrite IH; [done|].
  apply not_true_iff_false, negb_false_iff in Hd. unfold drained in Hd.
  apply andb_true_iff in Hd as [Hd _]. apply str_eqb_eq in Hd.
  unfold serving_ready, in_state. rewrite Hd. reflexivity.
Qed.

(** ** What a rollout promises *)

(** C22: A rollout decision never reduces serving capacity: once its removals,
    promotions and withdrawals are stored, at least as many allocations are
    serving and ready as before, for any snapshot with distinct identities. *)
Theorem decision_keeps_capacity snapshot now :
  unique_ids (Allocations snapshot) ->
  countb serving_ready (Allocations snapshot)
  <= countb serving_ready (persist_plan (decideRollout snapshot now) (Allocations snapshot)).
Proof.
  intros Hu. rewrite <- (kept_capacity snapshot now).
  destruct (decideRollout_shape snapshot now Hu) as [_ [[Hi _]|(_ & _ & _ & H1 & H2 & _)]].
  { by rewrite persist_inert. }
  rewrite persist_promotion by done. apply reassign_capacity.
  - by apply unique_ids_filter.
  - by apply news_unique.
  - rewrite len_map. apply olds_length.
  - intros a Ha. by apply news_spec in Ha as (? & ? & _).
  - intros x. by apply olds_not_news.
Qed.

(** What a decision may touch.  Removed allocations are draining and either
    drained or past their deadline; promoted ones are ready, starting and of
    the rollout's generation; withdrawn ones are serving and older; those a
    failure cleans up are starting and of the rollout's generation, and a
    failure promotes and withdraws nothing. *)
Theorem decision_targets snapshot now :
  unique_ids (Allocations snapshot) ->
  let plan := decideRollout snapshot now in
  (forall a, a ∈ Remove plan -> a ∈ Allocations snapshot /\ RolloutState a = AllocationRolloutDraining
     /\ (Phase a = "Drained" \/ exists d, DrainDeadline a = Some d /\ d <= now))
  /\ (forall a, a ∈ Promote plan -> a ∈ Allocations snapshot /\ starting_ready a = true
        /\ DesiredRolloutGeneration a = Generation (Rollout snapshot))
  /\ (forall w, w ∈ Withdraw plan -> exists a, a ∈ Allocations snapshot /\ ID a = wAllocationID w
        /\ RolloutState a = AllocationRolloutServing
        /\ DesiredRolloutGeneration a < Generation (Rollout snapshot))
  /\ (forall a, a ∈ FailureTargets plan -> a ∈ Allocations snapshot
        /\ RolloutState a = AllocationRolloutStarting
        /\ DesiredRolloutGeneration a = Generation (Rollout snapshot))
  /\ (pFailure plan <> "" -> Promote plan = [] /\ Withdraw plan = [] /\ Complete plan = false).
Proof.
  intros Hu. cbv zeta. destruct (decideRollout_shape snapshot now Hu) as [H0 H].
  assert (Hk : forall a, a ∈ kept snapshot now -> a ∈ Allocations snapshot)
    by (intros a Ha; by apply filterAllocations_in in Ha as [_ ?]).
  split.
  { intros a Ha. rewrite H0 in Ha. apply filterAllocations_in in Ha as [Hd Ha]. unfold drained in Hd.
    apply andb_true_iff in Hd as [Hd Hp]. apply str_eqb_eq in Hd. split_and!; try done.
    apply orb_true_iff in Hp as [Hp|Hp]; [left; by apply str_eqb_eq|right].
    destruct (DrainDeadline a) as [d|]; [|done]. exists d. bool_to_prop. done. }
  destruct H as [[(I1 & I2 & I3 & I4) HF]|(_ & _ & _ & H1 & H2 & H3 & H4 & _)].
  - rewrite I1, I2. split_and!; [set_solver|set_solver| |done].
    intros a Ha. destruct HF as [HF|HF]; rewrite HF in Ha; [set_solver|].
    unfold rolloutFailureCleanup in Ha. apply filterAllocations_in in Ha as [Hs Ha]. apply str_eqb_eq in Hs.
    apply split_target in Ha as (Ha & _ & Hg). auto.
  - rewrite H1, H4. split_and!; [| |set_solver|by rewrite H3].
    + intros a Ha. apply news_spec in Ha as (? & ? & ?). auto.
    + intros w Hw. assert (Hid : wAllocationID w ∈ map ID (olds_of snapshot now))
        by (rewrite <- H2; apply list_elem_of_fmap; eauto).
      apply list_elem_of_fmap in Hid as (a & E & Ha). apply olds_spec in Ha as (? & ? & ?). eauto 6.
Qed.

Lemma decide_tail_continue rollout allocs plan :
  Continue plan = false -> Continue (decide_tail rollout allocs plan) = true ->
  let '(target, predecessors, _) := splitRolloutAllocations allocs rollout in
  pAllocations (decide_tail rollout allocs plan) = allocs
  /\ PlacementSlots (decide_tail rollout allocs plan) =
       (if Recreate rollout && (0 <? len predecessors) then 0
        else Z.max 0 (Z.min (rolloutTargetReplicaCount rollout - len target)
               (DesiredReplicaCount rollout + (if 0 <? len predecessors then rolloutMaxSurge rollout else 0)
                - len (filterAllocations allocs allocationOccupiesRolloutSlot)))).
Proof.
  intros H. unfold decide_tail. destruct (splitRolloutAllocations _ _) as [[target preds] un]. cbv zeta.
  destruct (_ && _); [|done]. cbn. congruence.
Qed.

(** A plan that continues carries the table its stored changes produce, and
    the slots it leaves for placement keep the rollout within one allocation
    above the desired count and within the target count; a recreate rollout
    places nothing while a predecessor may still hold the volume. *)
Theorem placement_respects_limits snapshot now :
  unique_ids (Allocations snapshot) ->
  let plan := decideRollout snapshot now in
  let '(target, predecessors, _) := splitRolloutAllocations (pAllocations plan) (Rollout snapshot) in
  Continue plan = true ->
  pAllocations plan = persist_plan plan (Allocations snapshot)
  /\ 0 <= PlacementSlots plan
  /\ (0 < PlacementSlots plan ->
        len (filterAllocations (pAllocations plan) allocationOccupiesRolloutSlot) + PlacementSlots plan
          <= DesiredReplicaCount (Rollout snapshot) + 1
        /\ len target + PlacementSlots plan <= rolloutTargetReplicaCount (Rollout snapshot))
  /\ (Recreate (Rollout snapshot) = true -> predecessors <> [] -> PlacementSlots plan = 0).
Proof.
  intros Hu. cbv zeta. destruct (decideRollout_shape snapshot now Hu) as [_ H].
  destruct H as [[(_ & _ & _ & HC) _]|(_ & _ & _ & H1 & H2 & _ & _ & _ & p & _ & HC & HP)].
  { rewrite HC. by destruct (splitRolloutAllocations _ _) as [[? ?] ?]. }
  pose proof (persist_promotion snapshot now Hu H1 H2) as Hpers.
  pose proof (decide_tail_continue (Rollout snapshot) (after_promotion snapshot now) p HC) as HT.
  rewrite <- HP in HT. destruct (Continue (decideRollout snapshot now)).
  2: by destruct (splitRolloutAllocations _ _) as [[? ?] ?].
  specialize (HT eq_refl).
  assert (HA : pAllocations (decideRollout snapshot now) = after_promotion snapshot now)
    by (destruct (splitRolloutAllocations _ _) as [[? ?] ?]; apply HT).
  rewrite HA, Hpers. destruct (splitRolloutAllocations _ _) as [[target preds] un]. destruct HT as [_ ->].
  intros _. unfold rolloutMaxSurge, defaultRolloutMaxSurge.
  split; [done|]. destruct (Recreate (Rollout snapshot)), (0 <? len preds) eqn:E; cbn [andb];
    split_and!; try lia; intros; try done;
    apply Z.ltb_ge in E; destruct preds; [done|rewrite len_cons in E; pose proof (len_nonneg preds); lia].
Qed.

(** A rollout is declared complete only when it is in progress and not
    being removed, no replacement failed, and the stored table has no predecessor left
    and at least the target number of ready serving replacements (tables with
    fewer than 2^31 rows). *)
Theorem completion_sound snapshot now :
  unique_ids (Allocations snapshot) -> len (Allocations snapshot) < 2 ^ 31 ->
  Complete (decideRollout snapshot now) = true ->
  let '(target, predecessors, _) := splitRolloutAllocations
    (persist_plan (decideRollout snapshot now) (Allocations snapshot)) (Rollout snapshot) in
  State (Rollout snapshot) = rolloutStateInProgress /\ Removing snapshot = false
  /\ pFailure (decideRollout snapshot now) = ""
  /\ predecessors = [] /\ rolloutTargetReplicaCount (Rollout snapshot) <= len (filterAllocations target serving_ready).
Proof.
  intros Hu Hlen HC. destruct (decideRollout_shape snapshot now Hu) as [_ H].
  destruct H as [[(_ & _ & HF & _) _]|(_ & Hst & Hr & H1 & H2 & Hf & _ & _ & p & Hp & _ & HP)]; [congruence|].
  rewrite (persist_promotion snapshot now Hu H1 H2). rewrite HP in HC. unfold decide_tail in HC.
  assert (Hl : forall keep, len (filterAllocations
     (splitRolloutAllocations (after_promotion snapshot now) (Rollout snapshot)).1.1 keep) < 2 ^ 31).
  { intros keep. eapply Z.le_lt_trans; [|exact Hlen]. cbn.
    do 3 (etrans; [apply filterAllocations_len|]). unfold after_promotion. rewrite len_map.
    apply filterAllocations_len. }
  destruct (splitRolloutAllocations _ _) as [[target preds] un]. cbn [fst snd] in Hl. cbv zeta in HC.
  destruct (_ && _) eqn:E; [|cbn in HC; congruence]. bool_to_prop. split_and!; try done.
  - destruct preds; [done|]. rewrite len_cons in H0. pose proof (len_nonneg preds). lia.
  - rewrite wrap32_small in H; [done|]. specialize (Hl serving_ready).
    pose proof (len_nonneg (filterAllocations target serving_ready)). unfold in_int32. lia.
Qed.

(** ** Withdrawing predecessors *)

Lemma count_filtered p keep l : countb p (filterAllocations l keep) = countb (fun a => keep a && p a) l.
Proof.
  unfold filterAllocations, countb, sumZ. induction l as [|a l IH]; [done|]. rewrite filter_cons.
  cbn [foldr]. destruct (decide (keep a = true)) as [E|E]; cbn [foldr]; rewrite IH.
  - rewrite E. done.
  - apply not_true_iff_false in E. by rewrite E.
Qed.

Lemma len_filtered keep l : len (filterAllocations l keep) = countb keep l.
Proof. symmetry. unfold filterAllocations. apply countb_filter. done. Qed.

(** The availability the decision counts never exceeds what is serving. *)
Lemma available_le allocs r :
  let '(target, predecessors, unaffected) := splitRolloutAllocations allocs r in
  len (filterAllocations target serving_ready)
  + countb AllocationReady (filterAllocations predecessors (in_state AllocationRolloutServing))
  + countb serving_ready unaffected <= countb serving_ready allocs.
Proof.
  cbn. rewrite len_filtered, !count_filtered. unfold countb, sumZ.
  induction allocs as [|a l IH]; [done|]. cbn [foldr].
  match goal with H : ?x + ?y + ?z <= ?w |- (?a + ?x) + (?b + ?y) + (?c + ?z) <= ?d + ?w =>
    enough (a + b + c <= d) by lia end. clear IH.
  unfold serving_ready. destruct (in_state AllocationRolloutServing a), (AllocationReady a),
    (in_state AllocationRolloutLost a), (str_eqb (TargetAllocationID r) "" || _);
    destruct (Z.eqb_spec (DesiredRolloutGeneration a) (Generation r)),
      (Z.ltb_spec (DesiredRolloutGeneration a) (Generation r)); cbn; lia.
Qed.

Lemma withdraw_reduces ws l :
  unique_ids l -> countb serving_ready l - len ws <= countb serving_ready (persist_withdrawals ws l).
Proof.
  intros Hu. unfold persist_withdrawals. rewrite foldl_set_state.
  pose proof (count_ids_le (map wAllocationID ws) l Hu) as Hw. rewrite len_map in Hw.
  enough (countb serving_ready l <= countb serving_ready (map (fun a =>
     if has_id (map wAllocationID ws) a then a <| RolloutState := AllocationRolloutWithdrawing |> else a) l)
     + countb (has_id (map wAllocationID ws)) l) by lia.
  clear. unfold countb, sumZ. induction l as [|a l IH]; [done|]. cbn [foldr map].
  destruct (has_id (map wAllocationID ws) a); destruct (serving_ready a),
    (serving_ready (a <| RolloutState := AllocationRolloutWithdrawing |>)); lia.
Qed.

Lemma withdraw_count_bounds rollout allocs created :
  let '(target, predecessors, _) := splitRolloutAllocations allocs rollout in
  let limit := DesiredReplicaCount rollout + (if 0 <? len predecessors then rolloutMaxSurge rollout else 0) in
  let over := len (filterAllocations allocs allocationOccupiesRolloutSlot) + created - limit in
  let minimum := Z.max 0 (DesiredReplicaCount rollout - rolloutMaxUnavailable rollout) in
  0 <= (withdraw_count rollout allocs created).1
  /\ (withdraw_count rollout allocs created).1
     <= Z.max (Z.max 0 over) (Z.max 0 (countb serving_ready allocs - minimum)).
Proof.
  unfold withdraw_count. pose proof (available_le allocs rollout) as Ha.
  destruct (splitRolloutAllocations allocs rollout) as [[target preds] un]. cbv zeta.
  match type of Ha with ?x <= _ => set (available := x) in * end.
  pose proof (len_nonneg (filterAllocations preds (in_state AllocationRolloutServing))).
  cbn [fst]. clearbody available.
  repeat (step_case; bool_to_prop); lia.
Qed.

(** Withdrawing predecessors after placement keeps the service available:
    unless the rollout already exceeds its slots, the ready serving allocations
    left are at least the smaller of those before and the required minimum,
    which is the full desired count for a rolling update. *)
Theorem withdrawal_keeps_available snapshot created ingressPending now :
  unique_ids (Allocations snapshot) ->
  let rollout := Rollout snapshot in
  let allocs := Allocations snapshot in
  let plan := decideRolloutPlacement snapshot created ingressPending now in
  let '(_, predecessors, _) := splitRolloutAllocations allocs rollout in
  len (filterAllocations allocs allocationOccupiesRolloutSlot) + created
    <= DesiredReplicaCount rollout + (if 0 <? len predecessors then rolloutMaxSurge rollout else 0) ->
  Z.min (countb serving_ready allocs) (DesiredReplicaCount rollout - rolloutMaxUnavailable rollout)
    <= countb serving_ready (persist_withdrawals (Withdraw plan) allocs).
Proof.
  intros Hu. cbv zeta. pose proof (withdraw_count_bounds (Rollout snapshot) (Allocations snapshot) created) as Hb.
  destruct (splitRolloutAllocations (Allocations snapshot) (Rollout snapshot)) as [[target preds] un] eqn:Hsp.
  cbv zeta in Hb. intros Hover.
  pose proof (withdraw_reduces (Withdraw (decideRolloutPlacement snapshot created ingressPending now))
    (Allocations snapshot) Hu) as Hr.
  enough (len (Withdraw (decideRolloutPlacement snapshot created ingressPending now))
    <= (withdraw_count (Rollout snapshot) (Allocations snapshot) created).1) by lia.
  unfold decideRolloutPlacement. cbv zeta. rewrite Hsp.
  destruct ingressPending; [destruct (_ && _); [|destruct (_ && _)]; cbn [Withdraw]; apply Hb|].
  destruct (withdraw_count _ _ _) as [w surplus] eqn:Hw. cbn [fst] in *.
  match goal with |- context [map ?f (take ?n ?l)] => set (ws := map f (take n l)) end.
  assert (Hl : len ws <= w) by (unfold ws, len; rewrite length_map, length_take; lia).
  destruct (_ && _); [destruct (negb _)|destruct (_ && _)]; apply Hl.
Qed.

Lemma alloc_leb_total a b : alloc_leb a b = false -> alloc_leb b a = true.
Proof.
  unfold alloc_leb. rewrite (Z.eqb_sym (CreatedAt b)). destruct (Z.eqb_spec (CreatedAt a) (CreatedAt b)).
  - apply string_leb_total.
  - intros H. bool_to_prop. apply Z.ltb_lt. lia.
Qed.

Lemma alloc_leb_trans a b c : alloc_leb a b = true -> alloc_leb b c = true -> alloc_leb a c = true.
Proof.
  unfold alloc_leb. destruct (Z.eqb_spec (CreatedAt a) (CreatedAt b)), (Z.eqb_spec (CreatedAt b) (CreatedAt c)),
    (Z.eqb_spec (CreatedAt a) (CreatedAt c)); intros H1 H2; bool_to_prop; try lia;
    try (apply Z.ltb_lt; lia). by eapply string_leb_trans.
Qed.

Lemma keep_leb_total a b : keep_leb a b = false -> keep_leb b a = true.
Proof.
  unfold keep_leb. destruct (AllocationReady a), (AllocationReady b), (Healthy a), (Healthy b); cbn; try done;
    apply alloc_leb_total.
Qed.

Lemma keep_leb_trans a b c : keep_leb a b = true -> keep_leb b c = true -> keep_leb a c = true.
Proof.
  unfold keep_leb. destruct (AllocationReady a), (AllocationReady b), (AllocationReady c),
    (Healthy a), (Healthy b), (Healthy c); cbn; try done; apply alloc_leb_trans.
Qed.

(** Scaling down keeps the right allocations: the result partitions the
    existing ones, keeps as many as asked for (or all), and whatever is kept
    ranks before whatever is removed, ready first, then healthy, then oldest. *)
Theorem scale_down_keeps_readiest existing keep :
  let '(removed, remaining) := selectAllocationsToRemove existing keep in
  remaining ++ removed ≡ₚ existing
  /\ len remaining = Z.min (len existing) (Z.max 0 keep)
  /\ forall a b, a ∈ remaining -> b ∈ removed -> keep_leb a b = true.
Proof.
  unfold selectAllocationsToRemove. set (k := if keep <? 0 then 0 else keep).
  assert (Hk : k = Z.max 0 keep) by (unfold k; destruct (Z.ltb_spec keep 0); lia). clearbody k.
  assert (Hl : len (isort keep_leb existing) = len existing) by (unfold len; by rewrite isort_length).
  destruct (len (isort keep_leb existing) <=? k) eqn:E; bool_to_prop.
  - split_and!; [rewrite app_nil_r; apply isort_perm|lia|set_solver].
  - split_and!.
    + rewrite take_drop. apply isort_perm.
    + unfold len in *. rewrite length_take. lia.
    + intros a b Ha Hb. pose proof (isort_strongly_sorted keep_leb keep_leb_total keep_leb_trans existing) as Hs.
      rewrite <- (take_drop (Z.to_nat k) (isort keep_leb existing)) in Hs.
      apply (StronglySorted_app_in _ _ _ a b Hs Ha Hb).
Qed.

(** ** A concrete rollout

    Two replicas of generation 1 serve, one replacement of generation 2 is
    ready: it is promoted and the older predecessor is withdrawn. *)

Definition demo_alloc (id : string) (generation created : Z) (st : string) : AllocationRecord :=
  mkAllocationRecord id "svc" "proj" "env" ("agent-" +:+ id) 1 1 generation generation "Running" ""
    "10.0.0.2" "fd00::2" true [] [] created created None 0 st None None.

Definition demo_rollout : rolloutRecord :=
  mkRolloutRecord "svc" 2 1 rolloutStateInProgress (Some (mkRollingStrategy (Some 300) (Some 0))) 2
    "artifact" "image" "" "" false 0 0.

Definition demo_snapshot : rolloutSnapshot :=
  mkRolloutSnapshot demo_rollout
    [demo_alloc "a" 1 10 AllocationRolloutServing; demo_alloc "b" 1 20 AllocationRolloutServing;
     demo_alloc "c" 2 30 AllocationRolloutStarting] false.

Lemma demo_unique : unique_ids (Allocations demo_snapshot).
Proof. apply (bool_decide_unpack _). vm_compute. exact I. Qed.

Example demo_decision :
  let plan := decideRollout demo_snapshot 40 in
  map ID (Promote plan) = ["c"] /\ map wAllocationID (Withdraw plan) = ["a"]
  /\ Continue plan = true /\ PlacementSlots plan = 0.
Proof. vm_compute. repeat split. Qed.

Lemma decision_keeps_capacity_witness :
  countb serving_ready (Allocations demo_snapshot) = 2
  /\ 2 <= countb serving_ready (persist_plan (decideRollout demo_snapshot 40) (Allocations demo_snapshot)).
Proof.
  split; [vm_compute; reflexivity|].
  change 2 with (countb serving_ready (Allocations demo_snapshot)).
  apply (decision_keeps_capacity demo_snapshot 40), demo_unique.
Defined.

Lemma decision_targets_witness :
  Forall (fun a => DesiredRolloutGeneration a = 2) (Promote (decideRollout demo_snapshot 40)).
Proof.
  destruct (decision_targets demo_snapshot 40 demo_unique) as (_ & H & _).
  apply Forall_forall. intros a Ha. apply (H a Ha).
Defined.

Definition demo_empty : rolloutSnapshot :=
  mkRolloutSnapshot demo_rollout [demo_alloc "a" 1 10 AllocationRolloutServing] false.
Lemma demo_empty_unique : unique_ids (Allocations demo_empty).
Proof. apply (bool_decide_unpack _). vm_compute. exact I. Qed.

Lemma placement_respects_limits_witness :
  PlacementSlots (decideRollout demo_empty 40) = 2
  /\ len (filterAllocations (pAllocations (decideRollout demo_empty 40)) allocationOccupiesRolloutSlot)
     + PlacementSlots (decideRollout demo_empty 40) <= 3.
Proof.
  split; [vm_compute; reflexivity|].
  apply (placement_respects_limits demo_empty 40 demo_empty_unique); vm_compute; reflexivity.
Defined.

Definition demo_finished : rolloutSnapshot :=
  mkRolloutSnapshot demo_rollout
    [demo_alloc "c" 2 30 AllocationRolloutServing; demo_alloc "d" 2 31 AllocationRolloutServing] false.
Lemma demo_finished_unique : unique_ids (Allocations demo_finished).
Proof. apply (bool_decide_unpack _). vm_compute. exact I. Qed.

Lemma completion_sound_witness :
  (splitRolloutAllocations (persist_plan (decideRollout demo_finished 40) (Allocations demo_finished))
    demo_rollout).1.2 = [].
Proof.
  apply (completion_sound demo_finished 40 demo_finished_unique); vm_compute; reflexivity.
Defined.

Lemma withdrawal_keeps_available_witness :
  2 <= countb serving_ready (persist_withdrawals
         (Withdraw (decideRolloutPlacement demo_snapshot 0 false 40)) (Allocations demo_snapshot)).
Proof.
  apply (withdrawal_keeps_available demo_snapshot 0 false 40 demo_unique). vm_compute. discriminate.
Defined.
