(* ===== verification/Placement.v ===== *)
(** * Placement and address pools ([internal/controlplane/delivery])

    [placement.go] and the eligibility rules of [allocations.go]: which agent a
    replica goes to, how a batch of placements keeps the candidates' usage
    current, and how subnets and addresses are taken from their pools.  Prefixes
    are modelled after parsing; parsing and printing them ([net/netip]) are
    parameters.

    The file proves that a chosen agent is eligible and that a choice fails only
    when nobody is, that a batch never overcommits an agent, that subnets handed
    out for different ordinals are disjoint parts of the pool, that free
    addresses are found exactly when there are some, and that subnet bits read
    back as written. *)

From S2P Require Import Prelude.

(** ** Candidates *)

Definition HostStable : string := "stable".
Definition HostIntermittent : string := "intermittent".

Record placementCandidate := mkCandidate {
  HostType : string; cID : string; Region : string; Zone : string; FailureDomain : string;
  RuntimeCapabilities : list string; CPUMillisCapacity : Z; MemoryMebibytesCapcity : Z;
  ServiceCount : Z; UsedCPUMillis : Z; UsedMemoryMebibytes : Z;
}.
#[export] Instance placementCandidate_eta : Eta placementCandidate := fun c =>
  mkCandidate (HostType c) (cID c) (Region c) (Zone c) (FailureDomain c) (RuntimeCapabilities c)
    (CPUMillisCapacity c) (MemoryMebibytesCapcity c) (ServiceCount c) (UsedCPUMillis c)
    (UsedMemoryMebibytes c).

(** The parts of a [ServiceSpec] that placement reads. *)
Record ServiceRuntime := mkServiceRuntime {
  CpuMillis : Z; MemoryMebibytes : Z; Volume : option string;
}.
Record ServiceSpec := mkServiceSpec { Runtime : option ServiceRuntime; PlacementRegion : string }.

Definition serviceRuntime (spec : option ServiceSpec) : option ServiceRuntime :=
  match spec with Some s => Runtime s | None => None end.
Definition GetCpuMillis (r : option ServiceRuntime) : Z := default 0 (CpuMillis <$> r).
Definition GetMemoryMebibytes (r : option ServiceRuntime) : Z := default 0 (MemoryMebibytes <$> r).
Definition GetVolume (r : option ServiceRuntime) : option string := r ≫= Volume.
Definition GetPlacementRegion (spec : option ServiceSpec) : string := default "" (PlacementRegion <$> spec).

Definition ServiceVolumeName (spec : option ServiceSpec) : string :=
  TrimSpace (default "" (GetVolume (serviceRuntime spec))).

Definition validateVolumeReplicaCompatibility (spec : option ServiceSpec) (desired : Z) : result string unit :=
  guard_err (negb (str_eqb (TrimSpace (ServiceVolumeName spec)) "" || (desired <=? 1)))
    "volume-backed services support one replica".

Definition contains (l : list string) (s : string) : bool := bool_decide (s ∈ l).

Definition candidateFailureDomain (c : placementCandidate) : string :=
  if negb (str_eqb (FailureDomain c) "") then FailureDomain c
  else if negb (str_eqb (Zone c) "") then Region c +:+ "/" +:+ Zone c
  else cID c.

Definition GVisorMinMemoryMebibytes : Z := 256.
Definition gvisorMemoryFloorBlocked (c : placementCandidate) (spec : option ServiceSpec) : bool :=
  if negb (contains (RuntimeCapabilities c) "isolation:gvisor") then false
  else
    let memory := GetMemoryMebibytes (serviceRuntime spec) in
    (0 <? memory) && (memory <? GVisorMinMemoryMebibytes).

(** Sums are int64 additions. *)
Definition candidateHasCapacity (c : placementCandidate) (spec : option ServiceSpec) : bool :=
  match spec with
  | None => true
  | Some _ =>
      let runtime := serviceRuntime spec in
      if (0 <? CPUMillisCapacity c)
         && (CPUMillisCapacity c <? wrap64 (UsedCPUMillis c + GetCpuMillis runtime)) then false
      else if (0 <? MemoryMebibytesCapcity c)
         && (MemoryMebibytesCapcity c <? wrap64 (UsedMemoryMebibytes c + GetMemoryMebibytes runtime)) then false
      else true
  end.

Definition required_capabilities : list string := ["containerd"; "wireguard"; "ebpf-policy"].

Definition candidateEligible (c : placementCandidate) (spec : option ServiceSpec) : bool :=
  if gvisorMemoryFloorBlocked c spec then false
  else if str_eqb (HostType c) HostIntermittent && bool_decide (is_Some (GetVolume (serviceRuntime spec))) then false
  else if bool_decide (is_Some spec) && negb (str_eqb (TrimSpace (GetPlacementRegion spec)) "")
          && negb (str_eqb (Region c) (TrimSpace (GetPlacementRegion spec))) then false
  else if negb (forallb (contains (RuntimeCapabilities c)) required_capabilities) then false
  else candidateHasCapacity c spec.

Definition occupiedDomains (candidates : list placementCandidate) (occupied : gset string) : list string :=
  map candidateFailureDomain (filter (fun c => cID c ∈ occupied) candidates).

(** The tests of the loop of [firstEligibleReplicaAgent]. *)
Definition acceptable (candidates : list placementCandidate) (spec : option ServiceSpec)
    (reserved : list string) (occupied : gset string) (avoidOccupied avoidFailureDomain : bool)
    (c : placementCandidate) : bool :=
  if contains reserved (cID c) then false
  else if avoidOccupied && bool_decide (cID c ∈ occupied) then false
  else if avoidFailureDomain && contains (occupiedDomains candidates occupied) (candidateFailureDomain c) then false
  else candidateEligible c spec.

Definition firstEligibleReplicaAgent (candidates : list placementCandidate) (spec : option ServiceSpec)
    (reserved : list string) (occupied : gset string) (avoidOccupied avoidFailureDomain : bool) : string :=
  default "" (cID <$> List.find (acceptable candidates spec reserved occupied avoidOccupied avoidFailureDomain) candidates).

Inductive PlacementError : Type :=
| ErrNoPlacementAvailable (reason : string)
| ErrBillingRestricted (reason : string)
| ErrVolumeNotFound (name : string)
| ErrPlacement (msg : string).

(** [%q] of a name that needs no escaping. *)
Definition quoted (s : string) : string := bytes [34%nat] +:+ s +:+ bytes [34%nat].

(** Why nothing was found. *)
Definition placementFailureReason (candidates : list placementCandidate) (spec : option ServiceSpec)
    (reserved : list string) : string :=
  let region := TrimSpace (GetPlacementRegion spec) in
  let runtime := serviceRuntime spec in
  let considered := filter (fun c => negb (contains reserved (cID c)) = true) candidates in
  let matching := filter (fun c => str_eqb region "" || str_eqb (Region c) region = true) considered in
  let capable := filter (fun c => forallb (contains (RuntimeCapabilities c)) required_capabilities = true) matching in
  let floorBlocked := countb (fun c => gvisorMemoryFloorBlocked c spec) capable in
  let cpuOK := countb (fun c => (CPUMillisCapacity c <=? 0)
    || (wrap64 (UsedCPUMillis c + GetCpuMillis runtime) <=? CPUMillisCapacity c)) capable in
  let memoryOK := countb (fun c => (MemoryMebibytesCapcity c <=? 0)
    || (wrap64 (UsedMemoryMebibytes c + GetMemoryMebibytes runtime) <=? MemoryMebibytesCapcity c)) capable in
  if len candidates =? 0 then
    "no active healthy node is schedulable (enrolling, cordoned, draining, unavailable, and retired nodes are excluded)"
  else if negb (str_eqb region "") && (len matching =? 0) then
    "no active healthy node is available in required region " +:+ quoted region
  else if len capable =? 0 then
    "active nodes do not report the required containerd, WireGuard, and eBPF policy capabilities"
  else if floorBlocked =? len capable then
    "service memory_mebibytes " +:+ pretty (GetMemoryMebibytes runtime) +:+ " is below the "
    +:+ pretty GVisorMinMemoryMebibytes
    +:+ " MiB minimum for gVisor-isolated nodes: the gVisor Sentry shares the container memory limit and starves below it; increase memory_mebibytes to at least "
    +:+ pretty GVisorMinMemoryMebibytes
  else if cpuOK =? 0 then "insufficient schedulable CPU after operator reservations"
  else if memoryOK =? 0 then "insufficient schedulable memory after operator reservations"
  else "insufficient alternate capacity after operator reservations".

(** First somewhere new in a new failure domain, then somewhere new, then anywhere. *)
Definition chooseAgentForReplica (reservedAgentIDs : list string) (candidates : list placementCandidate)
    (spec : option ServiceSpec) (occupied : gset string) : result PlacementError string :=
  let first := firstEligibleReplicaAgent candidates spec reservedAgentIDs occupied in
  if negb (str_eqb (first true true) "") then Ok (first true true)
  else if negb (str_eqb (first true false) "") then Ok (first true false)
  else if negb (str_eqb (first false false) "") then Ok (first false false)
  else Err (ErrNoPlacementAvailable (placementFailureReason candidates spec reservedAgentIDs)).

(** ** Batches *)

(** Stable hosts first, then the least loaded, then by identity. *)
Definition candidate_leb (a b : placementCandidate) : bool :=
  if negb (str_eqb (HostType a) (HostType b)) && str_eqb (HostType a) HostStable then true
  else if negb (str_eqb (HostType a) (HostType b)) && str_eqb (HostType b) HostStable then false
  else if ServiceCount a <? ServiceCount b then true
  else if ServiceCount b <? ServiceCount a then false
  else String.leb (cID a) (cID b).

Fixpoint reserve_first (candidates : list placementCandidate) (agentID : string) (spec : option ServiceSpec)
    : list placementCandidate :=
  match candidates with
  | [] => []
  | c :: rest =>
      if str_eqb (cID c) agentID then
        (c <| ServiceCount := wrap64 (ServiceCount c + 1) |>
           <| UsedCPUMillis := wrap64 (UsedCPUMillis c + GetCpuMillis (serviceRuntime spec)) |>
           <| UsedMemoryMebibytes := wrap64 (UsedMemoryMebibytes c + GetMemoryMebibytes (serviceRuntime spec)) |>) :: rest
      else c :: reserve_first rest agentID spec
  end.

Definition reservePlacement (candidates : list placementCandidate) (agentID : string) (spec : option ServiceSpec)
    : list placementCandidate := isort candidate_leb (reserve_first candidates agentID spec).

(** ** Volumes *)

(** A row of [volumes]; [vAgent] is the node that holds the data. *)
Record VolumeRow := mkVolumeRow {
  vID : string; vEnvironment : string; vName : string; vAgent : option string; vStaged : bool; vDeleted : bool;
}.
#[export] Instance VolumeRow_eta : Eta VolumeRow := fun v =>
  mkVolumeRow (vID v) (vEnvironment v) (vName v) (vAgent v) (vStaged v) (vDeleted v).

Definition AgentStateActive : string := "active".
Definition AgentStateRetired : string := "retired".

(** [nodes] is the agents table: name and lifecycle state by identity. *)
Definition volumeNodeUnavailableReason (nodes : string -> option (string * string)) (volumeName agentID : string)
    : string :=
  let head := "volume " +:+ quoted volumeName +:+ " is on node " in
  match nodes agentID with
  | None => head +:+ agentID +:+ ", which is unavailable"
  | Some (name, state) =>
      if str_eqb state AgentStateRetired then
        head +:+ name +:+ ", which is retired; its data is not available on any other node"
      else if str_eqb state AgentStateActive then head +:+ name +:+ ", which is not reachable"
      else head +:+ name +:+ ", which is " +:+ state
  end.

(** [UPDATE volumes SET agent_id = $1, staged = false WHERE id = $2 AND agent_id IS NULL] *)
Definition pin (agentID volumeID : string) (v : VolumeRow) : VolumeRow :=
  if str_eqb (vID v) volumeID && bool_decide (vAgent v = None)
  then v <| vAgent := Some agentID |> <| vStaged := false |> else v.

Section Volumes.
Variable reservedAgentIDs : list string.
Variable nodes : string -> option (string * string).
(** [usage.RecordVolume] on the usage tables. *)
Variable recordVolume : string -> string -> result PlacementError unit.

Definition chooseVolumeAgentTx (candidates : list placementCandidate) (spec : option ServiceSpec)
    (environmentID volumeName : string) (volumes : list VolumeRow) : result PlacementError (string * list VolumeRow) :=
  match List.find (fun v => str_eqb (vEnvironment v) environmentID && str_eqb (vName v) volumeName
                            && negb (vDeleted v)) volumes with
  | None => Err (ErrVolumeNotFound volumeName)
  | Some v =>
      let pinned := default "" (vAgent v) in
      if negb (str_eqb pinned "") then
        match List.find (fun c => str_eqb (cID c) pinned) candidates with
        | Some c =>
            if negb (candidateEligible c spec) then
              Err (ErrNoPlacementAvailable ("volume " +:+ quoted volumeName +:+ " is on node " +:+ cID c
                     +:+ ", which lacks capacity or does not match the placement region"))
            else Ok (cID c, volumes)
        | None => Err (ErrNoPlacementAvailable (volumeNodeUnavailableReason nodes volumeName pinned))
        end
      else
        agentID ← chooseAgentForReplica reservedAgentIDs candidates spec ∅;
        _ ← recordVolume (vID v) agentID;
        Ok (agentID, map (pin agentID (vID v)) volumes)
  end.

Definition chooseReplicaAgentTx (candidates : list placementCandidate) (spec : option ServiceSpec)
    (environmentID : string) (occupied : gset string) (preferredAgentID : string) (usePreferred : bool)
    (volumes : list VolumeRow) : result PlacementError (string * list VolumeRow) :=
  if negb (str_eqb (ServiceVolumeName spec) "") then
    chooseVolumeAgentTx candidates spec environmentID (ServiceVolumeName spec) volumes
  else if usePreferred && negb (str_eqb preferredAgentID "") && bool_decide (preferredAgentID ∉ occupied)
     && existsb (fun c => str_eqb (cID c) preferredAgentID && candidateEligible c spec) candidates
  then Ok (preferredAgentID, volumes)
  else
    agentID ← chooseAgentForReplica reservedAgentIDs candidates spec occupied;
    Ok (agentID, volumes).
End Volumes.

(** The placement loop of [reconcileServiceReplicasTx]; [insert] stands for
    [insertAllocationTx]. *)
Inductive place_end : Type :=
| PlacedAll
| NoPlacement (reason : string)
| BillingStop (reason : string).

Section Batch.
Context {Alloc : Type} (insert : string -> result PlacementError Alloc).
Variable reservedAgentIDs : list string.
Variable nodes : string -> option (string * string).
Variable recordVolume : string -> string -> result PlacementError unit.
Variable spec : option ServiceSpec.
Variable environmentID : string.

Fixpoint place_loop (needed : nat) (first : bool) (preferredAgentID : string)
    (candidates : list placementCandidate) (occupied : gset string) (volumes : list VolumeRow) (existing : list Alloc)
    : result PlacementError (list placementCandidate * list VolumeRow * list Alloc * place_end) :=
  match needed with
  | O => Ok (candidates, volumes, existing, PlacedAll)
  | S needed =>
      match chooseReplicaAgentTx reservedAgentIDs nodes recordVolume candidates spec environmentID occupied
              preferredAgentID (first && negb (str_eqb preferredAgentID "")) volumes with
      | Err (ErrNoPlacementAvailable reason) => Ok (candidates, volumes, existing, NoPlacement reason)
      | Err e => Err e
      | Ok (agentID, volumes) =>
          match insert agentID with
          | Err (ErrBillingRestricted reason) => Ok (candidates, volumes, existing, BillingStop reason)
          | Err e => Err e
          | Ok alloc =>
              place_loop needed false "" (reservePlacement candidates agentID spec)
                ({[agentID]} ∪ occupied) volumes (existing ++ [alloc])
          end
      end
  end.
End Batch.

(** ** IPv4 pools *)

Record Prefix4 := mkPrefix4 { p4Addr : Z; p4Bits : Z }.

(** An address with its host bits cleared. *)
Definition masked4 (p : Prefix4) : Prefix4 :=
  mkPrefix4 (Z.shiftl (Z.shiftr (p4Addr p) (32 - p4Bits p)) (32 - p4Bits p)) (p4Bits p).

(** The prefix behind [IPv4SubnetAt]'s string, of a parsed pool. *)
Definition subnet4_at (pool : option Prefix4) (prefixBits ordinal : Z) : result string Prefix4 :=
  match pool with
  | None => Err "parse IPv4 workload pool"
  | Some pool =>
      _ ← guard_err (negb (p4Addr pool =? p4Addr (masked4 pool))) "IPv4 workload pool must be canonical";
      let pool := masked4 pool in
      _ ← guard_err ((prefixBits <=? p4Bits pool) || (30 <? prefixBits) || (31 <? prefixBits - p4Bits pool))
            "invalid IPv4 child prefix";
      let count := Z.shiftl 1 (prefixBits - p4Bits pool) in
      _ ← guard_err (count <=? ordinal) "IPv4 workload pool exhausted";
      let base := uwrap32 (p4Addr pool + uwrap32 (Z.shiftl (uwrap32 ordinal) (32 - prefixBits))) in
      Ok (mkPrefix4 base prefixBits)
  end.

Section Netip4.
Variable ParsePrefix4 : string -> option Prefix4.     (* [netip.ParsePrefix] followed by [Is4] *)
Variable Prefix4_String : Prefix4 -> string.
Variable Addr4_String : Z -> string.

Definition IPv4SubnetAt (poolCIDR : string) (prefixBits ordinal : Z) : result string string :=
  Prefix4_String <$> subnet4_at (ParsePrefix4 poolCIDR) prefixBits ordinal.

(** The address loop, [n] offsets from [offset] on. *)
Fixpoint scan4 (n : nat) (base offset : Z) (used : gset string) : option string :=
  match n with
  | O => None
  | S n =>
      let addr := Addr4_String (uwrap32 (base + uwrap32 offset)) in
      if bool_decide (addr ∈ used) then scan4 n base (offset + 1) used else Some addr
  end.

Definition nextIPv4AddressFromSubnet (subnetCIDR : string) (used : gset string) : result string string :=
  match ParsePrefix4 subnetCIDR with
  | None => Err "parse IPv4 workload subnet"
  | Some subnet =>
      let subnet := masked4 subnet in
      _ ← guard_err (30 <? p4Bits subnet) "IPv4 workload subnet is too small";
      let size := Z.shiftl 1 (32 - p4Bits subnet) in
      match scan4 (Z.to_nat (size - 3)) (p4Addr subnet) 2 used with
      | Some addr => Ok addr
      | None => Err "IPv4 workload subnet exhausted"
      end
  end.
End Netip4.

(** ** IPv6 pools *)

(** A prefix with its sixteen address bytes, most significant first. *)
Record Prefix6 := mkPrefix6 { p6Addr : list Z; p6Bits : Z }.

Definition byte_at (dst : list Z) (i : Z) : Z := default 0 (dst !! Z.to_nat i).

(** One round of [writeSubnetBits]: set or clear one bit of its byte. *)
Definition write_bit (dst : list Z) (bit : Z) (v : bool) : list Z :=
  let byteIndex := bit / 8 in
  let bitIndex := 7 - bit mod 8 in
  let mask := Z.shiftl 1 bitIndex in
  let b := byte_at dst byteIndex in
  <[Z.to_nat byteIndex := if v then Z.lor b mask else Z.ldiff b mask]> dst.

Fixpoint write_bits (n : nat) (dst : list Z) (bit endBits value : Z) : list Z :=
  match n with
  | O => dst
  | S n => write_bits n (write_bit dst bit (Z.testbit value (endBits - bit - 1))) (bit + 1) endBits value
  end.

Definition writeSubnetBits (dst : list Z) (startBits endBits value : Z) : list Z :=
  write_bits (Z.to_nat (endBits - startBits)) dst startBits endBits value.

Definition binaryBigPutUint16 (dst : list Z) (at_ : nat) (value : Z) : list Z :=
  if (length dst <? at_ + 2)%nat then dst
  else <[S at_ := Z.land value 255]> (<[at_ := Z.land (Z.shiftr value 8) 255]> dst).

(** Clearing the bits from [p6Bits] on. *)
Definition masked6 (p : Prefix6) : Prefix6 :=
  mkPrefix6 (writeSubnetBits (p6Addr p) (p6Bits p) 128 0) (p6Bits p).

(** *** Preferred positions *)

Definition is_digit (a : Ascii.ascii) : bool :=
  let n := Ascii.nat_of_ascii a in (48 <=? n)%nat && (n <=? 57)%nat.

(** The digits at the end of a name, in order. *)
Fixpoint trailing_digits (rev : list Ascii.ascii) (acc : list Ascii.ascii) : list Ascii.ascii :=
  match rev with
  | a :: rev => if is_digit a then trailing_digits rev (a :: acc) else acc
  | [] => acc
  end.

Definition digits_value (l : list Ascii.ascii) : Z :=
  foldl (fun n a => 10 * n + (Z.of_nat (Ascii.nat_of_ascii a) - 48)) 0 l.

(** [strconv.Atoi] refuses what does not fit an int. *)
Definition trailingNumber (value : string) : Z :=
  let n := digits_value (trailing_digits (reverse (String.list_ascii_of_string value)) []) in
  if n <=? 9223372036854775807 then n else 0.

(** [fnv.New32a] *)
Definition fnv32a (value : string) : Z :=
  foldl (fun h a => uwrap32 (Z.lxor h (Z.of_nat (Ascii.nat_of_ascii a)) * 16777619)) 2166136261
    (String.list_ascii_of_string value).

Definition preferredOrdinal (agentID : string) (max : Z) : Z :=
  if max <=? 0 then 1
  else
    let suffix := trailingNumber agentID in
    if 0 <? suffix then Z.rem (suffix - 1) max + 1
    else Z.modulo (fnv32a agentID) (uwrap32 max) + 1.

Section Netip6.
Variable ParsePrefix6 : string -> option Prefix6.     (* [netip.ParsePrefix] followed by [Is6] *)
Variable Prefix6_String : Prefix6 -> string.

(** The subnet of one ordinal of a pool. *)
Definition subnet6 (pool : Prefix6) (prefixBits i : Z) : Prefix6 :=
  masked6 (mkPrefix6 (writeSubnetBits (p6Addr (masked6 pool)) (p6Bits pool) prefixBits i) prefixBits).

Fixpoint scan6 (n : nat) (pool : Prefix6) (prefixBits last start offset : Z) (used : gset string)
    : option string :=
  match n with
  | O => None
  | S n =>
      let i := Z.rem (start + offset - 1) last + 1 in
      let prefix := Prefix6_String (subnet6 pool prefixBits i) in
      if bool_decide (prefix ∈ used) then scan6 n pool prefixBits last start (offset + 1) used
      else Some prefix
  end.

(** [last] is [max - 1], the highest ordinal; ordinal 0 is never handed out. *)
Definition nextSubnetFromPool (poolCIDR : string) (prefixBits : Z) (used : gset string) (agentID : string)
    : result string string :=
  match ParsePrefix6 poolCIDR with
  | None => Err "parse pool"
  | Some pool =>
      _ ← guard_err ((prefixBits <? p6Bits pool) || (128 <? prefixBits)) "invalid child prefix";
      let max := wrap64 (Z.shiftl 1 (prefixBits - p6Bits pool)) in
      let last := wrap64 (max - 1) in
      let start := preferredOrdinal agentID last in
      match scan6 (Z.to_nat last) pool prefixBits last start 0 used with
      | Some prefix => Ok prefix
      | None => Err "pool exhausted"
      end
  end.

(** [nextAddressFromPool] counts in uint16. *)
Definition uwrap16 (n : Z) : Z := n mod 65536.
Definition address_index (start offset hostOffset : Z) : Z :=
  uwrap16 (Z.rem (uwrap16 (uwrap16 (start + offset) - 1)) (uwrap16 (65535 - hostOffset - 1)) + 1).

Definition address6 (pool : Prefix6) (hostOffset i : Z) : Prefix6 :=
  mkPrefix6 (binaryBigPutUint16 (p6Addr (masked6 pool)) 14 (uwrap16 (hostOffset + i))) (p6Bits pool).

Fixpoint scan_address (n : nat) (pool : Prefix6) (start offset hostOffset : Z) (used : gset string)
    : option string :=
  match n with
  | O => None
  | S n =>
      let cidr := Prefix6_String (address6 pool hostOffset (address_index start offset hostOffset)) in
      if bool_decide (cidr ∈ used) then scan_address n pool start (offset + 1) hostOffset used
      else Some cidr
  end.

Definition nextAddressFromPool (poolCIDR : string) (used : gset string) (hostOffset : Z) (agentID : string)
    : result string string :=
  match ParsePrefix6 poolCIDR with
  | None => Err "parse pool"
  | Some pool =>
      _ ← guard_err (112 <? p6Bits pool) "pool too small for sequential node addresses";
      let start := uwrap16 (preferredOrdinal agentID (65535 - hostOffset - 1)) in
      match scan_address (Z.to_nat (uwrap16 (65535 - hostOffset - 1))) pool start 0 hostOffset used with
      | Some cidr => Ok cidr
      | None => Err "pool exhausted"
      end
  end.

(** [sha1.Sum] of a string, as bytes. *)
Variable sha1 : string -> list Z.

Definition privateIPv6 (subnetCIDR environmentID allocationID : string) : result string (list Z) :=
  match ParsePrefix6 subnetCIDR with
  | None => Err "parse workload subnet"
  | Some prefix =>
      _ ← guard_err (negb (p6Bits prefix =? 64)) "workload subnet must be /64";
      let base := p6Addr (masked6 prefix) in
      let sum := sha1 (environmentID +:+ ":" +:+ allocationID) in
      let base := take 8 base ++ take 8 sum in
      Ok (<[15%nat := 16]> base)
  end.
End Netip6.

(** ** Choosing an agent *)

Definition free_candidate (candidates : list placementCandidate) (spec : option ServiceSpec)
    (reserved : list string) (c : placementCandidate) : Prop :=
  c ∈ candidates /\ cID c ∉ reserved /\ candidateEligible c spec = true.

Lemma acceptable_spec candidates spec reserved occupied ao af c :
  acceptable candidates spec reserved occupied ao af c = true <->
  cID c ∉ reserved /\ candidateEligible c spec = true
  /\ (ao = true -> cID c ∉ occupied)
  /\ (af = true -> candidateFailureDomain c ∉ occupiedDomains candidates occupied).
Proof.
  unfold acceptable, contains.
  destruct (decide (cID c ∈ reserved)); [rewrite bool_decide_true by done; naive_solver|].
  rewrite bool_decide_false by done. destruct ao; cbn [andb].
  - destruct (decide (cID c ∈ occupied)); [rewrite bool_decide_true by done; naive_solver|].
    rewrite bool_decide_false by done. destruct af; cbn [andb]; [|naive_solver].
    destruct (bool_decide (candidateFailureDomain c ∈ _)) eqn:E.
    + apply bool_decide_eq_true in E. naive_solver.
    + apply bool_decide_eq_false in E. naive_solver.
  - destruct af; cbn [andb]; [|naive_solver].
    destruct (bool_decide (candidateFailureDomain c ∈ _)) eqn:E.
    + apply bool_decide_eq_true in E. naive_solver.
    + apply bool_decide_eq_false in E. naive_solver.
Qed.

Lemma first_eligible candidates spec reserved occupied ao af :
  (forall c, c ∈ candidates -> cID c <> "") ->
  let id := firstEligibleReplicaAgent candidates spec reserved occupied ao af in
  (id = "" /\ forall c, c ∈ candidates -> acceptable candidates spec reserved occupied ao af c = false)
  \/ (id <> "" /\ exists c, c ∈ candidates /\ cID c = id
        /\ acceptable candidates spec reserved occupied ao af c = true).
Proof.
  intros Hid. cbv zeta. unfold firstEligibleReplicaAgent.
  destruct (List.find _ candidates) as [c|] eqn:E; cbn.
  - apply find_some in E as [Hc Ha]. apply list_elem_of_In in Hc. right. split; [by apply Hid|]. eauto.
  - left. split; [done|]. intros c Hc. apply list_elem_of_In in Hc. by eapply find_none in E.
Qed.

(** A replica is placed only on a candidate that is not reserved and is
    eligible (capabilities, region, volume host, gVisor floor, free CPU and
    memory), preferring agents the service does not occupy and, among those,
    failure domains it does not occupy; placement is refused only when no
    unreserved candidate is eligible. *)
Theorem choose_agent_spec reserved candidates spec occupied :
  (forall c, c ∈ candidates -> cID c <> "") ->
  match chooseAgentForReplica reserved candidates spec occupied with
  | Ok id => exists c, free_candidate candidates spec reserved c /\ cID c = id
      /\ ((exists c', free_candidate candidates spec reserved c' /\ cID c' ∉ occupied) -> id ∉ occupied)
      /\ ((exists c', free_candidate candidates spec reserved c' /\ cID c' ∉ occupied
             /\ candidateFailureDomain c' ∉ occupiedDomains candidates occupied) ->
           candidateFailureDomain c ∉ occupiedDomains candidates occupied)
  | Err _ => forall c, ~ free_candidate candidates spec reserved c
  end.
Proof.
  intros Hid. unfold chooseAgentForReplica, free_candidate. cbv zeta.
  destruct (first_eligible candidates spec reserved occupied true true Hid) as [[E H]|(E & c & Hc & Hcid & Ha)].
  2: { rewrite (proj2 (str_eqb_neq _ _) E). cbn. apply acceptable_spec in Ha as (? & ? & ? & ?).
       exists c. rewrite <- Hcid. naive_solver. }
  rewrite E, (proj2 (str_eqb_eq _ _) eq_refl). cbn [negb].
  assert (Hno : forall c, c ∈ candidates -> cID c ∉ reserved -> candidateEligible c spec = true ->
    cID c ∉ occupied -> candidateFailureDomain c ∉ occupiedDomains candidates occupied -> False).
  { intros c Hc H1 H2 H3 H4. specialize (H c Hc). apply not_true_iff_false in H. apply H, acceptable_spec. auto. }
  clear H E.
  destruct (first_eligible candidates spec reserved occupied true false Hid) as [[E H]|(E & c & Hc & Hcid & Ha)].
  2: { rewrite (proj2 (str_eqb_neq _ _) E). cbn. apply acceptable_spec in Ha as (? & ? & ? & ?).
       exists c. rewrite <- Hcid. naive_solver. }
  rewrite E, (proj2 (str_eqb_eq _ _) eq_refl). cbn [negb].
  assert (Hno' : forall c, c ∈ candidates -> cID c ∉ reserved -> candidateEligible c spec = true ->
    cID c ∉ occupied -> False).
  { intros c Hc H1 H2 H3. specialize (H c Hc). apply not_true_iff_false in H. apply H, acceptable_spec. naive_solver. }
  clear H E.
  destruct (first_eligible candidates spec reserved occupied false false Hid) as [[E H]|(E & c & Hc & Hcid & Ha)].
  2: { rewrite (proj2 (str_eqb_neq _ _) E). cbn. apply acceptable_spec in Ha as (? & ? & ? & ?).
       exists c. rewrite <- Hcid. naive_solver. }
  rewrite E, (proj2 (str_eqb_eq _ _) eq_refl). cbn [negb].
  intros c (Hc & H1 & H2). specialize (H c Hc). apply not_true_iff_false in H. apply H, acceptable_spec. naive_solver.
Qed.

(** ** Batches never overcommit *)

Section Overcommit.
Variable s : ServiceSpec.
Let cpu := GetCpuMillis (serviceRuntime (Some s)).
Let mem := GetMemoryMebibytes (serviceRuntime (Some s)).

(** Usage within a positive capacity, with room for one more in an int64. *)
Definition within (used cap per : Z) : Prop := 0 < cap -> 0 <= used <= cap /\ cap + per < 2 ^ 63.
Definition committed (c : placementCandidate) : Prop :=
  within (UsedCPUMillis c) (CPUMillisCapacity c) (GetCpuMillis (serviceRuntime (Some s)))
  /\ within (UsedMemoryMebibytes c) (MemoryMebibytesCapcity c) (GetMemoryMebibytes (serviceRuntime (Some s))).

Hypothesis cpu_nonneg : 0 <= cpu.
Hypothesis mem_nonneg : 0 <= mem.

Lemma within_reserve used cap per :
  0 <= per -> within used cap per -> ((0 <? cap) && (cap <? wrap64 (used + per))) = false ->
  within (wrap64 (used + per)) cap per.
Proof.
  intros Hp Hw H Hc. destruct (Hw Hc) as [Hu Hm]. rewrite (proj2 (Z.ltb_lt _ _) Hc) in H. cbn in H.
  rewrite wrap64_small in * by (unfold in_int64; lia). bool_to_prop. lia.
Qed.

Lemma eligible_capacity c : candidateEligible c (Some s) = true -> candidateHasCapacity c (Some s) = true.
Proof.
  unfold candidateEligible. destruct (gvisorMemoryFloorBlocked c (Some s)); [done|].
  destruct (_ && _); [done|]. destruct (_ && _ && _); [done|]. by destruct (negb _).
Qed.

Lemma reserve_committed candidates id :
  NoDup (map cID candidates) -> Forall committed candidates ->
  (exists c, c ∈ candidates /\ cID c = id /\ candidateEligible c (Some s) = true) ->
  Forall committed (reserve_first candidates id (Some s))
  /\ map cID (reserve_first candidates id (Some s)) = map cID candidates.
Proof.
  induction candidates as [|x l IH]; intros Hn Hf (c & Hc & Hid & He); [set_solver|].
  cbn in Hn. apply NoDup_cons in Hn as [Hx Hn]. apply Forall_cons in Hf as [Hf1 Hf]. cbn [reserve_first].
  destruct (str_eqb (cID x) id) eqn:E; bool_to_prop.
  - assert (c = x) as ->.
    { apply elem_of_cons in Hc as [->|Hc]; [done|]. destruct Hx. rewrite E, <- Hid.
      apply list_elem_of_fmap. eauto. }
    split; [|done]. constructor; [|done]. apply eligible_capacity in He. unfold candidateHasCapacity in He.
    destruct (_ && _) eqn:E1 in He; [done|]. destruct (_ && _) eqn:E2 in He; [done|].
    destruct Hf1 as [H1 H2]. split; cbn; by apply within_reserve.
  - destruct IH as [I1 I2]; [done|done| |].
    + exists c. split_and!; [|done|done]. apply elem_of_cons in Hc as [->|?]; [congruence|done].
    + split; [by constructor|]. cbn. by rewrite I2.
Qed.

Lemma choose_agent_eligible reserved candidates occupied id :
  chooseAgentForReplica reserved candidates (Some s) occupied = Ok id ->
  exists c, c ∈ candidates /\ cID c = id /\ candidateEligible c (Some s) = true.
Proof.
  unfold chooseAgentForReplica. cbv zeta.
  assert (Hf : forall ao af, firstEligibleReplicaAgent candidates (Some s) reserved occupied ao af <> "" ->
    exists c, c ∈ candidates /\ cID c = firstEligibleReplicaAgent candidates (Some s) reserved occupied ao af
      /\ candidateEligible c (Some s) = true).
  { intros ao af. unfold firstEligibleReplicaAgent. destruct (List.find _ candidates) as [c|] eqn:E; [|done].
    intros _. apply find_some in E as [Hc Ha]. apply list_elem_of_In in Hc.
    apply acceptable_spec in Ha as (_ & ? & _). eauto. }
  repeat step_case; intros [= <-]; apply Hf; by apply str_eqb_neq, negb_true_iff.
Qed.

(** A volume whose node is known keeps it. *)
Definition pins_kept (volumes volumes' : list VolumeRow) : Prop :=
  forall v, v ∈ volumes -> vAgent v <> None -> v ∈ volumes'.

Lemma pin_keeps agentID volumeID volumes : pins_kept volumes (map (pin agentID volumeID) volumes).
Proof.
  intros v Hv Ha. apply list_elem_of_fmap. exists v. split; [|done]. unfold pin.
  by rewrite bool_decide_false, andb_false_r.
Qed.

Lemma choose_replica_eligible reserved nodes record env candidates occupied preferred usePreferred volumes id volumes' :
  chooseReplicaAgentTx reserved nodes record candidates (Some s) env occupied preferred usePreferred volumes = Ok (id, volumes') ->
  (exists c, c ∈ candidates /\ cID c = id /\ candidateEligible c (Some s) = true) /\ pins_kept volumes volumes'.
Proof.
  assert (Hrefl : pins_kept volumes volumes) by (by intros v).
  unfold chooseReplicaAgentTx. destruct (negb (str_eqb (ServiceVolumeName (Some s)) "")).
  - unfold chooseVolumeAgentTx. destruct (List.find _ volumes) as [v|]; [|done].
    destruct (negb (str_eqb (default "" (vAgent v)) "")).
    + destruct (List.find _ candidates) as [c|] eqn:Ec; [|done]. destruct (negb (candidateEligible c (Some s))) eqn:Ee; [done|].
      intros [= <- <-]. apply find_some in Ec as [Hc _]. apply list_elem_of_In in Hc. apply negb_false_iff in Ee. eauto.
    + intros H. apply bind_ok in H as (id0 & Hc & H). apply bind_ok in H as ([] & _ & H). injection H as <- <-.
      split; [by eapply choose_agent_eligible|apply pin_keeps].
  - destruct (_ && existsb _ _) eqn:E.
    + intros [= <- <-]. apply andb_true_iff in E as [_ E]. apply existsb_exists in E as (c & Hc & Hp).
      apply list_elem_of_In in Hc. bool_to_prop. eauto.
    + intros H. apply bind_ok in H as (id0 & Hc & H). injection H as <- <-. split; [by eapply choose_agent_eligible|done].
Qed.

(** Reserving adds one replica's needs to the chosen candidate and to no other. *)
Lemma reserve_adds candidates id c :
  NoDup (map cID candidates) -> Forall committed candidates -> c ∈ candidates ->
  exists c1, c1 ∈ reserve_first candidates id (Some s) /\ cID c1 = cID c
    /\ CPUMillisCapacity c1 = CPUMillisCapacity c /\ MemoryMebibytesCapcity c1 = MemoryMebibytesCapcity c
    /\ (0 < CPUMillisCapacity c -> UsedCPUMillis c1 = UsedCPUMillis c + (if str_eqb (cID c) id then cpu else 0))
    /\ (0 < MemoryMebibytesCapcity c -> UsedMemoryMebibytes c1 = UsedMemoryMebibytes c + (if str_eqb (cID c) id then mem else 0)).
Proof.
  assert (Hwrap : forall used cap per, 0 <= per -> within used cap per -> 0 < cap -> wrap64 (used + per) = used + per).
  { intros used cap per Hp Hw Hc. destruct (Hw Hc) as [Hu Hm]. apply wrap64_small. unfold in_int64. lia. }
  induction candidates as [|x l IH]; intros Hn Hf Hc; [set_solver|].
  cbn in Hn. apply NoDup_cons in Hn as [Hx Hn]. apply Forall_cons in Hf as [[Hf1 Hf2] Hf]. cbn [reserve_first]. apply elem_of_cons in Hc.
  destruct (str_eqb (cID x) id) eqn:E; bool_to_prop.
  - destruct Hc as [->|Hc].
    + eexists. split; [apply list_elem_of_here|]. rewrite (proj2 (str_eqb_eq _ _) E). cbn.
      split_and!; try done; intros Hcap; [by apply (Hwrap _ (CPUMillisCapacity x))|by apply (Hwrap _ (MemoryMebibytesCapcity x))].
    + exists c. assert (cID c <> id) by (intros E'; apply Hx; rewrite E, <- E'; apply list_elem_of_fmap; eauto).
      rewrite (proj2 (str_eqb_neq _ _)) by done. split_and!; try done; [set_solver|lia|lia].
  - destruct Hc as [->|Hc].
    + exists x. rewrite (proj2 (str_eqb_neq _ _)) by done. split_and!; try done; [set_solver|lia|lia].
    + destruct (IH Hn Hf Hc) as (c1 & H1 & H2). exists c1. split; [set_solver|done].
Qed.

Lemma nothing_placed {Alloc} (agent_of : Alloc -> string) needed candidates volumes volumes' (existing : list Alloc) :
  Forall committed candidates -> pins_kept volumes volumes' ->
  exists placed, existing = existing ++ placed /\ (length placed <= needed)%nat
    /\ (forall a, a ∈ placed -> exists c, c ∈ candidates /\ cID c = agent_of a)
    /\ (forall c, c ∈ candidates ->
          (0 < CPUMillisCapacity c -> UsedCPUMillis c + cpu * countb (fun a => str_eqb (agent_of a) (cID c)) placed <= CPUMillisCapacity c)
          /\ (0 < MemoryMebibytesCapcity c -> UsedMemoryMebibytes c + mem * countb (fun a => str_eqb (agent_of a) (cID c)) placed <= MemoryMebibytesCapcity c))
    /\ pins_kept volumes volumes'.
Proof.
  intros Hf Hp. exists []. rewrite app_nil_r. split_and!; [done|cbn; lia|by intros a ?%elem_of_nil| |done]. rewrite Forall_forall in Hf. intros c Hc. destruct (Hf c Hc) as [W1 W2].
  change (countb _ []) with 0. split; intros Hcap; [destruct (W1 Hcap)|destruct (W2 Hcap)]; lia.
Qed.

(** C38: Placing any number of replicas in a batch never overcommits an agent.
    If every candidate starts within its capacity, and a capacity with one more
    replica fits an int64, then on every candidate with a CPU or memory capacity
    what was used before and the needs of all replicas the batch placed there are
    together within it, whatever the inserts answer and wherever the batch stops;
    every replica went to a candidate, and a volume that has a node keeps it. *)
Theorem batch_never_overcommits {Alloc} (agent_of : Alloc -> string) (insert : string -> result PlacementError Alloc) reserved nodes record env needed :
  (forall id a, insert id = Ok a -> agent_of a = id) ->
  forall first preferred candidates occupied volumes existing candidates' volumes' existing' fin,
  NoDup (map cID candidates) -> Forall committed candidates ->
  place_loop insert reserved nodes record (Some s) env needed first preferred candidates occupied volumes existing
    = Ok (candidates', volumes', existing', fin) ->
  exists placed, existing' = existing ++ placed /\ (length placed <= needed)%nat
    /\ (forall a, a ∈ placed -> exists c, c ∈ candidates /\ cID c = agent_of a)
    /\ (forall c, c ∈ candidates ->
          (0 < CPUMillisCapacity c -> UsedCPUMillis c + cpu * countb (fun a => str_eqb (agent_of a) (cID c)) placed <= CPUMillisCapacity c)
          /\ (0 < MemoryMebibytesCapcity c -> UsedMemoryMebibytes c + mem * countb (fun a => str_eqb (agent_of a) (cID c)) placed <= MemoryMebibytesCapcity c))
    /\ pins_kept volumes volumes'.
Proof.
  intros Hins. induction needed as [|needed IH];
    intros first preferred candidates occupied volumes existing candidates' volumes' existing' fin Hn Hf; cbn [place_loop].
  { intros [= <- <- <- <-]. apply nothing_placed; [done|by intros v]. }
  destruct (chooseReplicaAgentTx _ _ _ _ _ _ _ _ _ _) as [[id vols]|e] eqn:Hc.
  2: { destruct e; try done. intros [= <- <- <- <-]. apply nothing_placed; [done|by intros v]. }
  apply choose_replica_eligible in Hc as [Hc Hp].
  destruct (insert id) as [alloc|e] eqn:Hi.
  2: { destruct e; try done. intros [= <- <- <- <-]. by apply nothing_placed. }
  destruct (reserve_committed _ _ Hn Hf Hc) as [H1 H2]. apply Hins in Hi.
  intros H. apply IH in H.
  - destruct H as (placed & -> & H4 & H5 & H6 & H7). exists (alloc :: placed). rewrite <- app_assoc. split_and!; [done|cbn; lia| | |].
    + intros a [->|Ha]%elem_of_cons; [rewrite Hi; destruct Hc as (c & ? & ? & _); eauto|]. destruct (H5 a Ha) as (c1 & Hc1 & <-).
      unfold reservePlacement in Hc1. rewrite isort_elem in Hc1. assert (Hin : cID c1 ∈ map cID candidates) by (rewrite <- H2; apply list_elem_of_fmap; eauto).
      apply list_elem_of_fmap in Hin as (c & -> & Hin). eauto.
    + intros c Hin. destruct (reserve_adds candidates id c Hn Hf Hin) as (c1 & G1 & G2 & G3 & G4 & G5 & G6). destruct (H6 c1) as [K1 K2]; [unfold reservePlacement; by rewrite isort_elem|].
      rewrite G2, G3, G4 in *. rewrite countb_cons, Hi. rewrite (str_eqb_sym id (cID c)).
      split; intros Hcap; [specialize (K1 Hcap); rewrite (G5 Hcap) in K1|specialize (K2 Hcap); rewrite (G6 Hcap) in K2]; destruct (str_eqb (cID c) id); lia.
    + intros v Hv Ha. by apply H7; [apply Hp|].
  - unfold reservePlacement. by rewrite (Permutation_map cID (isort_perm _ _)), H2.
  - unfold reservePlacement. by rewrite isort_perm.
Qed.
End Overcommit.

(** ** IPv4 subnets *)

Definition subnet4_size (p : Prefix4) : Z := 2 ^ (32 - p4Bits p).

Lemma subnet4_at_ok pool bits ord p :
  0 <= p4Addr pool < 2 ^ 32 -> 0 <= p4Bits pool <= 32 -> 0 <= ord ->
  subnet4_at (Some pool) bits ord = Ok p ->
  p4Bits p = bits /\ p4Bits pool < bits <= 30 /\ ord < 2 ^ (bits - p4Bits pool)
  /\ p4Addr p = p4Addr pool + ord * 2 ^ (32 - bits)
  /\ p4Addr p + 2 ^ (32 - bits) <= p4Addr pool + 2 ^ (32 - p4Bits pool) <= 2 ^ 32.
Proof.
  intros Ha Hb Ho. unfold subnet4_at. intros ([] & H1 & H)%bind_ok. cbv zeta in H.
  apply bind_ok in H as ([] & H2 & H). apply bind_ok in H as ([] & H3 & [= <-]).
  apply guard_err_ok in H1, H2, H3. bool_to_prop.
  change (p4Bits (masked4 pool)) with (p4Bits pool) in *. cbn [p4Bits p4Addr] in H1 |- *.
  change (p4Addr pool = p4Addr (masked4 pool)) in H1.
  set (b := p4Bits pool) in *. rewrite Z.shiftl_1_l in *.
  match goal with |- context [uwrap32 (?a + uwrap32 (Z.shiftl _ _))] => replace a with (p4Addr pool) end.
  assert (Hpow : 2 ^ (32 - b) = 2 ^ (bits - b) * 2 ^ (32 - bits)) by (rewrite <- Z.pow_add_r by lia; f_equal; lia).
  assert (H32 : 2 ^ 32 = 2 ^ b * 2 ^ (32 - b)) by (rewrite <- Z.pow_add_r by lia; f_equal; lia).
  assert (Hp1 : 0 < 2 ^ (32 - bits)) by lia. assert (Hp2 : 0 < 2 ^ (32 - b)) by lia.
  assert (Hbase : p4Addr pool = (p4Addr pool / 2 ^ (32 - b)) * 2 ^ (32 - b)).
  { rewrite H1 at 1. cbn. rewrite Z.shiftr_div_pow2, Z.shiftl_mul_pow2 by lia. done. }
  assert (Hq : p4Addr pool / 2 ^ (32 - b) < 2 ^ b) by (apply Z.div_lt_upper_bound; lia).
  assert (Hend : p4Addr pool + 2 ^ (32 - b) <= 2 ^ 32) by (rewrite Hbase, H32; nia).
  assert (Hord : ord * 2 ^ (32 - bits) + 2 ^ (32 - bits) <= 2 ^ (32 - b)) by (rewrite Hpow; nia).
  assert (Ho32 : ord < 2 ^ 32) by (eapply Z.lt_le_trans; [exact H3|]; apply Z.pow_le_mono_r; lia).
  rewrite Z.shiftl_mul_pow2 by lia.
  rewrite (uwrap32_small ord), (uwrap32_small (ord * _)), uwrap32_small by lia.
  split_and!; lia.
Qed.

(** [IPv4SubnetAt] gives a valid subnet inside the pool for every ordinal it
    accepts, and the subnets of different ordinals do not overlap. *)
Theorem subnets_disjoint pool bits ord1 ord2 p1 p2 :
  0 <= p4Addr pool < 2 ^ 32 -> 0 <= p4Bits pool <= 32 -> 0 <= ord1 < ord2 ->
  subnet4_at (Some pool) bits ord1 = Ok p1 -> subnet4_at (Some pool) bits ord2 = Ok p2 ->
  p4Addr pool <= p4Addr p1
  /\ p4Addr p1 + subnet4_size p1 <= p4Addr p2
  /\ p4Addr p2 + subnet4_size p2 <= p4Addr pool + subnet4_size pool.
Proof.
  intros Ha Hb Ho H1 H2. unfold subnet4_size.
  destruct (subnet4_at_ok _ _ _ _ Ha Hb (proj1 Ho) H1) as (B1 & Hbits & _ & A1 & _).
  destruct (subnet4_at_ok pool bits ord2 p2 Ha Hb ltac:(lia) H2) as (B2 & _ & _ & A2 & E2 & _).
  rewrite B1, B2, A1, A2 in *. assert (0 < 2 ^ (32 - bits)) by lia. split_and!; nia.
Qed.

(** ** Free addresses *)

Section Addresses.
Variable ParsePrefix4 : string -> option Prefix4.
Variable Addr4_String : Z -> string.

Lemma scan4_spec n base used : forall offset,
  match scan4 Addr4_String n base offset used with
  | Some a => exists k, offset <= k < offset + Z.of_nat n /\ a = Addr4_String (uwrap32 (base + uwrap32 k))
      /\ a ∉ used
      /\ (forall j, offset <= j < k -> Addr4_String (uwrap32 (base + uwrap32 j)) ∈ used)
  | None => forall k, offset <= k < offset + Z.of_nat n -> Addr4_String (uwrap32 (base + uwrap32 k)) ∈ used
  end.
Proof.
  induction n as [|n IH]; intros offset; cbn [scan4]; [intros; lia|]. cbv zeta.
  destruct (bool_decide (_ ∈ used)) eqn:E.
  - apply bool_decide_eq_true in E. specialize (IH (offset + 1)).
    assert (Hsplit : forall k, offset <= k -> k = offset \/ offset + 1 <= k) by lia.
    destruct (scan4 _ _ _ _ _) as [a|].
    + destruct IH as (k & Hk & Ea & Hfree & Hlow). exists k. split_and!; [lia|lia|done|done|].
      intros j Hj. destruct (Hsplit j) as [->|]; [lia|done|]. apply Hlow. lia.
    + intros k Hk. destruct (Hsplit k) as [->|]; [lia|done|]. apply IH. lia.
  - apply bool_decide_eq_false in E. exists offset. split_and!; [lia|lia|done|done|]. intros; lia.
Qed.

(** An address given out of a subnet was not in use, is the lowest such
    address, and is neither the network, the gateway nor the broadcast address;
    a valid subnet is reported exhausted only when all of these are in use. *)
Theorem next_address_is_free cidr subnet used :
  ParsePrefix4 cidr = Some subnet -> 0 <= p4Addr subnet < 2 ^ 32 -> 0 <= p4Bits subnet <= 30 ->
  let base := p4Addr (masked4 subnet) in
  let size := subnet4_size subnet in
  match nextIPv4AddressFromSubnet ParsePrefix4 Addr4_String cidr used with
  | Ok a => exists k, 2 <= k <= size - 2 /\ a = Addr4_String (base + k) /\ a ∉ used
      /\ forall j, 2 <= j < k -> Addr4_String (base + j) ∈ used
  | Err _ => forall k, 2 <= k <= size - 2 -> Addr4_String (base + k) ∈ used
  end.
Proof.
  intros Hp Ha Hb. cbv zeta. unfold nextIPv4AddressFromSubnet. rewrite Hp. cbv zeta.
  change (p4Bits (masked4 subnet)) with (p4Bits subnet). unfold guard_err.
  rewrite (proj2 (Z.ltb_ge 30 _)) by lia. cbn [mbind result_bind]. rewrite Z.shiftl_1_l.
  fold (subnet4_size subnet).
  assert (Hsz : 4 <= subnet4_size subnet)
    by (unfold subnet4_size; change 4 with (2 ^ 2); apply Z.pow_le_mono_r; lia).
  assert (Hbase : 0 <= p4Addr (masked4 subnet) /\ p4Addr (masked4 subnet) + subnet4_size subnet <= 2 ^ 32).
  { unfold subnet4_size. cbn. rewrite Z.shiftr_div_pow2, Z.shiftl_mul_pow2 by lia.
    assert (H32 : 2 ^ 32 = 2 ^ p4Bits subnet * 2 ^ (32 - p4Bits subnet))
      by (rewrite <- Z.pow_add_r by lia; f_equal; lia).
    assert (0 < 2 ^ (32 - p4Bits subnet)) by lia.
    assert (p4Addr subnet / 2 ^ (32 - p4Bits subnet) < 2 ^ p4Bits subnet) by (apply Z.div_lt_upper_bound; lia).
    assert (0 <= p4Addr subnet / 2 ^ (32 - p4Bits subnet)) by (apply Z.div_pos; lia). nia. }
  assert (Hwrap : forall k, 0 <= k < subnet4_size subnet ->
    uwrap32 (p4Addr (masked4 subnet) + uwrap32 k) = p4Addr (masked4 subnet) + k)
    by (intros k Hk; rewrite (uwrap32_small k), uwrap32_small by lia; done).
  pose proof (scan4_spec (Z.to_nat (subnet4_size subnet - 3)) (p4Addr (masked4 subnet)) used 2) as Hs.
  destruct (scan4 _ _ _ _ _) as [a|].
  - destruct Hs as (k & Hk & Ea & Hfree & Hlow). rewrite Hwrap in Ea by lia. exists k.
    split_and!; [lia|lia|done|done|]. intros j Hj. rewrite <- Hwrap by lia. by apply Hlow.
  - intros k Hk. rewrite <- Hwrap by lia. apply Hs. lia.
Qed.
End Addresses.

(** ** Subnet bits *)

(** Bit [j] of an address, counted from its most significant bit. *)
Definition bit_at (dst : list Z) (j : Z) : bool := Z.testbit (byte_at dst (j / 8)) (7 - j mod 8).

Lemma write_bit_length dst bit v : length (write_bit dst bit v) = length dst.
Proof. apply length_insert. Qed.

Lemma write_bit_at dst bit v j :
  0 <= bit < 8 * len dst -> 0 <= j ->
  bit_at (write_bit dst bit v) j = if j =? bit then v else bit_at dst j.
Proof.
  intros Hb Hj. unfold bit_at, write_bit. cbv zeta.
  pose proof (Z.div_pos bit 8 ltac:(lia) ltac:(lia)). pose proof (Z.mod_pos_bound bit 8 ltac:(lia)).
  pose proof (Z.mod_pos_bound j 8 ltac:(lia)). pose proof (Z.div_pos j 8 ltac:(lia) ltac:(lia)).
  pose proof (Z.div_mod bit 8 ltac:(lia)). pose proof (Z.div_mod j 8 ltac:(lia)).
  assert (Hin : (Z.to_nat (bit / 8) < length dst)%nat).
  { assert (bit / 8 < len dst) by (apply Z.div_lt_upper_bound; lia). unfold len in *. lia. }
  destruct (decide (j / 8 = bit / 8)) as [E|E].
  - unfold byte_at at 1. rewrite E, list_lookup_insert_eq by done. cbn [default]. unfold id.
    assert (Hm : Z.testbit (Z.shiftl 1 (7 - bit mod 8)) (7 - j mod 8) = (j =? bit)).
    { rewrite Z.shiftl_1_l, Z.pow2_bits_eqb by lia.
      destruct (Z.eqb_spec (7 - bit mod 8) (7 - j mod 8)), (Z.eqb_spec j bit); lia. }
    destruct v; [rewrite Z.lor_spec, Hm|rewrite Z.ldiff_spec, Hm];
      destruct (j =? bit); cbn; by rewrite ?orb_true_r, ?orb_false_r, ?andb_false_r, ?andb_true_r.
  - unfold byte_at at 1. rewrite list_lookup_insert_ne by lia.
    destruct (Z.eqb_spec j bit) as [->|]; [lia|done].
Qed.

Lemma write_bits_at n value endBits : forall dst bit j,
  0 <= bit -> bit + Z.of_nat n <= 8 * len dst -> 0 <= j ->
  length (write_bits n dst bit endBits value) = length dst
  /\ bit_at (write_bits n dst bit endBits value) j
     = if (bit <=? j) && (j <? bit + Z.of_nat n) then Z.testbit value (endBits - j - 1) else bit_at dst j.
Proof.
  induction n as [|n IH]; intros dst bit j Hb Hl Hj; cbn [write_bits].
  { split; [done|]. destruct (Z.leb_spec bit j), (Z.ltb_spec j (bit + Z.of_nat 0)); cbn; try lia; done. }
  destruct (IH (write_bit dst bit (Z.testbit value (endBits - bit - 1))) (bit + 1) j) as [I1 I2];
    [lia|unfold len; rewrite write_bit_length; unfold len in Hl; lia|done|].
  split; [by rewrite I1, write_bit_length|]. rewrite I2, write_bit_at by lia.
  destruct (Z.leb_spec (bit + 1) j), (Z.ltb_spec j (bit + 1 + Z.of_nat n)), (Z.leb_spec bit j),
    (Z.ltb_spec j (bit + Z.of_nat (S n))), (Z.eqb_spec j bit); cbn [andb]; try lia; try done. by subst j.
Qed.

(** Writing a subnet number into an address changes exactly the bits between
    the pool's and the subnet's prefix lengths, and those bits read back as the
    number, most significant first; so different numbers give different subnets. *)
Theorem subnet_bits_roundtrip dst startBits endBits value j :
  0 <= startBits <= endBits -> endBits <= 8 * len dst -> 0 <= j ->
  length (writeSubnetBits dst startBits endBits value) = length dst
  /\ bit_at (writeSubnetBits dst startBits endBits value) j
     = if (startBits <=? j) && (j <? endBits) then Z.testbit value (endBits - 1 - j) else bit_at dst j.
Proof.
  intros Hs He Hj. unfold writeSubnetBits.
  destruct (write_bits_at (Z.to_nat (endBits - startBits)) value endBits dst startBits j) as [H1 H2];
    [lia|lia|done|].
  split; [done|]. rewrite H2. replace (startBits + Z.of_nat (Z.to_nat (endBits - startBits))) with endBits by lia.
  replace (endBits - j - 1) with (endBits - 1 - j) by lia. done.
Qed.

(** ** The uint16 walk of [nextAddressFromPool] *)

(** The node-address walk does not visit every address of its pool.  With
    the host offset the control plane uses (0x10), 65518 offsets are tried, but
    for a node whose preferred position is 20 the uint16 sum wraps and position
    19 is never tried, so the pool can be reported exhausted while that address
    is free. *)
Theorem address_walk_skips offset :
  0 <= offset < 65518 -> address_index 20 offset 16 <> 19.
Proof.
  intros Ho. unfold address_index, uwrap16.
  change ((65535 - 16 - 1) mod 65536) with 65518.
  destruct (decide (offset < 65516)) as [H|H].
  - rewrite (Z.mod_small (20 + offset)), (Z.mod_small (20 + offset - 1)) by lia.
    rewrite Z.rem_mod_nonneg by lia. pose proof (Z.mod_pos_bound (20 + offset - 1) 65518 ltac:(lia)).
    rewrite Z.mod_small by lia. destruct (decide (20 + offset - 1 < 65518)) as [H'|H'].
    + rewrite Z.mod_small by lia. lia.
    + replace (20 + offset - 1) with (20 + offset - 1 - 65518 + 1 * 65518) by lia.
      rewrite Z.mod_add, Z.mod_small by lia. lia.
  - assert (offset = 65516 \/ offset = 65517) as [-> | ->] by lia; vm_compute; done.
Qed.

(** ** Concrete instances *)

Definition demo_candidate (id domain : string) (used : Z) : placementCandidate :=
  mkCandidate HostStable id "eu" "" domain required_capabilities 1000 1024 0 used 0.
Definition demo_candidates : list placementCandidate :=
  [demo_candidate "n1" "rack-a" 0; demo_candidate "n2" "rack-a" 0; demo_candidate "n3" "rack-b" 900].
Definition demo_spec : ServiceSpec := mkServiceSpec (Some (mkServiceRuntime 100 128 None)) "eu".

(** With n1 occupied, the other rack wins although n2 comes first. *)
Lemma choose_agent_spec_witness :
  chooseAgentForReplica [] demo_candidates (Some demo_spec) {["n1"]} = Ok "n3"
  /\ exists c, free_candidate demo_candidates (Some demo_spec) [] c /\ cID c = "n3".
Proof.
  pose proof (choose_agent_spec [] demo_candidates (Some demo_spec) {["n1"]}) as H.
  assert (E : chooseAgentForReplica [] demo_candidates (Some demo_spec) {["n1"]} = Ok "n3")
    by (vm_compute; reflexivity).
  split; [exact E|]. rewrite E in H. destruct H as (c & H1 & H2 & _).
  - intros c Hc. unfold demo_candidates in Hc. set_solver.
  - exists c. exact (conj H1 H2).
Defined.

Definition demo_batch (spec : ServiceSpec) (needed : nat) (volumes : list VolumeRow) :=
  place_loop (Alloc := string) (fun id => Ok id) [] (fun _ => None) (fun _ _ => Ok tt) (Some spec) "env" needed false ""
    demo_candidates ∅ volumes [].
Definition demo_volumes : list VolumeRow := [mkVolumeRow "v1" "env" "data" (Some "n2") false false].
Definition demo_volume_spec : ServiceSpec := mkServiceSpec (Some (mkServiceRuntime 100 128 (Some "data"))) "eu".

Lemma demo_committed (spec : ServiceSpec) : GetCpuMillis (Runtime spec) = 100 -> GetMemoryMebibytes (Runtime spec) = 128 -> Forall (committed spec) demo_candidates.
Proof.
  intros E1 E2. unfold demo_candidates, committed, within. cbn [serviceRuntime]. rewrite E1, E2.
  do 3 (apply List.Forall_cons; [split; intros _; (split; [split|]); vm_compute; first [reflexivity|discriminate]|]). apply List.Forall_nil.
Qed.

(** Nineteen replicas are asked for, and the candidates are full after seventeen;
    the replica of a service with a volume goes where the volume is. *)
Lemma batch_never_overcommits_witness :
  (exists candidates' volumes' placed reason, demo_batch demo_spec 19 demo_volumes = Ok (candidates', volumes', placed, NoPlacement reason)
    /\ length placed = 17%nat /\ 0 + 128 * countb (fun a => str_eqb a "n1") placed <= 1024 /\ 900 + 100 * countb (fun a => str_eqb a "n3") placed <= 1000
    /\ (forall v, v ∈ demo_volumes -> vAgent v <> None -> v ∈ volumes'))
  /\ exists candidates' volumes', demo_batch demo_volume_spec 1 demo_volumes = Ok (candidates', volumes', ["n2"], PlacedAll) /\ demo_volumes ⊆ volumes'.
Proof.
  assert (Hdup : NoDup (map cID demo_candidates)) by (apply (bool_decide_unpack _); vm_compute; exact I). split.
  - destruct (demo_batch demo_spec 19 demo_volumes) as [[[[candidates' volumes'] placed] fin]|e] eqn:E; [|vm_compute in E; discriminate].
    destruct (batch_never_overcommits demo_spec ltac:(vm_compute; discriminate) ltac:(vm_compute; discriminate)
      (fun a => a) (fun id => Ok id) [] (fun _ => None) (fun _ _ => Ok tt) "env" 19 ltac:(by intros id a [= ->]) false "" demo_candidates ∅ demo_volumes []
      candidates' volumes' placed fin Hdup (demo_committed demo_spec eq_refl eq_refl) E) as (placed' & Ep & _ & _ & H & Hp).
    cbn in Ep. subst placed'. assert (Hl : length placed = 17%nat /\ exists reason, fin = NoPlacement reason).
    { vm_compute in E. injection E as _ _ <- <-. split; [vm_compute; reflexivity|by eexists]. }
    destruct Hl as [Hl [reason ->]]. exists candidates', volumes', placed, reason. split; [reflexivity|]. split; [exact Hl|].
    split; [|split; [|exact Hp]].
    + apply (H (demo_candidate "n1" "rack-a" 0)); [apply list_elem_of_here|reflexivity].
    + apply (H (demo_candidate "n3" "rack-b" 900)); [do 2 apply list_elem_of_further; apply list_elem_of_here|reflexivity].
  - destruct (demo_batch demo_volume_spec 1 demo_volumes) as [[[[candidates' volumes'] placed] fin]|e] eqn:E; [|vm_compute in E; discriminate].
    destruct (batch_never_overcommits demo_volume_spec ltac:(vm_compute; discriminate) ltac:(vm_compute; discriminate)
      (fun a => a) (fun id => Ok id) [] (fun _ => None) (fun _ _ => Ok tt) "env" 1 ltac:(by intros id a [= ->]) false "" demo_candidates ∅ demo_volumes []
      candidates' volumes' placed fin Hdup (demo_committed demo_volume_spec eq_refl eq_refl) E) as (placed' & Ep & _ & _ & _ & Hp).
    vm_compute in E. injection E as _ _ <- <-. exists candidates', volumes'. split; [reflexivity|]. intros v Hv. apply Hp; [exact Hv|].
    apply list_elem_of_singleton in Hv as ->. discriminate.
Defined.

Definition demo_pool : Prefix4 := mkPrefix4 (10 * 2 ^ 24) 8.
Lemma subnets_disjoint_witness :
  exists p1 p2, subnet4_at (Some demo_pool) 24 3 = Ok p1 /\ subnet4_at (Some demo_pool) 24 4 = Ok p2
    /\ p4Addr p1 + subnet4_size p1 <= p4Addr p2.
Proof.
  exists (mkPrefix4 (10 * 2 ^ 24 + 3 * 256) 24), (mkPrefix4 (10 * 2 ^ 24 + 4 * 256) 24).
  split; [vm_compute; reflexivity|]. split; [vm_compute; reflexivity|].
  apply (subnets_disjoint demo_pool 24 3 4); vm_compute; intuition discriminate.
Defined.

Definition demo_addr (n : Z) : string := pretty n.
Definition demo_parse (_ : string) : option Prefix4 := Some (mkPrefix4 (10 * 2 ^ 24) 29).
Lemma next_address_is_free_witness :
  nextIPv4AddressFromSubnet demo_parse demo_addr "10.0.0.0/29" {[demo_addr (10 * 2 ^ 24 + 2)]}
    = Ok (demo_addr (10 * 2 ^ 24 + 3))
  /\ demo_addr (10 * 2 ^ 24 + 3) ∉ ({[demo_addr (10 * 2 ^ 24 + 2)]} : gset string).
Proof.
  pose proof (next_address_is_free demo_parse demo_addr "10.0.0.0/29" (mkPrefix4 (10 * 2 ^ 24) 29)
    {[demo_addr (10 * 2 ^ 24 + 2)]} eq_refl) as H.
  assert (E : nextIPv4AddressFromSubnet demo_parse demo_addr "10.0.0.0/29" {[demo_addr (10 * 2 ^ 24 + 2)]}
    = Ok (demo_addr (10 * 2 ^ 24 + 3))) by (vm_compute; reflexivity).
  split; [exact E|]. rewrite E in H.
  destruct H as (k & _ & _ & Hf & _); [vm_compute; intuition discriminate..|exact Hf].
Defined.

Lemma subnet_bits_roundtrip_witness :
  bit_at (writeSubnetBits (replicate 16 0) 48 64 5) 61 = true
  /\ bit_at (writeSubnetBits (replicate 16 0) 48 64 5) 61 = Z.testbit 5 2.
Proof.
  split; [vm_compute; reflexivity|].
  apply (subnet_bits_roundtrip (replicate 16 0) 48 64 5 61); vm_compute; intuition discriminate.
Defined.

Lemma address_walk_skips_witness : address_index 20 65516 16 = 18 /\ address_index 20 65516 16 <> 19.
Proof. split; [vm_compute; reflexivity|]. apply (address_walk_skips 65516). lia. Defined.
