(* ===== verification/Bolt.v ===== *)
(** * What the log pipeline relies on from bbolt and from the encoders

    The spool keeps its records and drop summaries in bbolt buckets, encoded
    with JSON and protobuf.  Neither library is part of the repository, so
    both enter as type classes: the operations with their documented laws.
    [MapBucket] and [IdCodec] are concrete instances; they show that the laws
    can hold and let the models run. *)

From S2P Require Import Prelude.

(** ** Buckets *)

(** The operations of one bucket: [bk_list] is what a cursor enumerates. *)
Class Bucket (K V B : Type) := {
  bk_list : B -> list (K * V);
  bk_get : B -> K -> option V;
  bk_put : K -> V -> B -> B;
  bk_delete : K -> B -> B;
  bk_sequence : B -> Z;
  bk_bump : B -> B;
}.
#[global] Hint Mode Bucket - - + : typeclass_instances.

(** [NextSequence] increments the bucket's counter and returns it. *)
Definition bk_next_sequence {K V B} `{Bucket K V B} (b : B) : Z * B :=
  (bk_sequence b + 1, bk_bump b).

Class BucketLaws (K V B : Type) {HB : Bucket K V B} := {
  bk_nodup : forall (b : B), NoDup (bk_list b).*1;
  bk_get_spec : forall (b : B) k v, bk_get b k = Some v <-> (k, v) ∈ bk_list b;
  bk_put_spec : forall (b : B) k v k' v',
    (k', v') ∈ bk_list (bk_put k v b) <-> (k' = k /\ v' = v) \/ (k' <> k /\ (k', v') ∈ bk_list b);
  bk_delete_spec : forall (b : B) k k' v',
    (k', v') ∈ bk_list (bk_delete k b) <-> k' <> k /\ (k', v') ∈ bk_list b;
  bk_put_sequence : forall (b : B) k v, bk_sequence (bk_put k v b) = bk_sequence b;
  bk_delete_sequence : forall (b : B) k, bk_sequence (bk_delete k b) = bk_sequence b;
  bk_bump_sequence : forall (b : B), bk_sequence (bk_bump b) = bk_sequence b + 1;
  bk_bump_list : forall (b : B), bk_list (bk_bump b) = bk_list b;
}.

(** Cursors walk integer keys (eight big-endian bytes) in ascending order. *)
Class OrderedBucket (V B : Type) {HB : Bucket Z V B} :=
  bk_ascending : forall (b : B), StronglySorted Z.lt (bk_list b).*1.

(** *** Consequences on the enumerated lists *)

Section Lists.
Context {V : Type}.

Definition drop_key (k : Z) (l : list (Z * V)) : list (Z * V) :=
  filter (fun p => p.1 <> k) l.

Lemma sorted_lt_in (a : Z * V) (l : list (Z * V)) :
  StronglySorted Z.lt (a :: l).*1 -> forall p, p ∈ l -> a.1 < p.1.
Proof.
  simpl. intros Hs p Hp. apply StronglySorted_inv in Hs as [_ Hs].
  rewrite Forall_forall in Hs. apply Hs. apply list_elem_of_fmap. eauto.
Qed.

(** Ascending lists with the same members are equal. *)
Lemma ascending_ext (l1 l2 : list (Z * V)) :
  StronglySorted Z.lt l1.*1 -> StronglySorted Z.lt l2.*1 ->
  (forall p, p ∈ l1 <-> p ∈ l2) -> l1 = l2.
Proof.
  revert l2. induction l1 as [|a l1 IH]; intros [|b l2] H1 H2 He.
  - done.
  - destruct (He b) as [_ H]. specialize (H ltac:(set_solver)). set_solver.
  - destruct (He a) as [H _]. specialize (H ltac:(set_solver)). set_solver.
  - assert (a = b) as ->.
    { destruct (He a) as [Ha _], (He b) as [_ Hb].
      specialize (Ha ltac:(set_solver)). specialize (Hb ltac:(set_solver)).
      apply elem_of_cons in Ha as [->|Ha]; [done|].
      apply elem_of_cons in Hb as [->|Hb]; [done|].
      pose proof (sorted_lt_in _ _ H2 _ Ha). pose proof (sorted_lt_in _ _ H1 _ Hb). lia. }
    f_equal. apply IH.
    + by apply StronglySorted_inv in H1 as [? _].
    + by apply StronglySorted_inv in H2 as [? _].
    + intros p. split; intros Hp.
      * pose proof (sorted_lt_in _ _ H1 _ Hp).
        destruct (He p) as [Hm _]. specialize (Hm ltac:(set_solver)).
        apply elem_of_cons in Hm as [->|?]; [lia|done].
      * pose proof (sorted_lt_in _ _ H2 _ Hp).
        destruct (He p) as [_ Hm]. specialize (Hm ltac:(set_solver)).
        apply elem_of_cons in Hm as [->|?]; [lia|done].
Qed.

Lemma filter_ascending (P : Z * V -> Prop) `{!forall p, Decision (P p)} (l : list (Z * V)) :
  StronglySorted Z.lt l.*1 -> StronglySorted Z.lt (filter P l).*1.
Proof.
  induction l as [|a l IH]; intros Hs; [done|]. rewrite filter_cons.
  pose proof (sorted_lt_in _ _ Hs) as Hlt. apply StronglySorted_inv in Hs as [Hs _].
  destruct (decide _) as [_|_]; [|auto]. simpl. constructor; [auto|].
  apply Forall_forall. intros x Hx. apply list_elem_of_fmap in Hx as (q & -> & Hq).
  apply list_elem_of_filter in Hq as [_ Hq]. auto.
Qed.

(** In an ascending list, what lies above its [n]-th key is the rest. *)
Lemma filter_after_take (a : Z) n (l : list (Z * V)) :
  StronglySorted Z.lt l.*1 -> (forall p, p ∈ l -> a < p.1) ->
  filter (fun p => default a (last (take n l).*1) < p.1) l = drop n l.
Proof.
  revert a n. induction l as [|x l IH]; intros a n Hs Ha; [by rewrite drop_nil|].
  pose proof (sorted_lt_in _ _ Hs) as Hlt. pose proof (StronglySorted_inv Hs) as [Hs' _].
  destruct n as [|n].
  - cbn [take drop last fmap list_fmap default]. by apply filter_id.
  - cbn [take drop fmap list_fmap]. rewrite last_cons.
    assert (E : default a (match last (take n l).*1 with Some y => Some y | None => Some x.1 end)
      = default x.1 (last (take n l).*1)) by (by destruct (last _)).
    rewrite E, filter_cons, decide_False; [by apply IH|].
    destruct (last (take n l).*1) as [k|] eqn:Hl; cbn; [|lia].
    apply last_Some_elem_of, list_elem_of_fmap in Hl as (p & -> & Hp).
    apply elem_of_take in Hp as (i & Hp & _). apply list_elem_of_lookup_2 in Hp.
    specialize (Hlt p Hp). lia.
Qed.

Context {B : Type} `{HB : Bucket Z V B, !BucketLaws Z V B, !OrderedBucket V B}.

Lemma delete_list k (b : B) : bk_list (bk_delete k b) = drop_key k (bk_list b).
Proof.
  apply ascending_ext; [apply bk_ascending|apply filter_ascending, bk_ascending|].
  intros [k' v']. unfold drop_key. rewrite list_elem_of_filter, bk_delete_spec. done.
Qed.

(** A key above all others is appended. *)
Lemma put_last k v (b : B) :
  (forall p, p ∈ bk_list b -> p.1 < k) -> bk_list (bk_put k v b) = bk_list b ++ [(k, v)].
Proof.
  intros Hk. apply ascending_ext; [apply bk_ascending| |].
  - pose proof (bk_ascending b) as Hs. revert Hs Hk. generalize (bk_list b). intros l.
    induction l as [|a l IH]; intros Hs Hk; simpl; [repeat constructor|].
    pose proof (sorted_lt_in _ _ Hs) as Hlt. apply StronglySorted_inv in Hs as [Hs _].
    constructor; [apply IH; set_solver|]. apply Forall_forall. intros x Hx.
    apply list_elem_of_fmap in Hx as (p & -> & Hp). apply elem_of_app in Hp as [Hp|Hp]; [auto|].
    assert (p = (k, v)) as -> by set_solver. apply Hk. set_solver.
  - intros [k' v']. rewrite bk_put_spec, elem_of_app. split.
    + intros [[-> ->]|[_ H]]; set_solver.
    + intros [H|H]; [|set_solver]. right. split; [|done]. specialize (Hk _ H). simpl in Hk. lia.
Qed.
End Lists.

(** *** Sums over the values of a bucket *)

Section Sums.
Context {K V B : Type} `{!EqDecision K} `{HB : Bucket K V B, !BucketLaws K V B}.
Variable f : K * V -> Z.

Lemma bucket_nodup (b : B) : NoDup (bk_list b).
Proof. eapply NoDup_fmap_1, bk_nodup. Qed.

Lemma put_new_sum k v (b : B) :
  bk_get b k = None -> sumZ f (bk_list (bk_put k v b)) = f (k, v) + sumZ f (bk_list b).
Proof.
  intros Hk. change (f (k, v) + sumZ f (bk_list b)) with (sumZ f ((k, v) :: bk_list b)).
  apply sumZ_permutation, NoDup_Permutation; [apply bucket_nodup| |].
  - constructor; [|apply bucket_nodup]. intros Hin. apply bk_get_spec in Hin. congruence.
  - intros [k' v']. rewrite bk_put_spec, elem_of_cons. split.
    + intros [[-> ->]|[_ H]]; auto.
    + intros [[= -> ->]|H]; [auto|]. right. split; [|done].
      intros ->. apply bk_get_spec in H. congruence.
Qed.

Lemma delete_sum k v (b : B) :
  bk_get b k = Some v -> sumZ f (bk_list (bk_delete k b)) = sumZ f (bk_list b) - f (k, v).
Proof.
  intros Hk. enough (sumZ f (bk_list b) = sumZ f ((k, v) :: bk_list (bk_delete k b))) by (simpl in *; lia).
  apply sumZ_permutation, NoDup_Permutation; [apply bucket_nodup| |].
  - constructor; [|apply bucket_nodup]. rewrite bk_delete_spec. naive_solver.
  - intros [k' v']. rewrite elem_of_cons, bk_delete_spec. split.
    + intros H. destruct (decide (k' = k)) as [->|]; [|auto].
      left. apply bk_get_spec in H. congruence.
    + intros [[= -> ->]|[_ H]]; [by apply bk_get_spec|done].
Qed.

Lemma put_old_sum k v v0 (b : B) :
  bk_get b k = Some v0 -> sumZ f (bk_list (bk_put k v b)) = sumZ f (bk_list b) - f (k, v0) + f (k, v).
Proof.
  intros Hk. rewrite <- (delete_sum k v0 b Hk). rewrite Z.add_comm.
  change (f (k, v) + ?s) with (sumZ f ((k, v) :: bk_list (bk_delete k b))).
  apply sumZ_permutation, NoDup_Permutation; [apply bucket_nodup| |].
  - constructor; [|apply bucket_nodup]. rewrite bk_delete_spec. naive_solver.
  - intros [k' v']. rewrite bk_put_spec, elem_of_cons, bk_delete_spec. naive_solver.
Qed.

Lemma get_put_eq k v (b : B) : bk_get (bk_put k v b) k = Some v.
Proof. apply bk_get_spec, bk_put_spec. auto. Qed.

Lemma get_put_ne k v k' (b : B) : k' <> k -> bk_get (bk_put k v b) k' = bk_get b k'.
Proof.
  intros Hne. apply option_eq. intros v'. rewrite !bk_get_spec, bk_put_spec. naive_solver.
Qed.

Lemma get_delete_eq k (b : B) : bk_get (bk_delete k b) k = None.
Proof. apply eq_None_not_Some. intros [v H]. apply bk_get_spec, bk_delete_spec in H. naive_solver. Qed.

Lemma get_delete_ne k k' (b : B) : k' <> k -> bk_get (bk_delete k b) k' = bk_get b k'.
Proof.
  intros Hne. apply option_eq. intros v'. rewrite !bk_get_spec, bk_delete_spec. naive_solver.
Qed.
End Sums.

(** ** Encoders *)

(** [encode] may refuse a value; what it accepts decodes to itself.  [width]
    is the length of the encoding. *)
Class Codec (E A R : Type) := {
  encode : A -> result E R;
  decode : R -> result E A;
  width : R -> Z;
}.

Class CodecLaws (E A R : Type) {HC : Codec E A R} := {
  decode_encode : forall (a : A) r, encode a = Ok r -> decode r = Ok a;
  width_nonneg : forall r, 0 <= width r;
}.

(** ** Concrete instances *)

Record MapBucket (K V : Type) `{Countable K} := mkMapBucket { mb_map : gmap K V; mb_seq : Z }.
Arguments mkMapBucket {K V _ _} _ _.
Arguments mb_map {K V _ _} _.
Arguments mb_seq {K V _ _} _.

(** Enumeration sorted by a boolean order on the keys. *)
Definition mapBucket_ops {K V} `{Countable K} (leb : K -> K -> bool) : Bucket K V (MapBucket K V) := {|
  bk_list b := isort (fun p q => leb p.1 q.1) (map_to_list (mb_map b));
  bk_get b k := mb_map b !! k;
  bk_put k v b := mkMapBucket (<[k := v]> (mb_map b)) (mb_seq b);
  bk_delete k b := mkMapBucket (delete k (mb_map b)) (mb_seq b);
  bk_sequence b := mb_seq b;
  bk_bump b := mkMapBucket (mb_map b) (mb_seq b + 1);
|}.

#[export] Instance ZBucket V : Bucket Z V (MapBucket Z V) := mapBucket_ops Z.leb.
#[export] Instance StringBucket V : Bucket string V (MapBucket string V) :=
  mapBucket_ops (fun _ _ => true).

Lemma mapBucket_laws {K V} `{Countable K} (leb : K -> K -> bool) :
  @BucketLaws K V (MapBucket K V) (mapBucket_ops leb).
Proof.
  constructor; simpl.
  - intros b. rewrite isort_perm. apply NoDup_fst_map_to_list.
  - intros b k v. rewrite isort_perm. by rewrite elem_of_map_to_list.
  - intros b k v k' v'. rewrite !isort_perm, !elem_of_map_to_list.
    rewrite lookup_insert_Some. naive_solver.
  - intros b k k' v'. rewrite !isort_perm, !elem_of_map_to_list.
    rewrite lookup_delete_Some. naive_solver.
  - done.
  - done.
  - done.
  - done.
Qed.

#[export] Instance ZBucket_laws V : BucketLaws Z V (MapBucket Z V) := mapBucket_laws Z.leb.
#[export] Instance StringBucket_laws V : BucketLaws string V (MapBucket string V) :=
  mapBucket_laws (fun _ _ => true).

#[export] Instance ZBucket_ordered V : OrderedBucket V (MapBucket Z V).
Proof.
  intros b. pose proof (bk_nodup b) as Hn. revert Hn. simpl.
  assert (Hs : Sorted (fun p q : Z * V => Z.leb p.1 q.1 = true)
    (isort (fun p q => p.1 <=? q.1) (map_to_list (mb_map b)))).
  { apply isort_sorted. intros p q Hpq. bool_to_prop. apply Z.leb_le. lia. }
  revert Hs. generalize (isort (fun p q : Z * V => p.1 <=? q.1) (map_to_list (mb_map b))).
  intros l Hs. apply Sorted_StronglySorted in Hs.
  2: { intros x y z ? ?. bool_to_prop. apply Z.leb_le. lia. }
  induction Hs as [|p l Hs IH Hp]; simpl; intros Hn; constructor.
  - apply IH. by inversion Hn.
  - apply Forall_forall. intros x Hx. apply list_elem_of_fmap in Hx as (q & -> & Hq).
    rewrite Forall_forall in Hp. specialize (Hp q Hq). bool_to_prop.
    inversion Hn as [|? ? Hnin]; subst. assert (p.1 <> q.1); [|lia].
    intros E. apply Hnin. rewrite E. apply list_elem_of_fmap. eauto.
Qed.

(** Encodings kept as the values themselves, with a given width. *)
Definition IdCodec {E A} (w : A -> Z) : Codec E A A :=
  {| encode a := Ok a; decode a := Ok a; width a := Z.max 0 (w a) |}.

Lemma IdCodec_laws {E A} (w : A -> Z) : @CodecLaws E A A (IdCodec w).
Proof. constructor; simpl; [by intros a r [= ->]|lia]. Qed.
