(* ===== verification/Spool.v ===== *)
(** * The durable log spool ([internal/logpipeline])

    [spool.go] and [drops.go]: a bounded FIFO of log records in one bbolt
    database, with an acknowledgement cursor, eviction under pressure, and
    summaries that account for every record lost.  Each exported method is a
    function from the spool to the spool and its answer; a transaction that
    fails leaves the database as it was.

    The file proves that the stored counters always describe the stored
    records, that [Append] terminates and respects its caps, that records of an
    outstanding read are never evicted, that a commit acknowledges exactly what
    was read, and that no unacknowledged record disappears without being
    counted in a drop summary. *)

From stdpp Require Import pretty.
From S2P Require Import Prelude Bolt.

(** ** Data *)

Record DropKey := mkDropKey {
  dkServiceID : string; dkAllocationID : string; dkBuildID : string;
  dkLogType : Z; dkStream : string; dkReason : string;
}.
#[export] Instance DropKey_eq_dec : EqDecision DropKey.
Proof. solve_decision. Defined.
#[export] Instance DropKey_eta : Eta DropKey := fun k =>
  mkDropKey (dkServiceID k) (dkAllocationID k) (dkBuildID k) (dkLogType k) (dkStream k) (dkReason k).
Definition zero_DropKey : DropKey := mkDropKey "" "" "" 0 "" "".

Record Drop := mkDrop { dKey : DropKey; dCount : Z; dStart : time; dEnd : time }.

Record LogDropSummary := mkSummary {
  SummaryId : string; sumKey : DropKey;
  WindowStart : timestamp; WindowEnd : timestamp; DroppedCount : Z;
}.
#[export] Instance LogDropSummary_eta : Eta LogDropSummary := fun s =>
  mkSummary (SummaryId s) (sumKey s) (WindowStart s) (WindowEnd s) (DroppedCount s).
Definition zero_summary : LogDropSummary := mkSummary "" zero_DropKey None None 0.

(** The exported, encoded fields of [Record]. *)
Record LogRecord := mkRecord { rDropKey : DropKey; ObservedAt : time; Payload : string }.

Record Cursor := mkCursor { cAfter : Z; cGeneration : Z; cOwner : Z }.
#[export] Instance Cursor_eq_dec : EqDecision Cursor.
Proof. solve_decision. Defined.

(** A record as [Read] returns it. *)
Record ReadRecord := mkReadRecord { rrRecord : LogRecord; rrSequence : Z; rrCursor : Cursor }.

Record queueState := mkQueueState {
  After : Z; Records : Z; Bytes : Z; Pending : Z; DroppedRecords : Z; DroppedBytes : Z;
}.
#[export] Instance queueState_eta : Eta queueState := fun q =>
  mkQueueState (After q) (Records q) (Bytes q) (Pending q) (DroppedRecords q) (DroppedBytes q).
Definition zero_state : queueState := mkQueueState 0 0 0 0 0 0.

Inductive SpoolError : Type :=
| ErrSpoolFull
| ErrRecordTooLarge
| ErrMaxSizeReached            (* bbolt: the database file may not grow *)
| ErrSpool (msg : string)
| ErrFuel.                     (* the model's eviction loop ran out of fuel; never returned *)

Definition ReasonSpoolOverflow : string := "spool_overflow".
Definition ReasonCorruptSpool : string := "corrupt_spool".

Definition spoolError {A} (r : result SpoolError A) : result SpoolError A :=
  match r with Err ErrMaxSizeReached => Err ErrSpoolFull | _ => r end.

Definition defaultSpoolMaxBytes : Z := Z.shiftl 256 20.
Definition defaultSpoolMaxRecords : Z := 1000000.
Definition spoolDiskReserve : Z := Z.shiftl 8 20.

Record SpoolConfig := mkSpoolConfig {
  cfgTryOwnership : bool; cfgDir : string; cfgMaxBytes : Z; cfgMaxRecords : Z;
  cfgRejectOnFull : bool; cfgRetention : duration;
}.

Record SpoolStats := mkSpoolStats {
  stRecords : Z; stBytes : Z; stPendingRecords : Z; stDroppedRecords : Z; stDroppedBytes : Z;
  stDiskBytes : Z; stDiskLimit : Z;
}.

(** The keys of the records bucket are eight bytes, most significant first. *)
Definition sequenceKey (n : Z) : list Z :=
  map (fun i => Z.land (Z.shiftr n (8 * Z.of_nat i)) 255) (reverse (seq 0 8)).

Section Spool.
(** Encoded records and summaries, and the three buckets. *)
Context {raw sraw RB SB IB : Type}.
Context {RBops : Bucket Z raw RB} {SBops : Bucket string sraw SB} {IBops : Bucket string string IB}.
Context {rc : Codec SpoolError LogRecord raw} {sc : Codec SpoolError LogDropSummary sraw}.

(** [json.Marshal] of a drop key, the [n]-th random summary identity, and
    whether bbolt can commit a database. *)
Variable json_key : DropKey -> string.
Variable newSummaryID : nat -> string.

(** The database inside a transaction; [tDraws] counts the identities drawn. *)
Record Tx := mkTx {
  tRecords : RB; tState : queueState; tDrops : SB; tKeys : IB; tDraws : nat;
}.
#[export] Instance Tx_eta : Eta Tx := fun t =>
  mkTx (tRecords t) (tState t) (tDrops t) (tKeys t) (tDraws t).

Variable commit : Tx -> option SpoolError.

(** [spool_id] is the address of the [Spool], which [Cursor.owner] holds. *)
Record Spool := mkSpool {
  db : Tx; maxBytes : Z; maxRecords : Z; diskLimit : Z; rejectOnFull : bool; retention : duration;
  inflight : option Cursor; generation : Z; spool_id : Z;
}.
#[export] Instance Spool_eta : Eta Spool := fun s =>
  mkSpool (db s) (maxBytes s) (maxRecords s) (diskLimit s) (rejectOnFull s) (retention s)
    (inflight s) (generation s) (spool_id s).

(** [db.Update]: the changes of a failed function or commit are rolled back. *)
Definition update (s : Spool) (fn : Tx -> result SpoolError Tx) : Spool * result SpoolError unit :=
  match fn (db s) with
  | Err e => (s, Err e)
  | Ok tx => match commit tx with
             | Some e => (s, Err e)
             | None => (s <| db := tx |>, Ok tt)
             end
  end.

(** ** Opening *)

(** The new, empty buckets that [CreateBucketIfNotExists] makes. *)
Variables (rb0 : RB) (sb0 : SB) (ib0 : IB).

(** A directory entry left by the retired segmented format. *)
Definition retired_entry (name : string) : bool :=
  String.prefix "seg-" name || bool_decide (name = "cursor.json")
  || bool_decide (name = "drops.json") || bool_decide (name = "pending-drops.json").

(** The operating system's answers: creating and listing the directory, the
    database found in the file ([None] for a new one), syncing directories. *)
Record OpenEnv := mkOpenEnv {
  env_mkdir : option SpoolError;
  env_entries : result SpoolError (list string);
  env_db : result SpoolError (option Tx);
  env_sync : option SpoolError;
  env_address : Z;
}.

Definition failed (e : option SpoolError) : result SpoolError unit :=
  match e with Some e => Err e | None => Ok tt end.

Definition OpenSpool (cfg : SpoolConfig) (env : OpenEnv) : result SpoolError Spool :=
  _ ← guard_err (bool_decide (cfgDir cfg = "")) (ErrSpool "log spool directory is required");
  let maxBytes := if cfgMaxBytes cfg <=? 0 then defaultSpoolMaxBytes else cfgMaxBytes cfg in
  let maxRecords := if cfgMaxRecords cfg <=? 0 then defaultSpoolMaxRecords else cfgMaxRecords cfg in
  _ ← guard_err (Z.quot ((2 ^ 63 - 1) - spoolDiskReserve) 4 <? maxBytes)
        (ErrSpool "log spool byte cap exceeds supported database size");
  _ ← failed (env_mkdir env);
  entries ← env_entries env;
  _ ← guard_err (existsb retired_entry entries) (ErrSpool "log spool uses the retired segmented format");
  let diskLimit := 4 * maxBytes + spoolDiskReserve in
  stored ← env_db env;
  let tx := default (mkTx rb0 zero_state sb0 ib0 0) stored in
  _ ← failed (commit tx);
  _ ← failed (env_sync env);
  Ok (mkSpool tx maxBytes maxRecords diskLimit (cfgRejectOnFull cfg) (cfgRetention cfg)
        None 0 (env_address env)).

(** ** Drop summaries *)

Definition summaryKey (s : LogDropSummary) : string := json_key (sumKey s).

(** bbolt refuses an empty key. *)
Definition putSummary (tx : Tx) (s : LogDropSummary) : result SpoolError Tx :=
  raw ← encode s;
  if decide (SummaryId s = "") then Err (ErrSpool "key required")
  else Ok (tx <| tDrops := bk_put (SummaryId s) raw (tDrops tx) |>).

(** Unmarshalling the nil value of a missing key yields the zero message. *)
Definition readSummary (r : option sraw) : result SpoolError LogDropSummary :=
  match r with None => Ok zero_summary | Some b => decode b end.

Definition draw_id (tx : Tx) : string * Tx :=
  (newSummaryID (tDraws tx), tx <| tDraws := S (tDraws tx) |>).

Definition addDrop (tx : Tx) (d : Drop) : result SpoolError Tx :=
  if dCount d =? 0 then Ok tx
  else
    let summary := mkSummary "" (dKey d) (Some (dStart d)) (Some (dEnd d)) (dCount d) in
    let key := summaryKey summary in
    match bk_get (tKeys tx) key with
    | Some id =>
        current ← readSummary (bk_get (tDrops tx) id);
        let current := current <| DroppedCount := uwrap64 (DroppedCount current + dCount d) |> in
        let current := if dStart d <? as_time (WindowStart current)
                       then current <| WindowStart := WindowStart summary |> else current in
        let current := if as_time (WindowEnd current) <? dEnd d
                       then current <| WindowEnd := WindowEnd summary |> else current in
        putSummary tx current
    | None =>
        let '(id, tx) := draw_id tx in
        let summary := summary <| SummaryId := id |> in
        tx ← putSummary tx summary;
        Ok (tx <| tKeys := bk_put key id (tKeys tx) |>)
    end.

Fixpoint addDrops (tx : Tx) (ds : list Drop) : result SpoolError Tx :=
  match ds with
  | [] => Ok tx
  | d :: ds => tx ← addDrop tx d; addDrops tx ds
  end.

Definition AddDrops (s : Spool) (ds : list Drop) : Spool * result SpoolError unit :=
  let '(s', r) := update s (fun tx => addDrops tx ds) in (s', spoolError r).

Fixpoint pending (l : list (string * sraw)) : result SpoolError (list LogDropSummary) :=
  match l with
  | [] => Ok []
  | (_, b) :: l => s ← readSummary (Some b); r ← pending l; Ok (s :: r)
  end.

Definition PendingDrops (s : Spool) : result SpoolError (list LogDropSummary) :=
  pending (bk_list (tDrops (db s))).

Definition acknowledgeDrop (tx : Tx) (ack : LogDropSummary) : result SpoolError Tx :=
  let id := SummaryId ack in
  match bk_get (tDrops tx) id with
  | None => Err (ErrSpool "stale log drop acknowledgement")
  | Some b =>
      current ← readSummary (Some b);
      _ ← guard_err (DroppedCount current <? DroppedCount ack)
            (ErrSpool "log drop acknowledgement exceeds pending count");
      let key := summaryKey current in
      let tx := tx <| tDrops := bk_delete id (tDrops tx) |> in
      let tx := if decide (default "" (bk_get (tKeys tx) key) = id)
                then tx <| tKeys := bk_delete key (tKeys tx) |> else tx in
      if DroppedCount ack <? DroppedCount current then
        let '(fresh, tx) := draw_id tx in
        let current := current <| DroppedCount := DroppedCount current - DroppedCount ack |>
                               <| SummaryId := fresh |> in
        tx ← putSummary tx current;
        match bk_get (tKeys tx) key with
        | None => Ok (tx <| tKeys := bk_put key (SummaryId current) (tKeys tx) |>)
        | Some _ => Ok tx
        end
      else Ok tx
  end.

Fixpoint acknowledgeDrops (tx : Tx) (snapshot : list LogDropSummary) : result SpoolError Tx :=
  match snapshot with
  | [] => Ok tx
  | a :: rest => tx ← acknowledgeDrop tx a; acknowledgeDrops tx rest
  end.

Definition AcknowledgeDrops (s : Spool) (snapshot : list LogDropSummary) : Spool * result SpoolError unit :=
  let '(s', r) := update s (fun tx => acknowledgeDrops tx snapshot) in (s', spoolError r).

Definition mergeDrop (tx : Tx) (s : LogDropSummary) : result SpoolError Tx :=
  _ ← guard_err (bool_decide (SummaryId s = "")) (ErrSpool "inherited log drop has no stable identity");
  skip ← match bk_get (tDrops tx) (SummaryId s) with
         | Some b => current ← readSummary (Some b);
                     Ok (DroppedCount s <=? DroppedCount current)
         | None => Ok false
         end;
  if skip : bool then Ok tx
  else
    tx ← putSummary tx s;
    let key := summaryKey s in
    match bk_get (tKeys tx) key with
    | None => Ok (tx <| tKeys := bk_put key (SummaryId s) (tKeys tx) |>)
    | Some _ => Ok tx
    end.

Fixpoint mergeDrops (tx : Tx) (snapshot : list LogDropSummary) : result SpoolError Tx :=
  match snapshot with
  | [] => Ok tx
  | a :: rest => tx ← mergeDrop tx a; mergeDrops tx rest
  end.

Definition MergeDrops (s : Spool) (snapshot : list LogDropSummary) : Spool * result SpoolError unit :=
  let '(s', r) := update s (fun tx => mergeDrops tx snapshot) in (s', spoolError r).

(** ** Records *)

Definition entry_bytes (b : raw) : Z := width b + 8.

(** [remove] deletes one record; a reason accounts for it as lost. *)
Definition remove (tx : Tx) (key : Z) (b : raw) (reason : string) : result SpoolError Tx :=
  tx ← (if decide (reason = "") then Ok tx
        else
          record ← decode b;
          _ ← guard_err (bool_decide (rDropKey record = zero_DropKey))
                (ErrSpool "cannot evict an unattributable log record");
          tx ← addDrop tx (mkDrop ((rDropKey record) <| dkReason := reason |>) 1
                             (ObservedAt record) (ObservedAt record));
          let st := tState tx in
          Ok (tx <| tState := st <| DroppedRecords := uwrap64 (DroppedRecords st + 1) |>
                                 <| DroppedBytes := uwrap64 (DroppedBytes st + entry_bytes b) |> |>));
  let st := tState tx in
  let st := st <| Records := Records st - 1 |> <| Bytes := Bytes st - entry_bytes b |> in
  let st := if After st <? key then st <| Pending := Pending st - 1 |> else st in
  Ok (tx <| tRecords := bk_delete key (tRecords tx) |> <| tState := st |>).

(** The cursor walk of [collect]; it stops at the first unacknowledged key. *)
Fixpoint collect_walk (retention : duration) (pressure : bool) (cutoff : time)
    (l : list (Z * raw)) (tx : Tx) : result SpoolError Tx :=
  match l with
  | [] => Ok tx
  | (key, b) :: l =>
      if After (tState tx) <? key then Ok tx
      else
        keep ← (if negb pressure && (0 <? retention) then
                  record ← decode b; Ok (negb (ObservedAt record <? cutoff))
                else Ok false);
        if keep : bool then collect_walk retention pressure cutoff l tx
        else tx ← remove tx key b ""; collect_walk retention pressure cutoff l tx
  end.

Definition collect (s : Spool) (now : time) (tx : Tx) (pressure : bool) : result SpoolError Tx :=
  collect_walk (retention s) pressure (now - retention s) (bk_list (tRecords tx)) tx.

(** A record of the outstanding read. *)
Definition pinned (s : Spool) (tx : Tx) (seq : Z) : bool :=
  match inflight s with
  | Some c => (After (tState tx) <? seq) && (seq <=? cAfter c)
  | None => false
  end.

Fixpoint evict_walk (s : Spool) (l : list (Z * raw)) (tx : Tx) : result SpoolError Tx :=
  match l with
  | [] => Err ErrSpoolFull
  | (key, b) :: l => if pinned s tx key then evict_walk s l tx else remove tx key b ReasonSpoolOverflow
  end.

Definition evict (s : Spool) (now : time) (tx : Tx) : result SpoolError Tx :=
  let before := Records (tState tx) in
  tx ← collect s now tx true;
  if Records (tState tx) <? before then Ok tx
  else if rejectOnFull s then Err ErrSpoolFull
  else evict_walk s (bk_list (tRecords tx)) tx.

Definition over_capacity (s : Spool) (tx : Tx) (bytes n : Z) : bool :=
  (maxBytes s <? Bytes (tState tx) + bytes) || (maxRecords s <? Records (tState tx) + n).

(** [for over capacity { evict }]; [None] is the model's loop out of fuel. *)
Fixpoint make_room (fuel : nat) (s : Spool) (now : time) (bytes n : Z) (tx : Tx)
    : option (result SpoolError Tx) :=
  if over_capacity s tx bytes n then
    match fuel with
    | O => None
    | S fuel => match evict s now tx with
                | Err e => Some (Err e)
                | Ok tx => make_room fuel s now bytes n tx
                end
    end
  else Some (Ok tx).

Fixpoint insert_all (encoded : list raw) (tx : Tx) : Tx :=
  match encoded with
  | [] => tx
  | b :: encoded =>
      let '(seq, rb) := bk_next_sequence (tRecords tx) in
      let st := tState tx in
      insert_all encoded
        (tx <| tRecords := bk_put seq b rb |>
            <| tState := st <| Records := Records st + 1 |> <| Pending := Pending st + 1 |>
                            <| Bytes := Bytes st + entry_bytes b |> |>)
  end.

Fixpoint encode_all (records : list LogRecord) : result SpoolError (list raw) :=
  match records with
  | [] => Ok []
  | r :: records => b ← encode r; bs ← encode_all records; Ok (b :: bs)
  end.

Definition append_tx (s : Spool) (now : time) (encoded : list raw) (tx : Tx) : result SpoolError Tx :=
  tx ← collect s now tx false;
  tx ← default (Err ErrFuel)
         (make_room (length (bk_list (tRecords tx))) s now (sumZ entry_bytes encoded) (len encoded) tx);
  Ok (insert_all encoded tx).

Definition Append (s : Spool) (now : time) (records : list LogRecord) : Spool * result SpoolError unit :=
  match records with
  | [] => (s, Ok tt)
  | _ =>
      match encode_all records with
      | Err e => (s, Err e)
      | Ok encoded =>
          if (maxBytes s <? sumZ entry_bytes encoded) || (maxRecords s <? len records)
          then (s, Err ErrRecordTooLarge)
          else let '(s', r) := update s (append_tx s now encoded) in (s', spoolError r)
      end
  end.

(** ** Delivery *)

(** The entries a cursor visits from [Seek(sequenceKey(n))] on. *)
Definition from_key (n : Z) (l : list (Z * raw)) : list (Z * raw) := filter (fun p => n <= p.1) l.

Fixpoint decode_batch (l : list (Z * raw)) : result SpoolError (list (LogRecord * Z)) :=
  match l with
  | [] => Ok []
  | (key, b) :: l => record ← decode b; rest ← decode_batch l; Ok ((record, key) :: rest)
  end.

Definition Read (s : Spool) (maxRecs : Z) : Spool * result SpoolError (list ReadRecord * Cursor) :=
  match inflight s with
  | Some _ => (s, Err (ErrSpool "log spool already has an outstanding read"))
  | None =>
      let s := s <| generation := uwrap64 (generation s + 1) |> in
      let tx := db s in
      let batch := take (Z.to_nat maxRecs) (from_key (After (tState tx) + 1) (bk_list (tRecords tx))) in
      match decode_batch batch with
      | Err e => (s, Err e)
      | Ok decoded =>
          let after := default (After (tState tx)) (snd <$> last decoded) in
          let cursor := mkCursor after (generation s) (spool_id s) in
          (s <| inflight := Some cursor |>,
           Ok (map (fun p => mkReadRecord p.1 p.2 cursor) decoded, cursor))
      end
  end.

Definition commit_tx (s : Spool) (now : time) (cursor : Cursor) (drops : list LogDropSummary)
    (tx : Tx) : result SpoolError Tx :=
  let st := tState tx in
  let acked := countb (fun p => p.1 <=? cAfter cursor) (from_key (After st + 1) (bk_list (tRecords tx))) in
  let tx := tx <| tState := st <| Pending := Pending st - acked |> <| After := cAfter cursor |> |> in
  tx ← acknowledgeDrops tx drops;
  collect s now tx false.

Definition Commit (s : Spool) (now : time) (cursor : Cursor) (drops : list LogDropSummary)
    : Spool * result SpoolError unit :=
  if decide (inflight s = Some cursor) then
    let '(s', r) := update s (commit_tx s now cursor drops) in
    (s' <| inflight := None |>, spoolError r)
  else (s, Err (ErrSpool "stale log spool acknowledgement")).

Definition Release (s : Spool) : Spool := s <| inflight := None |>.

Definition discard_tx (seq : Z) (tx : Tx) : result SpoolError Tx :=
  match bk_get (tRecords tx) seq with
  | None => Err (ErrSpool "log record was already discarded")
  | Some b => remove tx seq b ReasonCorruptSpool
  end.

Definition Discard (s : Spool) (record : ReadRecord) : Spool * result SpoolError unit :=
  if decide (inflight s = Some (rrCursor record)) then
    let '(s', r) := update s (discard_tx (rrSequence record)) in (s', spoolError r)
  else (s, Err (ErrSpool "stale log record discard")).

Fixpoint rewind_walk (t : time) (all l : list (Z * raw)) (tx : Tx) : result SpoolError Tx :=
  match l with
  | [] => Ok tx
  | (seq, b) :: l =>
      let st := tState tx in
      if After st <? seq then Ok tx
      else
        record ← decode b;
        if negb (ObservedAt record <? t) then
          let again := countb (fun p => p.1 <=? After st) (from_key seq all) in
          Ok (tx <| tState := st <| Pending := Pending st + again |> <| After := seq - 1 |> |>)
        else rewind_walk t all l tx
  end.

Definition RewindForReplay (s : Spool) (t : time) : Spool * result SpoolError unit :=
  match inflight s with
  | Some _ => (s, Err (ErrSpool "cannot rewind an outstanding log batch"))
  | None => update s (fun tx => rewind_walk t (bk_list (tRecords tx)) (bk_list (tRecords tx)) tx)
  end.

Fixpoint abandon_walk (l : list (Z * raw)) (tx : Tx) : result SpoolError Tx :=
  match l with
  | [] => Ok tx
  | (key, b) :: l =>
      let reason := if After (tState tx) <? key then ReasonSpoolOverflow else "" in
      tx ← remove tx key b reason;
      abandon_walk l tx
  end.

Definition Abandon (s : Spool) : Spool * result SpoolError unit :=
  match inflight s with
  | Some _ => (s, Err (ErrSpool "cannot abandon an outstanding log batch"))
  | None => update s (fun tx => abandon_walk (bk_list (tRecords tx)) tx)
  end.

Definition Close (s : Spool) : Spool := s <| inflight := None |>.

(** [fileSize] is what [os.Stat] says of the database file, if it answers. *)
Definition Stats (s : Spool) (fileSize : option Z) : SpoolStats :=
  let st := tState (db s) in
  mkSpoolStats (Records st) (Bytes st) (Pending st) (DroppedRecords st) (DroppedBytes st)
    (default 0 fileSize) (diskLimit s).

(** ** Invariants *)

Definition entries (tx : Tx) : list (Z * raw) := bk_list (tRecords tx).

(** The counters of the stored state describe the stored records. *)
Record counters_ok (tx : Tx) : Prop := mkCountersOk {
  co_records : Records (tState tx) = len (entries tx);
  co_bytes : Bytes (tState tx) = sumZ (fun p => entry_bytes p.2) (entries tx);
  co_pending : Pending (tState tx) = countb (fun p => After (tState tx) <? p.1) (entries tx);
  co_keys : forall p, p ∈ entries tx -> 1 <= p.1 <= bk_sequence (tRecords tx);
  co_after : 0 <= After (tState tx) <= bk_sequence (tRecords tx);
}.

(** Every stored summary is readable under its own identity, and no identity
    still to be drawn is taken. *)
Record drops_ok (tx : Tx) : Prop := mkDropsOk {
  do_readable : forall id b, bk_get (tDrops tx) id = Some b ->
    exists s, decode b = Ok s /\ SummaryId s = id;
  do_fresh : forall n, (tDraws tx <= n)%nat -> bk_get (tDrops tx) (newSummaryID n) = None;
}.

(** The losses reported by the stored summaries. *)
Definition summary_count (p : string * sraw) : Z :=
  match decode p.2 with Ok s => DroppedCount s | Err _ => 0 end.
Definition drop_total (tx : Tx) : Z := sumZ summary_count (bk_list (tDrops tx)).

Context {RBlaws : BucketLaws Z raw RB} {RBord : OrderedBucket raw RB}.
Context {SBlaws : BucketLaws string sraw SB} {IBlaws : BucketLaws string string IB}.
Context {rcl : CodecLaws SpoolError LogRecord raw} {scl : CodecLaws SpoolError LogDropSummary sraw}.
Hypothesis newSummaryID_inj : forall n m, newSummaryID n = newSummaryID m -> n = m.

(** *** Summaries *)

Lemma addDrop_frame tx d tx' :
  addDrop tx d = Ok tx' -> tRecords tx' = tRecords tx /\ tState tx' = tState tx.
Proof.
  unfold addDrop, putSummary. destruct (dCount d =? 0); [by intros [= <-]|].
  destruct (bk_get (tKeys tx) _) as [id|].
  - intros (cur & _ & H)%bind_ok. apply bind_ok in H as (b & _ & H).
    destruct (decide _); [done|]. by injection H as <-.
  - cbn [draw_id]. intros (tx1 & H & [= <-])%bind_ok. apply bind_ok in H as (b & _ & H).
    destruct (decide _); [done|]. by injection H as <-.
Qed.

(** Storing a summary under an identity that is free or its own. *)
Lemma putSummary_ok tx s tx' :
  drops_ok tx -> putSummary tx s = Ok tx' ->
  (forall n, (tDraws tx' <= n)%nat -> newSummaryID n <> SummaryId s) ->
  drops_ok tx'
  /\ drop_total tx' = drop_total tx + DroppedCount s
       - match bk_get (tDrops tx) (SummaryId s) with Some b => summary_count (SummaryId s, b) | None => 0 end.
Proof.
  intros [Hr Hf] H Hn. unfold putSummary in H. apply bind_ok in H as (b & Hb & H).
  destruct (decide (SummaryId s = "")) as [|_]; [done|]. injection H as <-. cbn in Hn.
  assert (Hcnt : summary_count (SummaryId s, b) = DroppedCount s).
  { unfold summary_count. cbn. by rewrite (decode_encode _ _ Hb). }
  split; [split|].
  - cbn. intros id b'. destruct (decide (id = SummaryId s)) as [->|Hne].
    + rewrite get_put_eq. intros [= <-]. exists s. by rewrite (decode_encode _ _ Hb).
    + rewrite get_put_ne by done. apply Hr.
  - cbn. intros n Hle. rewrite get_put_ne by (by apply Hn). by apply Hf.
  - unfold drop_total. cbn. destruct (bk_get (tDrops tx) (SummaryId s)) as [b0|] eqn:H0.
    + rewrite (put_old_sum _ _ _ _ _ H0), Hcnt. lia.
    + rewrite (put_new_sum _ _ _ _ H0), Hcnt. lia.
Qed.

Lemma drops_ok_proper tx tx' :
  tDrops tx' = tDrops tx -> tDraws tx' = tDraws tx -> drops_ok tx -> drops_ok tx'.
Proof. intros E1 E2 [Hr Hf]. split; rewrite E1, ?E2; done. Qed.

(** Drawing an identity leaves the stored summaries, and yields a free one. *)
Lemma draw_ok tx :
  drops_ok tx -> drops_ok (draw_id tx).2 /\ bk_get (tDrops tx) (newSummaryID (tDraws tx)) = None.
Proof.
  intros [Hr Hf]. split; [split; cbn; [done|]|by apply Hf]. intros n Hn. apply Hf. lia.
Qed.

Lemma addDrop_ledger tx d tx' :
  drops_ok tx -> addDrop tx d = Ok tx' ->
  drops_ok tx' /\ drop_total tx' ≡64 drop_total tx + dCount d.
Proof.
  intros Hok. unfold addDrop. destruct (dCount d =? 0) eqn:Hz.
  { intros [= <-]. bool_to_prop. rewrite Hz, Z.add_0_r. done. }
  destruct (bk_get (tKeys tx) _) as [id|].
  - intros (cur & Hcur & H)%bind_ok. cbv zeta in H.
    set (cur' := cur <| DroppedCount := uwrap64 (DroppedCount cur + dCount d) |>) in H.
    match type of H with putSummary _ ?c = _ => set (s := c) in H end.
    assert (Hs : SummaryId s = SummaryId cur /\ DroppedCount s = uwrap64 (DroppedCount cur + dCount d)).
    { unfold s, cur'. by destruct (dStart d <? _), (_ <? dEnd d). }
    destruct Hs as [Hid Hcnt].
    destruct (bk_get (tDrops tx) id) as [b|] eqn:Hb; cbn [readSummary] in Hcur.
    + destruct (do_readable _ Hok _ _ Hb) as (s0 & Hdec & Hs0). rewrite Hdec in Hcur.
      injection Hcur as ->. pose proof H as Hp. unfold putSummary in Hp.
      apply bind_ok in Hp as (b' & _ & Hp). destruct (decide _) as [|_]; [done|]. injection Hp as Hp.
      destruct (putSummary_ok tx s tx' Hok H) as [H1 H2].
      { intros n Hn E. subst tx'. cbn in Hn. pose proof (do_fresh _ Hok n Hn) as Hf.
        rewrite E, Hid, Hs0, Hb in Hf. done. }
      split; [done|]. rewrite H2, Hid, Hs0, Hb, Hcnt. unfold summary_count. cbn. rewrite Hdec.
      rewrite uwrap64_eqm. replace (drop_total tx + dCount d)
        with (drop_total tx + (DroppedCount cur + dCount d) - DroppedCount cur) by lia. done.
    + injection Hcur as <-. unfold putSummary in H. apply bind_ok in H as (b' & _ & H).
      rewrite Hid in H. cbn in H. done.
  - cbn [draw_id]. intros (tx1 & H & [= <-])%bind_ok.
    destruct (draw_ok tx Hok) as [Hok1 Hfree]. pose proof H as Hp. unfold putSummary in Hp.
    apply bind_ok in Hp as (b' & _ & Hp). destruct (decide _) as [|_]; [done|]. injection Hp as Hp.
    destruct (putSummary_ok _ _ _ Hok1 H) as [H1 H2].
    { subst tx1. cbn. intros m Hm E. apply newSummaryID_inj in E. lia. }
    split; [by eapply drops_ok_proper; [..|exact H1]|].
    change (drop_total (_ <| tKeys := _ |>)) with (drop_total tx1). rewrite H2. cbn. rewrite Hfree.
    change (drop_total (draw_id tx).2) with (drop_total tx). rewrite Z.sub_0_r. done.
Qed.

(** *** Removing one record *)

(** What every removal keeps: it takes entries away and moves nothing else. *)
Record shrinks (tx tx' : Tx) : Prop := mkShrinks {
  sh_after : After (tState tx') = After (tState tx);
  sh_sequence : bk_sequence (tRecords tx') = bk_sequence (tRecords tx);
  sh_sub : forall p, p ∈ entries tx' -> p ∈ entries tx;
}.

#[local] Instance shrinks_pre : PreOrder shrinks.
Proof.
  split; [split; done|]. intros t1 t2 t3 [] []. split; [congruence|congruence|auto].
Qed.

Lemma remove_spec tx key b reason tx' :
  remove tx key b reason = Ok tx' ->
  exists st, tRecords tx' = bk_delete key (tRecords tx)
  /\ After st = After (tState tx) /\ Records st = Records (tState tx)
  /\ Bytes st = Bytes (tState tx) /\ Pending st = Pending (tState tx)
  /\ After (tState tx') = After st /\ Records (tState tx') = Records st - 1
  /\ Bytes (tState tx') = Bytes st - entry_bytes b
  /\ Pending (tState tx') = Pending st - (if After st <? key then 1 else 0).
Proof.
  unfold remove. intros (tx1 & H1 & [= <-])%bind_ok. exists (tState tx1).
  assert (Hf : tRecords tx1 = tRecords tx /\ After (tState tx1) = After (tState tx)
    /\ Records (tState tx1) = Records (tState tx) /\ Bytes (tState tx1) = Bytes (tState tx)
    /\ Pending (tState tx1) = Pending (tState tx)).
  { destruct (decide (reason = "")); [by injection H1 as <-|].
    apply bind_ok in H1 as (r & _ & H1). apply bind_ok in H1 as ([] & _ & H1).
    apply bind_ok in H1 as (tx2 & H2 & [= <-]). apply addDrop_frame in H2 as [Hr Hs].
    cbn. by rewrite Hr, Hs. }
  destruct Hf as (Hr & Ha & Hrec & Hb & Hp).
  cbn. rewrite Hr. destruct (After (tState tx1) <? key); cbn; split_and!; try done; lia.
Qed.

Lemma remove_counters tx key b reason tx' :
  counters_ok tx -> (key, b) ∈ entries tx -> remove tx key b reason = Ok tx' ->
  counters_ok tx' /\ shrinks tx tx' /\ Records (tState tx') = Records (tState tx) - 1
  /\ (forall p, p ∈ entries tx' <-> p ∈ entries tx /\ p.1 <> key).
Proof.
  intros [H1 H2 H3 H4 H5] Hin H. apply remove_spec in H as (st & Hr & Ha & E1 & E2 & E3 & A & R & B & P).
  assert (Hget : bk_get (tRecords tx) key = Some b) by (by apply bk_get_spec).
  assert (Hsub : forall p, p ∈ entries tx' <-> p ∈ entries tx /\ p.1 <> key).
  { intros [k v]. unfold entries. rewrite Hr, bk_delete_spec. cbn. naive_solver. }
  assert (Hseq : bk_sequence (tRecords tx') = bk_sequence (tRecords tx)) by (rewrite Hr; apply bk_delete_sequence).
  split_and!; [split| |lia|done].
  - rewrite R, E1, H1. unfold entries. rewrite Hr. rewrite <- !sumZ_const.
    rewrite (delete_sum _ _ _ _ Hget). lia.
  - rewrite B, E2, H2. unfold entries. rewrite Hr, (delete_sum _ _ _ _ Hget). done.
  - rewrite P, E3, H3, A, Ha. unfold entries, countb. rewrite Hr, (delete_sum _ _ _ _ Hget). done.
  - intros p Hp. rewrite Hseq. apply H4. by apply Hsub.
  - rewrite Hseq, A, Ha. done.
  - split; [congruence|done|naive_solver].
Qed.

(** A removal with a reason is reported; one without changes no report. *)
Lemma remove_ledger tx key b reason tx' :
  drops_ok tx -> remove tx key b reason = Ok tx' ->
  drops_ok tx' /\ drop_total tx' ≡64 drop_total tx + (if decide (reason = "") then 0 else 1)
  /\ DroppedRecords (tState tx') ≡64 DroppedRecords (tState tx) + (if decide (reason = "") then 0 else 1).
Proof.
  intros Hok. unfold remove. intros (tx1 & H1 & [= <-])%bind_ok.
  assert (Hl : drops_ok tx1 /\ drop_total tx1 ≡64 drop_total tx + (if decide (reason = "") then 0 else 1)
    /\ DroppedRecords (tState tx1) ≡64 DroppedRecords (tState tx) + (if decide (reason = "") then 0 else 1)).
  { destruct (decide (reason = "")).
    { injection H1 as <-. rewrite !Z.add_0_r. done. }
    apply bind_ok in H1 as (r & _ & H1). apply bind_ok in H1 as ([] & _ & H1).
    apply bind_ok in H1 as (tx2 & H2 & [= <-]). pose proof (addDrop_frame _ _ _ H2) as [_ Hst].
    destruct (addDrop_ledger _ _ _ Hok H2) as [Hok2 Hl2]. split_and!.
    - by eapply drops_ok_proper; [..|exact Hok2].
    - exact Hl2.
    - cbn. rewrite Hst. apply uwrap64_eqm. }
  destruct Hl as (Hok1 & Hl1 & Hl2). split_and!.
  - by eapply drops_ok_proper; [..|exact Hok1].
  - exact Hl1.
  - cbn. by destruct (_ <? _).
Qed.

(** *** Reclaiming space *)

Definition tx_ok (tx : Tx) : Prop := counters_ok tx /\ drops_ok tx.

(** Unacknowledged records plus reported losses: reclaiming keeps their sum. *)
Definition ledger (tx : Tx) : Z := Pending (tState tx) + drop_total tx.

Record reclaims (tx tx' : Tx) : Prop := mkReclaims {
  rc_ok : tx_ok tx';
  rc_shrinks : shrinks tx tx';
  rc_ledger : ledger tx' ≡64 ledger tx;
  rc_records : Records (tState tx') <= Records (tState tx);
  rc_bytes : Bytes (tState tx') <= Bytes (tState tx);
}.

Lemma reclaims_refl tx : tx_ok tx -> reclaims tx tx.
Proof. intros. split; [done|reflexivity|reflexivity|lia|lia]. Qed.

Lemma reclaims_trans t1 t2 t3 : reclaims t1 t2 -> reclaims t2 t3 -> reclaims t1 t3.
Proof.
  intros [A1 B1 C1 D1 E1] [A2 B2 C2 D2 E2]. split; [done|by etrans|by etrans|lia|lia].
Qed.

(** An acknowledged record goes silently, an unacknowledged one with a report. *)
Lemma remove_reclaims tx key b reason tx' :
  tx_ok tx -> (key, b) ∈ entries tx -> remove tx key b reason = Ok tx' ->
  (reason = "" <-> key <= After (tState tx)) ->
  reclaims tx tx' /\ Records (tState tx') = Records (tState tx) - 1
  /\ (forall p, p ∈ entries tx' <-> p ∈ entries tx /\ p.1 <> key).
Proof.
  intros [Hc Hd] Hin H Hreason.
  destruct (remove_counters _ _ _ _ _ Hc Hin H) as (Hc' & Hs & Hr & Hsub).
  destruct (remove_ledger _ _ _ _ _ Hd H) as (Hd' & Hl & _).
  pose proof (remove_spec _ _ _ _ _ H) as (st & _ & Ha & _ & E2 & E3 & _ & _ & B & P).
  pose proof (width_nonneg b) as Hw.
  split_and!; [split; [done|done| |lia|unfold entry_bytes in B; lia]|done|done].
  unfold ledger. rewrite P, E3, Ha, Hl. destruct (decide (reason = "")) as [He|He].
  - apply Hreason in He. rewrite (proj2 (Z.ltb_ge _ _) He). rewrite Z.sub_0_r, Z.add_0_r. done.
  - assert (After (tState tx) < key) as Hlt by (apply Z.nle_gt; by rewrite <- Hreason).
    rewrite (proj2 (Z.ltb_lt _ _) Hlt).
    replace (Pending (tState tx) - 1 + (drop_total tx + 1)) with (Pending (tState tx) + drop_total tx) by lia.
    done.
Qed.

(** The part of the bucket a walk still has before it. *)
Definition ahead (tx : Tx) (l : list (Z * raw)) : Prop :=
  StronglySorted Z.lt l.*1 /\ forall p, p ∈ l -> p ∈ entries tx.

Lemma ahead_all tx : ahead tx (entries tx).
Proof. split; [apply bk_ascending|done]. Qed.

Lemma ahead_tail tx p l : ahead tx (p :: l) -> ahead tx l.
Proof. intros [Hs Hi]. split; [by apply StronglySorted_inv in Hs as [? _]|set_solver]. Qed.

Lemma ahead_remove tx tx' p l :
  ahead tx (p :: l) -> (forall q, q ∈ entries tx' <-> q ∈ entries tx /\ q.1 <> p.1) -> ahead tx' l.
Proof.
  intros [Hs Hi] Hsub. pose proof (sorted_lt_in _ _ Hs) as Hlt.
  apply StronglySorted_inv in Hs as [Hs _]. split; [done|].
  intros q Hq. apply Hsub. split; [set_solver|]. specialize (Hlt q Hq). lia.
Qed.

Lemma collect_walk_ok ret pressure cutoff l : forall tx tx',
  tx_ok tx -> ahead tx l -> collect_walk ret pressure cutoff l tx = Ok tx' ->
  reclaims tx tx'
  /\ Pending (tState tx') = Pending (tState tx)
  /\ (forall p, p ∈ entries tx -> After (tState tx) < p.1 -> p ∈ entries tx')
  /\ (pressure = true -> (forall p, p ∈ entries tx -> p ∈ l \/ After (tState tx) < p.1) ->
      forall p, p ∈ entries tx' -> After (tState tx) < p.1).
Proof.
  induction l as [|[key b] l IH]; intros tx tx' Hok Hah; cbn [collect_walk].
  { intros [= <-]. split_and!; [by apply reclaims_refl|done|done|]. intros _ H p Hp.
    destruct (H p Hp); [set_solver|done]. }
  destruct (After (tState tx) <? key) eqn:Hkey; bool_to_prop.
  { intros [= <-]. split_and!; [by apply reclaims_refl|done|done|]. intros _ H p Hp.
    destruct (H p Hp) as [Hl|?]; [|done]. apply elem_of_cons in Hl as [->|Hl]; [done|].
    destruct Hah as [Hs _]. pose proof (sorted_lt_in _ _ Hs p Hl). cbn in *. lia. }
  intros (keep & Hkeep & H)%bind_ok. destruct keep.
  - destruct (IH _ _ Hok (ahead_tail _ _ _ Hah) H) as (H1 & H2 & H3 & H4).
    split_and!; [done|done|done|]. intros ->. by cbn in Hkeep.
  - apply bind_ok in H as (tx1 & H1 & H).
    destruct (remove_reclaims _ _ _ _ _ Hok (proj2 Hah (key, b) ltac:(set_solver)) H1) as (R1 & _ & Hsub);
      [by split|].
    destruct (IH _ _ (rc_ok _ _ R1) (ahead_remove _ _ _ _ Hah Hsub) H) as (R2 & P2 & K2 & A2).
    pose proof (sh_after _ _ (rc_shrinks _ _ R1)) as Hafter.
    pose proof (remove_spec _ _ _ _ _ H1) as (st & _ & Ha & _ & _ & E3 & _ & _ & _ & P).
    rewrite Ha, (proj2 (Z.ltb_ge _ _) Hkey) in P.
    split_and!; [by eapply reclaims_trans|lia| |].
    + intros p Hp Hlt. apply K2; [|lia]. apply Hsub. split; [done|]. lia.
    + intros Hpr Hall p Hp. rewrite <- Hafter. apply A2; [done| |done].
      intros q [Hq Hne]%Hsub. rewrite Hafter. destruct (Hall q Hq) as [Hl|?]; [|by right].
      left. apply elem_of_cons in Hl as [->|?]; [by cbn in Hne|done].
Qed.

Lemma collect_ok s now tx pressure tx' :
  tx_ok tx -> collect s now tx pressure = Ok tx' ->
  reclaims tx tx'
  /\ Pending (tState tx') = Pending (tState tx)
  /\ (forall p, p ∈ entries tx -> After (tState tx) < p.1 -> p ∈ entries tx')
  /\ (pressure = true -> forall p, p ∈ entries tx' -> After (tState tx) < p.1).
Proof.
  intros Hok H. destruct (collect_walk_ok _ _ _ _ _ _ Hok (ahead_all tx) H) as (H1 & H2 & H3 & H4).
  split_and!; [done|done|done|]. intros Hp. apply H4; [done|]. auto.
Qed.

Lemma evict_walk_ok s l : forall tx tx',
  tx_ok tx -> ahead tx l -> (forall p, p ∈ entries tx -> After (tState tx) < p.1) ->
  evict_walk s l tx = Ok tx' ->
  reclaims tx tx' /\ Records (tState tx') = Records (tState tx) - 1
  /\ (forall p, p ∈ entries tx -> pinned s tx p.1 = true -> p ∈ entries tx').
Proof.
  induction l as [|[key b] l IH]; intros tx tx' Hok Hah Hun; cbn [evict_walk]; [done|].
  destruct (pinned s tx key) eqn:Hpin; [apply IH; [done|by eapply ahead_tail|done]|].
  intros H. pose proof (proj2 Hah (key, b) ltac:(set_solver)) as Hin.
  destruct (remove_reclaims _ _ _ _ _ Hok Hin H) as (R & Hr & Hsub).
  { specialize (Hun _ Hin). cbn in Hun. split; [done|lia]. }
  split_and!; [done|done|]. intros p Hp Hpp. apply Hsub. split; [done|]. intros E. congruence.
Qed.

Lemma evict_ok s now tx tx' :
  tx_ok tx -> evict s now tx = Ok tx' ->
  reclaims tx tx' /\ Records (tState tx') < Records (tState tx)
  /\ (forall p, p ∈ entries tx -> pinned s tx p.1 = true -> p ∈ entries tx').
Proof.
  intros Hok. unfold evict. intros (tx1 & H1 & H)%bind_ok.
  destruct (collect_ok _ _ _ _ _ Hok H1) as (R1 & _ & K1 & A1).
  pose proof (sh_after _ _ (rc_shrinks _ _ R1)) as Hafter.
  assert (Hpin : forall p, p ∈ entries tx -> pinned s tx p.1 = true -> p ∈ entries tx1).
  { intros p Hp Hpp. apply K1; [done|]. unfold pinned in Hpp.
    destruct (inflight s); [|done]. bool_to_prop. lia. }
  destruct (Records (tState tx1) <? Records (tState tx)) eqn:Hlt; bool_to_prop.
  { injection H as <-. by split_and!. }
  destruct (rejectOnFull s); [done|].
  destruct (evict_walk_ok _ _ _ _ (rc_ok _ _ R1) (ahead_all tx1)
    ltac:(intros p Hp; rewrite Hafter; by apply A1) H) as (R2 & Hr & K2).
  pose proof (rc_records _ _ R1). split_and!; [by eapply reclaims_trans|lia|].
  intros p Hp Hpp. apply K2; [by apply Hpin|]. unfold pinned in *. by rewrite Hafter.
Qed.

(** The eviction loop ends within as many rounds as there are records, and
    leaves enough room. *)
Lemma make_room_ok fuel s now bytes n : forall tx tx',
  tx_ok tx -> make_room fuel s now bytes n tx = Some (Ok tx') ->
  reclaims tx tx' /\ over_capacity s tx' bytes n = false
  /\ (forall p, p ∈ entries tx -> pinned s tx p.1 = true -> p ∈ entries tx').
Proof.
  induction fuel as [|fuel IH]; intros tx tx' Hok; cbn [make_room];
    destruct (over_capacity s tx bytes n) eqn:Ho; try done;
    try (intros [= <-]; split_and!; [by apply reclaims_refl|done|done]).
  destruct (evict s now tx) as [tx1|e] eqn:He; [|done]. intros H.
  destruct (evict_ok _ _ _ _ Hok He) as (R1 & _ & P1).
  destruct (IH _ _ (rc_ok _ _ R1) H) as (R2 & O2 & P2).
  split_and!; [by eapply reclaims_trans|done|].
  intros p Hp Hpp. apply P2; [auto|]. unfold pinned in *.
  by rewrite (sh_after _ _ (rc_shrinks _ _ R1)).
Qed.

Lemma make_room_fuel fuel s now bytes n : forall tx,
  tx_ok tx -> bytes <= maxBytes s -> n <= maxRecords s -> (length (entries tx) <= fuel)%nat ->
  make_room fuel s now bytes n tx <> None.
Proof.
  induction fuel as [|fuel IH]; intros tx Hok Hb Hn Hf; cbn [make_room].
  - destruct Hok as [[H1 H2 _ _ _] _]. destruct (entries tx); [|simpl in Hf; lia].
    unfold over_capacity. rewrite H1, H2. cbn.
    by rewrite (proj2 (Z.ltb_ge _ bytes)), (proj2 (Z.ltb_ge _ n)) by lia.
  - destruct (over_capacity s tx bytes n); [|done].
    destruct (evict s now tx) as [tx1|e] eqn:He; [|done].
    destruct (evict_ok _ _ _ _ Hok He) as (R1 & Hlt & _).
    apply IH; [apply R1|done|done|]. pose proof (co_records _ (proj1 Hok)).
    pose proof (co_records _ (proj1 (rc_ok _ _ R1))). unfold len in *. lia.
Qed.

Lemma make_room_mono fuel s now bytes n : forall tx r fuel',
  make_room fuel s now bytes n tx = Some r -> (fuel <= fuel')%nat ->
  make_room fuel' s now bytes n tx = Some r.
Proof.
  induction fuel as [|fuel IH]; intros tx r fuel' H Hle; cbn [make_room] in H;
    destruct (over_capacity s tx bytes n) eqn:Ho; try done.
  - destruct fuel'; cbn [make_room]; by rewrite Ho.
  - destruct fuel' as [|fuel']; [lia|]. cbn [make_room]. rewrite Ho.
    destruct (evict s now tx); [|done]. apply IH; [done|lia].
  - destruct fuel'; cbn [make_room]; by rewrite Ho.
Qed.

(** *** Inserting *)

Lemma encode_all_len records : forall encoded, encode_all records = Ok encoded -> len encoded = len records.
Proof.
  induction records as [|a records IH]; intros encoded; cbn [encode_all]; [by intros [= <-]|].
  intros (b & _ & H)%bind_ok. apply bind_ok in H as (bs & Hbs & [= <-]).
  rewrite !len_cons, (IH _ Hbs). done.
Qed.

Lemma insert_all_ok encoded : forall tx,
  tx_ok tx ->
  let tx' := insert_all encoded tx in
  tx_ok tx' /\ After (tState tx') = After (tState tx)
  /\ Records (tState tx') = Records (tState tx) + len encoded
  /\ Bytes (tState tx') = Bytes (tState tx) + sumZ entry_bytes encoded
  /\ ledger tx' = ledger tx + len encoded
  /\ bk_sequence (tRecords tx') = bk_sequence (tRecords tx) + len encoded
  /\ exists new, entries tx' = entries tx ++ new /\ new.*2 = encoded
      /\ (forall p, p ∈ new -> bk_sequence (tRecords tx) < p.1).
Proof.
  induction encoded as [|b encoded IH]; intros tx Hok; cbn [insert_all].
  { unfold len. cbn. split_and!; try done; try lia. exists []. rewrite app_nil_r. set_solver. }
  cbn [bk_next_sequence]. set (seq := bk_sequence (tRecords tx) + 1).
  match goal with |- context [insert_all encoded ?t] => set (tx1 := t) end.
  destruct Hok as [[H1 H2 H3 H4 H5] Hd].
  assert (Hent : entries tx1 = entries tx ++ [(seq, b)]).
  { unfold entries, tx1. cbn. rewrite put_last, bk_bump_list; [done|].
    intros p. rewrite bk_bump_list. intros Hp. specialize (H4 p Hp). lia. }
  assert (Hseq : bk_sequence (tRecords tx1) = seq).
  { unfold tx1. cbn. by rewrite bk_put_sequence, bk_bump_sequence. }
  assert (Hok1 : tx_ok tx1).
  { split; [split|].
    - rewrite Hent, len_app. cbn. rewrite H1. done.
    - rewrite Hent, sumZ_app. cbn. rewrite H2. lia.
    - rewrite Hent, countb_app. cbn. rewrite H3. unfold seq.
      destruct (Z.ltb_spec (After (tState tx)) (bk_sequence (tRecords tx) + 1)); lia.
    - rewrite Hent, Hseq. intros p [Hp|Hp]%elem_of_app; [specialize (H4 p Hp); unfold seq; lia|].
      assert (p = (seq, b)) as -> by set_solver. cbn. unfold seq. lia.
    - rewrite Hseq. cbn. unfold seq. lia.
    - by eapply drops_ok_proper; [..|exact Hd]. }
  destruct (IH tx1 Hok1) as (I1 & I2 & I3 & I4 & I5 & I6 & new & I7 & I8 & I9).
  assert (E3 : Records (tState tx1) = Records (tState tx) + 1) by done.
  assert (E4 : Bytes (tState tx1) = Bytes (tState tx) + entry_bytes b) by done.
  split_and!; [done|by rewrite I2|rewrite I3, len_cons; lia|rewrite I4, E4; unfold sumZ; cbn [foldr]; lia| |
    rewrite I6, Hseq, len_cons; unfold seq; lia|].
  { rewrite I5, len_cons. unfold ledger. change (drop_total tx1) with (drop_total tx). cbn. lia. }
  exists ((seq, b) :: new). split_and!.
  - by rewrite I7, Hent, <- app_assoc.
  - cbn. by rewrite I8.
  - intros p [->|Hp]%elem_of_cons; [cbn; unfold seq; lia|]. specialize (I9 p Hp). rewrite Hseq in I9.
    unfold seq in I9. lia.
Qed.

Lemma append_tx_ok s now encoded tx tx' :
  tx_ok tx -> append_tx s now encoded tx = Ok tx' ->
  tx_ok tx' /\ After (tState tx') = After (tState tx)
  /\ bk_sequence (tRecords tx') = bk_sequence (tRecords tx) + len encoded
  /\ Records (tState tx') <= maxRecords s /\ Bytes (tState tx') <= maxBytes s
  /\ ledger tx' ≡64 ledger tx + len encoded
  /\ (forall p, p ∈ entries tx -> pinned s tx p.1 = true -> p ∈ entries tx')
  /\ exists kept new, entries tx' = kept ++ new /\ new.*2 = encoded
       /\ (forall p, p ∈ kept -> p ∈ entries tx)
       /\ (forall p, p ∈ new -> bk_sequence (tRecords tx) < p.1).
Proof.
  intros Hok. unfold append_tx. intros (tx1 & H1 & H)%bind_ok.
  apply bind_ok in H as (tx2 & H2 & [= <-]).
  destruct (collect_ok _ _ _ _ _ Hok H1) as (R1 & _ & K1 & _).
  pose proof (sh_after _ _ (rc_shrinks _ _ R1)) as Ha1.
  destruct (make_room _ _ _ _ _ tx1) as [r|] eqn:Hm; [|done]. cbn in H2. subst r.
  destruct (make_room_ok _ _ _ _ _ _ _ (rc_ok _ _ R1) Hm) as (R2 & Ho & P2).
  pose proof (sh_after _ _ (rc_shrinks _ _ R2)) as Ha2.
  destruct (insert_all_ok encoded tx2 (rc_ok _ _ R2)) as (I1 & I2 & I3 & I4 & I5 & I6 & new & I7 & I8 & I9).
  unfold over_capacity in Ho. bool_to_prop.
  assert (Hsq : bk_sequence (tRecords tx2) = bk_sequence (tRecords tx))
    by (rewrite (sh_sequence _ _ (rc_shrinks _ _ R2)); apply R1).
  split_and!; [done|congruence| |lia|lia| | |].
  - rewrite I6, (sh_sequence _ _ (rc_shrinks _ _ R2)), (sh_sequence _ _ (rc_shrinks _ _ R1)). done.
  - rewrite I5, (rc_ledger _ _ R2), (rc_ledger _ _ R1). done.
  - intros p Hp Hpp. rewrite I7. apply elem_of_app. left. apply P2.
    + apply K1; [done|]. unfold pinned in Hpp. destruct (inflight s); [|done]. bool_to_prop. lia.
    + unfold pinned in *. by rewrite Ha1.
  - exists (entries tx2), new. split_and!; [done|done| |by rewrite <- Hsq].
    intros p Hp. apply R1, R2, Hp.
Qed.

(** *** Acknowledging and inheriting summaries *)

Lemma delete_drops_ok tx id :
  drops_ok tx -> drops_ok (tx <| tDrops := bk_delete id (tDrops tx) |>).
Proof.
  intros [Hr Hf]. split; cbn.
  - intros id' b. destruct (decide (id' = id)) as [->|Hne].
    + by rewrite get_delete_eq.
    + rewrite get_delete_ne by done. apply Hr.
  - intros n Hn. destruct (decide (newSummaryID n = id)) as [->|Hne].
    + apply get_delete_eq.
    + rewrite get_delete_ne by done. by apply Hf.
Qed.

(** Nothing but the summaries and their index changes. *)
Definition same_records (tx tx' : Tx) : Prop := tRecords tx' = tRecords tx /\ tState tx' = tState tx.

Lemma putSummary_frame tx s tx' :
  putSummary tx s = Ok tx' -> same_records tx tx' /\ tDraws tx' = tDraws tx /\ tKeys tx' = tKeys tx.
Proof.
  unfold putSummary. intros (b & _ & H)%bind_ok. destruct (decide _); [done|]. by injection H as <-.
Qed.

(** Storing a summary under a freshly drawn identity adds its count. *)
Lemma put_fresh tx s tx' :
  drops_ok tx -> putSummary (draw_id tx).2 s = Ok tx' -> SummaryId s = (draw_id tx).1 ->
  drops_ok tx' /\ drop_total tx' = drop_total tx + DroppedCount s.
Proof.
  intros Hok H Hid. destruct (draw_ok tx Hok) as [Hok1 Hfree].
  destruct (putSummary_frame _ _ _ H) as (_ & Hdr & _).
  destruct (putSummary_ok _ _ _ Hok1 H) as [H1 H2].
  { rewrite Hdr, Hid. cbn. intros n Hn E. apply newSummaryID_inj in E. lia. }
  split; [done|]. rewrite H2, Hid. change (tDrops (draw_id tx).2) with (tDrops tx).
  change (draw_id tx).1 with (newSummaryID (tDraws tx)). rewrite Hfree.
  change (drop_total (draw_id tx).2) with (drop_total tx). lia.
Qed.

Lemma acknowledgeDrop_ledger tx ack tx' :
  drops_ok tx -> acknowledgeDrop tx ack = Ok tx' ->
  drops_ok tx' /\ drop_total tx' = drop_total tx - DroppedCount ack /\ same_records tx tx'.
Proof.
  intros Hok. unfold acknowledgeDrop.
  destruct (bk_get (tDrops tx) (SummaryId ack)) as [b|] eqn:Hb; [|done].
  intros (cur & Hcur & H)%bind_ok. cbn [readSummary] in Hcur.
  apply bind_ok in H as ([] & Hg & H). cbv zeta in H.
  assert (Hle : DroppedCount ack <= DroppedCount cur).
  { destruct (DroppedCount cur <? DroppedCount ack) eqn:E; [done|]. bool_to_prop. lia. }
  clear Hg.
  match type of H with context [draw_id ?t] => set (tx1 := t) in H end.
  assert (F1 : same_records tx tx1) by (unfold tx1; by destruct (decide _)).
  assert (Hok1 : drops_ok tx1).
  { eapply drops_ok_proper; [..|apply (delete_drops_ok tx (SummaryId ack) Hok)];
      unfold tx1; by destruct (decide _). }
  assert (Ht1 : drop_total tx1 = drop_total tx - DroppedCount cur).
  { transitivity (sumZ summary_count (bk_list (bk_delete (SummaryId ack) (tDrops tx)))).
    - unfold tx1, drop_total. by destruct (decide _).
    - rewrite (delete_sum _ _ _ _ Hb). unfold summary_count at 2. cbn. by rewrite Hcur. }
  clearbody tx1. destruct (DroppedCount ack <? DroppedCount cur) eqn:Hlt; bool_to_prop.
  - destruct (draw_id tx1) as [fresh tx2] eqn:Hdraw.
    apply bind_ok in H as (tx3 & H3 & H).
    assert (E2 : tx2 = (draw_id tx1).2) by (by rewrite Hdraw).
    assert (Ef : fresh = (draw_id tx1).1) by (by rewrite Hdraw). subst tx2.
    pose proof (putSummary_frame _ _ _ H3) as (F3 & _ & _).
    destruct (put_fresh _ _ _ Hok1 H3 Ef) as [Hok3 Ht3]. cbn in Ht3.
    assert (F : same_records tx tx3).
    { destruct F1 as [A1 B1], F3 as [A3 B3]. split; [by rewrite A3|by rewrite B3]. }
    destruct (bk_get (tKeys tx3) _); injection H as <-; [split_and!; [done|lia|done]|].
    split_and!; [by eapply drops_ok_proper; [..|exact Hok3]| |exact F].
    change (drop_total (_ <| tKeys := _ |>)) with (drop_total tx3). lia.
  - injection H as <-. split_and!; [done|lia|done].
Qed.

Lemma acknowledgeDrops_ledger acks : forall tx tx',
  drops_ok tx -> acknowledgeDrops tx acks = Ok tx' ->
  drops_ok tx' /\ drop_total tx' = drop_total tx - sumZ DroppedCount acks /\ same_records tx tx'.
Proof.
  induction acks as [|a acks IH]; intros tx tx' Hok; cbn [acknowledgeDrops].
  { intros [= <-]. split_and!; [done| |done]. unfold sumZ. cbn. lia. }
  intros (tx1 & H1 & H)%bind_ok. destruct (acknowledgeDrop_ledger _ _ _ Hok H1) as (O1 & T1 & F1).
  destruct (IH _ _ O1 H) as (O2 & T2 & F2). split_and!; [done| |].
  - rewrite T2, T1. unfold sumZ. cbn. lia.
  - destruct F1 as [A1 B1], F2 as [A2 B2]. split; congruence.
Qed.

Lemma addDrops_ledger ds : forall tx tx',
  drops_ok tx -> addDrops tx ds = Ok tx' ->
  drops_ok tx' /\ drop_total tx' ≡64 drop_total tx + sumZ dCount ds /\ same_records tx tx'.
Proof.
  induction ds as [|d ds IH]; intros tx tx' Hok; cbn [addDrops].
  { intros [= <-]. split_and!; [done| |done]. unfold sumZ. cbn. by rewrite Z.add_0_r. }
  intros (tx1 & H1 & H)%bind_ok. destruct (addDrop_ledger _ _ _ Hok H1) as [O1 T1].
  pose proof (addDrop_frame _ _ _ H1) as F1.
  destruct (IH _ _ O1 H) as (O2 & T2 & F2). split_and!; [done| |].
  - rewrite T2, T1. unfold sumZ. cbn. rewrite Z.add_assoc. done.
  - destruct F1 as [A1 B1], F2 as [A2 B2]. split; congruence.
Qed.

(** Identities that this spool will not draw. *)
Definition foreign (tx : Tx) (s : LogDropSummary) : Prop :=
  forall n, (tDraws tx <= n)%nat -> newSummaryID n <> SummaryId s.

(** The count stored under an identity. *)
Definition known (tx : Tx) (id : string) : Z :=
  match bk_get (tDrops tx) id with Some b => summary_count (id, b) | None => 0 end.

Lemma mergeDrop_ok tx s tx' :
  drops_ok tx -> foreign tx s -> 0 <= DroppedCount s -> mergeDrop tx s = Ok tx' ->
  drops_ok tx' /\ same_records tx tx' /\ tDraws tx' = tDraws tx
  /\ drop_total tx' = drop_total tx + Z.max 0 (DroppedCount s - known tx (SummaryId s))
  /\ (forall id, known tx' id =
        if decide (id = SummaryId s) then Z.max (known tx id) (DroppedCount s) else known tx id)
  /\ SummaryId s <> "" /\ is_Some (bk_get (tDrops tx') (SummaryId s))
  /\ (forall id, is_Some (bk_get (tDrops tx) id) -> is_Some (bk_get (tDrops tx') id)).
Proof.
  intros Hok Hfor Hnn. unfold mergeDrop. intros ([] & Hg & H)%bind_ok.
  assert (Hid : SummaryId s <> "") by (intros E; rewrite bool_decide_true in Hg by done; done).
  apply bind_ok in H as (skip & Hskip & H). destruct skip.
  - injection H as <-. destruct (bk_get (tDrops tx) (SummaryId s)) as [b|] eqn:Hb; [|done].
    apply bind_ok in Hskip as (cur & Hcur & [= Hle]). cbn in Hcur. bool_to_prop.
    assert (Hk : known tx (SummaryId s) = DroppedCount cur).
    { unfold known, summary_count. rewrite Hb. cbn. by rewrite Hcur. }
    split_and!; try done; [lia|]. intros id. destruct (decide _) as [->|]; [lia|done].
  - apply bind_ok in H as (tx1 & H1 & H).
    destruct (putSummary_frame _ _ _ H1) as (F1 & D1 & _).
    destruct (putSummary_ok _ _ _ Hok H1) as [O1 T1]; [by rewrite D1|].
    assert (Hk : known tx (SummaryId s) <= DroppedCount s).
    { unfold known. destruct (bk_get (tDrops tx) (SummaryId s)) as [b|] eqn:Hb; [|lia].
      apply bind_ok in Hskip as (cur & Hcur & [= Hle]). cbn in Hcur. bool_to_prop.
      unfold summary_count. cbn. rewrite Hcur. lia. }
    assert (E : tDrops tx' = tDrops tx1 /\ same_records tx1 tx' /\ tDraws tx' = tDraws tx1)
      by (destruct (bk_get (tKeys tx1) _); by injection H as <-).
    destruct E as (E & (A & B) & D), F1 as [A1 B1]. unfold putSummary in H1.
    apply bind_ok in H1 as (b & Hb & H1). destruct (decide _) as [|_]; [done|]. injection H1 as H1.
    split_and!; [by eapply drops_ok_proper; [..|exact O1]|split; congruence|congruence| | |done| |].
    + unfold drop_total in *. rewrite E, T1. fold (known tx (SummaryId s)). lia.
    + intros id. unfold known. rewrite E. subst tx1. cbn. destruct (decide _) as [->|Hne].
      * rewrite get_put_eq. fold (known tx (SummaryId s)). unfold summary_count. cbn.
        rewrite (decode_encode _ _ Hb). lia.
      * by rewrite get_put_ne.
    + rewrite E. subst tx1. cbn. rewrite get_put_eq. done.
    + intros id Hin. rewrite E. subst tx1. cbn. destruct (decide (id = SummaryId s)) as [->|Hne].
      * by rewrite get_put_eq.
      * by rewrite get_put_ne.
Qed.

(** What merging a snapshot adds: per identity, the highest count seen. *)
Fixpoint merge_gain (kn : string -> Z) (snapshot : list LogDropSummary) : Z :=
  match snapshot with
  | [] => 0
  | a :: rest =>
      Z.max 0 (DroppedCount a - kn (SummaryId a))
      + merge_gain (fun id => if decide (id = SummaryId a) then Z.max (kn id) (DroppedCount a) else kn id) rest
  end.

Lemma merge_gain_ext l : forall k1 k2, (forall id, k1 id = k2 id) -> merge_gain k1 l = merge_gain k2 l.
Proof.
  induction l as [|a l IH]; intros k1 k2 E; cbn; [done|]. rewrite E. f_equal. apply IH.
  intros id. by rewrite E.
Qed.

(** A snapshot with counts, of identities this spool does not draw. *)
Definition inheritable (tx : Tx) (snapshot : list LogDropSummary) : Prop :=
  forall a, a ∈ snapshot -> foreign tx a /\ 0 <= DroppedCount a.

Lemma mergeDrops_ok snapshot : forall tx tx',
  drops_ok tx -> inheritable tx snapshot -> mergeDrops tx snapshot = Ok tx' ->
  drops_ok tx' /\ same_records tx tx'
  /\ drop_total tx' = drop_total tx + merge_gain (known tx) snapshot
  /\ (forall id, known tx id <= known tx' id)
  /\ (forall id, is_Some (bk_get (tDrops tx) id) -> is_Some (bk_get (tDrops tx') id))
  /\ (forall a, a ∈ snapshot -> SummaryId a <> "" /\ is_Some (bk_get (tDrops tx') (SummaryId a))
        /\ DroppedCount a <= known tx' (SummaryId a)).
Proof.
  induction snapshot as [|a l IH]; intros tx tx' Hok Hin; cbn [mergeDrops].
  { intros [= <-]. split_and!; try done; [cbn; lia|]. intros b Hb. set_solver. }
  intros (tx1 & H1 & H)%bind_ok. destruct (Hin a ltac:(set_solver)) as [Hf Hn].
  destruct (mergeDrop_ok _ _ _ Hok Hf Hn H1) as (O1 & [A1 B1] & D1 & T1 & K1 & N1 & S1 & M1).
  assert (Hin1 : inheritable tx1 l).
  { intros b Hb. destruct (Hin b ltac:(set_solver)) as [Hfb ?]. split; [|done].
    unfold foreign in *. by rewrite D1. }
  destruct (IH _ _ O1 Hin1 H) as (O2 & [A2 B2] & T2 & K2 & S2 & M2).
  split_and!; [done|split; congruence| | | |].
  - rewrite T2, T1. cbn [merge_gain]. rewrite (merge_gain_ext l _ _ K1). lia.
  - intros id. specialize (K1 id). specialize (K2 id). destruct (decide _); lia.
  - auto.
  - intros b [->|Hb]%elem_of_cons; [|auto]. split_and!; [done|auto|].
    specialize (K1 (SummaryId a)). specialize (K2 (SummaryId a)).
    rewrite decide_True in K1 by done. lia.
Qed.

(** A snapshot that is already covered changes nothing. *)
Lemma mergeDrops_covered snapshot tx :
  drops_ok tx ->
  (forall a, a ∈ snapshot -> SummaryId a <> "" /\ is_Some (bk_get (tDrops tx) (SummaryId a))
     /\ DroppedCount a <= known tx (SummaryId a)) ->
  mergeDrops tx snapshot = Ok tx.
Proof.
  intros Hok. induction snapshot as [|a l IH]; intros Hcov; cbn [mergeDrops]; [done|].
  destruct (Hcov a ltac:(set_solver)) as (Hid & [b Hb] & Hle).
  assert (E : mergeDrop tx a = Ok tx).
  { unfold mergeDrop. rewrite bool_decide_false by done. cbn. rewrite Hb.
    destruct (do_readable _ Hok _ _ Hb) as (s0 & Hdec & _). cbn. rewrite Hdec. cbn.
    unfold known, summary_count in Hle. rewrite Hb in Hle. cbn in Hle. rewrite Hdec in Hle.
    by rewrite (proj2 (Z.leb_le _ _) Hle). }
  rewrite E. cbn. apply IH. set_solver.
Qed.

(** *** Moving the acknowledgement cursor *)

(** The records above the cursor, in delivery order. *)
Definition pending_entries (tx : Tx) : list (Z * raw) :=
  filter (fun p => After (tState tx) < p.1) (entries tx).

Lemma count_split a c (l : list (Z * raw)) :
  a <= c ->
  countb (fun p => a <? p.1) l
  = countb (fun p => c <? p.1) l + countb (fun p => p.1 <=? c) (from_key (a + 1) l).
Proof.
  intros Hac. induction l as [|p l IH]; [done|]. unfold from_key in *. rewrite filter_cons.
  unfold countb, sumZ in *. cbn [foldr]. rewrite IH.
  destruct (decide (a + 1 <= p.1)); cbn [foldr];
    destruct (Z.ltb_spec a p.1), (Z.ltb_spec c p.1), (Z.leb_spec p.1 c); lia.
Qed.

(** Moving the cursor with the pending count adjusted keeps the counters. *)
Lemma move_cursor tx a n :
  tx_ok tx -> 0 <= a <= bk_sequence (tRecords tx) ->
  n = countb (fun p => a <? p.1) (entries tx) ->
  tx_ok (tx <| tState := (tState tx) <| Pending := n |> <| After := a |> |>).
Proof.
  intros [[H1 H2 H3 H4 H5] Hd] Ha ->. split; [by split|]. by eapply drops_ok_proper; [..|exact Hd].
Qed.

Lemma pending_entries_ext tx tx' :
  shrinks tx tx' -> (forall p, p ∈ entries tx -> After (tState tx) < p.1 -> p ∈ entries tx') ->
  pending_entries tx' = pending_entries tx.
Proof.
  intros [Ha _ Hs] Hk. apply ascending_ext; [apply filter_ascending, bk_ascending..|].
  intros p. unfold pending_entries. rewrite !list_elem_of_filter, Ha. naive_solver.
Qed.

Lemma commit_tx_ok s now cursor drops tx tx' :
  tx_ok tx -> After (tState tx) <= cAfter cursor <= bk_sequence (tRecords tx) ->
  commit_tx s now cursor drops tx = Ok tx' ->
  let acked := countb (fun p => p.1 <=? cAfter cursor) (pending_entries tx) in
  tx_ok tx' /\ After (tState tx') = cAfter cursor
  /\ bk_sequence (tRecords tx') = bk_sequence (tRecords tx)
  /\ Records (tState tx') <= Records (tState tx) /\ Bytes (tState tx') <= Bytes (tState tx)
  /\ pending_entries tx' = filter (fun p => cAfter cursor < p.1) (pending_entries tx)
  /\ ledger tx' ≡64 ledger tx - acked - sumZ DroppedCount drops.
Proof.
  intros Hok Hc. unfold commit_tx. cbv zeta.
  assert (Epend : from_key (After (tState tx) + 1) (bk_list (tRecords tx)) = pending_entries tx).
  { unfold from_key, pending_entries, entries. apply list_filter_iff. intros p. lia. }
  rewrite Epend. set (acked := countb _ (pending_entries tx)).
  match goal with |- context [acknowledgeDrops ?t _] => set (tx1 := t) end.
  assert (Hpend : Pending (tState tx1) = countb (fun p => cAfter cursor <? p.1) (entries tx)).
  { cbn. rewrite (co_pending _ (proj1 Hok)), (count_split _ (cAfter cursor)) by lia.
    fold (entries tx) in Epend. rewrite Epend. lia. }
  assert (Hok1 : tx_ok tx1).
  { apply (move_cursor tx (cAfter cursor) (Pending (tState tx) - acked)); [done| |done].
    pose proof (co_after _ (proj1 Hok)). lia. }
  intros (tx2 & H2 & H)%bind_ok.
  destruct (acknowledgeDrops_ledger _ _ _ (proj2 Hok1) H2) as (O2 & T2 & [A2 B2]).
  assert (Hok2 : tx_ok tx2).
  { split; [|done]. destruct (proj1 Hok1). split; unfold entries; by rewrite ?A2, ?B2. }
  destruct (collect_ok _ _ _ _ _ Hok2 H) as (R & _ & K & _).
  pose proof (rc_records _ _ R) as Hr. pose proof (rc_bytes _ _ R) as Hb. rewrite B2 in Hr, Hb.
  split_and!; [apply R| | |exact Hr|exact Hb| |].
  - rewrite (sh_after _ _ (rc_shrinks _ _ R)), B2. done.
  - rewrite (sh_sequence _ _ (rc_shrinks _ _ R)), A2. done.
  - rewrite (pending_entries_ext _ _ (rc_shrinks _ _ R) K). unfold pending_entries, entries.
    rewrite A2, B2. cbn. rewrite list_filter_filter. apply list_filter_iff. intros p. lia.
  - rewrite (rc_ledger _ _ R). unfold ledger. rewrite T2, B2.
    change (drop_total tx1) with (drop_total tx). cbn.
    replace (Pending (tState tx) - acked + (drop_total tx - sumZ DroppedCount drops))
      with (Pending (tState tx) + drop_total tx - acked - sumZ DroppedCount drops) by lia. done.
Qed.

Lemma discard_tx_ok seq tx tx' :
  tx_ok tx -> After (tState tx) < seq -> discard_tx seq tx = Ok tx' ->
  reclaims tx tx' /\ forall p, p ∈ entries tx' <-> p ∈ entries tx /\ p.1 <> seq.
Proof.
  intros Hok Hlt. unfold discard_tx. destruct (bk_get (tRecords tx) seq) as [b|] eqn:Hb; [|done].
  intros H. apply bk_get_spec in Hb.
  destruct (remove_reclaims _ _ _ _ _ Hok Hb H) as (R & _ & Hs); [|done].
  split; [done|lia].
Qed.

Lemma pending_above tx : countb (fun p => p.1 <=? After (tState tx)) (pending_entries tx) = 0.
Proof.
  unfold pending_entries. induction (entries tx) as [|p l IH]; [done|]. rewrite filter_cons.
  destruct (decide _) as [Hp|_]; [|done]. unfold countb, sumZ in *. cbn. rewrite IH.
  destruct (Z.leb_spec p.1 (After (tState tx))); lia.
Qed.

Lemma ahead_head_le tx p l : ahead tx (p :: l) -> forall q, q ∈ p :: l -> p.1 <= q.1.
Proof.
  intros [Hs _] q [->|Hq]%elem_of_cons; [lia|]. pose proof (sorted_lt_in _ _ Hs q Hq). lia.
Qed.

(** Rewinding moves the cursor back, never forward. *)
Lemma rewind_walk_ok t l : forall tx tx',
  tx_ok tx -> ahead tx l -> rewind_walk t (entries tx) l tx = Ok tx' ->
  tx_ok tx' /\ tRecords tx' = tRecords tx /\ tDrops tx' = tDrops tx
  /\ After (tState tx') <= After (tState tx)
  /\ Records (tState tx') = Records (tState tx) /\ Bytes (tState tx') = Bytes (tState tx)
  /\ Pending (tState tx') = Pending (tState tx)
       + countb (fun p => p.1 <=? After (tState tx)) (pending_entries tx')
  /\ (forall p r, p ∈ l -> decode p.2 = Ok r -> t <= ObservedAt r -> After (tState tx') < p.1).
Proof.
  induction l as [|[seq b] l IH]; intros tx tx' Hok Hah; cbn [rewind_walk]; cbv zeta.
  { intros [= <-]. rewrite pending_above. split_and!; try done; [lia|]. set_solver. }
  pose proof (ahead_head_le _ _ _ Hah) as Hhd. cbn in Hhd.
  destruct (After (tState tx) <? seq) eqn:Hseq; bool_to_prop.
  { intros [= <-]. rewrite pending_above. split_and!; try done; [lia|].
    intros p r Hp _ _. specialize (Hhd p Hp). lia. }
  intros (record & Hdec & H)%bind_ok. destruct (negb (ObservedAt record <? t)) eqn:Hobs.
  - assert (Hk : 1 <= seq <= bk_sequence (tRecords tx)).
    { apply (co_keys _ (proj1 Hok) (seq, b)), Hah. set_solver. }
    assert (Epend : from_key seq (entries tx) = filter (fun p => seq - 1 < p.1) (entries tx)).
    { unfold from_key. apply list_filter_iff. intros p. lia. }
    injection H as <-. split_and!; [|done|done|cbn; lia|done|done| |].
    + apply move_cursor; [done|lia|].
      pose proof (count_split (seq - 1) (After (tState tx)) (entries tx)) as Hcs.
      replace (seq - 1 + 1) with seq in Hcs by lia. rewrite Hcs by lia.
      rewrite (co_pending _ (proj1 Hok)). done.
    + unfold pending_entries. cbn. rewrite Epend. done.
    + intros p r Hp _ _. cbn. specialize (Hhd p Hp). lia.
  - destruct (IH _ _ Hok (ahead_tail _ _ _ Hah) H) as (I1 & I2 & I3 & I4 & I5 & I6 & I7 & I8).
    split_and!; try done. intros p r [->|Hp]%elem_of_cons Hr Ht; [|by eapply I8].
    cbn in Hr. bool_to_prop. assert (r = record) as -> by congruence. lia.
Qed.

(** Abandoning empties the bucket and reports what was pending. *)
Lemma abandon_walk_ok l : forall tx tx',
  tx_ok tx -> ahead tx l -> abandon_walk l tx = Ok tx' ->
  reclaims tx tx' /\ forall p, p ∈ entries tx' <-> p ∈ entries tx /\ p ∉ l.
Proof.
  induction l as [|[key b] l IH]; intros tx tx' Hok Hah; cbn [abandon_walk]; cbv zeta.
  { intros [= <-]. split; [by apply reclaims_refl|]. set_solver. }
  intros (tx1 & H1 & H)%bind_ok. pose proof (proj2 Hah (key, b) ltac:(set_solver)) as Hin.
  destruct (remove_reclaims _ _ _ _ _ Hok Hin H1) as (R1 & _ & Hsub).
  { destruct (Z.ltb_spec (After (tState tx)) key); [split; [done|lia]|done]. }
  destruct (IH _ _ (rc_ok _ _ R1) (ahead_remove _ _ _ _ Hah Hsub) H) as (R2 & Hs2).
  split; [by eapply reclaims_trans|]. intros p. rewrite Hs2, Hsub, not_elem_of_cons.
  split; [intros [[Hp Hne] Hl]; split_and!; [done|by intros ->|done]|].
  intros (Hp & Hne & Hl). split_and!; [done| |done]. intros E.
  apply Hne. destruct p as [k v]. cbn in E. subst k.
  apply bk_get_spec in Hp, Hin. congruence.
Qed.

(** ** Steps and reachability *)

Record spool_inv (s : Spool) : Prop := mkSpoolInv {
  si_tx : tx_ok (db s);
  si_records : Records (tState (db s)) <= maxRecords s;
  si_bytes : Bytes (tState (db s)) <= maxBytes s;
  si_cursor : forall c, inflight s = Some c ->
    After (tState (db s)) <= cAfter c <= bk_sequence (tRecords (db s));
}.

(** What a call does to the records owed to the consumer. *)
Inductive event : Type :=
| Quiet
| TakenIn (n : Z)                  (* records appended *)
| Noted (n : Z)                     (* losses reported by producers or inherited *)
| Delivered (n reported : Z)        (* records and reported losses acknowledged *)
| Replayed (n : Z).                 (* acknowledged records made pending again *)

Definition balance (e : event) : Z :=
  match e with
  | Quiet => 0
  | TakenIn n | Noted n | Replayed n => n
  | Delivered n reported => - n - reported
  end.

(** One call of an exported method, with any arguments. *)
Inductive spool_step (s : Spool) : event -> Spool -> Prop :=
| step_Append now records s' r :
    Append s now records = (s', r) ->
    spool_step s (if is_ok r then TakenIn (len records) else Quiet) s'
| step_AddDrops ds s' r :
    AddDrops s ds = (s', r) ->
    spool_step s (if is_ok r then Noted (sumZ dCount ds) else Quiet) s'
| step_AcknowledgeDrops acks s' r :
    AcknowledgeDrops s acks = (s', r) ->
    spool_step s (if is_ok r then Delivered 0 (sumZ DroppedCount acks) else Quiet) s'
| step_MergeDrops snapshot s' r :
    inheritable (db s) snapshot ->
    MergeDrops s snapshot = (s', r) ->
    spool_step s (if is_ok r then Noted (merge_gain (known (db s)) snapshot) else Quiet) s'
| step_Read n s' r :
    Read s n = (s', r) -> spool_step s Quiet s'
| step_Commit now cursor acks s' r :
    Commit s now cursor acks = (s', r) ->
    spool_step s
      (if is_ok r
       then Delivered (countb (fun p => p.1 <=? cAfter cursor) (pending_entries (db s)))
              (sumZ DroppedCount acks)
       else Quiet) s'
| step_Release : spool_step s Quiet (Release s)
| step_Discard record s' r :
    After (tState (db s)) < rrSequence record ->
    Discard s record = (s', r) -> spool_step s Quiet s'
| step_RewindForReplay t s' r :
    RewindForReplay s t = (s', r) ->
    spool_step s
      (Replayed (countb (fun p => p.1 <=? After (tState (db s))) (pending_entries (db s')))) s'
| step_Abandon s' r :
    Abandon s = (s', r) -> spool_step s Quiet s'
| step_Close : spool_step s Quiet (Close s).

(** A run and the events it made, most recent last. *)
Inductive run : Spool -> list event -> Spool -> Prop :=
| run_nil s : run s [] s
| run_step s es s1 e s2 : run s es s1 -> spool_step s1 e s2 -> run s (es ++ [e]) s2.

(** *** One step *)

Lemma update_cases s fn s' r :
  update s fn = (s', r) ->
  (exists tx, fn (db s) = Ok tx /\ s' = s <| db := tx |> /\ r = Ok tt)
  \/ (s' = s /\ exists e, r = Err e).
Proof.
  unfold update. destruct (fn (db s)) as [tx|e]; [|intros [= <- <-]; eauto].
  destruct (commit tx) as [e|]; intros [= <- <-]; eauto.
Qed.

Lemma spoolError_ok {A} (r : result SpoolError A) a : spoolError r = Ok a <-> r = Ok a.
Proof. destruct r as [x|[]]; naive_solver. Qed.

(** The step facts: the invariant and the balance. *)
Definition steps_well (s : Spool) (e : event) (s' : Spool) : Prop :=
  spool_inv s' /\ ledger (db s') ≡64 ledger (db s) + balance e.

Lemma quiet_well s s' :
  spool_inv s -> db s' = db s -> maxRecords s' = maxRecords s -> maxBytes s' = maxBytes s ->
  (inflight s' = inflight s \/ inflight s' = None) -> steps_well s Quiet s'.
Proof.
  intros [H1 H2 H3 H4] E1 E2 E3 E4. split; [split; rewrite ?E1, ?E2, ?E3; try done|].
  - intros c Hc. apply H4. destruct E4; congruence.
  - rewrite E1. cbn. by rewrite Z.add_0_r.
Qed.

(** A transaction that keeps the cursor and stays within the caps. *)
Lemma tx_well s tx e :
  spool_inv s -> tx_ok tx -> After (tState tx) = After (tState (db s)) ->
  bk_sequence (tRecords (db s)) <= bk_sequence (tRecords tx) ->
  Records (tState tx) <= maxRecords s -> Bytes (tState tx) <= maxBytes s ->
  ledger tx ≡64 ledger (db s) + balance e ->
  steps_well s e (s <| db := tx |>).
Proof.
  intros [H1 H2 H3 H4] Hok Ha Hs Hr Hb Hl. split; [split; cbn; try done|done].
  intros c Hc. rewrite Ha. specialize (H4 c Hc). lia.
Qed.

Lemma reclaims_well s tx :
  spool_inv s -> reclaims (db s) tx -> steps_well s Quiet (s <| db := tx |>).
Proof.
  intros Hi R. pose proof (rc_records _ _ R). pose proof (rc_bytes _ _ R).
  pose proof (si_records _ Hi). pose proof (si_bytes _ Hi).
  apply tx_well; [done|apply R|apply R| |lia|lia|].
  - rewrite (sh_sequence _ _ (rc_shrinks _ _ R)). lia.
  - rewrite (rc_ledger _ _ R). cbn. by rewrite Z.add_0_r.
Qed.

(** A transaction on the summaries alone. *)
Lemma summaries_well s tx e :
  spool_inv s -> drops_ok tx -> same_records (db s) tx ->
  drop_total tx ≡64 drop_total (db s) + balance e ->
  steps_well s e (s <| db := tx |>).
Proof.
  intros Hi Hd [A B] Ht. destruct (si_tx _ Hi) as [[C1 C2 C3 C4 C5] _].
  apply tx_well; rewrite ?A, ?B; [done| |done|lia|apply Hi|apply Hi|].
  - split; [|done]. split; unfold entries; by rewrite ?A, ?B.
  - unfold ledger. rewrite B, Ht, Z.add_assoc. done.
Qed.

Lemma Append_well s now records s' r :
  spool_inv s -> Append s now records = (s', r) ->
  steps_well s (if is_ok r then TakenIn (len records) else Quiet) s'.
Proof.
  intros Hi. unfold Append. destruct records as [|r0 records].
  { intros [= <- <-]. apply (quiet_well s s); auto. }
  destruct (encode_all (r0 :: records)) as [encoded|e] eqn:He;
    [|intros [= <- <-]; apply quiet_well; auto].
  destruct ((maxBytes s <? _) || _); [intros [= <- <-]; apply quiet_well; auto|].
  destruct (update s _) as [s1 r1] eqn:Hu. intros [= <- <-].
  apply update_cases in Hu as [(tx & Hfn & -> & ->)|(-> & e & ->)].
  - destruct (append_tx_ok _ _ _ _ _ (si_tx _ Hi) Hfn) as (O & A & S & Hr & Hb & L & _ & _).
    cbn [spoolError is_ok]. apply tx_well; try done.
    + rewrite S. pose proof (len_nonneg encoded). lia.
    + rewrite L. cbn [balance]. rewrite (encode_all_len _ _ He). done.
  - destruct e; apply quiet_well; auto.
Qed.

Lemma decode_batch_keys l : forall ds, decode_batch l = Ok ds -> ds.*2 = l.*1
  /\ Forall2 (fun p d => decode p.2 = Ok d) l ds.*1.
Proof.
  induction l as [|[key b] l IH]; intros ds; cbn [decode_batch]; [by intros [= <-]|].
  intros (rec & Hr & H)%bind_ok. apply bind_ok in H as (rest & Hrest & [= <-]).
  destruct (IH _ Hrest) as [E F]. cbn. rewrite E. auto.
Qed.

Lemma from_key_pending tx :
  from_key (After (tState tx) + 1) (bk_list (tRecords tx)) = pending_entries tx.
Proof. unfold from_key, pending_entries, entries. apply list_filter_iff. intros p. lia. Qed.

(** A successful read: the first pending records, and a cursor at the last. *)
Lemma Read_ok s n s' records cursor :
  Read s n = (s', Ok (records, cursor)) ->
  inflight s = None /\ db s' = db s /\ maxRecords s' = maxRecords s /\ maxBytes s' = maxBytes s
  /\ inflight s' = Some cursor
  /\ map rrSequence records = (take (Z.to_nat n) (pending_entries (db s))).*1
  /\ Forall2 (fun p r => decode p.2 = Ok r) (take (Z.to_nat n) (pending_entries (db s)))
       (map rrRecord records)
  /\ Forall (fun r => rrCursor r = cursor) records
  /\ cAfter cursor = default (After (tState (db s))) (last (map rrSequence records)).
Proof.
  unfold Read. destruct (inflight s) as [c|]; [done|]. cbv zeta. cbn.
  rewrite from_key_pending. set (batch := take _ _).
  destruct (decode_batch batch) as [ds|e] eqn:Hd; [|done].
  destruct (decode_batch_keys _ _ Hd) as [Hk Hf]. intros [= <- <- <-].
  rewrite !map_map. cbn. rewrite Forall_map. split_and!; try done.
  - by rewrite Forall_forall.
  - change (map (fun x => x.2) ds) with ds.*2. by rewrite fmap_last.
Qed.

Lemma pending_bounds s p :
  spool_inv s -> p ∈ pending_entries (db s) ->
  After (tState (db s)) < p.1 <= bk_sequence (tRecords (db s)).
Proof.
  intros Hi Hp. unfold pending_entries in Hp. apply list_elem_of_filter in Hp as [Hlt Hp].
  pose proof (co_keys _ (proj1 (si_tx _ Hi)) p Hp). lia.
Qed.

Lemma Read_well s n s' r : spool_inv s -> Read s n = (s', r) -> steps_well s Quiet s'.
Proof.
  intros Hi H. destruct r as [[records cursor]|e].
  - destruct (Read_ok _ _ _ _ _ H) as (_ & E & M1 & M2 & Hin & Hk & _ & _ & Hc).
    split; [|rewrite E; cbn; by rewrite Z.add_0_r].
    destruct Hi as [H1 H2 H3 H4]. split; rewrite ?E, ?M1, ?M2; try done.
    intros c Hc'. assert (c = cursor) as -> by congruence. rewrite Hc.
    destruct (last (map rrSequence records)) as [k|] eqn:Hl; cbn; [|split; [lia|apply H1]].
    rewrite Hk in Hl. apply last_Some_elem_of in Hl. apply list_elem_of_fmap in Hl as (p & -> & Hp).
    apply elem_of_take in Hp as (i & Hp & _). apply list_elem_of_lookup_2 in Hp.
    pose proof (pending_bounds s p (mkSpoolInv _ H1 H2 H3 H4) Hp). lia.
  - revert H. unfold Read. destruct (inflight s) eqn:Hf; [intros [= <- <-]; apply quiet_well; auto|].
    cbv zeta. destruct (decode_batch _); [done|]. intros [= <- <-]. apply quiet_well; auto.
Qed.

Lemma Commit_well s now cursor acks s' r :
  spool_inv s -> Commit s now cursor acks = (s', r) ->
  steps_well s
    (if is_ok r
     then Delivered (countb (fun p => p.1 <=? cAfter cursor) (pending_entries (db s)))
            (sumZ DroppedCount acks)
     else Quiet) s'.
Proof.
  intros Hi. unfold Commit. destruct (decide _) as [Hin|_]; [|intros [= <- <-]; apply quiet_well; auto].
  destruct (update s _) as [s1 r1] eqn:Hu. intros [= <- <-].
  apply update_cases in Hu as [(tx & Hfn & -> & ->)|(-> & e & ->)].
  - destruct (commit_tx_ok _ _ _ _ _ _ (si_tx _ Hi) (si_cursor _ Hi _ Hin) Hfn)
      as (O & A & S & Hr & Hb & _ & L).
    pose proof (si_records _ Hi). pose proof (si_bytes _ Hi).
    split; [split; cbn; [done|lia|lia|done]|]. cbn. rewrite L.
    rewrite Z.add_sub_assoc, Z.add_opp_r. done.
  - destruct e; apply quiet_well; auto.
Qed.

Lemma Discard_well s record s' r :
  spool_inv s -> After (tState (db s)) < rrSequence record -> Discard s record = (s', r) ->
  steps_well s Quiet s'.
Proof.
  intros Hi Hlt. unfold Discard. destruct (decide _) as [Hin|_]; [|intros [= <- <-]; apply quiet_well; auto].
  destruct (update s _) as [s1 r1] eqn:Hu. intros [= <- _].
  apply update_cases in Hu as [(tx & Hfn & -> & ->)|(-> & e & ->)]; [|apply quiet_well; auto].
  apply reclaims_well; [done|]. by eapply discard_tx_ok; [apply Hi|..].
Qed.

Lemma Rewind_well s t s' r :
  spool_inv s -> RewindForReplay s t = (s', r) ->
  steps_well s
    (Replayed (countb (fun p => p.1 <=? After (tState (db s))) (pending_entries (db s')))) s'.
Proof.
  intros Hi. unfold RewindForReplay.
  assert (Hq : steps_well s
    (Replayed (countb (fun p => p.1 <=? After (tState (db s))) (pending_entries (db s)))) s).
  { rewrite pending_above. apply (quiet_well s s); auto. }
  destruct (inflight s) eqn:Hf; [by intros [= <- <-]|]. intros Hu.
  apply update_cases in Hu as [(tx & Hfn & -> & ->)|(-> & e & ->)]; [|done].
  destruct (rewind_walk_ok _ _ _ _ (si_tx _ Hi) (ahead_all _) Hfn) as (O & A & D & _ & R & B & P & _).
  pose proof (si_records _ Hi). pose proof (si_bytes _ Hi).
  split; [split; cbn; [done|lia|lia|congruence]|].
  unfold ledger, drop_total. cbn. rewrite P, D. rewrite Z.add_shuffle0. done.
Qed.

Lemma Abandon_well s s' r : spool_inv s -> Abandon s = (s', r) -> steps_well s Quiet s'.
Proof.
  intros Hi. unfold Abandon. destruct (inflight s); [intros [= <- <-]; apply quiet_well; auto|].
  intros [(tx & Hfn & -> & ->)|(-> & e & ->)]%update_cases; [|apply quiet_well; auto].
  apply reclaims_well; [done|]. by eapply abandon_walk_ok; [apply Hi|apply ahead_all|].
Qed.

Lemma step_well s e s' : spool_inv s -> spool_step s e s' -> steps_well s e s'.
Proof.
  intros Hi Hs. destruct Hs as [now records s' r H|ds s' r H|acks s' r H|snapshot s' r Hin H
    |n s' r H|now cursor acks s' r H| |record s' r Hlt H|t s' r H|s' r H|].
  - by eapply Append_well.
  - unfold AddDrops in H. destruct (update s _) as [s1 r1] eqn:Hu. injection H as <- <-.
    apply update_cases in Hu as [(tx & Hfn & -> & ->)|(-> & e & ->)];
      [|destruct e; apply quiet_well; auto].
    destruct (addDrops_ledger _ _ _ (proj2 (si_tx _ Hi)) Hfn) as (O & T & F). by apply summaries_well.
  - unfold AcknowledgeDrops in H. destruct (update s _) as [s1 r1] eqn:Hu. injection H as <- <-.
    apply update_cases in Hu as [(tx & Hfn & -> & ->)|(-> & e & ->)];
      [|destruct e; apply quiet_well; auto].
    destruct (acknowledgeDrops_ledger _ _ _ (proj2 (si_tx _ Hi)) Hfn) as (O & T & F).
    apply summaries_well; try done. by rewrite T.
  - unfold MergeDrops in H. destruct (update s _) as [s1 r1] eqn:Hu. injection H as <- <-.
    apply update_cases in Hu as [(tx & Hfn & -> & ->)|(-> & e & ->)];
      [|destruct e; apply quiet_well; auto].
    destruct (mergeDrops_ok _ _ _ (proj2 (si_tx _ Hi)) Hin Hfn) as (O & F & T & _).
    apply summaries_well; try done. by rewrite T.
  - by eapply Read_well.
  - by eapply Commit_well.
  - apply quiet_well; auto.
  - by eapply Discard_well.
  - by eapply Rewind_well.
  - by eapply Abandon_well.
  - apply quiet_well; auto.
Qed.

(** ** What the spool promises *)

Section Opened.
Hypothesis rb0_empty : bk_list rb0 = [].
Hypothesis rb0_sequence : bk_sequence rb0 = 0.
Hypothesis sb0_empty : bk_list sb0 = [].

(** A spool opened on a directory that holds no database yet. *)
Definition opened_new (cfg : SpoolConfig) (env : OpenEnv) (s : Spool) : Prop :=
  env_db env = Ok None /\ OpenSpool cfg env = Ok s.

Lemma opened_new_db cfg env s :
  opened_new cfg env s ->
  db s = mkTx rb0 zero_state sb0 ib0 0 /\ inflight s = None /\ 0 < maxBytes s /\ 0 < maxRecords s
  /\ diskLimit s = 4 * maxBytes s + spoolDiskReserve /\ diskLimit s <= 2 ^ 63 - 1.
Proof.
  intros [Hdb H]. unfold OpenSpool in H. apply bind_ok in H as ([] & _ & H). cbv zeta in H.
  apply bind_ok in H as ([] & Hcap & H). apply bind_ok in H as ([] & _ & H).
  apply bind_ok in H as (l & _ & H). apply bind_ok in H as ([] & _ & H).
  rewrite Hdb in H. apply bind_ok in H as (st & Hst & H). injection Hst as <-.
  apply bind_ok in H as ([] & _ & H). apply bind_ok in H as ([] & _ & [= <-]).
  unfold guard_err in Hcap. destruct (_ <? _) eqn:E in Hcap; [done|]. apply Z.ltb_ge in E.
  cbn -[Z.pow Z.mul Z.quot defaultSpoolMaxBytes spoolDiskReserve defaultSpoolMaxRecords] in *.
  split_and!; try done.
  - destruct (Z.leb_spec (cfgMaxBytes cfg) 0); [done|lia].
  - destruct (Z.leb_spec (cfgMaxRecords cfg) 0); [done|lia].
  - revert E. generalize (if cfgMaxBytes cfg <=? 0 then defaultSpoolMaxBytes else cfgMaxBytes cfg).
    intros m E. change spoolDiskReserve with 8388608 in *.
    change ((2 ^ 63 - 1 - 8388608) ÷ 4) with 2305843009211596799 in E. lia.
Qed.

Lemma opened_new_inv cfg env s : opened_new cfg env s -> spool_inv s /\ ledger (db s) = 0.
Proof.
  intros H. destruct (opened_new_db _ _ _ H) as (E & Hf & Hb & Hr & _). rewrite E.
  split.
  - split; rewrite ?E; cbn; [|lia|lia|congruence]. split; split; unfold entries; cbn; rewrite ?rb0_empty;
      try done; [set_solver|lia| |].
    + intros id b Hb'. apply bk_get_spec in Hb'. rewrite sb0_empty in Hb'. set_solver.
    + intros n _. apply eq_None_not_Some. intros [b Hb']. apply bk_get_spec in Hb'.
      rewrite sb0_empty in Hb'. set_solver.
  - unfold ledger, drop_total. cbn. by rewrite sb0_empty.
Qed.

Lemma run_well cfg env s0 es s :
  opened_new cfg env s0 -> run s0 es s ->
  spool_inv s /\ ledger (db s) ≡64 sumZ balance es.
Proof.
  intros Ho Hr. induction Hr as [s|s es s1 e s2 _ IH Hs].
  - destruct (opened_new_inv _ _ _ Ho) as [Hi ->]. done.
  - destruct (IH Ho) as [Hi1 L1]. destruct (step_well _ _ _ Hi1 Hs) as [Hi2 L2]. split; [done|].
    rewrite L2, L1, sumZ_app. unfold sumZ at 3. cbn [foldr]. by rewrite Z.add_0_r.
Qed.

(** After any sequence of calls on a newly opened spool, with any
    arguments and whether or not they succeed, the stored counters equal what
    the bucket holds (records, encoded bytes, records above the cursor), both
    caps hold, and the cursor of an outstanding read lies between the acknowledged prefix and the last sequence issued. *)
Theorem spool_counters_invariant cfg env s0 es s :
  opened_new cfg env s0 -> run s0 es s ->
  Records (tState (db s)) = len (entries (db s))
  /\ Bytes (tState (db s)) = sumZ (fun p => entry_bytes p.2) (entries (db s))
  /\ Pending (tState (db s)) = len (pending_entries (db s))
  /\ len (entries (db s)) <= maxRecords s
  /\ sumZ (fun p => entry_bytes p.2) (entries (db s)) <= maxBytes s
  /\ (forall c, inflight s = Some c ->
        After (tState (db s)) <= cAfter c <= bk_sequence (tRecords (db s))).
Proof.
  intros Ho Hr. destruct (run_well _ _ _ _ _ Ho Hr) as [[[[H1 H2 H3 H4 H5] _] Hrec Hbyt Hc] _].
  rewrite <- H1, <- H2. split_and!; try done. rewrite H3. apply countb_filter. intros p. apply Z.ltb_lt.
Qed.

(** C34: Nothing is lost silently.  After any sequence of calls on a newly
    opened spool, the unacknowledged records plus the losses its summaries
    report equal, modulo the 64 bits of the counters, everything admitted,
    noted and replayed less everything delivered and acknowledged. *)
Theorem spool_conserves_records cfg env s0 es s :
  opened_new cfg env s0 -> run s0 es s ->
  Pending (tState (db s)) + drop_total (db s) ≡64 sumZ balance es.
Proof. intros Ho Hr. apply (run_well _ _ _ _ _ Ho Hr). Qed.
End Opened.

(** The eviction loop of [Append] always ends: with the batch within the
    caps, as many rounds as there are records decide its result, and more
    rounds do not change it. *)
Theorem append_loop_terminates s now bytes n tx :
  tx_ok tx -> bytes <= maxBytes s -> n <= maxRecords s ->
  exists r, forall fuel, (length (entries tx) <= fuel)%nat -> make_room fuel s now bytes n tx = Some r.
Proof.
  intros Hok Hb Hn.
  destruct (make_room (length (entries tx)) s now bytes n tx) as [r|] eqn:E.
  - exists r. intros fuel Hf. by eapply make_room_mono.
  - by destruct (make_room_fuel _ s now bytes n tx Hok Hb Hn (Nat.le_refl _)).
Qed.

(** A failed [Append] leaves the spool as it was.  A successful one ends
    with the encoded batch, in order, behind what it kept, under sequence
    numbers never issued before; it evicts no record of an outstanding read and
    does not move the cursor. *)
Theorem Append_admits_in_order s now records s' r :
  spool_inv s -> Append s now records = (s', r) ->
  match r with
  | Err _ => s' = s
  | Ok _ => exists encoded kept new,
      encode_all records = Ok encoded
      /\ entries (db s') = kept ++ new /\ new.*2 = encoded
      /\ (forall p, p ∈ kept -> p ∈ entries (db s))
      /\ (forall p, p ∈ new -> bk_sequence (tRecords (db s)) < p.1)
      /\ (forall p, p ∈ entries (db s) -> pinned s (db s) p.1 = true -> p ∈ kept)
      /\ After (tState (db s')) = After (tState (db s)) /\ inflight s' = inflight s
  end.
Proof.
  intros Hi. unfold Append. destruct records as [|r0 records].
  { intros [= <- <-]. exists ([] : list raw), (entries (db s)), ([] : list (Z * raw)). rewrite app_nil_r. set_solver. }
  destruct (encode_all (r0 :: records)) as [encoded|e] eqn:He; [|by intros [= <- <-]].
  destruct ((maxBytes s <? _) || _); [by intros [= <- <-]|].
  destruct (update s _) as [s1 r1] eqn:Hu. intros [= <- <-].
  apply update_cases in Hu as [(tx & Hfn & -> & ->)|(-> & e & ->)]; [|by destruct e].
  destruct (append_tx_ok _ _ _ _ _ (si_tx _ Hi) Hfn) as (O & A & _ & _ & _ & _ & P & kept & new & E & N & K & G).
  exists encoded, kept, new. split_and!; try done. intros p Hp Hpin. specialize (P p Hp Hpin).
  rewrite E in P. apply elem_of_app in P as [P|P]; [done|]. specialize (G p P).
  pose proof (co_keys _ (proj1 (si_tx _ Hi)) p Hp). lia.
Qed.

(** [Read] returns the oldest unacknowledged records in order, at most as
    many as asked for, and the matching [Commit], when it succeeds, makes exactly
    these no longer pending. *)
Theorem Commit_acknowledges_read s n s1 records cursor now acks s2 :
  spool_inv s -> Read s n = (s1, Ok (records, cursor)) -> Commit s1 now cursor acks = (s2, Ok tt) ->
  map rrSequence records = (take (Z.to_nat n) (pending_entries (db s))).*1
  /\ Forall2 (fun p r => decode p.2 = Ok r) (take (Z.to_nat n) (pending_entries (db s)))
       (map rrRecord records)
  /\ pending_entries (db s2) = drop (Z.to_nat n) (pending_entries (db s))
  /\ inflight s2 = None.
Proof.
  intros Hi HR HC. pose proof (Read_well _ _ _ _ Hi HR) as [Hi1 _].
  destruct (Read_ok _ _ _ _ _ HR) as (_ & E & _ & _ & Hin & Hk & Hf & _ & Hc).
  revert HC. unfold Commit. rewrite decide_True by done.
  destruct (update s1 _) as [s' r'] eqn:Hu. intros [= <- Hr].
  apply update_cases in Hu as [(tx & Hfn & -> & ->)|(-> & e & ->)]; [|by destruct e].
  destruct (commit_tx_ok _ _ _ _ _ _ (si_tx _ Hi1) (si_cursor _ Hi1 _ Hin) Hfn) as (_ & _ & _ & _ & _ & P & _).
  split_and!; try done. cbn. rewrite P, E, Hc, Hk. apply filter_after_take.
  - apply filter_ascending, bk_ascending.
  - intros p Hp. by apply pending_bounds.
Qed.

Lemma summaries_keep s fn s' r :
  (forall tx, fn (db s) = Ok tx -> same_records (db s) tx) ->
  update s fn = (s', r) -> entries (db s') = entries (db s).
Proof.
  intros Hf [(tx & Hfn & -> & _)|(-> & _)]%update_cases; [|done].
  destruct (Hf _ Hfn) as [A _]. cbn. unfold entries. by rewrite A.
Qed.

(** While a read is outstanding, no call other than [Discard] of that very
    record takes one of its records away. *)
Theorem outstanding_records_stay s e s' c p :
  spool_inv s -> spool_step s e s' -> inflight s = Some c -> inflight s' = Some c ->
  p ∈ pending_entries (db s) -> p.1 <= cAfter c ->
  p ∈ entries (db s')
  \/ exists record, rrSequence record = p.1 /\ rrCursor record = c /\ Discard s record = (s', Ok tt).
Proof.
  intros Hi Hs Hc Hc' Hp Hle. pose proof Hp as Hpend.
  unfold pending_entries in Hp. apply list_elem_of_filter in Hp as [Hlt Hp].
  assert (Hkeep : entries (db s') = entries (db s) -> p ∈ entries (db s')) by (by intros ->).
  destruct Hs as [now records s' r H|ds s' r H|acks s' r H|snapshot s' r Hin H
    |n s' r H|now cursor acks s' r H| |record s' r Hl H|t s' r H|s' r H|]; try done.
  - left. unfold Append in H. destruct records as [|r0 records]; [by injection H as <- <-|].
    destruct (encode_all _) as [encoded|]; [|by injection H as <- <-].
    destruct (_ || _); [by injection H as <- <-|].
    destruct (update s _) as [s1 r1] eqn:Hu. injection H as <- <-.
    apply update_cases in Hu as [(tx & Hfn & -> & _)|(-> & _)]; [|auto].
    eapply append_tx_ok; [apply Hi|exact Hfn|done|]. unfold pinned. rewrite Hc.
    rewrite (proj2 (Z.ltb_lt _ _) Hlt), (proj2 (Z.leb_le _ _) Hle). done.
  - left. unfold AddDrops in H. destruct (update s _) as [s1 r1] eqn:Hu. injection H as <- <-.
    apply Hkeep. eapply summaries_keep; [|exact Hu]. intros tx Hfn.
    apply (addDrops_ledger _ _ _ (proj2 (si_tx _ Hi)) Hfn).
  - left. unfold AcknowledgeDrops in H. destruct (update s _) as [s1 r1] eqn:Hu. injection H as <- <-.
    apply Hkeep. eapply summaries_keep; [|exact Hu]. intros tx Hfn.
    apply (acknowledgeDrops_ledger _ _ _ (proj2 (si_tx _ Hi)) Hfn).
  - left. unfold MergeDrops in H. destruct (update s _) as [s1 r1] eqn:Hu. injection H as <- <-.
    apply Hkeep. eapply summaries_keep; [|exact Hu]. intros tx Hfn.
    apply (mergeDrops_ok _ _ _ (proj2 (si_tx _ Hi)) Hin Hfn).
  - left. unfold Read in H. rewrite Hc in H. by injection H as <- <-.
  - unfold Commit in H. destruct (decide _); [|injection H as <- <-; auto].
    destruct (update s _) as [s1 r1]. injection H as <- <-. done.
  - revert H. unfold Discard. destruct (decide _) as [Hr|_]; [|intros [= <- <-]; auto].
    destruct (update s _) as [s1 r1] eqn:Hu. intros [= <- <-].
    pose proof Hu as Hu'. apply update_cases in Hu as [(tx & Hfn & -> & ->)|(-> & _)]; [|auto].
    destruct (discard_tx_ok _ _ _ (si_tx _ Hi) Hl Hfn) as [_ Hsub].
    destruct (decide (p.1 = rrSequence record)) as [E|E]; [|left; by apply Hsub].
    right. exists record. split_and!; [done|congruence|]. rewrite decide_True by done. by rewrite Hu'.
  - left. unfold RewindForReplay in H. rewrite Hc in H. by injection H as <- <-.
  - left. unfold Abandon in H. rewrite Hc in H. by injection H as <- <-.
Qed.

(** A successful [Abandon] leaves no record, and its summaries report
    exactly the records that were still unacknowledged. *)
Theorem Abandon_reports_pending s s' :
  spool_inv s -> Abandon s = (s', Ok tt) ->
  entries (db s') = [] /\ Pending (tState (db s')) = 0 /\ Bytes (tState (db s')) = 0
  /\ drop_total (db s') ≡64 drop_total (db s) + len (pending_entries (db s)).
Proof.
  intros Hi. unfold Abandon. destruct (inflight s); [done|].
  intros [(tx & Hfn & -> & _)|(-> & e & H)]%update_cases; [|done].
  destruct (abandon_walk_ok _ _ _ (si_tx _ Hi) (ahead_all _) Hfn) as [R Hs]. cbn.
  assert (E : entries tx = []).
  { destruct (entries tx) as [|p l]; [done|]. destruct (Hs p) as [H _]. unfold entries in H. set_solver. }
  destruct (rc_ok _ _ R) as [[_ Hb Hp _ _] _]. rewrite E in Hb, Hp. split_and!; try done.
  pose proof (rc_ledger _ _ R) as L. unfold ledger in L. rewrite Hp in L. cbn in L. rewrite L.
  rewrite (co_pending _ (proj1 (si_tx _ Hi))).
  rewrite (countb_filter (fun p => After (tState (db s)) < p.1)) by (intros; apply Z.ltb_lt).
  by rewrite Z.add_comm.
Qed.

(** Inheriting summaries is idempotent: after a snapshot was merged,
    merging it again succeeds (if the database still commits) and changes
    nothing, so a retried recovery never counts a loss twice. *)
Theorem MergeDrops_idempotent s snapshot s' :
  spool_inv s -> inheritable (db s) snapshot -> MergeDrops s snapshot = (s', Ok tt) ->
  MergeDrops s' snapshot = (s', Ok tt).
Proof.
  intros Hi Hin. unfold MergeDrops at 1. destruct (update s _) as [s1 r1] eqn:Hu. intros [= -> Hr].
  pose proof Hu as Hu'. apply update_cases in Hu as [(tx & Hfn & -> & ->)|(-> & e & ->)]; [|by destruct e].
  destruct (mergeDrops_ok _ _ _ (proj2 (si_tx _ Hi)) Hin Hfn) as (O & _ & _ & _ & _ & Hcov).
  unfold update in Hu'. rewrite Hfn in Hu'. unfold MergeDrops, update.
  change (db (s <| db := tx |>)) with tx. rewrite (mergeDrops_covered snapshot tx O Hcov).
  by destruct (commit tx).
Qed.

(** A successful rewind never skips an unacknowledged record: the cursor
    only moves back, and afterwards every retained record observed at or after
    the requested time is pending again. *)
Theorem RewindForReplay_replays s t s' :
  spool_inv s -> RewindForReplay s t = (s', Ok tt) ->
  After (tState (db s')) <= After (tState (db s))
  /\ entries (db s') = entries (db s)
  /\ (forall p, p ∈ pending_entries (db s) -> p ∈ pending_entries (db s'))
  /\ (forall p r, p ∈ entries (db s) -> decode p.2 = Ok r -> t <= ObservedAt r ->
        p ∈ pending_entries (db s')).
Proof.
  intros Hi. unfold RewindForReplay. destruct (inflight s); [done|].
  intros [(tx & Hfn & -> & _)|(-> & e & H)]%update_cases; [|done].
  destruct (rewind_walk_ok _ _ _ _ (si_tx _ Hi) (ahead_all _) Hfn) as (_ & A & _ & Hle & _ & _ & _ & Hr).
  cbn. unfold pending_entries, entries in *. rewrite A. split_and!; [done|done| |].
  - intros p. rewrite !list_elem_of_filter. intros [? ?]. split; [lia|done].
  - intros p r Hp Hd Ht. apply list_elem_of_filter. split; [|done]. by eapply Hr.
Qed.
End Spool.

(** ** A concrete spool

    Finite maps for the buckets, values stored as themselves: three records
    through a spool that holds two. *)

#[local] Instance demo_records : Codec SpoolError LogRecord LogRecord :=
  IdCodec (fun r => Z.of_nat (String.length (Payload r))).
#[local] Instance demo_records_laws : CodecLaws SpoolError LogRecord LogRecord := IdCodec_laws _.
#[local] Instance demo_summaries : Codec SpoolError LogDropSummary LogDropSummary := IdCodec (fun _ => 40).
#[local] Instance demo_summaries_laws : CodecLaws SpoolError LogDropSummary LogDropSummary := IdCodec_laws _.

Definition demo_json (k : DropKey) : string := dkServiceID k +:+ "/" +:+ dkReason k.
Definition demo_id (n : nat) : string := "drop-" +:+ pretty n.
Lemma demo_id_inj n m : demo_id n = demo_id m -> n = m.
Proof. intros H. injection H as H. by apply pretty_nat_inj in H. Qed.

Definition demo_rb : MapBucket Z LogRecord := mkMapBucket ∅ 0.
Definition demo_sb : MapBucket string LogDropSummary := mkMapBucket ∅ 0.
Lemma demo_rb_empty : bk_list demo_rb = [].
Proof. vm_compute. reflexivity. Qed.
Lemma demo_sb_empty : bk_list demo_sb = [].
Proof. vm_compute. reflexivity. Qed.
Definition demo_ib : MapBucket string string := mkMapBucket ∅ 0.
Definition demo_tx : Type :=
  @Tx (MapBucket Z LogRecord) (MapBucket string LogDropSummary) (MapBucket string string).
Definition demo_commit (_ : demo_tx) : option SpoolError := None.

Definition demo_cfg : SpoolConfig := mkSpoolConfig false "/spool" 1000 2 false 0.
Definition demo_env := mkOpenEnv None (Ok []) (Ok (None : option demo_tx)) None 7.
Definition demo_line (n : Z) : LogRecord :=
  mkRecord (zero_DropKey <| dkServiceID := "web" |>) (n * second) "line".

Definition demo_s0 := mkSpool (mkTx demo_rb zero_state demo_sb demo_ib 0) 1000 2 (4000 + 8388608) false 0 None 0 7.
Definition demo_append s n := Append demo_json demo_id demo_commit s 0 [demo_line n].
Definition demo_s1 := (demo_append demo_s0 1).1.
Definition demo_s2 := (demo_append demo_s1 2).1.
Definition demo_s3 := (demo_append demo_s2 3).1.

Lemma demo_opened : opened_new demo_commit demo_rb demo_sb demo_ib demo_cfg demo_env demo_s0.
Proof. split; vm_compute; reflexivity. Qed.

Lemma demo_step s n s' :
  demo_append s n = (s', Ok tt) -> spool_step demo_json demo_id demo_commit s (TakenIn 1) s'.
Proof. apply (step_Append _ _ _ s 0 [demo_line n] s' (Ok tt)). Qed.

Lemma demo_run : run demo_json demo_id demo_commit demo_s0 [TakenIn 1; TakenIn 1; TakenIn 1] demo_s3.
Proof.
  apply (run_step _ _ _ _ [TakenIn 1; TakenIn 1] demo_s2); [apply (run_step _ _ _ _ [TakenIn 1] demo_s1);
    [apply (run_step _ _ _ _ [] demo_s0); [constructor|]|]|].
  - apply (demo_step _ 1). vm_compute. reflexivity.
  - apply (demo_step _ 2). vm_compute. reflexivity.
  - apply (demo_step _ 3). vm_compute. reflexivity.
Qed.

Lemma demo_inv : spool_inv demo_id demo_s3.
Proof.
  apply (run_well demo_json demo_id demo_commit demo_rb demo_sb demo_ib demo_id_inj
    demo_rb_empty eq_refl demo_sb_empty demo_cfg demo_env demo_s0 [TakenIn 1; TakenIn 1; TakenIn 1] demo_s3);
    [apply demo_opened|apply demo_run].
Qed.

(** Three appends leave two records; the third was evicted and reported. *)
Lemma spool_counters_invariant_witness :
  len (entries (db demo_s3)) = 2 /\ Records (tState (db demo_s3)) = len (entries (db demo_s3)).
Proof.
  split; [vm_compute; reflexivity|].
  apply (spool_counters_invariant demo_json demo_id demo_commit demo_rb demo_sb demo_ib demo_id_inj
    demo_rb_empty eq_refl demo_sb_empty demo_cfg demo_env demo_s0 [TakenIn 1; TakenIn 1; TakenIn 1] demo_s3);
    [apply demo_opened|apply demo_run].
Defined.

Lemma spool_conserves_records_witness :
  drop_total (db demo_s3) = 1 /\ Pending (tState (db demo_s3)) + drop_total (db demo_s3) ≡64 3.
Proof.
  split; [vm_compute; reflexivity|].
  apply (spool_conserves_records demo_json demo_id demo_commit demo_rb demo_sb demo_ib demo_id_inj
    demo_rb_empty eq_refl demo_sb_empty demo_cfg demo_env demo_s0 [TakenIn 1; TakenIn 1; TakenIn 1] demo_s3);
    [apply demo_opened|apply demo_run].
Defined.

Lemma append_loop_terminates_witness :
  exists r, forall fuel, (length (entries (db demo_s3)) <= fuel)%nat ->
    make_room demo_json demo_id fuel demo_s3 0 12 1 (db demo_s3) = Some r.
Proof.
  apply (append_loop_terminates demo_json demo_id demo_commit demo_id_inj demo_s3 0 12 1 (db demo_s3));
    [apply demo_inv|vm_compute; discriminate..].
Defined.

Lemma demo_append4 : demo_append demo_s3 4 = ((demo_append demo_s3 4).1, Ok tt).
Proof. vm_compute. reflexivity. Qed.

Lemma Append_admits_in_order_witness :
  exists encoded kept new, encode_all [demo_line 4] = Ok encoded
    /\ entries (db (demo_append demo_s3 4).1) = kept ++ new /\ new.*2 = encoded.
Proof.
  destruct (Append_admits_in_order demo_json demo_id demo_commit demo_id_inj demo_s3 0 [demo_line 4]
    (demo_append demo_s3 4).1 (Ok tt) demo_inv demo_append4)
    as (encoded & kept & new & H1 & H2 & H3 & _).
  exists encoded, kept, new. auto.
Defined.

Definition demo_read := Read demo_s3 1.
Definition demo_cursor : Cursor := mkCursor 2 1 7.
Definition demo_s4 := demo_read.1.
Definition demo_s5 := (Commit demo_json demo_id demo_commit demo_s4 0 demo_cursor []).1.

Lemma demo_read_ok : demo_read = (demo_s4, Ok ([mkReadRecord (demo_line 2) 2 demo_cursor], demo_cursor)).
Proof. vm_compute. reflexivity. Qed.
Lemma demo_commit_ok :
  Commit demo_json demo_id demo_commit demo_s4 0 demo_cursor [] = (demo_s5, Ok tt).
Proof. vm_compute. reflexivity. Qed.

Lemma Commit_acknowledges_read_witness :
  pending_entries (db demo_s5) = drop 1 (pending_entries (db demo_s3)) /\ inflight demo_s5 = None.
Proof.
  destruct (Commit_acknowledges_read demo_json demo_id demo_commit demo_id_inj demo_s3 1 demo_s4
    [mkReadRecord (demo_line 2) 2 demo_cursor] demo_cursor 0 [] demo_s5 demo_inv
    demo_read_ok demo_commit_ok) as (_ & _ & H1 & H2).
  exact (conj H1 H2).
Defined.

Lemma demo_inv4 : spool_inv demo_id demo_s4.
Proof.
  eapply (Read_well demo_id demo_s3 1 demo_s4 demo_read.2); [apply demo_inv|vm_compute; reflexivity].
Qed.

(** With record 2 outstanding, the next append evicts record 3 instead. *)
Lemma outstanding_records_stay_witness :
  (2, demo_line 2) ∈ entries (db (demo_append demo_s4 4).1)
  \/ exists record, rrSequence record = 2 /\ rrCursor record = demo_cursor
       /\ Discard demo_json demo_id demo_commit demo_s4 record = ((demo_append demo_s4 4).1, Ok tt).
Proof.
  apply (outstanding_records_stay demo_json demo_id demo_commit demo_id_inj demo_s4 (TakenIn 1)
    (demo_append demo_s4 4).1 demo_cursor (2, demo_line 2)).
  - apply demo_inv4.
  - apply (demo_step _ 4). vm_compute. reflexivity.
  - vm_compute. reflexivity.
  - vm_compute. reflexivity.
  - apply (list_elem_of_lookup_2 _ 0). vm_compute. reflexivity.
  - cbn. lia.
Defined.

Definition demo_abandoned := (Abandon demo_json demo_id demo_commit demo_s3).1.
Lemma Abandon_reports_pending_witness :
  entries (db demo_abandoned) = [] /\ Pending (tState (db demo_abandoned)) = 0
  /\ Bytes (tState (db demo_abandoned)) = 0
  /\ drop_total (db demo_abandoned) ≡64 drop_total (db demo_s3) + len (pending_entries (db demo_s3)).
Proof.
  apply (Abandon_reports_pending demo_json demo_id demo_commit demo_id_inj demo_s3 demo_abandoned);
    [apply demo_inv|vm_compute; reflexivity].
Defined.

Definition demo_inherited : list LogDropSummary :=
  [mkSummary "old" (zero_DropKey <| dkServiceID := "web" |>) None None 5].
Definition demo_merged := (MergeDrops demo_json demo_commit demo_s3 demo_inherited).1.
Lemma MergeDrops_idempotent_witness :
  MergeDrops demo_json demo_commit demo_merged demo_inherited = (demo_merged, Ok tt).
Proof.
  apply (MergeDrops_idempotent demo_json demo_id demo_commit demo_id_inj demo_s3 demo_inherited demo_merged).
  - apply demo_inv.
  - intros a [->|Ha]%elem_of_cons; [|set_solver]. split; [|cbn; lia]. intros n _. cbn. done.
  - vm_compute. reflexivity.
Defined.

Definition demo_rewound := (RewindForReplay demo_commit demo_s3 (2 * second)).1.
Lemma RewindForReplay_replays_witness :
  After (tState (db demo_rewound)) <= After (tState (db demo_s3))
  /\ entries (db demo_rewound) = entries (db demo_s3).
Proof.
  destruct (RewindForReplay_replays demo_id demo_commit demo_id_inj demo_s3 (2 * second) demo_rewound) as (H1 & H2 & _);
    [apply demo_inv|vm_compute; reflexivity|exact (conj H1 H2)].
Defined.
