(* ===== verification/Lease.v ===== *)
(** * Leases, fencing and authority grants

    [internal/controlplane/lease.go]: control-plane processes contend for named
    leases stored in one table; every product write runs under a claim that the
    database checks.  [internal/reconciliation/grant.go]: the deadline that
    bounds how long an agent may act on a command.

    Each SQL statement is one atomic step on the table at the database's
    statement time.  The file proves, over any interleaving of processes, that
    fencing tokens only grow, that two claims valid at the same time are the
    same claim, that a claim once invalid is invalid for ever, that guarded
    writes are ordered by token, and that an agent within the clock bound
    accepts no command once authority may be taken over. *)

From S2P Require Import Prelude.

(** ** The lease table *)

Record leaseClaim := mkClaim { clName : string; clHolder : string; clToken : Z }.
#[export] Instance leaseClaim_eq_dec : EqDecision leaseClaim.
Proof. solve_decision. Defined.

Record leaseRow := mkLeaseRow {
  holder_id : string; fencing_token : Z; advertise_addr : string; expires_at : time; updated_at : time;
}.
#[export] Instance leaseRow_eta : Eta leaseRow := fun r =>
  mkLeaseRow (holder_id r) (fencing_token r) (advertise_addr r) (expires_at r) (updated_at r).

Record leaseManager := mkLeaseManager {
  holderID : string; ttl : duration; retryInterval : duration; advertise : string;
  resigning : gmap string bool;
}.

Definition newLeaseManager (uuid : string) (ttl retryInterval : duration) : leaseManager :=
  let ttl := if ttl <=? 0 then 15 * second else ttl in
  let retryInterval := if retryInterval <=? 0 then second else retryInterval in
  mkLeaseManager uuid ttl retryInterval "" ∅.

Definition SetAdvertise (m : leaseManager) (addr : string) : leaseManager :=
  mkLeaseManager (holderID m) (ttl m) (retryInterval m) (TrimSpace addr) (resigning m).

Definition setResigning (m : leaseManager) (name : string) (r : bool) : leaseManager :=
  mkLeaseManager (holderID m) (ttl m) (retryInterval m) (advertise m) (<[name := r]> (resigning m)).
Definition isResigning (m : leaseManager) (name : string) : bool := default false (resigning m !! name).

(** [ttl.Microseconds()] times the SQL interval of a microsecond. *)
Definition lease_end (m : leaseManager) (now : time) : time := now + Z.quot (ttl m) 1000 * 1000.

(** [INSERT ... ON CONFLICT(name) DO UPDATE ... WHERE ... RETURNING fencing_token] *)
Definition acquire (m : leaseManager) (now : time) (name : string) (tbl : gmap string leaseRow)
    : gmap string leaseRow * option leaseClaim :=
  match tbl !! name with
  | None =>
      (<[name := mkLeaseRow (holderID m) 1 (advertise m) (lease_end m now) now]> tbl,
       Some (mkClaim name (holderID m) 1))
  | Some row =>
      if str_eqb (holder_id row) (holderID m) || (expires_at row <=? now) then
        let token := if str_eqb (holder_id row) (holderID m) && (now <? expires_at row)
                     then fencing_token row else fencing_token row + 1 in
        (<[name := mkLeaseRow (holderID m) token (advertise m) (lease_end m now) now]> tbl,
         Some (mkClaim name (holderID m) token))
      else (tbl, None)
  end.

Definition renew (m : leaseManager) (now : time) (claim : leaseClaim) (tbl : gmap string leaseRow) : gmap string leaseRow * bool :=
  match tbl !! clName claim with
  | Some row =>
      if str_eqb (holder_id row) (clHolder claim) && (fencing_token row =? clToken claim)
         && (now <? expires_at row)
      then (<[clName claim := row <| expires_at := lease_end m now |> <| updated_at := now |>
                                  <| advertise_addr := advertise m |>]> tbl, true)
      else (tbl, false)
  | None => (tbl, false)
  end.

Definition release (now : time) (claim : leaseClaim) (tbl : gmap string leaseRow) : gmap string leaseRow :=
  match tbl !! clName claim with
  | Some row =>
      if str_eqb (holder_id row) (clHolder claim) && (fencing_token row =? clToken claim)
      then <[clName claim := row <| expires_at := now |> <| updated_at := now |>]> tbl
      else tbl
  | None => tbl
  end.

Inductive LeaseError : Type := ErrLeaseLost (name : string) | ErrGuarded (msg : string).

(** [claim] is the claim the context carries, if any. *)
Definition checkLeaseTx (now : time) (claim : option leaseClaim) (tbl : gmap string leaseRow) : result LeaseError unit :=
  match claim with
  | None => Ok tt
  | Some claim =>
      match tbl !! clName claim with
      | None => Err (ErrLeaseLost (clName claim))
      | Some row =>
          let valid := str_eqb (holder_id row) (clHolder claim) && (fencing_token row =? clToken claim)
                       && (now <? expires_at row) in
          if valid then Ok tt else Err (ErrLeaseLost (clName claim))
      end
  end.

(** [withLeaseGuard]: the write runs in the transaction that locked the claim. *)
Definition withLeaseGuard {W} (now : time) (claim : option leaseClaim) (tbl : gmap string leaseRow)
    (fn : W -> result LeaseError W) (w : W) : result LeaseError W :=
  match claim with
  | None => fn w
  | Some _ => _ ← checkLeaseTx now claim tbl; fn w
  end.

(** Whether this process holds the lease, or where another holder listens. *)
Definition Lookup (m : leaseManager) (now : time) (name : string) (tbl : gmap string leaseRow) : bool * string :=
  if str_eqb name "" then (false, "")
  else
    match tbl !! name with
    | Some row =>
        if now <? expires_at row then
          let addr := TrimSpace (advertise_addr row) in
          if str_eqb (holder_id row) (holderID m) then
            if isResigning m name then (false, "") else (true, addr)
          else if str_eqb addr "" || str_eqb addr (advertise m) then (false, "")
          else (false, addr)
        else (false, "")
    | None => (false, "")
    end.

Definition singletonLeaseName : string := "control-plane-singleton".
Definition liveOwnerAddr (now : time) (tbl : gmap string leaseRow) : string :=
  match tbl !! singletonLeaseName with
  | Some row => if now <? expires_at row then TrimSpace (advertise_addr row) else ""
  | None => ""
  end.

(** [jitter] with [rnd] the draw of [rand.Int64N]. *)
Definition jitter (base : duration) (rnd : Z) : duration :=
  if base <=? 0 then 0
  else
    let spread := Z.quot base 5 in
    if spread <=? 0 then base else base - spread + rnd.

(** ** Runs of contending processes *)

(** The table, the database clock, the claims handed out and the guarded writes
    that were let through, oldest first. *)
Record world := mkWorld {
  w_leases : gmap string leaseRow; w_now : time; w_issued : list leaseClaim; w_writes : list leaseClaim;
}.

Inductive lease_step : world -> world -> Prop :=
| step_time tbl now issued writes now' :
    now <= now' -> lease_step (mkWorld tbl now issued writes) (mkWorld tbl now' issued writes)
| step_acquire m name tbl now issued writes tbl' c :
    acquire m now name tbl = (tbl', c) ->
    lease_step (mkWorld tbl now issued writes)
      (mkWorld tbl' now (issued ++ option_list c) writes)
| step_renew m claim tbl now issued writes tbl' b :
    claim ∈ issued -> renew m now claim tbl = (tbl', b) ->
    lease_step (mkWorld tbl now issued writes) (mkWorld tbl' now issued writes)
| step_release claim tbl now issued writes :
    claim ∈ issued ->
    lease_step (mkWorld tbl now issued writes) (mkWorld (release now claim tbl) now issued writes)
| step_write claim tbl now issued writes :
    claim ∈ issued -> checkLeaseTx now (Some claim) tbl = Ok tt ->
    lease_step (mkWorld tbl now issued writes) (mkWorld tbl now issued (writes ++ [claim])).

Inductive lease_run : world -> world -> Prop :=
| lrun_refl w : lease_run w w
| lrun_step w w1 w2 : lease_run w w1 -> lease_step w1 w2 -> lease_run w w2.

Definition new_world (now : time) : world := mkWorld ∅ now [] [].

(** ** Invariant *)

(** A claim is no newer than its row, and shares its token only with its holder. *)
Definition bounded (tbl : gmap string leaseRow) (c : leaseClaim) : Prop :=
  exists row, tbl !! clName c = Some row /\ clToken c <= fencing_token row
    /\ (clToken c = fencing_token row -> holder_id row = clHolder c).

Record lease_inv (w : world) : Prop := mkLeaseInv {
  li_issued : forall c, c ∈ w_issued w -> bounded (w_leases w) c;
  li_writes : forall c, c ∈ w_writes w -> c ∈ w_issued w;
  li_order : forall name, StronglySorted Z.le
    (clToken <$> filter (fun c => clName c = name) (w_writes w));
}.

(** How one row may change: its token grows when its holder changes or when it
    is taken again after its end, and its end moves on only while it is live. *)
Definition row_advances (now : time) (row row' : leaseRow) : Prop :=
  fencing_token row < fencing_token row'
  \/ fencing_token row' = fencing_token row /\ holder_id row' = holder_id row
     /\ (expires_at row <= now -> expires_at row' <= now).

Definition advances (now : time) (tbl tbl' : gmap string leaseRow) : Prop :=
  forall name row, tbl !! name = Some row ->
    exists row', tbl' !! name = Some row' /\ row_advances now row row'.

Lemma row_advances_refl now row : row_advances now row row.
Proof. right. auto. Qed.

Lemma advances_refl now tbl : advances now tbl tbl.
Proof. intros name row H. exists row. split; [done|apply row_advances_refl]. Qed.

Lemma advances_insert now tbl name row row' :
  tbl !! name = Some row -> row_advances now row row' -> advances now tbl (<[name := row']> tbl).
Proof.
  intros H Ha n r Hr. destruct (decide (n = name)) as [->|Hne].
  - rewrite lookup_insert_eq. exists row'. split; [done|]. congruence.
  - rewrite lookup_insert_ne by done. exists r. split; [done|apply row_advances_refl].
Qed.

Lemma acquire_advances m now name tbl tbl' c :
  acquire m now name tbl = (tbl', c) ->
  advances now tbl tbl' /\ (forall cl, c = Some cl -> bounded tbl' cl).
Proof.
  unfold acquire. destruct (tbl !! name) as [row|] eqn:Hrow.
  - destruct (str_eqb (holder_id row) (holderID m) || (expires_at row <=? now)) eqn:Hok.
    2: { intros [= <- <-]. split; [apply advances_refl|done]. }
    cbv zeta. intros [= <- <-]. split.
    + eapply advances_insert; [done|]. unfold row_advances. cbn.
      destruct (str_eqb (holder_id row) (holderID m)) eqn:Hh; cbn [andb]; [|left; lia].
      destruct (now <? expires_at row) eqn:Hl; [|left; lia]. right. bool_to_prop. split_and!; [done|done|lia].
    + intros cl [= <-]. exists (mkLeaseRow (holderID m)
        (if str_eqb (holder_id row) (holderID m) && (now <? expires_at row)
         then fencing_token row else fencing_token row + 1) (advertise m) (lease_end m now) now).
      cbn [clName clToken clHolder fencing_token holder_id]. rewrite lookup_insert_eq. split_and!; [done|lia|done].
  - intros [= <- <-]. split.
    + intros n r Hr. destruct (decide (n = name)) as [->|Hne]; [congruence|].
      rewrite lookup_insert_ne by done. exists r. split; [done|apply row_advances_refl].
    + intros cl [= <-]. eexists. cbn [clName]. rewrite lookup_insert_eq. split_and!; done.
Qed.

Lemma renew_advances m now claim tbl : advances now tbl (renew m now claim tbl).1.
Proof.
  unfold renew. destruct (tbl !! clName claim) as [row|] eqn:Hrow; [|apply advances_refl].
  destruct (_ && _) eqn:E; [|apply advances_refl]. bool_to_prop.
  eapply advances_insert; [done|]. right. cbn. split_and!; [done|done|lia].
Qed.

Lemma release_advances now claim tbl : advances now tbl (release now claim tbl).
Proof.
  unfold release. destruct (tbl !! clName claim) as [row|] eqn:Hrow; [|apply advances_refl].
  destruct (_ && _) eqn:E; [|apply advances_refl].
  eapply advances_insert; [done|]. right. cbn. split_and!; [done|done|lia].
Qed.

Lemma bounded_advances now tbl tbl' c : advances now tbl tbl' -> bounded tbl c -> bounded tbl' c.
Proof.
  intros Ha (row & Hr & Hle & Heq). destruct (Ha _ _ Hr) as (row' & Hr' & [Hlt|(Et & Eh & _)]).
  - exists row'. split_and!; [done|lia|lia].
  - exists row'. split_and!; [done|lia|]. intros E. rewrite Eh. apply Heq. lia.
Qed.

(** A step advances every row and never forgets a claim. *)
Lemma step_advances w w' :
  lease_step w w' ->
  w_now w <= w_now w' /\ advances (w_now w') (w_leases w) (w_leases w')
  /\ forall c, c ∈ w_issued w -> c ∈ w_issued w'.
Proof.
  intros H. destruct H as [tbl now issued writes now' Hle|m name tbl now issued writes tbl' c H
    |m claim tbl now issued writes tbl' b Hin H|claim tbl now issued writes Hin|claim tbl now issued writes Hin H]; cbn.
  - split_and!; [done|apply advances_refl|done].
  - split_and!; [lia|by eapply acquire_advances|set_solver].
  - split_and!; [lia| |done]. pose proof (renew_advances m now claim tbl) as Ha. by rewrite H in Ha.
  - split_and!; [lia|apply release_advances|done].
  - split_and!; [lia|apply advances_refl|done].
Qed.

(** A valid check pins the row down. *)
Lemma check_ok now c tbl :
  checkLeaseTx now (Some c) tbl = Ok tt ->
  exists row, tbl !! clName c = Some row /\ holder_id row = clHolder c /\ fencing_token row = clToken c
    /\ now < expires_at row.
Proof.
  unfold checkLeaseTx. destruct (tbl !! clName c) as [row|]; [|done].
  destruct (_ && _) eqn:E; [|done]. intros _. bool_to_prop. eauto.
Qed.

Lemma StronglySorted_snoc {A} (R : A -> A -> Prop) l a :
  StronglySorted R l -> (forall x, x ∈ l -> R x a) -> StronglySorted R (l ++ [a]).
Proof.
  induction l as [|x l IH]; intros Hs Ha; cbn; [by repeat constructor|].
  apply StronglySorted_inv in Hs as [Hs Hx]. constructor; [apply IH; set_solver|].
  apply Forall_app. split; [done|]. constructor; [|constructor]. apply Ha. set_solver.
Qed.

Lemma lease_step_inv w w' : lease_inv w -> lease_step w w' -> lease_inv w'.
Proof.
  intros [I1 I2 I3] Hs. pose proof (step_advances w w' Hs) as (_ & Hadv & _).
  assert (Hold : forall c, c ∈ w_issued w -> bounded (w_leases w') c)
    by (intros c Hc; eapply bounded_advances; [exact Hadv|auto]).
  destruct Hs as [tbl now issued writes now' Hle|m name tbl now issued writes tbl' c H
    |m claim tbl now issued writes tbl' b Hin H|claim tbl now issued writes Hin|claim tbl now issued writes Hin H];
    cbn in *; try (split; cbn; by eauto).
  - split; cbn; [|set_solver|done]. intros c' [Hc|Hc]%elem_of_app; [by apply Hold|].
    destruct c as [cl|]; [|set_solver]. assert (c' = cl) as -> by set_solver.
    by eapply acquire_advances.
  - split; cbn; [done|set_solver|]. intros name. rewrite filter_app, fmap_app.
    rewrite filter_cons. destruct (decide (clName claim = name)) as [E|_]; [|cbn; rewrite app_nil_r; apply I3].
    apply StronglySorted_snoc; [apply I3|]. intros t (c & -> & Hc)%list_elem_of_fmap.
    apply list_elem_of_filter in Hc as [En Hc]. destruct (I1 c (I2 c Hc)) as (row & Hr & Hle & _).
    apply check_ok in H as (row' & Hr' & _ & Et & _). rewrite En, <- E in Hr. rewrite Hr in Hr'.
    injection Hr' as <-. lia.
Qed.

Lemma lease_run_inv now w : lease_run (new_world now) w -> lease_inv w.
Proof.
  intros H. remember (new_world now) as w0. induction H as [w|w w1 w2 _ IH Hs].
  - subst w. split; cbn; [set_solver|set_solver|]. intros name. constructor.
  - eapply lease_step_inv; [by apply IH|done].
Qed.

(** A claim that the database will never accept again. *)
Definition dead (w : world) (c : leaseClaim) : Prop :=
  exists row, w_leases w !! clName c = Some row
    /\ (clToken c < fencing_token row \/ clToken c = fencing_token row /\ expires_at row <= w_now w).

Lemma dead_fails w c : dead w c -> checkLeaseTx (w_now w) (Some c) (w_leases w) = Err (ErrLeaseLost (clName c)).
Proof.
  intros (row & Hr & Hd). unfold checkLeaseTx. rewrite Hr. cbv zeta.
  destruct (_ && _) eqn:E; [|done]. bool_to_prop. lia.
Qed.

Lemma fails_dead w c :
  bounded (w_leases w) c -> checkLeaseTx (w_now w) (Some c) (w_leases w) <> Ok tt -> dead w c.
Proof.
  intros (row & Hr & Hle & Heq). unfold checkLeaseTx. rewrite Hr. cbv zeta. intros H.
  exists row. split; [done|]. destruct (Z.lt_ge_cases (clToken c) (fencing_token row)) as [|Hge]; [by left|right].
  assert (E : clToken c = fencing_token row) by lia. split; [done|].
  rewrite (proj2 (str_eqb_eq _ _) (Heq E)), (proj2 (Z.eqb_eq _ _) (eq_sym E)) in H. cbn [andb] in H.
  destruct (Z.ltb_spec (w_now w) (expires_at row)); [done|lia].
Qed.

Lemma dead_step w w' c : lease_step w w' -> dead w c -> dead w' c.
Proof.
  intros Hs (row & Hr & Hd). destruct (step_advances w w' Hs) as (Hn & Ha & _).
  destruct (Ha _ _ Hr) as (row' & Hr' & Hrow). exists row'. split; [done|].
  destruct Hrow as [Hlt|(Et & _ & He)]; destruct Hd as [Hd|[E Hd]]; [left; lia|left; lia|left; lia|].
  right. split; [lia|]. apply He. lia.
Qed.

(** ** What the leases promise *)

Lemma acquired_live m now name tbl tbl' c' : 1000 <= ttl m -> acquire m now name tbl = (tbl', Some c') ->
  checkLeaseTx now (Some c') tbl' = Ok tt /\ clName c' = name /\ clHolder c' = holderID m.
Proof.
  intros Httl Ha. assert (Hend : now < lease_end m now).
  { unfold lease_end. pose proof (Z.quot_le_mono 1000 (ttl m) 1000 ltac:(lia) ltac:(lia)). change (1000 ÷ 1000) with 1 in *. lia. }
  unfold acquire in Ha. destruct (tbl !! name) as [row|]; [destruct (_ || _); [|done]|]; cbv zeta in Ha; injection Ha as <- <-;
    (split; [|done]); unfold checkLeaseTx; cbn [clName clHolder clToken]; rewrite lookup_insert_eq; cbn [holder_id fencing_token expires_at]; cbv zeta;
    by rewrite (proj2 (str_eqb_eq _ _) eq_refl), Z.eqb_refl, (proj2 (Z.ltb_lt _ _) Hend).
Qed.

(** What an acquired claim is against a claim handed out before: the same, still
    accepted one, or one with a smaller token. *)
Lemma acquired_newer m now name tbl tbl' c' c : acquire m now name tbl = (tbl', Some c') -> bounded tbl c -> clName c = name ->
  (checkLeaseTx now (Some c) tbl = Ok tt /\ c = c') \/
  (clToken c < clToken c' /\ (checkLeaseTx now (Some c) tbl = Ok tt -> clHolder c = holderID m) /\
   exists row, tbl' !! name = Some row /\ fencing_token row = clToken c').
Proof.
  intros Ha (row & Hrow & Hle & Heq) Hname. rewrite Hname in Hrow. unfold acquire in Ha. rewrite Hrow in Ha. cbv zeta in Ha. destruct (_ || _) eqn:Hok; [|done].
  injection Ha as <- <-. cbn [clToken clHolder]. rewrite lookup_insert_eq. unfold checkLeaseTx. rewrite Hname, Hrow. cbv zeta.
  assert (Hh : str_eqb (holder_id row) (clHolder c) && (fencing_token row =? clToken c) && (now <? expires_at row) = true -> clHolder c = holderID m).
  { intros E. bool_to_prop. apply orb_true_iff in Hok as [Hok|Hok]; bool_to_prop; [congruence|lia]. }
  destruct (str_eqb (holder_id row) (holderID m) && (now <? expires_at row)) eqn:Elive.
  - destruct (Z.lt_ge_cases (clToken c) (fencing_token row)) as [Hlt|Hge].
    + right. split; [done|]. split; [|by eexists]. destruct (_ && _ && _) eqn:E; [auto|done].
    + left. bool_to_prop. assert (E : clToken c = fencing_token row) by lia. rewrite (proj2 (str_eqb_eq _ _) (Heq E)), (proj2 (Z.eqb_eq _ _) (eq_sym E)).
      rewrite (proj2 (Z.ltb_lt now (expires_at row))) by lia. split; [done|]. specialize (Heq E). destruct c; cbn in *. congruence.
  - right. split; [lia|]. split; [|by eexists]. destruct (_ && _ && _) eqn:E; [auto|done].
Qed.

Lemma dead_run w w' c : lease_run w w' -> dead w c -> dead w' c.
Proof. induction 1 as [w|w w1 w2 _ IH Hs]; [done|]. intros Hd. eapply dead_step; [done|by apply IH]. Qed.

(** C4: Acquiring a lease fences out everybody else for good.  The new claim is
    accepted at once.  A claim on the lease handed out before either is this very
    claim, still accepted (the holder asked again while it held the lease), or has
    a strictly smaller token, belonged to the same holder if it was accepted at
    that moment, and is refused then and in every later state, whatever any
    process does. *)
Theorem acquire_fences_out now w m name tbl' c' :
  lease_run (new_world now) w -> 1000 <= ttl m ->
  acquire m (w_now w) name (w_leases w) = (tbl', Some c') ->
  checkLeaseTx (w_now w) (Some c') tbl' = Ok tt /\ clHolder c' = holderID m
  /\ forall c, c ∈ w_issued w -> clName c = name ->
     (c = c' /\ checkLeaseTx (w_now w) (Some c) (w_leases w) = Ok tt)
     \/ (clToken c < clToken c'
         /\ (checkLeaseTx (w_now w) (Some c) (w_leases w) = Ok tt -> clHolder c = clHolder c')
         /\ forall w', lease_run (mkWorld tbl' (w_now w) (w_issued w ++ [c']) (w_writes w)) w' ->
              checkLeaseTx (w_now w') (Some c) (w_leases w') = Err (ErrLeaseLost name)).
Proof.
  intros Hr Httl Ha. destruct (acquired_live _ _ _ _ _ _ Httl Ha) as (H1 & _ & H2). split_and!; [done|done|]. intros c Hc Hname.
  destruct (acquired_newer _ _ _ _ _ _ c Ha (li_issued _ (lease_run_inv _ _ Hr) c Hc) Hname) as [[H3 H4]|(H3 & H4 & row & Hrow & Htok)]; [by left|].
  right. split; [done|]. split; [rewrite H2; done|]. intros w' Hw'. rewrite <- Hname. apply dead_fails. eapply dead_run; [exact Hw'|]. exists row. cbn. rewrite Hname. split; [done|]. lia.
Qed.

(** Fencing is permanent: once the database refuses a claim that was handed
    out, it refuses it in every later state, whatever any process does. *)
Theorem stale_claims_stay_stale now w w' c :
  lease_run (new_world now) w -> c ∈ w_issued w ->
  checkLeaseTx (w_now w) (Some c) (w_leases w) <> Ok tt ->
  lease_run w w' ->
  checkLeaseTx (w_now w') (Some c) (w_leases w') = Err (ErrLeaseLost (clName c)).
Proof.
  intros Hr Hc Hf Hr'. apply dead_fails.
  pose proof (fails_dead w c (li_issued _ (lease_run_inv _ _ Hr) c Hc) Hf) as Hd.
  by eapply dead_run.
Qed.

(** The writes let through for a lease, by all processes together, carry
    fencing tokens in order: a write under an older claim never follows one
    under a newer claim. *)
Theorem guarded_writes_ordered now w name :
  lease_run (new_world now) w ->
  StronglySorted Z.le (clToken <$> filter (fun c => clName c = name) (w_writes w)).
Proof. intros Hr. apply (lease_run_inv _ _ Hr). Qed.

(** ** Authority grants *)

Definition GrantLifetime : duration := 15 * second.
Definition MaxClockSkew : duration := second.

(** A timestamp as [AsTime] gives it; [None] for one that is missing or that
    [CheckValid] refuses. *)
Record FencedCommand := mkFencedCommand { SessionId : string; AuthorityNotAfter : option time }.

Definition ValidateCommand (state : FencedCommand) (sessionID : string) (now : time) : result string unit :=
  _ ← guard_err (str_eqb sessionID "" || negb (str_eqb (SessionId state) sessionID))
        "desired state belongs to another session";
  match AuthorityNotAfter state with
  | None => Err "desired state authority grant expired or missing"
  | Some deadline =>
      _ ← guard_err (negb (now + MaxClockSkew <? deadline)) "desired state authority grant expired or missing";
      guard_err (now + (GrantLifetime + MaxClockSkew) <? deadline)
        "desired state authority grant exceeds maximum lifetime"
  end.

Definition CanTakeOver (now outstandingNotAfter : time) : bool := negb (now <? outstandingNotAfter).

(** Takeover never overlaps with a command: if an agent whose clock is
    within the permitted skew of database time accepts a command, the command's
    deadline has not passed in database time, so authority cannot be taken over
    at that moment; and no accepted deadline lies further ahead than the grant
    lifetime plus twice the skew. *)
Theorem takeover_excludes_commands cmd session agentNow dbNow deadline :
  AuthorityNotAfter cmd = Some deadline -> Z.abs (agentNow - dbNow) <= MaxClockSkew ->
  ValidateCommand cmd session agentNow = Ok tt ->
  CanTakeOver dbNow deadline = false /\ SessionId cmd = session /\ session <> ""
  /\ deadline <= dbNow + GrantLifetime + 2 * MaxClockSkew.
Proof.
  intros Hd Hskew. unfold ValidateCommand. rewrite Hd. intros ([] & H1 & H)%bind_ok.
  apply bind_ok in H as ([] & H2 & H3). apply guard_err_ok in H1, H2, H3. bool_to_prop.
  unfold CanTakeOver. rewrite (proj2 (Z.ltb_lt dbNow deadline)) by lia.
  split_and!; [reflexivity|assumption|assumption|lia].
Qed.

(** ** A concrete run *)

Definition demo_m1 : leaseManager := newLeaseManager "p1" 0 0.
Definition demo_m2 : leaseManager := newLeaseManager "p2" 0 0.
Definition demo_t1 : gmap string leaseRow := (acquire demo_m1 0 "singleton" ∅).1.
Definition demo_c1 : leaseClaim := mkClaim "singleton" "p1" 1.
Definition demo_c2 : leaseClaim := mkClaim "singleton" "p2" 2.
Definition demo_w1 : world := mkWorld demo_t1 0 [demo_c1] [].
Definition demo_w2 : world := mkWorld demo_t1 (16 * second) [demo_c1] [demo_c1].
Definition demo_t2 : gmap string leaseRow := (acquire demo_m2 (16 * second) "singleton" demo_t1).1.
Definition demo_w3 : world := mkWorld demo_t2 (16 * second) [demo_c1; demo_c2] [demo_c1].

Lemma demo_run2 : lease_run (new_world 0) demo_w2.
Proof.
  apply (lrun_step _ (mkWorld demo_t1 0 [demo_c1] [demo_c1])); [apply (lrun_step _ demo_w1)|].
  - apply (lrun_step _ (new_world 0)); [constructor|].
    apply (step_acquire demo_m1 "singleton" ∅ 0 [] [] demo_t1 (Some demo_c1)). vm_compute. reflexivity.
  - apply (step_write demo_c1 demo_t1 0 [demo_c1] []); [set_solver|vm_compute; reflexivity].
  - apply step_time. vm_compute. discriminate.
Qed.

Lemma demo_run23 : lease_run demo_w2 demo_w3.
Proof.
  apply (lrun_step _ demo_w2); [constructor|].
  apply (step_acquire demo_m2 "singleton" demo_t1 (16 * second) [demo_c1] [demo_c1] demo_t2 (Some demo_c2)).
  vm_compute. reflexivity.
Qed.

(** The lease goes from p1 to p2 and back: p1's first claim stays refused. *)
Definition demo_t3 : gmap string leaseRow := (acquire demo_m1 (32 * second) "singleton" demo_t2).1.
Definition demo_c3 : leaseClaim := mkClaim "singleton" "p1" 3.
Definition demo_w4 : world := mkWorld demo_t2 (32 * second) [demo_c1; demo_c2] [demo_c1].

Lemma demo_run4 : lease_run (new_world 0) demo_w4.
Proof.
  apply (lrun_step _ demo_w3); [|apply step_time; vm_compute; discriminate]. apply (lrun_step _ demo_w2); [exact demo_run2|].
  apply (step_acquire demo_m2 "singleton" demo_t1 (16 * second) [demo_c1] [demo_c1] demo_t2 (Some demo_c2)). vm_compute. reflexivity.
Qed.

Lemma acquire_fences_out_witness :
  checkLeaseTx (32 * second) (Some demo_c3) demo_t3 = Ok tt
  /\ forall w', lease_run (mkWorld demo_t3 (32 * second) [demo_c1; demo_c2; demo_c3] [demo_c1]) w' ->
       checkLeaseTx (w_now w') (Some demo_c1) (w_leases w') = Err (ErrLeaseLost "singleton").
Proof.
  destruct (acquire_fences_out 0 demo_w4 demo_m1 "singleton" demo_t3 demo_c3 demo_run4) as (H1 & _ & H2).
  - vm_compute. discriminate.
  - vm_compute. reflexivity.
  - split; [exact H1|]. destruct (H2 demo_c1 (list_elem_of_here _ _) eq_refl) as [[H3 _]|(_ & _ & H3)]; [discriminate H3|exact H3].
Defined.

Lemma stale_claims_stay_stale_witness :
  checkLeaseTx (w_now demo_w3) (Some demo_c1) (w_leases demo_w3) = Err (ErrLeaseLost "singleton").
Proof.
  apply (stale_claims_stay_stale 0 demo_w2 demo_w3 demo_c1 demo_run2).
  - apply list_elem_of_here.
  - vm_compute. discriminate.
  - apply demo_run23.
Defined.

Lemma guarded_writes_ordered_witness :
  StronglySorted Z.le (clToken <$> filter (fun c => clName c = "singleton") (w_writes demo_w2)).
Proof. apply (guarded_writes_ordered 0 demo_w2 "singleton" demo_run2). Defined.

Lemma takeover_excludes_commands_witness :
  CanTakeOver (100 * second) (110 * second) = false.
Proof.
  apply (takeover_excludes_commands (mkFencedCommand "s" (Some (110 * second))) "s" (101 * second) (100 * second) (110 * second));
    vm_compute; [reflexivity|discriminate|reflexivity].
Defined.
