(* ===== verification/DurableWork.v ===== *)
(** * The durable work queue

    Models [internal/controlplane/durablework]: the records of
    [durable_work_items], the operations of the store as functions on the
    table, retry delays and stored error text, and workers that claim, extend,
    complete and fail records as a step relation. *)

From S2P Require Import Prelude GoText.

(** ** Records *)

Inductive WorkState : Type := StatePending | StateLeased | StateSucceeded | StateFailed | StateDead.

#[export] Instance WorkState_eq_dec : EqDecision WorkState.
Proof. solve_decision. Defined.

Definition DefaultAttemptLimit : Z := 10.
Definition DefaultBaseDelay : duration := 5 * second.
Definition DefaultMaxDelay : duration := 5 * minute.
Definition MaxLastErrorRunes : nat := 2048.

Record WorkRecord := mkWork {
  ID : string; Kind : string; DedupKey : string; ResourceType : string; ResourceID : string;
  State : WorkState; AttemptCount : Z; AttemptLimit : Z; OwnerID : string; OwnerEpoch : Z;
  LeaseExpiresAt : option time; LastError : string; AvailableAt : time; wPayload : string;
  CreatedAt : time; UpdatedAt : time; CompletedAt : option time;
}.

#[export] Instance WorkRecord_eta : Eta WorkRecord := fun r =>
  mkWork (ID r) (Kind r) (DedupKey r) (ResourceType r) (ResourceID r) (State r) (AttemptCount r) (AttemptLimit r)
    (OwnerID r) (OwnerEpoch r) (LeaseExpiresAt r) (LastError r) (AvailableAt r) (wPayload r) (CreatedAt r)
    (UpdatedAt r) (CompletedAt r).

#[export] Instance WorkRecord_eq_dec : EqDecision WorkRecord.
Proof. solve_decision. Defined.

Definition is_state (st : WorkState) (r : WorkRecord) : bool := bool_decide (State r = st).

Definition Terminal (r : WorkRecord) : bool :=
  match State r with StateSucceeded | StateFailed | StateDead => true | _ => false end.

Record EnqueueParams := mkEnqueue {
  epKind : string; epDedupKey : string; epResourceType : string; epResourceID : string;
  epPayload : string; epAttemptLimit : Z; epAvailableAt : time;
}.

Inductive WorkError : Type :=
| ErrInvalid (msg : string)
| ErrDuplicateID
| ErrLeaseLost (id owner : string) (epoch : Z).

Definition validated (p : EnqueueParams) : result WorkError EnqueueParams :=
  let kind := TrimSpace (epKind p) in
  let key := TrimSpace (epDedupKey p) in
  let rtype := TrimSpace (epResourceType p) in
  let rid := TrimSpace (epResourceID p) in
  _ ← guard_err (str_eqb kind "") (ErrInvalid "durable work kind is required");
  _ ← guard_err (str_eqb key "") (ErrInvalid "durable work dedup key is required");
  _ ← guard_err (str_eqb rtype "" || str_eqb rid "")
        (ErrInvalid "durable work resource type and id are required");
  _ ← guard_err (epAttemptLimit p <? 0) (ErrInvalid "durable work attempt limit must not be negative");
  let limit := if epAttemptLimit p =? 0 then DefaultAttemptLimit else epAttemptLimit p in
  payload ← (if str_eqb (TrimSpace (epPayload p)) "" then Ok "{}"
             else if negb (json_valid (epPayload p)) then Err (ErrInvalid "durable work payload must be valid JSON")
             else Ok (epPayload p));
  Ok (mkEnqueue kind key rtype rid payload limit (epAvailableAt p)).

(** ** Retry delays *)

Record FailOptions := mkFailOptions {
  Retryable : bool; RetryAfter : duration; BaseDelay : duration; MaxDelay : duration;
}.

(** The defaulting shared by [FailOptions.bounds] and [RetryDelay]. *)
Definition delay_bounds (base max : duration) : duration * duration :=
  let base := if base <=? 0 then DefaultBaseDelay else base in
  let max := if max <=? 0 then DefaultMaxDelay else max in
  let max := if max <? base then base else max in
  (base, max).

Definition bounds (o : FailOptions) : duration * duration := delay_bounds (BaseDelay o) (MaxDelay o).

(** [jitter], with [rnd] the value [rand.Int64N(2*spread+1)] returns. *)
Definition jitter (base : duration) (rnd : Z) : duration :=
  if base <=? 0 then 0
  else
    let spread := Z.quot base 5 in
    if spread <=? 0 then base
    else wrap64 (base - spread + rnd).

(** The doubling loop, [n] rounds at most. *)
Fixpoint double_delay (n : nat) (delay max : duration) : duration :=
  match n with
  | O => delay
  | S n =>
      if delay <? max then
        let delay := wrap64 (delay * 2) in
        if max <=? delay then max else double_delay n delay max
      else delay
  end.

Definition RetryDelay (attempt : Z) (base max : duration) (rnd : Z) : duration :=
  let '(base, max) := delay_bounds base max in
  let attempt := if attempt <? 1 then 1 else attempt in
  jitter (double_delay (Z.to_nat (attempt - 1)) base max) rnd.

(** ** Stored error text *)

Definition SanitizeText (text : string) : string :=
  let text := TrimSpace (remove_byte 0 text) in
  if str_eqb text "" then ""
  else TrimSpace (truncate_runes MaxLastErrorRunes text).

Definition SanitizeError (err : option string) : string :=
  match err with None => "" | Some text => SanitizeText text end.

Definition LeaseHeldBy (rec : WorkRecord) (ownerID : string) (epoch : Z) : bool :=
  is_state StateLeased rec && str_eqb (OwnerID rec) ownerID && (OwnerEpoch rec =? epoch).

(** ** The table *)

(** [UPDATE ... SET ... WHERE] and the number of rows it affects. *)
Definition update_rows (p : WorkRecord -> bool) (set : WorkRecord -> WorkRecord) (tbl : list WorkRecord)
    : list WorkRecord * Z :=
  (map (fun r => if p r then set r else r) tbl, countb p tbl).

(** [ON CONFLICT(dedup_key) DO UPDATE SET ...] *)
Definition resurrect (p : EnqueueParams) (availableAt now : time) (r : WorkRecord) : WorkRecord :=
  r <| Kind := epKind p |> <| ResourceType := epResourceType p |> <| ResourceID := epResourceID p |>
    <| State := StatePending |> <| AttemptCount := 0 |> <| AttemptLimit := epAttemptLimit p |>
    <| OwnerID := "" |> <| LeaseExpiresAt := None |> <| LastError := "" |> <| AvailableAt := availableAt |>
    <| wPayload := epPayload p |> <| UpdatedAt := now |> <| CompletedAt := None |>.

(** The row a new identity gets. *)
Definition new_row (uuid : string) (p : EnqueueParams) (availableAt now : time) : WorkRecord :=
  mkWork uuid (epKind p) (epDedupKey p) (epResourceType p) (epResourceID p) StatePending 0
    (epAttemptLimit p) "" 0 None "" availableAt (epPayload p) now now None.

Section Store.
(** What a [TIMESTAMPTZ] column keeps of an instant the driver sends it. *)
Variable stamp : time -> time.

(** [EnqueueTx] at database time [now]; [uuid] is the identity it draws.  The
    result says whether the queue accepted the work. *)
Definition EnqueueTx (uuid : string) (now : time) (params : EnqueueParams) (tbl : list WorkRecord)
    : list WorkRecord * result WorkError bool :=
  match validated params with
  | Err e => (tbl, Err e)
  | Ok p =>
      let availableAt := stamp (if is_zero (epAvailableAt p) then now else epAvailableAt p) in
      if existsb (fun r => str_eqb (DedupKey r) (epDedupKey p)) tbl then
        let '(tbl', rows) := update_rows
          (fun r => str_eqb (DedupKey r) (epDedupKey p) && Terminal r)
          (resurrect p availableAt now) tbl in
        (tbl', Ok (0 <? rows))
      else if existsb (fun r => str_eqb (ID r) uuid) tbl then (tbl, Err ErrDuplicateID)
      else (tbl ++ [new_row uuid p availableAt now], Ok true)
  end.

(** [Enqueue]: validated before the transaction and again inside it. *)
Definition Enqueue (uuid : string) (now : time) (params : EnqueueParams) (tbl : list WorkRecord)
    : list WorkRecord * result WorkError bool :=
  match validated params with
  | Err e => (tbl, Err e)
  | Ok params => EnqueueTx uuid now params tbl
  end.

Definition CancelPendingForResourceTx (resourceType resourceID : string) (tbl : list WorkRecord)
    : list WorkRecord :=
  filter (fun r => negb (str_eqb (ResourceType r) resourceType && str_eqb (ResourceID r) resourceID
                         && is_state StatePending r) = true) tbl.

(** ** Claiming *)

Definition maxClaimSweeps : nat := 8.

Definition cleanKinds (kinds : list string) : list string :=
  filter (fun k => k <> "") (map TrimSpace kinds).

Definition expired (now : time) (r : WorkRecord) : bool :=
  match LeaseExpiresAt r with Some t => t <=? now | None => false end.

Definition kind_in (kinds : list string) (r : WorkRecord) : bool :=
  match kinds with [] => true | _ => bool_decide (Kind r ∈ kinds) end.

Definition due (now : time) (kinds : list string) (r : WorkRecord) : bool :=
  ((is_state StatePending r && (AvailableAt r <=? now)) || (is_state StateLeased r && expired now r))
  && kind_in kinds r.

(** [ORDER BY available_at ASC, created_at ASC, id ASC] *)
Definition claim_leb (a b : WorkRecord) : bool :=
  if AvailableAt a =? AvailableAt b then
    if CreatedAt a =? CreatedAt b then String.leb (ID a) (ID b) else CreatedAt a <? CreatedAt b
  else AvailableAt a <? AvailableAt b.

Definition selectClaimCandidateTx (now : time) (kinds : list string) (tbl : list WorkRecord) : option WorkRecord :=
  head (isort claim_leb (filter (fun r => due now kinds r = true) tbl)).

(** [id = rec.ID AND state = rec.State AND owner_id = rec.OwnerID AND owner_epoch = rec.OwnerEpoch] *)
Definition observed (rec r : WorkRecord) : bool :=
  str_eqb (ID r) (ID rec) && is_state (State rec) r && str_eqb (OwnerID r) (OwnerID rec)
  && (OwnerEpoch r =? OwnerEpoch rec).

Definition dead_letter (now : time) (r : WorkRecord) : WorkRecord :=
  r <| State := StateDead |> <| LeaseExpiresAt := None |>
    <| LastError := if str_eqb (LastError r) "" then "attempt limit exhausted" else LastError r |>
    <| CompletedAt := Some now |> <| UpdatedAt := now |>.

Definition markDeadExhaustedTx (now : time) (rec : WorkRecord) (tbl : list WorkRecord) : list WorkRecord * bool :=
  let '(tbl, rows) := update_rows (observed rec) (dead_letter now) tbl in (tbl, rows =? 1).

Definition take_lease (now : time) (ownerID : string) (leaseTTL : duration) (r : WorkRecord) : WorkRecord :=
  r <| State := StateLeased |> <| OwnerID := ownerID |> <| OwnerEpoch := OwnerEpoch r + 1 |>
    <| AttemptCount := AttemptCount r + 1 |> <| LeaseExpiresAt := Some (stamp (now + leaseTTL)) |>
    <| UpdatedAt := now |>.

(** The guarded update and the row it returns, [None] for [sql.ErrNoRows]. *)
Definition leaseRecordTx (now : time) (rec : WorkRecord) (ownerID : string) (leaseTTL : duration)
    (tbl : list WorkRecord) : list WorkRecord * option WorkRecord :=
  let guard r := observed rec r && (is_state StatePending r || expired now r) in
  ((update_rows guard (take_lease now ownerID leaseTTL) tbl).1,
   take_lease now ownerID leaseTTL <$> head (filter (fun r => guard r = true) tbl)).

Fixpoint claim_sweep (n : nat) (now : time) (ownerID : string) (leaseTTL : duration) (kinds : list string)
    (tbl : list WorkRecord) : list WorkRecord * option WorkRecord :=
  match n with
  | O => (tbl, None)
  | S n =>
      match selectClaimCandidateTx now kinds tbl with
      | None => (tbl, None)
      | Some rec =>
          if AttemptLimit rec <=? AttemptCount rec then
            let '(tbl, moved) := markDeadExhaustedTx now rec tbl in
            if moved then claim_sweep n now ownerID leaseTTL kinds tbl else (tbl, None)
          else leaseRecordTx now rec ownerID leaseTTL tbl
      end
  end.

(** [Ok None] is the empty record: no work is due. *)
Definition Claim (ownerID : string) (leaseTTL : duration) (kinds : list string) (now : time)
    (tbl : list WorkRecord) : list WorkRecord * result WorkError (option WorkRecord) :=
  let ownerID := TrimSpace ownerID in
  if str_eqb ownerID "" then (tbl, Err (ErrInvalid "durable work owner id is required"))
  else if leaseTTL <=? 0 then (tbl, Err (ErrInvalid "durable work lease TTL must be positive"))
  else
    let '(tbl, claimed) := claim_sweep maxClaimSweeps now ownerID leaseTTL (cleanKinds kinds) tbl in
    (tbl, Ok claimed).

(** ** The owner's operations *)

(** [id = rec.ID AND state = leased AND owner_id = ... AND owner_epoch = ...] *)
Definition holds (rec r : WorkRecord) : bool :=
  str_eqb (ID r) (ID rec) && LeaseHeldBy r (OwnerID rec) (OwnerEpoch rec).

(** A compare-and-swap on the claimed owner and epoch, with [requireLeaseRow]. *)
Definition owner_update (what : string) (rec : WorkRecord) (set : WorkRecord -> WorkRecord)
    (tbl : list WorkRecord) : list WorkRecord * result WorkError unit :=
  if str_eqb (ID rec) "" || str_eqb (OwnerID rec) "" then (tbl, Err (ErrInvalid what))
  else
    let '(tbl, rows) := update_rows (holds rec) set tbl in
    (tbl, if rows =? 1 then Ok tt else Err (ErrLeaseLost (ID rec) (OwnerID rec) (OwnerEpoch rec))).

(** [ts + d.Microseconds() * INTERVAL '1 microsecond'] *)
Definition add_micros (now : time) (d : duration) : time := now + Z.quot d 1000 * 1000.

Definition extend_lease (now : time) (leaseTTL : duration) (r : WorkRecord) : WorkRecord :=
  r <| LeaseExpiresAt := Some (add_micros now leaseTTL) |> <| UpdatedAt := now |>.

Definition Heartbeat (now : time) (rec : WorkRecord) (leaseTTL : duration) (tbl : list WorkRecord)
    : list WorkRecord * result WorkError unit :=
  if str_eqb (ID rec) "" || str_eqb (OwnerID rec) "" then
    (tbl, Err (ErrInvalid "durable work heartbeat requires a claimed record"))
  else if leaseTTL <=? 0 then (tbl, Err (ErrInvalid "durable work lease TTL must be positive"))
  else owner_update "durable work heartbeat requires a claimed record" rec (extend_lease now leaseTTL) tbl.

Definition succeed (now : time) (r : WorkRecord) : WorkRecord :=
  r <| State := StateSucceeded |> <| LeaseExpiresAt := None |> <| CompletedAt := Some now |> <| UpdatedAt := now |>.

Definition Complete (now : time) (rec : WorkRecord) (tbl : list WorkRecord)
    : list WorkRecord * result WorkError unit :=
  owner_update "durable work complete requires a claimed record" rec (succeed now) tbl.

(** The delay of a failed attempt; [rnd] is the draw of the jitter. *)
Definition fail_delay (rec : WorkRecord) (opts : FailOptions) (rnd : Z) : duration :=
  if RetryAfter opts <=? 0 then
    let '(base, max) := bounds opts in RetryDelay (AttemptCount rec) base max rnd
  else jitter (RetryAfter opts) rnd.

Definition disposition (now : time) (retryable : bool) (text : string) (delay : duration) (r : WorkRecord)
    : WorkRecord :=
  let again := retryable && (AttemptCount r <? AttemptLimit r) in
  r <| State := if negb retryable then StateFailed
                else if AttemptLimit r <=? AttemptCount r then StateDead else StatePending |>
    <| OwnerID := if again then "" else OwnerID r |>
    <| LeaseExpiresAt := None |> <| LastError := text |>
    <| AvailableAt := if again then add_micros now delay else AvailableAt r |>
    <| CompletedAt := if again then None else Some now |>
    <| UpdatedAt := now |>.

Definition Fail (now : time) (rec : WorkRecord) (processErr : option string) (opts : FailOptions) (rnd : Z)
    (tbl : list WorkRecord) : list WorkRecord * result WorkError unit :=
  owner_update "durable work fail requires a claimed record" rec
    (disposition now (Retryable opts) (SanitizeError processErr) (fail_delay rec opts rnd)) tbl.

(** ** Inspection and retention *)

Definition Get (id : string) (tbl : list WorkRecord) : option WorkRecord :=
  head (filter (fun r => ID r = id) tbl).

(** [ORDER BY updated_at DESC, id ASC] *)
Definition dead_leb (a b : WorkRecord) : bool :=
  if UpdatedAt a =? UpdatedAt b then String.leb (ID a) (ID b) else UpdatedAt b <? UpdatedAt a.

Definition ListDead (kind : string) (limit : Z) (tbl : list WorkRecord) : list WorkRecord :=
  let limit := if limit <=? 0 then 100 else limit in
  let limit := if 1000 <? limit then 1000 else limit in
  let kind := TrimSpace kind in
  take (Z.to_nat limit) (isort dead_leb
    (filter (fun r => is_state StateDead r && (str_eqb kind "" || str_eqb (Kind r) kind) = true) tbl)).

(** [ORDER BY completed_at ASC, id ASC] *)
Definition completed_leb (a b : WorkRecord) : bool :=
  let ca := default 0 (CompletedAt a) in let cb := default 0 (CompletedAt b) in
  if ca =? cb then String.leb (ID a) (ID b) else ca <? cb.

Definition prunable (cutoff : time) (r : WorkRecord) : bool :=
  Terminal r && match CompletedAt r with Some t => t <? stamp cutoff | None => false end.

Definition PruneTerminal (cutoff : time) (limit : Z) (tbl : list WorkRecord) : list WorkRecord * Z :=
  let limit := if limit <=? 0 then 1000 else limit in
  let ids := map ID (take (Z.to_nat limit) (isort completed_leb (filter (fun r => prunable cutoff r = true) tbl))) in
  (filter (fun r => ID r ∉ ids) tbl, countb (fun r => bool_decide (ID r ∈ ids)) tbl).
End Store.

(** ** Updates of the table *)

Section Tables.
Implicit Types (tbl : list WorkRecord) (r rec : WorkRecord) (p : WorkRecord -> bool).

Lemma map_on_ext (f g : WorkRecord -> WorkRecord) tbl : (forall r, r ∈ tbl -> f r = g r) -> map f tbl = map g tbl.
Proof. intros H. apply map_ext_in. intros r Hr. apply H. by apply list_elem_of_In. Qed.

Lemma map_on_id (f : WorkRecord -> WorkRecord) tbl : (forall r, r ∈ tbl -> f r = r) -> map f tbl = tbl.
Proof. intros H. rewrite (map_on_ext f id) by done. apply map_id. Qed.

Lemma update_rows_none p set tbl : (forall r, r ∈ tbl -> p r = false) -> update_rows p set tbl = (tbl, 0).
Proof.
  intros Hp. unfold update_rows. f_equal.
  - apply map_on_id. intros r Hr. by rewrite Hp.
  - by apply countb_none.
Qed.

Lemma observed_iff tbl rec r : NoDup (map ID tbl) -> rec ∈ tbl -> r ∈ tbl -> observed rec r = str_eqb (ID r) (ID rec).
Proof.
  intros Hn Hrec Hr. unfold observed, is_state. destruct (str_eqb (ID r) (ID rec)) eqn:E; [|done].
  apply str_eqb_eq in E. rewrite (NoDup_map_eq ID tbl r rec Hn Hr Hrec E).
  rewrite bool_decide_true by done. cbn. rewrite Z.eqb_refl.
  by rewrite (proj2 (str_eqb_eq _ _) eq_refl).
Qed.
End Tables.

(** One row replaced by its identity. *)
Definition at_id (id : string) (set : WorkRecord -> WorkRecord) (r : WorkRecord) : WorkRecord :=
  if str_eqb (ID r) id then set r else r.

(** ** What a claim does *)

Section Claims.
Variable stamp : time -> time.

Lemma claim_leb_total a b : claim_leb a b = false -> claim_leb b a = true.
Proof.
  unfold claim_leb. destruct (Z.eqb_spec (AvailableAt a) (AvailableAt b)) as [E|E].
  - rewrite E, Z.eqb_refl. destruct (Z.eqb_spec (CreatedAt a) (CreatedAt b)) as [E2|E2].
    + rewrite E2, Z.eqb_refl. apply string_leb_total.
    + destruct (Z.eqb_spec (CreatedAt b) (CreatedAt a)); [done|]. intros. bool_to_prop. apply Z.ltb_lt. lia.
  - destruct (Z.eqb_spec (AvailableAt b) (AvailableAt a)); [done|]. intros. bool_to_prop. apply Z.ltb_lt. lia.
Qed.

Lemma claim_leb_trans a b c : claim_leb a b = true -> claim_leb b c = true -> claim_leb a c = true.
Proof.
  unfold claim_leb.
  destruct (Z.eqb_spec (AvailableAt a) (AvailableAt b)), (Z.eqb_spec (AvailableAt b) (AvailableAt c)),
    (Z.eqb_spec (AvailableAt a) (AvailableAt c)); try lia; intros H1 H2; bool_to_prop; try (apply Z.ltb_lt; lia).
  destruct (Z.eqb_spec (CreatedAt a) (CreatedAt b)), (Z.eqb_spec (CreatedAt b) (CreatedAt c)),
    (Z.eqb_spec (CreatedAt a) (CreatedAt c)); try lia; bool_to_prop; try (apply Z.ltb_lt; lia).
  by eapply string_leb_trans.
Qed.

Lemma select_some now kinds tbl rec :
  selectClaimCandidateTx now kinds tbl = Some rec ->
  rec ∈ tbl /\ due now kinds rec = true /\ forall r, r ∈ tbl -> due now kinds r = true -> claim_leb rec r = true.
Proof.
  unfold selectClaimCandidateTx. intros H.
  pose proof (isort_strongly_sorted claim_leb claim_leb_total claim_leb_trans
    (filter (fun r => due now kinds r = true) tbl)) as Hs.
  destruct (isort claim_leb _) as [|x l] eqn:E; [done|]. injection H as ->.
  assert (Hin : forall r, r ∈ rec :: l <-> due now kinds r = true /\ r ∈ tbl)
    by (intros r; rewrite <- E, isort_elem, list_elem_of_filter; done).
  apply StronglySorted_inv in Hs as [_ Hall]. rewrite Forall_forall in Hall.
  destruct (proj1 (Hin rec) ltac:(set_solver)) as [Hd Hr]. split_and!; try done.
  intros r Hr' Hd'. destruct (proj1 (elem_of_cons _ _ _) (proj2 (Hin r) (conj Hd' Hr'))) as [->|Hl]; [|by apply Hall].
  unfold claim_leb. rewrite !Z.eqb_refl. apply string_leb_refl.
Qed.

Lemma select_none now kinds tbl :
  selectClaimCandidateTx now kinds tbl = None -> forall r, r ∈ tbl -> due now kinds r = false.
Proof.
  unfold selectClaimCandidateTx. intros H r Hr. destruct (due now kinds r) eqn:Hd; [|done].
  assert (Hin : r ∈ isort claim_leb (filter (fun r => due now kinds r = true) tbl))
    by (apply isort_elem, list_elem_of_filter; done).
  destruct (isort claim_leb _) as [|x l]; [set_solver|done].
Qed.

Lemma dead_letter_not_due now kinds r : due now kinds (dead_letter now r) = false.
Proof. done. Qed.

(** The dead-lettered rows of a sweep, by their identities. *)
Definition dead_lettered (now : time) (ids : list string) (r : WorkRecord) : WorkRecord :=
  if bool_decide (ID r ∈ ids) then dead_letter now r else r.

Lemma dead_lettered_id now ids r : ID (dead_lettered now ids r) = ID r.
Proof. unfold dead_lettered. by case_bool_decide. Qed.

Definition exhausted (r : WorkRecord) : bool := AttemptLimit r <=? AttemptCount r.

Lemma markDead_spec now rec tbl :
  NoDup (map ID tbl) -> rec ∈ tbl ->
  markDeadExhaustedTx now rec tbl = (map (dead_lettered now [ID rec]) tbl, true).
Proof.
  intros Hn Hr. unfold markDeadExhaustedTx, update_rows. f_equal.
  - apply map_on_ext. intros r Hr'. rewrite (observed_iff tbl) by done. unfold dead_lettered, str_eqb.
    by rewrite (bool_decide_ext _ _ (list_elem_of_singleton (ID r) (ID rec))).
  - apply Z.eqb_eq, (countb_one ID) with rec; try done; [by rewrite (observed_iff tbl), str_eqb_eq by done|].
    intros r Hr' Ho. rewrite (observed_iff tbl) in Ho by done. by apply str_eqb_eq.
Qed.

Lemma leaseRecord_spec now rec owner ttl kinds tbl :
  NoDup (map ID tbl) -> rec ∈ tbl -> due now kinds rec = true ->
  leaseRecordTx stamp now rec owner ttl tbl
  = (map (at_id (ID rec) (take_lease stamp now owner ttl)) tbl, Some (take_lease stamp now owner ttl rec)).
Proof.
  intros Hn Hr Hd. unfold leaseRecordTx.
  assert (Hdue : is_state StatePending rec || expired now rec = true).
  { unfold due in Hd. bool_to_prop. apply orb_true_iff. apply orb_true_iff in H as [H|H]; bool_to_prop; auto. }
  assert (Hg : forall r, r ∈ tbl ->
    observed rec r && (is_state StatePending r || expired now r) = str_eqb (ID r) (ID rec)).
  { intros r Hr'. rewrite (observed_iff tbl) by done. destruct (str_eqb (ID r) (ID rec)) eqn:E; [|done].
    apply str_eqb_eq in E. by rewrite (NoDup_map_eq ID tbl r rec Hn Hr' Hr E). }
  f_equal; [apply map_on_ext; intros r Hr'; unfold at_id; by rewrite Hg|].
  destruct (filter _ tbl) as [|x l] eqn:E.
  - assert (Hin : rec ∈ filter (fun r => observed rec r && (is_state StatePending r || expired now r) = true) tbl).
    { apply list_elem_of_filter. by rewrite Hg, str_eqb_eq by done. }
    rewrite E in Hin. set_solver.
  - assert (Hin : x ∈ filter (fun r => observed rec r && (is_state StatePending r || expired now r) = true) tbl)
      by (rewrite E; set_solver).
    apply list_elem_of_filter in Hin as [Hx Hin]. rewrite Hg, str_eqb_eq in Hx by done.
    cbn. by rewrite (NoDup_map_eq ID tbl x rec Hn Hin Hr Hx).
Qed.

(** A sweep dead-letters due exhausted rows, then leases the first row due that
    is left, if there is one and the bound on the sweep was not met. *)
Record swept (n : nat) (now : time) (owner : string) (ttl : duration) (kinds : list string)
    (tbl tbl' : list WorkRecord) (claimed : option WorkRecord) (ids : list string) : Prop := mkSwept {
  swept_nodup : NoDup ids;
  swept_bound : (length ids <= n)%nat;
  swept_exhausted : forall id, id ∈ ids -> exists r, r ∈ tbl /\ ID r = id /\ due now kinds r = true /\ exhausted r = true;
  swept_claim :
    let left := map (dead_lettered now ids) tbl in
    match claimed with
    | None => tbl' = left /\ (length ids = n \/ forall r, r ∈ left -> due now kinds r = false)
    | Some c => exists r, r ∈ tbl /\ (ID r ∉ ids) /\ due now kinds r = true /\ exhausted r = false
        /\ (forall r', r' ∈ tbl -> due now kinds r' = true -> ID r' ∉ ids -> claim_leb r r' = true)
        /\ c = take_lease stamp now owner ttl r
        /\ tbl' = map (at_id (ID r) (take_lease stamp now owner ttl)) left
    end;
}.

Lemma dead_lettered_nil now tbl : map (dead_lettered now []) tbl = tbl.
Proof. rewrite <- (map_id tbl) at 2. by apply map_ext. Qed.

Lemma dead_lettered_cons now id ids tbl :
  id ∉ ids ->
  map (dead_lettered now ids) (map (dead_lettered now [id]) tbl) = map (dead_lettered now (id :: ids)) tbl.
Proof.
  intros Hid. rewrite map_map. apply map_ext. intros r. unfold dead_lettered at 1. rewrite dead_lettered_id.
  unfold dead_lettered. repeat case_bool_decide; set_solver.
Qed.

Lemma claim_sweep_spec n now owner ttl kinds tbl :
  NoDup (map ID tbl) ->
  exists ids, swept n now owner ttl kinds tbl (claim_sweep stamp n now owner ttl kinds tbl).1
                (claim_sweep stamp n now owner ttl kinds tbl).2 ids.
Proof.
  revert tbl. induction n as [|n IH]; intros tbl Hn; cbn [claim_sweep].
  { exists []. split; [constructor|done|set_solver|]. cbn. rewrite dead_lettered_nil. auto. }
  destruct (selectClaimCandidateTx now kinds tbl) as [rec|] eqn:Es.
  2:{ exists []. split; [constructor|cbn; lia|set_solver|]. cbn. rewrite dead_lettered_nil.
      split; [done|]. right. by apply select_none. }
  apply select_some in Es as (Hr & Hd & Hmin).
  destruct (AttemptLimit rec <=? AttemptCount rec) eqn:Hx.
  - rewrite (markDead_spec now rec tbl Hn Hr).
    assert (Hn' : NoDup (map ID (map (dead_lettered now [ID rec]) tbl))).
    { rewrite map_map. erewrite map_ext; [exact Hn|]. intros; apply dead_lettered_id. }
    destruct (IH _ Hn') as [ids [H1 H2 H3 H4]]. exists (ID rec :: ids).
    assert (Hback : forall id, id ∈ ids -> exists r, r ∈ tbl /\ ID r = id /\ id <> ID rec
      /\ due now kinds r = true /\ exhausted r = true).
    { intros id Hid. destruct (H3 id Hid) as (r & Hin & Hid' & Hdue & Hex).
      apply list_elem_of_fmap in Hin as (r0 & -> & Hin). rewrite dead_lettered_id in Hid'.
      unfold dead_lettered in Hdue, Hex. case_bool_decide as Hc; [done|]. exists r0. split_and!; try done.
      intros ->. set_solver. }
    assert (Hnew : ID rec ∉ ids) by (intros Hin; destruct (Hback _ Hin) as (? & _ & _ & Hne & _); done).
    rewrite (dead_lettered_cons now (ID rec) ids tbl Hnew) in H4.
    split; [by constructor|cbn; lia| |].
    + intros id [->|Hid]%elem_of_cons; [by exists rec|]. destruct (Hback id Hid) as (r & ? & ? & _ & ? & ?). eauto.
    + cbv zeta in H4 |- *. destruct (snd (claim_sweep stamp n now owner ttl kinds _)) as [c|].
      * destruct H4 as (r & Hin & Hni & Hdue & Hex & Hm & Hc & Ht).
        apply list_elem_of_fmap in Hin as (r0 & -> & Hin). rewrite dead_lettered_id in Hni, Ht.
        unfold dead_lettered in Hdue. case_bool_decide as Hc0; [done|].
        assert (E : dead_lettered now [ID rec] r0 = r0) by (unfold dead_lettered; by rewrite bool_decide_false).
        rewrite E in *. exists r0. split_and!; try done; [set_solver|].
        intros r' Hr' Hd' Hni'. apply Hm; [|done|set_solver].
        apply list_elem_of_fmap. exists r'. split; [|done]. unfold dead_lettered. rewrite bool_decide_false; [done|].
        set_solver.
      * destruct H4 as [Ht Hl]. split; [done|]. destruct Hl as [Hl|Hl]; [left; cbn; lia|by right].
  - rewrite (leaseRecord_spec now rec owner ttl kinds tbl) by done. cbn [fst snd]. exists [].
    split; [constructor|cbn; lia|set_solver|]. cbv zeta. rewrite dead_lettered_nil. exists rec.
    split_and!; try done; [set_solver|]. intros; auto.
Qed.
End Claims.

(** ** Workers *)

Section Workers.
Variable stamp : time -> time.

(** The table, every identity ever drawn, and every record a claim returned to
    a worker. *)
Record world := mkWorld { wTbl : list WorkRecord; wUsed : gset string; wIssued : list WorkRecord }.

Inductive work_event : Type :=
| EvEnqueue (key : string)
| EvCancel
| EvClaim (now : time) (claimed : option WorkRecord)
| EvOwner (rec : WorkRecord)
| EvPrune.

Definition claimed_of (r : result WorkError (option WorkRecord)) : option WorkRecord :=
  match r with Ok c => c | Err _ => None end.

(** Each operation is one transaction.  [uuid.NewString] never returns an empty
    or an earlier identity; owners act on records they were given. *)
Inductive work_step (w : world) : work_event -> world -> Prop :=
| step_enqueue uuid now params :
    uuid <> "" -> uuid ∉ wUsed w ->
    work_step w (EvEnqueue (TrimSpace (epDedupKey params)))
      (mkWorld (EnqueueTx stamp uuid now params (wTbl w)).1 ({[uuid]} ∪ wUsed w) (wIssued w))
| step_cancel rtype rid :
    work_step w EvCancel (mkWorld (CancelPendingForResourceTx rtype rid (wTbl w)) (wUsed w) (wIssued w))
| step_claim owner ttl kinds now :
    work_step w (EvClaim now (claimed_of (Claim stamp owner ttl kinds now (wTbl w)).2))
      (mkWorld (Claim stamp owner ttl kinds now (wTbl w)).1 (wUsed w)
        (option_list (claimed_of (Claim stamp owner ttl kinds now (wTbl w)).2) ++ wIssued w))
| step_heartbeat now rec ttl :
    rec ∈ wIssued w ->
    work_step w (EvOwner rec) (mkWorld (Heartbeat now rec ttl (wTbl w)).1 (wUsed w) (wIssued w))
| step_complete now rec :
    rec ∈ wIssued w ->
    work_step w (EvOwner rec) (mkWorld (Complete now rec (wTbl w)).1 (wUsed w) (wIssued w))
| step_fail now rec err opts rnd :
    rec ∈ wIssued w ->
    work_step w (EvOwner rec) (mkWorld (Fail now rec err opts rnd (wTbl w)).1 (wUsed w) (wIssued w))
| step_prune cutoff limit :
    work_step w EvPrune (mkWorld (PruneTerminal stamp cutoff limit (wTbl w)).1 (wUsed w) (wIssued w)).

Inductive work_run (w : world) : list work_event -> world -> Prop :=
| work_done : work_run w [] w
| work_then es ev w' w'' : work_run w es w' -> work_step w' ev w'' -> work_run w (es ++ [ev]) w''.

Definition empty_world : world := mkWorld [] ∅ [].

(** ** The invariant *)

Record row_ok (used : gset string) (issued : list WorkRecord) (r : WorkRecord) : Prop := mkRowOk {
  row_used : ID r ∈ used;
  row_id : ID r <> "";
  row_attempts : 0 <= AttemptCount r <= AttemptLimit r /\ 1 <= AttemptLimit r;
  row_lease : State r = StateLeased <-> is_Some (LeaseExpiresAt r);
  row_done : Terminal r = true <-> is_Some (CompletedAt r);
  row_epochs : forall c, c ∈ issued -> ID c = ID r -> OwnerEpoch c <= OwnerEpoch r;
  row_owner : State r = StateLeased ->
    exists c, c ∈ issued /\ ID c = ID r /\ OwnerEpoch c = OwnerEpoch r /\ OwnerID c = OwnerID r;
}.

Record work_inv (w : world) : Prop := mkWorkInv {
  inv_ids : NoDup (map ID (wTbl w));
  inv_keys : NoDup (map DedupKey (wTbl w));
  inv_rows : forall r, r ∈ wTbl w -> row_ok (wUsed w) (wIssued w) r;
  inv_issued : NoDup (map (fun c => (ID c, OwnerEpoch c)) (wIssued w));
  inv_issued_ids : forall c, c ∈ wIssued w -> ID c ∈ wUsed w /\ ID c <> "" /\ OwnerID c <> "";
}.

(** A change of rows that keeps identities and keys. *)
Definition keeps_key (f : WorkRecord -> WorkRecord) : Prop :=
  forall r, ID (f r) = ID r /\ DedupKey (f r) = DedupKey r.

Lemma inv_map f tbl used issued :
  keeps_key f -> (forall r, r ∈ tbl -> row_ok used issued r -> row_ok used issued (f r)) ->
  work_inv (mkWorld tbl used issued) -> work_inv (mkWorld (map f tbl) used issued).
Proof.
  intros Hk Hf [H1 H2 H3 H4 H5]. split; cbn [wTbl wUsed wIssued]; try done.
  - rewrite map_map. erewrite map_ext; [exact H1|]. intros; apply Hk.
  - rewrite map_map. erewrite map_ext; [exact H2|]. intros; apply Hk.
  - intros r (r0 & -> & Hr)%list_elem_of_fmap. auto.
Qed.

Lemma inv_filter P `{!forall r, Decision (P r)} w :
  work_inv w -> work_inv (mkWorld (filter P (wTbl w)) (wUsed w) (wIssued w)).
Proof.
  intros [H1 H2 H3 H4 H5]. split; cbn [wTbl wUsed wIssued]; try done.
  - eapply sublist_NoDup; [exact H1|]. apply sublist_map, sublist_filter.
  - eapply sublist_NoDup; [exact H2|]. apply sublist_map, sublist_filter.
  - intros r [_ Hr]%list_elem_of_filter. auto.
Qed.

(** The owner's compare-and-swap keeps the invariant when the row it writes does. *)
Lemma inv_owner_update what rec set w :
  keeps_key set ->
  (forall r, holds rec r = true -> row_ok (wUsed w) (wIssued w) r -> row_ok (wUsed w) (wIssued w) (set r)) ->
  work_inv w -> work_inv (mkWorld (owner_update what rec set (wTbl w)).1 (wUsed w) (wIssued w)).
Proof.
  intros Hk Hs Hi. unfold owner_update. destruct (_ || _); [by destruct w|]. cbn [fst].
  apply inv_map; [|intros r _ Hr; destruct (holds rec r) eqn:E; auto|by destruct w].
  intros r. destruct (holds rec r); [apply Hk|done].
Qed.

Lemma holds_leased rec r : holds rec r = true -> State r = StateLeased.
Proof. unfold holds, LeaseHeldBy, is_state. intros H. bool_to_prop. by apply bool_decide_eq_true in H0. Qed.

Lemma holds_spec rec r :
  holds rec r = true <->
  ID r = ID rec /\ State r = StateLeased /\ OwnerID r = OwnerID rec /\ OwnerEpoch r = OwnerEpoch rec.
Proof.
  unfold holds, LeaseHeldBy, is_state. rewrite !andb_true_iff, !str_eqb_eq, Z.eqb_eq, bool_decide_eq_true. tauto.
Qed.

(** Rows that stop being leased need no owner. *)
Lemma row_ok_unleased used issued r r' :
  row_ok used issued r -> ID r' = ID r -> OwnerEpoch r' = OwnerEpoch r ->
  0 <= AttemptCount r' <= AttemptLimit r' -> 1 <= AttemptLimit r' ->
  State r' <> StateLeased -> LeaseExpiresAt r' = None -> (Terminal r' = true <-> is_Some (CompletedAt r')) ->
  row_ok used issued r'.
Proof.
  intros [H1 H2 H3 H4 H5 H6 H7] Hid Hep Ha Hl Hs He Ht.
  split; rewrite ?Hid, ?Hep, ?He; done.
Qed.

Lemma row_ok_extend used issued now ttl r :
  State r = StateLeased -> row_ok used issued r -> row_ok used issued (extend_lease now ttl r).
Proof. intros Hs [H1 H2 H3 H4 H5 H6 H7]. split; done. Qed.

Lemma row_ok_succeed used issued now r : row_ok used issued r -> row_ok used issued (succeed now r).
Proof.
  intros H. destruct (row_attempts _ _ _ H). apply (row_ok_unleased used issued r); done.
Qed.

Lemma row_ok_dead used issued now r : row_ok used issued r -> row_ok used issued (dead_letter now r).
Proof.
  intros H. destruct (row_attempts _ _ _ H). apply (row_ok_unleased used issued r); done.
Qed.

Lemma row_ok_disposition used issued now retry text delay r :
  row_ok used issued r -> row_ok used issued (disposition now retry text delay r).
Proof.
  intros H. destruct (row_attempts _ _ _ H) as [Ha Hl].
  assert (Hst : State (disposition now retry text delay r) = if negb retry then StateFailed
    else if AttemptLimit r <=? AttemptCount r then StateDead else StatePending) by reflexivity.
  assert (Hcm : CompletedAt (disposition now retry text delay r) =
    if retry && (AttemptCount r <? AttemptLimit r) then None else Some now) by reflexivity.
  apply (row_ok_unleased used issued r); try done.
  - rewrite Hst. destruct retry, (_ <=? _); done.
  - unfold Terminal. rewrite Hst, Hcm. destruct retry; cbn [negb andb]; [|split; [by eexists|done]].
    destruct (Z.leb_spec (AttemptLimit r) (AttemptCount r)), (Z.ltb_spec (AttemptCount r) (AttemptLimit r)); try lia.
    + split; [by eexists|done].
    + split; [done|intros [? ?]; done].
Qed.

(** ** Every operation keeps the invariant *)

Lemma inv_used_mono w used : wUsed w ⊆ used -> work_inv w -> work_inv (mkWorld (wTbl w) used (wIssued w)).
Proof.
  intros Hu [H1 H2 H3 H4 H5]. split; cbn [wTbl wUsed wIssued]; try done.
  - intros r Hr. destruct (H3 r Hr). split; try done. set_solver.
  - intros c Hc. destruct (H5 c Hc) as (? & ? & ?). split_and!; try done. set_solver.
Qed.

Lemma validated_ok p p' :
  validated p = Ok p' -> 1 <= epAttemptLimit p' /\ epDedupKey p' = TrimSpace (epDedupKey p).
Proof.
  unfold validated. intros H.
  do 4 (let G := fresh in apply bind_ok in H as ([] & G & H); apply guard_err_ok in G). bool_to_prop.
  apply bind_ok in H as (payload & _ & H). injection H as <-. cbn [epAttemptLimit epDedupKey]. split; [|done].
  destruct (Z.eqb_spec (epAttemptLimit p) 0); [unfold DefaultAttemptLimit|]; lia.
Qed.

Lemma existsb_false {A} (f : A -> bool) l x : existsb f l = false -> x ∈ l -> f x = false.
Proof.
  intros H Hx. destruct (f x) eqn:E; [|done]. assert (existsb f l = true); [|congruence].
  apply existsb_exists. exists x. by rewrite <- list_elem_of_In.
Qed.

Lemma inv_enqueue uuid now params w :
  uuid <> "" -> uuid ∉ wUsed w -> work_inv w ->
  work_inv (mkWorld (EnqueueTx stamp uuid now params (wTbl w)).1 ({[uuid]} ∪ wUsed w) (wIssued w)).
Proof.
  intros Hne Hu Hi. unfold EnqueueTx.
  pose proof (inv_used_mono w ({[uuid]} ∪ wUsed w) ltac:(set_solver) Hi) as Hi'.
  destruct (validated params) as [p|] eqn:Ev; [|done].
  destruct (validated_ok _ _ Ev) as [Hl _]. destruct (existsb _ (wTbl w)) eqn:Ek.
  - unfold update_rows. cbn [fst].
    apply inv_map; [| |done].
    + intros r. destruct (_ && _); done.
    + intros r _ Hr. destruct (_ && _); [|done]. apply (row_ok_unleased _ _ r); try done.
      * change (0 <= 0 <= epAttemptLimit p). lia.
      * split; [done|]. by intros [? ?].
  - destruct (existsb (fun r => str_eqb (ID r) uuid) (wTbl w)) eqn:Ei; [done|]. cbn [fst].
    destruct Hi' as [H1 H2 H3 H4 H5]. split; cbn [wTbl wUsed wIssued] in *; try done.
    + rewrite map_app. apply NoDup_app. split_and!; [done| |apply NoDup_singleton].
      intros id (r & -> & Hr)%list_elem_of_fmap Hid. apply list_elem_of_singleton in Hid.
      pose proof (existsb_false _ _ _ Ei Hr) as E. cbn beta in E. apply str_eqb_neq in E. done.
    + rewrite map_app. apply NoDup_app. split_and!; [done| |apply NoDup_singleton].
      intros id (r & -> & Hr)%list_elem_of_fmap Hid. apply list_elem_of_singleton in Hid.
      pose proof (existsb_false _ _ _ Ek Hr) as E. cbn beta in E. apply str_eqb_neq in E. done.
    + intros r [Hr|Hr]%elem_of_app; [by apply H3|]. apply list_elem_of_singleton in Hr as ->.
      split; cbn [new_row ID AttemptCount AttemptLimit State LeaseExpiresAt CompletedAt OwnerEpoch]; try done.
      * set_solver.
      * lia.
      * intros c Hc E. destruct (inv_issued_ids _ Hi c Hc) as (Hin & _). congruence.
Qed.

Lemma inv_lease now owner ttl w r0 :
  owner <> "" -> r0 ∈ wTbl w -> Terminal r0 = false -> exhausted r0 = false -> work_inv w ->
  work_inv (mkWorld (map (at_id (ID r0) (take_lease stamp now owner ttl)) (wTbl w)) (wUsed w)
    (take_lease stamp now owner ttl r0 :: wIssued w)).
Proof.
  intros Ho Hr Ht Hx [H1 H2 H3 H4 H5]. split; cbn [wTbl wUsed wIssued].
  - rewrite map_map. erewrite map_ext; [exact H1|]. intros r. unfold at_id. by destruct (str_eqb _ _).
  - rewrite map_map. erewrite map_ext; [exact H2|]. intros r. unfold at_id. by destruct (str_eqb _ _).
  - intros r' (r & -> & Hr')%list_elem_of_fmap. destruct (H3 r Hr') as [K1 K2 K3 K4 K5 K6 K7]. unfold at_id.
    destruct (str_eqb (ID r) (ID r0)) eqn:E; bool_to_prop.
    + rewrite (NoDup_map_eq ID _ r r0 H1 Hr' Hr E) in *. unfold exhausted in Hx. bool_to_prop.
      split; try done.
      * change (0 <= AttemptCount r0 + 1 <= AttemptLimit r0 /\ 1 <= AttemptLimit r0). lia.
      * change (false = true <-> is_Some (CompletedAt r0)). rewrite <- K5, Ht. done.
      * intros c [->|Hc]%elem_of_cons Hid; [done|].
        change (OwnerEpoch c <= OwnerEpoch r0 + 1). specialize (K6 c Hc Hid). lia.
      * intros _. exists (take_lease stamp now owner ttl r0). split; [set_solver|done].
    + split; try done.
      * intros c [->|Hc]%elem_of_cons Hid; [by destruct E|auto].
      * intros Hs. destruct (K7 Hs) as (c & Hc & ?). exists c. split; [set_solver|done].
  - cbn [map]. apply NoDup_cons. split; [|done]. intros (c & E & Hc)%list_elem_of_fmap.
    injection E as E1 E2. pose proof (row_epochs _ _ _ (H3 r0 Hr) c Hc (eq_sym E1)). lia.
  - intros c [->|Hc]%elem_of_cons; [|auto]. destruct (H3 r0 Hr). done.
Qed.

Lemma due_not_terminal now kinds r : due now kinds r = true -> Terminal r = false.
Proof.
  unfold due, is_state, Terminal. intros H. destruct (State r); try done; bool_to_prop.
Qed.

Lemma inv_claim owner ttl kinds now w :
  work_inv w ->
  let out := Claim stamp owner ttl kinds now (wTbl w) in
  work_inv (mkWorld out.1 (wUsed w) (option_list (claimed_of out.2) ++ wIssued w)).
Proof.
  intros Hi. unfold Claim. destruct (str_eqb (TrimSpace owner) "") eqn:Eo; [by destruct w|].
  destruct (ttl <=? 0); [by destruct w|]. cbv zeta.
  destruct (claim_sweep_spec stamp maxClaimSweeps now (TrimSpace owner) ttl (cleanKinds kinds) (wTbl w)
    (inv_ids _ Hi)) as [ids [S1 S2 S3 S4]].
  destruct (claim_sweep _ _ _ _ _ _ _) as [tbl' claimed]. cbn [fst snd claimed_of] in *.
  assert (Hd : work_inv (mkWorld (map (dead_lettered now ids) (wTbl w)) (wUsed w) (wIssued w))).
  { apply inv_map; [| |by destruct w].
    - intros r. unfold dead_lettered. by case_bool_decide.
    - intros r _ Hr. unfold dead_lettered. case_bool_decide; [by apply row_ok_dead|done]. }
  destruct claimed as [c|]; cbn [option_list app].
  - destruct S4 as (r & Hr & Hni & Hdue & Hex & _ & -> & ->).
    apply (inv_lease now (TrimSpace owner) ttl (mkWorld (map (dead_lettered now ids) (wTbl w)) (wUsed w) (wIssued w)));
      try done; [by apply str_eqb_neq| |by eapply due_not_terminal].
    apply list_elem_of_fmap. exists r. split; [|done]. unfold dead_lettered. by rewrite bool_decide_false.
  - destruct S4 as [-> _]. done.
Qed.

Lemma inv_step w ev w' : work_step w ev w' -> work_inv w -> work_inv w'.
Proof.
  destruct 1 as [uuid now params Hne Hu|rtype rid|owner ttl kinds now|now rec ttl Hin|now rec Hin
    |now rec err opts rnd Hin|cutoff limit]; intros Hi.
  - by apply inv_enqueue.
  - by apply inv_filter.
  - by apply inv_claim.
  - unfold Heartbeat. destruct (_ || _); [by destruct w|]. destruct (ttl <=? 0); [by destruct w|].
    apply inv_owner_update; [done| |done]. intros r Hh Hr. apply row_ok_extend; [by eapply holds_leased|done].
  - apply inv_owner_update; [done| |done]. intros r _ Hr. by apply row_ok_succeed.
  - apply inv_owner_update; [done| |done]. intros r _ Hr. by apply row_ok_disposition.
  - by apply inv_filter.
Qed.

Lemma empty_inv : work_inv empty_world.
Proof. split; cbn; try constructor; set_solver. Qed.

Lemma inv_run w es w' : work_run w es w' -> work_inv w -> work_inv w'.
Proof. induction 1; eauto using inv_step. Qed.

(** ** The fate of a row *)

Lemma Claim_cases owner ttl kinds now tbl :
  NoDup (map ID tbl) ->
  let out := Claim stamp owner ttl kinds now tbl in
  (out.1 = tbl /\ claimed_of out.2 = None)
  \/ exists ids, swept stamp maxClaimSweeps now (TrimSpace owner) ttl (cleanKinds kinds) tbl out.1 (claimed_of out.2) ids.
Proof.
  intros Hn. unfold Claim. destruct (str_eqb _ _); [by left|]. destruct (ttl <=? 0); [by left|]. right.
  destruct (claim_sweep_spec stamp maxClaimSweeps now (TrimSpace owner) ttl (cleanKinds kinds) tbl Hn) as [ids H].
  exists ids. cbv zeta. by destruct (claim_sweep _ _ _ _ _ _ _).
Qed.

(** The row [r] after a sweep that leased [claimed] and dead-lettered [ids]. *)
Definition after_claim (now : time) (ttl : duration) (ids : list string) (claimed : option WorkRecord)
    (r : WorkRecord) : WorkRecord :=
  match claimed with
  | Some c => at_id (ID c) (take_lease stamp now (OwnerID c) ttl) (dead_lettered now ids r)
  | None => dead_lettered now ids r
  end.

Lemma swept_map n now owner ttl kinds tbl tbl' claimed ids :
  swept stamp n now owner ttl kinds tbl tbl' claimed ids -> tbl' = map (after_claim now ttl ids claimed) tbl.
Proof.
  intros [_ _ _ H]. cbv zeta in H. unfold after_claim. destruct claimed as [c|].
  - destruct H as (r & _ & _ & _ & _ & _ & -> & ->). by rewrite map_map.
  - by destruct H as [-> _].
Qed.

Lemma after_claim_id now ttl ids claimed r : ID (after_claim now ttl ids claimed r) = ID r.
Proof.
  unfold after_claim, at_id, dead_lettered. destruct claimed; [destruct (str_eqb _ _)|]; by case_bool_decide.
Qed.

(** A sweep leaves alone what was not due. *)
Lemma swept_untouched n now owner ttl kinds tbl tbl' claimed ids r :
  NoDup (map ID tbl) -> swept stamp n now owner ttl kinds tbl tbl' claimed ids -> r ∈ tbl ->
  due now kinds r = false -> after_claim now ttl ids claimed r = r.
Proof.
  intros Hn [_ _ H3 H4] Hr Hd.
  assert (Hid : ID r ∉ ids).
  { intros Hin. destruct (H3 _ Hin) as (r0 & Hr0 & E & Hd0 & _).
    rewrite (NoDup_map_eq ID tbl r0 r Hn Hr0 Hr E) in Hd0. congruence. }
  assert (Hdl : dead_lettered now ids r = r) by (unfold dead_lettered; by rewrite bool_decide_false).
  unfold after_claim. destruct claimed as [c|]; [|done]. rewrite Hdl. unfold at_id.
  destruct H4 as (r0 & Hr0 & _ & Hd0 & _ & _ & -> & _).
  destruct (str_eqb (ID r) _) eqn:E; [|done]. apply str_eqb_eq in E.
  rewrite (NoDup_map_eq ID tbl r r0 Hn Hr Hr0 E) in Hd. congruence.
Qed.

(** The claims of one identity in a history. *)
Definition claims_of (id : string) (es : list work_event) : Z :=
  countb (fun ev => match ev with EvClaim _ (Some c) => str_eqb (ID c) id | _ => false end) es.

Lemma claims_one id ev : claims_of id [ev] = match ev with EvClaim _ (Some c) => if str_eqb (ID c) id then 1 else 0 | _ => 0 end.
Proof. unfold claims_of, countb, sumZ. cbn [foldr]. destruct ev as [| |? [c|]| |]; try done. by destruct (str_eqb _ _). Qed.

Definition same_budget (n : Z) (r r' : WorkRecord) : Prop :=
  ID r' = ID r /\ DedupKey r' = DedupKey r /\ AttemptLimit r' = AttemptLimit r
  /\ AttemptCount r' = AttemptCount r + n.

Lemma owner_update_rows what rec set tbl :
  exists f, (owner_update what rec set tbl).1 = map f tbl /\ forall r, f r = r \/ (holds rec r = true /\ f r = set r).
Proof.
  unfold owner_update. destruct (_ || _).
  - exists id. rewrite map_id. auto.
  - exists (fun r => if holds rec r then set r else r). split; [done|]. intros r. destruct (holds rec r); auto.
Qed.

Lemma owner_update_budget what rec set tbl r :
  (forall r, same_budget 0 r (set r)) -> r ∈ tbl ->
  exists r', r' ∈ (owner_update what rec set tbl).1 /\ same_budget 0 r r'.
Proof.
  intros Hs Hr. destruct (owner_update_rows what rec set tbl) as (f & -> & Hf). exists (f r).
  split; [by apply list_elem_of_fmap_2|]. destruct (Hf r) as [->|[_ ->]]; [|auto]. split_and!; try done. lia.
Qed.

Lemma step_row w ev w' r :
  work_inv w -> work_step w ev w' -> r ∈ wTbl w -> ev <> EvEnqueue (DedupKey r) ->
  (exists r', r' ∈ wTbl w' /\ same_budget (claims_of (ID r) [ev]) r r')
  \/ ((forall r', r' ∈ wTbl w' -> ID r' <> ID r) /\ claims_of (ID r) [ev] = 0).
Proof.
  intros Hi Hs Hr Hev. pose proof (inv_ids _ Hi) as Hn.
  assert (Hrefl : same_budget 0 r r) by (split_and!; try done; lia).
  assert (Hfilter : forall P `{!forall x, Decision (P x)},
    (exists r', r' ∈ filter P (wTbl w) /\ same_budget 0 r r')
    \/ ((forall r', r' ∈ filter P (wTbl w) -> ID r' <> ID r) /\ 0 = 0)).
  { intros P HP. destruct (decide (P r)) as [HPr|HPr].
    - left. exists r. by rewrite list_elem_of_filter.
    - right. split; [|done]. intros r' [HP' Hr']%list_elem_of_filter E.
      by rewrite (NoDup_map_eq ID _ r' r Hn Hr' Hr E) in HP'. }
  rewrite claims_one.
  destruct Hs as [uuid now params Hne Hu|rtype rid|owner ttl kinds now|now rec ttl Hin|now rec Hin
    |now rec err opts rnd Hin|cutoff limit]; cbn [wTbl].
  - left. unfold EnqueueTx. destruct (validated params) as [p|] eqn:Ev; [|by exists r].
    destruct (existsb _ _).
    + cbn [fst update_rows]. exists r. split; [|done]. apply list_elem_of_fmap. exists r. split; [|done].
      destruct (str_eqb (DedupKey r) (epDedupKey p)) eqn:E; [|done]. apply str_eqb_eq in E.
      destruct Hev. by rewrite E, (proj2 (validated_ok _ _ Ev)).
    + destruct (existsb _ _); [by exists r|]. exists r. split; [|done]. cbn [fst]. set_solver.
  - apply Hfilter.
  - left. destruct (Claim_cases owner ttl kinds now (wTbl w) Hn) as [[-> ->]|[ids Hsw]]; [by exists r|].
    rewrite (swept_map _ _ _ _ _ _ _ _ _ Hsw). eexists. split; [by apply list_elem_of_fmap_2|].
    destruct Hsw as [_ _ H3 H4]. set (cl := claimed_of _) in *. cbv zeta in H4. unfold after_claim.
    assert (Hdl : same_budget 0 r (dead_lettered now ids r)).
    { unfold dead_lettered. case_bool_decide; [|done]. split_and!; try done. change (AttemptCount r = AttemptCount r + 0). lia. }
    destruct cl as [c|]; [|done]. destruct H4 as (r0 & Hr0 & Hni & _ & _ & _ & -> & _).
    change (ID (take_lease stamp now (TrimSpace owner) ttl r0)) with (ID r0).
    unfold at_id. rewrite dead_lettered_id. destruct (str_eqb (ID r) (ID r0)) eqn:E.
    + apply str_eqb_eq in E. rewrite (proj2 (str_eqb_eq (ID r0) (ID r)) (eq_sym E)).
      unfold dead_lettered. rewrite bool_decide_false by (by rewrite E). done.
    + rewrite (proj2 (str_eqb_neq (ID r0) (ID r))) by (apply str_eqb_neq in E; congruence). done.
  - left. unfold Heartbeat. destruct (_ || _); [by exists r|]. destruct (ttl <=? 0); [by exists r|].
    apply owner_update_budget; [|done]. intros x. split_and!; try done. change (AttemptCount x = AttemptCount x + 0). lia.
  - left. apply owner_update_budget; [|done]. intros x. split_and!; try done. change (AttemptCount x = AttemptCount x + 0). lia.
  - left. apply owner_update_budget; [|done]. intros x. split_and!; try done. change (AttemptCount x = AttemptCount x + 0). lia.
  - apply Hfilter.
Qed.

Lemma step_gone w ev w' id :
  work_inv w -> work_step w ev w' -> id ∈ wUsed w -> (forall r, r ∈ wTbl w -> ID r <> id) ->
  (forall r, r ∈ wTbl w' -> ID r <> id) /\ claims_of id [ev] = 0 /\ id ∈ wUsed w'.
Proof.
  intros Hi Hs Hu Hg. pose proof (inv_ids _ Hi) as Hn. rewrite claims_one.
  assert (Hmap : forall f, (forall r, ID (f r) = ID r) -> forall r, r ∈ map f (wTbl w) -> ID r <> id).
  { intros f Hf r (r0 & -> & Hr)%list_elem_of_fmap. rewrite Hf. auto. }
  assert (Hown : forall what rec set, (forall r, ID (set r) = ID r) ->
    forall r, r ∈ (owner_update what rec set (wTbl w)).1 -> ID r <> id).
  { intros what rec set Hset. destruct (owner_update_rows what rec set (wTbl w)) as (f & -> & Hf).
    apply Hmap. intros r. destruct (Hf r) as [->|[_ ->]]; auto. }
  destruct Hs as [uuid now params Hne Hun|rtype rid|owner ttl kinds now|now rec ttl Hin|now rec Hin
    |now rec err opts rnd Hin|cutoff limit]; cbn [wTbl wUsed].
  - split; [|split; [done|set_solver]]. unfold EnqueueTx. destruct (validated params) as [p|]; [|done].
    destruct (existsb _ _); [apply Hmap; intros r; by destruct (_ && _)|].
    destruct (existsb _ _); [done|]. intros r [Hr|Hr]%elem_of_app; [auto|].
    apply list_elem_of_singleton in Hr as ->. cbn. intros ->. done.
  - split; [|done]. intros r [_ Hr]%list_elem_of_filter. auto.
  - destruct (Claim_cases owner ttl kinds now (wTbl w) Hn) as [[-> ->]|[ids Hsw]]; [done|].
    rewrite (swept_map _ _ _ _ _ _ _ _ _ Hsw). split; [apply Hmap; intros; apply after_claim_id|]. split; [|done].
    destruct Hsw as [_ _ _ H4]. destruct (claimed_of _) as [c|]; [|done].
    destruct H4 as (r0 & Hr0 & _ & _ & _ & _ & -> & _).
    change (ID (take_lease stamp now (TrimSpace owner) ttl r0)) with (ID r0).
    by rewrite (proj2 (str_eqb_neq _ _) (Hg r0 Hr0)).
  - split; [|done]. unfold Heartbeat. destruct (_ || _); [done|]. destruct (ttl <=? 0); [done|]. by apply Hown.
  - split; [by apply Hown|done].
  - split; [by apply Hown|done].
  - split; [|done]. intros r [_ Hr]%list_elem_of_filter. auto.
Qed.

(** ** Properties *)

Lemma issued_mono w es w' : work_run w es w' -> wIssued w ⊆ wIssued w'.
Proof.
  induction 1 as [|es ev w' w'' _ IH Hs]; [done|]. destruct Hs; cbn [wIssued]; try done. set_solver.
Qed.

Lemma owner_update_lost what rec set tbl :
  ID rec <> "" -> OwnerID rec <> "" -> (forall r, r ∈ tbl -> holds rec r = false) ->
  owner_update what rec set tbl = (tbl, Err (ErrLeaseLost (ID rec) (OwnerID rec) (OwnerEpoch rec))).
Proof.
  intros H1 H2 Hh. unfold owner_update.
  rewrite (proj2 (str_eqb_neq _ _) H1), (proj2 (str_eqb_neq _ _) H2), update_rows_none by done. done.
Qed.

(** C1: Once a record has been claimed again, the earlier claimant is fenced out
    for good: from then on its heartbeat, its completion and its failure all
    report [ErrLeaseLost] and leave the table as it is, whatever else happens
    to the record (retries, resurrection, pruning) in between. *)
Theorem superseded_owner_fenced es w es' w' rec rec' now ttl err opts rnd :
  work_run empty_world es w -> work_run w es' w' ->
  rec ∈ wIssued w -> rec' ∈ wIssued w -> ID rec = ID rec' -> OwnerEpoch rec < OwnerEpoch rec' -> 0 < ttl ->
  let lost := (wTbl w', Err (ErrLeaseLost (ID rec) (OwnerID rec) (OwnerEpoch rec))) in
  Heartbeat now rec ttl (wTbl w') = lost /\ Complete now rec (wTbl w') = lost
  /\ Fail now rec err opts rnd (wTbl w') = lost.
Proof.
  intros R1 R2 Hrec Hrec' Eid Hlt Httl lost.
  pose proof (inv_run _ _ _ R1 empty_inv) as Hi. pose proof (inv_run _ _ _ R2 Hi) as Hi'.
  destruct (inv_issued_ids _ Hi rec Hrec) as (_ & N1 & N2).
  assert (Hh : forall r, r ∈ wTbl w' -> holds rec r = false).
  { intros r Hr. destruct (holds rec r) eqn:E; [|done]. apply holds_spec in E as (E1 & _ & _ & E2).
    pose proof (row_epochs _ _ _ (inv_rows _ Hi' r Hr) rec' (issued_mono _ _ _ R2 _ Hrec') ltac:(congruence)). lia. }
  split_and!; [|by apply owner_update_lost..].
  unfold Heartbeat. rewrite (proj2 (str_eqb_neq _ _) N1), (proj2 (str_eqb_neq _ _) N2). cbn [orb].
  destruct (Z.leb_spec ttl 0); [lia|]. by apply owner_update_lost.
Qed.

(** A completion is accepted exactly when the record is still leased to the
    claim that reports it; that claim is then the latest one ever made of the
    record, no two claims share its epoch, and only that row becomes succeeded. *)
Theorem completion_is_latest_claim es w rec now :
  work_run empty_world es w -> rec ∈ wIssued w ->
  ((Complete now rec (wTbl w)).2 = Ok tt
     <-> exists r, r ∈ wTbl w /\ ID r = ID rec /\ State r = StateLeased /\ OwnerID r = OwnerID rec
           /\ OwnerEpoch r = OwnerEpoch rec)
  /\ ((Complete now rec (wTbl w)).2 = Ok tt ->
        (forall c, c ∈ wIssued w -> ID c = ID rec -> c = rec \/ OwnerEpoch c < OwnerEpoch rec)
        /\ (Complete now rec (wTbl w)).1 = map (at_id (ID rec) (succeed now)) (wTbl w)).
Proof.
  intros R Hrec. pose proof (inv_run _ _ _ R empty_inv) as Hi.
  destruct (inv_issued_ids _ Hi rec Hrec) as (_ & N1 & N2). pose proof (inv_ids _ Hi) as Hn.
  assert (Hiff : (Complete now rec (wTbl w)).2 = Ok tt <-> exists r, r ∈ wTbl w /\ holds rec r = true).
  { unfold Complete, owner_update.
    rewrite (proj2 (str_eqb_neq _ _) N1), (proj2 (str_eqb_neq _ _) N2). cbn [orb update_rows snd]. split.
    - destruct (Z.eqb_spec (countb (holds rec) (wTbl w)) 1) as [E|E]; [|done]. intros _.
      destruct (decide (Exists (fun r => holds rec r = true) (wTbl w))) as [Hx|Hx].
      + apply Exists_exists in Hx. done.
      + rewrite countb_none in E; [done|]. intros r Hr. destruct (holds rec r) eqn:Eh; [|done]. destruct Hx.
        apply Exists_exists. eauto.
    - intros (r & Hr & Hh). rewrite (countb_one ID (holds rec) (wTbl w) r Hn Hr Hh); [done|].
      intros a _ Ha. apply holds_spec in Ha, Hh. destruct Ha, Hh. congruence. }
  split.
  - rewrite Hiff. split; intros (r & Hr & H); exists r; (split; [done|]); [by apply holds_spec in H|by apply holds_spec].
  - intros Hok. apply Hiff in Hok as (r & Hr & Hh). pose proof Hh as Hh'. apply holds_spec in Hh as (E1 & E2 & E3 & E4).
    split.
    + intros c Hc Hid. pose proof (row_epochs _ _ _ (inv_rows _ Hi r Hr) c Hc ltac:(congruence)).
      destruct (decide (OwnerEpoch c = OwnerEpoch rec)) as [E|E]; [|right; lia]. left.
      apply (NoDup_map_eq (fun c => (ID c, OwnerEpoch c)) (wIssued w)); [apply (inv_issued _ Hi)|done|done|congruence].
    + unfold Complete, owner_update.
      rewrite (proj2 (str_eqb_neq _ _) N1), (proj2 (str_eqb_neq _ _) N2). cbn [orb update_rows fst].
      apply map_on_ext. intros x Hx. unfold at_id. destruct (str_eqb (ID x) (ID rec)) eqn:E.
      * apply str_eqb_eq in E. rewrite (NoDup_map_eq ID (wTbl w) x r Hn Hx Hr) by congruence. by rewrite Hh'.
      * destruct (holds rec x) eqn:Ex; [|done]. apply holds_spec in Ex as (Ex & _). apply str_eqb_neq in E. done.
Qed.

(** A lease that has not run out is exclusive: no enqueue, cancellation,
    claim, pruning or operation of another claimant changes or removes the row;
    only the claim that holds it can. *)
Theorem live_lease_exclusive es w ev w' r t :
  work_run empty_world es w -> work_step w ev w' -> r ∈ wTbl w ->
  State r = StateLeased -> LeaseExpiresAt r = Some t ->
  (forall now c, ev = EvClaim now c -> now < t) ->
  (forall rec, ev = EvOwner rec -> ~ (ID rec = ID r /\ OwnerID rec = OwnerID r /\ OwnerEpoch rec = OwnerEpoch r)) ->
  r ∈ wTbl w'.
Proof.
  intros R Hs Hr Hst Hexp Hclaim Hown. pose proof (inv_run _ _ _ R empty_inv) as Hi. pose proof (inv_ids _ Hi) as Hn.
  assert (Hterm : Terminal r = false) by (unfold Terminal; by rewrite Hst).
  assert (Hupd : forall what rec set, ~ (ID rec = ID r /\ OwnerID rec = OwnerID r /\ OwnerEpoch rec = OwnerEpoch r) ->
    r ∈ (owner_update what rec set (wTbl w)).1).
  { intros what rec set Hne. destruct (owner_update_rows what rec set (wTbl w)) as (f & -> & Hf).
    apply list_elem_of_fmap. exists r. split; [|done]. destruct (Hf r) as [->|[Hh _]]; [done|].
    apply holds_spec in Hh as (? & _ & ? & ?). destruct Hne. done. }
  destruct Hs as [uuid now params Hne Hun|rtype rid|owner ttl kinds now|now rec ttl Hin|now rec Hin
    |now rec err opts rnd Hin|cutoff limit]; cbn [wTbl].
  - unfold EnqueueTx. destruct (validated params) as [p|]; [|done]. destruct (existsb _ _).
    + apply list_elem_of_fmap. exists r. split; [|done]. rewrite Hterm, andb_false_r. done.
    + destruct (existsb _ _); [done|]. cbn [fst]. set_solver.
  - apply list_elem_of_filter. split; [|done]. unfold is_state. rewrite Hst. cbn. by rewrite andb_false_r.
  - destruct (Claim_cases owner ttl kinds now (wTbl w) Hn) as [[-> _]|[ids Hsw]]; [done|].
    rewrite (swept_map _ _ _ _ _ _ _ _ _ Hsw). apply list_elem_of_fmap. exists r. split; [|done].
    symmetry. eapply swept_untouched; [done|exact Hsw|done|].
    unfold due, is_state, expired. rewrite Hst, Hexp. cbn.
    destruct (Z.leb_spec t now); [|done]. specialize (Hclaim now _ eq_refl). lia.
  - unfold Heartbeat. destruct (_ || _); [done|]. destruct (ttl <=? 0); [done|]. by apply Hupd, Hown.
  - by apply Hupd, Hown.
  - by apply Hupd, Hown.
  - apply list_elem_of_filter. split; [|done]. intros (x & E & Hx)%list_elem_of_fmap.
    assert (Hx' : x ∈ isort completed_leb (filter (fun r => prunable stamp cutoff r = true) (wTbl w))).
    { eapply elem_of_submseteq; [exact Hx|]. apply sublist_submseteq, sublist_take. }
    apply isort_elem, list_elem_of_filter in Hx' as [Hp Hx']. rewrite <- (NoDup_map_eq ID (wTbl w) r x Hn Hr Hx' E) in Hp.
    unfold prunable in Hp. by rewrite Hterm in Hp.
Qed.

Lemma run_budget w es w' r :
  work_inv w -> work_run w es w' -> r ∈ wTbl w -> (forall ev, ev ∈ es -> ev <> EvEnqueue (DedupKey r)) ->
  (exists r', r' ∈ wTbl w' /\ same_budget (claims_of (ID r) es) r r')
  \/ ((forall r', r' ∈ wTbl w' -> ID r' <> ID r) /\ ID r ∈ wUsed w'
      /\ claims_of (ID r) es <= AttemptLimit r - AttemptCount r).
Proof.
  intros Hi HR Hr. induction HR as [|es ev w' w'' HR IH Hs]; intros Hev.
  { left. exists r. split; [done|]. split_and!; try done. change (AttemptCount r = AttemptCount r + 0). lia. }
  pose proof (inv_run _ _ _ HR Hi) as Hi'. unfold claims_of. rewrite countb_app. fold (claims_of (ID r) es).
  fold (claims_of (ID r) [ev]).
  destruct (IH ltac:(set_solver)) as [(r' & Hr' & E1 & E2 & E3 & E4)|(Hg & Hu & Hle)].
  - destruct (step_row w' ev w'' r' Hi' Hs Hr') as [(r'' & Hr'' & F1 & F2 & F3 & F4)|[Hg Hz]].
    + rewrite E2. apply Hev. set_solver.
    + left. exists r''. split; [done|]. rewrite E1 in F4. split_and!; [congruence..|lia].
    + right. rewrite E1 in Hg, Hz. split; [done|]. pose proof (inv_rows _ Hi' r' Hr') as Hok.
      split; [|pose proof (row_attempts _ _ _ Hok); lia].
      rewrite <- E1. pose proof (row_used _ _ _ Hok). destruct Hs; cbn [wUsed]; set_solver.
  - destruct (step_gone w' ev w'' (ID r) Hi' Hs Hu Hg) as (Hg' & Hz & Hu'). right. split_and!; [done..|lia].
Qed.

(** C36: Between two enqueues of its key a record is claimed at most as often as
    its attempt limit leaves, takeovers of lost leases included: workers that
    keep dying cannot run a record for ever. *)
Theorem claims_are_bounded es w es' w' r :
  work_run empty_world es w -> work_run w es' w' -> r ∈ wTbl w ->
  (forall ev, ev ∈ es' -> ev <> EvEnqueue (DedupKey r)) ->
  claims_of (ID r) es' <= AttemptLimit r - AttemptCount r.
Proof.
  intros R1 R2 Hr Hev. pose proof (inv_run _ _ _ R1 empty_inv) as Hi.
  destruct (run_budget w es' w' r Hi R2 Hr Hev) as [(r' & Hr' & E1 & E2 & E3 & E4)|(_ & _ & H)]; [|done].
  pose proof (row_attempts _ _ _ (inv_rows _ (inv_run _ _ _ R2 Hi) r' Hr')). lia.
Qed.

(** What a successful enqueue leaves of its key. *)
Definition one_active (key : string) (accepted : bool) (tbl tbl' : list WorkRecord) : Prop :=
  (exists r, r ∈ tbl' /\ DedupKey r = key /\ Terminal r = false
     /\ (forall r', r' ∈ tbl' -> DedupKey r' = key -> r' = r)
     /\ if accepted
        then State r = StatePending /\ AttemptCount r = 0
             /\ (forall old, old ∈ tbl -> DedupKey old = key ->
                   Terminal old = true /\ ID r = ID old /\ OwnerEpoch r = OwnerEpoch old)
        else tbl' = tbl)
  /\ (forall x, DedupKey x <> key -> x ∈ tbl' <-> x ∈ tbl).

Lemma enqueue_keys uuid now params tbl :
  NoDup (map DedupKey tbl) -> NoDup (map DedupKey (EnqueueTx stamp uuid now params tbl).1).
Proof.
  intros Hk. unfold EnqueueTx. destruct (validated params) as [p|]; [|done]. destruct (existsb _ tbl) eqn:Ek.
  - cbn [update_rows fst]. rewrite map_map. erewrite map_ext; [exact Hk|]. intros r. by destruct (_ && _).
  - destruct (existsb (fun r => str_eqb (ID r) uuid) tbl); [done|]. cbn [fst]. rewrite map_app. apply NoDup_app.
    split_and!; [done| |apply NoDup_singleton].
    intros id (r & -> & Hr)%list_elem_of_fmap Hid. apply list_elem_of_singleton in Hid.
    pose proof (existsb_false _ _ _ Ek Hr) as E. cbn beta in E. apply str_eqb_neq in E. done.
Qed.

Lemma enqueue_one_active uuid now params tbl tbl' accepted :
  NoDup (map DedupKey tbl) -> EnqueueTx stamp uuid now params tbl = (tbl', Ok accepted) ->
  one_active (TrimSpace (epDedupKey params)) accepted tbl tbl'.
Proof.
  intros Hk He. unfold one_active. set (key := TrimSpace _).
  pose proof (enqueue_keys uuid now params tbl Hk) as Hk'. rewrite He in Hk'. cbn [fst] in Hk'.
  unfold EnqueueTx in He.
  destruct (validated params) as [p|] eqn:Ev; [|done]. destruct (validated_ok _ _ Ev) as [_ Ekey].
  fold key in Ekey. rewrite Ekey in He.
  destruct (existsb (fun r => str_eqb (DedupKey r) key) tbl) eqn:Ex.
  - apply existsb_exists in Ex as (r0 & Hr0%list_elem_of_In & E0). apply str_eqb_eq in E0.
    unfold update_rows in He. injection He as <- Hacc.
    set (f := fun r => if str_eqb (DedupKey r) key && Terminal r then _ else r) in *.
    assert (Hother : forall x, DedupKey x <> key -> f x = x)
      by (intros x Hx; unfold f; by rewrite (proj2 (str_eqb_neq _ _) Hx)).
    assert (Hkey : forall x, DedupKey (f x) = DedupKey x) by (intros x; unfold f; by destruct (_ && _)).
    assert (Hf0 : f r0 ∈ map f tbl) by (by apply list_elem_of_fmap_2).
    assert (Huniq : forall r', r' ∈ map f tbl -> DedupKey r' = key -> r' = f r0)
      by (intros r' Hr' E'; apply (NoDup_map_eq DedupKey _ _ _ Hk' Hr' Hf0); by rewrite Hkey, E0).
    split.
    + exists (f r0). split_and!; [done|by rewrite Hkey| |done|].
      * unfold f. rewrite (proj2 (str_eqb_eq _ _) E0). cbn [andb]. by destruct (Terminal r0) eqn:Et.
      * destruct (Terminal r0) eqn:Et.
        -- assert (accepted = true) as ->.
           { rewrite <- Hacc. apply Z.ltb_lt. rewrite (countb_one DedupKey _ _ r0 Hk Hr0); [lia| |].
             - by rewrite (proj2 (str_eqb_eq _ _) E0).
             - intros a _ Ha. bool_to_prop. congruence. }
           assert (Ef : f r0 = resurrect p (stamp (if is_zero (epAvailableAt p) then now else epAvailableAt p)) now r0)
             by (unfold f; by rewrite (proj2 (str_eqb_eq _ _) E0), Et).
           rewrite Ef. split_and!; [done|done|]. intros old Hold Eold.
           rewrite (NoDup_map_eq DedupKey _ old r0 Hk Hold Hr0) by congruence. done.
        -- rewrite countb_none in Hacc; [subst accepted; cbv iota|].
           ++ apply map_on_id. intros x Hx. unfold f.
              destruct (str_eqb (DedupKey x) key) eqn:Ek; [|done]. apply str_eqb_eq in Ek.
              rewrite (NoDup_map_eq DedupKey _ x r0 Hk Hx Hr0) by congruence. by rewrite Et.
           ++ intros x Hx. destruct (str_eqb (DedupKey x) key) eqn:Ek; [|done]. apply str_eqb_eq in Ek.
              rewrite (NoDup_map_eq DedupKey _ x r0 Hk Hx Hr0) by congruence. done.
    + intros x Hx. rewrite list_elem_of_fmap. split.
      * intros (y & -> & Hy). rewrite Hkey in Hx. by rewrite Hother.
      * intros Hin. exists x. by rewrite Hother.
  - destruct (existsb (fun r => str_eqb (ID r) uuid) tbl); [done|]. injection He as <- <-.
    set (n := new_row _ _ _ _) in *.
    split.
    + exists n. split_and!; [set_solver|done|done| |done|done|].
      * intros r' Hr' E'. apply (NoDup_map_eq DedupKey _ _ _ Hk' Hr'); [set_solver|]. by rewrite E'.
      * intros old Hold Eold. pose proof (existsb_false _ _ _ Ex Hold) as E. cbn beta in E. by apply str_eqb_neq in E.
    + intros x Hx. rewrite elem_of_app, list_elem_of_singleton. split; [|auto]. intros [?| ->]; [done|]. by destruct Hx.
Qed.

(** An enqueue that is valid leaves exactly one record of its key, and that
    record is active.  An active record is left alone and the enqueue is
    refused; otherwise the record is pending with no attempts used, a terminal
    one being resurrected under its old identity and epoch.  No other key is
    touched. *)
Theorem enqueue_keeps_one_active es w uuid now params tbl' accepted :
  work_run empty_world es w ->
  EnqueueTx stamp uuid now params (wTbl w) = (tbl', Ok accepted) ->
  one_active (TrimSpace (epDedupKey params)) accepted (wTbl w) tbl'.
Proof.
  intros R He. eapply enqueue_one_active; [|exact He]. apply (inv_keys _ (inv_run _ _ _ R empty_inv)).
Qed.

Lemma count_dead now kinds ids tbl :
  NoDup (map ID tbl) -> NoDup ids ->
  (forall id, id ∈ ids -> exists r, r ∈ tbl /\ ID r = id /\ due now kinds r = true) ->
  countb (is_state StateDead) (map (dead_lettered now ids) tbl) = countb (is_state StateDead) tbl + len ids.
Proof.
  intros Hn Hi Hd. unfold countb. rewrite sumZ_map.
  rewrite (sumZ_ext _ (fun r => (if is_state StateDead r then 1 else 0) + if bool_decide (ID r ∈ ids) then 1 else 0)).
  - rewrite sumZ_plus. f_equal. fold (countb (fun r => bool_decide (ID r ∈ ids)) tbl).
    rewrite (countb_filter (fun r => ID r ∈ ids)) by (intros; apply bool_decide_eq_true).
    unfold len. f_equal. rewrite <- (length_map ID). apply Permutation_length, NoDup_Permutation; [|done|].
    + eapply sublist_NoDup; [exact Hn|]. apply sublist_map, sublist_filter.
    + intros id. rewrite list_elem_of_fmap. split.
      * intros (r & -> & [Hr _]%list_elem_of_filter). done.
      * intros Hid. destruct (Hd id Hid) as (r & Hr & <- & _). exists r. by rewrite list_elem_of_filter.
  - intros r Hr. unfold dead_lettered. case_bool_decide as Hc; [|lia].
    destruct (Hd _ Hc) as (r0 & Hr0 & E & Hdue). rewrite (NoDup_map_eq ID tbl r0 r Hn Hr0 Hr E) in Hdue.
    apply due_not_terminal in Hdue. unfold Terminal in Hdue. unfold is_state. cbn. by destruct (State r).
Qed.

(** A claim leases the record that has been due longest among those with
    attempts left, for the time asked, with the next epoch and one attempt
    more.  It returns no record only when nothing with attempts left is due, or
    after moving a full sweep of eight exhausted records to dead. *)
Theorem claim_takes_oldest_due es w owner ttl kinds now tbl' claimed :
  work_run empty_world es w -> Claim stamp owner ttl kinds now (wTbl w) = (tbl', Ok claimed) ->
  match claimed with
  | Some c => exists r, r ∈ wTbl w /\ due now (cleanKinds kinds) r = true /\ exhausted r = false
      /\ c = take_lease stamp now (TrimSpace owner) ttl r /\ c ∈ tbl'
      /\ (forall r', r' ∈ wTbl w -> due now (cleanKinds kinds) r' = true -> exhausted r' = false ->
            claim_leb r r' = true)
  | None => (forall r, r ∈ wTbl w -> due now (cleanKinds kinds) r = true -> exhausted r = true)
      \/ countb (is_state StateDead) tbl' = countb (is_state StateDead) (wTbl w) + 8
  end.
Proof.
  intros R Hc. pose proof (inv_run _ _ _ R empty_inv) as Hi. pose proof (inv_ids _ Hi) as Hn.
  assert (Hsw : exists ids, swept stamp maxClaimSweeps now (TrimSpace owner) ttl (cleanKinds kinds) (wTbl w) tbl' claimed ids).
  { unfold Claim in Hc. destruct (str_eqb _ _); [done|]. destruct (ttl <=? 0); [done|].
    destruct (claim_sweep_spec stamp maxClaimSweeps now (TrimSpace owner) ttl (cleanKinds kinds) (wTbl w) Hn) as [ids H].
    exists ids. destruct (claim_sweep _ _ _ _ _ _ _). injection Hc as -> ->. done. }
  destruct Hsw as [ids [S1 S2 S3 S4]].
  assert (Hids : forall r, r ∈ wTbl w -> exhausted r = false -> ID r ∉ ids).
  { intros r Hr Hx Hin. destruct (S3 _ Hin) as (r0 & Hr0 & E & _ & Hx0).
    rewrite (NoDup_map_eq ID (wTbl w) r0 r Hn Hr0 Hr E) in Hx0. congruence. }
  cbv zeta in S4. destruct claimed as [c|].
  - destruct S4 as (r & Hr & Hni & Hdue & Hex & Hmin & -> & ->). exists r. split_and!; try done; auto.
    rewrite map_map. apply list_elem_of_fmap. exists r. split; [|done].
    unfold at_id. rewrite dead_lettered_id, (proj2 (str_eqb_eq _ _) eq_refl). unfold dead_lettered.
    by rewrite bool_decide_false.
  - destruct S4 as [-> [Hl|Hl]].
    + right. rewrite (count_dead now (cleanKinds kinds)); try done; [unfold len; by rewrite Hl|].
      intros id Hid. destruct (S3 id Hid) as (r & ? & ? & ? & _). eauto.
    + left. intros r Hr Hd. destruct (exhausted r) eqn:Hx; [done|].
      rewrite <- Hd. symmetry. rewrite <- (Hl (dead_lettered now ids r)) by (by apply list_elem_of_fmap_2).
      unfold dead_lettered. by rewrite bool_decide_false by auto.
Qed.
End Workers.

(** ** Retry delays stay in their window *)

Lemma delay_bounds_spec base max :
  let '(b, m) := delay_bounds base max in 0 < b <= m.
Proof.
  unfold delay_bounds, DefaultBaseDelay, DefaultMaxDelay, minute, second.
  destruct (Z.leb_spec base 0), (Z.leb_spec max 0);
    match goal with |- context [?a <? ?b] => destruct (Z.ltb_spec a b) end; lia.
Qed.

Lemma double_delay_spec n d m :
  0 < d <= m -> m <= 2 ^ 62 -> double_delay n d m = Z.min m (d * 2 ^ Z.of_nat n).
Proof.
  revert d. induction n as [|n IH]; intros d Hd Hm; cbn [double_delay]; [rewrite Z.mul_1_r; lia|].
  rewrite Nat2Z.inj_succ, Z.pow_succ_r by lia.
  assert (Hp : 1 <= 2 ^ Z.of_nat n) by (pose proof (Z.pow_pos_nonneg 2 (Z.of_nat n)); lia).
  destruct (Z.ltb_spec d m) as [Hlt|Hge]; [|nia].
  rewrite wrap64_small by (unfold in_int64; lia).
  destruct (Z.leb_spec m (d * 2)) as [Hle|Hgt]; [nia|]. rewrite IH by lia. f_equal. lia.
Qed.

(** The delay before the next attempt is the base doubled per attempt, cut at
    the maximum, give or take a fifth: it never leaves that window, whatever
    the attempt count and the draw, for maxima up to [2^62] nanoseconds. *)
Theorem retry_delay_window attempt base max rnd :
  let '(b, m) := delay_bounds base max in
  let d := Z.min m (b * 2 ^ (Z.max 1 attempt - 1)) in
  m <= 2 ^ 62 -> 0 <= rnd <= 2 * Z.quot d 5 ->
  d - Z.quot d 5 <= RetryDelay attempt base max rnd <= d + Z.quot d 5 /\ 0 < RetryDelay attempt base max rnd.
Proof.
  pose proof (delay_bounds_spec base max) as Hb. unfold RetryDelay.
  destruct (delay_bounds base max) as [b m]. cbv zeta. intros Hm Hrnd.
  replace (if attempt <? 1 then 1 else attempt) with (Z.max 1 attempt)
    by (destruct (Z.ltb_spec attempt 1); lia).
  rewrite (double_delay_spec _ b m Hb Hm), Z2Nat.id by lia.
  set (d := Z.min m _) in *.
  assert (Hd : 0 < d <= 2 ^ 62).
  { assert (0 < 2 ^ (Z.max 1 attempt - 1)) by (apply Z.pow_pos_nonneg; lia). unfold d. nia. }
  unfold jitter. destruct (Z.leb_spec d 0); [lia|].
  assert (Hq : 0 <= Z.quot d 5 /\ 5 * Z.quot d 5 <= d).
  { rewrite Z.quot_div_nonneg by lia. split; [apply Z.div_pos; lia|]. apply Z.mul_div_le. lia. }
  destruct (Z.leb_spec (Z.quot d 5) 0); [lia|]. rewrite wrap64_small by (unfold in_int64; lia). lia.
Qed.

(** ** Concrete inputs

    One record enqueued, claimed by a worker [a] for ten seconds, and taken over
    by a worker [b] twenty seconds later. *)

Definition micros (t : time) : time := t / 1000 * 1000.
Definition work_params : EnqueueParams := mkEnqueue "sync" " k " "repo" "r1" "" 0 0.
Definition work_row : WorkRecord :=
  new_row "u1" (mkEnqueue "sync" "k" "repo" "r1" "{}" 10 0) (100 * second) (100 * second).
Definition work_c1 : WorkRecord := take_lease micros (100 * second) "a" (10 * second) work_row.
Definition work_c2 : WorkRecord := take_lease micros (120 * second) "b" (10 * second) work_c1.
Definition work_w1 : world := mkWorld [work_row] ({["u1"]} ∪ ∅) [].
Definition work_w2 : world := mkWorld [work_c1] ({["u1"]} ∪ ∅) [work_c1].
Definition work_w3 : world := mkWorld [work_c2] ({["u1"]} ∪ ∅) [work_c2; work_c1].
Definition work_ev1 : work_event := EvEnqueue "k".
Definition work_ev2 : work_event := EvClaim (100 * second) (Some work_c1).
Definition work_ev3 : work_event := EvClaim (120 * second) (Some work_c2).

Lemma work_eq1 : EnqueueTx micros "u1" (100 * second) work_params [] = ([work_row], Ok true).
Proof. vm_compute. reflexivity. Qed.
Lemma work_eq2 : Claim micros "a" (10 * second) [] (100 * second) [work_row] = ([work_c1], Ok (Some work_c1)).
Proof. vm_compute. reflexivity. Qed.
Lemma work_eq3 : Claim micros "b" (10 * second) ["sync"] (120 * second) [work_c1] = ([work_c2], Ok (Some work_c2)).
Proof. vm_compute. reflexivity. Qed.

Lemma work_step1 : work_step micros empty_world work_ev1 work_w1.
Proof.
  pose proof (step_enqueue micros empty_world "u1" (100 * second) work_params ltac:(done) ltac:(set_solver)) as H.
  cbn [empty_world wTbl wUsed wIssued] in H. by rewrite work_eq1 in H.
Qed.
Lemma work_step2 : work_step micros work_w1 work_ev2 work_w2.
Proof.
  pose proof (step_claim micros work_w1 "a" (10 * second) [] (100 * second)) as H.
  cbn [work_w1 wTbl wUsed wIssued] in H. by rewrite work_eq2 in H.
Qed.
Lemma work_step3 : work_step micros work_w2 work_ev3 work_w3.
Proof.
  pose proof (step_claim micros work_w2 "b" (10 * second) ["sync"] (120 * second)) as H.
  cbn [work_w2 wTbl wUsed wIssued] in H. by rewrite work_eq3 in H.
Qed.

Lemma work_run1 : work_run micros empty_world [work_ev1] work_w1.
Proof. exact (work_then micros empty_world [] work_ev1 _ _ (work_done _ _) work_step1). Qed.
Lemma work_run2 : work_run micros empty_world [work_ev1; work_ev2] work_w2.
Proof. exact (work_then micros empty_world [work_ev1] work_ev2 _ _ work_run1 work_step2). Qed.
Lemma work_run3 : work_run micros empty_world [work_ev1; work_ev2; work_ev3] work_w3.
Proof. exact (work_then micros empty_world [work_ev1; work_ev2] work_ev3 _ _ work_run2 work_step3). Qed.
Lemma work_tail : work_run micros work_w1 [work_ev2; work_ev3] work_w3.
Proof.
  refine (work_then micros work_w1 [work_ev2] work_ev3 work_w2 _ _ work_step3).
  exact (work_then micros work_w1 [] work_ev2 _ _ (work_done _ _) work_step2).
Qed.

Lemma superseded_owner_fenced_witness :
  Complete (121 * second) work_c1 [work_c2] = ([work_c2], Err (ErrLeaseLost "u1" "a" 1)).
Proof.
  destruct (superseded_owner_fenced micros _ _ _ _ work_c1 work_c2 (121 * second) second None
    (mkFailOptions true 0 0 0) 0 work_run3 (work_done micros work_w3)) as (_ & H & _).
  - right. left.
  - left.
  - reflexivity.
  - vm_compute. reflexivity.
  - reflexivity.
  - exact H.
Defined.

Lemma completion_is_latest_claim_witness :
  (Complete (121 * second) work_c2 [work_c2]).2 = Ok tt
  /\ (Complete (121 * second) work_c2 [work_c2]).1 = map (at_id "u1" (succeed (121 * second))) [work_c2].
Proof.
  destruct (completion_is_latest_claim micros _ _ work_c2 (121 * second) work_run3) as [_ H]; [left|].
  assert (E : (Complete (121 * second) work_c2 [work_c2]).2 = Ok tt) by (vm_compute; reflexivity).
  split; [exact E|apply (H E)].
Defined.

(** An enqueue of the key while the lease of [b] runs. *)
Lemma live_lease_exclusive_witness :
  work_c2 ∈ (EnqueueTx micros "u2" (121 * second) work_params (wTbl work_w3)).1.
Proof.
  refine (live_lease_exclusive micros _ work_w3 _ _ work_c2 (130 * second) work_run3
    (step_enqueue micros work_w3 "u2" (121 * second) work_params _ _) _ _ _ _ _).
  - discriminate.
  - intros H. apply elem_of_union in H as [H|H]; [apply elem_of_singleton in H; discriminate|set_solver].
  - left.
  - reflexivity.
  - vm_compute. reflexivity.
  - discriminate.
  - discriminate.
Defined.

Lemma claims_are_bounded_witness : claims_of "u1" [work_ev2; work_ev3] = 2 /\ claims_of "u1" [work_ev2; work_ev3] <= 10.
Proof.
  split; [vm_compute; reflexivity|].
  apply (claims_are_bounded micros [work_ev1] work_w1 [work_ev2; work_ev3] work_w3 work_row work_run1 work_tail).
  - left.
  - intros ev Hev. apply elem_of_cons in Hev as [->|Hev]; [discriminate|].
    apply list_elem_of_singleton in Hev as ->. discriminate.
Defined.

Lemma enqueue_keeps_one_active_witness :
  exists r, r ∈ [work_row] /\ DedupKey r = "k" /\ AttemptCount r = 0.
Proof.
  destruct (enqueue_keeps_one_active micros [] empty_world "u1" (100 * second) work_params [work_row] true
    (work_done _ _) work_eq1) as [(r & H1 & H2 & _ & _ & _ & H3 & _) _].
  exists r. split; [exact H1|]. split; [rewrite H2; vm_compute; reflexivity|exact H3].
Defined.

Lemma claim_takes_oldest_due_witness :
  exists r, r ∈ [work_c1] /\ work_c2 = take_lease micros (120 * second) "b" (10 * second) r.
Proof.
  pose proof (claim_takes_oldest_due micros _ work_w2 "b" (10 * second) ["sync"] (120 * second) _ _
    work_run2 work_eq3) as (r & H1 & _ & _ & H2 & _).
  exists r. split; [exact H1|]. rewrite H2 at 1. f_equal. 
Defined.

Lemma retry_delay_window_witness :
  RetryDelay 3 0 0 (2 * second) = 18 * second /\ 16 * second <= RetryDelay 3 0 0 (2 * second) <= 24 * second.
Proof.
  split; [vm_compute; reflexivity|].
  apply (retry_delay_window 3 0 0 (2 * second)); vm_compute; repeat split; discriminate.
Defined.
