(* ===== verification/Billing.v ===== *)
(** * Billing arithmetic and statements ([internal/controlplane/billing])

    [rates.go], [credits.go] and the statement layout of [statements.go]: exact
    rates, rounding, the period equation, the largest-remainder split of cents
    over statement lines, the append-only credit ledger, and the lines that
    explain an amount due.  [big.Rat] is [Q]; cents are int64.

    The file proves that rounding is to the nearest cent, that cents are neither
    created nor lost when they are split over lines, that every statement's
    lines sum to its amount due, that credit never pays the monthly minimum,
    that consuming credit takes exactly what it reports from unexpired grants
    without overdrawing one, and that billing periods follow the anchor day. *)

From Stdlib Require Import QArith Qround Lqa.
From S2P Require Import Prelude.
#[local] Open Scope Z_scope.

(** ** Rates *)

Inductive Meter : Type := MeterCPU | MeterMemory | MeterVolume | MeterEgress.
#[export] Instance Meter_eq_dec : EqDecision Meter.
Proof. solve_decision. Defined.

Definition Meters : list Meter := [MeterCPU; MeterMemory; MeterVolume; MeterEgress].

Definition Meter_string (m : Meter) : string :=
  match m with MeterCPU => "cpu" | MeterMemory => "memory" | MeterVolume => "volume" | MeterEgress => "egress" end.

Definition Meter_Unit (m : Meter) : string :=
  match m with
  | MeterCPU => "cpu-microseconds"
  | MeterMemory | MeterVolume => "byte-milliseconds"
  | MeterEgress => "bytes"
  end.

Definition monthSeconds : Z := 2592000.
Definition bytesPerGiB : Z := Z.shiftl 1 30.

(** A rate in lowest terms; the denominator is positive. *)
Definition rate (num den : Z) : Q := Qred (num # Z.to_pos den).

(** Exact cents of a quantity. *)
Definition Price (r : Q) (quantity : Z) : Q := Qmult r (inject_Z quantity).

Definition RateVersion1 (m : Meter) : Q :=
  let monthMillis := monthSeconds * 1000 in
  match m with
  | MeterCPU => rate 2000 (monthSeconds * 1000000)
  | MeterMemory => rate 1000 (bytesPerGiB * monthMillis)
  | MeterVolume => rate 15 (bytesPerGiB * monthMillis)
  | MeterEgress => rate 5 bytesPerGiB
  end.

(** [big.Int.Quo] truncates; [Int64] keeps the low 64 bits. *)
Definition quo (q : Q) : Z := Z.quot (Qnum q) (Zpos (Qden q)).

Definition RoundHalfUpCents (value : Q) : Z := wrap64 (quo (Qplus value (1 # 2))).

Record Totals := mkTotals {
  GrossCents : Z; AfterAllowanceCents : Z; CreditAppliedCents : Z; PeriodTotalCents : Z;
}.

Definition ComputeTotals (grossExact : Q) (minimumCents includedCents creditAvailableCents : Z) : Totals :=
  let gross := RoundHalfUpCents grossExact in
  let after := gross - includedCents in
  let after := if after <? 0 then 0 else after in
  let credit := creditAvailableCents in
  let credit := if after <? credit then after else credit in
  let credit := if credit <? 0 then 0 else credit in
  mkTotals gross after credit (minimumCents + after - credit).

(** ** Splitting cents *)

(** One cent more at an index. *)
Definition bump (i : nat) (out : list Z) : list Z := alter Z.succ i out.

(** [for i := 0; i < total-allocated; i++ { out[parts[i%len].index]++ }] *)
Fixpoint distribute (k i : nat) (order : list nat) (out : list Z) : list Z :=
  match k with
  | O => out
  | S k => distribute k (S i) order (bump (default O (order !! (i mod length order)%nat)) out)
  end.

(** The fractional part of a line, with its index. *)
Definition remainder (i : nat) (value : Q) : nat * Q := (i, Qminus value (inject_Z (quo value))).
Definition remainder_leb (a b : nat * Q) : bool := Qle_bool b.2 a.2.

Definition AllocateCents (exact : list Q) (total : Z) : list Z :=
  let out := map (fun v => wrap64 (quo v)) exact in
  let parts := isort remainder_leb (imap remainder exact) in
  distribute (Z.to_nat (total - sumZ id out)) 0 (map fst parts) out.

(** ** Months *)

(** A UTC instant by its calendar fields; [tod] is the time of day. *)
Record civil := mkCivil { cYear : Z; cMonth : Z; cDay : Z; cTod : duration }.

Definition leap (y : Z) : bool := (y mod 4 =? 0) && (negb (y mod 100 =? 0) || (y mod 400 =? 0)).

Definition daysInMonth (y m : Z) : Z :=
  if m =? 2 then (if leap y then 29 else 28)
  else if (m =? 4) || (m =? 6) || (m =? 9) || (m =? 11) then 30 else 31.

Definition AddAnchorMonths (anchor : civil) (months : Z) : civil :=
  let total := cMonth anchor - 1 + months in
  let y := cYear anchor + Z.quot total 12 in
  let m := Z.rem total 12 + 1 in
  let last := daysInMonth y m in
  mkCivil y m (if last <? cDay anchor then last else cDay anchor) (cTod anchor).

(** ** Display *)

Definition two_digits (n : Z) : string := if n <? 10 then "0" +:+ pretty n else pretty n.
Definition FormatCents (cents : Z) : string :=
  let sign := if cents <? 0 then "-" else "" in
  let cents := if cents <? 0 then wrap64 (- cents) else cents in
  sign +:+ pretty (Z.quot cents 100) +:+ "." +:+ two_digits (Z.rem cents 100).

(** ** Credits *)

(** One row of [billing_credit_entries]; rows are only ever added. *)
Record creditEntry := mkCreditEntry {
  ceID : string; ceAccount : string; ceKind : string; ceGrant : string; ceAmount : Z;
  ceExpires : option time; ceStatement : string; ceDedup : string; ceNote : string; ceCreated : time;
}.

(** [INSERT ... ON CONFLICT (dedup_key) DO NOTHING] *)
Definition insert_entry (e : creditEntry) (tbl : list creditEntry) : list creditEntry :=
  if existsb (fun x => str_eqb (ceDedup x) (ceDedup e)) tbl then tbl else tbl ++ [e].

Definition grantCreditTx (uuid accountID kind : string) (amountCents : Z) (expiresAt : time)
    (dedupKey note : string) (now : time) (tbl : list creditEntry) : list creditEntry :=
  let expiry := if is_zero expiresAt then None else Some expiresAt in
  insert_entry (mkCreditEntry uuid accountID kind "" amountCents expiry "" dedupKey note now) tbl.

(** [GrantCredit] after the account was found. *)
Definition GrantCredit (uuid accountID kind : string) (amountCents : Z) (expiresAt : time)
    (dedupKey note : string) (now : time) (tbl : list creditEntry) : result string (list creditEntry) :=
  _ ← guard_err (negb (str_eqb kind "grant") && negb (str_eqb kind "adjustment") && negb (str_eqb kind "refund"))
        "credit kind";
  _ ← guard_err ((amountCents =? 0) || str_eqb dedupKey "") "credit amount and dedup key are required";
  Ok (grantCreditTx uuid accountID kind amountCents expiresAt dedupKey note now tbl).

Record grantBalance := mkGrantBalance { gbID : string; gbRemaining : Z; gbExpires : option time }.

Definition consumed (tbl : list creditEntry) (id : string) : Z :=
  sumZ ceAmount (filter (fun c => ceGrant c = id /\ ceKind c = "consumption") tbl).

(** The grant-like rows still usable by an account. *)
Definition usable (accountID : string) (now : time) (g : creditEntry) : bool :=
  str_eqb (ceAccount g) accountID && negb (str_eqb (ceKind g) "consumption") && (0 <? ceAmount g)
  && match ceExpires g with None => true | Some t => now <? t end.

(** [ORDER BY expires_at NULLS LAST, created_at, id] *)
Definition expiry_leb (a b : creditEntry) : bool :=
  let tie := if ceCreated a =? ceCreated b then String.leb (ceID a) (ceID b)
             else ceCreated a <? ceCreated b in
  match ceExpires a, ceExpires b with
  | Some x, Some y => if x =? y then tie else x <? y
  | Some _, None => true
  | None, Some _ => false
  | None, None => tie
  end.

Definition remaining (tbl : list creditEntry) (g : creditEntry) : Z := ceAmount g + consumed tbl (ceID g).

Definition grantBalancesTx (accountID : string) (now : time) (tbl : list creditEntry) : list grantBalance :=
  filter (fun b => 0 < gbRemaining b)
    (map (fun g => mkGrantBalance (ceID g) (remaining tbl g) (ceExpires g))
      (isort expiry_leb (filter (fun g => usable accountID now g = true) tbl))).

Definition CreditBalance (accountID : string) (now : time) (tbl : list creditEntry) : Z :=
  sumZ id (filter (fun r => 0 < r)
    (map (remaining tbl) (filter (fun g => usable accountID now g = true) tbl))).

(** The loop of [consumeCreditTx]; [ids] are the identities it draws. *)
Fixpoint consume_loop (accountID statementID : string) (now : time) (want applied : Z)
    (ids : list string) (grants : list grantBalance) (tbl : list creditEntry) : list creditEntry * Z :=
  match grants with
  | [] => (tbl, applied)
  | grant :: grants =>
      if want <=? applied then (tbl, applied)
      else
        let left := want - applied in
        let take := if left <? gbRemaining grant then left else gbRemaining grant in
        let tbl := insert_entry
          (mkCreditEntry (default "" (head ids)) accountID "consumption" (gbID grant) (- take) None statementID
             ("consume:" +:+ statementID +:+ ":" +:+ gbID grant) "" now) tbl in
        consume_loop accountID statementID now want (applied + take) (tail ids) grants tbl
  end.

Definition consumeCreditTx (accountID statementID : string) (want : Z) (now : time) (ids : list string)
    (tbl : list creditEntry) : list creditEntry * Z :=
  if want <=? 0 then (tbl, 0)
  else consume_loop accountID statementID now want 0 ids (grantBalancesTx accountID now tbl) tbl.

(** ** Statements *)

Record RatedLine := mkRatedLine {
  rlProject : string; rlProjectName : string; rlMeter : Meter; rlQuantity : Z; rlExact : Q;
}.

(** The rows of the usage query: per project, the four quantities. *)
Record Coverage := mkCoverage { MeasuredMs : Z; GapMs : Z; UncertainMs : Z; Records : Z }.
Record usageRow := mkUsageRow { urProject : string; urQuantity : Meter -> Z; urCoverage : Coverage }.

(** The coverage of the window, summed over the rows. *)
Definition window_coverage (rows : list usageRow) : Coverage :=
  foldr (fun r c => let v := urCoverage r in
    mkCoverage (MeasuredMs v + MeasuredMs c) (GapMs v + GapMs c) (UncertainMs v + UncertainMs c) (Records v + Records c))
    (mkCoverage 0 0 0 0) rows.

(** The rated lines of [rateWindowTx], from the sums the query returns. *)
Definition rate_row (rates : Meter -> Q) (names : string -> string) (storageOnly : bool) (row : usageRow)
    : list RatedLine :=
  omap (fun m =>
    if storageOnly && negb (bool_decide (m = MeterVolume)) then None
    else
      let qty := Z.max 0 (urQuantity row m) in
      if qty =? 0 then None
      else Some (mkRatedLine (urProject row) (names (urProject row)) m qty (Price (rates m) qty))) Meters.

Definition line_leb (a b : RatedLine) : bool :=
  if str_eqb (rlProject a) (rlProject b) then String.leb (Meter_string (rlMeter a)) (Meter_string (rlMeter b))
  else String.leb (rlProject a) (rlProject b).

Definition sumQ (l : list Q) : Q := foldr Qplus 0%Q l.

(** [GrossExact] is accumulated before the lines are sorted. *)
Definition rateWindow (rates : Meter -> Q) (names : string -> string) (storageOnly : bool) (rows : list usageRow)
    : list RatedLine * Q :=
  let lines := mjoin (map (rate_row rates names storageOnly) rows) in
  (isort line_leb lines, sumQ (map rlExact lines)).

Inductive PeriodKind : Type := PeriodStandard | PeriodStorageOnly.
Inductive PeriodState : Type := PeriodOpen | PeriodClosed.

Record Period := mkPeriod {
  pdID : string; pdAccount : string; pdIndex : Z; pdKind : PeriodKind; pdPlan : string;
  pdStarts : time; pdEnds : time; pdMinimum : Z; pdIncluded : Z; pdCurrency : string; pdRateVersion : Z;
  pdPrepaid : Z; pdState : PeriodState;
}.
#[export] Instance Period_eta : Eta Period := fun p =>
  mkPeriod (pdID p) (pdAccount p) (pdIndex p) (pdKind p) (pdPlan p) (pdStarts p) (pdEnds p) (pdMinimum p)
    (pdIncluded p) (pdCurrency p) (pdRateVersion p) (pdPrepaid p) (pdState p).

Record StatementLine := mkStatementLine {
  slID : string; slIndex : Z; slProject : string; slProjectName : string; slMeter : string; slDescription : string;
  slQuantity : string; slUnit : string; slRateNum : string; slRateDen : string; slAmount : Z;
  slStart : option time; slEnd : option time; slInvoiceItem : string;
}.
#[export] Instance StatementLine_eta : Eta StatementLine := fun l =>
  mkStatementLine (slID l) (slIndex l) (slProject l) (slProjectName l) (slMeter l) (slDescription l) (slQuantity l)
    (slUnit l) (slRateNum l) (slRateDen l) (slAmount l) (slStart l) (slEnd l) (slInvoiceItem l).

Definition meterDescription (m : Meter) : string :=
  match m with
  | MeterCPU => "CPU time"
  | MeterMemory => "Memory (total cgroup memory over time)"
  | MeterVolume => "Volume storage (used filesystem blocks over time)"
  | MeterEgress => "Public egress (logical IP bytes at the allocation interface)"
  end.

Definition usage_line (rates : Meter -> Q) (period : Period) (i : nat) (p : RatedLine * Z) : StatementLine :=
  let '(line, cents) := p in
  let r := rates (rlMeter line) in
  mkStatementLine "" (Z.of_nat i) (rlProject line) (rlProjectName line) (Meter_string (rlMeter line))
    (meterDescription (rlMeter line)) (pretty (rlQuantity line)) (Meter_Unit (rlMeter line))
    (pretty (Qnum r)) (pretty (Zpos (Qden r))) cents (Some (pdStarts period)) (Some (pdEnds period)) "".

(** [accountLine]: appended unless the amount is zero. *)
Definition accountLine (meter description : string) (amount : Z) (start endt : time) (lines : list StatementLine)
    : list StatementLine :=
  if amount =? 0 then lines
  else
    let window := negb (is_zero start) in
    lines ++ [mkStatementLine "" (len lines) "" "" meter description "0" "" "0" "1" amount
                (if window then Some start else None) (if window then Some endt else None) ""].

Definition buildStatementLines (rates : Meter -> Q) (rated : list RatedLine) (totals : Totals)
    (period next : Period) (nextMinimum carriedFrom : Z) : list StatementLine :=
  let allocated := AllocateCents (map rlExact rated) (GrossCents totals) in
  let lines := imap (usage_line rates period) (zip rated allocated) in
  let allowanceApplied := if GrossCents totals <? pdIncluded period then GrossCents totals else pdIncluded period in
  let lines := accountLine "minimum" "Monthly minimum" (pdMinimum period) (pdStarts period) (pdEnds period) lines in
  let lines := accountLine "included_usage" "Included usage allowance" (- allowanceApplied)
                 (pdStarts period) (pdEnds period) lines in
  let lines := accountLine "credit" "Credit applied" (- CreditAppliedCents totals) 0 0 lines in
  let lines := accountLine "prepaid" "Minimum prepaid at period start" (- pdPrepaid period)
                 (pdStarts period) (pdEnds period) lines in
  let lines := if negb (str_eqb (pdID next) "")
               then accountLine "next_minimum" "Next period minimum" nextMinimum (pdStarts next) (pdEnds next) lines
               else lines in
  accountLine "carried_balance" "Balance carried from earlier statements" carriedFrom 0 0 lines.

Definition StripeMinimumChargeCents : Z := 50.

(** The amount due and the state of a closed period's statement. *)
Definition amount_due (totals : Totals) (period : Period) (nextMinimum carriedFrom : Z) : Z :=
  PeriodTotalCents totals - pdPrepaid period + nextMinimum + carriedFrom.

Inductive StatementState : Type :=
| StatementShadow | StatementFinalized | StatementOpen | StatementPaid | StatementPaymentFailed
| StatementAccumulating | StatementCarried | StatementWaived | StatementVoid.

#[export] Instance StatementState_eq_dec : EqDecision StatementState.
Proof. solve_decision. Defined.

Definition statement_state (shadow terminal : bool) (amountDue : Z) : StatementState :=
  if shadow then StatementShadow
  else if amountDue <=? 0 then StatementWaived
  else if (amountDue <? StripeMinimumChargeCents) && terminal then StatementWaived
  else if amountDue <? StripeMinimumChargeCents then StatementAccumulating
  else StatementFinalized.

(** The header and the last row of [StatementCSV]. *)
Definition csv_header : string :=
  "line,project,meter,description,quantity,unit,rate_cents_per_unit,amount_eur,period_start,period_end".
Definition csv_total_row (amountDue : Z) : string := "total,,,,,,,," +:+ FormatCents amountDue +:+ ",,".

(** ** Rounding *)

Lemma quo_floor q : (0 <= q)%Q -> quo q = Qfloor q.
Proof.
  destruct q as [n d]. unfold Qle, quo, Qfloor. cbn. intros H. apply Z.quot_div_nonneg; lia.
Qed.

Lemma quo_bounds q : (0 <= q)%Q -> (inject_Z (quo q) <= q /\ q < inject_Z (quo q) + 1)%Q.
Proof.
  intros H. rewrite quo_floor by done. split; [apply Qfloor_le|].
  change 1%Q with (inject_Z 1). rewrite <- inject_Z_plus. apply Qlt_floor.
Qed.

Lemma quo_nonneg q : (0 <= q)%Q -> 0 <= quo q.
Proof. intros H. rewrite quo_floor by done. change 0 with (Qfloor 0). by apply Qfloor_resp_le. Qed.

(** A non-negative amount whose cents fit an int64. *)
Definition payable (q : Q) : Prop := (0 <= q)%Q /\ (q < inject_Z (2 ^ 63 - 1))%Q.

Lemma quo_int64 q : payable q -> wrap64 (quo q) = quo q.
Proof.
  intros [H0 H1]. apply wrap64_small. unfold in_int64. pose proof (quo_nonneg q H0).
  destruct (quo_bounds q H0) as [Hb _].
  assert (inject_Z (quo q) < inject_Z (2 ^ 63 - 1))%Q by (eapply Qle_lt_trans; eassumption).
  rewrite <- Zlt_Qlt in H2. lia.
Qed.

Lemma round_half_up q :
  payable q -> exists r, RoundHalfUpCents q = r /\ 0 <= r
    /\ (inject_Z r - (1 # 2) <= q)%Q /\ (q < inject_Z r + (1 # 2))%Q.
Proof.
  intros [H0 H1]. set (s := (q + (1 # 2))%Q).
  assert (Hs : (0 <= s)%Q) by (unfold s; lra).
  exists (quo s). destruct (quo_bounds s Hs) as [Hb1 Hb2]. pose proof (quo_nonneg s Hs) as Hn.
  split_and!; [|done|unfold s in *; lra|unfold s in *; lra].
  unfold RoundHalfUpCents. fold s. apply wrap64_small. unfold in_int64.
  assert (inject_Z (quo s) < inject_Z (2 ^ 63))%Q.
  { change (2 ^ 63) with (2 ^ 63 - 1 + 1). rewrite inject_Z_plus. change (inject_Z 1) with 1%Q. unfold s in *. lra. }
  rewrite <- Zlt_Qlt in H. lia.
Qed.

(** ** Splitting conserves cents *)

Lemma bump_length i out : length (bump i out) = length out.
Proof. apply length_alter. Qed.

Lemma bump_sum i : forall out, (i < length out)%nat -> sumZ id (bump i out) = sumZ id out + 1.
Proof.
  induction i as [|i IH]; intros [|x out] H; cbn in H; try lia.
  - unfold bump, sumZ. cbn. unfold id. lia.
  - change (bump (S i) (x :: out)) with (x :: bump i out).
    change (sumZ id (x :: ?l)) with (id x + sumZ id l). rewrite IH by lia.
    change (sumZ id (x :: out)) with (id x + sumZ id out). lia.
Qed.

Lemma distribute_sum order : forall k i out,
  order <> [] -> (forall j, j ∈ order -> (j < length out)%nat) ->
  sumZ id (distribute k i order out) = sumZ id out + Z.of_nat k
  /\ length (distribute k i order out) = length out.
Proof.
  induction k as [|k IH]; intros i out Hn Hin; cbn [distribute]; [split; [lia|done]|].
  assert (Hj : (default O (order !! (i mod length order)%nat) < length out)%nat).
  { destruct (lookup_lt_is_Some_2 order (i mod length order)%nat) as [j Hj].
    { apply Nat.mod_upper_bound. by destruct order. }
    rewrite Hj. cbn. apply Hin. by eapply list_elem_of_lookup_2. }
  destruct (IH (S i) (bump (default O (order !! (i mod length order)%nat)) out)) as [I1 I2]; [done|by rewrite bump_length|].
  rewrite I1, I2, bump_length, bump_sum by done. split; [lia|done].
Qed.

Lemma distribute_take order : forall k i out,
  (i + k <= length order)%nat ->
  distribute k i order out = foldl (fun o j => bump j o) out (take k (drop i order)).
Proof.
  induction k as [|k IH]; intros i out Hle; cbn [distribute]; [done|].
  destruct (lookup_lt_is_Some_2 order i ltac:(lia)) as [j Hj].
  rewrite (drop_S _ _ _ Hj). cbn [take foldl]. rewrite <- IH by lia.
  rewrite Nat.mod_small by lia. by rewrite Hj.
Qed.

Lemma foldl_bump_lookup js : forall out i,
  NoDup js -> foldl (fun o j => bump j o) out js !! i
  = (fun x => x + (if bool_decide (i ∈ js) then 1 else 0)) <$> out !! i.
Proof.
  induction js as [|j js IH]; intros out i Hn; cbn [foldl].
  { rewrite bool_decide_false by set_solver. destruct (out !! i); cbn; [f_equal; lia|done]. }
  apply NoDup_cons in Hn as [Hj Hn]. rewrite IH by done. unfold bump.
  destruct (decide (i = j)) as [->|Hne].
  - rewrite list_lookup_alter_eq. rewrite (bool_decide_false (j ∈ js)) by done.
    rewrite (bool_decide_true (j ∈ j :: js)) by set_solver. destruct (out !! j); cbn; [f_equal; lia|done].
  - rewrite list_lookup_alter_ne by done.
    rewrite (bool_decide_ext (i ∈ js) (i ∈ j :: js)) by set_solver. done.
Qed.

(** The order of the remainders visits every index once. *)
Definition split_order (exact : list Q) : list nat := map fst (isort remainder_leb (imap remainder exact)).

Lemma split_order_perm exact : split_order exact ≡ₚ seq 0 (length exact).
Proof.
  unfold split_order. rewrite (Permutation_map fst (isort_perm _ _)).
  change (map fst ?l) with (l.*1). rewrite fmap_imap. unfold compose. cbn.
  assert (H : forall k, imap (fun n (_ : Q) => (k + n)%nat) exact = seq k (length exact)); [|by rewrite <- (H O)].
  induction exact as [|q exact IH]; intros k; [done|]. cbn [length seq]. rewrite imap_cons.
  rewrite Nat.add_0_r. f_equal. rewrite <- IH. apply imap_ext. intros i x _. cbn. lia.
Qed.

Lemma sum_floors exact :
  Forall (fun v => 0 <= v)%Q exact ->
  let f := sumZ id (map quo exact) in
  (inject_Z f <= sumQ exact)%Q /\ (sumQ exact <= inject_Z (f + len exact))%Q
  /\ (exact <> [] -> sumQ exact < inject_Z (f + len exact))%Q.
Proof.
  induction exact as [|v exact IH]; intros H; cbv zeta; cbn [map sumQ foldr].
  { split_and!; [apply Qle_refl|apply Qle_refl|done]. }
  apply Forall_cons in H as [Hv H]. destruct (IH H) as (I1 & I2 & _). cbv zeta in I1, I2.
  destruct (quo_bounds v Hv) as [B1 B2].
  change (sumZ id (quo v :: map quo exact)) with (quo v + sumZ id (map quo exact)).
  rewrite len_cons. fold (sumQ exact).
  assert (E : (inject_Z (quo v + sumZ id (map quo exact) + (1 + len exact))
    == inject_Z (quo v) + 1 + inject_Z (sumZ id (map quo exact) + len exact))%Q).
  { rewrite !inject_Z_plus. change (inject_Z 1) with 1%Q. ring. }
  rewrite E, inject_Z_plus. split_and!; [lra|lra|intros _; lra].
Qed.

Lemma sumQ_nonneg exact : Forall (fun v => 0 <= v)%Q exact -> (0 <= sumQ exact)%Q.
Proof. induction 1; cbn [sumQ foldr]; [lra|]. fold (sumQ l). lra. Qed.

Lemma sumQ_member exact v : Forall (fun v => 0 <= v)%Q exact -> v ∈ exact -> (v <= sumQ exact)%Q.
Proof.
  induction exact as [|x exact IH]; intros H Hv; [set_solver|]. apply Forall_cons in H as [Hx H].
  cbn [sumQ foldr]. fold (sumQ exact). pose proof (sumQ_nonneg exact H).
  apply elem_of_cons in Hv as [->|Hv]; [lra|]. specialize (IH H Hv). lra.
Qed.

(** What a split of a rounded sum gives, line by line. *)
Lemma allocate_spec exact total :
  Forall (fun v => 0 <= v)%Q exact -> payable (sumQ exact) -> total = RoundHalfUpCents (sumQ exact) ->
  sumZ id (AllocateCents exact total) = total
  /\ length (AllocateCents exact total) = length exact
  /\ forall i v, exact !! i = Some v ->
       AllocateCents exact total !! i = Some (quo v)
       \/ AllocateCents exact total !! i = Some (quo v + 1).
Proof.
  intros Hpos Hpay ->. destruct (sum_floors exact Hpos) as (F1 & F2 & F3). cbv zeta in *.
  destruct (round_half_up _ Hpay) as (total & -> & Ht & R1 & R2).
  assert (Hw : map (fun v => wrap64 (quo v)) exact = map quo exact).
  { apply map_ext_in. intros v Hv. apply quo_int64. apply list_elem_of_In in Hv. rewrite Forall_forall in Hpos.
    split; [by apply Hpos|]. eapply Qle_lt_trans; [apply (sumQ_member exact v); [by apply Forall_forall|done]|apply Hpay]. }
  set (f := sumZ id (map quo exact)) in *.
  assert (Hlo : f <= total).
  { assert (H : (inject_Z f < inject_Z (total + 1))%Q) by (rewrite inject_Z_plus; change (inject_Z 1) with 1%Q; lra).
    rewrite <- Zlt_Qlt in H. lia. }
  assert (Hhi : total <= f + len exact).
  { assert (H : (inject_Z total < inject_Z (f + len exact + 1))%Q)
      by (rewrite (inject_Z_plus _ 1); change (inject_Z 1) with 1%Q; lra).
    rewrite <- Zlt_Qlt in H. lia. }
  unfold AllocateCents. rewrite Hw. fold f. cbv zeta. fold (split_order exact).
  pose proof (split_order_perm exact) as Hperm.
  assert (Hlen : length (split_order exact) = length exact) by (by rewrite Hperm, length_seq).
  assert (Hk : (0 + Z.to_nat (total - f) <= length (split_order exact))%nat) by (unfold len in *; lia).
  assert (Hnd : NoDup (split_order exact)) by (rewrite Hperm; apply NoDup_seq).
  destruct (decide (exact = [])) as [->|Hne].
  { cbn in *. unfold len in *. cbn in *. assert (total = 0) by (unfold f, sumZ in *; cbn in *; lia). subst total.
    change (Z.to_nat (0 - f)) with O. cbn. split_and!; [done|done|done]. }
  destruct (distribute_sum (split_order exact) (Z.to_nat (total - f)) 0 (map quo exact)) as [S1 S2].
  - intros E. rewrite E in Hlen. by destruct exact.
  - intros j. rewrite Hperm, elem_of_seq, length_map. lia.
  - split_and!; [rewrite S1; fold f; lia|by rewrite S2, length_map|].
    intros i v Hv. rewrite distribute_take by done. rewrite drop_0, foldl_bump_lookup.
    + change (map quo exact) with (quo <$> exact). rewrite list_lookup_fmap, Hv. cbn.
      destruct (bool_decide _); [by right|left; f_equal; lia].
    + eapply sublist_NoDup; [exact Hnd|apply sublist_take].
Qed.

(** Splitting a rounded total over its lines neither creates nor loses a
    cent: the lines' cents sum to the total, and each line gets its amount
    rounded down or that plus one cent. *)
Theorem allocation_conserves_cents exact :
  Forall (fun v => 0 <= v)%Q exact -> payable (sumQ exact) ->
  let total := RoundHalfUpCents (sumQ exact) in
  sumZ id (AllocateCents exact total) = total
  /\ forall i v c, exact !! i = Some v -> AllocateCents exact total !! i = Some c ->
       quo v <= c <= quo v + 1.
Proof.
  intros H1 H2. cbv zeta. destruct (allocate_spec exact _ H1 H2 eq_refl) as (A1 & _ & A3).
  split; [done|]. intros i v c Hv Hc. destruct (A3 i v Hv) as [E|E]; rewrite E in Hc; injection Hc as <-; lia.
Qed.

(** ** Statements add up *)

Lemma accountLine_sum meter d amount s e lines :
  sumZ slAmount (accountLine meter d amount s e lines) = sumZ slAmount lines + amount.
Proof.
  unfold accountLine. destruct (Z.eqb_spec amount 0) as [->|_]; [lia|]. cbv zeta.
  rewrite sumZ_app. unfold sumZ at 2. cbn. lia.
Qed.

Lemma imap_sum {A} (g : nat -> A * Z -> StatementLine) (l : list (A * Z)) :
  (forall i p, slAmount (g i p) = p.2) -> sumZ slAmount (imap g l) = sumZ snd l.
Proof.
  revert g. induction l as [|p l IH]; intros g Hg; [done|]. rewrite imap_cons.
  unfold sumZ. cbn [foldr]. fold (sumZ slAmount (imap (g ∘ S) l)). fold (sumZ snd l).
  rewrite IH, Hg by (intros; apply Hg). done.
Qed.

Lemma zip_sum {A} (l : list A) : forall (k : list Z), length k = length l -> sumZ snd (zip l k) = sumZ id k.
Proof.
  induction l as [|a l IH]; intros [|x k] H; try done.
  change (zip (a :: l) (x :: k)) with ((a, x) :: zip l k). unfold sumZ in *. cbn [foldr].
  rewrite IH by (cbn in H; lia). done.
Qed.

#[local] Instance RoundHalfUp_proper : Proper (Qeq ==> eq) RoundHalfUpCents.
Proof.
  intros x y E. unfold RoundHalfUpCents. f_equal.
  assert (E' : (x + (1 # 2) == y + (1 # 2))%Q) by (rewrite E; reflexivity). revert E'.
  generalize (x + (1 # 2))%Q (y + (1 # 2))%Q. intros [n d] [n' d']. unfold Qeq, quo. cbn. intros H.
  rewrite <- (Z.quot_mul_cancel_r n (Zpos d) (Zpos d')) by lia. rewrite H.
  rewrite (Z.mul_comm (Zpos d) (Zpos d')). apply Z.quot_mul_cancel_r; lia.
Qed.

Lemma sumQ_perm l1 l2 : l1 ≡ₚ l2 -> (sumQ l1 == sumQ l2)%Q.
Proof.
  induction 1 as [|x l l' _ IH|x y l|l l' l'' _ IH1 _ IH2].
  - reflexivity.
  - change (x + sumQ l == x + sumQ l')%Q. by rewrite IH.
  - change (y + (x + sumQ l) == x + (y + sumQ l))%Q. ring.
  - by rewrite IH1.
Qed.

Lemma rate_row_nonneg rates names so row :
  (forall m, 0 <= rates m)%Q -> Forall (fun l => 0 <= rlExact l)%Q (rate_row rates names so row).
Proof.
  intros Hr. apply Forall_forall. intros l Hl. unfold rate_row in Hl. apply list_elem_of_omap in Hl as (m & _ & H).
  destruct (_ && _); [done|]. cbv zeta in H. destruct (Z.max 0 (urQuantity row m) =? 0); [done|].
  injection H as <-. cbn [rlExact]. unfold Price. apply Qmult_le_0_compat; [done|].
  change 0%Q with (inject_Z 0). rewrite <- Zle_Qle. lia.
Qed.

(** The lines of a statement sum to the amount due, whatever the rounding. *)
Lemma lines_sum_to_due rates names storageOnly rows period next credit nextMinimum carried :
  (forall m, 0 <= rates m)%Q ->
  (pdID next = "" -> nextMinimum = 0) ->
  let '(lines, gross) := rateWindow rates names storageOnly rows in
  (gross < inject_Z (2 ^ 63 - 1))%Q ->
  let totals := ComputeTotals gross (pdMinimum period) (pdIncluded period) credit in
  sumZ slAmount (buildStatementLines rates lines totals period next nextMinimum carried)
  = amount_due totals period nextMinimum carried.
Proof.
  intros Hr Hnext. unfold rateWindow. cbv zeta. set (raw := mjoin _).
  assert (Hraw : Forall (fun l => 0 <= rlExact l)%Q raw).
  { unfold raw. apply Forall_join, Forall_forall. intros l (row & -> & _)%list_elem_of_fmap. by apply rate_row_nonneg. }
  clearbody raw. intros Hg.
  assert (Hsum : (sumQ (map rlExact (isort line_leb raw)) == sumQ (map rlExact raw))%Q)
    by (apply sumQ_perm, Permutation_map, isort_perm).
  assert (Hpos : Forall (fun v => 0 <= v)%Q (map rlExact (isort line_leb raw))).
  { apply Forall_fmap. by rewrite isort_perm. }
  assert (Hpay : payable (sumQ (map rlExact (isort line_leb raw)))).
  { split; [by apply sumQ_nonneg|by rewrite Hsum]. }
  destruct (allocate_spec _ _ Hpos Hpay eq_refl) as (A1 & A2 & _).
  assert (Eg : RoundHalfUpCents (sumQ (map rlExact (isort line_leb raw))) = RoundHalfUpCents (sumQ (map rlExact raw)))
    by (by rewrite Hsum). rewrite Eg in A1, A2.
  unfold buildStatementLines, amount_due. cbv zeta. rewrite accountLine_sum.
  assert (Hn : forall l, sumZ slAmount (if negb (str_eqb (pdID next) "")
     then accountLine "next_minimum" "Next period minimum" nextMinimum (pdStarts next) (pdEnds next) l else l)
     = sumZ slAmount l + nextMinimum).
  { intros l. destruct (str_eqb (pdID next) "") eqn:E; cbn [negb]; [|apply accountLine_sum].
    apply str_eqb_eq in E. rewrite (Hnext E). lia. }
  rewrite Hn, !accountLine_sum. rewrite imap_sum by (by intros i [line c]).
  unfold ComputeTotals. cbn [GrossCents CreditAppliedCents PeriodTotalCents]. cbv zeta. rewrite zip_sum.
  - rewrite A1. repeat (step_case; bool_to_prop); lia.
  - rewrite A2, length_map. done.
Qed.

(** The period equation.  Gross usage is the exact usage rounded to the
    nearest cent; the allowance only reduces usage; credit pays only usage above
    the allowance, never more than there is of either; so the period total is
    never below the monthly minimum. *)
Theorem period_equation gross minimum included credit :
  payable gross -> 0 <= included -> 0 <= credit ->
  let t := ComputeTotals gross minimum included credit in
  (inject_Z (GrossCents t) - (1 # 2) <= gross)%Q /\ (gross < inject_Z (GrossCents t) + (1 # 2))%Q
  /\ AfterAllowanceCents t = Z.max 0 (GrossCents t - included)
  /\ CreditAppliedCents t = Z.min credit (AfterAllowanceCents t)
  /\ PeriodTotalCents t = minimum + AfterAllowanceCents t - CreditAppliedCents t
  /\ minimum <= PeriodTotalCents t.
Proof.
  intros Hp Hi Hc. cbv zeta. unfold ComputeTotals. cbn [GrossCents CreditAppliedCents PeriodTotalCents AfterAllowanceCents].
  destruct (round_half_up gross Hp) as (r & -> & Hr & R1 & R2). cbv zeta.
  split_and!; [exact R1|exact R2| | |done|]; repeat (step_case; bool_to_prop); lia.
Qed.

(** ** Consuming credit *)

Lemma list_eq_nil {A} (l : list A) : (forall x, x ∉ l) -> l = [].
Proof. destruct l as [|x l]; [done|]. intros H. destruct (H x). set_solver. Qed.

(** What the loop takes from each grant. *)
Fixpoint takes (want applied : Z) (grants : list grantBalance) : list (string * Z) :=
  match grants with
  | [] => []
  | g :: grants =>
      if want <=? applied then []
      else
        let t := if want - applied <? gbRemaining g then want - applied else gbRemaining g in
        (gbID g, t) :: takes want (applied + t) grants
  end.

Definition consumption_key (statementID grant : string) : string :=
  "consume:" +:+ statementID +:+ ":" +:+ grant.

Fixpoint consumption_rows (accountID statementID : string) (now : time) (ids : list string)
    (ts : list (string * Z)) : list creditEntry :=
  match ts with
  | [] => []
  | (g, t) :: ts =>
      mkCreditEntry (default "" (head ids)) accountID "consumption" g (- t) None statementID
        (consumption_key statementID g) "" now
      :: consumption_rows accountID statementID now (tail ids) ts
  end.

(** No row of the ledger belongs to the statement yet. *)
Definition fresh_statement (statementID : string) (tbl : list creditEntry) : Prop :=
  forall e g, e ∈ tbl -> ceDedup e <> consumption_key statementID g.

Lemma consumption_key_inj st g1 g2 : consumption_key st g1 = consumption_key st g2 -> g1 = g2.
Proof. unfold consumption_key. intros H. do 3 apply (inj (String.append _)) in H. done. Qed.

Lemma consume_loop_rows acct st now want : forall grants applied ids tbl,
  NoDup (map gbID grants) ->
  (forall e g, e ∈ tbl -> g ∈ map gbID grants -> ceDedup e <> consumption_key st g) ->
  consume_loop acct st now want applied ids grants tbl
  = (tbl ++ consumption_rows acct st now ids (takes want applied grants),
     applied + sumZ snd (takes want applied grants)).
Proof.
  induction grants as [|g grants IH]; intros applied ids tbl Hn Hf; cbn [consume_loop takes].
  { rewrite app_nil_r, Z.add_0_r. done. }
  destruct (want <=? applied); [rewrite app_nil_r, Z.add_0_r; done|]. cbv zeta.
  set (t := if want - applied <? gbRemaining g then _ else _).
  cbn in Hn. apply NoDup_cons in Hn as [Hg Hn].
  assert (Hins : forall e, ceDedup e = consumption_key st (gbID g) -> insert_entry e tbl = tbl ++ [e]).
  { intros e He. unfold insert_entry. destruct (existsb _ tbl) eqn:E; [|done].
    apply existsb_exists in E as (x & Hx & E). apply list_elem_of_In in Hx. apply str_eqb_eq in E.
    rewrite He in E. destruct (Hf x (gbID g) Hx); [cbn; set_solver|done]. }
  rewrite Hins by done. rewrite IH; [|done|].
  - cbn [consumption_rows]. rewrite <- app_assoc. unfold sumZ. cbn [foldr]. f_equal. cbn. lia.
  - intros e g' [He|He]%elem_of_app Hg'; [apply Hf; [done|cbn; set_solver]|].
    assert (ceDedup e = consumption_key st (gbID g)) as -> by (by apply list_elem_of_singleton in He as ->).
    intros E. apply consumption_key_inj in E. congruence.
Qed.

Definition taken (ts : list (string * Z)) (id : string) : Z := sumZ snd (filter (fun p => p.1 = id) ts).

Lemma consumed_rows acct st now ts : forall tbl ids id,
  consumed (tbl ++ consumption_rows acct st now ids ts) id = consumed tbl id - taken ts id.
Proof.
  intros tbl ids id. unfold consumed, taken. rewrite filter_app, sumZ_app.
  enough (sumZ ceAmount (filter (fun c => ceGrant c = id /\ ceKind c = "consumption")
    (consumption_rows acct st now ids ts)) = - sumZ snd (filter (fun p => p.1 = id) ts)) by lia.
  revert ids. induction ts as [|[g t] ts IH]; intros ids; [done|]. cbn [consumption_rows].
  rewrite !filter_cons. cbn [ceGrant ceKind fst]. destruct (decide (g = id)) as [->|Hne].
  - rewrite decide_True by done. unfold sumZ in *. cbn [foldr ceAmount snd]. rewrite IH. lia.
  - rewrite decide_False by naive_solver. apply IH.
Qed.

Lemma usable_rows acct st now acct' now' ts : forall ids,
  filter (fun g => usable acct' now' g = true) (consumption_rows acct st now ids ts) = [].
Proof.
  induction ts as [|[g t] ts IH]; intros ids; [done|]. cbn [consumption_rows]. rewrite filter_cons, decide_False; [apply IH|].
  unfold usable. cbn [ceKind]. change (str_eqb "consumption" "consumption") with true. cbn [negb].
  rewrite andb_false_r. done.
Qed.

(** Grants with something left, all of it available. *)
Lemma takes_sum want : forall grants applied,
  Forall (fun g => 0 < gbRemaining g) grants -> applied <= want ->
  sumZ snd (takes want applied grants) = Z.min (want - applied) (sumZ gbRemaining grants).
Proof.
  induction grants as [|g grants IH]; intros applied Hf Hle; cbn [takes].
  { unfold sumZ. cbn. lia. }
  apply Forall_cons in Hf as [Hg Hf].
  assert (0 <= sumZ gbRemaining grants).
  { apply sumZ_nonneg. intros a Ha. rewrite Forall_forall in Hf. specialize (Hf a Ha). lia. }
  change (sumZ gbRemaining (g :: grants)) with (gbRemaining g + sumZ gbRemaining grants).
  destruct (want <=? applied) eqn:E; bool_to_prop; [unfold sumZ at 1; cbn; lia|]. cbv zeta.
  match goal with |- sumZ snd (?p :: ?l) = _ => change (sumZ snd (p :: l)) with (p.2 + sumZ snd l) end.
  cbn [snd]. destruct (want - applied <? gbRemaining g) eqn:E2; bool_to_prop; rewrite IH by (done || lia); lia.
Qed.

Lemma taken_bounds want id : forall grants applied,
  Forall (fun g => 0 < gbRemaining g) grants ->
  0 <= taken (takes want applied grants) id <= sumZ gbRemaining (filter (fun g => gbID g = id) grants).
Proof.
  unfold taken. induction grants as [|g grants IH]; intros applied Hf; cbn [takes]; [done|].
  apply Forall_cons in Hf as [Hg Hf].
  assert (Hnn : 0 <= sumZ gbRemaining (filter (fun g => gbID g = id) grants)).
  { apply sumZ_nonneg. intros a Ha. apply list_elem_of_filter in Ha as [_ Ha].
    rewrite Forall_forall in Hf. specialize (Hf a Ha). lia. }
  rewrite (filter_cons _ g). destruct (want <=? applied) eqn:E; bool_to_prop.
  { destruct (decide (gbID g = id)); unfold sumZ in *; cbn [filter list_filter foldr]; lia. }
  cbv zeta. rewrite filter_cons. cbn [fst].
  specialize (IH (applied + (if want - applied <? gbRemaining g then want - applied else gbRemaining g)) Hf).
  destruct (decide (gbID g = id)); [|done]. unfold sumZ in *. cbn [foldr snd].
  destruct (want - applied <? gbRemaining g) eqn:E2; bool_to_prop; lia.
Qed.

(** With distinct keys, each taking belongs to one grant. *)
Lemma taken_total {A} (key : A -> string) (l : list A) ts :
  NoDup (map key l) -> (forall p, p ∈ ts -> p.1 ∈ map key l) ->
  sumZ (fun g => taken ts (key g)) l = sumZ snd ts.
Proof.
  intros Hn. induction ts as [|[k t] ts IH]; intros Hin.
  { unfold taken. clear Hn. induction l as [|a l IH]; [done|]. unfold sumZ in *. cbn in *.
    rewrite IH; [done|]. set_solver. }
  assert (Hk : sumZ (fun g => if decide (k = key g) then t else 0) l = t).
  { specialize (Hin (k, t) ltac:(set_solver)). cbn in Hin. clear IH. induction l as [|a l IH]; [set_solver|].
    cbn in Hn, Hin. apply NoDup_cons in Hn as [Ha Hn]. unfold sumZ in *. cbn [foldr].
    destruct (decide (k = key a)) as [->|Hne].
    - enough (foldr (fun (a0 : A) (s : Z) => (if decide (key a = key a0) then t else 0) + s) 0 l = 0) by lia.
      clear -Ha. induction l as [|b l IH]; [done|]. cbn [foldr]. rewrite decide_False, IH; [done|cbn in Ha; set_solver..].
    - rewrite IH; [lia|done|set_solver]. }
  transitivity (sumZ (fun g => (if decide (k = key g) then t else 0) + taken ts (key g)) l).
  - apply sumZ_ext. intros g _. unfold taken. rewrite filter_cons. cbn [fst].
    destruct (decide (k = key g)); unfold sumZ; cbn [foldr snd]; lia.
  - rewrite sumZ_plus, Hk, IH by set_solver. unfold sumZ. cbn. lia.
Qed.

Lemma credit_balance_max acct now tbl :
  CreditBalance acct now tbl
  = sumZ (fun g => Z.max 0 (remaining tbl g)) (filter (fun g => usable acct now g = true) tbl).
Proof.
  unfold CreditBalance. generalize (filter (fun g => usable acct now g = true) tbl). intros l.
  induction l as [|g l IH]; [done|]. cbn [map]. rewrite filter_cons. unfold sumZ in *. cbn [foldr].
  destruct (decide (0 < remaining tbl g)); cbn [foldr]; rewrite IH; unfold id; lia.
Qed.

Lemma grant_balances_facts acct now tbl :
  NoDup (map ceID tbl) ->
  NoDup (map gbID (grantBalancesTx acct now tbl))
  /\ Forall (fun g => 0 < gbRemaining g) (grantBalancesTx acct now tbl)
  /\ sumZ gbRemaining (grantBalancesTx acct now tbl) = CreditBalance acct now tbl
  /\ (forall b, b ∈ grantBalancesTx acct now tbl -> exists g,
        g ∈ filter (fun g => usable acct now g = true) tbl /\ gbID b = ceID g /\ gbRemaining b = remaining tbl g).
Proof.
  intros Hn. unfold grantBalancesTx.
  set (us := filter (fun g => usable acct now g = true) tbl).
  assert (Hus : NoDup (map ceID us)).
  { unfold us. eapply sublist_NoDup; [exact Hn|]. apply sublist_map, sublist_filter. }
  assert (Hel : forall b, b ∈ map (fun g => mkGrantBalance (ceID g) (remaining tbl g) (ceExpires g)) (isort expiry_leb us) ->
    exists g, g ∈ us /\ gbID b = ceID g /\ gbRemaining b = remaining tbl g).
  { intros b (g & -> & Hg)%list_elem_of_fmap. apply isort_elem in Hg. eauto. }
  split_and!.
  - eapply sublist_NoDup; [|apply sublist_map, sublist_filter].
    change (map gbID ?l) with (gbID <$> l). rewrite <- list_fmap_compose. unfold compose. cbn.
    by rewrite (fmap_Permutation ceID _ _ (isort_perm expiry_leb us)).
  - apply Forall_forall. intros b Hb. by apply list_elem_of_filter in Hb as [? _].
  - rewrite credit_balance_max. fold us. rewrite <- (sumZ_permutation _ _ _ (isort_perm expiry_leb us)).
    generalize (isort expiry_leb us). intros l. induction l as [|g l IH]; [done|]. cbn [map]. rewrite filter_cons. cbn [gbRemaining].
    unfold sumZ in *. cbn [foldr]. destruct (decide (0 < remaining tbl g)); cbn [foldr gbRemaining]; rewrite IH; lia.
  - intros b Hb. apply list_elem_of_filter in Hb as [_ Hb]. auto.
Qed.

Lemma takes_keys want : forall grants applied p, p ∈ takes want applied grants -> p.1 ∈ map gbID grants.
Proof.
  induction grants as [|g grants IH]; intros applied p; cbn [takes]; [set_solver|].
  destruct (want <=? applied); [set_solver|]. cbv zeta. intros [->|H]%elem_of_cons; cbn; [set_solver|].
  apply elem_of_cons. right. by eapply IH.
Qed.

(** Distinct identities: at most one balance per grant. *)
Lemma one_key_sum id m l :
  NoDup (map gbID l) -> (forall b, b ∈ l -> gbID b = id -> gbRemaining b <= Z.max 0 m) ->
  sumZ gbRemaining (filter (fun b => gbID b = id) l) <= Z.max 0 m.
Proof.
  induction l as [|b l IH]; intros Hn Hb; [unfold sumZ; cbn; lia|]. cbn in Hn. apply NoDup_cons in Hn as [Hx Hn].
  rewrite filter_cons. destruct (decide (gbID b = id)) as [E|_]; [|apply IH; set_solver].
  assert (filter (fun b => gbID b = id) l = []) as ->.
  { apply list_eq_nil. intros c Hc. apply list_elem_of_filter in Hc as [Ec Hc]. apply Hx. rewrite E, <- Ec.
    apply list_elem_of_fmap. eauto. }
  specialize (Hb b ltac:(set_solver) E). unfold sumZ. cbn. lia.
Qed.

(** Consuming credit is exact.  For a new statement it applies the smaller
    of what is wanted and the account's unexpired balance, lowers the balance
    by precisely that much, only adds rows to the ledger, and leaves every
    grant that was not overdrawn not overdrawn. *)
Theorem consume_credit_exact acct st want now ids tbl :
  NoDup (map ceID tbl) -> fresh_statement st tbl -> 0 <= want ->
  let '(tbl', applied) := consumeCreditTx acct st want now ids tbl in
  applied = Z.min want (CreditBalance acct now tbl)
  /\ CreditBalance acct now tbl' = CreditBalance acct now tbl - applied
  /\ tbl `prefix_of` tbl'
  /\ (forall g, g ∈ tbl -> usable acct now g = true -> 0 <= remaining tbl g -> 0 <= remaining tbl' g).
Proof.
  intros Hn Hf Hw. destruct (grant_balances_facts acct now tbl Hn) as (G1 & G2 & G3 & G4).
  assert (Hb0 : 0 <= CreditBalance acct now tbl).
  { rewrite credit_balance_max. apply sumZ_nonneg. intros; lia. }
  unfold consumeCreditTx. destruct (want <=? 0) eqn:E; bool_to_prop.
  { split_and!; [lia|lia|done|done]. }
  rewrite consume_loop_rows; [|done|intros e g He _; by apply Hf].
  set (ts := takes want 0 (grantBalancesTx acct now tbl)).
  set (us := filter (fun g => usable acct now g = true) tbl).
  assert (Hus : NoDup (map ceID us)) by (eapply sublist_NoDup; [exact Hn|apply sublist_map, sublist_filter]).
  assert (Happ : sumZ snd ts = Z.min want (CreditBalance acct now tbl)).
  { unfold ts. rewrite takes_sum, G3 by (done || lia). f_equal. lia. }
  assert (Hkeys : forall p, p ∈ ts -> p.1 ∈ map ceID us).
  { intros p Hp. apply takes_keys in Hp. apply list_elem_of_fmap in Hp as (b & -> & Hb).
    destruct (G4 b Hb) as (g & Hg & -> & _). apply list_elem_of_fmap. eauto. }
  assert (Hrem : forall g, remaining (tbl ++ consumption_rows acct st now ids ts) g = remaining tbl g - taken ts (ceID g)).
  { intros g. unfold remaining. rewrite consumed_rows. lia. }
  assert (Hmax : forall g, g ∈ us -> 0 <= taken ts (ceID g) <= Z.max 0 (remaining tbl g)).
  { intros g Hg. pose proof (taken_bounds want (ceID g) (grantBalancesTx acct now tbl) 0 G2) as Ht. fold ts in Ht.
    enough (sumZ gbRemaining (filter (fun b => gbID b = ceID g) (grantBalancesTx acct now tbl)) <= Z.max 0 (remaining tbl g)) by lia.
    apply one_key_sum; [done|]. intros b Hb Eb. destruct (G4 b Hb) as (g' & Hg' & E1 & E2). rewrite E2.
    assert (g' = g) as -> by (apply (NoDup_map_eq ceID us _ _ Hus Hg' Hg); congruence). lia. }
  split_and!; [lia| |by eexists|].
  - rewrite !credit_balance_max, filter_app, usable_rows, app_nil_r. fold us.
    rewrite <- (taken_total ceID us ts Hus Hkeys). rewrite Z.add_0_l.
    enough (sumZ (fun g => Z.max 0 (remaining tbl g)) us
      = sumZ (fun g => Z.max 0 (remaining (tbl ++ consumption_rows acct st now ids ts) g) + taken ts (ceID g)) us)
      as -> by (rewrite sumZ_plus; lia).
    apply sumZ_ext. intros g Hg. specialize (Hmax g Hg). rewrite Hrem. lia.
  - intros g Hg Hu Hr. rewrite Hrem. assert (Hgu : g ∈ us) by (by apply list_elem_of_filter).
    specialize (Hmax g Hgu). lia.
Qed.

(** ** Billing periods *)

Definition valid_civil (c : civil) : Prop :=
  1 <= cMonth c <= 12 /\ 1 <= cDay c <= daysInMonth (cYear c) (cMonth c).

Definition month_index (c : civil) : Z := 12 * cYear c + (cMonth c - 1).

Lemma days_bounds y m : 28 <= daysInMonth y m <= 31.
Proof. unfold daysInMonth. destruct (m =? 2); [destruct (leap y)|destruct (_ || _)]; lia. Qed.

(** The n-th boundary is a valid date n calendar months after the anchor's, at
    the anchor's time of day, on the anchor's day or the last of a shorter
    month. *)
Lemma anchor_months anchor n :
  valid_civil anchor -> 0 <= n ->
  let c := AddAnchorMonths anchor n in
  valid_civil c /\ month_index c = month_index anchor + n /\ cTod c = cTod anchor
  /\ cDay c = Z.min (cDay anchor) (daysInMonth (cYear c) (cMonth c)).
Proof.
  intros [Hm Hd] Hn.
  assert (Hidx : forall k, 0 <= k -> 1 <= cMonth (AddAnchorMonths anchor k) <= 12
    /\ month_index (AddAnchorMonths anchor k) = month_index anchor + k).
  { intros k Hk. unfold AddAnchorMonths, month_index. cbn. set (total := cMonth anchor - 1 + k).
    pose proof (Z.quot_rem' total 12). pose proof (Z.rem_bound_pos total 12 ltac:(lia) ltac:(lia)). lia. }
  destruct (Hidx n Hn) as [H1 H2]. cbv zeta.
  pose proof (days_bounds (cYear (AddAnchorMonths anchor n)) (cMonth (AddAnchorMonths anchor n))) as Hb.
  assert (Hday : cDay (AddAnchorMonths anchor n) = Z.min (cDay anchor)
    (daysInMonth (cYear (AddAnchorMonths anchor n)) (cMonth (AddAnchorMonths anchor n)))).
  { unfold AddAnchorMonths at 1. cbn [cDay]. unfold AddAnchorMonths. cbn [cYear cMonth].
    destruct (Z.ltb_spec (daysInMonth (cYear anchor + (cMonth anchor - 1 + n) ÷ 12)
      (Z.rem (cMonth anchor - 1 + n) 12 + 1)) (cDay anchor)); lia. }
  split_and!; [split; [done|lia]|done|done|done].
Qed.

(** ** The CSV export *)

(** Fields of a row without quoting. *)
Fixpoint split_commas (acc : string) (s : string) : list string :=
  match s with
  | String c s => if Ascii.eqb c (Ascii.ascii_of_nat 44) then acc :: split_commas "" s
                  else split_commas (acc +:+ String c EmptyString) s
  | EmptyString => [acc]
  end.

(** The total row of the CSV export is misaligned with its header: the
    amount stands under [period_start] instead of [amount_eur], and the row has
    one field too many. *)
Theorem csv_total_misaligned :
  let header := split_commas "" csv_header in
  let row := split_commas "" (csv_total_row 1234) in
  header !! 7%nat = Some "amount_eur" /\ header !! 8%nat = Some "period_start"
  /\ row !! 7%nat = Some "" /\ row !! 8%nat = Some "12.34"
  /\ length header = 10%nat /\ length row = 11%nat.
Proof. vm_compute. repeat split. Qed.

(** ** Concrete inputs *)

Definition demo_exact : list Q := [(2 # 5)%Q; (2 # 5)%Q; (7 # 4)%Q].

(** 2.55 cents round to 3: the cent left over goes to the largest remainder,
    the next one to the first of the equal ones. *)
Lemma allocation_conserves_cents_witness :
  AllocateCents demo_exact 3 = [1; 0; 2]
  /\ sumZ id (AllocateCents demo_exact (RoundHalfUpCents (sumQ demo_exact))) = RoundHalfUpCents (sumQ demo_exact).
Proof.
  split; [vm_compute; reflexivity|].
  apply (allocation_conserves_cents demo_exact).
  - repeat constructor; vm_compute; discriminate.
  - split; vm_compute; [discriminate|reflexivity].
Defined.

Lemma period_equation_witness :
  let t := ComputeTotals (12345 # 10)%Q 500 500 100 in
  GrossCents t = 1235 /\ 500 <= PeriodTotalCents t.
Proof.
  split; [vm_compute; reflexivity|].
  apply (period_equation (12345 # 10)%Q 500 500 100); [split; vm_compute; [discriminate|reflexivity]|lia|lia].
Defined.

Definition demo_ledger : list creditEntry :=
  [mkCreditEntry "g1" "acct" "grant" "" 300 (Some 1000) "" "k1" "" 1;
   mkCreditEntry "g2" "acct" "refund" "" 500 None "" "k2" "" 2].

Lemma consume_credit_exact_witness :
  (consumeCreditTx "acct" "s1" 400 10 ["u1"; "u2"] demo_ledger).2 = 400
  /\ CreditBalance "acct" 10 (consumeCreditTx "acct" "s1" 400 10 ["u1"; "u2"] demo_ledger).1
     = CreditBalance "acct" 10 demo_ledger - 400.
Proof.
  split; [vm_compute; reflexivity|].
  pose proof (consume_credit_exact "acct" "s1" 400 10 ["u1"; "u2"] demo_ledger) as H.
  destruct (consumeCreditTx "acct" "s1" 400 10 ["u1"; "u2"] demo_ledger) as [tbl' applied] eqn:E.
  assert (applied = 400) as ->.
  { change applied with (tbl', applied).2. rewrite <- E. vm_compute. reflexivity. }
  apply H; [|intros e g He|lia].
  - apply (bool_decide_unpack _). vm_compute. exact I.
  - unfold demo_ledger in He. apply elem_of_cons in He as [->|He]; [discriminate|].
    apply elem_of_cons in He as [->|He]; [discriminate|]. by apply not_elem_of_nil in He.
Defined.
