(* ===== verification/ClosePeriod.v ===== *)
(** * Closing a billing period

    Models the accounts and periods of [billing/accounts.go], the plans of
    [billing/billing.go], [loadRatesTx] of [billing/rating.go] and
    [ClosePeriod] of [billing/statements.go] with everything the transaction
    writes: credit entries, the next period, the account's plan, the statement
    and its lines, carried balances and the invoice work item. *)

From S2P Require Import Prelude GoText DurableWork Billing.
From Stdlib Require Import QArith.
#[local] Open Scope Z_scope.

(** ** Calendar instants *)

(** Days from January 1 of year 1 to the first of a month. *)
Definition days_before_year (y : Z) : Z := 365 * (y - 1) + (y - 1) / 4 - (y - 1) / 100 + (y - 1) / 400.
Definition days_before_month (y m : Z) : Z :=
  default 0 ([0; 31; 59; 90; 120; 151; 181; 212; 243; 273; 304; 334] !! Z.to_nat (m - 1))
  + (if leap y && (2 <? m) then 1 else 0).

Definition day : duration := 24 * hour.

(** [time.Date] of valid fields in UTC. *)
Definition instant (c : civil) : time :=
  (days_before_year (cYear c) + days_before_month (cYear c) (cMonth c) + cDay c - 1) * day + cTod c.

Example unix_epoch_is_1970 : instant (mkCivil 1970 1 1 0) = unix_epoch.
Proof. vm_compute. reflexivity. Qed.

(** ** Plans *)

Record Quota := mkQuota {
  MaxCPUMillis : Z; MaxMemoryMebibytes : Z; MaxCPUMillisPerService : Z; MaxMemoryMebibytesPerService : Z;
  MaxServicesPerEnvironment : Z; MaxServicesPerProject : Z; MaxReplicasPerService : Z; MaxProjects : Z;
  MaxVolumeBytes : Z; MaxConcurrentBuilds : Z; MaxBuildMinutes30Days : Z;
}.
Record Plan := mkPlan { plID : string; MonthlyMinimumCents : Z; IncludedUsageCents : Z; plQuota : Quota }.

Definition PlanTrial : string := "trial".
Definition PlanHobby : string := "hobby".
Definition PlanPro : string := "pro".
Definition PlanStorage : string := "storage".

Definition Plans : list (string * Plan) :=
  [ (PlanTrial, mkPlan PlanTrial 0 0 (mkQuota 3000 1536 1000 512 3 3 1 1 (Z.shiftl 512 20) 1 300));
    (PlanHobby, mkPlan PlanHobby 500 500 (mkQuota 8000 16384 0 0 25 0 10 10 (Z.shiftl 100 30) 2 0));
    (PlanPro, mkPlan PlanPro 2000 2000 (mkQuota 32000 65536 0 0 100 0 64 100 (Z.shiftl 1 40) 5 0));
    (PlanStorage, mkPlan PlanStorage 0 0 (mkQuota 32000 65536 0 0 100 0 64 100 (Z.shiftl 1 40) 5 0)) ].

Definition plan_of (id : string) : option Plan := snd <$> List.find (fun p => str_eqb p.1 id) Plans.

(** ** Accounts and statements *)

Inductive Mode : Type := ModeDisabled | ModeShadow | ModeEnabled.
Inductive AccountState : Type :=
| AccountTrial | AccountPendingActivation | AccountActive | AccountPastDue | AccountCancelled.

#[export] Instance Mode_eq_dec : EqDecision Mode.
Proof. solve_decision. Defined.
#[export] Instance AccountState_eq_dec : EqDecision AccountState.
Proof. solve_decision. Defined.
#[export] Instance PeriodState_eq_dec : EqDecision PeriodState.
Proof. solve_decision. Defined.
#[export] Instance PeriodKind_eq_dec : EqDecision PeriodKind.
Proof. solve_decision. Defined.

(** [AnchorAt] is kept by its calendar fields. *)
Record Account := mkAccount {
  acID : string; acWorkspace : string; acCustomer : string; acCurrency : string; acPlan : string;
  acPendingPlan : string; acState : AccountState; acAnchor : civil; acTrialEnds : option time;
  acCancelEffective : option time; acBudget : option Z; acPaymentReady : bool; acCreated : time; acUpdated : time;
}.
#[export] Instance Account_eta : Eta Account := fun a =>
  mkAccount (acID a) (acWorkspace a) (acCustomer a) (acCurrency a) (acPlan a) (acPendingPlan a) (acState a)
    (acAnchor a) (acTrialEnds a) (acCancelEffective a) (acBudget a) (acPaymentReady a) (acCreated a) (acUpdated a).

Inductive StatementKind : Type := StatementActivation | StatementPeriodClose.
#[export] Instance StatementKind_eq_dec : EqDecision StatementKind.
Proof. solve_decision. Defined.

(** A row of [billing_statements] with its lines; [stCarriedInto] is the column
    [carried_into_statement_id], which the struct does not load. *)
Record Statement := mkStatement {
  stID : string; stAccount : string; stPeriod : string; stKind : StatementKind; stCurrency : string;
  stShadow : bool; stState : StatementState; stGross : Z; stIncluded : Z; stAfterAllowance : Z; stCredit : Z;
  stMinimum : Z; stPrepaid : Z; stNextMinimum : Z; stCarriedFrom : Z; stPeriodTotal : Z; stAmountDue : Z;
  stCoverage : Coverage; stInvoice : string; stInvoiceURL : string; stProviderAttempt : option time;
  stCarriedInto : string; stFinalized : option time; stCreated : time; stUpdated : time;
  stLines : list StatementLine;
}.
#[export] Instance Statement_eta : Eta Statement := fun s =>
  mkStatement (stID s) (stAccount s) (stPeriod s) (stKind s) (stCurrency s) (stShadow s) (stState s) (stGross s)
    (stIncluded s) (stAfterAllowance s) (stCredit s) (stMinimum s) (stPrepaid s) (stNextMinimum s) (stCarriedFrom s)
    (stPeriodTotal s) (stAmountDue s) (stCoverage s) (stInvoice s) (stInvoiceURL s) (stProviderAttempt s)
    (stCarriedInto s) (stFinalized s) (stCreated s) (stUpdated s) (stLines s).

(** A row of [billing_rates]. *)
Record RateRow := mkRateRow { rrVersion : Z; rrCurrency : string; rrMeter : string; rrRate : Q }.

(** The tables the transaction touches.  Statements are stored without their
    lines, which are rows of their own under the statement's identity. *)
Record BillingDB := mkBillingDB {
  dbAccounts : list Account; dbPeriods : list Period; dbRates : list RateRow; dbCredits : list creditEntry;
  dbStatements : list Statement; dbLines : list (string * StatementLine); dbWork : list WorkRecord;
}.
#[export] Instance BillingDB_eta : Eta BillingDB := fun d =>
  mkBillingDB (dbAccounts d) (dbPeriods d) (dbRates d) (dbCredits d) (dbStatements d) (dbLines d) (dbWork d).

Inductive BillingError : Type :=
| ErrDisabled
| ErrNoRows
| ErrUnknownPlan (id : string)
| ErrMissingRate (version : Z) (meter : string)
| ErrConflict (table : string)
| ErrWork (e : WorkError).

(** ** Reading *)

(** [QueryRow(...).Scan]: the first row, or [sql.ErrNoRows]. *)
Definition query_row {A} (p : A -> bool) (tbl : list A) : result BillingError A :=
  match List.find p tbl with Some a => Ok a | None => Err ErrNoRows end.

Definition loadRatesTx (version : Z) (currency : string) (tbl : list RateRow) : result BillingError (Meter -> Q) :=
  let row m := List.find (fun r => (rrVersion r =? version) && str_eqb (rrCurrency r) currency
                                   && str_eqb (rrMeter r) (Meter_string m)) tbl in
  match List.find (fun m => bool_decide (row m = None)) Meters with
  | Some m => Err (ErrMissingRate version (Meter_string m))
  | None => Ok (fun m => default 0%Q (rrRate <$> row m))
  end.

Definition line_index_leb (a b : StatementLine) : bool := slIndex a <=? slIndex b.

Definition loadLinesTx (statementID : string) (db : BillingDB) : list StatementLine :=
  isort line_index_leb (map snd (filter (fun l => l.1 = statementID) (dbLines db))).

Definition statementByPeriodKindTx (periodID : string) (kind : StatementKind) (db : BillingDB)
    : result BillingError Statement :=
  st ← query_row (fun s => str_eqb (stPeriod s) periodID && bool_decide (stKind s = kind)) (dbStatements db);
  Ok (st <| stLines := loadLinesTx (stID st) db |>).

(** ** What a close draws from outside *)

Record CloseEnv := mkCloseEnv {
  cxNow : time;                                        (* the process clock *)
  cxDBNow : time;                                      (* the database clock *)
  cxMode : Mode;
  cxUsage : string -> time -> time -> list usageRow;   (* the usage query of [rateWindowTx] *)
  cxNames : string -> string;                          (* [projectNamesTx] *)
  cxRetained : string -> bool;                         (* volumes a workspace still keeps *)
  cxHasWork : bool;                                    (* [s.work != nil] *)
  cxStatementID : string; cxPeriodID : string; cxWorkID : string;
  cxLineID : nat -> string; cxCreditIDs : list string; (* [uuid.NewString] *)
}.

Section Close.
(** What a [TIMESTAMPTZ] column keeps of an instant the driver sends it. *)
Variable stamp : time -> time.

(** A statement as its row reads back. *)
Definition as_stored (s : Statement) : Statement :=
  s <| stFinalized := stamp <$> stFinalized s |> <| stCreated := stamp (stCreated s) |> <| stUpdated := stamp (stUpdated s) |>.

Definition period_key (account : string) (index : Z) (p : Period) : bool :=
  str_eqb (pdAccount p) account && (pdIndex p =? index).

(** The row [ensurePeriodTx] would insert. *)
Definition new_period (uuid : string) (account : Account) (index : Z) (kind : PeriodKind) (plan : Plan) : Period :=
  mkPeriod uuid (acID account) index kind (plID plan)
    (instant (AddAnchorMonths (acAnchor account) index)) (instant (AddAnchorMonths (acAnchor account) (index + 1)))
    (MonthlyMinimumCents plan) (IncludedUsageCents plan) (acCurrency account) 1 0 PeriodOpen.

Definition ensurePeriodTx (uuid : string) (account : Account) (index : Z) (db : BillingDB)
    : result BillingError (Period * BillingDB) :=
  match query_row (period_key (acID account) index) (dbPeriods db) with
  | Ok period => Ok (period, db)
  | Err _ =>
      let '(planID, kind) :=
        if bool_decide (acState account = AccountCancelled) then (PlanStorage, PeriodStorageOnly)
        else if (0 <? index) && negb (str_eqb (acPendingPlan account) "") then (acPendingPlan account, PeriodStandard)
        else (acPlan account, PeriodStandard) in
      match plan_of planID with
      | None => Err (ErrUnknownPlan planID)
      | Some plan =>
          let period := new_period uuid account index kind plan in
          if existsb (fun p => str_eqb (pdID p) uuid
               || (str_eqb (pdAccount p) (acID account) && (pdStarts p =? pdStarts period))) (dbPeriods db)
          then Err (ErrConflict "billing_periods")
          else
            let db := db <| dbPeriods := dbPeriods db ++ [period] |> in
            period ← query_row (period_key (acID account) index) (dbPeriods db);
            Ok (period, db)
      end
  end.

Definition set_prepaid (id : string) (cents : Z) (p : Period) : Period :=
  if str_eqb (pdID p) id then p <| pdPrepaid := cents |> else p.
Definition apply_plan (id plan : string) (now : time) (a : Account) : Account :=
  if str_eqb (acID a) id then a <| acPlan := plan |> <| acPendingPlan := "" |> <| acUpdated := now |> else a.

(** The zero [Period] stands for no next period. *)
Definition zero_period : Period := mkPeriod "" "" 0 PeriodStandard "" 0 0 0 0 "" 0 0 PeriodOpen.

Definition nextPeriodOnCloseTx (env : CloseEnv) (account : Account) (period : Period) (db : BillingDB)
    : result BillingError (bool * Z * Period * BillingDB) :=
  if bool_decide (acState account = AccountCancelled) && negb (cxRetained env (acWorkspace account))
  then Ok (true, 0, zero_period, db)
  else
    '(next, db) ← ensurePeriodTx (cxPeriodID env) account (pdIndex period + 1) db;
    let nextMinimum := pdMinimum next in
    let '(next, db) :=
      if (0 <? nextMinimum) && negb (pdPrepaid next =? nextMinimum)
      then (next <| pdPrepaid := nextMinimum |>,
            db <| dbPeriods := map (set_prepaid (pdID next) nextMinimum) (dbPeriods db) |>)
      else (next, db) in
    let db :=
      if negb (str_eqb (acPendingPlan account) "") && str_eqb (pdPlan next) (acPendingPlan account)
      then db <| dbAccounts := map (apply_plan (acID account) (acPendingPlan account) (stamp (cxNow env))) (dbAccounts db) |>
      else db in
    Ok (false, nextMinimum, next, db).

Definition accumulating (account : string) (s : Statement) : bool :=
  str_eqb (stAccount s) account && bool_decide (stState s = StatementAccumulating).

(** Balances too small to charge that wait for a later statement. *)
Definition outstanding (account : string) (tbl : list Statement) : Z :=
  sumZ stAmountDue (filter (fun s => accumulating account s = true) tbl).

(** [UPDATE billing_statements SET state = 'carried' ... WHERE ... id <> $2] *)
Definition carry (account id : string) (now : time) (s : Statement) : Statement :=
  if accumulating account s && negb (str_eqb (stID s) id)
  then s <| stState := StatementCarried |> <| stCarriedInto := id |> <| stUpdated := now |> else s.

Definition insert_statement (st : Statement) (tbl : list Statement) : result BillingError (list Statement) :=
  _ ← guard_err (existsb (fun s => str_eqb (stID s) (stID st)
        || (str_eqb (stPeriod s) (stPeriod st) && bool_decide (stKind s = stKind st))) tbl)
        (ErrConflict "billing_statements");
  Ok (tbl ++ [st]).

Definition WorkKindInvoice : string := "billing_invoice".
Definition invoice_params (statementID : string) : EnqueueParams :=
  mkEnqueue WorkKindInvoice ("billing-invoice:" +:+ statementID) "billing_statement" statementID "" 0 0.

Definition close_period (id : string) (p : Period) : Period :=
  if str_eqb (pdID p) id then p <| pdState := PeriodClosed |> else p.

(** The part of [closePeriodTx] that follows the check for a closed period. *)
Definition freeze (env : CloseEnv) (account : Account) (period : Period) (db : BillingDB)
    : result BillingError (BillingDB * Statement) :=
  let now := cxNow env in
  let sent := stamp now in
  rates ← loadRatesTx (pdRateVersion period) (pdCurrency period) (dbRates db);
  let rows := cxUsage env (acWorkspace account) (pdStarts period) (pdEnds period) in
  let '(rated, gross) := rateWindow rates (cxNames env) (bool_decide (pdKind period = PeriodStorageOnly)) rows in
  let grants := grantBalancesTx (acID account) sent (dbCredits db) in
  let creditAvailable := sumZ gbRemaining grants in
  let totals := ComputeTotals gross (pdMinimum period) (pdIncluded period) creditAvailable in
  let statementID := cxStatementID env in
  let '(credits, applied) := consumeCreditTx (acID account) statementID (CreditAppliedCents totals) sent
                               (cxCreditIDs env) (dbCredits db) in
  let db := db <| dbCredits := credits |> in
  let totals := if negb (applied =? CreditAppliedCents totals)
                then ComputeTotals gross (pdMinimum period) (pdIncluded period) applied else totals in
  let carriedFrom := outstanding (acID account) (dbStatements db) in
  '(terminal, nextMinimum, nextPeriod, db) ← nextPeriodOnCloseTx env account period db;
  let amountDue := amount_due totals period nextMinimum carriedFrom in
  let shadow := negb (bool_decide (cxMode env = ModeEnabled)) in
  let state := statement_state shadow terminal amountDue in
  let statement := mkStatement statementID (acID account) (pdID period) StatementPeriodClose (pdCurrency period)
    shadow state (GrossCents totals) (pdIncluded period) (AfterAllowanceCents totals) (CreditAppliedCents totals)
    (pdMinimum period) (pdPrepaid period) nextMinimum carriedFrom (PeriodTotalCents totals) amountDue
    (window_coverage rows) "" "" None "" (if shadow then None else Some now) now now [] in
  statements ← insert_statement (as_stored statement) (dbStatements db);
  let statements := map (carry (acID account) statementID sent) statements in
  let lines := imap (fun i l => l <| slID := cxLineID env i |>)
                 (buildStatementLines rates rated totals period nextPeriod nextMinimum carriedFrom) in
  let db := db <| dbStatements := statements |> <| dbLines := dbLines db ++ map (fun l => (statementID, l)) lines |>
               <| dbPeriods := map (close_period (pdID period)) (dbPeriods db) |> in
  work ← (if bool_decide (state = StatementFinalized) && cxHasWork env then
            match EnqueueTx stamp (cxWorkID env) (cxDBNow env) (invoice_params statementID) (dbWork db) with
            | (work, Ok _) => Ok work
            | (_, Err e) => Err (ErrWork e)
            end
          else Ok (dbWork db));
  Ok (db <| dbWork := work |>, statement <| stLines := lines |>).

Definition closePeriodTx (env : CloseEnv) (periodID : string) (db : BillingDB)
    : result BillingError (BillingDB * Statement) :=
  period ← query_row (fun p => str_eqb (pdID p) periodID) (dbPeriods db);
  account ← query_row (fun a => str_eqb (acID a) (pdAccount period)) (dbAccounts db);
  if bool_decide (pdState period = PeriodClosed) then
    st ← statementByPeriodKindTx periodID StatementPeriodClose db; Ok (db, st)
  else freeze env account period db.

(** [ClosePeriod]: a transaction that fails leaves the tables alone. *)
Definition ClosePeriod (env : CloseEnv) (periodID : string) (db : BillingDB)
    : BillingDB * result BillingError Statement :=
  if bool_decide (cxMode env = ModeDisabled) then (db, Err ErrDisabled)
  else match closePeriodTx env periodID db with
       | Ok (db', st) => (db', Ok st)
       | Err e => (db, Err e)
       end.
End Close.

(** ** Boundaries move forward *)

(** The day number of the first of a month, counted in months from year 0. *)
Definition first_of (i : Z) : Z := days_before_year (i / 12) + days_before_month (i / 12) (i mod 12 + 1).

Lemma year_length y : days_before_year (y + 1) = days_before_year y + 365 + (if leap y then 1 else 0).
Proof.
  unfold days_before_year, leap. replace (y + 1 - 1) with y by lia.
  assert (H : forall k, 0 < k -> y / k = (y - 1) / k + (if y mod k =? 0 then 1 else 0)).
  { intros k Hk. pose proof (Z.div_mod y k ltac:(lia)). pose proof (Z.mod_pos_bound y k Hk).
    destruct (Z.eqb_spec (y mod k) 0) as [E|E].
    - rewrite <- (Z.div_unique (y - 1) k (y / k - 1) (k - 1)) by lia. lia.
    - rewrite <- (Z.div_unique (y - 1) k (y / k) (y mod k - 1)) by lia. lia. }
  rewrite (H 4), (H 100), (H 400) by lia.
  assert (E1 : y mod 400 = 0 -> y mod 100 = 0) by (intros E; apply Z.mod_divide in E as [z ->]; [|lia];
    apply Z.mod_divide; [lia|]; exists (z * 4); lia).
  assert (E2 : y mod 100 = 0 -> y mod 4 = 0) by (intros E; apply Z.mod_divide in E as [z ->]; [|lia];
    apply Z.mod_divide; [lia|]; exists (z * 25); lia).
  destruct (Z.eqb_spec (y mod 4) 0), (Z.eqb_spec (y mod 100) 0), (Z.eqb_spec (y mod 400) 0); cbn [andb orb negb]; try lia.
Qed.

(** Month offsets and lengths by whether the year is a leap year. *)
Definition month_offset (l : bool) (m : Z) : Z :=
  default 0 ([0; 31; 59; 90; 120; 151; 181; 212; 243; 273; 304; 334] !! Z.to_nat (m - 1))
  + (if l && (2 <? m) then 1 else 0).
Definition month_length (l : bool) (m : Z) : Z :=
  if m =? 2 then (if l then 29 else 28)
  else if (m =? 4) || (m =? 6) || (m =? 9) || (m =? 11) then 30 else 31.

Lemma month_offset_next l m : 1 <= m <= 11 -> month_offset l (m + 1) = month_offset l m + month_length l m.
Proof.
  intros Hm.
  assert (Hc : m = 1 \/ m = 2 \/ m = 3 \/ m = 4 \/ m = 5 \/ m = 6 \/ m = 7 \/ m = 8 \/ m = 9 \/ m = 10 \/ m = 11) by lia.
  destruct Hc as [->|[->|[->|[->|[->|[->|[->|[->|[->|[->| ->]]]]]]]]]], l; vm_compute; reflexivity.
Qed.

Lemma month_offset_year (l l' : bool) :
  365 + (if l then 1 else 0) + month_offset l' 1 = month_offset l 12 + month_length l 12.
Proof. destruct l, l'; vm_compute; reflexivity. Qed.

Lemma first_of_next i : first_of (i + 1) = first_of i + daysInMonth (i / 12) (i mod 12 + 1).
Proof.
  unfold first_of. pose proof (Z.div_mod i 12 ltac:(lia)) as Hi. pose proof (Z.mod_pos_bound i 12 ltac:(lia)) as Hb.
  set (y := i / 12) in *. set (m := i mod 12) in *. clearbody y m. subst i.
  destruct (decide (m = 11)) as [->|Hm].
  - replace (12 * y + 11 + 1) with ((y + 1) * 12) by lia.
    rewrite Z.div_mul, Z.mod_mul, year_length by lia.
    pose proof (month_offset_year (leap y) (leap (y + 1))) as H.
    change (days_before_year y + 365 + (if leap y then 1 else 0) + month_offset (leap (y + 1)) 1
      = days_before_year y + month_offset (leap y) 12 + month_length (leap y) 12). lia.
  - replace (12 * y + m + 1) with ((m + 1) + y * 12) by lia.
    rewrite Z.div_add, Z.mod_add, Z.div_small, Z.mod_small by lia. rewrite Z.add_0_l.
    pose proof (month_offset_next (leap y) (m + 1) ltac:(lia)) as H.
    change (days_before_year y + month_offset (leap y) (m + 1 + 1)
      = days_before_year y + month_offset (leap y) (m + 1) + month_length (leap y) (m + 1)). lia.
Qed.

Lemma first_of_mono i j : i < j -> first_of i + daysInMonth (i / 12) (i mod 12 + 1) <= first_of j.
Proof.
  intros H. replace j with (i + 1 + Z.of_nat (Z.to_nat (j - i - 1))) by lia.
  induction (Z.to_nat (j - i - 1)) as [|n IH]; [rewrite Z.add_0_r, first_of_next; lia|].
  rewrite Nat2Z.inj_succ. replace (i + 1 + Z.succ (Z.of_nat n)) with (i + 1 + Z.of_nat n + 1) by lia.
  rewrite first_of_next. pose proof (days_bounds ((i + 1 + Z.of_nat n) / 12) ((i + 1 + Z.of_nat n) mod 12 + 1)). lia.
Qed.

Lemma instant_first c : valid_civil c -> instant c = (first_of (month_index c) + cDay c - 1) * day + cTod c.
Proof.
  intros [Hm _]. unfold instant, first_of, month_index.
  replace (12 * cYear c + (cMonth c - 1)) with ((cMonth c - 1) + cYear c * 12) by lia.
  rewrite Z.div_add, Z.mod_add, Z.div_small, Z.mod_small by lia.
  by replace (cMonth c - 1 + 1) with (cMonth c) by lia.
Qed.

Lemma instant_mono a b :
  valid_civil a -> valid_civil b -> month_index a < month_index b -> cTod a = cTod b -> instant a < instant b.
Proof.
  intros Ha Hb Hi Ht. rewrite !instant_first by done. destruct Ha as [Hm [_ Hd]], Hb as [_ [Hd' _]].
  pose proof (first_of_mono _ _ Hi) as Hf.
  assert (E : month_index a / 12 = cYear a /\ month_index a mod 12 + 1 = cMonth a).
  { unfold month_index. replace (12 * cYear a + (cMonth a - 1)) with ((cMonth a - 1) + cYear a * 12) by lia.
    rewrite Z.div_add, Z.mod_add, Z.div_small, Z.mod_small by lia. lia. }
  destruct E as [E1 E2]. rewrite E1, E2 in Hf. unfold day, hour, minute, second. nia.
Qed.

Lemma boundary_mono anchor m n :
  valid_civil anchor -> 0 <= m < n -> instant (AddAnchorMonths anchor m) < instant (AddAnchorMonths anchor n).
Proof.
  intros Hv Hmn. destruct (anchor_months anchor m Hv ltac:(lia)) as (V1 & I1 & T1 & _).
  destruct (anchor_months anchor n Hv ltac:(lia)) as (V2 & I2 & T2 & _).
  apply instant_mono; [done|done|lia|congruence].
Qed.

(** ** What a close writes *)

Section Closing.
Variable stamp : time -> time.

Lemma query_row_ok {A} (p : A -> bool) tbl a : query_row p tbl = Ok a -> a ∈ tbl /\ p a = true.
Proof.
  unfold query_row. destruct (List.find p tbl) as [x|] eqn:E; [|done]. intros [= ->].
  apply find_some in E as [Hin Hp]. by rewrite <- list_elem_of_In in Hin.
Qed.

(** Reading the same row after the table was rewritten in place. *)
Lemma query_row_map {A} (p : A -> bool) (f : A -> A) tbl a :
  (forall x, p (f x) = p x) -> query_row p tbl = Ok a -> query_row p (map f tbl) = Ok (f a).
Proof.
  intros Hf. unfold query_row. induction tbl as [|x tbl IH]; [done|]. cbn. rewrite Hf. destruct (p x); [naive_solver|auto].
Qed.

Lemma query_row_app {A} (p : A -> bool) tbl l a : query_row p tbl = Ok a -> query_row p (tbl ++ l) = Ok a.
Proof. unfold query_row. induction tbl as [|x tbl IH]; [done|]. cbn. destruct (p x); auto. Qed.

Lemma query_row_last {A} (p : A -> bool) tbl x :
  existsb p tbl = false -> p x = true -> query_row p (tbl ++ [x]) = Ok x.
Proof.
  unfold query_row. induction tbl as [|y tbl IH]; cbn; intros He Hp; [by rewrite Hp|].
  apply orb_false_iff in He as [-> He]. auto.
Qed.

Lemma ensurePeriod_ok uuid account index db p db' :
  ensurePeriodTx uuid account index db = Ok (p, db') ->
  p ∈ dbPeriods db' /\ period_key (acID account) index p = true
  /\ (db' = db
      \/ exists kind plan, p = new_period uuid account index kind plan /\ db' = db <| dbPeriods := dbPeriods db ++ [p] |>
           /\ existsb (fun q => str_eqb (pdID q) uuid
                || (str_eqb (pdAccount q) (acID account) && (pdStarts q =? pdStarts p))) (dbPeriods db) = false
           /\ existsb (period_key (acID account) index) (dbPeriods db) = false).
Proof.
  unfold ensurePeriodTx. destruct (query_row _ (dbPeriods db)) as [q|] eqn:Eq.
  { intros [= -> ->]. apply query_row_ok in Eq as [? ?]. auto. }
  destruct (if bool_decide _ then _ else _) as [planID kind]. destruct (plan_of planID) as [plan|]; [|done].
  destruct (existsb _ (dbPeriods db)) eqn:Ex; [done|]. intros H. apply bind_ok in H as (r & H & H'). injection H' as -> <-.
  assert (Ek : existsb (period_key (acID account) index) (dbPeriods db) = false).
  { unfold query_row in Eq. destruct (List.find _ _) eqn:Ef; [done|].
    clear -Ef. induction (dbPeriods db) as [|x l IH]; [done|]. cbn in *. destruct (period_key _ _ x); [done|auto]. }
  set (n := new_period uuid account index kind plan) in *.
  assert (Hn : period_key (acID account) index n = true).
  { unfold period_key. cbn. rewrite Z.eqb_refl. by rewrite (proj2 (str_eqb_eq _ _) eq_refl). }
  change (query_row (period_key (acID account) index) (dbPeriods db ++ [n]) = Ok p) in H.
  rewrite query_row_last in H by done. injection H as <-. split_and!; [cbn; set_solver|done|].
  right. exists kind, plan. done.
Qed.

(** The next period of a close: what it leaves alone, and the minimum it bills. *)
Lemma nextPeriod_ok env account period db terminal nextMinimum next db' :
  nextPeriodOnCloseTx stamp env account period db = Ok (terminal, nextMinimum, next, db') ->
  dbRates db' = dbRates db /\ dbCredits db' = dbCredits db /\ dbStatements db' = dbStatements db
  /\ dbLines db' = dbLines db /\ dbWork db' = dbWork db
  /\ ((terminal = true /\ nextMinimum = 0 /\ next = zero_period /\ db' = db)
      \/ exists next0 db0, ensurePeriodTx (cxPeriodID env) account (pdIndex period + 1) db = Ok (next0, db0)
           /\ terminal = false /\ nextMinimum = pdMinimum next0 /\ pdID next = pdID next0
           /\ (dbPeriods db' = dbPeriods db0 \/ dbPeriods db' = map (set_prepaid (pdID next0) nextMinimum) (dbPeriods db0))
           /\ (dbAccounts db' = dbAccounts db0
               \/ dbAccounts db' = map (apply_plan (acID account) (acPendingPlan account) (stamp (cxNow env))) (dbAccounts db0))).
Proof.
  unfold nextPeriodOnCloseTx. destruct (_ && _); [intros [= <- <- <- <-]; split_and!; auto 10|].
  intros H. apply bind_ok in H as ([next0 db0] & He & H). pose proof (ensurePeriod_ok _ _ _ _ _ _ He) as (_ & _ & Hdb).
  assert (F : dbRates db0 = dbRates db /\ dbCredits db0 = dbCredits db /\ dbStatements db0 = dbStatements db
    /\ dbLines db0 = dbLines db /\ dbWork db0 = dbWork db).
  { destruct Hdb as [->|(? & ? & _ & -> & _)]; done. }
  destruct F as (F1 & F2 & F3 & F4 & F5).
  destruct (_ && negb (pdPrepaid next0 =? _)); destruct (negb (str_eqb (acPendingPlan account) "") && _);
    injection H as <- <- <- <-; split_and!; try done; right; exists next0, db0; split_and!; auto.
Qed.

(** The outcome of a close that froze a statement. *)
Record frozen (env : CloseEnv) (account : Account) (period : Period) (db db' : BillingDB) (st : Statement)
    (rates : Meter -> Q) (totals : Totals) (terminal : bool) (nextMinimum : Z) (next : Period) (mid : BillingDB) : Prop :=
mkFrozen {
  fz_rates : loadRatesTx (pdRateVersion period) (pdCurrency period) (dbRates db) = Ok rates;
  fz_totals : exists credit, totals = ComputeTotals
    (rateWindow rates (cxNames env) (bool_decide (pdKind period = PeriodStorageOnly))
      (cxUsage env (acWorkspace account) (pdStarts period) (pdEnds period))).2
    (pdMinimum period) (pdIncluded period) credit;
  fz_next : exists credits, nextPeriodOnCloseTx stamp env account period (db <| dbCredits := credits |>)
    = Ok (terminal, nextMinimum, next, mid);
  fz_id : stID st = cxStatementID env;
  fz_account : stAccount st = acID account;
  fz_period : stPeriod st = pdID period;
  fz_kind : stKind st = StatementPeriodClose;
  fz_carried : stCarriedFrom st = outstanding (acID account) (dbStatements db);
  fz_due : stAmountDue st = amount_due totals period nextMinimum (outstanding (acID account) (dbStatements db));
  fz_state : stState st = statement_state (negb (bool_decide (cxMode env = ModeEnabled))) terminal (stAmountDue st);
  fz_lines : stLines st = imap (fun i l => l <| slID := cxLineID env i |>)
    (buildStatementLines rates
      (rateWindow rates (cxNames env) (bool_decide (pdKind period = PeriodStorageOnly))
        (cxUsage env (acWorkspace account) (pdStarts period) (pdEnds period))).1
      totals period next nextMinimum (outstanding (acID account) (dbStatements db)));
  fz_unique : existsb (fun s => str_eqb (stID s) (stID st)
        || (str_eqb (stPeriod s) (stPeriod st) && bool_decide (stKind s = stKind st))) (dbStatements db) = false;
  fz_accounts : dbAccounts db' = dbAccounts mid;
  fz_periods : dbPeriods db' = map (close_period (pdID period)) (dbPeriods mid);
  fz_statements : dbStatements db'
    = map (carry (acID account) (stID st) (stamp (cxNow env))) (dbStatements db ++ [(as_stored stamp st) <| stLines := [] |>]);
  fz_line_rows : dbLines db' = dbLines db ++ map (fun l => (stID st, l)) (stLines st);
  fz_work :
    if bool_decide (stState st = StatementFinalized) && cxHasWork env
    then exists accepted, EnqueueTx stamp (cxWorkID env) (cxDBNow env) (invoice_params (stID st)) (dbWork db)
           = (dbWork db', Ok accepted)
    else dbWork db' = dbWork db;
}.

Lemma freeze_ok env account period db db' st :
  freeze stamp env account period db = Ok (db', st) ->
  exists rates totals terminal nextMinimum next mid,
    frozen env account period db db' st rates totals terminal nextMinimum next mid.
Proof.
  unfold freeze. intros H. apply bind_ok in H as (rates & Hr & H).
  destruct (rateWindow _ _ _ _) as [rated gross] eqn:Erw.
  destruct (consumeCreditTx _ _ _ _ _ _) as [credits applied].
  set (totals := if negb _ then _ else _) in H.
  apply bind_ok in H as ([[[terminal nextMinimum] next] mid] & Hn & H).
  apply bind_ok in H as (sts & Hs & H). apply bind_ok in H as (work & Hw & H). injection H as <- <-.
  destruct (nextPeriod_ok _ _ _ _ _ _ _ _ Hn) as (F1 & F2 & F3 & F4 & F5 & _).
  cbn [dbRates dbCredits dbStatements dbLines dbWork set_field] in F1, F3, F4, F5.
  change (dbStatements mid = dbStatements db) in F3. change (dbLines mid = dbLines db) in F4.
  change (dbWork mid = dbWork db) in F5.
  unfold insert_statement in Hs. apply bind_ok in Hs as ([] & Hg & Hs). injection Hs as <-. apply guard_err_ok in Hg.
  rewrite F3 in Hg. rewrite F3.
  exists rates, totals, terminal, nextMinimum, next, mid. split; try done.
  - rewrite Erw. unfold totals. destruct (negb _); by eexists.
  - by exists credits.
  - rewrite Erw. done.
  - change (dbLines mid ++ map (fun l => (cxStatementID env, l)) (imap (fun i l => l <| slID := cxLineID env i |>)
      (buildStatementLines rates rated totals period next nextMinimum (outstanding (acID account) (dbStatements db))))
      = dbLines db ++ map (fun l => (cxStatementID env, l)) (imap (fun i l => l <| slID := cxLineID env i |>)
      (buildStatementLines rates rated totals period next nextMinimum (outstanding (acID account) (dbStatements db))))).
    by rewrite F4.
  - match type of Hw with context [statement_state ?a ?b ?c] => set (state := statement_state a b c) in * end.
    change (if bool_decide (state = StatementFinalized) && cxHasWork env
      then exists accepted, EnqueueTx stamp (cxWorkID env) (cxDBNow env) (invoice_params (cxStatementID env)) (dbWork db)
             = (work, Ok accepted)
      else work = dbWork db).
    destruct (bool_decide _ && _).
    + change (match EnqueueTx stamp (cxWorkID env) (cxDBNow env) (invoice_params (cxStatementID env)) (dbWork mid) with
        | (work, Ok _) => Ok work | (_, Err e) => Err (ErrWork e) end = Ok work) in Hw. rewrite F5 in Hw.
      destruct (EnqueueTx _ _ _ _ _) as [w [acc|e]]; [|done]. injection Hw as ->. by exists acc.
    + injection Hw as <-. exact F5.
Qed.

(** ** Reading a frozen statement back *)

(** The lines carry their positions. *)
Definition indexed (l : list StatementLine) : Prop := forall i x, l !! i = Some x -> slIndex x = Z.of_nat i.

Lemma indexed_account meter d amount s e l : indexed l -> indexed (accountLine meter d amount s e l).
Proof.
  intros Hl. unfold accountLine. destruct (amount =? 0); [done|]. intros i x Hx.
  apply lookup_app_Some in Hx as [Hx|[Hi Hx]]; [by apply Hl|].
  apply list_lookup_singleton_Some in Hx as [Hi' <-]. cbn [slIndex]. unfold len. lia.
Qed.

Lemma build_indexed rates rated totals period next nextMinimum carried :
  indexed (buildStatementLines rates rated totals period next nextMinimum carried).
Proof.
  unfold buildStatementLines. apply indexed_account.
  assert (Hu : indexed (imap (usage_line rates period) (zip rated (AllocateCents (map rlExact rated) (GrossCents totals))))).
  { intros i x Hx. apply list_lookup_imap_Some in Hx as ([line c] & _ & ->). done. }
  destruct (negb _); repeat apply indexed_account; exact Hu.
Qed.

Lemma indexed_sorted (l : list StatementLine) k :
  (forall i x, l !! i = Some x -> slIndex x = k + Z.of_nat i) -> Sorted (fun x y => line_index_leb x y = true) l.
Proof.
  revert k. induction l as [|a l IH]; intros k Hl; constructor.
  - apply (IH (k + 1)). intros i x Hx. rewrite (Hl (S i) x Hx). lia.
  - destruct l as [|b l]; constructor. apply Z.leb_le.
    rewrite (Hl 0%nat a eq_refl), (Hl 1%nat b eq_refl). lia.
Qed.

Lemma load_lines id (db : BillingDB) (old : list (string * StatementLine)) lines :
  (forall l, l ∈ old -> l.1 <> id) -> indexed lines -> dbLines db = old ++ map (fun l => (id, l)) lines ->
  loadLinesTx id db = lines.
Proof.
  intros Hold Hi E. unfold loadLinesTx. rewrite E, filter_app.
  assert (Eo : filter (fun l : string * StatementLine => l.1 = id) old = []).
  { apply list_eq_nil. intros l [Hl Hin]%list_elem_of_filter. by destruct (Hold l Hin). }
  rewrite Eo. cbn [app]. rewrite filter_id by (by intros l (x & -> & _)%list_elem_of_fmap).
  rewrite map_map. cbn [snd]. rewrite map_id. apply isort_id, (indexed_sorted _ 0). intros i x Hx.
  rewrite (Hi i x Hx). lia.
Qed.

Lemma frozen_lines env account period db db' st rates totals terminal nextMinimum next mid :
  frozen env account period db db' st rates totals terminal nextMinimum next mid -> indexed (stLines st).
Proof.
  intros F i x Hx. rewrite (fz_lines _ _ _ _ _ _ _ _ _ _ _ _ F) in Hx.
  apply list_lookup_imap_Some in Hx as (y & Hy & ->). exact (build_indexed _ _ _ _ _ _ _ i y Hy).
Qed.

Lemma carry_self account id now st : stID st = id -> carry account id now st = st.
Proof. intros E. unfold carry. rewrite (proj2 (str_eqb_eq _ _) E). by rewrite andb_false_r. Qed.

Lemma carry_period account id now st : stPeriod (carry account id now st) = stPeriod st /\ stKind (carry account id now st) = stKind st.
Proof. unfold carry. by destruct (_ && _). Qed.

Lemma frozen_reload env account period db db' st rates totals terminal nextMinimum next mid :
  frozen env account period db db' st rates totals terminal nextMinimum next mid ->
  (forall l, l ∈ dbLines db -> l.1 <> cxStatementID env) ->
  statementByPeriodKindTx (pdID period) StatementPeriodClose db' = Ok (as_stored stamp st).
Proof.
  intros F Hfresh. unfold statementByPeriodKindTx. rewrite (fz_statements _ _ _ _ _ _ _ _ _ _ _ _ F).
  set (base := (as_stored stamp st) <| stLines := [] |>).
  set (p := fun s => str_eqb (stPeriod s) (pdID period) && bool_decide (stKind s = StatementPeriodClose)).
  assert (Hq : query_row p (dbStatements db ++ [base]) = Ok base).
  { apply query_row_last.
    - pose proof (fz_unique _ _ _ _ _ _ _ _ _ _ _ _ F) as U. apply not_true_is_false. intros Hx.
      apply existsb_exists in Hx as (s & Hs & Hp). apply not_true_iff_false in U. apply U.
      apply existsb_exists. exists s. split; [done|]. apply orb_true_iff. right.
      by rewrite (fz_period _ _ _ _ _ _ _ _ _ _ _ _ F), (fz_kind _ _ _ _ _ _ _ _ _ _ _ _ F).
    - unfold p. change (stPeriod base) with (stPeriod st). change (stKind base) with (stKind st).
      rewrite (fz_period _ _ _ _ _ _ _ _ _ _ _ _ F), (fz_kind _ _ _ _ _ _ _ _ _ _ _ _ F).
      by rewrite (proj2 (str_eqb_eq _ _) eq_refl). }
  rewrite (query_row_map _ (carry (acID account) (stID st) (stamp (cxNow env))) _ base); [|intros s; unfold p|done].
  2:{ destruct (carry_period (acID account) (stID st) (stamp (cxNow env)) s) as [-> ->]. done. }
  rewrite carry_self by done.
  change (@Ok BillingError _ (base <| stLines := loadLinesTx (stID st) db' |>) = Ok (as_stored stamp st)).
  rewrite (load_lines (stID st) db' (dbLines db) (stLines st)).
  - unfold base. by destruct st.
  - rewrite (fz_id _ _ _ _ _ _ _ _ _ _ _ _ F). exact Hfresh.
  - by eapply frozen_lines.
  - apply (fz_line_rows _ _ _ _ _ _ _ _ _ _ _ _ F).
Qed.

Lemma frozen_keys env account period db db' st rates totals terminal nextMinimum next mid :
  frozen env account period db db' st rates totals terminal nextMinimum next mid ->
  query_row (fun p => str_eqb (pdID p) (pdID period)) (dbPeriods db) = Ok period ->
  query_row (fun a => str_eqb (acID a) (pdAccount period)) (dbAccounts db) = Ok account ->
  exists p a, query_row (fun p => str_eqb (pdID p) (pdID period)) (dbPeriods db') = Ok p
    /\ pdState p = PeriodClosed /\ pdAccount p = pdAccount period
    /\ query_row (fun a => str_eqb (acID a) (pdAccount period)) (dbAccounts db') = Ok a.
Proof.
  intros F Hp Ha. destruct (fz_next _ _ _ _ _ _ _ _ _ _ _ _ F) as [credits Hn].
  rewrite (fz_periods _ _ _ _ _ _ _ _ _ _ _ _ F), (fz_accounts _ _ _ _ _ _ _ _ _ _ _ _ F).
  assert (Hmid : exists p a, query_row (fun p => str_eqb (pdID p) (pdID period)) (dbPeriods mid) = Ok p
    /\ pdAccount p = pdAccount period /\ query_row (fun a => str_eqb (acID a) (pdAccount period)) (dbAccounts mid) = Ok a).
  { destruct (nextPeriod_ok _ _ _ _ _ _ _ _ Hn) as (_ & _ & _ & _ & _ & [(_ & _ & _ & ->)|(n0 & db0 & He & _ & _ & _ & Hps & Has)]).
    { by exists period, account. }
    destruct (ensurePeriod_ok _ _ _ _ _ _ He) as (_ & _ & Hdb).
    assert (H0 : query_row (fun p => str_eqb (pdID p) (pdID period)) (dbPeriods db0) = Ok period
      /\ query_row (fun a => str_eqb (acID a) (pdAccount period)) (dbAccounts db0) = Ok account).
    { destruct Hdb as [->|(kind & plan & _ & -> & _)]; [done|]. split; [|done]. by apply query_row_app. }
    destruct H0 as [Hp0 Ha0].
    assert (Hset : forall x, str_eqb (pdID (set_prepaid (pdID n0) nextMinimum x)) (pdID period) = str_eqb (pdID x) (pdID period))
      by (intros x; unfold set_prepaid; by destruct (str_eqb (pdID x) (pdID n0))).
    assert (Happ : forall x, str_eqb (acID (apply_plan (acID account) (acPendingPlan account) (stamp (cxNow env)) x)) (pdAccount period)
      = str_eqb (acID x) (pdAccount period)) by (intros x; unfold apply_plan; by destruct (str_eqb (acID x) (acID account))).
    assert (Hpp : exists p, query_row (fun p => str_eqb (pdID p) (pdID period)) (dbPeriods mid) = Ok p
      /\ pdAccount p = pdAccount period).
    { destruct Hps as [->| ->]; [by exists period|]. eexists. split; [apply query_row_map; [exact Hset|exact Hp0]|].
      unfold set_prepaid. by destruct (str_eqb _ _). }
    destruct Hpp as (p & Hp1 & Hp2). exists p.
    destruct Has as [->| ->]; eexists; (split; [exact Hp1|]); (split; [exact Hp2|]); [exact Ha0|].
    apply query_row_map; [exact Happ|exact Ha0]. }
  destruct Hmid as (p & a & H1 & H2 & H3). exists (close_period (pdID period) p), a. split_and!; [| | |done].
  - apply query_row_map; [|done]. intros x. unfold close_period. by destruct (str_eqb (pdID x) _) eqn:E.
  - unfold close_period. destruct (query_row_ok _ _ _ H1) as [_ ->]. done.
  - rewrite <- H2. unfold close_period. by destruct (str_eqb _ _).
Qed.

(** ** Properties *)

Lemma close_cases env periodID db db' st :
  closePeriodTx stamp env periodID db = Ok (db', st) ->
  exists period account,
    query_row (fun p => str_eqb (pdID p) periodID) (dbPeriods db) = Ok period /\ pdID period = periodID
    /\ query_row (fun a => str_eqb (acID a) (pdAccount period)) (dbAccounts db) = Ok account
    /\ acID account = pdAccount period
    /\ ((pdState period = PeriodClosed /\ db' = db /\ statementByPeriodKindTx periodID StatementPeriodClose db = Ok st)
        \/ (pdState period = PeriodOpen /\ freeze stamp env account period db = Ok (db', st))).
Proof.
  unfold closePeriodTx. intros H. apply bind_ok in H as (period & Hp & H). apply bind_ok in H as (account & Ha & H).
  exists period, account. destruct (query_row_ok _ _ _ Hp) as [_ Ep]. destruct (query_row_ok _ _ _ Ha) as [_ Ea].
  cbn beta in Ep, Ea. apply str_eqb_eq in Ep, Ea. split_and!; try done.
  case_bool_decide as Hs.
  - left. apply bind_ok in H as (s & H1 & H2). injection H2 as <- <-. done.
  - right. split; [|done]. by destruct (pdState period).
Qed.

(** C30: A period is frozen exactly once.  After a close has returned a
    statement, closing the period again, with any clocks, mode, usage or draws,
    returns the same statement, lines included, and writes nothing; only its
    three times are cut to what the columns keep if the first close froze it. *)
Theorem close_period_once env env' periodID db db' st period :
  query_row (fun p => str_eqb (pdID p) periodID) (dbPeriods db) = Ok period ->
  (forall l, l ∈ dbLines db -> l.1 <> cxStatementID env) ->
  closePeriodTx stamp env periodID db = Ok (db', st) ->
  closePeriodTx stamp env' periodID db'
  = Ok (db', if bool_decide (pdState period = PeriodOpen) then as_stored stamp st else st).
Proof.
  intros Hp0 Hfresh H. destruct (close_cases _ _ _ _ _ H) as (period' & account & Hp & Ep & Ha & Ea & [(Hs & -> & Hst)|[Hs Hf]]);
    rewrite Hp in Hp0; injection Hp0 as ->; [rewrite (bool_decide_false (_ = PeriodOpen)) by congruence|rewrite (bool_decide_true (_ = PeriodOpen)) by done].
  - unfold closePeriodTx. rewrite Hp. cbn [mbind result_bind]. rewrite Ha. cbn [mbind result_bind].
    rewrite bool_decide_true by done. rewrite Hst. done.
  - apply freeze_ok in Hf as (rates & totals & terminal & nm & next & mid & F). subst periodID.
    destruct (frozen_keys _ _ _ _ _ _ _ _ _ _ _ _ F Hp Ha) as (p & a & H1 & H2 & H3 & H4).
    unfold closePeriodTx. rewrite H1. cbn [mbind result_bind]. rewrite H3, H4. cbn [mbind result_bind].
    rewrite bool_decide_true by done. rewrite (frozen_reload _ _ _ _ _ _ _ _ _ _ _ _ F Hfresh). done.
Qed.

Lemma sum_renamed (f : nat -> string) l : sumZ slAmount (imap (fun i x => x <| slID := f i |>) l) = sumZ slAmount l.
Proof.
  revert f. induction l as [|x l IH]; intros f; [done|]. rewrite imap_cons. unfold sumZ in *. cbn [foldr].
  f_equal. apply (IH (f ∘ S)).
Qed.

(** The exact gross usage of the window a close rates. *)
Definition window_gross (env : CloseEnv) (account : Account) (period : Period) (db : BillingDB) : Q :=
  match loadRatesTx (pdRateVersion period) (pdCurrency period) (dbRates db) with
  | Ok rates => (rateWindow rates (cxNames env) (bool_decide (pdKind period = PeriodStorageOnly))
                   (cxUsage env (acWorkspace account) (pdStarts period) (pdEnds period))).2
  | Err _ => 0%Q
  end.

Lemma load_rates_nonneg version currency tbl rates :
  Forall (fun r => 0 <= rrRate r)%Q tbl -> loadRatesTx version currency tbl = Ok rates -> forall m, (0 <= rates m)%Q.
Proof.
  intros Ht H m. unfold loadRatesTx in H. destruct (List.find _ Meters); [done|]. injection H as <-.
  destruct (List.find _ tbl) as [r|] eqn:E; cbn; [|apply Qle_refl].
  apply find_some in E as [E _]. rewrite Forall_forall in Ht. apply Ht. by apply list_elem_of_In.
Qed.

(** C31: Every frozen statement adds up.  The lines stored for a closed period
    (usage split into cents, minimum, allowance, credit, prepaid minimum, next
    minimum and carried balance) sum exactly to the amount due, however the
    usage rounds and however much credit could be taken. *)
Theorem closed_statement_adds_up env periodID db db' st period account :
  query_row (fun p => str_eqb (pdID p) periodID) (dbPeriods db) = Ok period -> pdState period = PeriodOpen ->
  query_row (fun a => str_eqb (acID a) (pdAccount period)) (dbAccounts db) = Ok account ->
  Forall (fun r => 0 <= rrRate r)%Q (dbRates db) -> Forall (fun p => pdID p <> "") (dbPeriods db) -> cxPeriodID env <> "" ->
  (window_gross env account period db < inject_Z (2 ^ 63 - 1))%Q ->
  closePeriodTx stamp env periodID db = Ok (db', st) ->
  sumZ slAmount (stLines st) = stAmountDue st.
Proof.
  intros Hp Ho Ha Hr Hid Hne Hg H.
  destruct (close_cases _ _ _ _ _ H) as (period' & account' & Hp' & _ & Ha' & _ & Hc).
  rewrite Hp in Hp'. injection Hp' as <-. rewrite Ha in Ha'. injection Ha' as <-.
  destruct Hc as [(Hs & _)|[_ Hf]]; [congruence|].
  apply freeze_ok in Hf as (rates & totals & terminal & nm & next & mid & F).
  destruct (fz_totals _ _ _ _ _ _ _ _ _ _ _ _ F) as [credit Et].
  unfold window_gross in Hg. rewrite (fz_rates _ _ _ _ _ _ _ _ _ _ _ _ F) in Hg.
  pose proof (load_rates_nonneg _ _ _ _ Hr (fz_rates _ _ _ _ _ _ _ _ _ _ _ _ F)) as Hnn.
  assert (Hnext : pdID next = "" -> nm = 0).
  { destruct (fz_next _ _ _ _ _ _ _ _ _ _ _ _ F) as [credits Hn].
    destruct (nextPeriod_ok _ _ _ _ _ _ _ _ Hn) as (_ & _ & _ & _ & _ & [(_ & -> & _)|(n0 & db0 & He & _ & _ & Eid & _)]); [done|].
    rewrite Eid. intros E. destruct (ensurePeriod_ok _ _ _ _ _ _ He) as (Hin & _ & [->|(kind & plan & -> & _)]).
    - rewrite Forall_forall in Hid. by destruct (Hid n0 Hin).
    - done. }
  rewrite (fz_lines _ _ _ _ _ _ _ _ _ _ _ _ F), (fz_due _ _ _ _ _ _ _ _ _ _ _ _ F), sum_renamed.
  pose proof (lines_sum_to_due rates (cxNames env) (bool_decide (pdKind period = PeriodStorageOnly))
    (cxUsage env (acWorkspace account) (pdStarts period) (pdEnds period)) period next credit nm
    (outstanding (acID account) (dbStatements db)) Hnn Hnext) as L.
  destruct (rateWindow _ _ _ _) as [lines gross]. cbn [fst snd] in *. rewrite Et. apply L. exact Hg.
Qed.

Lemma outstanding_app account l1 l2 : outstanding account (l1 ++ l2) = outstanding account l1 + outstanding account l2.
Proof. unfold outstanding. by rewrite filter_app, sumZ_app. Qed.

Lemma outstanding_carried account id now tbl :
  (forall s, s ∈ tbl -> stID s <> id) -> outstanding account (map (carry account id now) tbl) = 0.
Proof.
  intros Hid. unfold outstanding. rewrite (list_eq_nil (filter _ _)); [done|].
  intros s [Hs (s0 & -> & Hin)%list_elem_of_fmap]%list_elem_of_filter. unfold carry in Hs.
  rewrite (proj2 (str_eqb_neq _ _) (Hid s0 Hin)) in Hs. cbn [negb] in Hs. rewrite andb_true_r in Hs.
  destruct (accumulating account s0) eqn:E; [|congruence].
  unfold accumulating in Hs. by rewrite andb_false_r in Hs.
Qed.

(** Small balances are carried exactly once.  A close bills the sum of the
    account's accumulating statements, marks each of them carried into the new
    statement, and leaves nothing else accumulating: afterwards the account's
    waiting balance is the new statement's amount if that one is itself too
    small to charge, and nothing otherwise.  Other accounts are untouched. *)
Theorem balances_carried_once env periodID db db' st period :
  query_row (fun p => str_eqb (pdID p) periodID) (dbPeriods db) = Ok period -> pdState period = PeriodOpen ->
  closePeriodTx stamp env periodID db = Ok (db', st) ->
  let account := pdAccount period in
  stCarriedFrom st = outstanding account (dbStatements db)
  /\ outstanding account (dbStatements db') = (if bool_decide (stState st = StatementAccumulating) then stAmountDue st else 0)
  /\ (forall s, s ∈ dbStatements db -> accumulating account s = true ->
        exists s', s' ∈ dbStatements db' /\ stID s' = stID s /\ stState s' = StatementCarried
                   /\ stCarriedInto s' = stID st /\ stAmountDue s' = stAmountDue s)
  /\ (forall s, s ∈ dbStatements db -> stAccount s <> account -> s ∈ dbStatements db').
Proof.
  intros Hp Ho H. destruct (close_cases _ _ _ _ _ H) as (period' & a & Hp' & _ & Ha & Ea & Hc).
  rewrite Hp in Hp'. injection Hp' as <-. destruct Hc as [(Hs & _)|[_ Hf]]; [congruence|].
  apply freeze_ok in Hf as (rates & totals & terminal & nm & next & mid & F). cbv zeta. rewrite <- Ea.
  assert (Hnew : forall s, s ∈ dbStatements db -> stID s <> stID st).
  { intros s Hin E. pose proof (existsb_false _ _ _ (fz_unique _ _ _ _ _ _ _ _ _ _ _ _ F) Hin) as Hx. cbn beta in Hx.
    by rewrite (proj2 (str_eqb_eq _ _) E) in Hx. }
  pose proof (fz_account _ _ _ _ _ _ _ _ _ _ _ _ F) as Eacc.
  rewrite (fz_statements _ _ _ _ _ _ _ _ _ _ _ _ F). split_and!; [apply F| | |].
  - rewrite map_app, outstanding_app, outstanding_carried by done. cbn [map]. rewrite carry_self by done.
    assert (Eb : accumulating (acID a) ((as_stored stamp st) <| stLines := [] |>) = bool_decide (stState st = StatementAccumulating)).
    { change (str_eqb (stAccount st) (acID a) && bool_decide (stState st = StatementAccumulating)
        = bool_decide (stState st = StatementAccumulating)). by rewrite Eacc, (proj2 (str_eqb_eq _ _) eq_refl). }
    unfold outstanding. rewrite filter_cons. rewrite <- Eb.
    destruct (accumulating (acID a) ((as_stored stamp st) <| stLines := [] |>)) eqn:E; [rewrite decide_True by done|by rewrite decide_False by done].
    change (0 + (stAmountDue st + 0) = stAmountDue st). lia.
  - intros s Hin Hacc. exists (carry (acID a) (stID st) (stamp (cxNow env)) s).
    split; [apply list_elem_of_fmap; exists s; set_solver|].
    unfold carry. rewrite Hacc, (proj2 (str_eqb_neq _ _) (Hnew s Hin)). done.
  - intros s Hin Hne. apply list_elem_of_fmap. exists s. split; [|set_solver].
    unfold carry, accumulating. by rewrite (proj2 (str_eqb_neq _ _) Hne).
Qed.

(** Invoice work follows the statement.  A close finalizes its statement
    exactly when billing is enabled and the amount reaches the provider's
    minimum; a finalized statement leaves exactly one active work item of its
    invoice key, committed with it, and any other outcome leaves the queue
    alone. *)
Theorem invoice_follows_statement env periodID db db' st period :
  query_row (fun p => str_eqb (pdID p) periodID) (dbPeriods db) = Ok period -> pdState period = PeriodOpen ->
  cxHasWork env = true -> NoDup (map DedupKey (dbWork db)) ->
  closePeriodTx stamp env periodID db = Ok (db', st) ->
  (stState st = StatementFinalized <-> cxMode env = ModeEnabled /\ StripeMinimumChargeCents <= stAmountDue st)
  /\ (stState st = StatementFinalized ->
        exists accepted, one_active (TrimSpace ("billing-invoice:" +:+ stID st)) accepted (dbWork db) (dbWork db'))
  /\ (stState st <> StatementFinalized -> dbWork db' = dbWork db).
Proof.
  intros Hp Ho Hw Hk H. destruct (close_cases _ _ _ _ _ H) as (period' & a & Hp' & _ & _ & _ & Hc).
  rewrite Hp in Hp'. injection Hp' as <-. destruct Hc as [(Hs & _)|[_ Hf]]; [congruence|].
  apply freeze_ok in Hf as (rates & totals & terminal & nm & next & mid & F).
  pose proof (fz_work _ _ _ _ _ _ _ _ _ _ _ _ F) as W. rewrite Hw, andb_true_r in W. split_and!.
  - rewrite (fz_state _ _ _ _ _ _ _ _ _ _ _ _ F). unfold statement_state, StripeMinimumChargeCents.
    destruct (bool_decide_reflect (cxMode env = ModeEnabled)) as [Hm|Hm]; cbn [negb]; [|split; [discriminate|tauto]].
    destruct (Z.leb_spec (stAmountDue st) 0); [split; [discriminate|lia]|].
    destruct (Z.ltb_spec (stAmountDue st) 50); [destruct terminal; (split; [discriminate|lia])|]. done.
  - intros Hst. rewrite bool_decide_true in W by done. destruct W as [accepted W]. exists accepted.
    exact (enqueue_one_active stamp _ _ (invoice_params (stID st)) _ _ _ Hk W).
  - intros Hst. by rewrite bool_decide_false in W.
Qed.

(** Periods stand on their account's anchor. *)
Definition anchored (db : BillingDB) : Prop :=
  forall p a, p ∈ dbPeriods db -> a ∈ dbAccounts db -> pdAccount p = acID a ->
    0 <= pdIndex p /\ pdStarts p = instant (AddAnchorMonths (acAnchor a) (pdIndex p))
    /\ pdEnds p = instant (AddAnchorMonths (acAnchor a) (pdIndex p + 1)).

Definition same_window (p q : Period) : Prop :=
  pdAccount p = pdAccount q /\ pdIndex p = pdIndex q /\ pdStarts p = pdStarts q /\ pdEnds p = pdEnds q.

Lemma anchored_mono db db' :
  (forall p, p ∈ dbPeriods db' -> exists q, q ∈ dbPeriods db /\ same_window p q) ->
  (forall a, a ∈ dbAccounts db' -> exists b, b ∈ dbAccounts db /\ acID a = acID b /\ acAnchor a = acAnchor b) ->
  anchored db -> anchored db'.
Proof.
  intros Hps Has Hd p a Hp Ha E. destruct (Hps p Hp) as (q & Hq & E1 & E2 & E3 & E4).
  destruct (Has a Ha) as (b & Hb & F1 & F2). rewrite E2, E3, E4, F2. apply Hd; congruence.
Qed.

Lemma anchored_ensure uuid account index db p db' :
  0 <= index -> account ∈ dbAccounts db -> NoDup (map acID (dbAccounts db)) ->
  ensurePeriodTx uuid account index db = Ok (p, db') -> anchored db -> anchored db'.
Proof.
  intros Hi Ha Hn He Hd. destruct (ensurePeriod_ok _ _ _ _ _ _ He) as (_ & _ & [->|(kind & plan & -> & -> & _)]); [done|].
  intros q b Hq Hb E. change (q ∈ dbPeriods db ++ [new_period uuid account index kind plan]) in Hq.
  apply elem_of_app in Hq as [Hq|Hq]; [by apply Hd|]. apply list_elem_of_singleton in Hq as ->.
  change (acID account = acID b) in E. by rewrite <- (NoDup_map_eq acID (dbAccounts db) account b Hn Ha Hb E).
Qed.

(** Billing windows tile time.  Closing a period keeps every period on its
    account's anchor, creating the next one where the closed one ends; the
    window of each is not empty, windows of one account never overlap, and
    consecutive ones meet: no instant of usage is billed twice or missed. *)
Theorem periods_tile env periodID db db' st :
  NoDup (map acID (dbAccounts db)) -> anchored db ->
  closePeriodTx stamp env periodID db = Ok (db', st) ->
  anchored db'
  /\ forall a p q, a ∈ dbAccounts db' -> valid_civil (acAnchor a) -> p ∈ dbPeriods db' -> q ∈ dbPeriods db' ->
       pdAccount p = acID a -> pdAccount q = acID a ->
       pdStarts p < pdEnds p
       /\ (pdIndex q = pdIndex p + 1 -> pdStarts q = pdEnds p)
       /\ (pdIndex p < pdIndex q -> pdEnds p <= pdStarts q).
Proof.
  intros Hn Hd H. assert (Hd' : anchored db').
  { destruct (close_cases _ _ _ _ _ H) as (period & account & Hp & _ & Ha & Ea & [(_ & -> & _)|[_ Hf]]); [done|].
    apply freeze_ok in Hf as (rates & totals & terminal & nm & next & mid & F).
    apply query_row_ok in Hp as [Hp _], Ha as [Ha _].
    destruct (Hd period account Hp Ha (eq_sym Ea)) as [Hidx _].
    assert (Hmid : anchored mid).
    { destruct (fz_next _ _ _ _ _ _ _ _ _ _ _ _ F) as [credits Hnx].
      destruct (nextPeriod_ok _ _ _ _ _ _ _ _ Hnx) as (_ & _ & _ & _ & _ & [(_ & _ & _ & ->)|(n0 & db0 & He & _ & _ & _ & Hps & Has)]); [done|].
      assert (Hidx' : 0 <= pdIndex period + 1) by lia.
      assert (H0 : anchored db0) by (eapply anchored_ensure; [exact Hidx'| | |exact He|]; [exact Ha|exact Hn|exact Hd]).
      eapply anchored_mono; [| |exact H0].
      - destruct Hps as [->| ->]; [intros p0 Hp0; by exists p0|].
        intros p0 (p1 & -> & Hp1)%list_elem_of_fmap. exists p1. split; [done|]. unfold set_prepaid. by destruct (str_eqb _ _).
      - destruct Has as [->| ->]; [intros a0 Ha0; by exists a0|].
        intros a0 (a1 & -> & Ha1)%list_elem_of_fmap. exists a1. split; [done|]. unfold apply_plan. by destruct (str_eqb _ _). }
    eapply anchored_mono; [| |exact Hmid].
    - rewrite (fz_periods _ _ _ _ _ _ _ _ _ _ _ _ F). intros p0 (p1 & -> & Hp1)%list_elem_of_fmap. exists p1. split; [done|].
      unfold close_period. by destruct (str_eqb _ _).
    - rewrite (fz_accounts _ _ _ _ _ _ _ _ _ _ _ _ F). intros a0 Ha0. by exists a0. }
  split; [done|]. intros a p q Ha Hv Hp Hq Ep Eq.
  destruct (Hd' p a Hp Ha Ep) as (I1 & S1 & E1). destruct (Hd' q a Hq Ha Eq) as (I2 & S2 & E2).
  rewrite E1, S1, S2. split_and!.
  - apply boundary_mono; [done|lia].
  - by intros ->.
  - intros Hlt. destruct (decide (pdIndex p + 1 = pdIndex q)) as [<-|Hne]; [lia|].
    apply Z.lt_le_incl, boundary_mono; [done|lia].
Qed.
End Closing.

(** ** Concrete inputs

    A hobby account anchored on January 31, 2024 whose first period closes with
    usage worth 12.34 euro, 3 euro of credit and a balance of 20 cents waiting. *)

Definition close_anchor : civil := mkCivil 2024 1 31 0.
Definition close_account : Account :=
  mkAccount "a1" "w1" "" "EUR" PlanHobby PlanPro AccountActive close_anchor None None None true 0 0.
Definition close_p0 : Period :=
  mkPeriod "p0" "a1" 0 PeriodStandard PlanHobby (instant close_anchor) (instant (AddAnchorMonths close_anchor 1))
    500 500 "EUR" 1 500 PeriodOpen.
Definition close_rates : list RateRow := map (fun m => mkRateRow 1 "EUR" (Meter_string m) (RateVersion1 m)) Meters.
Definition close_credit : creditEntry := mkCreditEntry "g1" "a1" "grant" "" 300 None "" "k1" "" 1.
Definition close_small : Statement :=
  mkStatement "s0" "a1" "old" StatementPeriodClose "EUR" false StatementAccumulating 20 0 20 0 0 0 0 0 20 20
    (mkCoverage 0 0 0 0) "" "" None "" None 0 0 [].
Definition close_db : BillingDB :=
  mkBillingDB [close_account] [close_p0] close_rates [close_credit] [close_small] [] [].
(** 1234 cents of CPU time at 2000 cents per vCPU-month, in microseconds. *)
Definition close_usage : usageRow :=
  mkUsageRow "proj" (fun m => match m with MeterCPU => 1599264000000 | _ => 0 end) (mkCoverage 1 0 0 1).
Definition close_env : CloseEnv :=
  mkCloseEnv 1500 1000 ModeEnabled (fun _ _ _ => [close_usage]) (fun p => p) (fun _ => false) true "s1" "p1" "job1"
    (fun i => "line" +:+ pretty i) ["c1"].
Definition close_out : result BillingError (BillingDB * Statement) := closePeriodTx micros close_env "p0" close_db.
Definition close_db' : BillingDB := match close_out with Ok (d, _) => d | Err _ => close_db end.
Definition close_st : Statement := match close_out with Ok (_, s) => s | Err _ => close_small end.

Lemma close_out_ok : closePeriodTx micros close_env "p0" close_db = Ok (close_db', close_st).
Proof. unfold close_db', close_st, close_out. destruct (closePeriodTx _ _ _ _) as [[d st]|e] eqn:E; [done|vm_compute in E; discriminate]. Qed.

Lemma close_amounts :
  (stGross close_st, stCredit close_st, stCarriedFrom close_st, stNextMinimum close_st, stAmountDue close_st)
  = (1234, 300, 20, 2000, 2454) /\ map stState (dbStatements close_db') = [StatementCarried; StatementFinalized]
  /\ map acPlan (dbAccounts close_db') = [PlanPro].
Proof. vm_compute. repeat split. Qed.

Lemma close_period_row : query_row (fun p => str_eqb (pdID p) "p0") (dbPeriods close_db) = Ok close_p0.
Proof. vm_compute. reflexivity. Qed.

Lemma close_period_once_witness :
  closePeriodTx micros close_env "p0" close_db' = Ok (close_db', as_stored micros close_st).
Proof.
  apply (close_period_once micros close_env close_env "p0" close_db close_db' close_st close_p0 close_period_row);
    [|exact close_out_ok].
  intros l Hl. apply not_elem_of_nil in Hl. contradiction.
Defined.

Lemma closed_statement_adds_up_witness : sumZ slAmount (stLines close_st) = stAmountDue close_st.
Proof.
  apply (closed_statement_adds_up micros close_env "p0" close_db close_db' close_st close_p0 close_account).
  - exact close_period_row.
  - reflexivity.
  - vm_compute. reflexivity.
  - repeat constructor; vm_compute; discriminate.
  - repeat constructor. discriminate.
  - discriminate.
  - vm_compute. reflexivity.
  - exact close_out_ok.
Defined.

Lemma balances_carried_once_witness :
  stCarriedFrom close_st = outstanding "a1" (dbStatements close_db) /\ outstanding "a1" (dbStatements close_db') = 0.
Proof.
  destruct (balances_carried_once micros close_env "p0" close_db close_db' close_st close_p0
    close_period_row eq_refl close_out_ok) as (H1 & H2 & _).
  split; [exact H1|]. transitivity (if bool_decide (stState close_st = StatementAccumulating) then stAmountDue close_st else 0);
    [exact H2|vm_compute; reflexivity].
Defined.

Lemma invoice_follows_statement_witness :
  stState close_st = StatementFinalized
  /\ exists accepted, one_active "billing-invoice:s1" accepted [] (dbWork close_db').
Proof.
  assert (E : stState close_st = StatementFinalized) by (vm_compute; reflexivity). split; [exact E|].
  destruct (invoice_follows_statement micros close_env "p0" close_db close_db' close_st close_p0
    close_period_row eq_refl eq_refl (NoDup_nil_2) close_out_ok) as (_ & H & _).
  destruct (H E) as [accepted H']. exists accepted.
  replace "billing-invoice:s1" with (TrimSpace ("billing-invoice:" +:+ stID close_st)) by (vm_compute; reflexivity).
  exact H'.
Defined.

Lemma periods_tile_witness : anchored close_db'.
Proof.
  apply (periods_tile micros close_env "p0" close_db close_db' close_st).
  - apply NoDup_singleton.
  - intros p a Hp Ha _. apply list_elem_of_singleton in Hp as ->. apply list_elem_of_singleton in Ha as ->.
    vm_compute. repeat split; discriminate.
  - exact close_out_ok.
Defined.
