(* ===== verification/GoTime.v ===== *)
(** * Calendar dates of Go's time package

    The year, month and day of an instant, computed as [time.Time.Date] does,
    and that they determine the instant. *)

From S2P Require Import Prelude Billing ClosePeriod.

(** ** The calendar date of an instant *)

Definition days_per_400 : Z := 146097.
Definition days_per_100 : Z := 36524.
Definition days_per_4 : Z := 1461.

(** Years, then months, as [time.Time.Date] takes them off. *)
Fixpoint month_of (y d m : Z) (fuel : nat) : Z * Z :=
  match fuel with
  | O => (m, d + 1)
  | S fuel => if d <? daysInMonth y m then (m, d + 1) else month_of y (d - daysInMonth y m) (m + 1) fuel
  end.

Definition civil_of (t : time) : civil :=
  let d := t / day in
  let n400 := d / days_per_400 in let d := d - days_per_400 * n400 in
  let n100 := d / days_per_100 in let n100 := n100 - Z.shiftr n100 2 in let d := d - days_per_100 * n100 in
  let n4 := d / days_per_4 in let d := d - days_per_4 * n4 in
  let n1 := d / 365 in let n1 := n1 - Z.shiftr n1 2 in let d := d - 365 * n1 in
  let y := 400 * n400 + 100 * n100 + 4 * n4 + n1 + 1 in
  let '(m, dd) := month_of y d 1 12 in
  mkCivil y m dd (t mod day).

Example leap_day : civil_of (instant (mkCivil 2024 2 29 5)) = mkCivil 2024 2 29 5.
Proof. vm_compute. reflexivity. Qed.
Example new_year_eve : civil_of (instant (mkCivil 2000 12 31 0)) = mkCivil 2000 12 31 0.
Proof. vm_compute. reflexivity. Qed.

(** The month and day of a day of the year. *)
Lemma month_of_spec y : forall fuel m d, 1 <= m <= 12 -> m + Z.of_nat fuel = 13 -> 0 <= d ->
  d + days_before_month y m < 365 + (if leap y then 1 else 0) ->
  let '(m', dd) := month_of y d m fuel in
  1 <= m' <= 12 /\ days_before_month y m' + dd - 1 = days_before_month y m + d /\ 1 <= dd.
Proof.
  assert (Hnext : forall m, 1 <= m < 12 -> days_before_month y (m + 1) = days_before_month y m + daysInMonth y m).
  { intros m Hm. assert (In m [1;2;3;4;5;6;7;8;9;10;11]) as Hin by (cbn; lia).
    cbn in Hin. unfold days_before_month, daysInMonth.
    repeat destruct Hin as [<-|Hin]; [..|done]; cbn; destruct (leap y); reflexivity. }
  induction fuel as [|fuel IH]; intros m d H1 H2 H3 H4; cbn [month_of].
  - lia.
  - destruct (d <? daysInMonth y m) eqn:E.
    + split; [lia|]. split; lia.
    + apply Z.ltb_ge in E. assert (m < 12 \/ m = 12) as [Hm|Hm] by lia.
      * specialize (IH (m + 1) (d - daysInMonth y m)). rewrite Hnext in IH by lia.
        specialize (IH ltac:(lia) ltac:(lia) ltac:(lia) ltac:(lia)). destruct (month_of _ _ _ _) as [m' dd]. lia.
      * subst m. exfalso. change (daysInMonth y 12) with 31 in E. unfold days_before_month in H4. destruct (leap y); vm_compute (Z.to_nat (12 - 1)) in H4; cbn in H4; lia.
Qed.

Lemma shiftr2 n : Z.shiftr n 2 = n / 4.
Proof. by rewrite Z.shiftr_div_pow2. Qed.

Ltac quarter := match goal with |- context [?n / 4] => let v := eval vm_compute in (n / 4) in change (n / 4) with v end.

(** The year of an instant and the day in it. *)
Lemma civil_year t : exists y d, civil_of t = (let '(m, dd) := month_of y d 1 12 in mkCivil y m dd (t mod day)) /\
  days_before_year y + d = t / day /\ 0 <= d < 365 + (if leap y then 1 else 0).
Proof.
  unfold civil_of. set (d := t / day).
  set (a := d / days_per_400). set (d1 := d - days_per_400 * a).
  assert (H1 : 0 <= d1 < days_per_400).
  { unfold d1, a, days_per_400. pose proof (Z.div_mod d 146097 ltac:(lia)). pose proof (Z.mod_pos_bound d 146097 ltac:(lia)). lia. }
  set (b0 := d1 / days_per_100). set (b := b0 - Z.shiftr b0 2). set (d2 := d1 - days_per_100 * b).
  assert (H2 : 0 <= b <= 3 /\ 0 <= d2 /\ (d2 < 36524 \/ (b = 3 /\ d2 <= 36524))).
  { unfold d2, b, b0, days_per_100, days_per_400 in *. rewrite shiftr2.
    assert (0 <= d1 / 36524 <= 4) by (split; [apply Z.div_pos; lia|apply Z.div_le_upper_bound; lia]).
    pose proof (Z.div_mod d1 36524 ltac:(lia)). pose proof (Z.mod_pos_bound d1 36524 ltac:(lia)).
    assert (d1 / 36524 = 0 \/ d1 / 36524 = 1 \/ d1 / 36524 = 2 \/ d1 / 36524 = 3 \/ d1 / 36524 = 4) as [E|[E|[E|[E|E]]]] by lia;
      rewrite E in *; clear E; clearbody d1; quarter; lia. }
  set (c := d2 / days_per_4). set (d3 := d2 - days_per_4 * c).
  assert (H3 : 0 <= c <= 24 /\ 0 <= d3 < 1461 /\ (c = 24 -> b < 3 -> d3 < 1460)).
  { unfold d3, c, days_per_4. pose proof (Z.div_mod d2 1461 ltac:(lia)). pose proof (Z.mod_pos_bound d2 1461 ltac:(lia)).
    pose proof (Z.div_pos d2 1461 ltac:(lia) ltac:(lia)). lia. }
  set (e0 := d3 / 365). set (e := e0 - Z.shiftr e0 2). set (d4 := d3 - 365 * e).
  assert (H4 : 0 <= e <= 3 /\ 0 <= d4 /\ (d4 < 365 \/ (e = 3 /\ d4 <= 365 /\ (c = 24 -> b = 3)))).
  { unfold d4, e, e0. rewrite shiftr2.
    assert (0 <= d3 / 365 <= 4) by (split; [apply Z.div_pos; lia|apply Z.div_le_upper_bound; lia]).
    pose proof (Z.div_mod d3 365 ltac:(lia)). pose proof (Z.mod_pos_bound d3 365 ltac:(lia)).
    assert (d3 / 365 = 0 \/ d3 / 365 = 1 \/ d3 / 365 = 2 \/ d3 / 365 = 3 \/ d3 / 365 = 4) as [E|[E|[E|[E|E]]]] by lia;
      rewrite E in *; clear E; clearbody d3; quarter; lia. }
  set (y := 400 * a + 100 * b + 4 * c + e + 1).
  assert (Hy : days_before_year y = d - d4).
  { unfold days_before_year, y. replace (400 * a + 100 * b + 4 * c + e + 1 - 1) with (400 * a + 100 * b + 4 * c + e) by lia.
    assert ((400 * a + 100 * b + 4 * c + e) / 4 = 100 * a + 25 * b + c) as ->
      by (symmetry; apply (Z.div_unique _ _ _ e); lia).
    assert ((400 * a + 100 * b + 4 * c + e) / 100 = 4 * a + b) as ->
      by (symmetry; apply (Z.div_unique _ _ _ (4 * c + e)); lia).
    assert ((400 * a + 100 * b + 4 * c + e) / 400 = a) as ->
      by (symmetry; apply (Z.div_unique _ _ _ (100 * b + 4 * c + e)); lia).
    unfold d4, d3, d2, d1, days_per_4, days_per_100, days_per_400. lia. }
  assert (Hleap : d4 < 365 + (if leap y then 1 else 0)).
  { destruct (decide (d4 < 365)); [destruct (leap y); lia|]. destruct H4 as (_ & _ & [?|(He & Hle & Hcb)]); [lia|].
    assert (leap y = true) as ->; [|lia]. unfold leap, y. rewrite He.
    assert ((400 * a + 100 * b + 4 * c + 3 + 1) mod 4 = 0) as ->
      by (symmetry; apply (Z.mod_unique _ _ (100 * a + 25 * b + c + 1)); lia).
    destruct (decide (c = 24)) as [->|Hc].
    - rewrite (Hcb eq_refl). assert ((400 * a + 100 * 3 + 4 * 24 + 3 + 1) mod 400 = 0) as ->
        by (symmetry; apply (Z.mod_unique _ _ (a + 1)); lia). by rewrite orb_true_r.
    - assert ((400 * a + 100 * b + 4 * c + 3 + 1) mod 100 = 4 * c + 4) as ->
        by (symmetry; apply (Z.mod_unique _ _ (4 * a + b)); lia).
      destruct (4 * c + 4 =? 0) eqn:E; [apply Z.eqb_eq in E; lia|done]. }
  exists y, d4. split; [done|]. lia.
Qed.

(** The date of an instant is the instant it came from. *)
Lemma instant_civil_of t : instant (civil_of t) = t.
Proof.
  destruct (civil_year t) as (y & d & -> & Hy & Hd).
  pose proof (month_of_spec y 12 1 d ltac:(lia) ltac:(lia) ltac:(lia)) as Hm.
  assert (H01 : days_before_month y 1 = 0) by (unfold days_before_month; cbn; by rewrite andb_false_r).
  rewrite H01 in Hm. specialize (Hm ltac:(lia)).
  destruct (month_of y d 1 12) as [m dd]. unfold instant. cbn [cYear cMonth cDay cTod].
  replace (days_before_year y + days_before_month y m + dd - 1) with (t / day) by lia.
  pose proof (Z.div_mod t day ltac:(by unfold day, hour, minute, second)). lia.
Qed.

(** [time.Time.Year] *)
Definition Year (t : time) : Z := cYear (civil_of t).

Lemma days_before_year_mono y z : y <= z -> days_before_year y <= days_before_year z.
Proof.
  intros H. unfold days_before_year. pose proof (Z.div_mod (y - 1) 4 ltac:(lia)). pose proof (Z.mod_pos_bound (y - 1) 4 ltac:(lia)).
  assert (E : forall x, x / 4 - x / 100 = x / 4 - (x / 4) / 25) by (intros x; by rewrite Z.div_div).
  assert (M : y - 1 <= z - 1) by lia.
  pose proof (Z.div_le_mono (y - 1) (z - 1) 4 ltac:(lia) M). pose proof (Z.div_le_mono (y - 1) (z - 1) 400 ltac:(lia) M).
  pose proof (E (y - 1)). pose proof (E (z - 1)).
  assert (Q : forall a b, a <= b -> a - a / 25 <= b - b / 25).
  { intros a b Hab. pose proof (Z.div_mod a 25 ltac:(lia)). pose proof (Z.mod_pos_bound a 25 ltac:(lia)).
    pose proof (Z.div_mod b 25 ltac:(lia)). pose proof (Z.mod_pos_bound b 25 ltac:(lia)). lia. }
  specialize (Q ((y - 1) / 4) ((z - 1) / 4) ltac:(lia)). lia.
Qed.

(** The days of a range of years. *)
Lemma Year_days t lo hi : lo <= Year t <= hi -> days_before_year lo <= t / day < days_before_year hi + 366.
Proof.
  unfold Year. destruct (civil_year t) as (y & d & -> & Hy & Hd). destruct (month_of y d 1 12) as [m dd]. cbn [cYear]. intros H.
  pose proof (days_before_year_mono lo y ltac:(lia)). pose proof (days_before_year_mono y hi ltac:(lia)). destruct (leap y); lia.
Qed.
