(* ===== verification/Sha256.v ===== *)
(** * SHA-256 of a byte string, as the Go library computes it

    [crypto/sha256.Sum256] (FIPS 180-4) and [binary.BigEndian.Uint64], which
    [internal/controlplane/journal/table.go] uses to derive the priority of a
    key.  Words are integers below [2^32]; the definitions are executable and
    checked on the published test vectors. *)

From S2P Require Import Prelude.

Module Sha256.

Definition w32 (z : Z) : Z := z mod two32.
Definition add32 (a b : Z) : Z := w32 (a + b).
Definition rotr (n x : Z) : Z := Z.lor (Z.shiftr x n) (w32 (Z.shiftl x (32 - n))).
Definition not32 (x : Z) : Z := Z.lxor x 4294967295.

Definition ch (x y z : Z) : Z := Z.lxor (Z.land x y) (Z.land (not32 x) z).
Definition maj (x y z : Z) : Z := Z.lxor (Z.lxor (Z.land x y) (Z.land x z)) (Z.land y z).
Definition Sigma0 (x : Z) : Z := Z.lxor (Z.lxor (rotr 2 x) (rotr 13 x)) (rotr 22 x).
Definition Sigma1 (x : Z) : Z := Z.lxor (Z.lxor (rotr 6 x) (rotr 11 x)) (rotr 25 x).
Definition sigma0 (x : Z) : Z := Z.lxor (Z.lxor (rotr 7 x) (rotr 18 x)) (Z.shiftr x 3).
Definition sigma1 (x : Z) : Z := Z.lxor (Z.lxor (rotr 17 x) (rotr 19 x)) (Z.shiftr x 10).

(** The fractional parts of the cube roots of the first sixty-four primes. *)
Definition K : list Z :=
  [1116352408; 1899447441; 3049323471; 3921009573; 961987163; 1508970993; 2453635748; 2870763221;
   3624381080; 310598401; 607225278; 1426881987; 1925078388; 2162078206; 2614888103; 3248222580;
   3835390401; 4022224774; 264347078; 604807628; 770255983; 1249150122; 1555081692; 1996064986;
   2554220882; 2821834349; 2952996808; 3210313671; 3336571891; 3584528711; 113926993; 338241895;
   666307205; 773529912; 1294757372; 1396182291; 1695183700; 1986661051; 2177026350; 2456956037;
   2730485921; 2820302411; 3259730800; 3345764771; 3516065817; 3600352804; 4094571909; 275423344;
   430227734; 506948616; 659060556; 883997877; 958139571; 1322822218; 1537002063; 1747873779;
   1955562222; 2024104815; 2227730452; 2361852424; 2428436474; 2756734187; 3204031479; 3329325298].

Definition H0 : list Z :=
  [1779033703; 3144134277; 1013904242; 2773480762; 1359893119; 2600822924; 528734635; 1541459225].

(** A number in [n] bytes, the most significant first. *)
Fixpoint big_endian (n : nat) (z : Z) : list Z :=
  match n with
  | O => []
  | S n => Z.shiftr z (8 * Z.of_nat n) mod 256 :: big_endian n z
  end.

Definition from_big_endian (l : list Z) : Z := foldl (fun acc b => acc * 256 + b) 0 l.

Definition pad (l : list Z) : list Z :=
  let n := length l in
  l ++ [128] ++ replicate ((119 - n mod 64) mod 64)%nat 0 ++ big_endian 8 (8 * Z.of_nat n).

Fixpoint split_every (fuel n : nat) (l : list Z) : list (list Z) :=
  match fuel, l with
  | S fuel, _ :: _ => take n l :: split_every fuel n (drop n l)
  | _, _ => []
  end.

Definition nthZ (l : list Z) (i : nat) : Z := nth i l 0.

(** The sixteen words of a block extended to sixty-four, newest first. *)
Fixpoint schedule (n : nat) (rev : list Z) : list Z :=
  match n with
  | O => rev
  | S n =>
      schedule n (add32 (add32 (sigma1 (nthZ rev 1)) (nthZ rev 6))
                        (add32 (sigma0 (nthZ rev 14)) (nthZ rev 15)) :: rev)
  end.

Definition round (h : list Z) (kw : Z * Z) : list Z :=
  match h with
  | [a; b; c; d; e; f; g; h] =>
      let t1 := add32 (add32 h (Sigma1 e)) (add32 (ch e f g) (add32 kw.1 kw.2)) in
      let t2 := add32 (Sigma0 a) (maj a b c) in
      [add32 t1 t2; a; b; c; add32 d t1; e; f; g]
  | _ => h
  end.

Definition block (h bytes : list Z) : list Z :=
  let words := map from_big_endian (split_every 16 4 bytes) in
  zip_with add32 h (foldl round h (zip K (reverse (schedule 48 (reverse words))))).

Definition bytes_of (s : string) : list Z :=
  map (fun c => Z.of_N (Ascii.N_of_ascii c)) (String.list_ascii_of_string s).

(** [sha256.Sum256]: thirty-two bytes. *)
Definition Sum256 (s : string) : list Z :=
  let padded := pad (bytes_of s) in
  flat_map (big_endian 4) (foldl block H0 (split_every (length padded) 64 padded)).

(** [binary.BigEndian.Uint64] of the first eight bytes. *)
Definition Uint64 (l : list Z) : Z := from_big_endian (take 8 l).

Example abc_digest :
  Uint64 (Sum256 "abc") = 13436514500253700074 /\ length (Sum256 "abc") = 32%nat.
Proof. vm_compute. split; reflexivity. Qed.

Example empty_digest : Uint64 (Sum256 "") = 16406829232824261652.
Proof. vm_compute. reflexivity. Qed.

Example two_block_digest :
  Sum256 "abcdbcdecdefdefgefghfghighijhijkijkljklmklmnlmnomnopnopq"
  = big_endian 32 16533122207477069341668099752125637525043274373652441057433006174010909329089.
Proof. vm_compute. reflexivity. Qed.

End Sha256.
