(* ===== verification/RowMap.v ===== *)
(** * The persistent row table of the journal

    [internal/controlplane/journal/table.go]: [RowMap], a search tree ordered
    by key whose shape is the heap order of a priority hashed from the key.  A
    table refines a finite map ([rows]): every operation commutes with that
    reading.  Well-formed trees with the same rows are equal, so tables built
    along different histories compare equal, which the journal relies on. *)

From S2P Require Import Prelude Sha256.

(** ** The order of Go strings *)

Section StringOrder.
Implicit Types s t u : string.

Lemma string_ltb_leb s t : String.ltb s t = negb (String.leb t s).
Proof. unfold String.ltb, String.leb. rewrite (String.compare_antisym t s). by destruct (String.compare s t). Qed.

Lemma string_ltb_irrefl s : String.ltb s s = false.
Proof. by rewrite string_ltb_leb, string_leb_refl. Qed.

Lemma string_leb_ltb_trans s t u : String.leb s t = true -> String.ltb t u = true -> String.ltb s u = true.
Proof.
  rewrite !string_ltb_leb, !negb_true_iff. intros H1 H2. destruct (String.leb u s) eqn:E; [|done].
  by rewrite (string_leb_trans _ _ _ E H1) in H2.
Qed.

Lemma string_ltb_leb_weak s t : String.ltb s t = true -> String.leb s t = true.
Proof. rewrite string_ltb_leb, negb_true_iff. apply string_leb_total. Qed.

Lemma string_ltb_trans s t u : String.ltb s t = true -> String.ltb t u = true -> String.ltb s u = true.
Proof. intros H. apply string_leb_ltb_trans. by apply string_ltb_leb_weak. Qed.

Lemma string_ltb_asym s t : String.ltb s t = true -> String.ltb t s = false.
Proof.
  intros H. destruct (String.ltb t s) eqn:E; [|done].
  by rewrite <- (string_ltb_irrefl s), (string_ltb_trans _ _ _ H E).
Qed.

Lemma string_ltb_eq s t : String.ltb s t = false -> String.ltb t s = false -> s = t.
Proof.
  unfold String.ltb. rewrite (String.compare_antisym t s). destruct (String.compare s t) eqn:E; try done.
  intros _ _. by apply String.compare_eq_iff.
Qed.

(** The three outcomes of Go's [switch] on two strings. *)
Lemma string_trichotomy s t :
  (String.ltb s t = true /\ s <> t) \/ (s = t) \/ (String.ltb s t = false /\ String.ltb t s = true /\ s <> t).
Proof.
  destruct (String.ltb s t) eqn:E1.
  - left. split; [done|]. intros ->. by rewrite string_ltb_irrefl in E1.
  - destruct (String.ltb t s) eqn:E2.
    + right; right. repeat split; [done..|]. intros ->. by rewrite string_ltb_irrefl in E2.
    + right; left. by apply string_ltb_eq.
Qed.
End StringOrder.

Definition slt (s t : string) : Prop := String.ltb s t = true.

#[export] Instance slt_strict : StrictOrder slt.
Proof.
  split; [intros s; unfold complement, slt; by rewrite string_ltb_irrefl|].
  intros s t u. apply string_ltb_trans.
Qed.

(** ** Lists of rows in key order *)

Section SortedRows.
Context {T : Type}.
Implicit Types (l : list (string * T)) (k : string) (v : T).

Fixpoint linsert k v l : list (string * T) :=
  match l with
  | [] => [(k, v)]
  | (k', v') :: l' =>
      if String.ltb k k' then (k, v) :: l else if String.ltb k' k then (k', v') :: linsert k v l' else (k, v) :: l'
  end.

Definition ldelete k l : list (string * T) := filter (fun r => r.1 <> k) l.

Definition sorted_keys l : Prop := StronglySorted slt l.*1.

Lemma sorted_keys_app l1 l2 :
  sorted_keys (l1 ++ l2) <->
  sorted_keys l1 /\ sorted_keys l2 /\ (forall r1 r2, r1 ∈ l1 -> r2 ∈ l2 -> slt r1.1 r2.1).
Proof.
  unfold sorted_keys. induction l1 as [|[k v] l1 IH]; cbn.
  - split; [intros H; repeat split; [constructor|done|set_solver]|naive_solver].
  - split.
    + intros H. apply StronglySorted_inv in H as [Hs Hk]. apply IH in Hs as (H1 & H2 & H3).
      rewrite Forall_forall in Hk. split; [|split; [done|]].
      * constructor; [done|]. apply Forall_forall. intros x Hx. apply Hk. rewrite fmap_app. set_solver.
      * intros r1 r2 Hr1 Hr2. apply elem_of_cons in Hr1 as [->|Hr1]; [|by apply H3].
        apply Hk. rewrite fmap_app. apply elem_of_app. right. by apply list_elem_of_fmap_2.
    + intros (H1 & H2 & H3). apply StronglySorted_inv in H1 as [Hs Hk]. constructor.
      * apply IH. repeat split; [done..|]. intros. apply H3; set_solver.
      * rewrite fmap_app. apply Forall_app. split; [done|]. apply Forall_forall. intros x Hx.
        apply list_elem_of_fmap in Hx as (r & -> & Hr). apply (H3 (k, v)); set_solver.
Qed.

Lemma sorted_keys_cons k v l :
  sorted_keys ((k, v) :: l) <-> sorted_keys l /\ (forall r, r ∈ l -> slt k r.1).
Proof.
  rewrite (sorted_keys_app [(k, v)] l). unfold sorted_keys at 1. cbn. split.
  - intros (_ & Hs & Hx). split; [done|]. intros r Hr. apply (Hx (k, v)); set_solver.
  - intros [Hs Hx]. repeat split; [repeat constructor|done|]. intros r1 r2 Hr1 Hr2.
    apply list_elem_of_singleton in Hr1 as ->. by apply Hx.
Qed.

Lemma sorted_keys_NoDup l : sorted_keys l -> NoDup l.*1.
Proof.
  unfold sorted_keys. induction l.*1 as [|k ks IH]; intros H; [constructor|].
  apply StronglySorted_inv in H as [Hs Hk]. constructor; [|auto]. intros Hin.
  rewrite Forall_forall in Hk. by apply (StrictOrder_Irreflexive k), Hk.
Qed.

(** Rows strictly around a key: how both sides of a tree node look. *)
Definition around k l1 l2 : Prop :=
  (forall r, r ∈ l1 -> slt r.1 k) /\ (forall r, r ∈ l2 -> slt k r.1).

Lemma sorted_keys_mid k v l1 l2 :
  sorted_keys (l1 ++ (k, v) :: l2) <-> sorted_keys l1 /\ sorted_keys l2 /\ around k l1 l2.
Proof.
  rewrite sorted_keys_app, sorted_keys_cons. unfold around. split.
  - intros (Hs1 & [Hs2 Hk2] & Hx). repeat split; auto. intros r Hr. apply (Hx r (k, v)); set_solver.
  - intros (? & ? & H1 & H2). repeat split; auto. intros r1 r2 Hr1 Hr2.
    apply elem_of_cons in Hr2 as [->|Hr2]; [by apply H1|]. transitivity k; auto.
Qed.

Lemma linsert_app_l k v l1 k0 v0 l2 :
  slt k k0 -> linsert k v (l1 ++ (k0, v0) :: l2) = linsert k v l1 ++ (k0, v0) :: l2.
Proof.
  unfold slt. intros Hk. induction l1 as [|[k1 v1] l1 IH]; cbn; [by rewrite Hk|].
  destruct (String.ltb k k1); [done|]. destruct (String.ltb k1 k); [|done]. cbn. by rewrite IH.
Qed.

Lemma linsert_app_r k v l1 l2 :
  (forall r, r ∈ l1 -> slt r.1 k) -> linsert k v (l1 ++ l2) = l1 ++ linsert k v l2.
Proof.
  unfold slt. induction l1 as [|[k1 v1] l1 IH]; intros Hl; cbn; [done|].
  pose proof (Hl (k1, v1) ltac:(set_solver)) as H1. cbn in H1.
  rewrite (string_ltb_asym _ _ H1), H1, IH; [done|set_solver].
Qed.

Lemma linsert_elem k v l r :
  r ∈ linsert k v l -> r = (k, v) \/ r ∈ l.
Proof.
  induction l as [|[k1 v1] l IH]; cbn; [set_solver|].
  destruct (String.ltb k k1); [set_solver|]. destruct (String.ltb k1 k); set_solver.
Qed.

Lemma linsert_sorted k v l : sorted_keys l -> sorted_keys (linsert k v l).
Proof.
  induction l as [|[k1 v1] l IH]; intros Hs; [repeat constructor|].
  cbn [linsert]. destruct (String.ltb k k1) eqn:E1; [|destruct (String.ltb k1 k) eqn:E2].
  - apply sorted_keys_cons. split; [done|]. apply sorted_keys_cons in Hs as [_ Hs].
    intros r Hr. apply elem_of_cons in Hr as [->|Hr]; [done|]. transitivity k1; [done|auto].
  - apply sorted_keys_cons in Hs as [Hs Hk]. apply sorted_keys_cons. split; [auto|].
    intros r Hr. apply linsert_elem in Hr as [->|Hr]; auto.
  - by rewrite (string_ltb_eq _ _ E1 E2).
Qed.

Lemma linsert_to_map k v l : list_to_map (M := gmap string T) (linsert k v l) = <[k := v]> (list_to_map l).
Proof.
  induction l as [|[k1 v1] l IH]; [done|]. cbn [linsert].
  destruct (string_trichotomy k k1) as [[-> Hn]|[->|(-> & -> & Hn)]].
  - done.
  - rewrite string_ltb_irrefl. cbn. by rewrite insert_insert_eq.
  - cbn. rewrite IH. by rewrite insert_insert_ne.
Qed.

Lemma ldelete_to_map k l : list_to_map (M := gmap string T) (ldelete k l) = delete k (list_to_map l).
Proof.
  unfold ldelete. induction l as [|[k1 v1] l IH]; [cbn; by rewrite delete_empty|].
  rewrite filter_cons. cbn. case_decide as Hn; cbn; rewrite IH.
  - by rewrite delete_insert_ne.
  - subst k1. by rewrite delete_insert_eq.
Qed.

Lemma ldelete_id k l : (forall r, r ∈ l -> r.1 <> k) -> ldelete k l = l.
Proof. intros H. by apply filter_id. Qed.

Lemma ldelete_sorted k l : sorted_keys l -> sorted_keys (ldelete k l).
Proof.
  unfold ldelete. induction l as [|[k1 v1] l IH]; intros Hs; [done|]. rewrite filter_cons.
  apply sorted_keys_cons in Hs as [Hs Hk]. case_decide; [|auto].
  apply sorted_keys_cons. split; [auto|]. intros r [_ Hr]%list_elem_of_filter. auto.
Qed.

Lemma sorted_lookup l k v : sorted_keys l -> list_to_map (M := gmap string T) l !! k = Some v <-> (k, v) ∈ l.
Proof. intros Hs%sorted_keys_NoDup. symmetry. by apply elem_of_list_to_map. Qed.

(** Rows in key order are determined by the map they spell. *)
Lemma sorted_ext l1 l2 :
  sorted_keys l1 -> sorted_keys l2 -> list_to_map (M := gmap string T) l1 = list_to_map l2 -> l1 = l2.
Proof.
  revert l2. induction l1 as [|[k v] l1 IH]; intros [|[k' v'] l2] H1 H2 E; [done|..].
  - cbn in E. symmetry in E. by apply insert_non_empty in E.
  - cbn in E. by apply insert_non_empty in E.
  - pose proof (sorted_keys_cons k v l1) as [Hc1 _]. destruct (Hc1 H1) as [Hs1 Hk1].
    pose proof (sorted_keys_cons k' v' l2) as [Hc2 _]. destruct (Hc2 H2) as [Hs2 Hk2].
    assert (Hkk : k = k').
    { assert (Ha : (k, v) ∈ (k', v') :: l2) by (apply sorted_lookup; [done|]; rewrite <- E; cbn; apply lookup_insert_eq).
      assert (Hb : (k', v') ∈ (k, v) :: l1) by (apply sorted_lookup; [done|]; rewrite E; cbn; apply lookup_insert_eq).
      apply elem_of_cons in Ha as [Ha|Ha]; [congruence|]. apply elem_of_cons in Hb as [Hb|Hb]; [congruence|].
      apply Hk1 in Hb. apply Hk2 in Ha. cbn in *. unfold slt in *. by rewrite (string_ltb_asym _ _ Ha) in Hb. }
    subst k'.
    assert (v = v') as ->.
    { assert (Some v = Some v') as Hv by (rewrite <- (lookup_insert_eq (list_to_map (M := gmap string T) l1) k v);
        cbn in E; rewrite E; apply lookup_insert_eq). congruence. }
    f_equal. apply IH; [done..|]. cbn in E.
    assert (Hnone : forall (l : list (string * T)), (forall r, r ∈ l -> slt k r.1) -> list_to_map (M := gmap string T) l !! k = None).
    { intros l Hl. apply not_elem_of_list_to_map_1. intros Hin. apply list_elem_of_fmap in Hin as (r & -> & Hr).
      apply Hl in Hr. by apply (StrictOrder_Irreflexive r.1). }
    rewrite <- (delete_insert_id (list_to_map l1) k v'), E by auto. apply delete_insert_id. auto.
Qed.
End SortedRows.

(** ** The tree *)

Module RowMap.

Inductive tableNode (T : Type) : Type :=
| nil_node
| node (key : string) (value : T) (priority size : Z) (left right : tableNode T).
Arguments nil_node {T}.
Arguments node {T} _ _ _ _ _ _.

Record RowMap (T : Type) := { root : tableNode T }.
Arguments Build_RowMap {T} _.
Arguments root {T} _.

(** [sha256.Sum256] and [binary.BigEndian.Uint64] of the key. *)
Definition hash_priority (key : string) : Z := Sha256.Uint64 (Sha256.Sum256 key).
Arguments hash_priority : simpl never.

Section Tree.
Context {T : Type}.
Implicit Types (n l r : tableNode T) (k : string) (v : T) (p : Z).

Definition nodeSize n : Z := match n with nil_node => 0 | node _ _ _ size _ _ => size end.

(** [sizedNode] of the node with the given fields. *)
Definition sizedNode k v p l r : tableNode T := node k v p (1 + nodeSize l + nodeSize r) l r.

Definition rank_ltb (a b : Z * string) : bool :=
  (a.1 <? b.1) || ((a.1 =? b.1) && String.ltb a.2 b.2).

(** [precedes(a, &b)] where [b] has priority [p] and key [k]. *)
Definition precedes (a : tableNode T) p k : bool :=
  match a with nil_node => false | node k' _ p' _ _ _ => rank_ltb (p', k') (p, k) end.

Fixpoint setNode (previous : tableNode T) k v p : tableNode T :=
  match previous with
  | nil_node => node k v p 1 nil_node nil_node
  | node nk nv np ns nl nr =>
      if String.eqb k nk then sizedNode nk v np nl nr
      else if String.ltb k nk then
        let left := setNode nl k v p in
        match left with
        | node rk rv rp _ rl rr =>
            if precedes left np nk then sizedNode rk rv rp rl (sizedNode nk nv np rr nr)
            else sizedNode nk nv np left nr
        | nil_node => sizedNode nk nv np left nr
        end
      else
        let right := setNode nr k v p in
        match right with
        | node rk rv rp _ rl rr =>
            if precedes right np nk then sizedNode rk rv rp (sizedNode nk nv np nl rl) rr
            else sizedNode nk nv np nl right
        | nil_node => sizedNode nk nv np nl right
        end
  end.

Fixpoint joinNodes (left right : tableNode T) {struct left} : tableNode T :=
  match left with
  | nil_node => right
  | node lk lv lp ls ll lr =>
      (fix join_right (right : tableNode T) : tableNode T :=
         match right with
         | nil_node => left
         | node rk rv rp rs rl rr =>
             if rank_ltb (lp, lk) (rp, rk) then sizedNode lk lv lp ll (joinNodes lr right)
             else sizedNode rk rv rp (join_right rl) rr
         end) right
  end.

Fixpoint deleteNode (previous : tableNode T) k : tableNode T :=
  match previous with
  | nil_node => nil_node
  | node nk nv np _ nl nr =>
      if String.ltb k nk then sizedNode nk nv np (deleteNode nl k) nr
      else if String.ltb nk k then sizedNode nk nv np nl (deleteNode nr k)
      else joinNodes nl nr
  end.

Fixpoint lookupNode (n : tableNode T) k : option T :=
  match n with
  | nil_node => None
  | node nk nv _ _ nl nr =>
      if String.ltb k nk then lookupNode nl k else if String.ltb nk k then lookupNode nr k else Some nv
  end.

(** The pairs [walkRowMap] yields. *)
Fixpoint walkRowMap (n : tableNode T) : list (string * T) :=
  match n with
  | nil_node => []
  | node k v _ _ l r => walkRowMap l ++ (k, v) :: walkRowMap r
  end.

Definition Len (t : RowMap T) : Z := nodeSize (root t).
Definition Lookup (t : RowMap T) k : option T := lookupNode (root t) k.
Definition Set_ (t : RowMap T) k v : RowMap T := {| root := setNode (root t) k v (hash_priority k) |}.
Definition Delete (t : RowMap T) k : RowMap T := {| root := deleteNode (root t) k |}.
Definition All (t : RowMap T) : list (string * T) := walkRowMap (root t).
Definition empty : RowMap T := {| root := nil_node |}.

(** [NewRowMap], visiting the rows in some order. *)
Definition NewRowMap (rows : list (string * T)) : RowMap T :=
  foldl (fun t row => Set_ t row.1 row.2) empty rows.

(** ** Well-formed trees *)

(** Every node below satisfies [P] of its priority and key. *)
Fixpoint all_ranks (P : Z * string -> Prop) n : Prop :=
  match n with nil_node => True | node k _ p _ l r => P (p, k) /\ all_ranks P l /\ all_ranks P r end.

Definition rank_lt (a b : Z * string) : Prop := rank_ltb a b = true.

Fixpoint heap n : Prop :=
  match n with
  | nil_node => True
  | node k _ p _ l r => all_ranks (rank_lt (p, k)) l /\ all_ranks (rank_lt (p, k)) r /\ heap l /\ heap r
  end.

Fixpoint sized n : Prop :=
  match n with
  | nil_node => True
  | node _ _ _ s l r => s = 1 + nodeSize l + nodeSize r /\ sized l /\ sized r
  end.

Definition wf_node n : Prop :=
  sorted_keys (walkRowMap n) /\ heap n /\ sized n /\ all_ranks (fun pk => pk.1 = hash_priority pk.2) n.

Definition wf (t : RowMap T) : Prop := wf_node (root t).

(** The finite map a table stands for. *)
Definition rows (t : RowMap T) : gmap string T := list_to_map (All t).
End Tree.
Arguments RowMap T : clear implicits.

Section TreeProofs.
Context {T : Type}.
Implicit Types (n l r : tableNode T) (k : string) (v : T) (p : Z).

(** *** What the operations do to the rows in key order *)

Lemma lookupNode_rows n k : sorted_keys (walkRowMap n) -> lookupNode n k = list_to_map (M := gmap string T) (walkRowMap n) !! k.
Proof.
  induction n as [|nk nv np ns nl IHl nr IHr]; [done|]. cbn. intros Hs.
  apply sorted_keys_mid in Hs as (Hl & Hr & Ha1 & Ha2).
  rewrite list_to_map_app, lookup_union. cbn.
  destruct (string_trichotomy k nk) as [[E Hn]|[->|(E1 & E & Hn)]].
  - rewrite E, IHl, lookup_insert_ne by done.
    replace (list_to_map (M := gmap string T) (walkRowMap nr) !! k) with (@None T).
    + by destruct (list_to_map (M := gmap string T) (walkRowMap nl) !! k).
    + symmetry. apply not_elem_of_list_to_map_1. intros (r & -> & Hin)%list_elem_of_fmap.
      apply Ha2 in Hin. unfold slt in Hin. by rewrite (string_ltb_asym _ _ Hin) in E.
  - rewrite string_ltb_irrefl, lookup_insert_eq.
    rewrite not_elem_of_list_to_map_1; [done|]. intros (r & -> & Hin)%list_elem_of_fmap.
    by apply (StrictOrder_Irreflexive r.1), Ha1.
  - rewrite E1, E, IHr, lookup_insert_ne by done.
    rewrite (not_elem_of_list_to_map_1 (walkRowMap nl)).
    + by destruct (list_to_map (M := gmap string T) (walkRowMap nr) !! k).
    + intros (r & -> & Hin)%list_elem_of_fmap.
      apply Ha1 in Hin. unfold slt in Hin. by rewrite (string_ltb_asym _ _ Hin) in E.
Qed.

Lemma walk_setNode n k v p : sorted_keys (walkRowMap n) -> walkRowMap (setNode n k v p) = linsert k v (walkRowMap n).
Proof.
  induction n as [|nk nv np ns nl IHl nr IHr]; [done|]. cbn [setNode walkRowMap]. intros Hs.
  apply sorted_keys_mid in Hs as (Hl & Hr & Ha1 & Ha2). specialize (IHl Hl). specialize (IHr Hr).
  destruct (String.eqb_spec k nk) as [->|Hn].
  - cbn. rewrite linsert_app_r by done. cbn. by rewrite string_ltb_irrefl.
  - destruct (string_trichotomy k nk) as [[E _]|[?|(E1 & E & _)]]; [|done|].
    + rewrite E, linsert_app_l by done. destruct (setNode nl k v p) as [|rk rv rp rs rl rr]; cbn in *; [by rewrite <- IHl|].
      rewrite <- IHl. destruct (rank_ltb _ _); cbn; by rewrite <- ?app_assoc.
    + rewrite E1, linsert_app_r by (intros r Hr0; transitivity nk; auto). cbn. rewrite E1, E.
      destruct (setNode nr k v p) as [|rk rv rp rs rl rr]; cbn in *; [by rewrite <- IHr|].
      rewrite <- IHr. destruct (rank_ltb _ _); cbn; by rewrite <- ?app_assoc.
Qed.

Lemma walk_joinNodes l r : walkRowMap (joinNodes l r) = walkRowMap l ++ walkRowMap r.
Proof.
  revert r. induction l as [|lk lv lp ls ll IHll lr IHlr]; intros r; [done|].
  induction r as [|rk rv rp rs rl IHrl rr IHrr]; [cbn; by rewrite app_nil_r|].
  cbn. destruct (rank_ltb _ _).
  - cbn. rewrite IHlr. cbn. by rewrite <- app_assoc.
  - cbn in *. by rewrite IHrl, <- !app_assoc.
Qed.

Lemma walk_deleteNode n k : sorted_keys (walkRowMap n) -> walkRowMap (deleteNode n k) = ldelete k (walkRowMap n).
Proof.
  induction n as [|nk nv np ns nl IHl nr IHr]; [done|]. cbn [deleteNode walkRowMap]. intros Hs.
  apply sorted_keys_mid in Hs as (Hl & Hr & Ha1 & Ha2).
  assert (Hne : forall (l' : list (string * T)), (forall row, row ∈ l' -> slt k row.1 \/ slt row.1 k) -> ldelete k l' = l').
  { intros l' Hl'. apply ldelete_id. intros r Hin Heq. destruct (Hl' r Hin) as [H|H]; rewrite Heq in H;
      by apply (StrictOrder_Irreflexive k). }
  unfold ldelete in *. rewrite filter_app, filter_cons. cbn.
  destruct (string_trichotomy k nk) as [[E Hn]|[->|(E1 & E & Hn)]].
  - rewrite E. cbn. rewrite IHl by done. rewrite decide_True by done. rewrite (Hne (walkRowMap nr)); [done|].
    intros r Hin. left. transitivity nk; [done|auto].
  - rewrite string_ltb_irrefl, walk_joinNodes, decide_False by naive_solver.
    rewrite !Hne; [done|intros r Hin; left; auto|intros r Hin; right; auto].
  - rewrite E1, E. cbn. rewrite IHr by done. rewrite decide_True by done. rewrite (Hne (walkRowMap nl)); [done|].
    intros r Hin. right. transitivity nk; [auto|done].
Qed.

(** *** The heap order of priorities *)

#[local] Instance rank_lt_strict : StrictOrder rank_lt.
Proof.
  split.
  - intros [p k]. unfold complement, rank_lt, rank_ltb. cbn. by rewrite Z.ltb_irrefl, Z.eqb_refl, string_ltb_irrefl.
  - intros [p1 k1] [p2 k2] [p3 k3]. unfold rank_lt, rank_ltb. cbn.
    rewrite !orb_true_iff, !andb_true_iff, !Z.ltb_lt, !Z.eqb_eq.
    intros [H1|[H1 E1]] [H2|[H2 E2]]; [left; lia..|right]. split; [lia|]. by eapply string_ltb_trans.
Qed.

Lemma rank_lt_total a b : rank_ltb a b = false -> a <> b -> rank_lt b a.
Proof.
  destruct a as [p1 k1], b as [p2 k2]. unfold rank_lt, rank_ltb. cbn.
  rewrite orb_false_iff, andb_false_iff, orb_true_iff, andb_true_iff, !Z.ltb_lt, Z.ltb_ge, Z.eqb_neq, Z.eqb_eq.
  intros [H1 H2] Hne. destruct (Z.eq_dec p1 p2) as [->|]; [|left; lia]. right. split; [done|].
  destruct H2 as [H2|H2]; [done|]. destruct (string_trichotomy k1 k2) as [[E _]|[->|(_ & E & _)]]; congruence.
Qed.

Lemma all_ranks_mono (P Q : Z * string -> Prop) n : (forall a, P a -> Q a) -> all_ranks P n -> all_ranks Q n.
Proof. intros H. induction n; cbn; naive_solver. Qed.

Lemma all_ranks_and (P Q : Z * string -> Prop) n : all_ranks P n -> all_ranks Q n -> all_ranks (fun a => P a /\ Q a) n.
Proof. induction n; cbn; naive_solver. Qed.

Lemma all_ranks_setNode P n k v p : P (p, k) -> all_ranks P n -> all_ranks P (setNode n k v p).
Proof.
  intros Hk. induction n as [|nk nv np ns nl IHl nr IHr]; cbn [setNode all_ranks]; [done|]. intros (Hn & Hl & Hr).
  specialize (IHl Hl). specialize (IHr Hr). destruct (String.eqb k nk); [done|]. destruct (String.ltb k nk).
  - destruct (setNode nl k v p) as [|rk rv rp rs rl rr]; [done|]. cbn in IHl. destruct (precedes _ _ _); cbn; tauto.
  - destruct (setNode nr k v p) as [|rk rv rp rs rl rr]; [done|]. cbn in IHr. destruct (precedes _ _ _); cbn; tauto.
Qed.

Lemma all_ranks_joinNodes P l r : all_ranks P l -> all_ranks P r -> all_ranks P (joinNodes l r).
Proof.
  revert r. induction l as [|lk lv lp ls ll IHll lr IHlr]; intros r; [done|].
  induction r as [|rk rv rp rs rl IHrl rr IHrr]; [done|]. intros Hl Hr. cbn.
  destruct (rank_ltb _ _); cbn in *; [|naive_solver]. repeat split; try tauto. apply IHlr; cbn; tauto.
Qed.

Lemma all_ranks_deleteNode P n k : all_ranks P n -> all_ranks P (deleteNode n k).
Proof.
  induction n as [|nk nv np ns nl IHl nr IHr]; cbn [deleteNode all_ranks]; [done|]. intros (Hn & Hl & Hr).
  destruct (String.ltb k nk); [cbn; tauto|]. destruct (String.ltb nk k); [cbn; tauto|]. by apply all_ranks_joinNodes.
Qed.

(** The step both rotations share: a subtree [c] whose nodes all follow the
    parent, except for one new node. *)
Lemma rotation_ranks (new parent : Z * string) ck cv cp cs cl cr :
  new <> parent ->
  heap (node (T := T) ck cv cp cs cl cr) ->
  all_ranks (fun a => a = new \/ rank_lt parent a) (node ck cv cp cs cl cr) ->
  if rank_ltb (cp, ck) parent
  then all_ranks (rank_lt parent) cl /\ all_ranks (rank_lt parent) cr
  else all_ranks (rank_lt parent) (node ck cv cp cs cl cr).
Proof.
  cbn [heap all_ranks]. intros Hne (Hl & Hr & _) (Ha & Hal & Har). destruct (rank_ltb (cp, ck) parent) eqn:E.
  - destruct Ha as [Ha|Ha].
    + split; [eapply all_ranks_mono, (all_ranks_and _ _ _ Hl Hal)|eapply all_ranks_mono, (all_ranks_and _ _ _ Hr Har)];
        (intros a [H1 [->|H2]]; [rewrite Ha in H1; by apply StrictOrder_Irreflexive in H1|done]).
    + exfalso. apply (StrictOrder_Irreflexive parent). by transitivity (cp, ck).
  - assert (Hroot : rank_lt parent (cp, ck)) by (destruct Ha as [Ha|Ha]; [apply rank_lt_total; congruence|done]).
    repeat split; [done|eapply all_ranks_mono, Hl|eapply all_ranks_mono, Hr]; intros a H; by transitivity (cp, ck).
Qed.

Lemma heap_setNode n k v p : heap n -> heap (setNode n k v p).
Proof.
  induction n as [|nk nv np ns nl IHl nr IHr]; cbn [setNode]; [done|]. intros (Hl & Hr & Hhl & Hhr).
  specialize (IHl Hhl). specialize (IHr Hhr).
  destruct (String.eqb_spec k nk) as [->|Hne]; [done|].
  assert (Hne' : (p, k) <> (np, nk)) by congruence.
  assert (Hset : forall m, all_ranks (rank_lt (np, nk)) m ->
    all_ranks (fun a => a = (p, k) \/ rank_lt (np, nk) a) (setNode m k v p)).
  { intros m Hm. apply all_ranks_setNode; [by left|]. eapply all_ranks_mono; [|exact Hm]. auto. }
  destruct (String.ltb k nk).
  - specialize (Hset nl Hl). destruct (setNode nl k v p) as [|rk rv rp rs rl rr]; [done|].
    pose proof (rotation_ranks _ _ _ _ _ _ _ _ Hne' IHl Hset) as Hrot. cbn [precedes].
    destruct (rank_ltb _ _) eqn:E; [|done]. cbn in IHl, Hset |- *. destruct IHl as (I1 & I2 & I3 & I4), Hrot.
    repeat split; try done. eapply all_ranks_mono, Hr. intros a Ha. by transitivity (np, nk).
  - specialize (Hset nr Hr). destruct (setNode nr k v p) as [|rk rv rp rs rl rr]; [done|].
    pose proof (rotation_ranks _ _ _ _ _ _ _ _ Hne' IHr Hset) as Hrot. cbn [precedes].
    destruct (rank_ltb _ _) eqn:E; [|done]. cbn in IHr, Hset |- *. destruct IHr as (I1 & I2 & I3 & I4), Hrot.
    repeat split; try done. eapply all_ranks_mono, Hl. intros a Ha. by transitivity (np, nk).
Qed.

Lemma all_ranks_keys (Q : string -> Prop) n :
  all_ranks (fun a => Q a.2) n <-> forall row, row ∈ walkRowMap n -> Q row.1.
Proof.
  induction n as [|nk nv np ns nl IHl nr IHr]; cbn; [set_solver|]. rewrite IHl, IHr. split.
  - intros (H1 & H2 & H3) row. rewrite elem_of_app, elem_of_cons. intros [H|[->|H]]; auto.
  - intros H. split; [|split]; [apply (H (nk, nv))|intros; apply H..]; set_solver.
Qed.

Lemma heap_joinNodes m l r :
  all_ranks (fun a => slt a.2 m) l -> all_ranks (fun a => slt m a.2) r -> heap l -> heap r -> heap (joinNodes l r).
Proof.
  revert r. induction l as [|lk lv lp ls ll IHll lr IHlr]; intros r Hml Hmr Hl Hr; [done|].
  induction r as [|rk rv rp rs rl IHrl rr IHrr]; [done|].
  cbn in Hl, Hr, Hml, Hmr. destruct Hl as (L1 & L2 & L3 & L4), Hr as (R1 & R2 & R3 & R4),
    Hml as (M1 & M2 & M3), Hmr as (N1 & N2 & N3). cbn. destruct (rank_ltb (lp, lk) (rp, rk)) eqn:E.
  - cbn. repeat split; [done| |done|].
    + apply all_ranks_joinNodes; [done|]. cbn. repeat split; [done|eapply all_ranks_mono, R1|eapply all_ranks_mono, R2];
        intros a Ha; by transitivity (rp, rk).
    + apply IHlr; cbn; tauto.
  - assert (Hlt : rank_lt (rp, rk) (lp, lk)).
    { apply rank_lt_total; [done|]. intros [=Hp Hk]. apply (StrictOrder_Irreflexive m). transitivity rk; [done|]. by rewrite <- Hk. }
    cbn. repeat split; [|done| |done].
    + apply (all_ranks_joinNodes _ (node lk lv lp ls ll lr) rl); [|done]. cbn.
      repeat split; [done|eapply all_ranks_mono, L1|eapply all_ranks_mono, L2]; intros a Ha; by transitivity (lp, lk).
    + apply IHrl; cbn; tauto.
Qed.

Lemma heap_deleteNode n k : sorted_keys (walkRowMap n) -> heap n -> heap (deleteNode n k).
Proof.
  induction n as [|nk nv np ns nl IHl nr IHr]; cbn [deleteNode walkRowMap]; [done|]. intros Hs (H1 & H2 & H3 & H4).
  apply sorted_keys_mid in Hs as (Hl & Hr & Ha1 & Ha2).
  destruct (String.ltb k nk); [|destruct (String.ltb nk k)].
  - cbn. repeat split; auto using all_ranks_deleteNode.
  - cbn. repeat split; auto using all_ranks_deleteNode.
  - apply (heap_joinNodes nk); [by apply (all_ranks_keys (fun x => slt x nk))|by apply (all_ranks_keys (slt nk))|done..].
Qed.

(** *** Sizes *)

Lemma sized_setNode n k v p : sized n -> sized (setNode n k v p).
Proof.
  induction n as [|nk nv np ns nl IHl nr IHr]; cbn [setNode sized]; [done|]. intros (Hs & Hl & Hr).
  specialize (IHl Hl). specialize (IHr Hr). destruct (String.eqb k nk); [done|]. destruct (String.ltb k nk).
  - destruct (setNode nl k v p) as [|rk rv rp rs rl rr]; [done|]. cbn in IHl. destruct (precedes _ _ _); cbn; tauto.
  - destruct (setNode nr k v p) as [|rk rv rp rs rl rr]; [done|]. cbn in IHr. destruct (precedes _ _ _); cbn; tauto.
Qed.

Lemma sized_joinNodes l r : sized l -> sized r -> sized (joinNodes l r).
Proof.
  revert r. induction l as [|lk lv lp ls ll IHll lr IHlr]; intros r; [done|].
  induction r as [|rk rv rp rs rl IHrl rr IHrr]; [done|]. intros Hl Hr. cbn.
  destruct (rank_ltb _ _); cbn in *; [|naive_solver]. repeat split; try tauto. apply IHlr; cbn; tauto.
Qed.

Lemma sized_deleteNode n k : sized n -> sized (deleteNode n k).
Proof.
  induction n as [|nk nv np ns nl IHl nr IHr]; cbn [deleteNode sized]; [done|]. intros (Hs & Hl & Hr).
  destruct (String.ltb k nk); [cbn; tauto|]. destruct (String.ltb nk k); [cbn; tauto|]. by apply sized_joinNodes.
Qed.

Lemma nodeSize_walk n : sized n -> nodeSize n = len (walkRowMap n).
Proof.
  induction n as [|nk nv np ns nl IHl nr IHr]; cbn; [done|]. intros (-> & Hl & Hr).
  rewrite IHl, IHr by done. autorewrite with go. lia.
Qed.

(** *** The shape of a tree is determined by its rows *)

Definition key_rank k : Z * string := (hash_priority k, k).

Lemma root_first k v p s l r row :
  wf_node (node (T := T) k v p s l r) -> row ∈ walkRowMap (node k v p s l r) ->
  row.1 = k \/ rank_lt (key_rank k) (key_rank row.1).
Proof.
  intros (_ & (H1 & H2 & _) & _ & Hp) Hin.
  assert (Hall : all_ranks (fun b => b.2 = k \/ rank_lt (key_rank k) (key_rank b.2)) (node k v p s l r)).
  { assert (Hpk : key_rank k = (p, k)) by (unfold key_rank; f_equal; symmetry; apply Hp). rewrite Hpk.
    assert (Hsub : forall m : tableNode T, all_ranks (rank_lt (p, k)) m -> all_ranks (fun b => b.1 = hash_priority b.2) m ->
      all_ranks (fun b => b.2 = k \/ rank_lt (p, k) (key_rank b.2)) m).
    { intros m Hm1 Hm2. eapply all_ranks_mono, (all_ranks_and _ _ _ Hm1 Hm2).
      intros [bp bk] [Hb1 Hb2]. cbn in *. right. unfold key_rank. by rewrite <- Hb2. }
    destruct Hp as (_ & Hp1 & Hp2). repeat split; [by left|by apply Hsub..]. }
  exact (proj1 (all_ranks_keys (fun x => x = k \/ rank_lt (key_rank k) (key_rank x)) _) Hall row Hin).
Qed.

Lemma wf_node_inv k v p s l r :
  wf_node (node (T := T) k v p s l r) ->
  p = hash_priority k /\ s = 1 + nodeSize l + nodeSize r /\ wf_node l /\ wf_node r /\
  around k (walkRowMap l) (walkRowMap r).
Proof.
  intros (Hs & (H1 & H2 & H3 & H4) & (Hz & Hz1 & Hz2) & (Hp & Hp1 & Hp2)).
  cbn in Hs. apply sorted_keys_mid in Hs as (Hl & Hr & Ha). cbn in Hp. repeat split; try done; apply Ha.
Qed.

Lemma app_split_at {A} (key : A -> string) (l1 l2 r1 r2 : list A) (a b : A) :
  l1 ++ a :: l2 = r1 ++ b :: r2 -> key a = key b -> (forall x, x ∈ l1 -> key x <> key a) ->
  (forall x, x ∈ r1 -> key x <> key a) -> l1 = r1 /\ a = b /\ l2 = r2.
Proof.
  revert r1. induction l1 as [|x l1 IH]; intros [|y r1] E Hab Hl Hr; cbn in E; simplify_eq.
  - done.
  - destruct (Hr y); [set_solver|done].
  - destruct (Hl b); [set_solver|done].
  - destruct (IH r1) as (-> & -> & ->); [done|done|set_solver|set_solver|done].
Qed.

(** Two well-formed trees with the same rows are the same tree. *)
Lemma wf_node_ext n1 n2 : wf_node n1 -> wf_node n2 -> walkRowMap n1 = walkRowMap n2 -> n1 = n2.
Proof.
  revert n2. induction n1 as [|k v p s l IHl r IHr]; intros [|k' v' p' s' l' r'] H1 H2 E; [done|..].
  - cbn in E. by destruct (walkRowMap l').
  - cbn in E. by destruct (walkRowMap l).
  - assert (Hk : k = k').
    { pose proof (root_first _ _ _ _ _ _ (k', v') H1 ltac:(rewrite E; cbn; set_solver)) as Ha.
      pose proof (root_first _ _ _ _ _ _ (k, v) H2 ltac:(rewrite <- E; cbn; set_solver)) as Hb.
      cbn in Ha, Hb. destruct Ha as [->|Ha]; [done|]. destruct Hb as [->|Hb]; [done|].
      exfalso. apply (StrictOrder_Irreflexive (key_rank k)). by transitivity (key_rank k'). }
    subst k'. apply wf_node_inv in H1 as (-> & -> & Hl1 & Hr1 & Ha1 & _), H2 as (-> & -> & Hl2 & Hr2 & Ha2 & _).
    cbn in E. apply (app_split_at fst) in E as (El & [=->] & Er); [|done|..].
    + by rewrite (IHl l'), (IHr r').
    + cbn. intros x Hx Heq. apply Ha1 in Hx. rewrite Heq in Hx. by apply (StrictOrder_Irreflexive k).
    + cbn. intros x Hx Heq. apply Ha2 in Hx. rewrite Heq in Hx. by apply (StrictOrder_Irreflexive k).
Qed.

Lemma wf_setNode n k v : wf_node n -> wf_node (setNode n k v (hash_priority k)).
Proof.
  intros (H1 & H2 & H3 & H4). repeat split; [|by apply heap_setNode|by apply sized_setNode|by apply all_ranks_setNode].
  rewrite walk_setNode by done. by apply linsert_sorted.
Qed.

Lemma wf_deleteNode n k : wf_node n -> wf_node (deleteNode n k).
Proof.
  intros (H1 & H2 & H3 & H4).
  repeat split; [|by apply heap_deleteNode|by apply sized_deleteNode|by apply all_ranks_deleteNode].
  rewrite walk_deleteNode by done. by apply ldelete_sorted.
Qed.
End TreeProofs.

(** ** Laws of the table *)

Section Laws.
Context {T : Type}.
Implicit Types (t : RowMap T) (k : string) (v : T).

Lemma wf_empty : wf (@empty T).
Proof. repeat split; constructor. Qed.

Lemma wf_Set t k v : wf t -> wf (Set_ t k v).
Proof. apply wf_setNode. Qed.

Lemma wf_Delete t k : wf t -> wf (Delete t k).
Proof. apply wf_deleteNode. Qed.

Lemma rows_empty : rows (@empty T) = ∅.
Proof. done. Qed.

Lemma rows_Set t k v : wf t -> rows (Set_ t k v) = <[k := v]> (rows t).
Proof. intros [Hs _]. unfold rows, All. cbn. by rewrite walk_setNode, linsert_to_map. Qed.

Lemma rows_Delete t k : wf t -> rows (Delete t k) = delete k (rows t).
Proof. intros [Hs _]. unfold rows, All. cbn. by rewrite walk_deleteNode, ldelete_to_map. Qed.

Lemma Lookup_rows t k : wf t -> Lookup t k = rows t !! k.
Proof. intros [Hs _]. by apply lookupNode_rows. Qed.

Lemma All_sorted t : wf t -> sorted_keys (All t).
Proof. by intros [Hs _]. Qed.

Lemma All_elem t k v : wf t -> (k, v) ∈ All t <-> rows t !! k = Some v.
Proof. intros [Hs _]. symmetry. by apply sorted_lookup. Qed.

Lemma All_perm t : wf t -> All t ≡ₚ map_to_list (rows t).
Proof. intros [Hs _]. symmetry. by apply map_to_list_to_map, sorted_keys_NoDup. Qed.

Lemma Len_rows t : wf t -> Len t = Z.of_nat (size (rows t)).
Proof.
  intros Hw. unfold Len. rewrite nodeSize_walk by apply Hw. unfold len. f_equal.
  rewrite <- length_map_to_list. by rewrite <- All_perm.
Qed.

Lemma rows_inj t1 t2 : wf t1 -> wf t2 -> rows t1 = rows t2 -> t1 = t2.
Proof.
  intros H1 H2 E. destruct t1 as [n1], t2 as [n2]. f_equal. apply wf_node_ext; [done..|].
  apply sorted_ext; [apply H1|apply H2|exact E].
Qed.

Lemma NewRowMap_spec l : NoDup l.*1 -> wf (NewRowMap l) /\ rows (@NewRowMap T l) = list_to_map l.
Proof.
  intros Hn. unfold NewRowMap.
  assert (Hgen : forall t, wf t -> wf (foldl (fun t row => Set_ t row.1 row.2) t l) /\
    rows (foldl (fun t row => Set_ t row.1 row.2) t l) = list_to_map l ∪ rows t).
  { induction l as [|[k v] l IH]; intros t Hw; cbn [foldl].
    - split; [done|]. cbn. by rewrite (left_id_L ∅ (∪)).
    - apply NoDup_cons in Hn as [Hk Hn]. destruct (IH Hn (Set_ t k v) (wf_Set _ _ _ Hw)) as [Hw' Hr]. cbn [fst snd].
      split; [exact Hw'|]. rewrite Hr, rows_Set by done. cbn.
      rewrite <- insert_union_l, insert_union_r; [done|]. by apply not_elem_of_list_to_map_1. }
  destruct (Hgen empty wf_empty) as [H1 H2]. split; [exact H1|]. rewrite H2, rows_empty. apply (right_id_L ∅ (∪)).
Qed.

(** The order in which a Go map is visited does not show in the table. *)
Lemma NewRowMap_order l1 l2 : NoDup l1.*1 -> l1 ≡ₚ l2 -> @NewRowMap T l1 = NewRowMap l2.
Proof.
  intros Hn Hp. assert (Hn2 : NoDup l2.*1) by (by rewrite <- Hp).
  destruct (NewRowMap_spec l1 Hn) as [Hw1 Hr1], (NewRowMap_spec l2 Hn2) as [Hw2 Hr2].
  apply rows_inj; [done..|]. rewrite Hr1, Hr2. by apply list_to_map_proper.
Qed.

(** Histories of edits, on a table and on the map it stands for. *)
Inductive edit := Put (k : string) (v : T) | Remove (k : string).

Definition apply_edit t (e : edit) : RowMap T :=
  match e with Put k v => Set_ t k v | Remove k => Delete t k end.

Definition map_edit (m : gmap string T) (e : edit) : gmap string T :=
  match e with Put k v => <[k := v]> m | Remove k => delete k m end.

Lemma edits_spec es t :
  wf t -> wf (foldl apply_edit t es) /\ rows (foldl apply_edit t es) = foldl map_edit (rows t) es.
Proof.
  revert t. induction es as [|[k v|k] es IH]; intros t Hw; cbn [foldl]; [done|..].
  - cbn [apply_edit map_edit]. rewrite <- rows_Set by done. by apply IH, wf_Set.
  - cbn [apply_edit map_edit]. rewrite <- rows_Delete by done. by apply IH, wf_Delete.
Qed.

(** C29: After any history of [Set] and [Delete], a table behaves as the finite
    map with the same history: [Lookup] and [Len] read that map, and [All]
    yields its rows once each, by ascending key. *)
Theorem table_refines_map es (t := foldl apply_edit empty es) (m := foldl map_edit ∅ es) :
  (forall k, Lookup t k = m !! k) /\ Len t = Z.of_nat (size m) /\
  All t ≡ₚ map_to_list m /\ StronglySorted slt (All t).*1.
Proof.
  destruct (edits_spec es empty wf_empty) as [Hw Hr]. fold t in Hw, Hr. rewrite rows_empty in Hr. fold m in Hr.
  rewrite <- Hr. split; [intros k; by apply Lookup_rows|]. split; [by apply Len_rows|].
  split; [by apply All_perm|by apply All_sorted].
Qed.

(** Two histories of edits that end in the same rows build the same tree,
    node for node, whatever their order and whatever was removed on the way:
    comparing tables structurally compares their rows. *)
Theorem table_is_canonical es1 es2 :
  foldl map_edit ∅ es1 = foldl map_edit ∅ es2 ->
  foldl apply_edit empty es1 = foldl apply_edit empty es2.
Proof.
  intros E. destruct (edits_spec es1 empty wf_empty) as [Hw1 Hr1], (edits_spec es2 empty wf_empty) as [Hw2 Hr2].
  apply rows_inj; [done..|]. by rewrite Hr1, Hr2.
Qed.
End Laws.

Lemma table_is_canonical_witness :
  foldl apply_edit empty [Put "a" 1; Put "b" 2; Put "c" 3; Remove "b"]
  = foldl apply_edit empty [Put "c" 7; Put "a" 1; Put "c" 3].
Proof. apply table_is_canonical. vm_compute. reflexivity. Defined.

Example three_rows :
  All (foldl apply_edit empty [Put "b" 2; Put "c" 3; Put "a" 1]) = [("a", 1); ("b", 2); ("c", 3)].
Proof. vm_compute. reflexivity. Qed.

End RowMap.
