(* ===== verification/Journal.v ===== *)
(** * The journal's durable state

    [internal/controlplane/journal/model.go] and [state.go]: the rows of the
    product, the batch of changes a command makes to them, and how an entry of
    the journal is applied.  [Diff] and [applyBatch] are inverse to each other;
    [Apply] either fails and changes nothing or moves the prefix by one entry
    into a state whose reservations are valid.

    Rows are finite maps, assignments the table of [RowMap.v].  Pointers in rows
    are optional values and [reflect.DeepEqual] is equality; raw JSON is its
    text.  Decoding a payload is [encoding/json]'s, an argument of the model. *)

From S2P Require Import Prelude RowMap.

Module Journal.
Import RowMap.

Abbreviation RawMessage := string (only parsing).

(** ** The rows ([model.go]) *)

Record Project := {
  prj_ID : string; prj_Name : string; prj_Kind : string; prj_SystemKey : option string;
  prj_WorkspaceID : string; prj_CreatedAt : time
}.
#[export] Instance Project_eq_dec : EqDecision Project.
Proof. solve_decision. Defined.

Record BillingRestriction := {
  rst_WorkspaceID : string; rst_AccountID : string; rst_Restricted : bool; rst_GrowthBlocked : bool;
  rst_DryRun : bool; rst_Reason : string; rst_Since : option time; rst_UpdatedAt : time
}.
#[export] Instance BillingRestriction_eq_dec : EqDecision BillingRestriction.
Proof. solve_decision. Defined.

Record ServiceIntent := {
  svc_ID : string; svc_EnvironmentID : string; svc_Name : string; svc_CurrentSpecRevision : Z;
  svc_CurrentRolloutGeneration : Z; svc_CurrentArtifactID : string; svc_CurrentResolvedImage : string;
  svc_LastSuccessfulCommitSHA : string; svc_LatestBuildID : string; svc_DesiredReplicaCount : Z;
  svc_PlacementMessage : string; svc_CreatedAt : time; svc_UpdatedAt : time
}.
#[export] Instance ServiceIntent_eq_dec : EqDecision ServiceIntent.
Proof. solve_decision. Defined.

Definition zero_ServiceIntent : ServiceIntent := Build_ServiceIntent "" "" "" 0 0 "" "" "" "" 0 "" zero_time zero_time.

Record ServiceRevision := {
  rev_ServiceID : string; rev_SpecRevision : Z; rev_SpecJSON : RawMessage; rev_EnvDEKID : string;
  rev_EnvCiphertext : string; rev_CreatedAt : time
}.
#[export] Instance ServiceRevision_eq_dec : EqDecision ServiceRevision.
Proof. solve_decision. Defined.

Record Assignment := {
  asg_ID : string; asg_ServiceID : string; asg_DeploymentID : string; asg_AgentID : string;
  asg_DesiredSpecRevision : Z; asg_DesiredRolloutGeneration : Z; asg_AllocationIPv4 : string;
  asg_AllocationIPv6 : string; asg_OperatorRestartNonce : Z; asg_RolloutState : string; asg_Intent : string;
  asg_IntentMessage : string; asg_DrainStartedAt : option time; asg_DrainDeadline : option time;
  asg_CreatedAt : time; asg_UpdatedAt : time
}.
#[export] Instance Assignment_eq_dec : EqDecision Assignment.
Proof. solve_decision. Defined.

Definition zero_Assignment : Assignment := Build_Assignment "" "" "" "" 0 0 "" "" 0 "" "" "" None None zero_time zero_time.

Record Rollout := {
  rol_ServiceID : string; rol_RolloutGeneration : Z; rol_SpecRevision : Z; rol_Reason : string;
  rol_BuildID : string; rol_RequestedByUserID : string; rol_State : string; rol_StrategyJSON : RawMessage;
  rol_DesiredReplicaCount : Z; rol_ArtifactID : string; rol_ImageDigest : string; rol_FailureReason : string;
  rol_TargetAllocationID : string; rol_Recreate : bool; rol_CompletedAt : option time; rol_ProgressAt : time;
  rol_CreatedAt : time
}.
#[export] Instance Rollout_eq_dec : EqDecision Rollout.
Proof. solve_decision. Defined.

Record Deployment := {
  dep_ID : string; dep_ServiceID : string; dep_SpecRevision : Z; dep_RolloutGeneration : Z;
  dep_SourceRevisionID : string; dep_BuildID : string; dep_ArtifactID : string; dep_ImageDigest : string;
  dep_State : string; dep_CauseKind : string; dep_CauseID : string; dep_ReasonCode : string;
  dep_Detail : string; dep_IsCurrent : bool; dep_RequestedByUserID : string; dep_CreatedAt : time;
  dep_UpdatedAt : time
}.
#[export] Instance Deployment_eq_dec : EqDecision Deployment.
Proof. solve_decision. Defined.

Record AgentRegistration := {
  agt_ID : string; agt_Name : string; agt_LocalStoreID : string; agt_SessionIncarnation : Z;
  agt_Region : string; agt_Zone : string; agt_FailureDomain : string; agt_ReservedCPUMillis : Z;
  agt_ReservedMemoryMebibytes : Z; agt_AdvertiseAddr : string; agt_WorkloadIPv4Subnet : string;
  agt_WorkloadIPv6Subnet : string; agt_WireguardPublicKey : string; agt_WireguardListenPort : Z;
  agt_WireguardEndpoint : string; agt_WireguardIPv6 : string; agt_CPUMillisCapacity : Z;
  agt_MemoryMebibytesCapacity : Z; agt_RuntimeCapabilities : RawMessage; agt_SoftwareVersion : string;
  agt_CreatedAt : time; agt_UpdatedAt : time; agt_DesiredRevision : Z
}.
#[export] Instance AgentRegistration_eq_dec : EqDecision AgentRegistration.
Proof. solve_decision. Defined.

Record AgentAdministration := {
  adm_HostType : string; adm_AgentID : string; adm_LifecycleState : string; adm_OperatorIntent : string;
  adm_MaintenanceMessage : string; adm_CredentialRevokedAt : option time; adm_UpdatedAt : time
}.
#[export] Instance AgentAdministration_eq_dec : EqDecision AgentAdministration.
Proof. solve_decision. Defined.

Record Environment := {
  env_ID : string; env_ProjectID : string; env_Name : string; env_Kind : string; env_IsProduction : bool;
  env_AutoDeploy : bool; env_NetworkIdentity : Z; env_CopiedFromEnvironmentID : option string;
  env_CreatedAt : time; env_UpdatedAt : time
}.
#[export] Instance Environment_eq_dec : EqDecision Environment.
Proof. solve_decision. Defined.

Definition zero_Environment : Environment := Build_Environment "" "" "" "" false false 0 None zero_time zero_time.

Record Volume := {
  vol_ID : string; vol_EnvironmentID : string; vol_Name : string; vol_SizeBytes : Z; vol_AgentID : string;
  vol_CreatedAt : time
}.
#[export] Instance Volume_eq_dec : EqDecision Volume.
Proof. solve_decision. Defined.

Definition zero_Volume : Volume := Build_Volume "" "" "" 0 "" zero_time.

Record VolumeDestruction := {
  des_VolumeID : string; des_AgentID : string; des_RequestedAt : time
}.
#[export] Instance VolumeDestruction_eq_dec : EqDecision VolumeDestruction.
Proof. solve_decision. Defined.

Definition zero_VolumeDestruction : VolumeDestruction := Build_VolumeDestruction "" "" zero_time.

Record Domain := {
  dom_Hostname : string; dom_ServiceID : string; dom_TargetPort : Z; dom_PlatformGenerated : bool;
  dom_CreatedAt : time; dom_UpdatedAt : time
}.
#[export] Instance Domain_eq_dec : EqDecision Domain.
Proof. solve_decision. Defined.

Definition zero_Domain : Domain := Build_Domain "" "" 0 false zero_time zero_time.

Record DurableState := {
  Projects : gmap string Project; ClusterID : string; LogIndex : Z; Services : gmap string ServiceIntent;
  Revisions : gmap string ServiceRevision; Assignments : RowMap Assignment; Rollouts : gmap string Rollout;
  Deployments : gmap string Deployment; Agents : gmap string AgentRegistration;
  Administration : gmap string AgentAdministration; Environments : gmap string Environment;
  Volumes : gmap string Volume; Destructions : gmap string VolumeDestruction; Domains : gmap string Domain;
  Restrictions : gmap string BillingRestriction
}.

#[export] Instance DurableState_eta : Eta DurableState := fun s =>
  Build_DurableState (Projects s) (ClusterID s) (LogIndex s) (Services s) (Revisions s) (Assignments s)
    (Rollouts s) (Deployments s) (Agents s) (Administration s) (Environments s) (Volumes s) (Destructions s)
    (Domains s) (Restrictions s).

(** [DurableState{ClusterID: cluster}]. *)
Definition empty_state (cluster : string) : DurableState :=
  Build_DurableState ∅ cluster 0 ∅ ∅ empty ∅ ∅ ∅ ∅ ∅ ∅ ∅ ∅ ∅.

(** A change with no value deletes the row. *)
Record Change (T : Type) := { Key : string; Value : option T }.
Arguments Build_Change {T} _ _.
Arguments Key {T} _.
Arguments Value {T} _.

#[export] Instance Change_eq_dec {T} `{!EqDecision T} : EqDecision (Change T).
Proof. solve_decision. Defined.

Record Batch := {
  b_Projects : list (Change Project); b_BaseIndex : Z; b_Services : list (Change ServiceIntent);
  b_Revisions : list (Change ServiceRevision); b_Assignments : list (Change Assignment);
  b_Rollouts : list (Change Rollout); b_Deployments : list (Change Deployment);
  b_Agents : list (Change AgentRegistration); b_Administration : list (Change AgentAdministration);
  b_Environments : list (Change Environment); b_Volumes : list (Change Volume);
  b_Destructions : list (Change VolumeDestruction); b_Domains : list (Change Domain);
  b_Restrictions : list (Change BillingRestriction)
}.

#[export] Instance Batch_eta : Eta Batch := fun b =>
  Build_Batch (b_Projects b) (b_BaseIndex b) (b_Services b) (b_Revisions b) (b_Assignments b) (b_Rollouts b)
    (b_Deployments b) (b_Agents b) (b_Administration b) (b_Environments b) (b_Volumes b) (b_Destructions b)
    (b_Domains b) (b_Restrictions b).

(** ** Entries and errors ([state.go]) *)

Definition CommandVersion : Z := 1.
Definition CommandType : string := "durable_batch".

(** How [encoding/json] reads and writes the payload of an entry: [Decode]
    stands for [json.Compact] and a strict [Decoder] that must reach the end of
    the text. *)
Class PayloadCodec := {
  payload : Type;
  Decode : payload -> result string Batch;
  Marshal : Batch -> result string payload
}.

Inductive error : Type :=
| PrefixMismatch (cluster : string) (index : Z)
| UnsupportedCommand (type : string) (version : Z)
| BadPayload (message : string)
| StalePrecondition (base index : Z)
| BadKey (key : string)
| OwnerChange (key : string)
| IncompleteAssignment (id : string)
| NoAgent (id : string)
| NoService (id : string)
| NoDeployment (id : string)
| AddressTaken (address owner id : string).

Section Apply.
Context {codec : PayloadCodec}.

Record Entry := {
  e_ClusterID : string; e_LogIndex : Z; e_CommandID : string; e_CommandVersion : Z; e_CommandType : string;
  e_Payload : payload; e_AuthorizingEpoch : option Z; e_CreatedAt : time
}.

(** The loop of [applyChanges] and of [applyRowChanges], over the operations of
    the table it edits. *)
Fixpoint apply_loop {M T} (put : M -> string -> T -> M) (del : M -> string -> M) (next : M) (seen : list string)
    (cs : list (Change T)) : result error M :=
  match cs with
  | [] => Ok next
  | c :: cs =>
      if str_eqb (Key c) "" || bool_decide (Key c ∈ seen) then Err (BadKey (Key c))
      else
        let next := match Value c with None => del next (Key c) | Some v => put next (Key c) v end in
        apply_loop put del next (Key c :: seen) cs
  end.

Definition applyChanges {T} (previous : gmap string T) (cs : list (Change T)) : result error (gmap string T) :=
  apply_loop (fun m k v => <[k := v]> m) (fun m k => delete k m) previous [] cs.

Definition applyRowChanges {T} (previous : RowMap T) (cs : list (Change T)) : result error (RowMap T) :=
  apply_loop Set_ Delete previous [] cs.

Definition change_leb {T} (a b : Change T) : bool := String.leb (Key a) (Key b).

(** The changes between two tables, given by their rows, sorted by key. *)
Definition row_changes {T} `{!EqDecision T} (before after : list (string * T))
    (lookup_before lookup_after : string -> option T) : list (Change T) :=
  isort change_leb
    (omap (fun row => if bool_decide (lookup_before row.1 = Some row.2) then None
                      else Some (Build_Change row.1 (Some row.2))) after
     ++ omap (fun row => match lookup_after row.1 with
                         | Some _ => None
                         | None => Some (Build_Change row.1 None)
                         end) before).

Definition changes {T} `{!EqDecision T} (before after : gmap string T) : list (Change T) :=
  row_changes (map_to_list before) (map_to_list after) (fun k => before !! k) (fun k => after !! k).

Definition tableChanges {T} `{!EqDecision T} (before after : RowMap T) : list (Change T) :=
  row_changes (All before) (All after) (Lookup before) (Lookup after).

Definition Diff (before after : DurableState) : Batch := {|
  b_BaseIndex := LogIndex before;
  b_Projects := changes (Projects before) (Projects after);
  b_Services := changes (Services before) (Services after);
  b_Revisions := changes (Revisions before) (Revisions after);
  b_Assignments := tableChanges (Assignments before) (Assignments after);
  b_Rollouts := changes (Rollouts before) (Rollouts after);
  b_Deployments := changes (Deployments before) (Deployments after);
  b_Agents := changes (Agents before) (Agents after);
  b_Administration := changes (Administration before) (Administration after);
  b_Environments := changes (Environments before) (Environments after);
  b_Volumes := changes (Volumes before) (Volumes after);
  b_Destructions := changes (Destructions before) (Destructions after);
  b_Domains := changes (Domains before) (Domains after);
  b_Restrictions := changes (Restrictions before) (Restrictions after)
|}.

Definition no_changes {T} (cs : list (Change T)) : bool := match cs with [] => true | _ => false end.

Definition Empty (b : Batch) : bool :=
  no_changes (b_Projects b) && no_changes (b_Services b) && no_changes (b_Revisions b) &&
  no_changes (b_Assignments b) && no_changes (b_Rollouts b) && no_changes (b_Deployments b) &&
  no_changes (b_Agents b) && no_changes (b_Administration b) && no_changes (b_Environments b) &&
  no_changes (b_Volumes b) && no_changes (b_Destructions b) && no_changes (b_Domains b) &&
  no_changes (b_Restrictions b).

Definition requiresAuthority (b : Batch) : bool :=
  negb (no_changes (b_Assignments b)) || negb (no_changes (b_Rollouts b)) ||
  existsb (fun c : Change Deployment =>
             match Value c with Some d => negb (str_eqb (dep_State d) "staged") | None => false end) (b_Deployments b).

(** [if len(changes) > 0 { next.Table, err = applyChanges(...) }] *)
Definition when_changed {T M} (cs : list (Change T)) (previous : M) (apply : M -> list (Change T) -> result error M)
    : result error M :=
  if no_changes cs then Ok previous else apply previous cs.

Definition owner_changed (s : DurableState) (c : Change Assignment) : bool :=
  match Lookup (Assignments s) (Key c), Value c with
  | Some before, Some value =>
      negb (str_eqb (asg_AgentID before) (asg_AgentID value)) ||
      negb (str_eqb (asg_ServiceID before) (asg_ServiceID value))
  | _, _ => false
  end.

Definition applyBatch (s : DurableState) (b : Batch) : result error DurableState :=
  match List.find (owner_changed s) (b_Assignments b) with
  | Some c => Err (OwnerChange (Key c))
  | None =>
      projects ← when_changed (b_Projects b) (Projects s) applyChanges;
      services ← when_changed (b_Services b) (Services s) applyChanges;
      revisions ← when_changed (b_Revisions b) (Revisions s) applyChanges;
      assignments ← when_changed (b_Assignments b) (Assignments s) applyRowChanges;
      rollouts ← when_changed (b_Rollouts b) (Rollouts s) applyChanges;
      deployments ← when_changed (b_Deployments b) (Deployments s) applyChanges;
      agents ← when_changed (b_Agents b) (Agents s) applyChanges;
      administration ← when_changed (b_Administration b) (Administration s) applyChanges;
      environments ← when_changed (b_Environments b) (Environments s) applyChanges;
      volumes ← when_changed (b_Volumes b) (Volumes s) applyChanges;
      destructions ← when_changed (b_Destructions b) (Destructions s) applyChanges;
      domains ← when_changed (b_Domains b) (Domains s) applyChanges;
      restrictions ← when_changed (b_Restrictions b) (Restrictions s) applyChanges;
      Ok (Build_DurableState projects (ClusterID s) (LogIndex s) services revisions assignments rollouts deployments
            agents administration environments volumes destructions domains restrictions)
  end.

Definition applyEntry (s : DurableState) (entry : Entry) : result error (DurableState * Batch) :=
  _ ← guard_err (negb (str_eqb (e_ClusterID entry) (ClusterID s)) || negb (e_LogIndex entry =? LogIndex s + 1))
        (PrefixMismatch (e_ClusterID entry) (e_LogIndex entry));
  _ ← guard_err (str_eqb (e_CommandID entry) "" || negb (e_CommandVersion entry =? CommandVersion) ||
                 negb (str_eqb (e_CommandType entry) CommandType))
        (UnsupportedCommand (e_CommandType entry) (e_CommandVersion entry));
  batch ← (match Decode (e_Payload entry) with Ok b => Ok b | Err m => Err (BadPayload m) end);
  _ ← guard_err (negb (b_BaseIndex batch =? LogIndex s)) (StalePrecondition (b_BaseIndex batch) (LogIndex s));
  next ← applyBatch s batch;
  Ok (next <| LogIndex := e_LogIndex entry |>, batch).

Definition validateAssignment (s : DurableState) (id : string) (a : Assignment) : result error unit :=
  _ ← guard_err (negb (str_eqb (asg_ID a) id) || str_eqb (asg_AgentID a) "" || str_eqb (asg_ServiceID a) "" ||
                 str_eqb (asg_DeploymentID a) "") (IncompleteAssignment id);
  _ ← guard_err (bool_decide (Agents s !! asg_AgentID a = None)) (NoAgent id);
  _ ← guard_err (bool_decide (Services s !! asg_ServiceID a = None)) (NoService id);
  guard_err (bool_decide (Deployments s !! asg_DeploymentID a = None)) (NoDeployment id).

(** The addresses an assignment reserves: the inner loop skips empty ones. *)
Definition reserved (a : Assignment) : list string :=
  filter (fun address => address <> "") [asg_AllocationIPv4 a; asg_AllocationIPv6 a].

Fixpoint reserve_all (id : string) (addresses : gmap string string) (l : list string) : result error (gmap string string) :=
  match l with
  | [] => Ok addresses
  | address :: l =>
      match addresses !! address with
      | Some owner => Err (AddressTaken address owner id)
      | None => reserve_all id (<[address := id]> addresses) l
      end
  end.

Fixpoint validate_loop (s : DurableState) (addresses : gmap string string) (l : list (string * Assignment))
    : result error unit :=
  match l with
  | [] => Ok tt
  | (id, a) :: l =>
      _ ← validateAssignment s id a;
      addresses ← reserve_all id addresses (reserved a);
      validate_loop s addresses l
  end.

Definition validateReservations (s : DurableState) : result error unit :=
  validate_loop s ∅ (All (Assignments s)).

(** [Apply]: the state afterwards, and the error if there is one. *)
Definition Apply (s : DurableState) (entry : Entry) : DurableState * option error :=
  match (p ← applyEntry s entry; _ ← validateReservations p.1; Ok p.1) with
  | Ok next => (next, None)
  | Err e => (s, Some e)
  end.
End Apply.

(** ** Changes and their application *)

Section ChangeLemmas.
Context {T : Type}.
Implicit Types (cs : list (Change T)) (m : gmap string T).

Definition keys_ok cs : Prop := (forall c, c ∈ cs -> Key c <> "") /\ NoDup (map Key cs).

Definition map_loop := apply_loop (M := gmap string T) (T := T) (fun m k v => <[k := v]> m) (fun m k => delete k m).

Definition apply_change m (c : Change T) : gmap string T :=
  match Value c with None => delete (Key c) m | Some v => <[Key c := v]> m end.

Lemma apply_change_eq m c : apply_change m c !! Key c = Value c.
Proof. unfold apply_change. destruct (Value c); [apply lookup_insert_eq|apply lookup_delete_eq]. Qed.

Lemma apply_change_ne m c k : k <> Key c -> apply_change m c !! k = m !! k.
Proof.
  unfold apply_change. intros Hne. destruct (Value c); [by apply lookup_insert_ne|by apply lookup_delete_ne].
Qed.

Lemma map_loop_ok cs m seen m' :
  map_loop m seen cs = Ok m' <->
  keys_ok cs /\ (forall c, c ∈ cs -> Key c ∉ seen) /\ m' = foldl apply_change m cs.
Proof.
  unfold map_loop, keys_ok. revert m seen. induction cs as [|c cs IH]; intros m seen; cbn [apply_loop map foldl].
  - split; [intros [=->]|intros (_ & _ & ->); done]. repeat split; [set_solver|constructor|set_solver].
  - destruct (str_eqb (Key c) "" || bool_decide (Key c ∈ seen)) eqn:E.
    + split; [done|]. intros ((Hk & _) & Hs & _). apply orb_true_iff in E as [E|E].
      * apply str_eqb_eq in E. destruct (Hk c); [set_solver|done].
      * apply bool_decide_eq_true in E. destruct (Hs c); [set_solver|done].
    + apply orb_false_iff in E as [E1 E2]. apply str_eqb_neq in E1. apply bool_decide_eq_false in E2.
      fold (apply_change m c). rewrite IH, NoDup_cons. split.
      * intros ((Hk & Hn) & Hs & ->). repeat split; [| |done|].
        -- intros c' Hc'. apply elem_of_cons in Hc' as [->|]; auto.
        -- intros (c' & E & Hc')%list_elem_of_fmap. destruct (Hs c' Hc'). rewrite E. set_solver.
        -- intros c' Hc'. apply elem_of_cons in Hc' as [->|Hc']; [done|]. specialize (Hs c' Hc'). set_solver.
      * intros ((Hk & Hc & Hn) & Hs & ->). repeat split; [set_solver|done|].
        intros c' Hc' Hin. apply elem_of_cons in Hin as [E|Hin].
        -- destruct Hc. rewrite <- E. by apply list_elem_of_fmap_2.
        -- apply (Hs c'); set_solver.
Qed.

Lemma foldl_apply_other cs m k : k ∉ map Key cs -> foldl apply_change m cs !! k = m !! k.
Proof.
  revert m. induction cs as [|c cs IH]; intros m Hk; [done|]. cbn in *.
  rewrite IH by set_solver. apply apply_change_ne. set_solver.
Qed.

Lemma foldl_apply_changed cs m c : NoDup (map Key cs) -> c ∈ cs -> foldl apply_change m cs !! Key c = Value c.
Proof.
  revert m. induction cs as [|c' cs IH]; intros m Hn Hc; [set_solver|]. cbn in *.
  apply NoDup_cons in Hn as [Hk Hn]. apply elem_of_cons in Hc as [->|Hc]; [|auto].
  rewrite foldl_apply_other by done. apply apply_change_eq.
Qed.

Lemma applyChanges_ok m cs m' : applyChanges m cs = Ok m' <-> keys_ok cs /\ m' = foldl apply_change m cs.
Proof. unfold applyChanges. rewrite (map_loop_ok cs m [] m'). set_solver. Qed.

(** Editing a table follows editing the map it stands for. *)
Lemma row_loop_refines (t : RowMap T) seen cs :
  wf t ->
  match apply_loop Set_ Delete t seen cs, map_loop (rows t) seen cs with
  | Ok t', Ok m' => wf t' /\ rows t' = m'
  | Err e, Err e' => e = e'
  | _, _ => False
  end.
Proof.
  unfold map_loop. revert t seen. induction cs as [|c cs IH]; intros t seen Hw; cbn [apply_loop]; [done|].
  destruct (_ || _); [done|]. destruct (Value c) as [v|].
  - rewrite <- rows_Set by done. by apply IH, wf_Set.
  - rewrite <- rows_Delete by done. by apply IH, wf_Delete.
Qed.

Lemma applyRowChanges_ok (t t' : RowMap T) cs :
  wf t -> applyRowChanges t cs = Ok t' <-> keys_ok cs /\ wf t' /\ rows t' = foldl apply_change (rows t) cs.
Proof.
  intros Hw. pose proof (row_loop_refines t [] cs Hw) as Hr. unfold applyRowChanges.
  pose proof (map_loop_ok cs (rows t) []) as Hm.
  destruct (apply_loop Set_ Delete t [] cs) as [t1|e], (map_loop (rows t) [] cs) as [m1|e']; try done.
  - destruct Hr as [Hw1 <-]. destruct (proj1 (Hm (rows t1)) eq_refl) as (Hk & _ & E). split.
    + intros [=<-]. done.
    + intros (_ & Hw' & E'). f_equal. apply rows_inj; [done..|congruence].
  - split; [done|]. intros (Hk & _ & _). specialize (Hm (foldl apply_change (rows t) cs)).
    destruct Hm as [_ Hm]. by assert (Err e' = Ok (foldl apply_change (rows t) cs)) by (apply Hm; set_solver).
Qed.

Context `{!EqDecision T}.

Lemma omap_keys_sublist {A B} (key : A -> string) (key' : B -> string) (f : A -> option B) (l : list A) :
  (forall a b, f a = Some b -> key' b = key a) -> map key' (omap f l) `sublist_of` map key l.
Proof.
  intros Hf. induction l as [|a l IH]; cbn; [done|]. destruct (f a) as [b|] eqn:E; cbn.
  - rewrite (Hf _ _ E). by constructor.
  - by constructor.
Qed.

Section RowChanges.
Variables (before after : list (string * T)) (lb la : string -> option T).
Hypothesis Hb : NoDup before.*1.
Hypothesis Ha : NoDup after.*1.
Hypothesis Hlb : forall k v, (k, v) ∈ before <-> lb k = Some v.
Hypothesis Hla : forall k v, (k, v) ∈ after <-> la k = Some v.

Lemma row_changes_elem c :
  c ∈ row_changes before after lb la <-> Value c = la (Key c) /\ lb (Key c) <> la (Key c).
Proof using Hlb Hla.
  unfold row_changes. rewrite isort_elem, elem_of_app, !list_elem_of_omap. split.
  - intros [([k v] & Hin & E)|([k v] & Hin & E)]; cbn in E.
    + case_bool_decide as Hd; simplify_eq. cbn. apply Hla in Hin. by rewrite Hin.
    + destruct (la k) eqn:El; simplify_eq. cbn. apply Hlb in Hin. by rewrite El, Hin.
  - destruct c as [k [v|]]; cbn; intros [E Hne].
    + left. exists (k, v). split; [by apply Hla|]. cbn. rewrite bool_decide_eq_false_2; [done|]. congruence.
    + right. destruct (lb k) as [v|] eqn:El; [|congruence]. exists (k, v). split; [by apply Hlb|].
      cbn. by rewrite <- E.
Qed.

Lemma row_changes_NoDup : NoDup (map Key (row_changes before after lb la)).
Proof using Hb Ha Hlb Hla.
  unfold row_changes. rewrite isort_perm, map_app. apply NoDup_app. split; [|split].
  - eapply sublist_NoDup; [exact Ha|]. apply (omap_keys_sublist fst). intros [k v] b. cbn. case_bool_decide; naive_solver.
  - intros k. rewrite !list_elem_of_fmap. intros (c & -> & Hc) (c' & E & Hc').
    apply list_elem_of_omap in Hc as ([k1 v1] & Hin1 & E1), Hc' as ([k2 v2] & Hin2 & E2). cbn in E1, E2.
    apply Hla in Hin1. case_bool_decide; simplify_eq. destruct (la k2) eqn:El; simplify_eq. cbn in E. congruence.
  - eapply sublist_NoDup; [exact Hb|]. apply (omap_keys_sublist fst). intros [k v] b. cbn. destruct (la k); naive_solver.
Qed.
End RowChanges.

Lemma changes_elem (before after : gmap string T) c :
  c ∈ changes before after <-> Value c = after !! Key c /\ before !! Key c <> after !! Key c.
Proof. apply row_changes_elem; intros; apply elem_of_map_to_list. Qed.

Lemma changes_NoDup (before after : gmap string T) : NoDup (map Key (changes before after)).
Proof. apply row_changes_NoDup; try apply NoDup_fst_map_to_list; intros; apply elem_of_map_to_list. Qed.

Lemma tableChanges_elem (before after : RowMap T) c : wf before -> wf after ->
  c ∈ tableChanges before after <-> Value c = rows after !! Key c /\ rows before !! Key c <> rows after !! Key c.
Proof.
  intros H1 H2. rewrite <- !Lookup_rows by done. apply row_changes_elem; intros; rewrite Lookup_rows by done; by apply All_elem.
Qed.

Lemma tableChanges_NoDup (before after : RowMap T) : wf before -> wf after ->
  NoDup (map Key (tableChanges before after)).
Proof.
  intros H1 H2. apply row_changes_NoDup; try (by apply sorted_keys_NoDup, All_sorted);
  intros; rewrite Lookup_rows by done; by apply All_elem.
Qed.

(** Any list of exactly the differing keys takes one map to the other. *)
Lemma changes_take (before after : gmap string T) cs :
  NoDup (map Key cs) -> (forall c, c ∈ cs <-> Value c = after !! Key c /\ before !! Key c <> after !! Key c) ->
  foldl apply_change before cs = after.
Proof.
  intros Hn Hc. apply map_eq. intros k. destruct (decide (before !! k = after !! k)) as [E|E].
  - rewrite foldl_apply_other; [done|]. intros (c & -> & Hin)%list_elem_of_fmap. by apply Hc in Hin as [_ ?].
  - set (c := Build_Change k (after !! k)). change k with (Key c). rewrite foldl_apply_changed; [done|done|]. by apply Hc.
Qed.
End ChangeLemmas.

(** ** Well-formed states and batches *)

(** Rows have non-empty keys and the assignments are a well-formed table. *)
Record state_ok (s : DurableState) : Prop := {
  ok_Projects : Projects s !! "" = None;
  ok_Services : Services s !! "" = None;
  ok_Revisions : Revisions s !! "" = None;
  ok_Rollouts : Rollouts s !! "" = None;
  ok_Deployments : Deployments s !! "" = None;
  ok_Agents : Agents s !! "" = None;
  ok_Administration : Administration s !! "" = None;
  ok_Environments : Environments s !! "" = None;
  ok_Volumes : Volumes s !! "" = None;
  ok_Destructions : Destructions s !! "" = None;
  ok_Domains : Domains s !! "" = None;
  ok_Restrictions : Restrictions s !! "" = None;
  ok_Assignments : rows (Assignments s) !! "" = None;
  ok_table : wf (Assignments s)
}.

(** What [applyBatch] does to each table when it succeeds, whatever the index. *)
Record applied (s : DurableState) (b : Batch) (s' : DurableState) : Prop := {
  ap_Projects : keys_ok (b_Projects b) /\ Projects s' = foldl apply_change (Projects s) (b_Projects b);
  ap_Services : keys_ok (b_Services b) /\ Services s' = foldl apply_change (Services s) (b_Services b);
  ap_Revisions : keys_ok (b_Revisions b) /\ Revisions s' = foldl apply_change (Revisions s) (b_Revisions b);
  ap_Rollouts : keys_ok (b_Rollouts b) /\ Rollouts s' = foldl apply_change (Rollouts s) (b_Rollouts b);
  ap_Deployments : keys_ok (b_Deployments b) /\ Deployments s' = foldl apply_change (Deployments s) (b_Deployments b);
  ap_Agents : keys_ok (b_Agents b) /\ Agents s' = foldl apply_change (Agents s) (b_Agents b);
  ap_Administration : keys_ok (b_Administration b) /\ Administration s' = foldl apply_change (Administration s) (b_Administration b);
  ap_Environments : keys_ok (b_Environments b) /\ Environments s' = foldl apply_change (Environments s) (b_Environments b);
  ap_Volumes : keys_ok (b_Volumes b) /\ Volumes s' = foldl apply_change (Volumes s) (b_Volumes b);
  ap_Destructions : keys_ok (b_Destructions b) /\ Destructions s' = foldl apply_change (Destructions s) (b_Destructions b);
  ap_Domains : keys_ok (b_Domains b) /\ Domains s' = foldl apply_change (Domains s) (b_Domains b);
  ap_Restrictions : keys_ok (b_Restrictions b) /\ Restrictions s' = foldl apply_change (Restrictions s) (b_Restrictions b);
  ap_Assignments : keys_ok (b_Assignments b) /\ wf (Assignments s') /\
    rows (Assignments s') = foldl apply_change (rows (Assignments s)) (b_Assignments b);
  ap_owners : forall c, c ∈ b_Assignments b -> owner_changed s c = false;
  ap_ClusterID : ClusterID s' = ClusterID s
}.

Lemma when_changed_ok {T} (m : gmap string T) cs m' :
  when_changed cs m applyChanges = Ok m' <-> keys_ok cs /\ m' = foldl apply_change m cs.
Proof.
  unfold when_changed. destruct cs as [|c cs]; cbn [no_changes]; [|apply applyChanges_ok].
  unfold keys_ok. cbn. split; [intros [=->]|intros [_ ->]; done]. repeat split; [set_solver|constructor].
Qed.

Lemma when_row_changed_ok {T} (t : RowMap T) cs t' : wf t ->
  when_changed cs t applyRowChanges = Ok t' <-> keys_ok cs /\ wf t' /\ rows t' = foldl apply_change (rows t) cs.
Proof.
  intros Hw. unfold when_changed. destruct cs as [|c cs]; cbn [no_changes]; [|by apply applyRowChanges_ok].
  unfold keys_ok. cbn. split.
  - intros [=->]. repeat split; [set_solver|constructor|apply Hw..].
  - intros (_ & Hw' & E). f_equal. by apply rows_inj.
Qed.

Lemma find_none_forall {A} (f : A -> bool) l : List.find f l = None <-> forall x, x ∈ l -> f x = false.
Proof.
  split.
  - intros H x Hx. apply (List.find_none _ _ H). by apply list_elem_of_In.
  - intros H. destruct (List.find f l) eqn:E; [|done]. apply List.find_some in E as [Hin E].
    apply list_elem_of_In in Hin. by rewrite H in E.
Qed.

Lemma applyBatch_ok s b s' : wf (Assignments s) -> applyBatch s b = Ok s' <-> applied s b s' /\ LogIndex s' = LogIndex s.
Proof.
  intros Hw. unfold applyBatch. destruct (List.find (owner_changed s) (b_Assignments b)) as [c|] eqn:E.
  - split; [done|]. intros [H _]. apply List.find_some in E as [Hin E]. apply list_elem_of_In in Hin.
    by rewrite (ap_owners _ _ _ H) in E.
  - rewrite find_none_forall in E. repeat setoid_rewrite bind_ok. setoid_rewrite when_changed_ok.
    setoid_rewrite (when_row_changed_ok _ _ _ Hw). split.
    + intros H. repeat (destruct H as (? & ? & H)). injection H as <-. split; [by split|done].
    + intros [H HL]. destruct s', H; cbn in *; subst. repeat (eexists; split; [eassumption|]). done.
Qed.

Lemma foldl_apply_keyed {T} (m : gmap string T) cs : keys_ok cs -> m !! "" = None -> foldl apply_change m cs !! "" = None.
Proof.
  intros [Hk _] Hm. rewrite foldl_apply_other; [done|]. intros (c & E & Hc)%list_elem_of_fmap. by apply (Hk c).
Qed.

Lemma applied_state_ok s b s' : state_ok s -> applied s b s' -> state_ok s'.
Proof.
  intros [] []; split; repeat match goal with H : _ /\ _ |- _ => destruct H end;
    try done; match goal with E : ?x = foldl _ _ _ |- ?x !! _ = _ => rewrite E end; by apply foldl_apply_keyed.
Qed.

(** The owner of a row that both states have. *)
Definition same_owners (before after : DurableState) : Prop :=
  forall id x y, rows (Assignments before) !! id = Some x -> rows (Assignments after) !! id = Some y ->
    asg_AgentID x = asg_AgentID y /\ asg_ServiceID x = asg_ServiceID y.

Lemma owner_changed_false s c : wf (Assignments s) ->
  owner_changed s c = false <->
  forall x y, rows (Assignments s) !! Key c = Some x -> Value c = Some y ->
    asg_AgentID x = asg_AgentID y /\ asg_ServiceID x = asg_ServiceID y.
Proof.
  intros Hw. unfold owner_changed. rewrite Lookup_rows by done.
  destruct (rows (Assignments s) !! Key c) as [x|], (Value c) as [y|]; try (split; [congruence|done]).
  rewrite orb_false_iff, !negb_false_iff, !str_eqb_eq. naive_solver.
Qed.

Lemma keys_ok_changes {T} `{!EqDecision T} (before after : gmap string T) :
  before !! "" = None -> after !! "" = None -> keys_ok (changes before after).
Proof.
  intros Hb Ha. split; [|apply changes_NoDup]. intros c [_ Hne]%changes_elem E. rewrite E in Hne. congruence.
Qed.

Lemma diff_table {T} `{!EqDecision T} (before after : gmap string T) :
  before !! "" = None -> after !! "" = None ->
  keys_ok (changes before after) /\ after = foldl apply_change before (changes before after).
Proof.
  intros Hb Ha. split; [by apply keys_ok_changes|]. symmetry. apply changes_take; [apply changes_NoDup|apply changes_elem].
Qed.

Lemma diff_applied a b :
  state_ok a -> state_ok b -> same_owners a b ->
  applied a (Diff a b) (b <| ClusterID := ClusterID a |> <| LogIndex := LogIndex a |>).
Proof.
  intros [] [] Ho. split; cbn; try by apply diff_table.
  - repeat split; [|by apply tableChanges_NoDup|apply ok_table1..|].
    + intros c Hc E. apply tableChanges_elem in Hc as [_ Hc]; [|done..]. rewrite E in Hc. congruence.
    + symmetry. apply changes_take; [by apply tableChanges_NoDup|]. intros c. by apply tableChanges_elem.
  - intros c [Hv _]%tableChanges_elem; [|done..]. apply owner_changed_false; [done|]. intros x y Hx Hy.
    apply (Ho (Key c)); congruence.
  - done.
Qed.

(** No change of the difference moves an assignment: no owner changed. *)
Lemma diff_same_owners a b : state_ok a -> state_ok b ->
  (forall c, c ∈ b_Assignments (Diff a b) -> owner_changed a c = false) -> same_owners a b.
Proof.
  intros Ha Hb Hown id x y Hx Hy. destruct (decide (x = y)) as [->|Hne]; [done|].
  assert (Hin : Build_Change id (Some y) ∈ tableChanges (Assignments a) (Assignments b)).
  { apply tableChanges_elem; [apply Ha|apply Hb|]. cbn. rewrite Hx, Hy. split; [done|congruence]. }
  apply Hown in Hin. rewrite owner_changed_false in Hin by apply Ha. by apply (Hin x y).
Qed.

(** An assignment that is on another agent, or of another service, in the
    second state. *)
Definition moved (a b : DurableState) (id : string) : Prop :=
  exists x y, rows (Assignments a) !! id = Some x /\ rows (Assignments b) !! id = Some y /\
    (asg_AgentID x <> asg_AgentID y \/ asg_ServiceID x <> asg_ServiceID y).

Lemma owner_changed_true a b c : state_ok a -> state_ok b -> c ∈ b_Assignments (Diff a b) ->
  owner_changed a c = true -> moved a b (Key c).
Proof.
  intros Ha Hb Hc Ho. apply tableChanges_elem in Hc as [Hv _]; [|apply Ha|apply Hb].
  unfold owner_changed in Ho. rewrite Lookup_rows in Ho by apply Ha.
  destruct (rows (Assignments a) !! Key c) as [x|] eqn:Ex, (Value c) as [y|]; try done. exists x, y.
  split; [done|]. split; [done|]. rewrite orb_true_iff, !negb_true_iff, !str_eqb_neq in Ho. done.
Qed.

(** C24: Take two states whose tables are well formed (no empty key).  The
    difference of the two states names the prefix of the first, and either no
    assignment that both states hold changes its agent or its service, and
    applying the difference to the first state gives the second one, on every
    table; or some assignment does, and [applyBatch] refuses the difference,
    naming such an assignment. *)
Theorem diff_roundtrip a b :
  state_ok a -> state_ok b ->
  b_BaseIndex (Diff a b) = LogIndex a /\
  ((same_owners a b /\ applyBatch a (Diff a b) = Ok (b <| ClusterID := ClusterID a |> <| LogIndex := LogIndex a |>)) \/
   exists id, moved a b id /\ applyBatch a (Diff a b) = Err (OwnerChange id)).
Proof.
  intros Ha Hb. split; [done|].
  destruct (List.find (owner_changed a) (b_Assignments (Diff a b))) as [c|] eqn:E.
  - right. exists (Key c). pose proof E as [Hin Ho]%find_some. apply list_elem_of_In in Hin.
    split; [by eapply owner_changed_true|]. unfold applyBatch. by rewrite E.
  - left. assert (Ho : same_owners a b).
    { apply diff_same_owners; [done..|]. intros c Hc. apply (find_none _ _ E). by apply list_elem_of_In. }
    split; [done|]. apply applyBatch_ok; [apply Ha|]. split; [by apply diff_applied|done].
Qed.

(** ** Reservations *)

Definition valid_assignment (s : DurableState) (id : string) (a : Assignment) : Prop :=
  asg_ID a = id /\ asg_AgentID a <> "" /\ asg_ServiceID a <> "" /\ asg_DeploymentID a <> "" /\
  is_Some (Agents s !! asg_AgentID a) /\ is_Some (Services s !! asg_ServiceID a) /\
  is_Some (Deployments s !! asg_DeploymentID a).

Lemma validateAssignment_ok s id a : validateAssignment s id a = Ok tt <-> valid_assignment s id a.
Proof.
  unfold validateAssignment, valid_assignment. rewrite bind_ok. setoid_rewrite bind_ok. setoid_rewrite bind_ok.
  rewrite <- !not_eq_None_Some. split.
  - intros ([] & H1 & [] & H2 & [] & H3 & H4). apply guard_err_ok in H1, H2, H3, H4.
    apply bool_decide_eq_false in H2, H3, H4. bool_to_prop. by repeat split.
  - intros (H1 & H2 & H3 & H4 & H5 & H6 & H7). apply str_eqb_eq in H1. apply str_eqb_neq in H2, H3, H4.
    rewrite H1, H2, H3, H4. exists tt. split; [done|]. rewrite !bool_decide_eq_false_2 by done.
    exists tt. split; [done|]. exists tt. split; done.
Qed.

(** All the addresses the assignments reserve, in key order. *)
Definition reservations (l : list (string * Assignment)) : list string := flat_map (fun row => reserved row.2) l.

Lemma reserve_all_ok id addresses l addresses' :
  reserve_all id addresses l = Ok addresses' <->
  NoDup l /\ (forall x, x ∈ l -> addresses !! x = None) /\
  addresses' = foldl (fun m x => <[x := id]> m) addresses l.
Proof.
  revert addresses. induction l as [|x l IH]; intros addresses; cbn [reserve_all foldl].
  - split; [intros [=->]; repeat split; [constructor|set_solver]|naive_solver].
  - destruct (addresses !! x) as [o|] eqn:E.
    + split; [done|]. intros (_ & H & _). by rewrite H in E by set_solver.
    + rewrite IH, NoDup_cons. split.
      * intros (Hn & Hf & ->). repeat split; [|done|].
        -- intros Hin. apply Hf in Hin. by rewrite lookup_insert_eq in Hin.
        -- intros y Hy. apply elem_of_cons in Hy as [->|Hy]; [done|]. apply Hf in Hy.
           by apply lookup_insert_None in Hy as [? _].
      * intros ([Hx Hn] & Hf & ->). repeat split; [done|]. intros y Hy. rewrite lookup_insert_ne; [|set_solver].
        apply Hf. set_solver.
Qed.

Lemma foldl_insert_lookup (m : gmap string string) id l x :
  foldl (fun m x => <[x := id]> m) m l !! x = if decide (x ∈ l) then Some id else m !! x.
Proof.
  revert m. induction l as [|y l IH]; intros m; [done|]. cbn [foldl]. rewrite IH.
  destruct (decide (x ∈ l)) as [Hx|Hx]; [by rewrite decide_True by set_solver|].
  destruct (decide (x = y)) as [->|Hne]; [rewrite decide_True by set_solver; apply lookup_insert_eq|].
  rewrite decide_False by set_solver. by apply lookup_insert_ne.
Qed.

Lemma validate_loop_ok s addresses l :
  validate_loop s addresses l = Ok tt <->
  (forall row, row ∈ l -> valid_assignment s row.1 row.2) /\ NoDup (reservations l) /\
  (forall x, x ∈ reservations l -> addresses !! x = None).
Proof.
  revert addresses. induction l as [|[id a] l IH]; intros addresses; cbn [validate_loop].
  - split; [intros _; split; [set_solver|split; [constructor|set_solver]]|done].
  - assert (Hr : reservations ((id, a) :: l) = reserved a ++ reservations l) by done.
    rewrite bind_ok, Hr, NoDup_app. split.
    + intros ([] & Hv & (m & (Hn & Hf & ->)%reserve_all_ok & (Hall & Hn' & Hf')%IH)%bind_ok).
      apply validateAssignment_ok in Hv.
      assert (Hsplit : forall x, x ∈ reservations l -> x ∉ reserved a /\ addresses !! x = None).
      { intros x Hx. apply Hf' in Hx. rewrite foldl_insert_lookup in Hx.
        destruct (decide (x ∈ reserved a)); [done|]. by split. }
      split; [|split; [split; [done|split; [|done]]|]].
      * intros row Hrow. apply elem_of_cons in Hrow as [->|Hrow]; auto.
      * intros x Hx Hx'. by apply Hsplit in Hx' as [? _].
      * intros x [Hx|Hx]%elem_of_app; [auto|]. by apply Hsplit.
    + intros (Hall & (Hn & Hd & Hn') & Hf). exists tt.
      split; [apply validateAssignment_ok, (Hall (id, a)); set_solver|].
      apply bind_ok. eexists. split; [apply reserve_all_ok; split; [done|split; [set_solver|reflexivity]]|].
      apply IH. split; [intros; apply Hall; set_solver|split; [done|]].
      intros x Hx. rewrite foldl_insert_lookup, decide_False by (intros ?; by apply (Hd x)). set_solver.
Qed.

Lemma validateReservations_ok s : wf (Assignments s) ->
  validateReservations s = Ok tt <->
  (forall id a, rows (Assignments s) !! id = Some a -> valid_assignment s id a) /\
  NoDup (reservations (All (Assignments s))).
Proof.
  intros Hw. unfold validateReservations. rewrite validate_loop_ok. split.
  - intros (Hv & Hn & _). split; [|done]. intros id a Ha. apply (Hv (id, a)). by apply All_elem.
  - intros (Hv & Hn). split; [|split; [done|intros; apply lookup_empty]].
    intros [id a] Hin. apply Hv. by apply All_elem in Hin.
Qed.

(** [validateReservations] accepts a state exactly when every assignment
    names itself and an agent, a service and a deployment that exist, and no
    address is reserved twice, by two assignments or by one. *)
Theorem validateReservations_spec s : wf (Assignments s) ->
  validateReservations s = Ok tt <->
  (forall id a, rows (Assignments s) !! id = Some a -> valid_assignment s id a) /\
  NoDup (reservations (All (Assignments s))).
Proof. apply validateReservations_ok. Qed.

(** ** Applying entries *)

Section ApplyTheorems.
Context {codec : PayloadCodec}.

(** What an entry must be for the state to take it. *)
Definition next_entry (s : DurableState) (e : Entry) (b : Batch) : Prop :=
  e_ClusterID e = ClusterID s /\ e_LogIndex e = LogIndex s + 1 /\ e_CommandID e <> "" /\
  e_CommandVersion e = CommandVersion /\ e_CommandType e = CommandType /\
  Decode (e_Payload e) = Ok b /\ b_BaseIndex b = LogIndex s.

Lemma applyEntry_ok s e s' b : wf (Assignments s) ->
  applyEntry s e = Ok (s', b) <-> next_entry s e b /\ applied s b s' /\ LogIndex s' = e_LogIndex e.
Proof.
  intros Hw. unfold applyEntry, next_entry. rewrite bind_ok. setoid_rewrite bind_ok. setoid_rewrite bind_ok.
  setoid_rewrite bind_ok. setoid_rewrite bind_ok. setoid_rewrite applyBatch_ok; [|done]. split.
  - intros ([] & H1 & [] & H2 & b' & H3 & [] & H4 & next & [Hap HL] & [=<- <-]).
    rewrite guard_err_ok in H1, H2, H4. destruct (Decode (e_Payload e)) eqn:Ed; simplify_eq. bool_to_prop.
    split; [by repeat split|]. split; [|done]. destruct Hap. by split.
  - intros ((H1 & H2 & H3 & H4 & H5 & H6 & H7) & Hap & HL).
    rewrite H1, H2, H4, H5, H6. exists tt. split.
    { rewrite (proj2 (str_eqb_eq _ _) eq_refl), Z.eqb_refl. done. }
    exists tt. split; [by rewrite (proj2 (str_eqb_neq _ _) H3)|]. exists b. split; [done|].
    exists tt. split; [by rewrite H7, Z.eqb_refl|].
    exists (s' <| LogIndex := LogIndex s |>). split; [split; [destruct Hap; by split|done]|].
    rewrite <- H2, <- HL. by destruct s'.
Qed.

(** The reservations of a state. *)
Definition reservations_ok (s : DurableState) : Prop :=
  (forall id a, rows (Assignments s) !! id = Some a -> valid_assignment s id a) /\
  NoDup (reservations (All (Assignments s))).

Lemma Apply_ok s e s' : wf (Assignments s) ->
  Apply s e = (s', None) <->
  exists b, next_entry s e b /\ applied s b s' /\ LogIndex s' = e_LogIndex e /\ reservations_ok s'.
Proof.
  intros Hw. unfold Apply.
  assert (Hc : forall st, applyEntry s e ≫= (fun p => validateReservations p.1 ≫= fun _ => Ok p.1) = Ok st <->
    exists b, next_entry s e b /\ applied s b st /\ LogIndex st = e_LogIndex e /\ reservations_ok st).
  { intros st. rewrite bind_ok. split.
    - intros ([st' b] & H1 & ([] & H2 & [=<-])%bind_ok). apply applyEntry_ok in H1 as (Hn & Ha & HL); [|done].
      cbn [fst] in *. exists b. apply validateReservations_ok in H2; [done|apply (ap_Assignments _ _ _ Ha)].
    - intros (b & Hn & Ha & HL & Hr). exists (st, b).
      split; [by apply applyEntry_ok|]. apply bind_ok. exists tt. split; [|done].
      apply validateReservations_ok; [apply (ap_Assignments _ _ _ Ha)|done]. }
  destruct (_ ≫= _) as [st|err].
  - split; [intros [=<-]; by apply Hc|]. intros Hx. by apply Hc in Hx as [=->].
  - split; [done|]. intros Hx. by apply Hc in Hx.
Qed.

Lemma applied_same_owners s b next : state_ok s -> applied s b next -> same_owners s next.
Proof.
  intros Hs Ha id x y Hx Hy. destruct (ap_Assignments _ _ _ Ha) as ([_ Hn] & _ & E). rewrite E in Hy.
  destruct (decide (id ∈ map Key (b_Assignments b))) as [(c & -> & Hc)%list_elem_of_fmap|Hni].
  - rewrite foldl_apply_changed in Hy by done. apply (ap_owners _ _ _ Ha) in Hc.
    rewrite owner_changed_false in Hc by apply Hs. by apply Hc.
  - rewrite foldl_apply_other in Hy by done. naive_solver.
Qed.

(** Applying an entry is atomic.  It fails and leaves the state as it was, or
    it takes exactly the next entry of the prefix: the cluster is kept, the index
    moves by one, the state stays well formed with valid reservations, and no
    assignment that survives has changed its agent or its service. *)
Theorem Apply_atomic s e s' err :
  state_ok s -> Apply s e = (s', err) ->
  match err with
  | Some _ => s' = s
  | None => state_ok s' /\ reservations_ok s' /\ same_owners s s' /\ ClusterID s' = ClusterID s /\
      e_LogIndex e = LogIndex s + 1 /\ LogIndex s' = LogIndex s + 1
  end.
Proof.
  intros Hs H. destruct err as [er|].
  - unfold Apply in H. by destruct (_ ≫= _); simplify_eq.
  - apply Apply_ok in H as (b & Hn & Ha & HL & Hr); [|apply Hs]. destruct Hn as (H1 & H2 & _).
    split; [exact (applied_state_ok _ _ _ Hs Ha)|]. split; [done|].
    split; [exact (applied_same_owners _ _ _ Hs Ha)|]. split; [apply (ap_ClusterID _ _ _ Ha)|]. split; [done|lia].
Qed.
End ApplyTheorems.

(** ** An example *)

Lemma state_ok_empty cluster : state_ok (empty_state cluster).
Proof. split; try done. apply wf_empty. Qed.

Definition demo_time : time := unix_epoch.

Definition demo_assignment : Assignment :=
  Build_Assignment "alloc" "svc" "dep" "agent" 1 1 "10.0.0.1" "fd00::1" 0 "serving" "run" "" None None demo_time demo_time.

(** One service of one environment, running once on one agent, at index 7. *)
Definition demo_state : DurableState :=
  (empty_state "default") <| LogIndex := 7 |>
    <| Services := {[ "svc" := Build_ServiceIntent "svc" "env" "web" 1 1 "" "" "" "" 1 "" demo_time demo_time ]} |>
    <| Agents := {[ "agent" := Build_AgentRegistration "agent" "node" "" 1 "eu" "" "" 0 0 "" "" "" "" 0 "" "" 0 0 "[]" ""
                                 demo_time demo_time 1 ]} |>
    <| Deployments := {[ "dep" := Build_Deployment "dep" "svc" 1 1 "" "" "" "" "active" "user" "" "" "" true ""
                                    demo_time demo_time ]} |>
    <| Assignments := Set_ empty "alloc" demo_assignment |>.

Definition drain_batch : Batch :=
  (Diff demo_state demo_state) <| b_Assignments :=
    [Build_Change "alloc" (Some (Build_Assignment "alloc" "svc" "dep" "agent" 1 1 "10.0.0.1" "fd00::1" 0 "draining" "drain" ""
       (Some demo_time) None demo_time demo_time))] |>.

(** Payloads that are already decoded. *)
Definition parsed : PayloadCodec := {| payload := Batch; Decode := Ok; Marshal := Ok |}.

Definition demo_entry (index : Z) (b : Batch) : Entry (codec := parsed) :=
  Build_Entry (codec := parsed) "default" index "command" CommandVersion CommandType b (Some 3) demo_time.

Lemma demo_state_ok : state_ok demo_state.
Proof. split; try (vm_compute; reflexivity). apply wf_Set, wf_empty. Qed.

Lemma demo_reservations : reservations_ok demo_state.
Proof. apply validateReservations_ok; [apply demo_state_ok|]. vm_compute. reflexivity. Qed.

(** The assignment drains, a second one starts and the deployment goes; and a
    state in which the assignment is on another agent. *)
Definition demo_changed : DurableState :=
  demo_state <| Deployments := ∅ |>
    <| Assignments := Set_ (Set_ empty "alloc" (Build_Assignment "alloc" "svc" "dep" "agent" 1 1 "10.0.0.1" "fd00::1" 0 "draining"
         "drain" "" (Some demo_time) None demo_time demo_time)) "alloc2" demo_assignment |>.

Definition demo_moved : DurableState :=
  demo_state <| Assignments := Set_ empty "alloc" (Build_Assignment "alloc" "svc" "dep" "other" 1 1 "10.0.0.1" "fd00::1" 0 "serving"
    "run" "" None None demo_time demo_time) |>.

Lemma demo_changed_ok : state_ok demo_changed.
Proof. split; try (vm_compute; reflexivity). apply wf_Set, wf_Set, wf_empty. Qed.

Lemma demo_moved_ok : state_ok demo_moved.
Proof. split; try (vm_compute; reflexivity). apply wf_Set, wf_empty. Qed.

Lemma diff_roundtrip_witness :
  map Key (b_Assignments (Diff demo_state demo_changed)) = ["alloc"; "alloc2"] /\
  applyBatch demo_state (Diff demo_state demo_changed) = Ok (demo_changed <| ClusterID := "default" |> <| LogIndex := 7 |>) /\
  exists id, moved demo_state demo_moved id /\ applyBatch demo_state (Diff demo_state demo_moved) = Err (OwnerChange id).
Proof.
  split; [vm_compute; reflexivity|]. split.
  - destruct (diff_roundtrip demo_state demo_changed demo_state_ok demo_changed_ok) as [_ [[_ H]|(id & _ & H)]]; [exact H|].
    exfalso. vm_compute in H. discriminate H.
  - destruct (diff_roundtrip demo_state demo_moved demo_state_ok demo_moved_ok) as [_ [[_ H]|H]]; [|exact H].
    exfalso. vm_compute in H. discriminate H.
Defined.

Lemma validateReservations_spec_witness :
  validateReservations demo_state = Ok tt /\
  (validateReservations demo_state = Ok tt <->
   (forall id a, rows (Assignments demo_state) !! id = Some a -> valid_assignment demo_state id a) /\
   NoDup (reservations (All (Assignments demo_state)))).
Proof. split; [vm_compute; reflexivity|]. apply (validateReservations_spec demo_state). apply demo_state_ok. Defined.

(** The state after the entry that drains the assignment, and the error. *)
Definition drained : DurableState * option error := Apply (codec := parsed) demo_state (demo_entry 8 drain_batch).

Lemma Apply_atomic_witness :
  match drained.2 with
  | Some _ => drained.1 = demo_state
  | None => state_ok drained.1 /\ reservations_ok drained.1 /\ same_owners demo_state drained.1 /\
      ClusterID drained.1 = ClusterID demo_state /\
      e_LogIndex (codec := parsed) (demo_entry 8 drain_batch) = LogIndex demo_state + 1 /\
      LogIndex drained.1 = LogIndex demo_state + 1
  end.
Proof.
  apply (Apply_atomic (codec := parsed) demo_state (demo_entry 8 drain_batch) drained.1 drained.2 demo_state_ok).
  exact (surjective_pairing drained).
Defined.

(** The next entry is taken, a later one is refused. *)
Example demo_apply :
  (Apply (codec := parsed) demo_state (demo_entry 8 drain_batch)).2 = None /\
  (Apply (codec := parsed) demo_state (demo_entry 9 drain_batch)).2 = Some (PrefixMismatch "default" 9).
Proof. vm_compute. split; reflexivity. Qed.

End Journal.
