(* ===== verification/Projection.v ===== *)
(** * The projection of a journal prefix

    [internal/controlplane/journal/projection.go]: the durable state with the
    indexes its readers use and the map of reserved addresses.  [advance]
    updates indexes and reservations from the batch alone; the theorems show
    that it accepts exactly the entries [Journal.Apply] accepts and that the
    result is the projection [newProjection] would build from scratch.

    Go visits the sets of changed and affected assignments in no particular
    order; the model takes the order of [elements], and [update_any_order]
    shows the result to be the same for every order.  Buckets are values here:
    the copy-on-write bookkeeping ([owned]) has no counterpart. *)

From S2P Require Import Prelude RowMap Journal.

Module Projection.
Import RowMap Journal.

(** ** Relations: counted membership *)

Abbreviation bucket := (gmap string Z) (only parsing).
Abbreviation relation := (RowMap bucket) (only parsing).

Definition Get {T} (zero : T) (t : RowMap T) (key : string) : T := default zero (Lookup t key).
Definition map_get {T} (zero : T) (m : gmap string T) (key : string) : T := default zero (m !! key).

Definition relation_keys (r : relation) (key : string) : list string :=
  isort String.leb (map fst (map_to_list (Get ∅ r key))).

(** [relationEditor.add] on the relation being edited. *)
Definition add (r : relation) (key member : string) (delta : Z) : relation :=
  if str_eqb key "" || str_eqb member "" then r
  else
    let b := Get ∅ r key in
    let n := map_get 0 b member + delta in
    let b := if 0 <? n then <[member := n]> b else delete member b in
    if bool_decide (b = ∅) then Delete r key else Set_ r key b.

Record projectionIndexes := {
  assignmentsByAgent : relation; assignmentsByService : relation; assignmentsByDeployment : relation;
  servicesByEnvironment : relation; domainsByService : relation; environmentsByAgent : relation;
  agentsByEnvironment : relation; environmentsByProject : relation; volumesByEnvironment : relation;
  volumesByAgent : relation; destructionsByAgent : relation
}.

#[export] Instance projectionIndexes_eta : Eta projectionIndexes := fun i =>
  Build_projectionIndexes (assignmentsByAgent i) (assignmentsByService i) (assignmentsByDeployment i)
    (servicesByEnvironment i) (domainsByService i) (environmentsByAgent i) (agentsByEnvironment i)
    (environmentsByProject i) (volumesByEnvironment i) (volumesByAgent i) (destructionsByAgent i).

Definition no_indexes : projectionIndexes :=
  Build_projectionIndexes empty empty empty empty empty empty empty empty empty empty empty.

Section Update.
Variables before after : DurableState.

Definition index_service (i : projectionIndexes) (c : Change ServiceIntent) : projectionIndexes :=
  let old := map_get zero_ServiceIntent (Services before) (Key c) in
  let next := map_get zero_ServiceIntent (Services after) (Key c) in
  if str_eqb (svc_EnvironmentID old) (svc_EnvironmentID next) then i
  else i <| servicesByEnvironment := add (add (servicesByEnvironment i) (svc_EnvironmentID old) (Key c) (-1))
                                       (svc_EnvironmentID next) (Key c) 1 |>.

Definition index_domain (i : projectionIndexes) (c : Change Domain) : projectionIndexes :=
  let old := map_get zero_Domain (Domains before) (Key c) in
  let next := map_get zero_Domain (Domains after) (Key c) in
  if str_eqb (dom_ServiceID old) (dom_ServiceID next) then i
  else i <| domainsByService := add (add (domainsByService i) (dom_ServiceID old) (Key c) (-1))
                                  (dom_ServiceID next) (Key c) 1 |>.

Definition index_environment (i : projectionIndexes) (c : Change Environment) : projectionIndexes :=
  let old := map_get zero_Environment (Environments before) (Key c) in
  let next := map_get zero_Environment (Environments after) (Key c) in
  if str_eqb (env_ProjectID old) (env_ProjectID next) then i
  else i <| environmentsByProject := add (add (environmentsByProject i) (env_ProjectID old) (Key c) (-1))
                                       (env_ProjectID next) (Key c) 1 |>.

Definition index_volume (i : projectionIndexes) (c : Change Volume) : projectionIndexes :=
  let old := map_get zero_Volume (Volumes before) (Key c) in
  let next := map_get zero_Volume (Volumes after) (Key c) in
  let i :=
    if str_eqb (vol_EnvironmentID old) (vol_EnvironmentID next) then i
    else i <| volumesByEnvironment := add (add (volumesByEnvironment i) (vol_EnvironmentID old) (Key c) (-1))
                                        (vol_EnvironmentID next) (Key c) 1 |> in
  if str_eqb (vol_AgentID old) (vol_AgentID next) then i
  else i <| volumesByAgent := add (add (volumesByAgent i) (vol_AgentID old) (Key c) (-1))
                                (vol_AgentID next) (Key c) 1 |>.

Definition index_destruction (i : projectionIndexes) (c : Change VolumeDestruction) : projectionIndexes :=
  let old := map_get zero_VolumeDestruction (Destructions before) (Key c) in
  let next := map_get zero_VolumeDestruction (Destructions after) (Key c) in
  if str_eqb (des_AgentID old) (des_AgentID next) then i
  else i <| destructionsByAgent := add (add (destructionsByAgent i) (des_AgentID old) (Key c) (-1))
                                     (des_AgentID next) (Key c) 1 |>.

(** The environment an assignment's agent takes part in: none once it is lost. *)
Definition assignment_env (s : DurableState) (a : Assignment) : string :=
  if str_eqb (asg_RolloutState a) "lost" then ""
  else svc_EnvironmentID (map_get zero_ServiceIntent (Services s) (asg_ServiceID a)).

Definition index_assignment (i : projectionIndexes) (id : string) : projectionIndexes :=
  let old := Get zero_Assignment (Assignments before) id in
  let next := Get zero_Assignment (Assignments after) id in
  let i :=
    if str_eqb (asg_DeploymentID old) (asg_DeploymentID next) then i
    else i <| assignmentsByDeployment := add (add (assignmentsByDeployment i) (asg_DeploymentID old) id (-1))
                                           (asg_DeploymentID next) id 1 |> in
  let i :=
    if str_eqb (asg_AgentID old) (asg_AgentID next) then i
    else i <| assignmentsByAgent := add (add (assignmentsByAgent i) (asg_AgentID old) id (-1))
                                      (asg_AgentID next) id 1 |> in
  let i :=
    if str_eqb (asg_ServiceID old) (asg_ServiceID next) then i
    else i <| assignmentsByService := add (add (assignmentsByService i) (asg_ServiceID old) id (-1))
                                        (asg_ServiceID next) id 1 |> in
  let oldEnv := assignment_env before old in
  let nextEnv := assignment_env after next in
  if str_eqb (asg_AgentID old) (asg_AgentID next) && str_eqb oldEnv nextEnv then i
  else
    let i := i <| environmentsByAgent := add (environmentsByAgent i) (asg_AgentID old) oldEnv (-1) |>
               <| agentsByEnvironment := add (agentsByEnvironment i) oldEnv (asg_AgentID old) (-1) |> in
    i <| environmentsByAgent := add (environmentsByAgent i) (asg_AgentID next) nextEnv 1 |>
      <| agentsByEnvironment := add (agentsByEnvironment i) nextEnv (asg_AgentID next) 1 |>.

Definition service_moved (key : string) : bool :=
  negb (str_eqb (svc_EnvironmentID (map_get zero_ServiceIntent (Services before) key))
                (svc_EnvironmentID (map_get zero_ServiceIntent (Services after) key))).

(** The changed assignments, and those of a service that moved. *)
Definition changedAssignments (previous : projectionIndexes) (b : Batch) : gset string :=
  list_to_set (map Key (b_Assignments b)) ∪
  ⋃ map (fun c : Change ServiceIntent =>
           if service_moved (Key c) then dom (Get ∅ (assignmentsByService previous) (Key c)) else ∅) (b_Services b).

Definition update_in (order : list string) (previous : projectionIndexes) (b : Batch) : projectionIndexes :=
  let i := foldl index_service previous (b_Services b) in
  let i := foldl index_domain i (b_Domains b) in
  let i := foldl index_environment i (b_Environments b) in
  let i := foldl index_volume i (b_Volumes b) in
  let i := foldl index_destruction i (b_Destructions b) in
  foldl index_assignment i order.

Definition updateIndexes (previous : projectionIndexes) (b : Batch) : projectionIndexes :=
  update_in (elements (changedAssignments previous b)) previous b.
End Update.

(** ** The projection *)

Record Projection := {
  state : DurableState;
  indexes : projectionIndexes;
  addresses : RowMap string
}.

Definition reserve_row (t : RowMap string) (row : string * Assignment) : RowMap string :=
  foldl (fun t address => Set_ t address row.1) t (reserved row.2).

Definition newProjection (s : DurableState) : Projection := {|
  state := s;
  indexes := updateIndexes (empty_state "") s no_indexes (Diff (empty_state "") s);
  addresses := foldl reserve_row empty (All (Assignments s))
|}.

(** Release the reservations of one changed assignment. *)
Definition release (p : Projection) (t : RowMap string) (c : Change Assignment) : RowMap string :=
  foldl Delete t (reserved (Get zero_Assignment (Assignments (state p)) (Key c))).

(** The assignments indexed under a deleted row. *)
Definition stranded {T} (r : relation) (c : Change T) : gset string :=
  match Value c with None => dom (Get ∅ r (Key c)) | Some _ => ∅ end.

Definition affected (p : Projection) (b : Batch) : gset string :=
  list_to_set (map Key (b_Assignments b)) ∪
  ⋃ map (stranded (assignmentsByAgent (indexes p))) (b_Agents b) ∪
  ⋃ map (stranded (assignmentsByService (indexes p))) (b_Services b) ∪
  ⋃ map (stranded (assignmentsByDeployment (indexes p))) (b_Deployments b).

Fixpoint validate_affected (s : DurableState) (ids : list string) : result error unit :=
  match ids with
  | [] => Ok tt
  | id :: ids =>
      match Lookup (Assignments s) id with
      | None => validate_affected s ids
      | Some a => _ ← validateAssignment s id a; validate_affected s ids
      end
  end.

Fixpoint reserve_checked (id : string) (t : RowMap string) (l : list string) : result error (RowMap string) :=
  match l with
  | [] => Ok t
  | address :: l =>
      match Lookup t address with
      | Some owner => Err (AddressTaken address owner id)
      | None => reserve_checked id (Set_ t address id) l
      end
  end.

Fixpoint reserve_changes (t : RowMap string) (cs : list (Change Assignment)) : result error (RowMap string) :=
  match cs with
  | [] => Ok t
  | c :: cs =>
      match Value c with
      | None => reserve_changes t cs
      | Some a => t ← reserve_checked (Key c) t (reserved a); reserve_changes t cs
      end
  end.

Definition project (p : Projection) (s : DurableState) (b : Batch) : result error Projection :=
  let released := foldl (release p) (addresses p) (b_Assignments b) in
  _ ← validate_affected s (elements (affected p b));
  reserved ← reserve_changes released (b_Assignments b);
  Ok {| state := s; indexes := updateIndexes (state p) s (indexes p) b; addresses := reserved |}.

Definition Preview (p : Projection) (b : Batch) : result error Projection :=
  s ← applyBatch (state p) b;
  project p s b.

Definition advance {codec : PayloadCodec} (p : Projection) (e : Entry) : result error (Projection * Batch) :=
  r ← applyEntry (state p) e;
  next ← project p r.1 r.2;
  Ok (next, r.2).

Definition AssignmentIDsForAgent (p : Projection) id := relation_keys (assignmentsByAgent (indexes p)) id.
Definition AssignmentIDsForService (p : Projection) id := relation_keys (assignmentsByService (indexes p)) id.
Definition ServiceIDsForEnvironment (p : Projection) id := relation_keys (servicesByEnvironment (indexes p)) id.
Definition DomainHostnamesForService (p : Projection) id := relation_keys (domainsByService (indexes p)) id.
Definition EnvironmentIDsForAgent (p : Projection) id := relation_keys (environmentsByAgent (indexes p)) id.
Definition AgentIDsForEnvironment (p : Projection) id := relation_keys (agentsByEnvironment (indexes p)) id.
Definition EnvironmentIDsForProject (p : Projection) id := relation_keys (environmentsByProject (indexes p)) id.
Definition VolumeIDsForEnvironment (p : Projection) id := relation_keys (volumesByEnvironment (indexes p)) id.
Definition VolumeIDsForAgent (p : Projection) id := relation_keys (volumesByAgent (indexes p)) id.
Definition DestructionIDsForAgent (p : Projection) id := relation_keys (destructionsByAgent (indexes p)) id.

(** ** Relations as counting functions *)

Definition cnt (r : relation) (k m : string) : Z := map_get 0 (map_get ∅ (rows r) k) m.

(** Every bucket has a name and members, every member a name and a positive count. *)
Definition bucket_ok (k : string) (b : bucket) : Prop :=
  k <> "" /\ b <> ∅ /\ forall m n, b !! m = Some n -> m <> "" /\ 0 < n.

Definition relation_ok (r : relation) : Prop := wf r /\ map_Forall bucket_ok (rows r).

Lemma relation_ok_empty : relation_ok empty.
Proof. split; [apply wf_empty|]. apply map_Forall_empty. Qed.

Lemma Get_rows {T} (zero : T) t k : wf t -> Get zero t k = map_get zero (rows t) k.
Proof. intros Hw. unfold Get, map_get. by rewrite Lookup_rows. Qed.

Lemma map_get_insert {T} (zero : T) (m : gmap string T) k k' v :
  map_get zero (<[k := v]> m) k' = if decide (k = k') then v else map_get zero m k'.
Proof. unfold map_get. destruct (decide (k = k')) as [->|]; [by rewrite lookup_insert_eq|by rewrite lookup_insert_ne]. Qed.

Lemma map_get_delete {T} (zero : T) (m : gmap string T) k k' :
  map_get zero (delete k m) k' = if decide (k = k') then zero else map_get zero m k'.
Proof. unfold map_get. destruct (decide (k = k')) as [->|]; [by rewrite lookup_delete_eq|by rewrite lookup_delete_ne]. Qed.

Lemma cnt_nonneg r k m : relation_ok r -> 0 <= cnt r k m.
Proof.
  intros [_ Hr]. unfold cnt, map_get. destruct (rows r !! k) as [b|] eqn:Eb; [|done]. cbn.
  destruct (b !! m) as [n|] eqn:En; [|done]. cbn. apply Hr in Eb as (_ & _ & Hb). apply Hb in En. lia.
Qed.

(** A link counts for its bucket and member when both are named. *)
Definition ind (l : string * string) (k m : string) : Z :=
  if bool_decide (l.1 <> "" /\ l.2 <> "" /\ l = (k, m)) then 1 else 0.

Lemma ind_empty l k m : l.1 = "" \/ l.2 = "" -> ind l k m = 0.
Proof. intros H. unfold ind. rewrite bool_decide_eq_false_2; [done|]. tauto. Qed.

Lemma ind_bounds l k m : 0 <= ind l k m <= 1.
Proof. unfold ind. case_bool_decide; lia. Qed.

(** The bucket [add] stores. *)
Lemma edited_bucket_ok k m (b : bucket) n :
  k <> "" -> m <> "" -> (forall m n, b !! m = Some n -> m <> "" /\ 0 < n) ->
  forall m' n', (if 0 <? n then <[m := n]> b else delete m b) !! m' = Some n' -> m' <> "" /\ 0 < n'.
Proof.
  intros Hk Hm Hb m' n'. destruct (0 <? n) eqn:E.
  - apply Z.ltb_lt in E. intros [[<- <-]|[_ H]]%lookup_insert_Some; [done|by apply Hb].
  - intros [_ H]%lookup_delete_Some. by apply Hb.
Qed.

Lemma add_spec r k m d :
  relation_ok r -> 0 <= cnt r k m + d ->
  relation_ok (add r k m d) /\ forall k' m', cnt (add r k m d) k' m' = cnt r k' m' + d * ind (k, m) k' m'.
Proof.
  intros Hr Hd. destruct Hr as [Hw Hall]. unfold add.
  destruct (str_eqb k "" || str_eqb m "") eqn:E.
  - split; [done|]. intros k' m'. rewrite ind_empty; [lia|]. apply orb_true_iff in E. rewrite !str_eqb_eq in E. exact E.
  - apply orb_false_iff in E. rewrite !str_eqb_neq in E. destruct E as [Hk Hm]. rewrite Get_rows by done.
    set (b := map_get ∅ (rows r) k). set (n := map_get 0 b m + d).
    assert (Hb : forall m n, b !! m = Some n -> m <> "" /\ 0 < n).
    { unfold b, map_get. destruct (rows r !! k) as [b0|] eqn:Eb; cbn; [apply (Hall _ _ Eb)|].
      intros ? ?. by rewrite lookup_empty. }
    pose proof (edited_bucket_ok k m b n Hk Hm Hb) as Hb'. set (b' := if 0 <? n then <[m := n]> b else delete m b) in *.
    assert (Hcnt : forall m', map_get 0 b' m' = map_get 0 b m' + d * ind (k, m) k m').
    { intros m'. unfold ind, b'. cbn. destruct (0 <? n) eqn:En; rewrite ?map_get_insert, ?map_get_delete;
        destruct (decide (m = m')) as [<-|Hne].
      - rewrite bool_decide_eq_true_2 by done. unfold n. lia.
      - rewrite bool_decide_eq_false_2 by naive_solver. lia.
      - rewrite bool_decide_eq_true_2 by done. apply Z.ltb_ge in En. fold (cnt r k m) in Hd.
        change (map_get 0 b m) with (cnt r k m) in *. unfold n in En. lia.
      - rewrite bool_decide_eq_false_2 by naive_solver. lia. }
    assert (Hother : forall k' m', k <> k' -> ind (k, m) k' m' = 0).
    { intros k' m' Hne. unfold ind. rewrite bool_decide_eq_false_2; [done|]. naive_solver. }
    case_bool_decide as He; (split; [split|]).
    + by apply wf_Delete.
    + rewrite rows_Delete by done. by apply map_Forall_delete.
    + intros k' m'. unfold cnt. rewrite rows_Delete, map_get_delete by done. destruct (decide (k = k')) as [<-|Hne].
      * fold b. rewrite <- Hcnt, He. done.
      * rewrite Hother by done. lia.
    + by apply wf_Set.
    + rewrite rows_Set by done. by apply map_Forall_insert_2.
    + intros k' m'. unfold cnt. rewrite rows_Set, map_get_insert by done. destruct (decide (k = k')) as [<-|Hne].
      * fold b. by rewrite <- Hcnt.
      * rewrite Hother by done. lia.
Qed.

Lemma bucket_ext (b1 b2 : bucket) :
  (forall m n, b1 !! m = Some n -> 0 < n) -> (forall m n, b2 !! m = Some n -> 0 < n) ->
  (forall m, map_get 0 b1 m = map_get 0 b2 m) -> b1 = b2.
Proof.
  intros H1 H2 E. apply map_eq. intros m. specialize (E m). unfold map_get in E.
  destruct (b1 !! m) eqn:E1, (b2 !! m) eqn:E2; cbn in E; try (apply H1 in E1); try (apply H2 in E2); try lia; congruence.
Qed.

(** A relation is determined by its counts. *)
Lemma relation_ext r1 r2 :
  relation_ok r1 -> relation_ok r2 -> (forall k m, cnt r1 k m = cnt r2 k m) -> r1 = r2.
Proof.
  intros [Hw1 H1] [Hw2 H2] E. apply rows_inj; [done..|]. apply map_eq. intros k. specialize (E k). unfold cnt in E.
  assert (Hz : forall r, map_Forall bucket_ok (rows r) -> forall m n, map_get ∅ (rows r) k !! m = Some n -> 0 < n).
  { intros r Hr m n. unfold map_get. destruct (rows r !! k) as [b|] eqn:Eb; cbn; [|by rewrite lookup_empty].
    intros Hm. apply Hr in Eb as (_ & _ & Hb). exact (proj2 (Hb _ _ Hm)). }
  pose proof (bucket_ext _ _ (Hz r1 H1) (Hz r2 H2) E) as Eb. unfold map_get in Eb.
  destruct (rows r1 !! k) as [b1|] eqn:E1, (rows r2 !! k) as [b2|] eqn:E2; cbn in Eb; subst; try done.
  - by apply H1 in E1 as (_ & ? & _).
  - by apply H2 in E2 as (_ & ? & _).
Qed.

(** ** Indexes of links *)

(** All named links are among those of [U]. *)
Definition covers (f : string -> string * string) (U : list string) : Prop :=
  forall id, (f id).1 <> "" -> (f id).2 <> "" -> id ∈ U.

(** [r] counts the links [f]. *)
Definition indexed (r : relation) (f : string -> string * string) : Prop :=
  relation_ok r /\ exists U, NoDup U /\ covers f U /\ forall k m, cnt r k m = sumZ (fun id => ind (f id) k m) U.

Lemma sumZ_drop_zero {A} (g : A -> Z) (P : A -> Prop) `{!forall a, Decision (P a)} l :
  (forall a, a ∈ l -> ~ P a -> g a = 0) -> sumZ g (filter P l) = sumZ g l.
Proof.
  unfold sumZ. induction l as [|a l IH]; intros Hz; [done|]. rewrite filter_cons. cbn [foldr].
  destruct (decide (P a)); cbn [foldr]; rewrite IH by set_solver; [done|]. rewrite (Hz a) by set_solver. lia.
Qed.

Lemma sum_cover f U1 U2 k m :
  NoDup U1 -> NoDup U2 -> covers f U1 -> covers f U2 ->
  sumZ (fun id => ind (f id) k m) U1 = sumZ (fun id => ind (f id) k m) U2.
Proof.
  intros H1 H2 C1 C2. set (P := fun id => (f id).1 <> "" /\ (f id).2 <> "").
  assert (Hz : forall (U : list string) a, a ∈ U -> ~ P a -> ind (f a) k m = 0).
  { intros _ a _ Hn. apply ind_empty. unfold P in Hn. destruct (decide ((f a).1 = "")), (decide ((f a).2 = "")); tauto. }
  rewrite <- (sumZ_drop_zero _ P U1), <- (sumZ_drop_zero _ P U2) by apply Hz. apply sumZ_permutation.
  apply NoDup_Permutation; [by apply NoDup_filter..|]. intros id. rewrite !list_elem_of_filter. unfold P.
  split; intros [[Ha Hb] _]; auto.
Qed.

Lemma indexed_unique r1 r2 f : indexed r1 f -> indexed r2 f -> r1 = r2.
Proof.
  intros (H1 & U1 & N1 & C1 & E1) (H2 & U2 & N2 & C2 & E2). apply relation_ext; [done..|].
  intros k m. rewrite E1, E2. by apply sum_cover.
Qed.

Lemma indexed_ext r f g : (forall id, f id = g id) -> indexed r f -> indexed r g.
Proof.
  intros E (H1 & U & N & C & S). split; [done|]. exists U. split; [done|]. split.
  - intros id. rewrite <- E. apply C.
  - intros k m. rewrite S. apply sumZ_ext. intros id _. by rewrite E.
Qed.

Lemma indexed_empty f : (forall id, (f id).1 = "" \/ (f id).2 = "") -> indexed empty f.
Proof.
  intros Hf. split; [apply relation_ok_empty|]. exists []. split; [constructor|]. split.
  - intros id H1 H2. by destruct (Hf id).
  - done.
Qed.

Lemma sumZ_update {A} `{!EqDecision A} (g h : A -> Z) (a : A) l :
  NoDup l -> a ∈ l -> (forall x, x <> a -> h x = g x) -> sumZ h l = sumZ g l - g a + h a.
Proof.
  intros Hn Ha He. unfold sumZ. induction l as [|x l IH]; [set_solver|]. cbn [foldr].
  apply NoDup_cons in Hn as [Hx Hn]. destruct (decide (x = a)) as [->|Hne].
  - enough (foldr (fun a s => h a + s) 0 l = foldr (fun a s => g a + s) 0 l) as -> by lia.
    apply (sumZ_ext h g). intros y Hy. apply He. naive_solver.
  - rewrite IH, (He x) by (done || set_solver). lia.
Qed.

Definition relink (r : relation) (f g : string -> string * string) (id : string) : relation :=
  if decide (f id = g id) then r else add (add r (f id).1 (f id).2 (-1)) (g id).1 (g id).2 1.

Definition upd (f : string -> string * string) (id : string) (l : string * string) : string -> string * string :=
  fun x => if decide (x = id) then l else f x.

Lemma indexed_relink r f g id : indexed r f -> indexed (relink r f g id) (upd f id (g id)).
Proof.
  intros (Hr & U & N & C & S). unfold relink. destruct (decide (f id = g id)) as [E|Hne].
  - apply (indexed_ext r f); [|by split; eauto]. intros x. unfold upd. destruct (decide (x = id)); congruence.
  - assert (HU : exists U, NoDup U /\ id ∈ U /\ covers f U).
    { destruct (decide (id ∈ U)); [by exists U|]. exists (id :: U). split; [by constructor|]. split; [set_solver|].
      intros x H1 H2. specialize (C x H1 H2). set_solver. }
    destruct HU as (U' & N' & Hin & C').
    assert (S' : forall k m, cnt r k m = sumZ (fun id => ind (f id) k m) U') by (intros; rewrite S; by apply sum_cover).
    destruct (f id) as [k1 m1] eqn:Ef, (g id) as [k2 m2] eqn:Eg. cbn [fst snd].
    assert (Hge : ind (k1, m1) k1 m1 <= cnt r k1 m1).
    { rewrite S'. rewrite (sumZ_update (fun x => if decide (x = id) then 0 else ind (f x) k1 m1) _ id U' N' Hin).
      - cbn beta. rewrite decide_True, Ef by done.
        enough (0 <= sumZ (fun x => if decide (x = id) then 0 else ind (f x) k1 m1) U') by lia.
        apply sumZ_nonneg. intros x _. destruct (decide _); [lia|apply ind_bounds].
      - intros x Hx. by rewrite decide_False. }
    destruct (decide (k1 = "" \/ m1 = "")) as [He|He].
    + assert (Ha1 : add r k1 m1 (-1) = r).
      { unfold add. destruct He as [->| ->]; [done|]. by rewrite orb_true_r. }
      rewrite Ha1. destruct (add_spec r k2 m2 1 Hr) as [H1 H2]; [pose proof (cnt_nonneg r k2 m2 Hr); lia|].
      split; [done|]. exists U'. split; [done|]. split.
      * intros x. unfold upd. destruct (decide (x = id)) as [->|]; [done|]. apply C'.
      * intros k m. rewrite H2, S'. symmetry. rewrite (sumZ_update (fun id => ind (f id) k m) _ id U' N' Hin).
        -- unfold upd. rewrite decide_True, Ef, (ind_empty (k1, m1)) by done. lia.
        -- intros x Hx. unfold upd. by rewrite decide_False.
    + destruct (add_spec r k1 m1 (-1) Hr) as [H1 H2].
      { unfold ind in Hge. rewrite bool_decide_eq_true_2 in Hge by tauto. lia. }
      destruct (add_spec (add r k1 m1 (-1)) k2 m2 1 H1) as [H3 H4]; [pose proof (cnt_nonneg _ k2 m2 H1); lia|].
      split; [done|]. exists U'. split; [done|]. split.
      * intros x. unfold upd. destruct (decide (x = id)) as [->|]; [done|]. apply C'.
      * intros k m. rewrite H4, H2, S'. symmetry. rewrite (sumZ_update (fun id => ind (f id) k m) _ id U' N' Hin).
        -- unfold upd. rewrite decide_True, Ef by done. lia.
        -- intros x Hx. unfold upd. by rewrite decide_False.
Qed.

(** Relinking the items that changed takes the index of [f] to that of [g]. *)
Lemma indexed_relink_all r f g ids :
  indexed r f -> NoDup ids -> (forall id, id ∉ ids -> f id = g id) ->
  indexed (foldl (fun r id => relink r f g id) r ids) g.
Proof.
  revert r f. induction ids as [|id ids IH]; intros r f Hr Hn Hf; cbn [foldl].
  - apply (indexed_ext _ f); [|done]. intros id. apply Hf. set_solver.
  - apply NoDup_cons in Hn as [Hid Hn].
    assert (Hext : forall r (l : list string), id ∉ l -> foldl (fun r id => relink r f g id) r l
                             = foldl (fun r x => relink r (upd f id (g id)) g x) r l).
    { intros r' l. revert r'. induction l as [|x l IHl]; intros r' Hx; [done|]. cbn [foldl].
      apply not_elem_of_cons in Hx as [Hne Hx]. rewrite IHl by done. f_equal. unfold relink, upd.
      by rewrite (decide_False (P := x = id)) by congruence. }
    rewrite Hext by done. apply IH; [by apply indexed_relink|done|].
    intros x Hx. unfold upd. destruct (decide (x = id)) as [->|]; [done|]. apply Hf. set_solver.
Qed.

(** ** The links of a state *)

Definition asg (s : DurableState) (id : string) : Assignment := map_get zero_Assignment (rows (Assignments s)) id.

Definition link_service s id := (svc_EnvironmentID (map_get zero_ServiceIntent (Services s) id), id).
Definition link_domain s id := (dom_ServiceID (map_get zero_Domain (Domains s) id), id).
Definition link_environment s id := (env_ProjectID (map_get zero_Environment (Environments s) id), id).
Definition link_volume_env s id := (vol_EnvironmentID (map_get zero_Volume (Volumes s) id), id).
Definition link_volume_agent s id := (vol_AgentID (map_get zero_Volume (Volumes s) id), id).
Definition link_destruction s id := (des_AgentID (map_get zero_VolumeDestruction (Destructions s) id), id).
Definition link_asg_deployment s id := (asg_DeploymentID (asg s id), id).
Definition link_asg_agent s id := (asg_AgentID (asg s id), id).
Definition link_asg_service s id := (asg_ServiceID (asg s id), id).
Definition link_env_agent s id := (asg_AgentID (asg s id), assignment_env s (asg s id)).
Definition link_agent_env s id := (assignment_env s (asg s id), asg_AgentID (asg s id)).

(** Every index counts exactly the links of the state. *)
Record indexes_ok (s : DurableState) (i : projectionIndexes) : Prop := {
  ix_service : indexed (servicesByEnvironment i) (link_service s);
  ix_domain : indexed (domainsByService i) (link_domain s);
  ix_environment : indexed (environmentsByProject i) (link_environment s);
  ix_volume_env : indexed (volumesByEnvironment i) (link_volume_env s);
  ix_volume_agent : indexed (volumesByAgent i) (link_volume_agent s);
  ix_destruction : indexed (destructionsByAgent i) (link_destruction s);
  ix_asg_deployment : indexed (assignmentsByDeployment i) (link_asg_deployment s);
  ix_asg_agent : indexed (assignmentsByAgent i) (link_asg_agent s);
  ix_asg_service : indexed (assignmentsByService i) (link_asg_service s);
  ix_env_agent : indexed (environmentsByAgent i) (link_env_agent s);
  ix_agent_env : indexed (agentsByEnvironment i) (link_agent_env s)
}.

Lemma indexes_ok_unique s i j : indexes_ok s i -> indexes_ok s j -> i = j.
Proof.
  intros [] []. destruct i, j; cbn in *.
  f_equal; match goal with H1 : indexed ?a ?f, H2 : indexed ?b ?f |- ?a = ?b => exact (indexed_unique _ _ _ H1 H2) end.
Qed.

Lemma indexes_ok_empty cluster : indexes_ok (empty_state cluster) no_indexes.
Proof. split; apply indexed_empty; intros id; left; reflexivity. Qed.

(** *** Folding one relation out of the edits *)

Lemma relink_key r f g id k1 k2 m1 m2 :
  f id = (k1, m1) -> g id = (k2, m2) ->
  relink r f g id = if str_eqb k1 k2 && str_eqb m1 m2 then r else add (add r k1 m1 (-1)) k2 m2 1.
Proof.
  intros Hf Hg. unfold relink. rewrite Hf, Hg. cbn [fst snd].
  destruct (decide ((k1, m1) = (k2, m2))) as [[=-> ->]|Hne].
  - by rewrite !(proj2 (str_eqb_eq _ _) eq_refl).
  - destruct (str_eqb k1 k2) eqn:E1, (str_eqb m1 m2) eqn:E2; try done. bool_to_prop. congruence.
Qed.

Lemma relink_same r f g id k1 k2 :
  f id = (k1, id) -> g id = (k2, id) ->
  relink r f g id = if str_eqb k1 k2 then r else add (add r k1 id (-1)) k2 id 1.
Proof. intros Hf Hg. rewrite (relink_key _ _ _ _ _ _ _ _ Hf Hg), (proj2 (str_eqb_eq id id) eq_refl). by rewrite andb_true_r. Qed.

Lemma foldl_same {I A R} (pr : I -> R) (step : I -> A -> I) i l :
  (forall i c, pr (step i c) = pr i) -> pr (foldl step i l) = pr i.
Proof. intros H. revert i. induction l as [|c l IH]; intros i; cbn; [done|]. by rewrite IH, H. Qed.

Lemma foldl_relink {I A} (pr : I -> relation) (step : I -> A -> I) (key : A -> string) f g i l :
  (forall i c, pr (step i c) = relink (pr i) f g (key c)) ->
  pr (foldl step i l) = foldl (fun r id => relink r f g id) (pr i) (map key l).
Proof. intros H. revert i. induction l as [|c l IH]; intros i; cbn; [done|]. by rewrite IH, H. Qed.

Section UpdateProofs.
Variables before after : DurableState.
Hypothesis Hwb : wf (Assignments before).
Hypothesis Hwa : wf (Assignments after).

Lemma Get_asg_before id : Get zero_Assignment (Assignments before) id = asg before id.
Proof. by apply Get_rows. Qed.
Lemma Get_asg_after id : Get zero_Assignment (Assignments after) id = asg after id.
Proof. by apply Get_rows. Qed.

(** Unfold one step of a loop on one relation. *)
Ltac edit_case :=
  intros i c; unfold index_service, index_domain, index_environment, index_volume, index_destruction, index_assignment;
  rewrite ?Get_asg_before, ?Get_asg_after; cbv zeta;
  repeat match goal with |- context [if ?b then _ else _] => destruct b eqn:? end; reflexivity.

Ltac edit_link :=
  intros i c; (erewrite relink_same by reflexivity);
  unfold index_service, index_domain, index_environment, index_volume, index_destruction, index_assignment;
  rewrite ?Get_asg_before, ?Get_asg_after; cbv zeta;
  repeat match goal with |- context [if ?b then _ else _] => destruct b eqn:? end; reflexivity.

Lemma env_agent_step i id :
  environmentsByAgent (index_assignment before after i id)
  = relink (environmentsByAgent i) (link_env_agent before) (link_env_agent after) id.
Proof using Hwb Hwa.
  erewrite relink_key by reflexivity. unfold index_assignment. rewrite Get_asg_before, Get_asg_after. cbv zeta.
  repeat match goal with |- context [if ?b then _ else _] => destruct b eqn:? end; reflexivity.
Qed.

Lemma agent_env_step i id :
  agentsByEnvironment (index_assignment before after i id)
  = relink (agentsByEnvironment i) (link_agent_env before) (link_agent_env after) id.
Proof using Hwb Hwa.
  erewrite relink_key by reflexivity. unfold index_assignment. rewrite Get_asg_before, Get_asg_after. cbv zeta.
  rewrite (andb_comm (str_eqb (assignment_env before _) _)).
  repeat match goal with |- context [if ?b then _ else _] => destruct b eqn:? end; reflexivity.
Qed.

Variable b : Batch.
Hypothesis Hsb : state_ok before.
Hypothesis Hsa : state_ok after.
Hypothesis Hap : applied before b after.

Lemma unchanged_get {T} (zero : T) (m m' : gmap string T) cs id :
  keys_ok cs /\ m' = foldl apply_change m cs -> id ∉ map Key cs -> map_get zero m id = map_get zero m' id.
Proof. intros [_ ->] Hid. unfold map_get. by rewrite foldl_apply_other. Qed.

Lemma unchanged_asg id : id ∉ map Key (b_Assignments b) -> asg before id = asg after id.
Proof using Hap. intros Hid. destruct (ap_Assignments _ _ _ Hap) as (Hk & _ & E). by eapply unchanged_get. Qed.

Lemma applied_keys {T} (cs : list (Change T)) (m m' : gmap string T) :
  keys_ok cs /\ m' = foldl apply_change m cs -> NoDup (map Key cs).
Proof. by intros [[_ ?] _]. Qed.

(** A member of a bucket is a link. *)
Lemma indexed_member r f k m :
  indexed r f -> m ∈ dom (Get ∅ r k) <-> k <> "" /\ m <> "" /\ exists id, f id = (k, m).
Proof.
  intros (Hr & U & N & C & S). rewrite elem_of_dom, Get_rows by apply Hr.
  assert (Hpos : is_Some (map_get ∅ (rows r) k !! m) <-> 0 < cnt r k m).
  { unfold cnt, map_get at 2. destruct Hr as [_ Hr]. unfold map_get. destruct (rows r !! k) as [bk|] eqn:Eb; cbn.
    - destruct (bk !! m) as [n|] eqn:En; cbn.
      + split; [|eauto]. intros _. apply Hr in Eb as (_ & _ & Hb). exact (proj2 (Hb _ _ En)).
      + split; [by intros [? ?]|done].
    - rewrite lookup_empty. cbn. split; [by intros [? ?]|done]. }
  rewrite Hpos, S. split.
  - intros Hp. destruct (decide (Exists (fun id => ind (f id) k m <> 0) U)) as [He|He].
    + apply Exists_exists in He as (id & Hin & Hi). unfold ind in Hi. case_bool_decide as Hd; [|done].
      destruct Hd as (H1 & H2 & E). rewrite E in H1, H2. eauto.
    + exfalso. apply not_Exists_Forall in He; [|intros; apply _]. rewrite Forall_forall in He.
      assert (Hz : sumZ (fun id => ind (f id) k m) U = sumZ (fun _ => 0) U)
        by (apply sumZ_ext; intros id Hid; by apply dec_stable, He).
      rewrite Hz in Hp. clear -Hp. induction U as [|x U IH]; [done|]. apply IH, Hp.
  - intros (Hk & Hm & id & E).
    assert (Hin : id ∈ U) by (apply C; by rewrite E).
    rewrite (sumZ_update (fun x => if decide (x = id) then 0 else ind (f x) k m) _ id U N Hin).
    + cbn beta. rewrite decide_True, E by done. unfold ind at 2. rewrite bool_decide_eq_true_2 by done.
      enough (0 <= sumZ (fun x => if decide (x = id) then 0 else ind (f x) k m) U) by lia.
      apply sumZ_nonneg. intros x _. destruct (decide _); [lia|apply ind_bounds].
    + intros x Hx. by rewrite decide_False.
Qed.

Lemma unchanged_env previous id :
  indexes_ok before previous -> id ∉ changedAssignments before after previous b ->
  asg before id = asg after id /\ assignment_env before (asg before id) = assignment_env after (asg after id).
Proof using Hsb Hsa Hap.
  intros Hi Hid. unfold changedAssignments in Hid. apply not_elem_of_union in Hid as [H1 H2].
  assert (E : asg before id = asg after id) by (apply unchanged_asg; by rewrite elem_of_list_to_set in H1).
  split; [done|]. rewrite <- E. unfold assignment_env. destruct (str_eqb (asg_RolloutState _) "lost"); [done|].
  set (sid := asg_ServiceID (asg before id)).
  destruct (decide (sid ∈ map Key (b_Services b))) as [(c & Ec & Hc)%list_elem_of_fmap|Hni].
  - destruct (service_moved before after sid) eqn:Em.
    + exfalso. apply H2. apply elem_of_union_list. eexists. split; [apply list_elem_of_fmap; eexists; split; [done|exact Hc]|].
      cbn beta. rewrite <- Ec, Em. apply (indexed_member _ _ _ _ (ix_asg_service _ _ Hi)).
      assert (Hs : sid <> "").
      { intros Hs. unfold service_moved in Em. rewrite Hs in Em. unfold map_get in Em.
        rewrite (ok_Services _ Hsb), (ok_Services _ Hsa) in Em. by cbn in Em. }
      assert (Hidn : id <> "").
      { intros ->. apply Hs. unfold sid, asg, map_get. by rewrite (ok_Assignments _ Hsb). }
      split; [done|]. split; [done|]. by exists id.
    + unfold service_moved in Em. by apply negb_false_iff, str_eqb_eq in Em.
  - f_equal. apply (unchanged_get _ _ _ (b_Services b)); [apply (ap_Services _ _ _ Hap)|done].
Qed.

(** The indexes that follow one table, and those that follow the assignments. *)
Ltac drop_folds pr := repeat (rewrite (foldl_same pr) by edit_case).

Ltac table_index pr link H :=
  drop_folds pr; rewrite (foldl_relink pr _ Key (link before) (link after)) by edit_link;
  apply indexed_relink_all;
  [drop_folds pr; match goal with Hi : indexes_ok _ _ |- _ => apply Hi end
  |exact (applied_keys _ _ _ H)
  |let id := fresh in let Hid := fresh in intros id Hid; unfold link; by rewrite (unchanged_get _ _ _ _ _ H Hid)].

Ltac assignment_index pr link step :=
  rewrite (foldl_relink pr _ (fun id => id) (link before) (link after)) by step; rewrite map_id;
  apply indexed_relink_all;
  [drop_folds pr; match goal with Hi : indexes_ok _ _ |- _ => apply Hi end
  |assumption
  |let id := fresh in let Hid := fresh in intros id Hid; unfold link;
   match goal with Hu : forall id, id ∉ _ -> _ |- _ => destruct (Hu id Hid) as [? ?]; congruence end].

Lemma update_in_ok order previous :
  indexes_ok before previous -> NoDup order -> (forall id, id ∈ order <-> id ∈ changedAssignments before after previous b) ->
  indexes_ok after (update_in before after order previous b).
Proof using Hwb Hwa Hsb Hsa Hap.
  intros Hi Hn Ho.
  assert (Hu : forall id, id ∉ order ->
    asg before id = asg after id /\ assignment_env before (asg before id) = assignment_env after (asg after id)).
  { intros id Hid. apply (unchanged_env previous); [done|]. by rewrite <- Ho. }
  unfold update_in. cbv zeta. split.
  - table_index servicesByEnvironment link_service (ap_Services _ _ _ Hap).
  - table_index domainsByService link_domain (ap_Domains _ _ _ Hap).
  - table_index environmentsByProject link_environment (ap_Environments _ _ _ Hap).
  - table_index volumesByEnvironment link_volume_env (ap_Volumes _ _ _ Hap).
  - table_index volumesByAgent link_volume_agent (ap_Volumes _ _ _ Hap).
  - table_index destructionsByAgent link_destruction (ap_Destructions _ _ _ Hap).
  - assignment_index assignmentsByDeployment link_asg_deployment ltac:(edit_link).
  - assignment_index assignmentsByAgent link_asg_agent ltac:(edit_link).
  - assignment_index assignmentsByService link_asg_service ltac:(edit_link).
  - assignment_index environmentsByAgent link_env_agent ltac:(apply env_agent_step).
  - assignment_index agentsByEnvironment link_agent_env ltac:(apply agent_env_step).
Qed.
End UpdateProofs.

(** Whatever the order in which the changed assignments are visited. *)
Lemma update_any_order before after b previous order :
  state_ok before -> state_ok after -> applied before b after -> indexes_ok before previous ->
  order ≡ₚ elements (changedAssignments before after previous b) ->
  update_in before after order previous b = updateIndexes before after previous b.
Proof.
  intros Hb Ha Hap Hi Ho. apply (indexes_ok_unique after).
  - apply update_in_ok; try done; [apply Hb|apply Ha|rewrite Ho; apply NoDup_elements|].
    intros id. by rewrite Ho, elem_of_elements.
  - apply update_in_ok; try done; [apply Hb|apply Ha|apply NoDup_elements|]. intros id. by rewrite elem_of_elements.
Qed.

Lemma updateIndexes_ok before after b previous :
  state_ok before -> state_ok after -> applied before b after -> indexes_ok before previous ->
  indexes_ok after (updateIndexes before after previous b).
Proof.
  intros Hb Ha Hap Hi. apply update_in_ok; try done; [apply Hb|apply Ha|apply NoDup_elements|].
  intros id. by rewrite elem_of_elements.
Qed.

(** ** Reserved addresses *)

Lemma new_indexes_ok s : state_ok s -> indexes_ok s (indexes (newProjection s)).
Proof.
  intros Hs. set (s0 := s <| ClusterID := "" |> <| LogIndex := 0 |>).
  assert (Hs0 : state_ok s0) by (destruct Hs; by split).
  assert (Hap : applied (empty_state "") (Diff (empty_state "") s) s0).
  { apply (diff_applied (empty_state "") s); [apply state_ok_empty|done|]. intros id x y Hx. change (rows (Assignments (empty_state ""))) with (∅ : gmap string Assignment) in Hx. by rewrite lookup_empty in Hx. }
  pose proof (updateIndexes_ok _ _ _ _ (state_ok_empty "") Hs0 Hap (indexes_ok_empty "")) as []. by split.
Qed.

(** An address belongs to the one assignment that reserves it. *)
Definition addresses_ok (s : DurableState) (t : RowMap string) : Prop :=
  wf t /\ forall x id, rows t !! x = Some id <-> x ∈ reserved (asg s id).

Definition unique_reservations (s : DurableState) : Prop :=
  (forall id, NoDup (reserved (asg s id))) /\
  (forall id1 id2 x, x ∈ reserved (asg s id1) -> x ∈ reserved (asg s id2) -> id1 = id2).

Lemma NoDup_flat_map {A B} (g : A -> list B) (l : list A) :
  NoDup l -> NoDup (flat_map g l) <->
  (forall a, a ∈ l -> NoDup (g a)) /\ (forall a1 a2 x, a1 ∈ l -> a2 ∈ l -> x ∈ g a1 -> x ∈ g a2 -> a1 = a2).
Proof.
  assert (Hin : forall x l, x ∈ flat_map g l <-> exists a, a ∈ l /\ x ∈ g a).
  { intros x l'. setoid_rewrite list_elem_of_In. apply in_flat_map. }
  induction l as [|a l IH]; intros Hn; cbn [flat_map].
  - split; [intros _; split; set_solver|constructor].
  - apply NoDup_cons in Hn as [Ha Hn]. specialize (IH Hn). rewrite NoDup_app, IH. split.
    + intros (H1 & H2 & H3 & H4). split.
      * intros a' Ha'. apply elem_of_cons in Ha' as [->|]; auto.
      * intros a1 a2 x Ha1 Ha2 Hx1 Hx2. apply elem_of_cons in Ha1 as [->|Ha1], Ha2 as [->|Ha2]; eauto.
        -- exfalso. apply (H2 x Hx1), Hin. eauto.
        -- exfalso. apply (H2 x Hx2), Hin. eauto.
    + intros (H1 & H2). split; [apply H1; set_solver|]. split.
      * intros x Hx (a' & Ha' & Hx')%Hin. rewrite (H2 a a' x) in Ha by set_solver. done.
      * split; [intros; apply H1; set_solver|]. intros a1 a2 x Ha1 Ha2. apply H2; set_solver.
Qed.

Lemma elem_of_flat_map {A B} (g : A -> list B) (l : list A) x : x ∈ flat_map g l <-> exists a, a ∈ l /\ x ∈ g a.
Proof. setoid_rewrite list_elem_of_In. apply in_flat_map. Qed.

Lemma reservations_ids s : wf (Assignments s) ->
  reservations (All (Assignments s)) = flat_map (fun id => reserved (asg s id)) (All (Assignments s)).*1.
Proof.
  intros Hw. unfold reservations.
  assert (Hall : forall row, row ∈ All (Assignments s) -> asg s row.1 = row.2).
  { intros [id a] Hin. apply All_elem in Hin; [|done]. unfold asg, map_get. cbn. by rewrite Hin. }
  induction (All (Assignments s)) as [|row l IH]; [done|]. cbn. rewrite Hall by set_solver. f_equal. apply IH. set_solver.
Qed.

Lemma asg_absent s id : wf (Assignments s) -> id ∉ (All (Assignments s)).*1 -> reserved (asg s id) = [].
Proof.
  intros Hw Hid. unfold asg, map_get. destruct (rows (Assignments s) !! id) as [a|] eqn:E; [|done].
  apply All_elem in E; [|done]. destruct Hid. by apply (list_elem_of_fmap_2 fst) in E.
Qed.

Lemma unique_reservations_iff s : wf (Assignments s) ->
  NoDup (reservations (All (Assignments s))) <-> unique_reservations s.
Proof.
  intros Hw. rewrite reservations_ids, NoDup_flat_map by (done || by apply sorted_keys_NoDup, All_sorted).
  unfold unique_reservations. split.
  - intros [H1 H2]. split.
    + intros id. destruct (decide (id ∈ (All (Assignments s)).*1)); [auto|]. rewrite asg_absent by done. constructor.
    + intros id1 id2 x Hx1 Hx2. apply (H2 _ _ x); try done; apply dec_stable; intros Hn;
        rewrite asg_absent in * by done; set_solver.
  - intros [H1 H2]. split; [auto|]. eauto.
Qed.

(** *** Building the addresses *)

Lemma rows_foldl_Set (t : RowMap string) (id : string) l : wf t ->
  wf (foldl (fun t address => Set_ t address id) t l) /\
  forall x, rows (foldl (fun t address => Set_ t address id) t l) !! x = if decide (x ∈ l) then Some id else rows t !! x.
Proof.
  revert t. induction l as [|y l IH]; intros t Hw; cbn [foldl]; [done|].
  destruct (IH (Set_ t y id) (wf_Set _ _ _ Hw)) as [H1 H2]. split; [done|]. intros x. rewrite H2, rows_Set by done.
  destruct (decide (x ∈ l)) as [Hx|Hx]; [by rewrite decide_True by set_solver|].
  destruct (decide (x = y)) as [->|Hne]; [rewrite lookup_insert_eq, decide_True by set_solver; done|].
  rewrite lookup_insert_ne, decide_False by set_solver. done.
Qed.

Lemma reserve_rows_spec l (t : RowMap string) : wf t -> NoDup (reservations l) ->
  wf (foldl reserve_row t l) /\
  forall x id, rows (foldl reserve_row t l) !! x = Some id <->
    (exists a, (id, a) ∈ l /\ x ∈ reserved a) \/ (x ∉ reservations l /\ rows t !! x = Some id).
Proof.
  unfold reservations. revert t. induction l as [|[i a] l IH]; intros t Hw Hn; cbn [foldl flat_map].
  - split; [done|]. intros x id. split; [intros; right; split; set_solver|]. intros [(? & ? & _)|[_ ?]]; set_solver.
  - cbn [flat_map snd] in Hn. apply NoDup_app in Hn as (Hna & Hd & Hnl).
    destruct (rows_foldl_Set t i (reserved a) Hw) as [Hw1 Hr1].
    destruct (IH _ Hw1 Hnl) as [Hw2 Hr2]. split; [exact Hw2|]. intros x id. unfold reserve_row at 2. cbn [fst snd].
    rewrite Hr2, Hr1. rewrite not_elem_of_app. destruct (decide (x ∈ reserved a)) as [Hx|Hx].
    + split.
      * intros [(a' & Hin & Hx')|[_ [=<-]]]; left; [exists a'|exists a]; split; set_solver.
      * intros [(a' & Hin & Hx')|[[? _] _]]; [|done]. apply elem_of_cons in Hin as [[=-> ->]|Hin]; [right; split; [|done]|left; eauto].
        by apply Hd.
    + split.
      * intros [(a' & Hin & Hx')|[? ?]]; [left; exists a'; set_solver|by right].
      * intros [(a' & Hin & Hx')|[[_ ?] ?]]; [|by right]. apply elem_of_cons in Hin as [[=-> ->]|Hin]; [done|left; eauto].
Qed.

Lemma new_addresses_ok s : state_ok s -> reservations_ok s -> addresses_ok s (addresses (newProjection s)).
Proof.
  intros Hs [_ Hn]. destruct (reserve_rows_spec _ empty wf_empty Hn) as [Hw Hr]. split; [exact Hw|]. intros x id.
  cbn [newProjection addresses]. rewrite Hr, rows_empty, lookup_empty. split.
  - intros [(a & Hin & Hx)|[_ [=]]]. apply All_elem in Hin; [|apply Hs]. unfold asg, map_get. by rewrite Hin.
  - intros Hx. left. unfold asg, map_get in Hx. destruct (rows (Assignments s) !! id) as [a|] eqn:E; [|by apply elem_of_nil in Hx].
    exists a. split; [|done]. apply All_elem; [apply Hs|done].
Qed.

Lemma addresses_ok_unique s t1 t2 : addresses_ok s t1 -> addresses_ok s t2 -> t1 = t2.
Proof.
  intros [Hw1 H1] [Hw2 H2]. apply rows_inj; [done..|]. apply map_eq. intros x. apply option_eq. intros id.
  by rewrite H1, H2.
Qed.

(** ** Advancing the projection *)

Record projection_ok (p : Projection) : Prop := {
  po_state : state_ok (state p);
  po_reservations : reservations_ok (state p);
  po_indexes : indexes_ok (state p) (indexes p);
  po_addresses : addresses_ok (state p) (addresses p)
}.

Lemma newProjection_ok s : state_ok s -> reservations_ok s -> projection_ok (newProjection s).
Proof. intros Hs Hr. split; [done|done|by apply new_indexes_ok|by apply new_addresses_ok]. Qed.

(** A well-formed projection is the one built from its state. *)
Lemma projection_ok_new p : projection_ok p -> p = newProjection (state p).
Proof.
  intros [H1 H2 H3 H4]. destruct p as [s i t]. cbn in *.
  pose proof (indexes_ok_unique _ _ _ H3 (new_indexes_ok _ H1)) as Ei.
  pose proof (addresses_ok_unique _ _ _ H4 (new_addresses_ok _ H1 H2)) as Et.
  rewrite Ei, Et. done.
Qed.

Lemma rows_foldl_Delete (t : RowMap string) l : wf t ->
  wf (foldl Delete t l) /\ forall x, rows (foldl Delete t l) !! x = if decide (x ∈ l) then None else rows t !! x.
Proof.
  revert t. induction l as [|y l IH]; intros t Hw; cbn [foldl]; [done|].
  destruct (IH (Delete t y) (wf_Delete _ _ Hw)) as [H1 H2]. split; [done|]. intros x. rewrite H2, rows_Delete by done.
  destruct (decide (x ∈ l)) as [Hx|Hx]; [by rewrite decide_True by set_solver|].
  destruct (decide (x = y)) as [->|Hne]; [rewrite lookup_delete_eq, decide_True by set_solver; done|].
  rewrite lookup_delete_ne, decide_False by set_solver. done.
Qed.

Lemma release_spec p cs t : wf (Assignments (state p)) -> wf t ->
  wf (foldl (release p) t cs) /\
  forall x, rows (foldl (release p) t cs) !! x =
    if decide (x ∈ flat_map (fun id => reserved (asg (state p) id)) (map Key cs)) then None else rows t !! x.
Proof.
  intros Hwp. revert t. induction cs as [|c cs IH]; intros t Hw; cbn [foldl map flat_map]; [done|].
  destruct (rows_foldl_Delete t (reserved (asg (state p) (Key c))) Hw) as [H1 H2].
  unfold release at 2 4. rewrite Get_rows by done. fold (asg (state p) (Key c)).
  destruct (IH _ H1) as [H3 H4]. split; [done|]. intros x. rewrite H4, H2.
  destruct (decide (x ∈ flat_map _ (map Key cs))) as [Hx|Hx]; [by rewrite decide_True by (apply elem_of_app; auto)|].
  destruct (decide (x ∈ reserved _)) as [Hy|Hy]; [by rewrite decide_True by (apply elem_of_app; auto)|].
  rewrite decide_False; [done|]. rewrite elem_of_app. tauto.
Qed.

Lemma reserve_checked_ok id t l t' : wf t ->
  reserve_checked id t l = Ok t' <->
  NoDup l /\ (forall x, x ∈ l -> rows t !! x = None) /\ t' = foldl (fun t address => Set_ t address id) t l.
Proof.
  revert t. induction l as [|x l IH]; intros t Hw; cbn [reserve_checked foldl].
  - split; [intros [=->]; split; [constructor|split; [set_solver|done]]|naive_solver].
  - rewrite Lookup_rows by done. destruct (rows t !! x) as [o|] eqn:E.
    + split; [done|]. intros (_ & H & _). by rewrite H in E by set_solver.
    + rewrite IH, NoDup_cons, rows_Set by (done || by apply wf_Set). split.
      * intros (Hn & Hf & ->). split; [split; [|done]|split; [|done]].
        -- intros Hin. apply Hf in Hin. by rewrite lookup_insert_eq in Hin.
        -- intros y Hy. apply elem_of_cons in Hy as [->|Hy]; [done|]. apply Hf in Hy.
           by apply lookup_insert_None in Hy as [? _].
      * intros ([Hx Hn] & Hf & ->). split; [done|]. split; [|done]. intros y Hy.
        rewrite lookup_insert_ne; [|set_solver]. apply Hf. set_solver.
Qed.

(** The rows a batch writes. *)
Definition written (cs : list (Change Assignment)) : list (string * Assignment) :=
  omap (fun c => (fun a => (Key c, a)) <$> Value c) cs.

Lemma reserve_changes_ok t cs t' : wf t ->
  reserve_changes t cs = Ok t' <->
  NoDup (reservations (written cs)) /\ (forall x, x ∈ reservations (written cs) -> rows t !! x = None) /\
  t' = foldl reserve_row t (written cs).
Proof.
  unfold written. revert t. induction cs as [|c cs IH]; intros t Hw; cbn [reserve_changes omap list_omap].
  - split; [intros [=->]; split; [constructor|split; [set_solver|done]]|naive_solver].
  - destruct (Value c) as [a|]; cbn [fmap option_fmap option_map foldl]; [|by apply IH].
    unfold reservations. cbn [flat_map snd]. fold (reservations (omap (fun c => (fun a => (Key c, a)) <$> Value c) cs)).
    set (l := omap _ cs) in *. destruct (rows_foldl_Set t (Key c) (reserved a) Hw) as [Hw1 Hr1].
    rewrite NoDup_app, bind_ok. split.
    + intros (t1 & (Hn & Hf & ->)%reserve_checked_ok & (Hn' & Hf' & ->)%IH); [|done..].
      assert (Hsep : forall x, x ∈ reservations l -> x ∉ reserved a /\ rows t !! x = None).
      { intros x Hx. apply Hf' in Hx. rewrite Hr1 in Hx. destruct (decide (x ∈ reserved a)); [done|]. by split. }
      split; [split; [done|split; [|done]]|split; [|done]].
      * intros x Hx Hx'. by apply Hsep in Hx' as [? _].
      * intros x [Hx|Hx]%elem_of_app; [auto|]. by apply Hsep.
    + intros ((Hn & Hd & Hn') & Hf & ->). eexists. split.
      * apply reserve_checked_ok; [done|]. split; [done|]. split; [|done]. intros x Hx. apply Hf, elem_of_app. auto.
      * apply IH; [done|]. split; [done|]. split; [|done]. intros x Hx. rewrite Hr1.
        rewrite decide_False; [apply Hf, elem_of_app; auto|]. intros Hx'. by apply (Hd x).
Qed.

Lemma validate_affected_ok s ids : wf (Assignments s) ->
  validate_affected s ids = Ok tt <->
  forall id a, id ∈ ids -> rows (Assignments s) !! id = Some a -> valid_assignment s id a.
Proof.
  intros Hw. induction ids as [|id ids IH]; cbn [validate_affected]; [split; [set_solver|done]|].
  rewrite Lookup_rows by done. destruct (rows (Assignments s) !! id) as [a|] eqn:E.
  - rewrite bind_ok. split.
    + intros ([] & Hv & Hr). apply validateAssignment_ok in Hv. intros id' a' Hin Ha'.
      apply elem_of_cons in Hin as [->|Hin]; [congruence|]. by apply IH.
    + intros H. exists tt. split; [apply validateAssignment_ok, H; [set_solver|done]|]. apply IH. intros. apply H; set_solver.
  - rewrite IH. split; intros H id' a' Hin Ha'; [|apply H; set_solver].
    apply elem_of_cons in Hin as [->|Hin]; [congruence|auto].
Qed.

Section Project.
Variables (p : Projection) (b : Batch) (s : DurableState).
Hypothesis Hp : projection_ok p.
Hypothesis Hap : applied (state p) b s.

Lemma proj_state_ok : state_ok s.
Proof using Hp Hap. exact (applied_state_ok _ _ _ (po_state _ Hp) Hap). Qed.

Lemma written_reservations :
  reservations (written (b_Assignments b)) = flat_map (fun id => reserved (asg s id)) (map Key (b_Assignments b)).
Proof using Hp Hap.
  destruct (ap_Assignments _ _ _ Hap) as ([_ Hn] & _ & E).
  assert (Hc : forall c, c ∈ b_Assignments b -> asg s (Key c) = default zero_Assignment (Value c)).
  { intros c Hc. unfold asg, map_get. rewrite E, foldl_apply_changed by done. done. }
  clear Hn E. unfold reservations, written. induction (b_Assignments b) as [|c cs IH]; [done|].
  cbn [omap list_omap map flat_map]. rewrite Hc by set_solver. specialize (IH ltac:(intros; apply Hc; set_solver)).
  destruct (Value c) as [a|]; cbn [fmap option_fmap option_map flat_map default snd]; [by rewrite IH|exact IH].
Qed.

(** A row deleted together with an assignment it carries strands that assignment. *)
Lemma deleted_row {T} (cs : list (Change T)) (m m' : gmap string T) k :
  keys_ok cs /\ m' = foldl apply_change m cs -> is_Some (m !! k) -> m' !! k = None ->
  exists c, c ∈ cs /\ Key c = k /\ Value c = None.
Proof.
  intros [[_ Hn] ->] [v Hv] Hno. destruct (decide (k ∈ map Key cs)) as [(c & -> & Hc)%list_elem_of_fmap|Hni].
  - exists c. rewrite foldl_apply_changed in Hno by done. done.
  - rewrite foldl_apply_other in Hno by done. congruence.
Qed.

Lemma stranded_affected {T} r (cs : list (Change T)) (m m' : gmap string T) f k id :
  indexed r f -> f id = (k, id) -> k <> "" -> id <> "" ->
  keys_ok cs /\ m' = foldl apply_change m cs -> is_Some (m !! k) -> m' !! k = None -> id ∈ ⋃ map (stranded r) cs.
Proof.
  intros Hi Hf Hk Hid Hm Hs Hno. destruct (deleted_row _ _ _ _ Hm Hs Hno) as (c & Hc & <- & Hv).
  apply elem_of_union_list. exists (stranded r c). split; [by apply list_elem_of_fmap_2|].
  unfold stranded. rewrite Hv. apply (indexed_member _ _ _ _ Hi). eauto.
Qed.

Lemma affected_covers id a :
  rows (Assignments s) !! id = Some a -> id ∉ affected p b -> valid_assignment s id a.
Proof using Hp Hap.
  intros Ha Hn. unfold affected in Hn. rewrite !not_elem_of_union in Hn. destruct Hn as (((N1 & N2) & N3) & N4).
  destruct Hp as [Hs [Hv _] Hi _]. rewrite elem_of_list_to_set in N1.
  destruct (ap_Assignments _ _ _ Hap) as (_ & _ & E). pose proof Ha as Hbefore. rewrite E, foldl_apply_other in Hbefore by done.
  assert (Hasg : asg (state p) id = a) by (unfold asg, map_get; by rewrite Hbefore).
  assert (Hid : id <> "") by (intros ->; rewrite (ok_Assignments _ Hs) in Hbefore; done).
  destruct (Hv _ _ Hbefore) as (V1 & V2 & V3 & V4 & V5 & V6 & V7). unfold valid_assignment.
  rewrite <- !not_eq_None_Some. repeat split; try done; intros Hno.
  - apply N2. eapply (stranded_affected _ _ _ _ _ _ _ (ix_asg_agent _ _ Hi)); [unfold link_asg_agent; by rewrite Hasg|done..| |done|done].
    apply (ap_Agents _ _ _ Hap).
  - apply N3. eapply (stranded_affected _ _ _ _ _ _ _ (ix_asg_service _ _ Hi)); [unfold link_asg_service; by rewrite Hasg|done..| |done|done].
    apply (ap_Services _ _ _ Hap).
  - apply N4. eapply (stranded_affected _ _ _ _ _ _ _ (ix_asg_deployment _ _ Hi)); [unfold link_asg_deployment; by rewrite Hasg|done..| |done|done].
    apply (ap_Deployments _ _ _ Hap).
Qed.

Let K : list string := map Key (b_Assignments b).
Let released : RowMap string := foldl (release p) (addresses p) (b_Assignments b).

Lemma outside_K id : id ∉ K -> asg s id = asg (state p) id.
Proof using Hap. intros Hid. symmetry. by apply (unchanged_asg _ _ _ Hap). Qed.

Lemma released_lookup x id :
  rows released !! x = Some id <-> id ∉ K /\ x ∈ reserved (asg (state p) id).
Proof using Hp.
  destruct Hp as [Hs [_ Hr] _ [Hwa Ha]]. apply unique_reservations_iff in Hr as [_ Hu]; [|apply Hs].
  destruct (release_spec p (b_Assignments b) (addresses p)) as [_ H]; [apply Hs|done|].
  unfold released. rewrite H. fold K. destruct (decide _) as [(id' & Hid' & Hx)%elem_of_flat_map|Hni].
  - split; [done|]. intros [Hid Hx']. by rewrite (Hu id id' x) in Hid.
  - rewrite Ha. split; [|tauto]. intros Hx. split; [|done]. intros Hid. apply Hni, elem_of_flat_map. eauto.
Qed.

Lemma released_wf : wf released.
Proof using Hp. destruct Hp as [Hs _ _ [Hwa _]]. apply release_spec; [apply Hs|done]. Qed.

Lemma NoDup_K : NoDup K.
Proof using Hap. destruct (ap_Assignments _ _ _ Hap) as ([_ Hn] & _). exact Hn. Qed.

(** Checking the changed reservations checks them all. *)
Lemma changed_reservations :
  NoDup (flat_map (fun id => reserved (asg s id)) K) /\
  (forall x, x ∈ flat_map (fun id => reserved (asg s id)) K -> rows released !! x = None) <->
  unique_reservations s.
Proof using Hp Hap.
  assert (Hub : unique_reservations (state p)).
  { destruct Hp as [Hs [_ Hr] _ _]. by apply unique_reservations_iff; [apply Hs|]. }
  destruct Hub as [Hub1 Hub2]. rewrite NoDup_flat_map by apply NoDup_K. split.
  - intros [[H1 H2] H3].
    assert (Hx : forall id1 id2 x, id1 ∈ K -> id2 ∉ K -> x ∈ reserved (asg s id1) -> x ∈ reserved (asg s id2) -> False).
    { intros id1 id2 x I1 I2 X1 X2. rewrite (outside_K id2) in X2 by done.
      assert (Hn : rows released !! x = None) by (apply H3, elem_of_flat_map; eauto).
      assert (Hsome : rows released !! x = Some id2) by (by apply released_lookup). congruence. }
    split.
    + intros id. destruct (decide (id ∈ K)); [auto|]. by rewrite outside_K.
    + intros id1 id2 x X1 X2. destruct (decide (id1 ∈ K)) as [I1|I1], (decide (id2 ∈ K)) as [I2|I2].
      * by apply (H2 _ _ x).
      * by destruct (Hx id1 id2 x).
      * by destruct (Hx id2 id1 x).
      * rewrite outside_K in X1, X2 by done. by apply (Hub2 _ _ x).
  - intros [H1 H2]. split; [split; eauto|]. intros x (id & Hid & Hx)%elem_of_flat_map.
    destruct (rows released !! x) as [o|] eqn:E; [|done]. apply released_lookup in E as [Ho Hxo].
    rewrite <- outside_K in Hxo by done. by rewrite (H2 o id x) in Ho.
Qed.

Lemma project_addresses_ok :
  unique_reservations s -> addresses_ok s (foldl reserve_row released (written (b_Assignments b))).
Proof using Hp Hap.
  intros Hu. pose proof Hu as [Hu1 Hu2]. apply changed_reservations in Hu as [Hn _]. unfold K in Hn. rewrite <- written_reservations in Hn.
  destruct (reserve_rows_spec _ _ released_wf Hn) as [Hw Hr]. split; [done|]. intros x id. rewrite Hr, written_reservations. fold K.
  assert (Hwr : (exists a, (id, a) ∈ written (b_Assignments b) /\ x ∈ reserved a) <-> id ∈ K /\ x ∈ reserved (asg s id)).
  { destruct (ap_Assignments _ _ _ Hap) as ([_ Hnd] & _ & E).
    assert (Hval : forall c, c ∈ b_Assignments b -> asg s (Key c) = default zero_Assignment (Value c))
      by (intros c Hc; unfold asg, map_get; by rewrite E, foldl_apply_changed).
    unfold written. setoid_rewrite list_elem_of_omap. split.
    - intros (a & (c & Hc & Ec) & Hx). destruct (Value c) eqn:Ev; cbn in Ec; simplify_eq.
      split; [by apply list_elem_of_fmap_2|]. rewrite Hval, Ev by done. done.
    - intros [(c & -> & Hc)%list_elem_of_fmap Hx]. rewrite Hval in Hx by done.
      destruct (Value c) as [a|] eqn:Ev; [|by apply elem_of_nil in Hx]. exists a. split; [|done]. exists c. by rewrite Ev. }
  rewrite Hwr, released_lookup. split.
  - intros [[_ Hx]|(_ & Hid & Hx)]; [done|]. by rewrite outside_K.
  - intros Hx. destruct (decide (id ∈ K)) as [Hid|Hid]; [by left|]. right. split; [|by rewrite <- outside_K].
    intros (id' & Hid' & Hx')%elem_of_flat_map. by rewrite (Hu2 id id' x) in Hid.
Qed.

Lemma project_ok p' : project p s b = Ok p' <-> reservations_ok s /\ p' = newProjection s.
Proof using Hp Hap.
  pose proof proj_state_ok as Hs. unfold project. fold released. rewrite bind_ok.
  assert (Hidx : updateIndexes (state p) s (indexes p) b = indexes (newProjection s)).
  { apply (indexes_ok_unique s); [|by apply new_indexes_ok]. destruct Hp. by apply updateIndexes_ok. }
  assert (Hres : forall t, reserve_changes released (b_Assignments b) = Ok t <->
    unique_reservations s /\ t = foldl reserve_row released (written (b_Assignments b))).
  { intros t. rewrite reserve_changes_ok by apply released_wf. rewrite written_reservations. fold K.
    rewrite <- changed_reservations. tauto. }
  assert (Hval : validate_affected s (elements (affected p b)) = Ok tt <->
    forall id a, rows (Assignments s) !! id = Some a -> valid_assignment s id a).
  { rewrite validate_affected_ok by apply Hs. setoid_rewrite elem_of_elements. split; [|auto].
    intros H id a Ha. destruct (decide (id ∈ affected p b)); [auto|]. by apply affected_covers. }
  unfold reservations_ok. rewrite unique_reservations_iff by apply Hs. split.
  - intros ([] & Hv & (t & (Hu & ->)%Hres & [=<-])%bind_ok). rewrite Hval in Hv. split; [done|].
    unfold newProjection. rewrite Hidx. f_equal. apply (addresses_ok_unique s); [by apply project_addresses_ok|].
    apply new_addresses_ok; [done|]. split; [done|]. by apply unique_reservations_iff; [apply Hs|].
  - intros ((Hv & Hu) & ->). exists tt. split; [by apply Hval|]. apply bind_ok. eexists. split; [by apply Hres|].
    rewrite Hidx. unfold newProjection. do 2 f_equal. apply (addresses_ok_unique s); [by apply project_addresses_ok|].
    apply new_addresses_ok; [done|]. split; [done|]. by apply unique_reservations_iff; [apply Hs|].
Qed.
End Project.

(** ** What a projection promises *)

Section Advance.
Context {codec : PayloadCodec}.

Lemma advance_ok p e p' b : projection_ok p ->
  advance p e = Ok (p', b) <->
  next_entry (state p) e b /\ Apply (state p) e = (state p', None) /\ p' = newProjection (state p').
Proof.
  intros Hp. pose proof (po_state _ Hp) as Hs. unfold advance. rewrite bind_ok. rewrite Apply_ok by apply Hs. split.
  - intros ([s' b'] & (Hn & Ha & HL)%applyEntry_ok & (p1 & H2 & [=-> ->])%bind_ok); [|apply Hs]. cbn [fst snd] in *.
    apply (project_ok _ _ _ Hp Ha) in H2 as [Hr ->]. cbn [state newProjection]. eauto 10.
  - intros (Hn & (b' & Hn' & Ha & HL & Hr) & Hnew).
    assert (b' = b) as -> by (destruct Hn as (_ & _ & _ & _ & _ & D1 & _), Hn' as (_ & _ & _ & _ & _ & D2 & _); congruence).
    exists (state p', b). split; [apply applyEntry_ok; [apply Hs|done]|]. apply bind_ok. exists p'. split; [|done].
    by apply (project_ok _ _ _ Hp Ha).
Qed.

Lemma advance_projection_ok p e p' b : projection_ok p -> advance p e = Ok (p', b) -> projection_ok p'.
Proof.
  intros Hp (_ & Ha & ->)%advance_ok; [|done]. apply Apply_ok in Ha as (b' & _ & Hap & _ & Hr); [|apply Hp].
  apply newProjection_ok; [|done]. exact (applied_state_ok _ _ _ (po_state _ Hp) Hap).
Qed.

Lemma advance_rebuild p e : projection_ok p ->
  match advance p e, Apply (state p) e with
  | Ok (p', b), (s', None) => p' = newProjection s' /\ next_entry (state p) e b /\ projection_ok p'
  | Err _, (s', Some _) => s' = state p
  | _, _ => False
  end.
Proof.
  intros Hp. destruct (advance p e) as [[p' b]|er] eqn:E.
  - pose proof E as (Hn & Ha & Hnew)%advance_ok; [|done]. rewrite Ha. split; [exact Hnew|]. split; [done|].
    by eapply advance_projection_ok.
  - destruct (Apply (state p) e) as [s' [er'|]] eqn:Ea.
    + unfold Apply in Ea. by destruct (_ ≫= _); simplify_eq.
    + pose proof Ea as (b & Hn & Hap & HL & Hr)%Apply_ok; [|apply Hp].
      assert (Hadv : advance p e = Ok (newProjection s', b)) by (apply advance_ok; done). congruence.
Qed.

(** C21: Advancing a projection by an entry is equivalent to applying the entry
    and rebuilding: it succeeds exactly when [Apply] does on the whole state,
    and then every index and every reserved address it updated from the batch is
    the one [newProjection] computes from all rows. *)
Theorem advance_equals_rebuild p e : projection_ok p ->
  match advance p e, Apply (state p) e with
  | Ok (p', b), (s', None) => p' = newProjection s' /\ next_entry (state p) e b /\ projection_ok p'
  | Err _, (s', Some _) => s' = state p
  | _, _ => False
  end.
Proof. apply advance_rebuild. Qed.

Lemma relation_keys_spec r f key x : indexed r f ->
  x ∈ relation_keys r key <-> key <> "" /\ x <> "" /\ exists id, f id = (key, x).
Proof.
  intros Hi. rewrite <- (indexed_member _ _ _ _ Hi), elem_of_dom. unfold relation_keys. rewrite isort_elem, list_elem_of_fmap. split.
  - intros ([x' n] & -> & Hin%elem_of_map_to_list). eauto.
  - intros [n Hn]. exists (x, n). split; [done|]. by apply elem_of_map_to_list.
Qed.

(** The queries of a projection are exact.  They list, in order and once
    each, the assignments of an agent or of a service; an agent is a peer of an
    environment, in both directions, while some assignment of a service of that
    environment that is not lost runs on it, and not longer. *)
Theorem queries_exact p agent env : projection_ok p -> agent <> "" -> env <> "" ->
  (forall id, id ∈ AssignmentIDsForAgent p agent <->
     exists a, rows (Assignments (state p)) !! id = Some a /\ asg_AgentID a = agent) /\
  (forall id service, service <> "" -> id ∈ AssignmentIDsForService p service <->
     exists a, rows (Assignments (state p)) !! id = Some a /\ asg_ServiceID a = service) /\
  (agent ∈ AgentIDsForEnvironment p env <-> env ∈ EnvironmentIDsForAgent p agent) /\
  (agent ∈ AgentIDsForEnvironment p env <->
     exists id a sv, rows (Assignments (state p)) !! id = Some a /\ asg_AgentID a = agent /\
       asg_RolloutState a <> "lost" /\ Services (state p) !! asg_ServiceID a = Some sv /\ svc_EnvironmentID sv = env) /\
  Sorted (fun x y => String.leb x y = true) (AgentIDsForEnvironment p env) /\ NoDup (AgentIDsForEnvironment p env).
Proof.
  intros Hp Ha He. destruct Hp as [Hs _ Hi _].
  assert (Hrow : forall (f : Assignment -> string) id k, k <> "" -> f zero_Assignment = "" ->
    (k <> "" /\ id <> "" /\ exists id', (f (asg (state p) id'), id') = (k, id)) <->
    exists a, rows (Assignments (state p)) !! id = Some a /\ f a = k).
  { intros f id k Hk Hz. split.
    - intros (_ & _ & id' & [=E ->]). unfold asg, map_get in E. destruct (rows _ !! id) as [a|]; [eauto|].
      cbn in E. congruence.
    - intros (a & Hrow & E). split; [done|]. split; [intros ->; by rewrite (ok_Assignments _ Hs) in Hrow|].
      exists id. unfold asg, map_get. by rewrite Hrow, <- E. }
  split; [|split; [|split; [|split; [|split]]]].
  - intros id. unfold AssignmentIDsForAgent. rewrite (relation_keys_spec _ _ _ _ (ix_asg_agent _ _ Hi)). by apply Hrow.
  - intros id service Hse. unfold AssignmentIDsForService. rewrite (relation_keys_spec _ _ _ _ (ix_asg_service _ _ Hi)). by apply Hrow.
  - unfold AgentIDsForEnvironment, EnvironmentIDsForAgent.
    rewrite (relation_keys_spec _ _ _ _ (ix_agent_env _ _ Hi)), (relation_keys_spec _ _ _ _ (ix_env_agent _ _ Hi)).
    unfold link_agent_env, link_env_agent. split; intros (H1 & H2 & id & [=E1 E2]); (split; [done|split; [done|]]); exists id; congruence.
  - unfold AgentIDsForEnvironment. rewrite (relation_keys_spec _ _ _ _ (ix_agent_env _ _ Hi)). unfold link_agent_env. split.
    + intros (_ & _ & id & [=E1 E2]). unfold assignment_env in E1.
      destruct (str_eqb (asg_RolloutState (asg (state p) id)) "lost") eqn:El; [congruence|]. apply str_eqb_neq in El.
      unfold asg in *. unfold map_get at 1 in E2. destruct (rows (Assignments (state p)) !! id) as [a|] eqn:Er; [|cbn in E2; congruence].
      unfold map_get in E1 at 2. unfold map_get in El. rewrite Er in E1, El. cbn in E1, E2, El. unfold map_get in E1.
      destruct (Services (state p) !! asg_ServiceID a) as [sv|] eqn:Es; [|cbn in E1; congruence]. eauto 10.
    + intros (id & a & sv & Er & E1 & El & Es & E2). split; [done|]. split; [done|]. exists id.
      assert (Ea : asg (state p) id = a) by (unfold asg, map_get; by rewrite Er). rewrite Ea.
      unfold assignment_env, map_get.
      apply str_eqb_neq in El. rewrite El, Es. cbn. by rewrite E1, E2.
  - apply isort_sorted. apply string_leb_total.
  - unfold AgentIDsForEnvironment, relation_keys. rewrite isort_perm. apply NoDup_fst_map_to_list.
Qed.
End Advance.

(** ** An example *)

Definition demo_projection : Projection := newProjection demo_state.

Lemma demo_projection_ok : projection_ok demo_projection.
Proof. apply newProjection_ok; [apply demo_state_ok|apply demo_reservations]. Qed.

Lemma advance_equals_rebuild_witness :
  match advance (codec := parsed) demo_projection (demo_entry 8 drain_batch),
    Apply (codec := parsed) (state demo_projection) (demo_entry 8 drain_batch) with
  | Ok (p', b), (s', None) =>
      p' = newProjection s' /\ next_entry (codec := parsed) (state demo_projection) (demo_entry 8 drain_batch) b /\ projection_ok p'
  | Err _, (s', Some _) => s' = state demo_projection
  | _, _ => False
  end.
Proof. apply (advance_equals_rebuild (codec := parsed) demo_projection (demo_entry 8 drain_batch) demo_projection_ok). Defined.

Lemma queries_exact_witness :
  AgentIDsForEnvironment demo_projection "env" = ["agent"] /\
  (forall id, id ∈ AssignmentIDsForAgent demo_projection "agent" <->
     exists a, rows (Assignments (state demo_projection)) !! id = Some a /\ asg_AgentID a = "agent").
Proof.
  split; [vm_compute; reflexivity|].
  apply (queries_exact demo_projection "agent" "env" demo_projection_ok); discriminate.
Defined.

(** The batch that drains the assignment is applied, and the peer stays. *)
Example drain_advances :
  match advance (codec := parsed) demo_projection (demo_entry 8 drain_batch) with
  | Ok (p', _) => LogIndex (state p') = 8 /\ AgentIDsForEnvironment p' "env" = ["agent"]
  | Err _ => False
  end.
Proof. vm_compute. split; reflexivity. Qed.

End Projection.
