(* ===== verification/Product.v ===== *)
(** * The product tables and the state read from them

    [internal/controlplane/journal/product.go]: the SQL tables that are the
    authority for product state, the filters that hide soft-deleted rows and
    finished history, and [readProductState], which renders the visible rows
    into a [Journal.DurableState].  A database that satisfies the foreign keys
    and unique indexes of [schema.go] always reads as a state with valid
    reservations; soft deletion hides a resource with everything below it.

    A table is the list of its rows, [NULL] is [None], and a column of type
    [JSONB] is the compact text the database renders for it. *)

From S2P Require Import Prelude RowMap Journal.

Module Product.
Import RowMap Journal.

(** ** Raw JSON in a decoded row

    [decodeValue] marshals the row once more; [json.Marshal] escapes the bytes
    [<], [>] and [&] and the two line separators inside a [RawMessage]. *)

Fixpoint escape_html (s : string) : string :=
  match s with
  | EmptyString => EmptyString
  | String c rest =>
      if Ascii.eqb c (Ascii.ascii_of_nat 60) then "\u003c" +:+ escape_html rest
      else if Ascii.eqb c (Ascii.ascii_of_nat 62) then "\u003e" +:+ escape_html rest
      else if Ascii.eqb c (Ascii.ascii_of_nat 38) then "\u0026" +:+ escape_html rest
      else match rest with
           | String c2 (String c3 rest2) =>
               if Ascii.eqb c (Ascii.ascii_of_nat 226) && Ascii.eqb c2 (Ascii.ascii_of_nat 128) &&
                  Ascii.eqb c3 (Ascii.ascii_of_nat 168) then "\u2028" +:+ escape_html rest2
               else if Ascii.eqb c (Ascii.ascii_of_nat 226) && Ascii.eqb c2 (Ascii.ascii_of_nat 128) &&
                       Ascii.eqb c3 (Ascii.ascii_of_nat 169) then "\u2029" +:+ escape_html rest2
               else String c (escape_html rest)
           | _ => String c (escape_html rest)
           end
  end.

(** ** Rows of the tables *)

Record projects_row := { p_id : string; p_name : string; p_kind : string; p_system_key : option string;
  p_workspace_id : option string; p_created_at : time; p_deleted_at : option time;
  p_deleted_by_user_id : string; p_delete_expires_at : option time }.

Record environments_row := { e_row : Environment; e_deleted_at : option time }.

Record services_row := { s_id : string; s_environment_id : string; s_name : string; s_current_spec_revision : Z;
  s_desired_replica_count : Z; s_created_at : time; s_updated_at : time; s_deleted_at : option time }.

Record service_delivery_status_row := { ds_service_id : string; ds_current_rollout_generation : option Z;
  ds_current_artifact_id : option string; ds_last_successful_commit_sha : option string;
  ds_latest_build_id : option string; ds_placement_message : option string; ds_updated_at : time }.

Record build_artifacts_row := { ba_id : string; ba_image_ref : string }.

Record service_revisions_row := { sr_service_id : string; sr_spec_revision : Z; sr_spec_json : RawMessage;
  sr_env_dek_id : option string; sr_env_ciphertext : option string; sr_created_at : time }.

Record service_rollouts_row := { ro_service_id : string; ro_rollout_generation : Z; ro_spec_revision : Z;
  ro_reason : string; ro_build_id : option string; ro_requested_by_user_id : string; ro_state : string;
  ro_strategy_json : RawMessage; ro_desired_replica_count : Z; ro_artifact_id : option string;
  ro_failure_reason : string; ro_target_allocation_id : option string; ro_recreate : bool;
  ro_completed_at : option time; ro_progress_at : time; ro_created_at : time }.

Record deployments_row := { d_id : string; d_service_id : string; d_spec_revision : Z; d_rollout_generation : Z;
  d_build_id : string; d_artifact_id : option string; d_source_revision_id : option string; d_state : string;
  d_cause_kind : string; d_cause_id : string; d_reason_code : string; d_detail : string; d_is_current : bool;
  d_requested_by_user_id : string; d_created_at : time; d_updated_at : time }.

Record volumes_row := { v_id : string; v_environment_id : string; v_name : string; v_size_bytes : Z;
  v_agent_id : option string; v_created_at : time; v_deleted_at : option time }.

Record domain_bindings_row := { db_row : Domain; db_deleted_at : option time }.

Record tables := {
  projects : list projects_row; environments : list environments_row; services : list services_row;
  service_delivery_status : list service_delivery_status_row; build_artifacts : list build_artifacts_row;
  service_revisions : list service_revisions_row; allocation_assignments : list Assignment;
  service_rollouts : list service_rollouts_row; deployments : list deployments_row;
  agent_registrations : list AgentRegistration; agent_administration : list AgentAdministration;
  volumes : list volumes_row; volume_destructions : list VolumeDestruction;
  domain_bindings : list domain_bindings_row; billing_restrictions : list BillingRestriction
}.

#[export] Instance tables_eta : Eta tables := fun t =>
  Build_tables (projects t) (environments t) (services t) (service_delivery_status t) (build_artifacts t)
    (service_revisions t) (allocation_assignments t) (service_rollouts t) (deployments t) (agent_registrations t)
    (agent_administration t) (volumes t) (volume_destructions t) (domain_bindings t) (billing_restrictions t).

Definition is_null {A} (o : option A) : bool := match o with None => true | Some _ => false end.

Section Read.
Variable t : tables.

(** ** Tombstone filters *)

Definition projectLive (p : projects_row) : bool := is_null (p_deleted_at p).

(** [NOT EXISTS (SELECT 1 FROM projects p WHERE p.id = id AND p.deleted_at IS NOT NULL)] *)
Definition no_dead_project (id : string) : bool :=
  negb (existsb (fun p => str_eqb (p_id p) id && negb (is_null (p_deleted_at p))) (projects t)).

(** An environment with this id joined to its project, one of them deleted. *)
Definition no_dead_environment (id : string) : bool :=
  negb (existsb (fun e => str_eqb (env_ID (e_row e)) id &&
    existsb (fun p => str_eqb (p_id p) (env_ProjectID (e_row e)) &&
                      (negb (is_null (e_deleted_at e)) || negb (is_null (p_deleted_at p)))) (projects t)) (environments t)).

Definition environmentLive (e : environments_row) : bool :=
  is_null (e_deleted_at e) && no_dead_project (env_ProjectID (e_row e)).

Definition serviceLive (s : services_row) : bool :=
  is_null (s_deleted_at s) && no_dead_environment (s_environment_id s).

(** [serviceChildLiveFilter]: no service with this id joined to its environment
    and project, one of the three deleted. *)
Definition serviceChildLive (id : string) : bool :=
  negb (existsb (fun s => str_eqb (s_id s) id &&
    existsb (fun e => str_eqb (env_ID (e_row e)) (s_environment_id s) &&
      existsb (fun p => str_eqb (p_id p) (env_ProjectID (e_row e)) &&
                        (negb (is_null (s_deleted_at s)) || negb (is_null (e_deleted_at e)) ||
                         negb (is_null (p_deleted_at p)))) (projects t)) (environments t)) (services t)).

Definition volumeLive (v : volumes_row) : bool :=
  is_null (v_deleted_at v) && no_dead_environment (v_environment_id v).

Definition domainLive (d : domain_bindings_row) : bool :=
  is_null (db_deleted_at d) && serviceChildLive (dom_ServiceID (db_row d)).

(** ** Operational filters *)

Definition operational_states : list string :=
  ["staged"; "queued_build"; "building"; "scheduling"; "image_pull"; "starting"; "readiness"; "active"; "draining"].

Definition deploymentOperational (d : deployments_row) : bool :=
  d_is_current d || bool_decide (d_state d ∈ operational_states) ||
  existsb (fun a => str_eqb (asg_DeploymentID a) (d_id d)) (allocation_assignments t).

Definition rolloutOperational (r : service_rollouts_row) : bool :=
  bool_decide (ro_state r ∈ ["pending_build"; "in_progress"]) ||
  existsb (fun d => str_eqb (ds_service_id d) (ro_service_id r) &&
                    bool_decide (ds_current_rollout_generation d = Some (ro_rollout_generation r)))
    (service_delivery_status t) ||
  existsb (fun a => str_eqb (asg_ServiceID a) (ro_service_id r) &&
                    (asg_DesiredRolloutGeneration a =? ro_rollout_generation r)) (allocation_assignments t).

Definition revisionOperational (r : service_revisions_row) : bool :=
  existsb (fun s => str_eqb (s_id s) (sr_service_id r) && (s_current_spec_revision s =? sr_spec_revision r)) (services t) ||
  existsb (fun a => str_eqb (asg_ServiceID a) (sr_service_id r) &&
                    (asg_DesiredSpecRevision a =? sr_spec_revision r)) (allocation_assignments t) ||
  existsb (fun ro => str_eqb (ro_service_id ro) (sr_service_id r) && (ro_spec_revision ro =? sr_spec_revision r) &&
                     rolloutOperational ro) (service_rollouts t) ||
  existsb (fun d => str_eqb (d_service_id d) (sr_service_id r) && (d_spec_revision d =? sr_spec_revision r) &&
                    deploymentOperational d) (deployments t).

(** ** Rendering *)

Definition status_of (service : string) : option service_delivery_status_row :=
  List.find (fun d => str_eqb (ds_service_id d) service) (service_delivery_status t).

(** [(SELECT image_ref FROM build_artifacts WHERE id = artifact)], empty if none. *)
Definition image_of (artifact : option string) : string :=
  default "" (id ← artifact; ba_image_ref <$> List.find (fun a => str_eqb (ba_id a) id) (build_artifacts t)).

Definition projectJSON (p : projects_row) : Project := {|
  prj_ID := p_id p; prj_Name := p_name p; prj_Kind := p_kind p; prj_SystemKey := p_system_key p;
  prj_WorkspaceID := default "" (p_workspace_id p); prj_CreatedAt := p_created_at p |}.

Definition serviceJSON (s : services_row) : ServiceIntent :=
  let ds := status_of (s_id s) in {|
  svc_ID := s_id s; svc_EnvironmentID := s_environment_id s; svc_Name := s_name s;
  svc_CurrentSpecRevision := s_current_spec_revision s;
  svc_CurrentRolloutGeneration := default 0 (d ← ds; ds_current_rollout_generation d);
  svc_CurrentArtifactID := default "" (d ← ds; ds_current_artifact_id d);
  svc_CurrentResolvedImage := image_of (d ← ds; ds_current_artifact_id d);
  svc_LastSuccessfulCommitSHA := default "" (d ← ds; ds_last_successful_commit_sha d);
  svc_LatestBuildID := default "" (d ← ds; ds_latest_build_id d);
  svc_DesiredReplicaCount := s_desired_replica_count s;
  svc_PlacementMessage := default "" (d ← ds; ds_placement_message d);
  svc_CreatedAt := s_created_at s;
  svc_UpdatedAt := match ds with Some d => Z.max (s_updated_at s) (ds_updated_at d) | None => s_updated_at s end |}.

Definition revisionJSON (r : service_revisions_row) : ServiceRevision := {|
  rev_ServiceID := sr_service_id r; rev_SpecRevision := sr_spec_revision r; rev_SpecJSON := escape_html (sr_spec_json r);
  rev_EnvDEKID := default "" (sr_env_dek_id r); rev_EnvCiphertext := default "" (sr_env_ciphertext r);
  rev_CreatedAt := sr_created_at r |}.

Definition rolloutJSON (r : service_rollouts_row) : Rollout := {|
  rol_ServiceID := ro_service_id r; rol_RolloutGeneration := ro_rollout_generation r; rol_SpecRevision := ro_spec_revision r;
  rol_Reason := ro_reason r; rol_BuildID := default "" (ro_build_id r); rol_RequestedByUserID := ro_requested_by_user_id r;
  rol_State := ro_state r; rol_StrategyJSON := escape_html (ro_strategy_json r);
  rol_DesiredReplicaCount := ro_desired_replica_count r; rol_ArtifactID := default "" (ro_artifact_id r);
  rol_ImageDigest := image_of (ro_artifact_id r); rol_FailureReason := ro_failure_reason r;
  rol_TargetAllocationID := default "" (ro_target_allocation_id r); rol_Recreate := ro_recreate r;
  rol_CompletedAt := ro_completed_at r; rol_ProgressAt := ro_progress_at r; rol_CreatedAt := ro_created_at r |}.

Definition deploymentJSON (d : deployments_row) : Deployment := {|
  dep_ID := d_id d; dep_ServiceID := d_service_id d; dep_SpecRevision := d_spec_revision d;
  dep_RolloutGeneration := d_rollout_generation d; dep_SourceRevisionID := default "" (d_source_revision_id d);
  dep_BuildID := d_build_id d; dep_ArtifactID := default "" (d_artifact_id d); dep_ImageDigest := image_of (d_artifact_id d);
  dep_State := d_state d; dep_CauseKind := d_cause_kind d; dep_CauseID := d_cause_id d; dep_ReasonCode := d_reason_code d;
  dep_Detail := d_detail d; dep_IsCurrent := d_is_current d; dep_RequestedByUserID := d_requested_by_user_id d;
  dep_CreatedAt := d_created_at d; dep_UpdatedAt := d_updated_at d |}.

Definition agentJSON (a : AgentRegistration) : AgentRegistration :=
  Build_AgentRegistration (agt_ID a) (agt_Name a) (agt_LocalStoreID a) (agt_SessionIncarnation a) (agt_Region a)
    (agt_Zone a) (agt_FailureDomain a) (agt_ReservedCPUMillis a) (agt_ReservedMemoryMebibytes a) (agt_AdvertiseAddr a)
    (agt_WorkloadIPv4Subnet a) (agt_WorkloadIPv6Subnet a) (agt_WireguardPublicKey a) (agt_WireguardListenPort a)
    (agt_WireguardEndpoint a) (agt_WireguardIPv6 a) (agt_CPUMillisCapacity a) (agt_MemoryMebibytesCapacity a)
    (escape_html (agt_RuntimeCapabilities a)) (agt_SoftwareVersion a) (agt_CreatedAt a) (agt_UpdatedAt a)
    (agt_DesiredRevision a).

Definition volumeJSON (v : volumes_row) : Volume := {|
  vol_ID := v_id v; vol_EnvironmentID := v_environment_id v; vol_Name := v_name v; vol_SizeBytes := v_size_bytes v;
  vol_AgentID := default "" (v_agent_id v); vol_CreatedAt := v_created_at v |}.

(** ** Reading a table: [scanProductRows] with [decodeRecord] *)

Definition scan {R T} (key : R -> string) (json : R -> T) (live : R -> bool) (rows : list R) : gmap string T :=
  foldl (fun m r => <[key r := json r]> m) ∅ (List.filter live rows).

Definition scan_rows {R T} (key : R -> string) (json : R -> T) (live : R -> bool) (rows : list R) : RowMap T :=
  foldl (fun m r => Set_ m (key r) (json r)) empty (List.filter live rows).

Definition revision_key (service : string) (n : Z) : string := service +:+ "/" +:+ pretty n.

Definition all_rows {R} (r : R) : bool := true.

Definition readProductState : DurableState := {|
  Projects := scan p_id projectJSON projectLive (projects t);
  ClusterID := "";
  LogIndex := 0;
  Services := scan s_id serviceJSON serviceLive (services t);
  Revisions := scan (fun r => revision_key (sr_service_id r) (sr_spec_revision r)) revisionJSON
                 (fun r => serviceChildLive (sr_service_id r) && revisionOperational r) (service_revisions t);
  Assignments := scan_rows asg_ID (fun a => a) (fun a => serviceChildLive (asg_ServiceID a)) (allocation_assignments t);
  Rollouts := scan (fun r => revision_key (ro_service_id r) (ro_rollout_generation r)) rolloutJSON
                (fun r => serviceChildLive (ro_service_id r) && rolloutOperational r) (service_rollouts t);
  Deployments := scan d_id deploymentJSON
                   (fun d => serviceChildLive (d_service_id d) && deploymentOperational d) (deployments t);
  Agents := scan agt_ID agentJSON all_rows (agent_registrations t);
  Administration := scan adm_AgentID (fun a => a) all_rows (agent_administration t);
  Environments := scan (fun e => env_ID (e_row e)) e_row environmentLive (environments t);
  Volumes := scan v_id volumeJSON volumeLive (volumes t);
  Destructions := scan des_VolumeID (fun d => d) all_rows (volume_destructions t);
  Domains := scan (fun d => dom_Hostname (db_row d)) db_row domainLive (domain_bindings t);
  Restrictions := scan rst_WorkspaceID (fun r => r) all_rows (billing_restrictions t)
|}.
End Read.

(** ** Reading *)

Lemma scan_spec {R T} (key : R -> string) (json : R -> T) live l k v :
  NoDup (map key l) -> scan key json live l !! k = Some v <-> exists r, r ∈ l /\ live r = true /\ key r = k /\ v = json r.
Proof.
  intros Hn. unfold scan.
  assert (Hgen : forall m : gmap string T, NoDup (map key l) ->
    foldl (fun m r => <[key r := json r]> m) m (List.filter live l) !! k = Some v <->
    (exists r, r ∈ l /\ live r = true /\ key r = k /\ v = json r) \/
    ((forall r, r ∈ l -> live r = true -> key r <> k) /\ m !! k = Some v)).
  { clear Hn. induction l as [|r l IH]; intros m Hn; cbn [List.filter foldl].
    - split; [intros H; right; split; [set_solver|done]|]. intros [(? & ? & _)|[_ ?]]; [set_solver|done].
    - cbn in Hn. apply NoDup_cons in Hn as [Hr Hn]. specialize (IH).
      assert (Hother : forall x, x ∈ l -> key x <> key r).
      { intros x Hx E. apply Hr. rewrite <- E. by apply list_elem_of_fmap_2. }
      destruct (live r) eqn:El; cbn [foldl]; rewrite (IH _ Hn).
      + destruct (decide (key r = k)) as [<-|Hne].
        * rewrite lookup_insert_eq. split.
          -- intros [(x & Hx & H1 & H2 & ->)|[_ [=<-]]]; left; [|exists r; set_solver]. by destruct (Hother x Hx).
          -- intros [(x & [->|Hx]%elem_of_cons & H1 & H2 & ->)|[Hno _]].
             ++ right. split; [|done]. intros y Hy _. by apply Hother.
             ++ by destruct (Hother x Hx).
             ++ exfalso. apply (Hno r); [set_solver|done..].
        * rewrite lookup_insert_ne by done. split.
          -- intros [(x & Hx & ?)|[Hno ?]]; [left; exists x; set_solver|right]. split; [|done].
             intros x [->|Hx]%elem_of_cons; [done|by apply Hno].
          -- intros [(x & [->|Hx]%elem_of_cons & H1 & H2 & ->)|[Hno ?]]; [done|left; exists x; done|right].
             split; [|done]. intros x Hx. apply Hno. set_solver.
      + split.
        * intros [(x & Hx & ?)|[Hno ?]]; [left; exists x; set_solver|right]. split; [|done].
          intros x [->|Hx]%elem_of_cons; [by rewrite El|by apply Hno].
        * intros [(x & [->|Hx]%elem_of_cons & H1 & H2 & ->)|[Hno ?]]; [by rewrite El in H1|left; exists x; done|right].
          split; [|done]. intros x Hx. apply Hno. set_solver. }
  rewrite Hgen by done. rewrite lookup_empty. naive_solver.
Qed.

Lemma scan_rows_spec {R T} (key : R -> string) (json : R -> T) live l :
  wf (scan_rows key json live l) /\ rows (scan_rows key json live l) = scan key json live l.
Proof.
  unfold scan_rows, scan. rewrite <- (rows_empty (T := T)). generalize (wf_empty (T := T)). generalize (@empty T).
  induction (List.filter live l) as [|r l' IH]; intros t Hw; cbn [foldl]; [done|].
  rewrite <- rows_Set by done. by apply IH, wf_Set.
Qed.

Lemma scan_keyed {R T} (key : R -> string) (json : R -> T) live l :
  (forall r, r ∈ l -> key r <> "") -> NoDup (map key l) -> scan key json live l !! "" = None.
Proof.
  intros Hk Hn. destruct (scan key json live l !! "") as [v|] eqn:E; [|done].
  apply scan_spec in E as (r & Hr & _ & E & _); [|done]. by apply Hk in Hr.
Qed.

(** ** The constraints of the schema *)

(** Primary keys, foreign keys and unique indexes that [readProductState] rests
    on; rows are named (identities are generated, never empty). *)
Record schema_ok (t : tables) : Prop := {
  pk_projects : NoDup (map p_id (projects t)) /\ (forall r, r ∈ projects t -> p_id r <> "");
  pk_environments : NoDup (map (fun e => env_ID (e_row e)) (environments t)) /\
    (forall r, r ∈ environments t -> env_ID (e_row r) <> "");
  pk_services : NoDup (map s_id (services t)) /\ (forall r, r ∈ services t -> s_id r <> "");
  pk_revisions : NoDup (map (fun r => revision_key (sr_service_id r) (sr_spec_revision r)) (service_revisions t));
  pk_assignments : NoDup (map asg_ID (allocation_assignments t)) /\ (forall r, r ∈ allocation_assignments t -> asg_ID r <> "");
  pk_rollouts : NoDup (map (fun r => revision_key (ro_service_id r) (ro_rollout_generation r)) (service_rollouts t));
  pk_deployments : NoDup (map d_id (deployments t)) /\ (forall r, r ∈ deployments t -> d_id r <> "");
  pk_agents : NoDup (map agt_ID (agent_registrations t)) /\ (forall r, r ∈ agent_registrations t -> agt_ID r <> "");
  pk_administration : NoDup (map adm_AgentID (agent_administration t)) /\
    (forall r, r ∈ agent_administration t -> adm_AgentID r <> "");
  pk_volumes : NoDup (map v_id (volumes t)) /\ (forall r, r ∈ volumes t -> v_id r <> "");
  pk_destructions : NoDup (map des_VolumeID (volume_destructions t)) /\
    (forall r, r ∈ volume_destructions t -> des_VolumeID r <> "");
  pk_domains : NoDup (map (fun d => dom_Hostname (db_row d)) (domain_bindings t)) /\
    (forall r, r ∈ domain_bindings t -> dom_Hostname (db_row r) <> "");
  pk_restrictions : NoDup (map rst_WorkspaceID (billing_restrictions t)) /\
    (forall r, r ∈ billing_restrictions t -> rst_WorkspaceID r <> "");
  fk_environment_project : forall e, e ∈ environments t -> exists p, p ∈ projects t /\ p_id p = env_ProjectID (e_row e);
  fk_service_environment : forall s, s ∈ services t -> exists e, e ∈ environments t /\ env_ID (e_row e) = s_environment_id s;
  fk_assignment_service : forall a, a ∈ allocation_assignments t -> exists s, s ∈ services t /\ s_id s = asg_ServiceID a;
  fk_assignment_agent : forall a, a ∈ allocation_assignments t ->
    exists r, r ∈ agent_registrations t /\ agt_ID r = asg_AgentID a;
  fk_assignment_deployment : forall a, a ∈ allocation_assignments t ->
    exists d, d ∈ deployments t /\ d_id d = asg_DeploymentID a /\ d_service_id d = asg_ServiceID a;
  unique_ipv4 : forall a b, a ∈ allocation_assignments t -> b ∈ allocation_assignments t ->
    asg_AllocationIPv4 a <> "" -> asg_AllocationIPv4 a = asg_AllocationIPv4 b -> asg_ID a = asg_ID b;
  unique_ipv6 : forall a b, a ∈ allocation_assignments t -> b ∈ allocation_assignments t ->
    asg_AllocationIPv6 a <> "" -> asg_AllocationIPv6 a = asg_AllocationIPv6 b -> asg_ID a = asg_ID b
}.

(** No text is both an IPv4 and an IPv6 address. *)
Definition families_disjoint (t : tables) : Prop :=
  forall a b, a ∈ allocation_assignments t -> b ∈ allocation_assignments t ->
    asg_AllocationIPv4 a <> "" -> asg_AllocationIPv4 a <> asg_AllocationIPv6 b.

Lemma revision_key_nonempty service n : revision_key service n <> "".
Proof. unfold revision_key. by destruct service. Qed.

Section ReadProofs.
Variable t : tables.
Hypothesis Hok : schema_ok t.

Lemma Assignments_rows :
  wf (Assignments (readProductState t)) /\
  rows (Assignments (readProductState t))
  = scan asg_ID (fun a => a) (fun a => serviceChildLive t (asg_ServiceID a)) (allocation_assignments t).
Proof. apply scan_rows_spec. Qed.

Lemma read_state_ok : state_ok (readProductState t).
Proof using Hok.
  destruct Hok, Assignments_rows as [Hw Hr].
  split; [apply scan_keyed; solve [tauto | intros; apply revision_key_nonempty]..|rewrite Hr|done].
  apply scan_keyed; tauto.
Qed.

Lemma assignment_read id a :
  rows (Assignments (readProductState t)) !! id = Some a <->
  a ∈ allocation_assignments t /\ serviceChildLive t (asg_ServiceID a) = true /\ asg_ID a = id.
Proof using Hok.
  destruct Assignments_rows as [_ ->]. rewrite scan_spec by apply Hok. naive_solver.
Qed.

Lemma existsb_in {A} (f : A -> bool) l : existsb f l = true <-> exists x, x ∈ l /\ f x = true.
Proof. rewrite existsb_exists. by setoid_rewrite list_elem_of_In. Qed.

Lemma existsb_not {A} (f : A -> bool) l : negb (existsb f l) = true <-> forall x, x ∈ l -> f x = false.
Proof.
  rewrite negb_true_iff, <- not_true_iff_false, existsb_in. split.
  - intros H x Hx. apply not_true_iff_false. intros E. apply H. eauto.
  - intros H (x & Hx & E). by rewrite H in E.
Qed.

(** A child of a live service has a live service. *)
Lemma child_live_service s : s ∈ services t -> serviceChildLive t (s_id s) = true -> serviceLive t s = true.
Proof using Hok.
  intros Hs Hl. unfold serviceChildLive in Hl. rewrite existsb_not in Hl. specialize (Hl s Hs).
  rewrite (proj2 (str_eqb_eq _ _) eq_refl) in Hl. cbn in Hl.
  destruct (fk_service_environment _ Hok s Hs) as (e & He & Ee).
  destruct (fk_environment_project _ Hok e He) as (p & Hp & Ep).
  assert (Hall : forall e p, e ∈ environments t -> p ∈ projects t -> env_ID (e_row e) = s_environment_id s ->
    p_id p = env_ProjectID (e_row e) ->
    is_null (s_deleted_at s) = true /\ is_null (e_deleted_at e) = true /\ is_null (p_deleted_at p) = true).
  { intros e' p' He' Hp' E1 E2. pose proof (proj2 (not_true_iff_false _) Hl) as Hn. clear Hl.
    destruct (is_null (s_deleted_at s)) eqn:D1, (is_null (e_deleted_at e')) eqn:D2, (is_null (p_deleted_at p')) eqn:D3; try done;
      exfalso; apply Hn, existsb_in; exists e'; (split; [done|]); apply andb_true_iff; (split; [by apply str_eqb_eq|]);
      apply existsb_in; exists p'; (split; [done|]); apply andb_true_iff; (split; [by apply str_eqb_eq|]); by rewrite ?D1, ?D2, ?D3. }
  unfold serviceLive. apply andb_true_iff. split; [by apply (Hall e p)|].
  unfold no_dead_environment. apply existsb_not. intros e' He'.
  destruct (str_eqb (env_ID (e_row e')) (s_environment_id s)) eqn:E1; [|done]. apply str_eqb_eq in E1. cbn [andb].
  apply negb_true_iff, existsb_not. intros p' Hp'.
  destruct (str_eqb (p_id p') (env_ProjectID (e_row e'))) eqn:E2; [|done]. apply str_eqb_eq in E2.
  destruct (Hall e' p' He' Hp' E1 E2) as (_ & -> & ->). done.
Qed.

Lemma read_valid id a : rows (Assignments (readProductState t)) !! id = Some a -> valid_assignment (readProductState t) id a.
Proof using Hok.
  intros (Ha & Hl & <-)%assignment_read.
  destruct (fk_assignment_service _ Hok a Ha) as (s & Hs & Es), (fk_assignment_agent _ Hok a Ha) as (r & Hr & Er),
    (fk_assignment_deployment _ Hok a Ha) as (d & Hd & Ed & Eds).
  rewrite <- Es in Hl. pose proof (child_live_service s Hs Hl) as Hsl.
  split; [done|]. rewrite <- Er, <- Es, <- Ed.
  split; [by apply (pk_agents _ Hok)|]. split; [by apply (pk_services _ Hok)|]. split; [by apply (pk_deployments _ Hok)|].
  split; [|split].
  - exists (agentJSON r). apply scan_spec; [apply Hok|]. eauto.
  - exists (serviceJSON t s). apply scan_spec; [apply Hok|]. eauto.
  - exists (deploymentJSON t d). apply scan_spec; [apply Hok|]. exists d. split; [done|]. split; [|done].
    apply andb_true_iff. split; [by rewrite Eds, <- Es|]. unfold deploymentOperational. apply orb_true_iff. right.
    apply existsb_in. exists a. split; [done|]. by apply str_eqb_eq.
Qed.

(** The addresses of a visible assignment. *)
Lemma reserved_elem a x : x ∈ reserved a <-> x <> "" /\ (x = asg_AllocationIPv4 a \/ x = asg_AllocationIPv6 a).
Proof. unfold reserved. rewrite list_elem_of_filter. set_solver. Qed.

Lemma reserved_NoDup a :
  (asg_AllocationIPv4 a <> "" -> asg_AllocationIPv4 a <> asg_AllocationIPv6 a) -> NoDup (reserved a).
Proof.
  intros H. unfold reserved. rewrite !filter_cons, filter_nil.
  destruct (decide (asg_AllocationIPv4 a <> "")) as [H4|H4], (decide (asg_AllocationIPv6 a <> "")) as [H6|H6];
    repeat constructor; set_solver.
Qed.

Hypothesis Hfam : families_disjoint t.

Lemma read_unique_addresses a b x :
  a ∈ allocation_assignments t -> b ∈ allocation_assignments t -> x ∈ reserved a -> x ∈ reserved b -> asg_ID a = asg_ID b.
Proof using Hok Hfam.
  intros Ha Hb [Hx [E1|E1]]%reserved_elem [_ [E2|E2]]%reserved_elem.
  - apply (unique_ipv4 _ Hok); congruence.
  - exfalso. apply (Hfam a b); congruence.
  - exfalso. apply (Hfam b a); congruence.
  - apply (unique_ipv6 _ Hok); congruence.
Qed.

Lemma read_reservations_ok : reservations_ok (readProductState t).
Proof using Hok Hfam.
  split; [apply read_valid|].
  destruct Assignments_rows as [Hw Hr]. unfold reservations.
  assert (Hrow : forall row, row ∈ All (Assignments (readProductState t)) -> row.2 ∈ allocation_assignments t /\ asg_ID row.2 = row.1).
  { intros [id a] Hin. apply All_elem, assignment_read in Hin as (? & _ & ?); done. }
  pose proof (sorted_keys_NoDup _ (All_sorted _ Hw)) as Hn.
  induction (All (Assignments (readProductState t))) as [|[id a] l IH]; cbn [flat_map]; [constructor|].
  cbn in Hn. apply NoDup_cons in Hn as [Hid Hn]. apply NoDup_app. split; [|split].
  - destruct (Hrow (id, a) ltac:(set_solver)) as [Ha _]. apply reserved_NoDup. intros H4. by apply (Hfam a a).
  - intros x Hx Hin. apply list_elem_of_In, in_flat_map in Hin as ([id' b] & Hin & Hx').
    apply list_elem_of_In in Hin, Hx'. cbn [snd] in *.
    destruct (Hrow (id, a) ltac:(set_solver)) as [Ha Ea], (Hrow (id', b) ltac:(set_solver)) as [Hb Eb]. cbn in *.
    apply Hid. rewrite <- Ea, (read_unique_addresses a b x), Eb by done. by apply (list_elem_of_fmap_2 fst) in Hin.
  - apply IH; [intros; apply Hrow; set_solver|done].
Qed.
End ReadProofs.

(** C37: A database that satisfies its keys, references and unique indexes, and
    in which no text is the IPv4 address of one assignment and the IPv6 address
    of one (the columns are plain text with an index each, so the schema does
    not exclude it), reads as a valid state: whatever rows are hidden as deleted
    or finished, every visible assignment still has its agent, its service and
    its deployment among the visible rows, and no address is reserved twice. *)
Theorem product_state_valid t : schema_ok t -> families_disjoint t ->
  state_ok (readProductState t) /\ validateReservations (readProductState t) = Ok tt.
Proof.
  intros Hok Hf. pose proof (read_state_ok t Hok) as Hs. split; [done|].
  apply validateReservations_ok; [apply Hs|]. by apply read_reservations_ok.
Qed.

(** ** Soft deletion ([internal/controlplane/deletions.go]) *)

#[export] Instance projects_row_eta : Eta projects_row := fun p =>
  Build_projects_row (p_id p) (p_name p) (p_kind p) (p_system_key p) (p_workspace_id p) (p_created_at p) (p_deleted_at p)
    (p_deleted_by_user_id p) (p_delete_expires_at p).

(** [UPDATE projects SET ... WHERE id = $1 AND cond], and whether a row was changed. *)
Definition update_project (id : string) (cond : projects_row -> bool) (set : projects_row -> projects_row) (t : tables)
    : tables * bool :=
  let hit p := str_eqb (p_id p) id && cond p in
  (t <| projects := map (fun p => if hit p then set p else p) (projects t) |>, existsb hit (projects t)).

(** [tombstoneRowTx] on the table of projects. *)
Definition tombstoneProjectTx (grace : duration) (id user : string) (now : time) (t : tables) : tables * bool :=
  update_project id (fun p => is_null (p_deleted_at p))
    (fun p => p <| p_deleted_at := Some now |> <| p_deleted_by_user_id := user |> <| p_delete_expires_at := Some (now + grace) |>) t.

(** [clearTombstoneRowTx] on the table of projects, at the database time [now]. *)
Definition clearProjectTombstoneTx (id : string) (now : time) (t : tables) : tables * bool :=
  update_project id
    (fun p => negb (is_null (p_deleted_at p)) && match p_delete_expires_at p with Some e => now <? e | None => false end)
    (fun p => p <| p_deleted_at := None |> <| p_deleted_by_user_id := "" |> <| p_delete_expires_at := None |>) t.

(** The project an environment or a service belongs to. *)
Definition environment_in (t : tables) (pid env : string) : bool :=
  existsb (fun e => str_eqb (env_ID (e_row e)) env && str_eqb (env_ProjectID (e_row e)) pid) (environments t).

Definition service_in (t : tables) (pid service : string) : bool :=
  existsb (fun s => str_eqb (s_id s) service && environment_in t pid (s_environment_id s)) (services t).

Section SoftDelete.
Variables (t : tables) (grace : duration) (pid user : string) (now : time).
Hypothesis Hok : schema_ok t.
Hypothesis Hexists : exists p, p ∈ projects t /\ p_id p = pid.

Let t' : tables := (tombstoneProjectTx grace pid user now t).1.

Definition dead (p : projects_row) : bool := negb (is_null (p_deleted_at p)).

Lemma existsb_map {A B} (g : A -> B) (f : B -> bool) l : existsb f (map g l) = existsb (fun a => f (g a)) l.
Proof. induction l as [|a l IH]; cbn; [done|]. by rewrite IH. Qed.

Lemma existsb_ext_in {A} (f g : A -> bool) l : (forall a, a ∈ l -> f a = g a) -> existsb f l = existsb g l.
Proof.
  induction l as [|a l IH]; cbn; intros H; [done|]. rewrite (H a) by set_solver. f_equal. apply IH. set_solver.
Qed.

Lemma existsb_orb {A} (f g : A -> bool) l : existsb (fun a => f a || g a) l = existsb f l || existsb g l.
Proof. induction l as [|a l IH]; cbn; [done|]. rewrite IH. destruct (f a), (g a), (existsb f l); done. Qed.

Lemma existsb_andb_const {A} (b : bool) (f : A -> bool) l : existsb (fun a => b && f a) l = b && existsb f l.
Proof. induction l as [|a l IH]; cbn; [by destruct b|]. rewrite IH. by destruct b. Qed.

(** Asking the projects after the deletion: those that were dead, and this one. *)
Lemma dead_after (f : string -> bool) (c : bool) :
  existsb (fun p => f (p_id p) && (c || negb (is_null (p_deleted_at p)))) (projects t')
  = existsb (fun p => f (p_id p) && (c || negb (is_null (p_deleted_at p)))) (projects t) || f pid.
Proof using Hexists Hok.
  unfold t', tombstoneProjectTx, update_project. cbn [fst projects set_field]. rewrite existsb_map.
  transitivity (existsb (fun p => (f (p_id p) && (c || negb (is_null (p_deleted_at p)))) || (str_eqb (p_id p) pid && f pid)) (projects t)).
  - apply existsb_ext_in. intros p _. destruct (str_eqb (p_id p) pid) eqn:E; cbn [andb].
    + apply str_eqb_eq in E. destruct (p_deleted_at p) eqn:Ed; cbn; rewrite ?Ed, E; cbn;
        destruct (f pid), c; done.
    + by rewrite orb_false_r.
  - rewrite existsb_orb. f_equal.
    transitivity (existsb (fun p => f pid && str_eqb (p_id p) pid) (projects t)).
    + apply existsb_ext_in. intros p _. apply andb_comm.
    + rewrite existsb_andb_const. destruct Hexists as (p & Hp & E).
      rewrite (proj2 (existsb_in _ _)); [by rewrite andb_true_r|]. exists p. split; [done|]. by apply str_eqb_eq.
Qed.

Lemma environments_after : environments t' = environments t.
Proof. done. Qed.

Lemma services_after : services t' = services t.
Proof. done. Qed.

Lemma no_dead_project_after id : no_dead_project t' id = no_dead_project t id && negb (str_eqb id pid).
Proof using Hexists Hok.
  unfold no_dead_project. rewrite <- negb_orb. f_equal.
  rewrite (str_eqb_sym id pid). exact (dead_after (fun x => str_eqb x id) false).
Qed.

Lemma no_dead_environment_after env : no_dead_environment t' env = no_dead_environment t env && negb (environment_in t pid env).
Proof using Hexists Hok.
  unfold no_dead_environment, environment_in. rewrite <- negb_orb, <- existsb_orb, environments_after. f_equal.
  apply existsb_ext_in. intros e _. rewrite (dead_after (fun x => str_eqb x (env_ProjectID (e_row e)))).
  rewrite (str_eqb_sym pid). by destruct (str_eqb (env_ID (e_row e)) env).
Qed.

Lemma serviceChildLive_after sid : serviceChildLive t' sid = serviceChildLive t sid && negb (service_in t pid sid).
Proof using Hexists Hok.
  unfold serviceChildLive, service_in, environment_in. rewrite <- negb_orb, <- existsb_orb, services_after, environments_after. f_equal.
  apply existsb_ext_in. intros s _. destruct (str_eqb (s_id s) sid); [|done]. cbn [andb]. rewrite <- existsb_orb.
  apply existsb_ext_in. intros e _. destruct (str_eqb (env_ID (e_row e)) (s_environment_id s)); [|done]. cbn [andb].
  rewrite (dead_after (fun x => str_eqb x (env_ProjectID (e_row e)))). by rewrite (str_eqb_sym pid).
Qed.

(** Reading with a stricter filter. *)
Lemma scan_restrict {R T} (key : R -> string) (json : R -> T) live live' l (out : R -> bool) k :
  NoDup (map key l) -> (forall r, r ∈ l -> live' r = live r && negb (out r)) ->
  scan key json live' l !! k =
    if existsb (fun r => str_eqb (key r) k && out r) l then None else scan key json live l !! k.
Proof.
  intros Hn Hl. apply option_eq. intros v. destruct (existsb _ l) eqn:E.
  - split; [|done]. rewrite scan_spec by done. intros (r & Hr & Hlive & Hk & ->). exfalso.
    rewrite Hl in Hlive by done. apply andb_true_iff in Hlive as [_ Ho]. apply existsb_in in E as (r' & Hr' & E).
    apply andb_true_iff in E as [Hk' Ho']. apply str_eqb_eq in Hk'.
    rewrite (NoDup_map_eq key l r' r) in Ho' by (done || congruence). by rewrite Ho' in Ho.
  - rewrite !scan_spec by done. split; intros (r & Hr & Hlive & Hk & ->); exists r; (split; [done|]); (split; [|done]).
    + rewrite Hl in Hlive by done. by apply andb_true_iff in Hlive as [? _].
    + rewrite Hl, Hlive by done. cbn. apply negb_true_iff. destruct (out r) eqn:Eo; [|done].
      assert (existsb (fun r => str_eqb (key r) k && out r) l = true); [|congruence].
      apply existsb_in. exists r. split; [done|]. apply andb_true_iff. split; [by apply str_eqb_eq|done].
Qed.
End SoftDelete.

(** The tables after a project of theirs is tombstoned. *)
Definition deleted (t : tables) (grace : duration) (pid user : string) (now : time) : DurableState :=
  readProductState (tombstoneProjectTx grace pid user now t).1.

Lemma Projects_after t grace pid user now k :
  schema_ok t ->
  Projects (deleted t grace pid user now) !! k = if str_eqb k pid then None else Projects (readProductState t) !! k.
Proof.
  intros Hok. destruct (pk_projects _ Hok) as [Hn _]. set (hit := fun p => str_eqb (p_id p) pid && is_null (p_deleted_at p)).
  set (g := fun p => if hit p then p <| p_deleted_at := Some now |> <| p_deleted_by_user_id := user |>
                                     <| p_delete_expires_at := Some (now + grace) |> else p).
  change (Projects (deleted t grace pid user now)) with (scan p_id projectJSON projectLive (map g (projects t))).
  assert (Hid : forall p, p_id (g p) = p_id p) by (intros p; unfold g; by destruct (hit p)).
  assert (Hmap : map p_id (map g (projects t)) = map p_id (projects t)) by (rewrite map_map; by apply map_ext).
  apply option_eq. intros v. rewrite scan_spec by (by rewrite Hmap).
  destruct (str_eqb k pid) eqn:E; [apply str_eqb_eq in E|apply str_eqb_neq in E].
  - split; [|done]. intros (r & (p & -> & Hp)%list_elem_of_fmap & Hlive & Hk & ->). exfalso. rewrite Hid in Hk.
    unfold g, hit, projectLive in Hlive. rewrite Hk, E, (proj2 (str_eqb_eq pid pid) eq_refl) in Hlive.
    by destruct (p_deleted_at p) eqn:Ed; cbn in Hlive; rewrite ?Ed in Hlive.
  - change (Projects (readProductState t)) with (scan p_id projectJSON projectLive (projects t)). rewrite scan_spec by done.
    assert (Hsame : forall p, p_id p = k -> g p = p).
    { intros p <-. unfold g, hit. apply str_eqb_neq in E. by rewrite E. }
    split.
    + intros (r & (p & -> & Hp)%list_elem_of_fmap & Hlive & Hk & ->). rewrite Hid in Hk. rewrite Hsame in Hlive |- * by done. eauto.
    + intros (p & Hp & Hlive & Hk & ->). exists p. split; [|done]. apply list_elem_of_fmap. exists p. by rewrite Hsame.
Qed.

(** Tombstoning a project hides exactly what belongs to it.  Its row, its
    environments, and every service, assignment, volume and domain below them
    disappear from the state all readers see; every other row reads as before. *)
Theorem tombstone_hides_project t grace pid user now :
  schema_ok t -> (exists p, p ∈ projects t /\ p_id p = pid) ->
  let s := readProductState t in let s' := deleted t grace pid user now in
  (forall k, Projects s' !! k = if str_eqb k pid then None else Projects s !! k) /\
  (forall k, Environments s' !! k = if environment_in t pid k then None else Environments s !! k) /\
  (forall k, Services s' !! k = if service_in t pid k then None else Services s !! k) /\
  (forall k, rows (Assignments s') !! k =
     if existsb (fun a => str_eqb (asg_ID a) k && service_in t pid (asg_ServiceID a)) (allocation_assignments t)
     then None else rows (Assignments s) !! k) /\
  (forall k, Volumes s' !! k =
     if existsb (fun v => str_eqb (v_id v) k && environment_in t pid (v_environment_id v)) (volumes t)
     then None else Volumes s !! k) /\
  (forall k, Domains s' !! k =
     if existsb (fun d => str_eqb (dom_Hostname (db_row d)) k && service_in t pid (dom_ServiceID (db_row d))) (domain_bindings t)
     then None else Domains s !! k) /\
  Agents s' = Agents s /\ Destructions s' = Destructions s /\ Restrictions s' = Restrictions s.
Proof.
  intros Hok Hex s s'. set (t' := (tombstoneProjectTx grace pid user now t).1).
  assert (Hchild := serviceChildLive_after t grace pid user now Hok Hex). fold t' in Hchild.
  assert (Henv := no_dead_environment_after t grace pid user now Hok Hex). fold t' in Henv.
  split; [|split; [|split; [|split; [|split; [|split; [|by repeat split]]]]]]; intros k.
  - by apply Projects_after.
  - apply (scan_restrict _ _ (environmentLive t)); [apply Hok|]. intros e _. unfold environmentLive.
    rewrite (no_dead_project_after t grace pid user now Hok Hex). by rewrite andb_assoc.
  - apply (scan_restrict _ _ (serviceLive t)); [apply Hok|]. intros r _. unfold serviceLive. fold t'.
    by rewrite Henv, andb_assoc.
  - unfold s, s', deleted. rewrite !(proj2 (Assignments_rows _)). fold t'.
    apply (scan_restrict _ _ (fun a => serviceChildLive t (asg_ServiceID a))); [apply Hok|]. intros r _. apply Hchild.
  - apply (scan_restrict _ _ (volumeLive t)); [apply Hok|]. intros r _. unfold volumeLive. fold t'.
    by rewrite Henv, andb_assoc.
  - apply (scan_restrict _ _ (domainLive t)); [apply Hok|]. intros r _. unfold domainLive. fold t'.
    by rewrite Hchild, andb_assoc.
Qed.

(** A project that is not deleted carries no trace of a deletion. *)
Definition not_deleted (p : projects_row) : Prop :=
  p_deleted_at p = None /\ p_deleted_by_user_id p = "" /\ p_delete_expires_at p = None.

Lemma set_projects_back t a b : b = projects t -> (t <| projects := a |>) <| projects := b |> = t.
Proof. intros ->. by destruct t. Qed.

(** Restoring a project within its grace period undoes the deletion: the
    tables, and with them the state read from them, are those from before.
    After the grace period restoring changes nothing. *)
Theorem restore_undoes_tombstone t grace pid user now later :
  (exists p, p ∈ projects t /\ p_id p = pid) -> (forall p, p ∈ projects t -> p_id p = pid -> not_deleted p) ->
  let '(t1, deleted) := tombstoneProjectTx grace pid user now t in
  let '(t2, restored) := clearProjectTombstoneTx pid later t1 in
  deleted = true /\ (if later <? now + grace then restored = true /\ t2 = t else restored = false /\ t2 = t1).
Proof.
  intros (p0 & Hp0 & E0) Hclean. unfold tombstoneProjectTx, clearProjectTombstoneTx, update_project. cbn [fst snd projects set_field].
  assert (Hhit : forall p, p ∈ projects t -> str_eqb (p_id p) pid && is_null (p_deleted_at p) = str_eqb (p_id p) pid).
  { intros p Hp. destruct (str_eqb (p_id p) pid) eqn:E; [|done]. apply str_eqb_eq in E. by destruct (Hclean p Hp E) as [-> _]. }
  split; [apply existsb_in; exists p0; split; [done|]; rewrite Hhit by done; by apply str_eqb_eq|].
  rewrite existsb_map, map_map. destruct (later <? now + grace) eqn:El.
  - split.
    + apply existsb_in. exists p0. split; [done|]. rewrite Hhit by done. rewrite (proj2 (str_eqb_eq _ _) E0). cbn.
      rewrite (proj2 (str_eqb_eq _ _) E0). by rewrite El.
    + apply set_projects_back. etransitivity; [|apply map_id]. apply map_ext_in. intros p Hp%list_elem_of_In. rewrite Hhit by done.
      destruct (str_eqb (p_id p) pid) eqn:E; cbn; rewrite E; cbn; [|done]. rewrite El. apply str_eqb_eq in E.
      destruct (Hclean p Hp E) as (D1 & D2 & D3). destruct p; cbn in *. by subst.
  - assert (Hno : forall p, p ∈ projects t ->
      (fun p => str_eqb (p_id p) pid && (negb (is_null (p_deleted_at p)) &&
         match p_delete_expires_at p with Some e => later <? e | None => false end))
        (if str_eqb (p_id p) pid && is_null (p_deleted_at p)
         then p <| p_deleted_at := Some now |> <| p_deleted_by_user_id := user |> <| p_delete_expires_at := Some (now + grace) |>
         else p) = false).
    { intros p Hp. rewrite Hhit by done. destruct (str_eqb (p_id p) pid) eqn:E; cbn; rewrite E; cbn; [by rewrite El|done]. }
    split.
    + rewrite <- not_true_iff_false, existsb_in. intros (p & Hp & E). cbn beta in Hno. rewrite Hno in E by done. done.
    + match goal with |- set_field ?b (set_field ?a t) = _ => assert (b = a) as Hba; [|rewrite Hba; by destruct t] end.
      apply map_ext_in. intros p Hp%list_elem_of_In. cbn beta in Hno. by rewrite Hno.
Qed.

(** ** An example *)

Definition at0 : time := unix_epoch.
Definition demo_service : services_row := Build_services_row "s" "e" "web" 1 1 at0 at0 None.
Definition demo_tables : tables := {|
  projects := [Build_projects_row "p" "demo" "user" None (Some "w") at0 None "" None];
  environments := [Build_environments_row (Build_Environment "e" "p" "production" "user" true true 1 None at0 at0) None];
  services := [demo_service];
  service_delivery_status := []; build_artifacts := []; service_revisions := []; allocation_assignments := [];
  service_rollouts := []; deployments := []; agent_registrations := []; agent_administration := [];
  volumes := []; volume_destructions := []; domain_bindings := [];
  billing_restrictions := [Build_BillingRestriction "w" "acct" false false false "" None at0]
|}.

Lemma key_of_one {A} (key : A -> string) (x : A) :
  key x <> "" -> NoDup (map key [x]) /\ (forall r, r ∈ [x] -> key r <> "").
Proof. intros H. split; [apply NoDup_singleton|]. by intros r ->%list_elem_of_singleton. Qed.

Lemma key_of_none {A} (key : A -> string) : NoDup (map key []) /\ (forall r, r ∈ [] -> key r <> "").
Proof. split; [constructor|]. by intros r ?%elem_of_nil. Qed.

Lemma demo_schema_ok : schema_ok demo_tables.
Proof.
  split; cbn [demo_tables projects environments services service_revisions allocation_assignments service_rollouts deployments
    agent_registrations agent_administration volumes volume_destructions domain_bindings billing_restrictions];
    try (by apply (key_of_one _ _)); try apply (key_of_none _); try (by constructor);
    try (intros ? ->%list_elem_of_singleton; eexists; split; [by apply list_elem_of_singleton|done]);
    try (by intros ? ?%elem_of_nil); by intros ? ? ?%elem_of_nil.
Qed.

Lemma demo_families : families_disjoint demo_tables.
Proof. intros a b Ha. by apply elem_of_nil in Ha. Qed.

(** Two assignments of the service on one agent, one of them without
    addresses, for a deployment that is superseded but still used, next to a
    deployment nobody uses. *)
Definition demo_assigned : tables :=
  demo_tables
    <| agent_registrations := [Build_AgentRegistration "agent" "node" "" 1 "eu" "" "" 0 0 "" "" "" "" 0 "" "" 0 0 "[]" "" at0 at0 1] |>
    <| deployments := [Build_deployments_row "old" "s" 1 1 "" None None "superseded" "user" "" "" "" false "" at0 at0;
                       Build_deployments_row "unused" "s" 1 1 "" None None "superseded" "user" "" "" "" false "" at0 at0] |>
    <| allocation_assignments :=
         [Build_Assignment "a1" "s" "old" "agent" 1 1 "10.0.0.1" "fd00::1" 0 "serving" "run" "" None None at0 at0;
          Build_Assignment "a2" "s" "old" "agent" 1 1 "" "" 0 "lost" "run" "" None None at0 at0;
          Build_Assignment "a3" "s" "old" "agent" 1 1 "10.0.0.2" "fd00::2" 0 "pending" "run" "" None None at0 at0] |>.

Ltac each_assigned :=
  repeat match goal with
  | H : _ ∈ [] |- _ => by apply elem_of_nil in H
  | H : _ ∈ _ :: _ |- _ => apply elem_of_cons in H as [->|H]
  end.

Ltac distinct_keys :=
  cbn; repeat (apply NoDup_cons; split; [intros ?; set_solver|]); apply NoDup_nil_2.

Lemma demo_assigned_ok : schema_ok demo_assigned.
Proof.
  destruct demo_schema_ok. split; try done.
  - split; [distinct_keys|]. intros r Hr. cbn in Hr. by each_assigned.
  - split; [distinct_keys|]. intros r Hr. cbn in Hr. by each_assigned.
  - apply (key_of_one _ _). done.
  - intros a Ha. exists demo_service. split; [by apply list_elem_of_singleton|]. cbn in Ha. by each_assigned.
  - intros a Ha. eexists. split; [by apply list_elem_of_singleton|]. cbn in Ha. by each_assigned.
  - intros a Ha. eexists. split; [by apply elem_of_cons; left|]. cbn in Ha. by each_assigned.
  - intros a b Ha Hb. cbn in Ha, Hb. by each_assigned.
  - intros a b Ha Hb. cbn in Ha, Hb. by each_assigned.
Qed.

Lemma demo_assigned_families : families_disjoint demo_assigned.
Proof. intros a b Ha Hb. cbn in Ha, Hb. by each_assigned. Qed.

Lemma product_state_valid_witness :
  map fst (All (Assignments (readProductState demo_assigned))) = ["a1"; "a2"; "a3"] /\
  Deployments (readProductState demo_assigned) !! "unused" = None /\
  state_ok (readProductState demo_assigned) /\ validateReservations (readProductState demo_assigned) = Ok tt.
Proof.
  split; [vm_compute; reflexivity|]. split; [vm_compute; reflexivity|].
  exact (product_state_valid demo_assigned demo_assigned_ok demo_assigned_families).
Defined.

Lemma demo_project_exists : exists p, p ∈ projects demo_tables /\ p_id p = "p".
Proof. eexists. split; [by apply list_elem_of_singleton|done]. Qed.

Lemma tombstone_hides_project_witness :
  (forall k, Services (deleted demo_tables hour "p" "user" at0) !! k =
     if service_in demo_tables "p" k then None else Services (readProductState demo_tables) !! k) /\
  is_Some (Services (readProductState demo_tables) !! "s") /\ service_in demo_tables "p" "s" = true.
Proof.
  split; [|split; [vm_compute; eauto|vm_compute; reflexivity]].
  apply (tombstone_hides_project demo_tables hour "p" "user" at0 demo_schema_ok demo_project_exists).
Defined.

Lemma restore_undoes_tombstone_witness :
  let '(t1, deleted) := tombstoneProjectTx hour "p" "user" at0 demo_tables in
  let '(t2, restored) := clearProjectTombstoneTx "p" (at0 + minute) t1 in
  deleted = true /\ (if at0 + minute <? at0 + hour then restored = true /\ t2 = demo_tables else restored = false /\ t2 = t1).
Proof.
  apply (restore_undoes_tombstone demo_tables hour "p" "user" at0 (at0 + minute) demo_project_exists).
  intros p Hp _. apply list_elem_of_singleton in Hp as ->. repeat split.
Defined.

End Product.
