(* ===== verification/JournalStore.v ===== *)
(** * The journal store

    [internal/controlplane/journal/store.go] and [compaction.go]: commands that
    append a batch to the journal in the transaction that changes the product
    tables, replicas that follow the journal by replaying it onto their
    projection or by reading the tables again, the ordering of notifications,
    command receipts, and compaction.

    A serializable transaction is one step on the database.  What the database
    does outside this code is an argument: the fresh command identity, the time
    it stamps, whether a commit reported as failed has happened, and the JSON
    text it gives back for a stored payload. *)

From S2P Require Import Prelude RowMap Journal Projection Product.

Module JournalStore.
Import RowMap Journal Projection Product.

(** ** Stored JSON

    [stored] is the payload as a [JSONB] column gives it back, [jsonb_text] the
    compact text such a column renders for raw JSON. *)
Class StoredJSON := {
  stored_codec :: PayloadCodec;
  stored : payload -> payload;
  jsonb_text : string -> string
}.

(** Text that neither the database nor [json.Marshal] rewrites. *)
Definition plain `{!StoredJSON} (raw : string) : Prop := jsonb_text raw = raw /\ escape_html raw = raw.

Definition plain_batch `{!StoredJSON} (b : Batch) : Prop :=
  (forall c v, c ∈ b_Revisions b -> Value c = Some v -> plain (rev_SpecJSON v)) /\
  (forall c v, c ∈ b_Rollouts b -> Value c = Some v -> plain (rol_StrategyJSON v)) /\
  (forall c v, c ∈ b_Agents b -> Value c = Some v -> plain (agt_RuntimeCapabilities v)).

(** [encoding/json] and the column keep a batch whose raw JSON is plain. *)
Class StoredJSONLaws `{!StoredJSON} : Prop := {
  marshal_roundtrip : forall b, plain_batch b ->
    exists p, Marshal b = Ok p /\ Decode p = Ok b /\ Decode (stored p) = Ok b
}.

(** ** The database *)

Record head_row := { log_index : Z; compacted_index : Z }.

Section Store.
Context {json : StoredJSON}.

Record receipt_row := { rc_entry : Entry; rc_expires_at : time }.

Record db := {
  cluster_journal_heads : gmap string head_row;
  cluster_journal : list Entry;
  cluster_journal_receipts : list receipt_row;
  product : tables
}.

#[export] Instance db_eta : Eta db := fun d =>
  Build_db (cluster_journal_heads d) (cluster_journal d) (cluster_journal_receipts d) (product d).

Inductive store_error : Type :=
| NoRows
| HeadMovedBackwards
| JournalGap (applied head : Z)
| JournalError (e : error)
| CommandFailed (message : string)
| AuthorityRequired
| FenceFailed (message : string)
| InvalidEpoch
| MarshalFailed (message : string)
| HeadMoved
| UniqueViolation.

Definition lift {A} (r : result error A) : result store_error A :=
  match r with Ok a => Ok a | Err e => Err (JournalError e) end.

Definition row_or_none {A} (o : option A) : result store_error A :=
  match o with Some a => Ok a | None => Err NoRows end.

(** ** Replicas *)

Record Store := {
  clusterID : string;
  current : Projection;
  initialized : bool;
  onApplied : bool;
  published : option Projection
}.

#[export] Instance Store_eta : Eta Store := fun s =>
  Build_Store (clusterID s) (current s) (initialized s) (onApplied s) (published s).

Definition New (cluster : string) : Store :=
  Build_Store cluster (newProjection (empty_state cluster)) false false None.

Definition SetOnApplied (s : Store) (hook : bool) : Store := s <| onApplied := hook |>.

Record Applied := { ap_projection : Projection; ap_batches : list Batch; ap_reset : bool }.

(** ** Following the journal *)

Definition entry_leb (a b : Entry) : bool := e_LogIndex a <=? e_LogIndex b.

(** [SELECT ... WHERE cluster_id = $1 AND log_index > $2 AND log_index <= $3 ORDER BY log_index] *)
Definition select_entries (d : db) (cluster : string) (low high : Z) : list Entry :=
  isort entry_leb
    (List.filter (fun e => str_eqb (e_ClusterID e) cluster && (low <? e_LogIndex e) && (e_LogIndex e <=? high)) (cluster_journal d)).

Fixpoint replay_loop (p : Projection) (l : list Entry) : result store_error (Projection * list Batch) :=
  match l with
  | [] => Ok (p, [])
  | e :: l =>
      r ← lift (advance p e);
      rest ← replay_loop r.1 l;
      Ok (rest.1, r.2 :: rest.2)
  end.

Definition replay (d : db) (p : Projection) (head : Z) : result store_error (Projection * list Batch) :=
  if head =? LogIndex (state p) then Ok (p, [])
  else if head <? LogIndex (state p) then Err HeadMovedBackwards
  else
    r ← replay_loop p (select_entries d (ClusterID (state p)) (LogIndex (state p)) head);
    _ ← guard_err (negb (LogIndex (state r.1) =? head)) (JournalGap (LogIndex (state r.1)) head);
    Ok r.

Definition stateAtHead (s : Store) (d : db) (head : Z) : result store_error (Projection * list Batch) :=
  row ← row_or_none (cluster_journal_heads d !! clusterID s);
  if negb (initialized s) || (LogIndex (state (current s)) <? compacted_index row) || (head <? LogIndex (state (current s)))
  then Ok (newProjection ((readProductState (product d)) <| ClusterID := clusterID s |> <| LogIndex := head |>), [])
  else replay d (current s) head.

(** The loop that drops batches a newer prefix already holds. *)
Fixpoint drop_applied (index : Z) (bs : list Batch) : list Batch :=
  match bs with
  | b :: rest => if b_BaseIndex b <? index then drop_applied index rest else bs
  | [] => []
  end.

(** [publish]: the store afterwards and the notification, if one is sent. *)
Definition publish (s : Store) (next : Projection) (batches : list Batch) : Store * option Applied :=
  let reset := match published s with None => true | Some _ => false end in
  if initialized s && (LogIndex (state next) <=? LogIndex (state (current s))) then
    if negb (onApplied s) || negb reset then (s, None)
    else (s <| published := Some (current s) |>, Some (Build_Applied (current s) [] reset))
  else
    let batches := drop_applied (LogIndex (state (current s))) batches in
    let reset := match batches with
                 | [] => true
                 | b :: _ => if b_BaseIndex b =? LogIndex (state (current s)) then reset else true
                 end in
    let s := s <| current := next |> <| initialized := true |> in
    if onApplied s then (s <| published := Some next |>, Some (Build_Applied next batches reset)) else (s, None).

(** [read] with the observer left out: what it sees, and what is published. *)
Definition Read (s : Store) (d : db) : result store_error (Store * Projection * option Applied) :=
  row ← row_or_none (cluster_journal_heads d !! clusterID s);
  r ← stateAtHead s d (log_index row);
  let pub := publish s r.1 r.2 in
  Ok (pub.1, r.1, pub.2).

(** ** Commands *)

Definition lookup (d : db) (cluster command : string) : option Entry :=
  rc_entry <$> List.find (fun r => str_eqb (e_ClusterID (rc_entry r)) cluster && str_eqb (e_CommandID (rc_entry r)) command)
    (cluster_journal_receipts d).

Definition diffTx (d : db) (base : DurableState) : Batch := Diff base (readProductState (product d)).

(** The fence the store was built with: the epoch, or an error. *)
Definition authorizeScheduling (fence : option (db -> result string Z)) (d : db) (b : Batch) : result store_error (option Z) :=
  if negb (requiresAuthority b) then Ok None
  else match fence with
       | None => Err AuthorityRequired
       | Some f =>
           match f d with
           | Err m => Err (FenceFailed m)
           | Ok epoch => if epoch <=? 0 then Err InvalidEpoch else Ok (Some epoch)
           end
       end.

Definition InternalReceiptLifetime : duration := hour.
Definition CallerProvidedReceiptLifetime : duration := 7 * 24 * hour.

(** What a command brings along. *)
Record command := {
  caller_id : string;
  fresh_id : string;
  run : tables -> result string tables;
  react : option (tables -> Projection -> Batch -> result string tables)
}.

Definition command_id (c : command) : string := if str_eqb (caller_id c) "" then fresh_id c else caller_id c.
Definition receipt_lifetime (c : command) : duration :=
  if str_eqb (caller_id c) "" then InternalReceiptLifetime else CallerProvidedReceiptLifetime.

Record tx_result := {
  tx_receipt : option Entry; appended : bool; recordedNoOp : bool; resolvedReceipt : bool; resolvedNoOp : bool
}.

Definition with_product (d : db) (r : result string tables) : result store_error db :=
  match r with Ok t => Ok (d <| product := t |>) | Err m => Err (CommandFailed m) end.

Definition set_payload (e : Entry) (p : payload) : Entry :=
  Build_Entry (e_ClusterID e) (e_LogIndex e) (e_CommandID e) (e_CommandVersion e) (e_CommandType e) p
    (e_AuthorizingEpoch e) (e_CreatedAt e).

(** Inserts keep the primary key and the unique command of each table. *)
Definition insert_receipt (d : db) (e : Entry) (expires : time) : result store_error db :=
  match lookup d (e_ClusterID e) (e_CommandID e) with
  | Some _ => Err UniqueViolation
  | None => Ok (d <| cluster_journal_receipts :=
                  cluster_journal_receipts d ++ [Build_receipt_row (set_payload e (stored (e_Payload e))) expires] |>)
  end.

Definition insert_journal (d : db) (e : Entry) : result store_error db :=
  if existsb (fun x => str_eqb (e_ClusterID x) (e_ClusterID e) &&
                       ((e_LogIndex x =? e_LogIndex e) || str_eqb (e_CommandID x) (e_CommandID e))) (cluster_journal d)
  then Err UniqueViolation
  else Ok (d <| cluster_journal := cluster_journal d ++ [set_payload e (stored (e_Payload e))] |>).

Definition new_entry (cluster : string) (index : Z) (id : string) (p : payload) (epoch : option Z) (now : time) : Entry :=
  Build_Entry cluster index id CommandVersion CommandType p epoch now.

Definition marshal (b : Batch) : result store_error payload :=
  match Marshal b with Ok p => Ok p | Err m => Err (MarshalFailed m) end.

(** The transaction of [execute]; [now] is the statement time of the inserts. *)
Definition execute_tx (s : Store) (fence : option (db -> result string Z)) (c : command) (now : time) (d : db)
    : result store_error (db * tx_result) :=
  row ← row_or_none (cluster_journal_heads d !! clusterID s);
  let head := log_index row in
  let id := command_id c in
  match lookup d (clusterID s) id with
  | Some receipt =>
      Ok (d, {| tx_receipt := Some receipt; appended := false; recordedNoOp := false; resolvedReceipt := true;
                resolvedNoOp := match Decode (e_Payload receipt) with Ok b => Empty b | Err _ => false end |})
  | None =>
      r ← stateAtHead s d head;
      let base := r.1 in
      d1 ← with_product d (run c (product d));
      let batch := diffTx d1 (state base) in
      r2 ← (match react c with
            | None => Ok (d1, batch)
            | Some f => d2 ← with_product d1 (f (product d1) base batch); Ok (d2, diffTx d2 (state base))
            end);
      let d2 := r2.1 in let batch := r2.2 in
      if Empty batch then
        if str_eqb (caller_id c) "" then
          Ok (d2, {| tx_receipt := None; appended := false; recordedNoOp := false; resolvedReceipt := false; resolvedNoOp := false |})
        else
          p ← marshal batch;
          let receipt := new_entry (clusterID s) head id p None now in
          d3 ← insert_receipt d2 receipt (now + receipt_lifetime c);
          Ok (d3, {| tx_receipt := Some receipt; appended := false; recordedNoOp := true; resolvedReceipt := false; resolvedNoOp := false |})
      else
        epoch ← authorizeScheduling fence d2 batch;
        p ← marshal batch;
        let receipt := new_entry (clusterID s) (head + 1) id p epoch now in
        _ ← lift (advance base receipt);
        locked ← row_or_none (cluster_journal_heads d2 !! clusterID s);
        _ ← guard_err (negb (log_index locked =? head)) HeadMoved;
        d3 ← insert_journal d2 receipt;
        d4 ← insert_receipt d3 receipt (now + receipt_lifetime c);
        let d5 := d4 <| cluster_journal_heads := <[clusterID s := Build_head_row (head + 1) (compacted_index locked)]> (cluster_journal_heads d4) |> in
        Ok (d5, {| tx_receipt := Some receipt; appended := true; recordedNoOp := false; resolvedReceipt := false; resolvedNoOp := false |})
  end.

(** A commit that is reported as failed may have happened. *)
Inductive commit := CommitOk | CommitLost | CommitHidden.

Record CommitError := { ce_committed : bool; ce_failed : bool }.

(** After the commit: find the receipt and catch up.  With [reachable] false the
    lookup itself fails. *)
Definition resolve (s : Store) (c : command) (d : db) (err reachable : bool)
    : Store * result CommitError (option Entry) * option Applied :=
  match (if reachable then lookup d (clusterID s) (command_id c) else None) with
  | None => (s, Err {| ce_committed := negb err; ce_failed := err |}, None)
  | Some entry =>
      match Read s d with
      | Err _ => (s, Err {| ce_committed := true; ce_failed := err |}, None)
      | Ok (s', _, note) => (s', Ok (Some entry), note)
      end
  end.

(** [execute]: the transaction, its commit, and resolving the receipt.  The
    answer is the entry, [None] for [Entry{}]. *)
Definition execute (s : Store) (fence : option (db -> result string Z)) (c : command) (now : time) (d : db)
    (outcome : commit) (reachable : bool) : db * (Store * result CommitError (option Entry) * option Applied) :=
  match execute_tx s fence c now d, outcome with
  | Err _, _ | Ok _, CommitLost => (d, resolve s c d true reachable)
  | Ok (d', _), CommitHidden => (d', resolve s c d' true reachable)
  | Ok (d', r), CommitOk =>
      if negb (appended r) && (recordedNoOp r || resolvedNoOp r) then (d', (s, Ok (tx_receipt r), None))
      else if negb (appended r) && negb (resolvedReceipt r) then (d', (s, Ok None, None))
      else (d', resolve s c d' false reachable)
  end.

(** ** Compaction *)

Definition DefaultRetainEntries : Z := 1024.

Definition Compact (cluster : string) (retain : Z) (fence : option (db -> result string unit)) (now : time) (d : db)
    : result store_error (db * Z) :=
  let retain := if retain <? 0 then 0 else retain in
  _ ← (match fence with
       | None => Ok tt
       | Some f => match f d with Ok _ => Ok tt | Err m => Err (FenceFailed m) end
       end);
  row ← row_or_none (cluster_journal_heads d !! cluster);
  let head := log_index row in
  let target := head - retain in
  let target := if (0 <? retain) && (target - compacted_index row <? retain) then compacted_index row else target in
  let '(d, compacted) :=
    if compacted_index row <? target then
      (d <| cluster_journal := List.filter (fun e => negb (str_eqb (e_ClusterID e) cluster && (e_LogIndex e <=? target))) (cluster_journal d) |>
         <| cluster_journal_heads := <[cluster := Build_head_row head target]> (cluster_journal_heads d) |>, target)
    else (d, compacted_index row) in
  Ok (d <| cluster_journal_receipts :=
        List.filter (fun r => negb (str_eqb (e_ClusterID (rc_entry r)) cluster && (rc_expires_at r <=? now)))
          (cluster_journal_receipts d) |>, compacted).

(** ** Consistent databases *)

Fixpoint apply_all (s : DurableState) (l : list Entry) : option DurableState :=
  match l with
  | [] => Some s
  | e :: l => match Apply s e with (s', None) => apply_all s' l | (_, Some _) => None end
  end.

Definition product_state (cluster : string) (head : Z) (d : db) : DurableState :=
  (readProductState (product d)) <| ClusterID := cluster |> <| LogIndex := head |>.

Definition cluster_log (cluster : string) (d : db) : list Entry :=
  List.filter (fun e => str_eqb (e_ClusterID e) cluster) (cluster_journal d).

(** Raw JSON in the tables that is rendered as stored, with nothing to escape. *)
Definition plain_tables (t : tables) : Prop :=
  (forall r, r ∈ service_revisions t -> plain (sr_spec_json r)) /\
  (forall r, r ∈ service_rollouts t -> plain (ro_strategy_json r)) /\
  (forall r, r ∈ agent_registrations t -> plain (agt_RuntimeCapabilities r)).

Definition tables_ok (t : tables) : Prop := schema_ok t /\ families_disjoint t /\ plain_tables t.

(** The retained journal runs without a gap from the compacted index to the
    head, and applying it to the state it starts from gives the tables. *)
Record db_ok (cluster : string) (head compacted : Z) (d : db) : Prop := {
  db_head : cluster_journal_heads d !! cluster = Some (Build_head_row head compacted);
  db_range : compacted <= head;
  db_tables : tables_ok (product d);
  db_indexes : map e_LogIndex (cluster_log cluster d) = seqZ (compacted + 1) (head - compacted);
  db_chain : exists s0, state_ok s0 /\ LogIndex s0 = compacted /\
    apply_all s0 (cluster_log cluster d) = Some (product_state cluster head d)
}.

(** A replica holds a prefix of the journal: what it has not seen, as far as it
    is retained, takes it to the tables. *)
Record store_ok (cluster : string) (head compacted : Z) (d : db) (s : Store) : Prop := {
  so_cluster : clusterID s = cluster;
  so_current : initialized s = true ->
    projection_ok (current s) /\ ClusterID (state (current s)) = cluster /\ LogIndex (state (current s)) <= head /\
    (compacted <= LogIndex (state (current s)) ->
     apply_all (state (current s)) (drop (Z.to_nat (LogIndex (state (current s)) - compacted)) (cluster_log cluster d))
     = Some (product_state cluster head d))
}.

Lemma product_state_ok cluster head d : tables_ok (product d) ->
  state_ok (product_state cluster head d) /\ reservations_ok (product_state cluster head d).
Proof.
  intros (Hs & Hf & _). split.
  - destruct (read_state_ok _ Hs). by split.
  - exact (read_reservations_ok _ Hs Hf).
Qed.

Lemma apply_all_app s l1 l2 : apply_all s (l1 ++ l2) = apply_all s l1 ≫= fun s' => apply_all s' l2.
Proof.
  revert s. induction l1 as [|e l1 IH]; intros s; cbn; [done|]. destruct (Apply s e) as [s' [er|]]; [done|]. apply IH.
Qed.

Lemma Apply_state s e s' : state_ok s -> Apply s e = (s', None) ->
  state_ok s' /\ reservations_ok s' /\ ClusterID s' = ClusterID s /\ LogIndex s' = LogIndex s + 1 /\ e_LogIndex e = LogIndex s + 1.
Proof.
  intros Hs Ha. pose proof Ha as (b & Hn & Hap & HL & Hr)%Apply_ok; [|apply Hs]. destruct Hn as (_ & H2 & _).
  split; [exact (applied_state_ok _ _ _ Hs Hap)|]. split; [done|]. split; [apply (ap_ClusterID _ _ _ Hap)|]. split; lia.
Qed.

(** Replaying a chain of entries rebuilds the projection of its last state. *)
Lemma replay_loop_ok p l s' :
  projection_ok p -> apply_all (state p) l = Some s' ->
  exists bs, replay_loop p l = Ok (newProjection s', bs) /\ length bs = length l /\
    map b_BaseIndex bs = seqZ (LogIndex (state p)) (len l) /\ LogIndex s' = LogIndex (state p) + len l.
Proof.
  revert p. induction l as [|e l IH]; intros p Hp Ha; cbn [apply_all replay_loop] in *.
  - injection Ha as <-. exists []. rewrite <- (projection_ok_new p Hp). repeat split. unfold len. cbn. lia.
  - destruct (Apply (state p) e) as [s1 [er|]] eqn:E; [done|].
    pose proof (advance_rebuild p e Hp) as Hadv. rewrite E in Hadv.
    destruct (advance p e) as [[p1 b]|er] eqn:Ea; [|done]. destruct Hadv as (-> & Hn & Hp1).
    destruct (Apply_state _ _ _ (po_state _ Hp) E) as (_ & _ & _ & HL & _).
    destruct (IH (newProjection s1) Hp1 Ha) as (bs & Hbs & Hlen & Hbase & HL'). cbn [state newProjection] in *.
    exists (b :: bs). cbn [lift mbind result_bind fst snd]. rewrite Hbs. cbn. split; [done|]. split; [by rewrite Hlen|].
    destruct Hn as (_ & _ & _ & _ & _ & _ & Hb). rewrite len_cons. split; [|lia].
    rewrite (seqZ_cons (LogIndex (state p))) by (pose proof (len_nonneg l); lia).
    rewrite Hb, Hbase, HL. f_equal. f_equal; lia.
Qed.

Lemma filter_filter_and {A} (f g : A -> bool) l : List.filter f (List.filter g l) = List.filter (fun a => g a && f a) l.
Proof. induction l as [|a l IH]; cbn; [done|]. destruct (g a); cbn; [destruct (f a)|]; by rewrite IH. Qed.

(** Entries with consecutive indexes: those after [i] are a suffix. *)
Lemma filter_suffix (l : list Entry) lo head i :
  map e_LogIndex l = seqZ (lo + 1) (head - lo) -> lo <= i ->
  List.filter (fun e => (i <? e_LogIndex e) && (e_LogIndex e <=? head)) l = drop (Z.to_nat (i - lo)) l.
Proof.
  revert lo. induction l as [|e l IH]; intros lo Hm Hle; [by rewrite drop_nil|].
  destruct (decide (0 < head - lo)) as [Hpos|Hneg]; [|by rewrite seqZ_nil in Hm by lia].
  destruct (decide (i = lo)) as [->|Hne].
  - rewrite Z.sub_diag. change (drop _ (e :: l)) with (e :: l). apply filter_all. intros a Ha.
    assert (Hin : e_LogIndex a ∈ map e_LogIndex (e :: l)) by (by apply list_elem_of_fmap_2).
    rewrite Hm in Hin. apply elem_of_seqZ in Hin. apply andb_true_iff. rewrite Z.ltb_lt, Z.leb_le. lia.
  - rewrite seqZ_cons in Hm by done. cbn in Hm. injection Hm as He Hm.
    cbn [List.filter]. rewrite He. rewrite (proj2 (Z.ltb_ge i (lo + 1))) by lia. cbn [andb].
    replace (Z.to_nat (i - lo)) with (S (Z.to_nat (i - (lo + 1)))) by lia. cbn [drop]. apply IH; [|lia].
    rewrite Hm. f_equal; lia.
Qed.

Lemma log_sorted (l : list Entry) lo n : map e_LogIndex l = seqZ lo n -> Sorted (fun x y => entry_leb x y = true) l.
Proof.
  revert lo n. induction l as [|e l IH]; intros lo n Hm; [constructor|].
  destruct (decide (0 < n)) as [Hpos|Hneg]; [|by rewrite seqZ_nil in Hm by lia].
  rewrite seqZ_cons in Hm by done. cbn in Hm. injection Hm as He Hm. constructor; [by eapply IH|].
  destruct l as [|e' l]; constructor. cbn in Hm. destruct (decide (0 < Z.pred n)); [|by rewrite seqZ_nil in Hm by lia].
  rewrite seqZ_cons in Hm by done. injection Hm as He' _. unfold entry_leb. apply Z.leb_le. lia.
Qed.

Lemma sorted_drop n (l : list Entry) :
  Sorted (fun x y => entry_leb x y = true) l -> Sorted (fun x y => entry_leb x y = true) (drop n l).
Proof.
  revert l. induction n as [|n IH]; intros [|e l] Hs; cbn; try done. apply IH. by inversion Hs.
Qed.

(** The entries after an index are a suffix of the retained journal. *)
Lemma select_suffix cluster head compacted d i :
  db_ok cluster head compacted d -> compacted <= i ->
  select_entries d cluster i head = drop (Z.to_nat (i - compacted)) (cluster_log cluster d).
Proof.
  intros [_ Hrange _ Hidx _] Hlo. unfold select_entries.
  assert (Hf : List.filter (fun e => str_eqb (e_ClusterID e) cluster && (i <? e_LogIndex e) && (e_LogIndex e <=? head)) (cluster_journal d)
    = List.filter (fun e => (i <? e_LogIndex e) && (e_LogIndex e <=? head)) (cluster_log cluster d)).
  { unfold cluster_log. rewrite filter_filter_and. apply filter_ext. intros e. by rewrite andb_assoc. }
  rewrite Hf, (filter_suffix _ _ _ _ Hidx Hlo). apply isort_id, sorted_drop. by eapply log_sorted.
Qed.

(** What a replica computes at the head is the projection of the tables. *)
Lemma stateAtHead_ok cluster head compacted d s :
  db_ok cluster head compacted d -> store_ok cluster head compacted d s ->
  exists bs, stateAtHead s d head = Ok (newProjection (product_state cluster head d), bs) /\
    (bs = [] \/ (initialized s = true /\
       map b_BaseIndex bs = seqZ (LogIndex (state (current s))) (head - LogIndex (state (current s))))).
Proof.
  intros Hd [Hc Hs]. unfold stateAtHead. rewrite Hc, (db_head _ _ _ _ Hd). cbn [row_or_none mbind result_bind compacted_index].
  destruct (initialized s) eqn:Ei; [|eexists; split; [reflexivity|by left]]. cbn [negb orb].
  destruct (Hs eq_refl) as (Hp & Hcl & Hle & Hchain).
  destruct (LogIndex (state (current s)) <? compacted) eqn:E1; [eexists; split; [reflexivity|by left]|]. apply Z.ltb_ge in E1.
  rewrite (proj2 (Z.ltb_ge head _)) by done. cbn [orb]. specialize (Hchain E1).
  destruct (replay_loop_ok _ _ _ Hp Hchain) as (bs & Hr & Hlen & Hbase & HL).
  unfold replay. cbn [LogIndex product_state] in HL. destruct (head =? LogIndex (state (current s))) eqn:E2.
  - apply Z.eqb_eq in E2. exists []. split; [|by left]. f_equal. f_equal.
    assert (Hl : length (drop (Z.to_nat (LogIndex (state (current s)) - compacted)) (cluster_log cluster d)) = 0%nat).
    { change (LogIndex (product_state cluster head d)) with head in HL. unfold len in HL. lia. }
    apply nil_length_inv in Hl. rewrite Hl in Hchain. injection Hchain as Hst.
    rewrite <- Hst. by apply projection_ok_new.
  - apply Z.eqb_neq in E2. rewrite (proj2 (Z.ltb_ge head _)) by done.
    rewrite Hcl, (select_suffix _ _ _ _ _ Hd E1), Hr. cbn [mbind result_bind fst state newProjection].
    change (LogIndex (product_state cluster head d)) with head. rewrite Z.eqb_refl. cbn.
    exists bs. split; [done|]. right. split; [done|]. rewrite Hbase. f_equal.
    change (LogIndex (product_state cluster head d)) with head in HL. lia.
Qed.

Lemma log_length cluster head compacted d :
  db_ok cluster head compacted d -> length (cluster_log cluster d) = Z.to_nat (head - compacted).
Proof. intros [_ _ _ Hi _]. rewrite <- (length_map e_LogIndex), Hi. apply length_seqZ. Qed.

Lemma publish_ok cluster head compacted d s bs :
  db_ok cluster head compacted d -> store_ok cluster head compacted d s ->
  store_ok cluster head compacted d (publish s (newProjection (product_state cluster head d)) bs).1.
Proof.
  intros Hd [Hc Hs]. unfold publish. cbn [state newProjection]. change (LogIndex (product_state cluster head d)) with head.
  destruct (initialized s && (head <=? LogIndex (state (current s)))) eqn:E.
  - destruct (negb (onApplied s) || _); [by split|]. cbn. by split.
  - set (s1 := s <| current := newProjection (product_state cluster head d) |> <| initialized := true |>).
    assert (Hs1 : store_ok cluster head compacted d s1).
    { destruct (product_state_ok cluster head d (db_tables _ _ _ _ Hd)) as [H1 H2]. split; [exact Hc|].
      intros _. split; [by apply newProjection_ok|]. split; [done|]. split; [done|]. intros _.
      cbn [s1 current set_field state newProjection]. change (LogIndex (product_state cluster head d)) with head.
      rewrite drop_ge; [done|]. by rewrite (log_length _ _ _ _ Hd). }
    change (onApplied s1) with (onApplied s). destruct (onApplied s); [|exact Hs1]. cbn. destruct Hs1 as [H1 H2]. by split.
Qed.

Lemma follow_ok cluster head compacted d s :
  db_ok cluster head compacted d -> store_ok cluster head compacted d s ->
  exists s' note, Read s d = Ok (s', newProjection (product_state cluster head d), note) /\
    store_ok cluster head compacted d s'.
Proof.
  intros Hd Hs. destruct (stateAtHead_ok _ _ _ _ _ Hd Hs) as (bs & Hst & _).
  unfold Read. rewrite (so_cluster _ _ _ _ _ Hs), (db_head _ _ _ _ Hd). cbn [row_or_none mbind result_bind log_index].
  rewrite Hst. cbn. eexists _, _. split; [reflexivity|]. by apply publish_ok.
Qed.

(** ** What a command does to the database *)

Lemma plain_read t : plain_tables t ->
  (forall k v, Revisions (readProductState t) !! k = Some v -> schema_ok t -> plain (rev_SpecJSON v)) /\
  (forall k v, Rollouts (readProductState t) !! k = Some v -> schema_ok t -> plain (rol_StrategyJSON v)) /\
  (forall k v, Agents (readProductState t) !! k = Some v -> schema_ok t -> plain (agt_RuntimeCapabilities v)).
Proof.
  assert (Hesc : forall r, plain r -> plain (escape_html r)) by (intros r Hr; destruct Hr as [? E]; by rewrite E).
  intros (H1 & H2 & H3). split; [|split]; intros k v Hv Hok; apply scan_spec in Hv as (r & Hr & _ & _ & ->); try apply Hok;
    cbn; apply Hesc; auto.
Qed.

Lemma plain_diff base t : schema_ok t -> plain_tables t -> plain_batch (Diff base (readProductState t)).
Proof.
  intros Hok Hp. destruct (plain_read t Hp) as (H1 & H2 & H3).
  split; [|split]; intros c v [Hc _]%changes_elem Hv; rewrite Hv in Hc; symmetry in Hc; eauto.
Qed.

Lemma no_changes_nil {T} (cs : list (Change T)) : no_changes cs = true <-> cs = [].
Proof. by destruct cs. Qed.

Lemma changes_nil {T} `{!EqDecision T} (a b : gmap string T) : no_changes (changes a b) = true -> a = b.
Proof.
  intros Hn%no_changes_nil. apply map_eq. intros k. apply dec_stable. intros Hne.
  assert (Hin : Build_Change k (b !! k) ∈ changes a b) by (by apply changes_elem). rewrite Hn in Hin. set_solver.
Qed.

(** A command without an effect leaves the state it started from. *)
Lemma Empty_Diff a b : state_ok a -> state_ok b -> Empty (Diff a b) = true ->
  b <| ClusterID := ClusterID a |> <| LogIndex := LogIndex a |> = a.
Proof.
  intros Ha Hb He. unfold Empty in He. cbn in He. repeat (apply andb_true_iff in He as [He ?]).
  repeat match goal with H : no_changes (changes _ _) = true |- _ => apply changes_nil in H end.
  match goal with H : no_changes (tableChanges _ _) = true |- _ => rename H into Ht end.
  assert (Hasg : Assignments a = Assignments b).
  { apply rows_inj; [apply Ha|apply Hb|]. apply no_changes_nil in Ht. apply map_eq. intros k. apply dec_stable. intros Hne.
    assert (Hin : Build_Change k (rows (Assignments b) !! k) ∈ tableChanges (Assignments a) (Assignments b))
      by (apply tableChanges_elem; [apply Ha|apply Hb|done]). rewrite Ht in Hin. set_solver. }
  destruct a, b. cbn in *. by subst.
Qed.

Lemma applied_det s b s1 s2 : applied s b s1 -> applied s b s2 -> LogIndex s1 = LogIndex s2 -> s1 = s2.
Proof.
  intros [] [] HL.
  assert (Hasg : Assignments s1 = Assignments s2).
  { apply rows_inj; [tauto..|]. destruct ap_Assignments0 as (_ & _ & ->), ap_Assignments1 as (_ & _ & ->). done. }
  clear ap_Assignments0 ap_Assignments1 ap_owners0 ap_owners1.
  repeat match goal with H : _ /\ _ |- _ => destruct H as [_ H] end. destruct s1, s2. cbn in *. by subst.
Qed.

(** An accepted difference shows that no owner changed. *)
Lemma applied_diff_owners a b s1 : state_ok a -> state_ok b -> applied a (Diff a b) s1 -> same_owners a b.
Proof. intros Ha Hb Hap. apply diff_same_owners; [done..|]. apply (ap_owners _ _ _ Hap). Qed.

Lemma applied_diff a b s1 : state_ok a -> state_ok b -> applied a (Diff a b) s1 ->
  s1 = b <| ClusterID := ClusterID a |> <| LogIndex := LogIndex s1 |>.
Proof.
  intros Ha Hb Hap. apply (applied_det a (Diff a b)); [done| |done].
  destruct (diff_applied a b Ha Hb (applied_diff_owners _ _ _ Ha Hb Hap)). by split.
Qed.

Lemma next_entry_payload s e b p : next_entry s e b -> Decode p = Ok b -> next_entry s (set_payload e p) b.
Proof. intros (H1 & H2 & H3 & H4 & H5 & _ & H7) Hd. by repeat split. Qed.

Lemma Apply_payload s e s' p b : wf (Assignments s) ->
  Apply s e = (s', None) -> Decode (e_Payload e) = Ok b -> Decode p = Ok b -> Apply s (set_payload e p) = (s', None).
Proof.
  intros Hw (b' & Hn & Hap & HL & Hr)%Apply_ok Hd Hd'; [|done]. apply Apply_ok; [done|]. exists b'.
  assert (b' = b) as -> by (destruct Hn as (_ & _ & _ & _ & _ & D & _); congruence).
  split; [by eapply next_entry_payload|]. done.
Qed.

(** What holds of the database and of every replica at once. *)
Definition consistent (cluster : string) (head compacted : Z) (d : db) (replicas : list Store) : Prop :=
  db_ok cluster head compacted d /\ Forall (store_ok cluster head compacted d) replicas.

Lemma same_prefix_ok cluster head compacted d d' replicas :
  cluster_journal_heads d' !! cluster = cluster_journal_heads d !! cluster ->
  cluster_log cluster d' = cluster_log cluster d -> tables_ok (product d') ->
  product_state cluster head d' = product_state cluster head d ->
  consistent cluster head compacted d replicas -> consistent cluster head compacted d' replicas.
Proof.
  intros H1 H2 H3 H4 [[D1 D2 D3 D4 D5] Hs]. split.
  - split; [congruence|done|done|by rewrite H2|by rewrite H2, H4].
  - eapply Forall_impl; [exact Hs|]. intros s [S1 S2]. split; [done|]. by rewrite H2, H4.
Qed.

Lemma extend_ok cluster head compacted d d' e replicas :
  consistent cluster head compacted d replicas ->
  cluster_journal_heads d' !! cluster = Some (Build_head_row (head + 1) compacted) ->
  cluster_log cluster d' = cluster_log cluster d ++ [e] -> tables_ok (product d') ->
  Apply (product_state cluster head d) e = (product_state cluster (head + 1) d', None) ->
  consistent cluster (head + 1) compacted d' replicas.
Proof.
  intros [Hd Hs] H1 H2 H3 H4. pose proof Hd as [D1 D2 D3 D4 (s0 & S1 & S3 & S4)].
  destruct (product_state_ok cluster head d D3) as [Hp1 Hp2].
  destruct (Apply_state _ _ _ Hp1 H4) as (_ & _ & _ & _ & He). change (LogIndex (product_state cluster head d)) with head in He.
  split.
  - split; [done|lia|done| |].
    + rewrite H2, map_app, D4. cbn. rewrite He. replace (head + 1 - compacted) with ((head - compacted) + 1) by lia.
      rewrite seqZ_app by lia. f_equal. rewrite (seqZ_cons _ 1) by lia. cbn. f_equal. lia.
    + exists s0. split; [done|]. split; [done|]. rewrite H2, apply_all_app, S4. cbn [mbind option_bind apply_all]. by rewrite H4.
  - eapply Forall_impl; [exact Hs|]. intros s [C1 C2]. split; [done|]. intros Hi. destruct (C2 Hi) as (P1 & P2 & P3 & P4).
    split; [done|]. split; [done|]. split; [lia|]. intros Hlo. specialize (P4 Hlo). rewrite H2, drop_app_le.
    + rewrite apply_all_app, P4. cbn [mbind option_bind apply_all]. by rewrite H4.
    + rewrite (log_length _ _ _ _ Hd). lia.
Qed.

Context {laws : StoredJSONLaws}.

(** Commands keep the constraints of the tables, which the database checks, and
    write raw JSON that needs no escape. *)
Record command_ok (c : command) : Prop := {
  co_run : forall t t', tables_ok t -> run c t = Ok t' -> tables_ok t';
  co_react : forall f t base b t', react c = Some f -> tables_ok t -> f t base b = Ok t' -> tables_ok t';
  co_id : command_id c <> ""
}.

(** What the two steps of a command leave in the transaction. *)
Lemma command_effect c d1 d2 base batch :
  command_ok c -> tables_ok (product d1) ->
  (match react c with
   | None => Ok (d1, diffTx d1 base)
   | Some f => d2 ← with_product d1 (f (product d1) batch (diffTx d1 base)); Ok (d2, diffTx d2 base)
   end) = Ok d2 ->
  exists t, d2 = (d1 <| product := t |>, Diff base (readProductState t)) /\ tables_ok t.
Proof.
  intros [_ Hre _] Ht. destruct (react c) as [f|] eqn:E.
  - intros (d3 & Hw & [=<-])%bind_ok. unfold with_product in Hw. destruct (f _ _ _) as [t|] eqn:Ef; [|done].
    injection Hw as <-. exists t. split; [done|]. by eapply Hre.
  - intros [=<-]. exists (product d1). split; [by destruct d1|done].
Qed.

Lemma find_app_none {A} (f : A -> bool) l1 l2 : List.find f l1 = None -> List.find f (l1 ++ l2) = List.find f l2.
Proof. induction l1 as [|a l1 IH]; cbn; [done|]. destruct (f a); [done|auto]. Qed.

Lemma insert_receipt_ok d e x d' : insert_receipt d e x = Ok d' ->
  cluster_journal_heads d' = cluster_journal_heads d /\ cluster_journal d' = cluster_journal d /\ product d' = product d /\
  lookup d' (e_ClusterID e) (e_CommandID e) = Some (set_payload e (stored (e_Payload e))).
Proof.
  unfold insert_receipt. destruct (lookup d _ _) as [?|] eqn:E; [done|]. intros [=<-]. split; [done|]. split; [done|].
  split; [done|]. unfold lookup in *. cbn. apply fmap_None in E. rewrite find_app_none by done. cbn.
  by rewrite !(proj2 (str_eqb_eq _ _) eq_refl).
Qed.

Lemma insert_journal_ok d e d' : insert_journal d e = Ok d' ->
  cluster_journal_heads d' = cluster_journal_heads d /\ product d' = product d /\
  cluster_journal_receipts d' = cluster_journal_receipts d /\
  cluster_journal d' = cluster_journal d ++ [set_payload e (stored (e_Payload e))].
Proof. unfold insert_journal. destruct (existsb _ _); [done|]. by intros [=<-]. Qed.

Lemma execute_tx_ok cluster head compacted d replicas s fence c now d' r :
  consistent cluster head compacted d replicas -> store_ok cluster head compacted d s -> command_ok c ->
  execute_tx s fence c now d = Ok (d', r) ->
  consistent cluster (if appended r then head + 1 else head) compacted d' replicas /\
  store_ok cluster (if appended r then head + 1 else head) compacted d' s.
Proof using json laws.
  intros Hcon Hs Hc Hx.
  enough (consistent cluster (if appended r then head + 1 else head) compacted d' (s :: replicas)) as [H1 H2].
  { apply Forall_cons in H2 as [? ?]. by split. }
  assert (Hall : consistent cluster head compacted d (s :: replicas)) by (destruct Hcon; split; [done|by constructor]).
  clear Hcon. pose proof Hall as [Hd _]. pose proof (db_tables _ _ _ _ Hd) as Ht.
  destruct (stateAtHead_ok _ _ _ _ _ Hd Hs) as (bs & Hst & _). destruct Hs as [Hcl _].
  unfold execute_tx in Hx. rewrite Hcl, (db_head _ _ _ _ Hd) in Hx. cbn [row_or_none mbind result_bind log_index] in Hx.
  destruct (lookup d cluster (command_id c)) as [rc|] eqn:El; [by injection Hx as <- <-|].
  rewrite Hst in Hx. cbn [mbind result_bind fst] in Hx.
  apply bind_ok in Hx as (d1 & Hd1 & Hx). unfold with_product in Hd1. destruct (run c (product d)) as [t1|] eqn:Er; [|done].
  injection Hd1 as <-. pose proof (co_run _ Hc _ _ Ht Er) as Ht1.
  apply bind_ok in Hx as ([d2 b2] & Hd2 & Hx).
  apply (command_effect _ _ _ (product_state cluster head d) _ Hc) in Hd2 as (t & [=-> ->] & Ht2); [|exact Ht1].
  cbn [fst snd] in Hx. destruct (product_state_ok cluster head d Ht) as [Hb1 Hb2].
  pose proof (read_state_ok t (proj1 Ht2)) as Ha1.
  destruct (Empty (Diff (product_state cluster head d) (readProductState t))) eqn:Ee.
  - pose proof (Empty_Diff _ _ Hb1 Ha1 Ee) as Heq.
    destruct (str_eqb (caller_id c) "").
    + injection Hx as <- <-. cbn [appended]. eapply same_prefix_ok; [..|exact Hall]; [done|done|exact Ht2|exact Heq].
    + apply bind_ok in Hx as (p & _ & Hx). apply bind_ok in Hx as (d3 & Hins & [=<- <-]).
      apply insert_receipt_ok in Hins as (I1 & I2 & I3 & _). cbn [appended].
      eapply same_prefix_ok; [..|exact Hall]; [by rewrite I1|unfold cluster_log; by rewrite I2|by rewrite I3|].
      unfold product_state at 1. rewrite I3. exact Heq.
  - apply bind_ok in Hx as (ep & _ & Hx). apply bind_ok in Hx as (p & Hm & Hx). apply bind_ok in Hx as ([p1 b1] & Hadv & Hx).
    apply bind_ok in Hx as (lk & Hlk & Hx). apply bind_ok in Hx as ([] & Hg & Hx). apply bind_ok in Hx as (d3 & Hij & Hx).
    apply bind_ok in Hx as (d4 & Hir & [=<- <-]). cbn [appended].
    apply insert_receipt_ok in Hir as (I1 & I2 & I3 & _). apply insert_journal_ok in Hij as (J1 & J2 & _ & J3).
    cbn in Hlk. rewrite (db_head _ _ _ _ Hd) in Hlk. injection Hlk as <-.
    destruct (marshal_roundtrip _ (plain_diff (product_state cluster head d) t (proj1 Ht2) (proj2 (proj2 Ht2)))) as (p' & M1 & M2 & M3).
    unfold marshal in Hm. rewrite M1 in Hm. injection Hm as <-.
    unfold lift in Hadv. destruct (advance _ _) as [[p2 b2']|] eqn:Ea; [|done]. injection Hadv as -> ->.
    apply advance_ok in Ea as (Hn & HA & _); [|by apply newProjection_ok]. cbn [state newProjection] in HA, Hn.
    pose proof HA as (b' & Hn' & Hap & HL & Hr)%Apply_ok; [|apply Hb1].
    assert (b' = Diff (product_state cluster head d) (readProductState t)) as ->
      by (destruct Hn' as (_ & _ & _ & _ & _ & D & _); cbn in D; congruence).
    pose proof (applied_diff _ _ _ Hb1 Ha1 Hap) as Hs1. rewrite HL in Hs1. cbn [e_LogIndex new_entry] in Hs1.
    eapply extend_ok; [exact Hall|cbn; by rewrite lookup_insert_eq| | |].
    + unfold cluster_log. cbn. rewrite I2, J3. cbn. rewrite List.filter_app. cbn.
      rewrite (proj2 (str_eqb_eq cluster cluster) eq_refl). done.
    + cbn. rewrite I3, J2. exact Ht2.
    + assert (Hprod : product d4 = t) by (by rewrite I3, J2).
      unfold product_state at 2. match goal with |- context [product (set_field ?v d4)] =>
        change (product (set_field v d4)) with (product d4) end.
      rewrite Hprod. change cluster with (ClusterID (product_state cluster head d)) at 3. rewrite <- Hs1.
      by eapply Apply_payload; [apply Hb1|exact HA|exact M2|].
Qed.

Lemma resolve_ok cluster head compacted d s c err reachable :
  db_ok cluster head compacted d -> store_ok cluster head compacted d s ->
  store_ok cluster head compacted d (resolve s c d err reachable).1.1.
Proof.
  intros Hd Hs. unfold resolve. destruct (if reachable then _ else _) as [e|]; [|done].
  destruct (follow_ok _ _ _ _ _ Hd Hs) as (s' & note & -> & Hs'). exact Hs'.
Qed.

Lemma execute_ok cluster head compacted d replicas s fence c now outcome reachable :
  consistent cluster head compacted d replicas -> store_ok cluster head compacted d s -> command_ok c ->
  let '(d', (s', _, _)) := execute s fence c now d outcome reachable in
  exists head', head <= head' /\ consistent cluster head' compacted d' replicas /\ store_ok cluster head' compacted d' s'.
Proof using json laws.
  intros Hcon Hs Hc. unfold execute.
  assert (Hres : forall d' head' err, consistent cluster head' compacted d' replicas -> store_ok cluster head' compacted d' s ->
    head <= head' ->
    let '(d'', (s', _, _)) := (d', resolve s c d' err reachable) in
    exists head'', head <= head'' /\ consistent cluster head'' compacted d'' replicas /\ store_ok cluster head'' compacted d'' s').
  { intros d' head' err Hc' Hs' Hle. pose proof (resolve_ok _ _ _ _ _ c err reachable (proj1 Hc') Hs') as Hr.
    destruct (resolve s c d' err reachable) as [[s'' r] n]. cbn in Hr. eauto. }
  destruct (execute_tx s fence c now d) as [[d' r]|er] eqn:E; [|apply (Hres d head true Hcon Hs); lia].
  pose proof (execute_tx_ok _ _ _ _ _ _ _ _ _ _ _ Hcon Hs Hc E) as [Hc' Hs'].
  assert (Hle : head <= (if appended r then head + 1 else head)) by (destruct (appended r); lia).
  destruct outcome; [|apply (Hres d head true Hcon Hs); lia|by apply (Hres _ _ true Hc' Hs')].
  destruct (negb (appended r) && _); [by eauto|]. destruct (negb (appended r) && _); [by eauto|]. by apply (Hres _ _ false Hc' Hs').
Qed.

Lemma filter_indexes (l : list Entry) lo head target :
  map e_LogIndex l = seqZ (lo + 1) (head - lo) ->
  List.filter (fun e => negb (e_LogIndex e <=? target)) l
  = List.filter (fun e => (target <? e_LogIndex e) && (e_LogIndex e <=? head)) l.
Proof.
  intros Hm. apply List.filter_ext_in. intros e He%list_elem_of_In.
  assert (Hin : e_LogIndex e ∈ map e_LogIndex l) by (by apply list_elem_of_fmap_2).
  rewrite Hm in Hin. apply elem_of_seqZ in Hin. rewrite (proj2 (Z.leb_le (e_LogIndex e) head)) by lia.
  rewrite andb_true_r, Z.leb_antisym, negb_involutive. done.
Qed.

Lemma apply_all_index s l s' : state_ok s -> apply_all s l = Some s' -> state_ok s' /\ LogIndex s' = LogIndex s + len l.
Proof.
  revert s. induction l as [|e l IH]; intros s Hs Ha; cbn in Ha; [injection Ha as <-; split; [done|]; unfold len; cbn; lia|].
  destruct (Apply s e) as [s1 [er|]] eqn:E; [done|]. destruct (Apply_state _ _ _ Hs E) as (H1 & _ & _ & H2 & _).
  destruct (IH s1 H1 Ha) as [H3 H4]. split; [done|]. rewrite len_cons. lia.
Qed.

(** Dropping a prefix of the journal that nobody needs. *)
Lemma truncate_ok cluster head compacted target d d' replicas :
  consistent cluster head compacted d replicas -> compacted <= target <= head ->
  cluster_journal_heads d' !! cluster = Some (Build_head_row head target) -> product d' = product d ->
  cluster_log cluster d' = drop (Z.to_nat (target - compacted)) (cluster_log cluster d) ->
  consistent cluster head target d' replicas.
Proof.
  intros [Hd Hs] Ht H1 H2 H3. pose proof Hd as [D1 D2 D3 D4 (s0 & S1 & S3 & S4)].
  assert (Hps : product_state cluster head d' = product_state cluster head d) by (unfold product_state; by rewrite H2).
  set (n := Z.to_nat (target - compacted)) in *. split.
  - split; [done|lia|by rewrite H2| |].
    + rewrite H3, <- skipn_map, D4. replace (head - compacted) with ((target - compacted) + (head - target)) by lia.
      rewrite seqZ_app by lia. rewrite drop_app_length'; [f_equal; lia|]. rewrite length_seqZ. done.
    + rewrite <- (take_drop n (cluster_log cluster d)), apply_all_app in S4.
      destruct (apply_all s0 (take n (cluster_log cluster d))) as [s1|] eqn:E; [|done]. cbn in S4.
      destruct (apply_all_index _ _ _ S1 E) as [K1 K2]. exists s1. split; [done|]. split.
      * rewrite K2, S3. unfold len. rewrite length_take, (log_length _ _ _ _ Hd). unfold n. lia.
      * by rewrite H3, Hps.
  - eapply Forall_impl; [exact Hs|]. intros s [C1 C2]. split; [done|]. intros Hi. destruct (C2 Hi) as (P1 & P2 & P3 & P4).
    split; [done|]. split; [done|]. split; [lia|]. intros Hlo. rewrite Hps, <- P4 by lia. f_equal.
    rewrite H3, drop_drop. f_equal. unfold n. lia.
Qed.

Lemma Compact_ok cluster head compacted d replicas retain fence now d' k :
  consistent cluster head compacted d replicas -> Compact cluster retain fence now d = Ok (d', k) ->
  compacted <= k <= head /\ consistent cluster head k d' replicas /\
  (if retain <=? 0 then k = head else head - k < 2 * retain /\ (k = compacted \/ retain <= head - k)).
Proof.
  intros Hcon Hx. pose proof Hcon as [Hd _]. pose proof (db_range _ _ _ _ Hd) as Hr.
  unfold Compact in Hx. apply bind_ok in Hx as ([] & _ & Hx). rewrite (db_head _ _ _ _ Hd) in Hx.
  cbn [row_or_none mbind result_bind log_index compacted_index] in Hx.
  set (rt := if retain <? 0 then 0 else retain) in *. assert (Hrt : 0 <= rt) by (unfold rt; destruct (retain <? 0) eqn:E; bool_to_prop; lia).
  set (target := if (0 <? rt) && (head - rt - compacted <? rt) then compacted else head - rt) in *.
  assert (Hreceipts : forall d0 d1 h c0, cluster_journal_heads d1 = cluster_journal_heads d0 -> cluster_journal d1 = cluster_journal d0 ->
    product d1 = product d0 -> consistent cluster h c0 d0 replicas -> consistent cluster h c0 d1 replicas).
  { intros d0 d1 h c0 E1 E2 E3 H0. pose proof (db_tables _ _ _ _ (proj1 H0)). eapply same_prefix_ok; [..|exact H0];
      [by rewrite E1|unfold cluster_log; by rewrite E2|by rewrite E3|unfold product_state; by rewrite E3]. }
  destruct (compacted <? target) eqn:Et.
  - injection Hx as <- <-. apply Z.ltb_lt in Et.
    assert (Htg : target = head - rt) by (unfold target in *; destruct (_ && _); lia).
    split; [lia|]. split.
    + eapply Hreceipts; [reflexivity|reflexivity|reflexivity|].
      eapply truncate_ok; [exact Hcon|lia|cbn; by rewrite lookup_insert_eq|done|].
      unfold cluster_log at 1. cbn. rewrite filter_filter_and.
      rewrite <- (filter_suffix _ _ _ _ (db_indexes _ _ _ _ Hd)) by lia.
      rewrite <- (filter_indexes _ _ _ _ (db_indexes _ _ _ _ Hd)). unfold cluster_log. rewrite filter_filter_and.
      apply filter_ext. intros e. by destruct (str_eqb (e_ClusterID e) cluster), (e_LogIndex e <=? target).
    + destruct (retain <=? 0) eqn:E0; bool_to_prop; unfold rt in *; destruct (retain <? 0) eqn:E1; bool_to_prop; lia.
  - injection Hx as <- <-. apply Z.ltb_ge in Et. split; [lia|]. split; [eapply (Hreceipts d); [reflexivity|reflexivity|reflexivity|exact Hcon]|].
    unfold target in Et. destruct (retain <=? 0) eqn:E0; unfold rt in *; destruct (retain <? 0) eqn:E1; bool_to_prop; try lia;
      destruct (_ && _) eqn:E2 in Et; try (apply andb_false_iff in E2); try (apply andb_true_iff in E2); bool_to_prop; try lia;
      destruct E2; bool_to_prop; lia.
Qed.
End Store.

(** ** Notifications *)

Section Notifications.
Context {json : StoredJSON}.

Lemma drop_applied_seq i n bs index :
  map b_BaseIndex bs = seqZ i (n - i) -> i <= index -> map b_BaseIndex (drop_applied index bs) = seqZ index (n - index).
Proof.
  revert i. induction bs as [|b bs IH]; intros i Hm Hle; cbn in *.
  - assert (n - i <= 0) by (destruct (decide (0 < n - i)); [by rewrite seqZ_cons in Hm|lia]). by rewrite seqZ_nil by lia.
  - destruct (decide (0 < n - i)) as [Hp|]; [|by rewrite seqZ_nil in Hm by lia].
    rewrite seqZ_cons in Hm by done. injection Hm as Hb Hm. destruct (b_BaseIndex b <? index) eqn:E; bool_to_prop.
    + apply (IH (i + 1)); [|lia]. rewrite Hm. f_equal; lia.
    + assert (Hidx : i = index) by lia. rewrite <- Hidx. cbn. by rewrite Hb, Hm, <- seqZ_cons.
Qed.

(** Publishing orders what listeners see.  A replica's prefix never moves
    back; a notification carries the prefix it now holds; and unless it announces
    a reset, its batches are exactly those between the prefix the listener had
    and this one, each once and in order, even when a newer prefix was published
    while they were being replayed. *)
Theorem notifications_in_order s next bs i s' note :
  i <= LogIndex (state (current s)) -> map b_BaseIndex bs = seqZ i (LogIndex (state next) - i) ->
  publish s next bs = (s', note) ->
  (initialized s = true -> LogIndex (state (current s)) <= LogIndex (state (current s'))) /\
  match note with
  | None => onApplied s = false \/ (current s' = current s /\ published s' = published s)
  | Some a =>
      published s' = Some (ap_projection a) /\ current s' = ap_projection a /\
      (ap_reset a = false -> is_Some (published s) /\
        map b_BaseIndex (ap_batches a) =
          seqZ (LogIndex (state (current s))) (LogIndex (state (ap_projection a)) - LogIndex (state (current s))))
  end.
Proof.
  intros Hi Hm. unfold publish.
  destruct (initialized s && (LogIndex (state next) <=? LogIndex (state (current s)))) eqn:E.
  - destruct (onApplied s) eqn:Eo, (published s) as [p|] eqn:Ep; cbn; intros [=<- <-]; cbn; rewrite ?Ep;
      (split; [done|]); auto. split; [done|]. split; [done|]. done.
  - set (index := LogIndex (state (current s))) in *.
    pose proof (drop_applied_seq _ _ _ _ Hm Hi) as Hd.
    assert (Hmono : initialized s = true -> index <= LogIndex (state next)).
    { intros Hin. rewrite Hin in E. cbn in E. bool_to_prop. lia. }
    set (reset := match drop_applied index bs with
                  | [] => true
                  | b :: _ => if b_BaseIndex b =? index then match published s with None => true | Some _ => false end else true end).
    assert (Hreset : reset = false -> is_Some (published s)).
    { unfold reset. destruct (drop_applied index bs) as [|b l]; [done|]. destruct (b_BaseIndex b =? index); [|done].
      by destruct (published s). }
    cbn. destruct (onApplied s) eqn:Eo; intros [=<- <-]; cbn; (split; [done|]); [|by left].
    split; [done|]. split; [done|]. intros Hr. split; [by apply Hreset|exact Hd].
Qed.
End Notifications.

End JournalStore.
