(* ===== verification/JournalSystem.v ===== *)
(** * Replicas sharing one journal

    The control-plane replicas of [internal/controlplane/journal/store.go] as a
    step relation over one database: they join, run commands whose commit may
    be lost or hidden, read, and compact.  The theorems hold in every state
    reachable from a fresh journal: each replica reads exactly the product
    tables, commands take effect once, scheduling decisions carry an epoch, and
    listeners are told every change in order.  The last part is a concrete
    JSON column for which the assumptions hold, and the case in which the text
    of a stored revision is not kept. *)

From S2P Require Import Prelude RowMap Journal Projection Product JournalStore.

Module JournalSystem.
Import RowMap Journal Projection Product JournalStore.

Section System.
Context {json : StoredJSON} {laws : StoredJSONLaws}.
Variable cluster : string.

Record system := { sys_db : db; sys_stores : list Store }.

(** A fresh journal over tables that satisfy their constraints. *)
Definition initial (sys : system) : Prop :=
  cluster_journal_heads (sys_db sys) !! cluster = Some (Build_head_row 0 0) /\
  cluster_log cluster (sys_db sys) = [] /\ tables_ok (product (sys_db sys)) /\ sys_stores sys = [].

(** One thing that happens to the replicas or to their database.  A step is
    labelled with the time of a compaction, which deletes expired receipts. *)
Inductive step : option time -> system -> system -> Prop :=
| StepJoin d ss : step None {| sys_db := d; sys_stores := ss |} {| sys_db := d; sys_stores := ss ++ [New cluster] |}
| StepHook d ss i s hook :
    ss !! i = Some s ->
    step None {| sys_db := d; sys_stores := ss |} {| sys_db := d; sys_stores := <[i := SetOnApplied s hook]> ss |}
| StepExecute d ss i s fence c now outcome reachable d' s' r note :
    ss !! i = Some s -> command_ok c -> execute s fence c now d outcome reachable = (d', (s', r, note)) ->
    step None {| sys_db := d; sys_stores := ss |} {| sys_db := d'; sys_stores := <[i := s']> ss |}
| StepRead d ss i s s' p note :
    ss !! i = Some s -> Read s d = Ok (s', p, note) ->
    step None {| sys_db := d; sys_stores := ss |} {| sys_db := d; sys_stores := <[i := s']> ss |}
| StepCompact d ss retain fence now d' k :
    Compact cluster retain fence now d = Ok (d', k) ->
    step (Some now) {| sys_db := d; sys_stores := ss |} {| sys_db := d'; sys_stores := ss |}.

Inductive reachable : system -> Prop :=
| reach_init sys : initial sys -> reachable sys
| reach_step at_ sys sys' : reachable sys -> step at_ sys sys' -> reachable sys'.

(** Compactions that run before a time. *)
Definition in_time (before at_ : option time) : Prop :=
  match before, at_ with Some t, Some now => now < t | _, _ => True end.

(** The systems that follow one, with every compaction in time. *)
Inductive later (before : option time) (sys : system) : system -> Prop :=
| later_here : later before sys sys
| later_step at_ sys1 sys2 : later before sys sys1 -> step at_ sys1 sys2 -> in_time before at_ -> later before sys sys2.

Definition sys_ok (sys : system) : Prop :=
  exists head compacted, 0 <= compacted /\ consistent cluster head compacted (sys_db sys) (sys_stores sys).

Lemma initial_ok sys : initial sys -> sys_ok sys.
Proof.
  intros (H1 & H2 & H3 & H4). exists 0, 0. split; [done|]. split.
  - split; [done|done|done|by rewrite H2|].
    destruct (product_state_ok cluster 0 (sys_db sys) H3) as [Hs _].
    exists (product_state cluster 0 (sys_db sys)). split; [done|]. split; [done|]. by rewrite H2.
  - rewrite H4. constructor.
Qed.

Lemma step_ok at_ sys sys' : sys_ok sys -> step at_ sys sys' -> sys_ok sys'.
Proof using json laws.
  intros (head & compacted & Hpos & Hd & Hs) Hstep.
  inversion Hstep as [d ss E0 E1 E2|d ss i s hook Hi E0 E1 E2|d ss i s fence c now outcome rch d' s' r note Hi Hc Hx E0 E1 E2
                     |d ss i s s' p note Hi Hr E0 E1 E2|d ss retain fence now d' k Hk E0 E1 E2]; subst; cbn in *.
  - exists head, compacted. split; [done|]. split; [done|]. apply Forall_app. split; [done|]. constructor; [|done]. by split.
  - exists head, compacted. split; [done|]. split; [done|]. apply Forall_insert; [done|].
    rewrite Forall_lookup in Hs. destruct (Hs _ _ Hi) as [S1 S2]. by split.
  - rewrite Forall_lookup in Hs. pose proof (Hs _ _ Hi) as Hsi. rewrite <- Forall_lookup in Hs.
    pose proof (execute_ok cluster head compacted d ss s fence c now outcome rch (conj Hd Hs) Hsi Hc) as Hex.
    rewrite Hx in Hex. destruct Hex as (head' & _ & [Hd' Hss] & Hs').
    exists head', compacted. split; [done|]. split; [done|]. by apply Forall_insert.
  - rewrite Forall_lookup in Hs. pose proof (Hs _ _ Hi) as Hsi. rewrite <- Forall_lookup in Hs.
    destruct (follow_ok _ _ _ _ _ Hd Hsi) as (s1 & n1 & E & Hs1). rewrite E in Hr. injection Hr as <- <- <-.
    exists head, compacted. split; [done|]. split; [done|]. by apply Forall_insert.
  - destruct (Compact_ok _ _ _ _ _ _ _ _ _ _ (conj Hd Hs) Hk) as (Hrange & Hcon & _).
    exists head, k. split; [lia|done].
Qed.

Lemma reachable_ok sys : reachable sys -> sys_ok sys.
Proof using json laws. induction 1; [by apply initial_ok|by eapply step_ok]. Qed.

Lemma later_reachable before sys sys' : reachable sys -> later before sys sys' -> reachable sys'.
Proof using json laws. intros H. induction 1; [done|by eapply reach_step]. Qed.

(** C2: As long as every executed command keeps the constraints of the product
    tables and writes raw JSON without characters [json.Marshal] escapes
    ([command_ok], a condition of [StepExecute]), a replica that reads obtains
    the projection of the product tables at the head of the journal, in every
    reachable state: however commits were reported and however much of the
    journal was compacted, replay never meets a gap or a conflict and never
    deviates.  [escaped_text_is_a_phantom_change] below is what happens
    without the condition on raw JSON. *)
Theorem replicas_follow_tables sys s :
  reachable sys -> s ∈ sys_stores sys ->
  exists head s' note,
    (log_index <$> cluster_journal_heads (sys_db sys) !! cluster) = Some head /\
    Read s (sys_db sys) = Ok (s', newProjection (product_state cluster head (sys_db sys)), note).
Proof using json laws.
  intros Hr Hs. destruct (reachable_ok _ Hr) as (head & compacted & _ & Hd & Hss). rewrite Forall_forall in Hss.
  destruct (follow_ok _ _ _ _ _ Hd (Hss _ Hs)) as (s' & note & HR & _).
  exists head, s', note. split; [by rewrite (db_head _ _ _ _ Hd)|done].
Qed.

(** In every reachable state the retained journal is complete: its entries
    carry the indexes after the compacted one up to the head, each once and in
    order, so a replica that has seen the compacted index can catch up. *)
Theorem journal_has_no_gaps sys :
  reachable sys ->
  exists head compacted, cluster_journal_heads (sys_db sys) !! cluster = Some (Build_head_row head compacted) /\
    0 <= compacted <= head /\ map e_LogIndex (cluster_log cluster (sys_db sys)) = seqZ (compacted + 1) (head - compacted).
Proof using json laws.
  intros Hr. destruct (reachable_ok _ Hr) as (head & compacted & Hpos & Hd & _). exists head, compacted.
  split; [apply (db_head _ _ _ _ Hd)|]. split; [pose proof (db_range _ _ _ _ Hd); lia|apply (db_indexes _ _ _ _ Hd)].
Qed.

(** Compaction bounds the replay tail and stays usable.  After it, fewer than
    twice the entries to retain are left (none when nothing is to be retained),
    never fewer than those to retain unless nothing was removed, and the index
    it reports is where the retained journal starts. *)
Theorem compaction_bounds_tail sys retain fence now d' k :
  reachable sys -> Compact cluster retain fence now (sys_db sys) = Ok (d', k) ->
  let kept := Z.of_nat (length (cluster_log cluster d')) in
  let before := Z.of_nat (length (cluster_log cluster (sys_db sys))) in
  (if retain <=? 0 then kept = 0 else kept < 2 * retain /\ (kept = before \/ retain <= kept)) /\
  exists head, cluster_journal_heads d' !! cluster = Some (Build_head_row head k) /\
    map e_LogIndex (cluster_log cluster d') = seqZ (k + 1) (head - k).
Proof using json laws.
  intros Hr Hx kept before. destruct (reachable_ok _ Hr) as (head & compacted & _ & Hcon).
  destruct (Compact_ok _ _ _ _ _ _ _ _ _ _ Hcon Hx) as (Hrange & [Hd' _] & Hb). destruct Hcon as [Hd _].
  assert (Hlen : forall c d, db_ok cluster head c d -> Z.of_nat (length (cluster_log cluster d)) = head - c).
  { intros c d H. rewrite <- (length_map e_LogIndex), (db_indexes _ _ _ _ H), length_seqZ.
    pose proof (db_range _ _ _ _ H). lia. }
  unfold kept, before. rewrite (Hlen _ _ Hd), (Hlen _ _ Hd'). split; [destruct (retain <=? 0); lia|].
  exists head. split; [apply (db_head _ _ _ _ Hd')|apply (db_indexes _ _ _ _ Hd')].
Qed.

(** ** Commands take effect once *)

(** A command whose receipt is on record is answered from it. *)
Lemma known_command head compacted d s fence c now outcome e :
  db_ok cluster head compacted d -> store_ok cluster head compacted d s ->
  lookup d cluster (command_id c) = Some e ->
  exists s' note, execute s fence c now d outcome true = (d, (s', Ok (Some e), note)).
Proof using json.
  intros Hd Hs Hl. pose proof (so_cluster _ _ _ _ _ Hs) as Hc.
  assert (Hres : forall err, exists s' note, resolve s c d err true = (s', Ok (Some e), note)).
  { intros err. unfold resolve. rewrite Hc, Hl. destruct (follow_ok _ _ _ _ _ Hd Hs) as (s' & note & -> & _). eauto. }
  unfold execute, execute_tx. rewrite Hc, (db_head _ _ _ _ Hd). cbn [row_or_none mbind result_bind]. rewrite Hl.
  destruct outcome; cbn [appended recordedNoOp resolvedReceipt resolvedNoOp tx_receipt negb andb orb].
  - destruct (match Decode (e_Payload e) with Ok b => Empty b | Err _ => false end); [by eauto|].
    destruct (Hres false) as (s' & note & ->). eauto.
  - destruct (Hres true) as (s' & note & ->). eauto.
  - destruct (Hres true) as (s' & note & ->). eauto.
Qed.

(** An entry that schedules carries the positive epoch that the fence of its
    own transaction returned, given the tables as that transaction left them. *)
Definition fenced (fence : option (db -> result string Z)) (d d' : db) (e : Entry) : Prop :=
  forall b, Decode (e_Payload e) = Ok b -> requiresAuthority b = true ->
  exists f epoch, fence = Some f /\ f (d <| product := product d' |>) = Ok epoch /\ 0 < epoch /\
    e_AuthorizingEpoch e = Some epoch.

(** What a transaction of [execute] leaves in the journal and the receipts. *)
Lemma execute_tx_log head compacted d s fence c now d' r :
  db_ok cluster head compacted d -> store_ok cluster head compacted d s -> command_ok c ->
  execute_tx s fence c now d = Ok (d', r) ->
  if appended r then
    exists e b, cluster_journal d' = cluster_journal d ++ [e] /\ lookup d' cluster (command_id c) = Some e /\
      e_ClusterID e = cluster /\ e_LogIndex e = head + 1 /\ e_CommandID e = command_id c /\ Decode (e_Payload e) = Ok b /\
      Empty b = false /\ fenced fence d d' e
  else cluster_journal d' = cluster_journal d /\
    ((recordedNoOp r || resolvedReceipt r = true) -> is_Some (lookup d' cluster (command_id c))).
Proof using json laws.
  intros Hd Hs Hc Hx. pose proof (so_cluster _ _ _ _ _ Hs) as Hcl. pose proof (db_tables _ _ _ _ Hd) as Ht.
  destruct (stateAtHead_ok _ _ _ _ _ Hd Hs) as (bs & Hst & _). clear Hs.
  unfold execute_tx in Hx. rewrite Hcl, (db_head _ _ _ _ Hd) in Hx. cbn [row_or_none mbind result_bind log_index] in Hx.
  destruct (lookup d cluster (command_id c)) as [rc|] eqn:El.
  { injection Hx as <- <-. cbn. split; [done|]. intros _. by rewrite El. }
  rewrite Hst in Hx. cbn [mbind result_bind fst] in Hx.
  apply bind_ok in Hx as (d1 & Hd1 & Hx). unfold with_product in Hd1. destruct (run c (product d)) as [t1|] eqn:Er; [|done].
  injection Hd1 as <-. pose proof (co_run _ Hc _ _ Ht Er) as Ht1.
  apply bind_ok in Hx as ([d2 b2] & Hd2 & Hx).
  apply (command_effect _ _ _ (product_state cluster head d) _ Hc) in Hd2 as (t & [=-> ->] & Ht2); [|exact Ht1].
  cbn [fst snd] in Hx. destruct (Empty (Diff (product_state cluster head d) (readProductState t))) eqn:Ee.
  - destruct (str_eqb (caller_id c) ""); [injection Hx as <- <-; cbn; by split|].
    apply bind_ok in Hx as (p & _ & Hx). apply bind_ok in Hx as (d3 & Hins & [=<- <-]).
    apply insert_receipt_ok in Hins as (_ & I2 & _ & I4). cbn in I4 |- *. split; [by rewrite I2|]. intros _. by rewrite I4.
  - apply bind_ok in Hx as (ep & Hep & Hx). apply bind_ok in Hx as (p & Hm & Hx). apply bind_ok in Hx as ([p1 b1] & Hadv & Hx).
    apply bind_ok in Hx as (lk & Hlk & Hx). apply bind_ok in Hx as ([] & Hg & Hx). apply bind_ok in Hx as (d3 & Hij & Hx).
    apply bind_ok in Hx as (d4 & Hir & [=<- <-]). cbn [appended].
    apply insert_receipt_ok in Hir as (_ & I2 & I3 & I4). apply insert_journal_ok in Hij as (_ & J2 & _ & J3).
    destruct (marshal_roundtrip _ (plain_diff (product_state cluster head d) t (proj1 Ht2) (proj2 (proj2 Ht2)))) as (p' & M1 & M2 & M3).
    unfold marshal in Hm. rewrite M1 in Hm. injection Hm as <-.
    eexists _, (Diff (product_state cluster head d) (readProductState t)).
    split; [cbn; rewrite I2, J3; reflexivity|]. split; [exact I4|]. repeat (split; [done|]).
    intros b Hb Hreq. assert (b = Diff (product_state cluster head d) (readProductState t)) as -> by (cbn in Hb; congruence).
    unfold authorizeScheduling in Hep. rewrite Hreq in Hep. cbn in Hep.
    destruct fence as [f|]; [|done]. destruct (f _) as [epoch|] eqn:Ef; [|done].
    destruct (epoch <=? 0) eqn:E0; [done|]. injection Hep as <-. exists f, epoch. split; [done|].
    split; [|split; [by apply Z.leb_gt in E0|done]]. rewrite <- Ef. f_equal.
    assert (Hprod : product d4 = t) by (by rewrite I3, J2). cbn. by rewrite Hprod.
Qed.

(** The receipts a transaction of [execute] leaves: those there were, and the
    one of a command that appended or recorded that it changed nothing. *)
Lemma execute_tx_receipts s fence c now d d' r :
  execute_tx s fence c now d = Ok (d', r) ->
  exists new, cluster_journal_receipts d' = cluster_journal_receipts d ++ new /\
    (appended r || recordedNoOp r = true -> exists e, new = [Build_receipt_row e (now + receipt_lifetime c)] /\
      lookup d (clusterID s) (command_id c) = None /\ e_ClusterID e = clusterID s /\ e_CommandID e = command_id c).
Proof.
  assert (Hins : forall d e x d', insert_receipt d e x = Ok d' -> cluster_journal_receipts d'
    = cluster_journal_receipts d ++ [Build_receipt_row (set_payload e (stored (e_Payload e))) x]).
  { intros d0 e x d1. unfold insert_receipt. destruct (lookup _ _ _); [done|]. by intros [=<-]. }
  assert (Hwp : forall d r d', with_product d r = Ok d' -> cluster_journal_receipts d' = cluster_journal_receipts d).
  { intros d0 [t|] d1; [|done]. by intros [=<-]. }
  unfold execute_tx. intros Hx. apply bind_ok in Hx as (row & _ & Hx).
  destruct (lookup d (clusterID s) (command_id c)) as [rc|] eqn:El.
  { injection Hx as <- <-. exists []. by rewrite app_nil_r. }
  apply bind_ok in Hx as (base & _ & Hx). apply bind_ok in Hx as (d1 & H1%Hwp & Hx). apply bind_ok in Hx as ([d2 b2] & H2 & Hx).
  assert (Hd2 : cluster_journal_receipts d2 = cluster_journal_receipts d).
  { destruct (react c); [|by injection H2 as <- _]. apply bind_ok in H2 as (d3 & H3%Hwp & [=<- _]). congruence. }
  cbn [fst snd] in Hx. destruct (Empty b2).
  - destruct (str_eqb (caller_id c) ""); [injection Hx as <- <-; exists []; by rewrite app_nil_r|].
    apply bind_ok in Hx as (p & _ & Hx). apply bind_ok in Hx as (d3 & H3%Hins & [=<- <-]).
    rewrite H3, Hd2. eexists. split; [reflexivity|]. intros _. eexists. by split; [reflexivity|].
  - apply bind_ok in Hx as (ep & _ & Hx). apply bind_ok in Hx as (p & _ & Hx). apply bind_ok in Hx as (adv & _ & Hx).
    apply bind_ok in Hx as (lk & _ & Hx). apply bind_ok in Hx as ([] & _ & Hx). apply bind_ok in Hx as (d3 & Hij & Hx).
    apply bind_ok in Hx as (d4 & H4%Hins & [=<- <-]). apply insert_journal_ok in Hij as (_ & _ & Hr & _).
    cbn [cluster_journal_receipts set_field]. eexists. split; [cbn; rewrite H4, Hr, Hd2; reflexivity|].
    intros _. eexists. by split; [reflexivity|].
Qed.

(** The receipt of a command is on record and is kept until [expiry]. *)
Definition on_record (d : db) (id : string) (e : Entry) (expiry : time) : Prop :=
  List.find (fun r => str_eqb (e_ClusterID (rc_entry r)) cluster && str_eqb (e_CommandID (rc_entry r)) id)
    (cluster_journal_receipts d) = Some (Build_receipt_row e expiry).

Lemma on_record_lookup d id e expiry : on_record d id e expiry -> lookup d cluster id = Some e.
Proof. unfold on_record, lookup. by intros ->. Qed.

Lemma find_app_some {A} (f : A -> bool) l1 l2 x : List.find f l1 = Some x -> List.find f (l1 ++ l2) = Some x.
Proof. induction l1 as [|y l1 IH]; [done|]. cbn. destruct (f y); [done|apply IH]. Qed.

Lemma find_filter_some {A} (f g : A -> bool) l x : List.find f l = Some x -> g x = true -> List.find f (List.filter g l) = Some x.
Proof.
  intros Hf Hg. induction l as [|y l IH]; [done|]. cbn in *. destruct (f y) eqn:E.
  - injection Hf as ->. rewrite Hg. cbn. by rewrite E.
  - destruct (g y); cbn; rewrite ?E; by apply IH.
Qed.

(** Nothing but a compaction after the expiry removes a receipt. *)
Lemma on_record_step at_ sys sys' id e expiry :
  step at_ sys sys' -> in_time (Some expiry) at_ -> on_record (sys_db sys) id e expiry -> on_record (sys_db sys') id e expiry.
Proof.
  intros Hstep Ht Hr. inversion Hstep as [| |d ss i s fence c now outcome rch d' s' r note Hi Hc Hx E0 E1 E2
    | |d ss retain fence now d' k Hk E0 E1 E2]; subst; cbn in *; try done.
  - assert (Hkeep : forall d1 r1, execute_tx s fence c now d = Ok (d1, r1) -> on_record d1 id e expiry).
    { intros d1 r1 H. apply execute_tx_receipts in H as (new & Hn & _). unfold on_record. rewrite Hn. by apply find_app_some. }
    unfold execute in Hx. destruct (execute_tx s fence c now d) as [[d1 r1]|] eqn:E; [|by injection Hx as <- _].
    specialize (Hkeep _ _ eq_refl). destruct outcome; [|by injection Hx as <- _|by injection Hx as <- _].
    repeat (destruct (negb (appended r1) && _)); by injection Hx as <- _.
  - unfold Compact in Hk. apply bind_ok in Hk as ([] & _ & Hk). apply bind_ok in Hk as (row & _ & Hk).
    destruct (compacted_index row <? _); injection Hk as <- <-; unfold on_record; cbn;
      (apply find_filter_some; [exact Hr|]); cbn; rewrite (proj2 (Z.leb_gt expiry now)) by done; by rewrite andb_false_r.
Qed.

Lemma on_record_later sys sys' id e expiry :
  later (Some expiry) sys sys' -> on_record (sys_db sys) id e expiry -> on_record (sys_db sys') id e expiry.
Proof. intros Hl Hr. induction Hl as [|? ? ? ? IH]; [done|]. by eapply on_record_step. Qed.


(** An error that says a command was not committed is true as long as the
    receipt could be looked up: the journal is as it was and holds no receipt. *)
Theorem uncommitted_means_absent sys s fence c now outcome d' s' err note :
  reachable sys -> s ∈ sys_stores sys -> command_ok c ->
  execute s fence c now (sys_db sys) outcome true = (d', (s', Err err, note)) -> ce_committed err = false ->
  cluster_journal d' = cluster_journal (sys_db sys) /\ lookup d' cluster (command_id c) = None.
Proof using json laws.
  intros Hr Hs Hc Hx Herr. destruct (reachable_ok _ Hr) as (head & compacted & _ & Hd & Hss).
  rewrite Forall_forall in Hss. pose proof (Hss _ Hs) as Hsi. pose proof (so_cluster _ _ _ _ _ Hsi) as Hcl.
  assert (Hres : forall d er, (d, resolve s c d er true) = (d', (s', Err err, note)) -> lookup d' cluster (command_id c) = None /\ d' = d).
  { intros d er [=<- E]. split; [|done]. unfold resolve in E. rewrite Hcl in E. destruct (lookup d cluster (command_id c)) as [e|]; [|done].
    destruct (Read s d) as [[[? ?] ?]|]; [done|]. injection E as _ <- _. done. }
  unfold execute in Hx. destruct (execute_tx s fence c now (sys_db sys)) as [[d1 r]|er] eqn:E.
  - pose proof (execute_tx_log _ _ _ _ _ _ _ _ _ Hd Hsi Hc E) as Hlog.
    assert (Hd1 : forall er, (d1, resolve s c d1 er true) = (d', (s', Err err, note)) ->
      cluster_journal d' = cluster_journal (sys_db sys) /\ lookup d' cluster (command_id c) = None).
    { intros er Her. apply Hres in Her as [Hnone ->]. split; [|done]. destruct (appended r).
      - destruct Hlog as (e & b & _ & Hl & _). congruence.
      - apply Hlog. }
    destruct outcome; [|by apply Hres in Hx as [? ->]|by eapply Hd1].
    destruct (negb (appended r) && _); [done|]. destruct (negb (appended r) && _); [done|]. by eapply Hd1.
  - by apply Hres in Hx as [? ->].
Qed.

(** ** Scheduling decisions are fenced *)

(** The transaction of an earlier step appended the entry, fenced. *)
Definition issued (sys : system) (e : Entry) : Prop :=
  exists sys0 s fence c now d' r ss', reachable sys0 /\ s ∈ sys_stores sys0 /\
    execute_tx s fence c now (sys_db sys0) = Ok (d', r) /\ cluster_journal d' = cluster_journal (sys_db sys0) ++ [e] /\
    fenced fence (sys_db sys0) d' e /\ later None {| sys_db := d'; sys_stores := ss' |} sys.

Lemma issued_step at_ sys sys' e : step at_ sys sys' -> issued sys e -> issued sys' e.
Proof.
  intros Hs (sys0 & s & fence & c & now & d' & r & ss' & H1 & H2 & H3 & H4 & H5 & H6).
  exists sys0, s, fence, c, now, d', r, ss'. repeat (split; [done|]). by eapply later_step.
Qed.

Lemma cluster_log_app d d' e : cluster_journal d' = cluster_journal d ++ [e] -> e_ClusterID e = cluster ->
  cluster_log cluster d' = cluster_log cluster d ++ [e].
Proof. intros E Hc. unfold cluster_log. rewrite E, List.filter_app. cbn. by rewrite Hc, (proj2 (str_eqb_eq _ _) eq_refl). Qed.

(** An entry that is new after [execute] was appended by its transaction. *)
Lemma execute_appends head compacted d s fence c now outcome rch d' out e :
  db_ok cluster head compacted d -> store_ok cluster head compacted d s -> command_ok c ->
  execute s fence c now d outcome rch = (d', out) -> e ∈ cluster_log cluster d' ->
  e ∈ cluster_log cluster d \/
  exists r, execute_tx s fence c now d = Ok (d', r) /\ cluster_journal d' = cluster_journal d ++ [e] /\ fenced fence d d' e.
Proof using json laws.
  intros Hd Hs Hc Hx He. unfold execute in Hx. destruct (execute_tx s fence c now d) as [[d1 r]|] eqn:E; [|injection Hx as <- _; by left].
  assert (d' = d \/ d' = d1) as [->| ->].
  { destruct outcome; [|injection Hx as <- _; by left|injection Hx as <- _; by right].
    right. repeat (destruct (negb (appended r) && _)); by injection Hx as <- _. }
  { by left. }
  pose proof (execute_tx_log _ _ _ _ _ _ _ _ _ Hd Hs Hc E) as Hlog. destruct (appended r).
  - destruct Hlog as (e' & b & Hj & _ & He' & _ & _ & _ & _ & Hf). rewrite (cluster_log_app _ _ _ Hj He') in He.
    apply elem_of_app in He as [He|He]; [by left|]. apply list_elem_of_singleton in He as ->. right. by exists r.
  - destruct Hlog as [Hj _]. left. unfold cluster_log in *. by rewrite Hj in He.
Qed.

Lemma Compact_log d retain fence now d' k : Compact cluster retain fence now d = Ok (d', k) ->
  forall e, e ∈ cluster_log cluster d' -> e ∈ cluster_log cluster d.
Proof.
  intros Hx e. unfold Compact in Hx. apply bind_ok in Hx as ([] & _ & Hx). apply bind_ok in Hx as (row & _ & Hx).
  unfold cluster_log. rewrite !list_elem_of_In, !filter_In. intros [Hin Hc]. split; [|done].
  destruct (compacted_index row <? _); injection Hx as <- <-; cbn in Hin; [|done]. by apply filter_In in Hin as [? _].
Qed.

End System.

(** ** A JSON column *)

(** What [jsonb] undoes of the escapes [json.Marshal] writes. *)
Fixpoint unescape_html (s : string) : string :=
  match s with
  | EmptyString => EmptyString
  | String c rest =>
      match s with
      | String _ (String _ (String _ (String _ (String _ (String _ rest6))))) =>
          if String.prefix "\u003c" s then String (Ascii.ascii_of_nat 60) (unescape_html rest6)
          else if String.prefix "\u003e" s then String (Ascii.ascii_of_nat 62) (unescape_html rest6)
          else if String.prefix "\u0026" s then String (Ascii.ascii_of_nat 38) (unescape_html rest6)
          else String c (unescape_html rest)
      | _ => String c (unescape_html rest)
      end
  end.

Definition map_change {T} (f : T -> T) (c : Change T) : Change T := Build_Change (Key c) (f <$> Value c).

Definition map_raw (f : string -> string) (b : Batch) : Batch :=
  b <| b_Revisions := map (map_change (fun r =>
         Build_ServiceRevision (rev_ServiceID r) (rev_SpecRevision r) (f (rev_SpecJSON r)) (rev_EnvDEKID r)
           (rev_EnvCiphertext r) (rev_CreatedAt r))) (b_Revisions b) |>
    <| b_Rollouts := map (map_change (fun r =>
         Build_Rollout (rol_ServiceID r) (rol_RolloutGeneration r) (rol_SpecRevision r) (rol_Reason r) (rol_BuildID r)
           (rol_RequestedByUserID r) (rol_State r) (f (rol_StrategyJSON r)) (rol_DesiredReplicaCount r) (rol_ArtifactID r)
           (rol_ImageDigest r) (rol_FailureReason r) (rol_TargetAllocationID r) (rol_Recreate r) (rol_CompletedAt r)
           (rol_ProgressAt r) (rol_CreatedAt r))) (b_Rollouts b) |>
    <| b_Agents := map (map_change (fun a =>
         Build_AgentRegistration (agt_ID a) (agt_Name a) (agt_LocalStoreID a) (agt_SessionIncarnation a) (agt_Region a)
           (agt_Zone a) (agt_FailureDomain a) (agt_ReservedCPUMillis a) (agt_ReservedMemoryMebibytes a) (agt_AdvertiseAddr a)
           (agt_WorkloadIPv4Subnet a) (agt_WorkloadIPv6Subnet a) (agt_WireguardPublicKey a) (agt_WireguardListenPort a)
           (agt_WireguardEndpoint a) (agt_WireguardIPv6 a) (agt_CPUMillisCapacity a) (agt_MemoryMebibytesCapacity a)
           (f (agt_RuntimeCapabilities a)) (agt_SoftwareVersion a) (agt_CreatedAt a) (agt_UpdatedAt a)
           (agt_DesiredRevision a))) (b_Agents b) |>.

(** A payload is a batch as its JSON spells it; writing escapes raw JSON and the
    column undoes that. *)
#[export] Instance column : StoredJSON := {|
  stored_codec := {| payload := Batch; Decode := Ok; Marshal b := Ok (map_raw escape_html b) |};
  stored := map_raw unescape_html;
  jsonb_text := unescape_html
|}.

Lemma map_change_id {T} (f : T -> T) (cs : list (Change T)) :
  (forall c v, c ∈ cs -> Value c = Some v -> f v = v) -> map (map_change f) cs = cs.
Proof.
  intros H. induction cs as [|[k [v|]] cs IH]; [done|..]; cbn; rewrite IH by (intros c v' Hc Hv; eapply H; [apply elem_of_cons; right; exact Hc|exact Hv]); [|done].
  unfold map_change. cbn. by rewrite (H (Build_Change k (Some v)) v) by (done || constructor).
Qed.

Lemma map_raw_id f b :
  (forall c v, c ∈ b_Revisions b -> Value c = Some v -> f (rev_SpecJSON v) = rev_SpecJSON v) ->
  (forall c v, c ∈ b_Rollouts b -> Value c = Some v -> f (rol_StrategyJSON v) = rol_StrategyJSON v) ->
  (forall c v, c ∈ b_Agents b -> Value c = Some v -> f (agt_RuntimeCapabilities v) = agt_RuntimeCapabilities v) ->
  map_raw f b = b.
Proof.
  intros H1 H2 H3. unfold map_raw. rewrite !map_change_id; [by destruct b|..];
    intros c v Hc Hv; [rewrite (H1 c v Hc Hv)|rewrite (H2 c v Hc Hv)|rewrite (H3 c v Hc Hv)]; by destruct v.
Qed.

#[export] Instance column_laws : StoredJSONLaws.
Proof.
  split. intros b (H1 & H2 & H3). exists b. cbn.
  assert (Hb : forall f : string -> string, (forall r, plain r -> f r = r) -> map_raw f b = b).
  { intros f Hf. apply map_raw_id; intros c v Hc Hv; apply Hf; eauto. }
  rewrite (Hb escape_html) by (intros r Hr; apply Hr). split; [done|]. split; [done|].
  rewrite (Hb unescape_html) by (intros r Hr; apply Hr). done.
Qed.

(** ** Text that is not kept

    A revision written through the journal reaches every replica by replay, with
    the text the column renders.  Reading the table again escapes the text.  The
    two differ as soon as the text holds a byte [json.Marshal] escapes. *)

Definition demo_db (t : tables) : db := {|
  cluster_journal_heads := {[ "default" := Build_head_row 0 0 ]};
  cluster_journal := []; cluster_journal_receipts := []; product := t
|}.

(** A JSON string with this text. *)
Definition json_string (text : string) : string := bytes [34]%nat +:+ text +:+ bytes [34]%nat.

Definition write_revision (raw : RawMessage) : command := {|
  caller_id := ""; fresh_id := "first";
  run t := Ok (t <| service_revisions := [Build_service_revisions_row "s" 1 raw None None at0] |>); react := None
|}.

Definition do_nothing (id : string) : command := {| caller_id := ""; fresh_id := id; run := Ok; react := None |}.

(** Whether a command without any effect appends to the journal, on a replica
    that followed the journal over a revision with this text. *)
Definition no_op_appends (raw : RawMessage) : result store_error bool :=
  joined ← Read (New "default") (demo_db demo_tables);
  let written := execute joined.1.1 None (write_revision raw) at0 (demo_db demo_tables) CommitOk true in
  r ← execute_tx written.2.1.1 None (do_nothing "second") at0 written.1;
  Ok (appended r.2).

(** A replica that replayed a revision finds a change where there is none.
    With a text free of [<], [>] and [&] a command without effect appends
    nothing; with a shell command such as [a && b] in the revision, the same
    command appends an entry, because the replayed text is the one the column
    renders and the text read from the table is escaped. *)
Theorem escaped_text_is_a_phantom_change :
  no_op_appends (json_string "a b") = Ok false /\ no_op_appends (json_string "a && b") = Ok true /\
  ~ plain (json_string "a && b").
Proof. split; [vm_compute; reflexivity|]. split; [vm_compute; reflexivity|]. intros [_ H]. vm_compute in H. done. Qed.

(** ** A run of the system

    A replica joins a fresh journal and lifts a restriction. *)

Definition lift_restrictions : command := {|
  caller_id := "lift"; fresh_id := "unused"; run t := Ok (t <| billing_restrictions := [] |>); react := None
|}.

Lemma lift_restrictions_ok : command_ok lift_restrictions.
Proof.
  split; [|done|done]. intros t t' (Hs & Hf & Hp) [=<-]. split; [|split; [exact Hf|exact Hp]].
  destruct Hs. split; try done. apply (key_of_none _).
Qed.

Lemma demo_tables_ok : tables_ok demo_tables.
Proof.
  split; [apply demo_schema_ok|]. split; [apply demo_families|].
  split; [|split]; by intros ? ?%elem_of_nil.
Qed.

Definition joined : system := {| sys_db := demo_db demo_tables; sys_stores := [New "default"] |}.

Lemma joined_reachable : reachable "default" joined.
Proof.
  apply (reach_step _ None {| sys_db := demo_db demo_tables; sys_stores := [] |}); [|apply StepJoin].
  apply reach_init. split; [done|]. split; [done|]. split; [apply demo_tables_ok|done].
Qed.

Lemma joined_store : New "default" ∈ sys_stores joined.
Proof. by apply list_elem_of_singleton. Qed.

Definition lifting := execute (New "default") None lift_restrictions at0 (demo_db demo_tables) CommitOk true.
Definition lifted : system := {| sys_db := lifting.1; sys_stores := [lifting.2.1.1] |}.

Lemma lifted_reachable : reachable "default" lifted.
Proof.
  eapply reach_step; [apply joined_reachable|].
  apply (StepExecute "default" (demo_db demo_tables) [New "default"] 0%nat (New "default") None lift_restrictions at0 CommitOk
    true lifting.1 lifting.2.1.1 lifting.2.1.2 lifting.2.2); [done|apply lift_restrictions_ok|]. fold lifting. by destruct lifting as [? [[? ?] ?]].
Qed.

(** The entry of the command is in the journal. *)
Lemma lifted_log : map e_CommandID (cluster_log "default" (sys_db lifted)) = ["lift"].
Proof. vm_compute. reflexivity. Qed.

Lemma replicas_follow_tables_witness :
  exists head s' note, (log_index <$> cluster_journal_heads (sys_db lifted) !! "default") = Some head /\
    Read lifting.2.1.1 (sys_db lifted) = Ok (s', newProjection (product_state "default" head (sys_db lifted)), note).
Proof.
  apply (replicas_follow_tables "default" lifted lifting.2.1.1 lifted_reachable). by apply list_elem_of_singleton.
Defined.

Lemma journal_has_no_gaps_witness :
  exists head compacted, cluster_journal_heads (sys_db lifted) !! "default" = Some (Build_head_row head compacted) /\
    0 <= compacted <= head /\ map e_LogIndex (cluster_log "default" (sys_db lifted)) = seqZ (compacted + 1) (head - compacted).
Proof. exact (journal_has_no_gaps "default" lifted lifted_reachable). Defined.

(** A scheduler starts a rollout; its fence looks at the tables the command
    left and returns its epoch. *)
Definition start_rollout : command := {|
  caller_id := ""; fresh_id := "rollout";
  run t := Ok (t <| service_rollouts :=
    [Build_service_rollouts_row "s" 1 1 "deploy" None "user" "in_progress" "{}" 1 None "" None false None at0 at0] |>);
  react := None
|}.

Definition epoch_of_rollouts : option (db -> result string Z) :=
  Some (fun d => match service_rollouts (product d) with [] => Err "no rollout" | _ => Ok 7 end).

Lemma start_rollout_ok : command_ok start_rollout.
Proof.
  split; [|done|done]. intros t t' (Hs & Hf & (P1 & P2 & P3)) [=<-]. split; [|split; [exact Hf|split; [exact P1|split; [|exact P3]]]].
  - destruct Hs. split; try done. apply NoDup_singleton.
  - intros r ->%list_elem_of_singleton. by split; vm_compute.
Qed.

Definition starting := execute (New "default") epoch_of_rollouts start_rollout at0 (demo_db demo_tables) CommitOk true.
Definition started : system := {| sys_db := starting.1; sys_stores := [starting.2.1.1] |}.

Lemma started_reachable : reachable "default" started.
Proof.
  eapply reach_step; [apply joined_reachable|].
  apply (StepExecute "default" (demo_db demo_tables) [New "default"] 0%nat (New "default") epoch_of_rollouts start_rollout at0
    CommitOk true starting.1 starting.2.1.1 starting.2.1.2 starting.2.2); [done|apply start_rollout_ok|].
  fold starting. by destruct starting as [? [[? ?] ?]].
Qed.

Definition needs_authority (e : Entry) : bool :=
  match Decode (e_Payload e) with Ok b => requiresAuthority b | Err _ => false end.


Definition compacting : db * Z :=
  match Compact "default" 0 None at0 (sys_db lifted) with Ok x => x | Err _ => (sys_db lifted, 0) end.

Lemma compacting_ok : Compact "default" 0 None at0 (sys_db lifted) = Ok (compacting.1, compacting.2).
Proof.
  assert (H : is_ok (Compact "default" 0 None at0 (sys_db lifted)) = true) by (vm_compute; reflexivity).
  unfold compacting. by destruct (Compact _ _ _ _ _) as [[? ?]|].
Qed.

Lemma compaction_bounds_tail_witness :
  Z.of_nat (length (cluster_log "default" compacting.1)) = 0 /\
  exists head, cluster_journal_heads compacting.1 !! "default" = Some (Build_head_row head compacting.2) /\
    map e_LogIndex (cluster_log "default" compacting.1) = seqZ (compacting.2 + 1) (head - compacting.2).
Proof. exact (compaction_bounds_tail "default" lifted 0 None at0 compacting.1 compacting.2 lifted_reachable compacting_ok). Defined.

Definition lift_tx : db * tx_result :=
  match execute_tx (New "default") None lift_restrictions at0 (sys_db joined) with
  | Ok x => x
  | Err _ => (sys_db joined, {| tx_receipt := None; appended := false; recordedNoOp := false; resolvedReceipt := false; resolvedNoOp := false |})
  end.

Lemma lift_tx_appends : appended lift_tx.2 = true.
Proof. vm_compute. reflexivity. Qed.

Lemma lift_tx_ok : execute_tx (New "default") None lift_restrictions at0 (sys_db joined) = Ok (lift_tx.1, lift_tx.2).
Proof.
  pose proof lift_tx_appends as H. unfold lift_tx in *. by destruct (execute_tx _ _ _ _ _) as [[? ?]|].
Qed.

Lemma lift_tx_recorded : appended lift_tx.2 || recordedNoOp lift_tx.2 = true.
Proof. by rewrite lift_tx_appends. Qed.

(** A second replica joins and the journal is compacted six days later; the
    receipt is kept, although no entry is. *)
Definition six_days : time := at0 + 6 * 24 * hour.

Definition compacted_later : db :=
  match Compact "default" 0 None six_days (sys_db lifted) with Ok x => x.1 | Err _ => sys_db lifted end.

Lemma compacted_later_ok : Compact "default" 0 None six_days (sys_db lifted) = Ok (compacted_later, 1).
Proof.
  assert (H : match Compact "default" 0 None six_days (sys_db lifted) with Ok x => x.2 =? 1 | Err _ => false end = true)
    by (vm_compute; reflexivity).
  unfold compacted_later. destruct (Compact _ _ _ _ _) as [[? k]|]; [|done]. apply Z.eqb_eq in H. cbn in H. by subst k.
Qed.

Definition six_days_later : system := {| sys_db := compacted_later; sys_stores := [lifting.2.1.1; New "default"] |}.

Lemma six_days_are_later : later "default" (Some (at0 + receipt_lifetime lift_restrictions)) lifted six_days_later.
Proof.
  assert (Hjoin : later "default" (Some (at0 + receipt_lifetime lift_restrictions)) lifted
    {| sys_db := sys_db lifted; sys_stores := sys_stores lifted ++ [New "default"] |}).
  { eapply later_step; [apply later_here|apply StepJoin|exact I]. }
  eapply later_step; [exact Hjoin|eapply StepCompact; apply compacted_later_ok|vm_compute; reflexivity].
Qed.


(** The commit is lost and the caller is told. *)
Lemma lift_lost :
  execute (New "default") None lift_restrictions at0 (sys_db joined) CommitLost true
  = (sys_db joined, (New "default", Err {| ce_committed := false; ce_failed := true |}, None)).
Proof. unfold execute. by rewrite lift_tx_ok. Qed.

Lemma uncommitted_means_absent_witness :
  cluster_journal (sys_db joined) = cluster_journal (sys_db joined) /\ lookup (sys_db joined) "default" "lift" = None.
Proof.
  exact (uncommitted_means_absent "default" joined (New "default") None lift_restrictions at0 CommitLost (sys_db joined)
    (New "default") {| ce_committed := false; ce_failed := true |} None joined_reachable joined_store lift_restrictions_ok lift_lost eq_refl).
Defined.

Definition follower : Store :=
  let p := newProjection (empty_state "default") in Build_Store "default" p true true (Some p).
Definition next_prefix : Projection := newProjection ((empty_state "default") <| LogIndex := 1 |>).
Definition one_batch : list Batch := [Diff (empty_state "default") (state next_prefix)].

Lemma notifications_in_order_witness :
  (initialized follower = true -> LogIndex (state (current follower)) <= LogIndex (state (current (publish follower next_prefix one_batch).1))) /\
  (publish follower next_prefix one_batch).2 = Some (Build_Applied next_prefix one_batch false).
Proof.
  split; [|reflexivity].
  apply (notifications_in_order follower next_prefix one_batch 0 _ (publish follower next_prefix one_batch).2); reflexivity || (vm_compute; done).
Defined.

End JournalSystem.
