(* ===== verification/Authz.v ===== *)
(** * Authorization

    [internal/controlplane/authz/authz.go]: roles, the scopes that prove a user
    may act on a workspace, project, environment, service, volume or domain
    binding, and the queries that mint them.  The queries are joins over the
    rows of [Product.v] and the membership tables; the database answers them
    (other failures of it are not modelled).  The theorems say which rows grant
    a scope, that a resource's scope is the one of the project it is in, and
    that a denial tells nothing about what exists. *)

From S2P Require Import Prelude Journal Product.

Module Authz.
Import Product.

(** ** Roles and access *)

Definition Access : Type := Z.
Definition Read : Access := 1.
Definition Write : Access := 2.
Definition Manage : Access := 3.
Definition ReadSecrets : Access := 4.

Definition Role : Type := string.
Definition RoleAdmin : Role := "admin".
Definition RoleMember : Role := "member".
Definition RoleViewer : Role := "viewer".

Inductive error : Type :=
| UnknownRole (value : string)
| UserIDRequired
| InvalidAccess (need : Access)
| Denied (op : string).

Definition ParseRole (value : string) : result error Role :=
  if str_eqb value RoleAdmin || str_eqb value RoleMember || str_eqb value RoleViewer then Ok value
  else Err (UnknownRole value).

Definition Allows (r : Role) (need : Access) : bool :=
  if need =? Read then str_eqb r RoleAdmin || str_eqb r RoleMember || str_eqb r RoleViewer
  else if (need =? Write) || (need =? ReadSecrets) then str_eqb r RoleAdmin || str_eqb r RoleMember
  else if need =? Manage then str_eqb r RoleAdmin
  else false.

Definition UserProjectKind : string := "user".

Definition deny (op : string) : error := Denied op.

(** ** Scopes *)

Record User := { user_id : string }.

Definition AuthenticatedUser (id : string) : result error User :=
  let id := TrimSpace id in
  if str_eqb id "" then Err UserIDRequired else Ok (Build_User id).

Record Operator := { op_user : User }.
Record Workspace := { ws_user : User; ws_id : string; ws_role : Role }.
Record Project := { pr_user : User; pr_id : string; pr_workspaceID : string; pr_role : Role }.
Record Environment := { en_project : Project; en_id : string }.
Record Service := { sv_environment : Environment; sv_id : string }.
Record Volume := { vo_environment : Environment; vo_id : string }.
Record DomainBinding := { bi_service : Service; bi_hostname : string }.

Definition Project_UserID (p : Project) : string := user_id (pr_user p).
Definition Environment_ProjectID (e : Environment) : string := pr_id (en_project e).
Definition Environment_WorkspaceID (e : Environment) : string := pr_workspaceID (en_project e).
Definition Environment_UserID (e : Environment) : string := user_id (pr_user (en_project e)).
Definition Environment_Role (e : Environment) : Role := pr_role (en_project e).
Definition Service_EnvironmentID (s : Service) : string := en_id (sv_environment s).
Definition Service_ProjectID (s : Service) : string := pr_id (en_project (sv_environment s)).
Definition Service_WorkspaceID (s : Service) : string := pr_workspaceID (en_project (sv_environment s)).
Definition Service_Project (s : Service) : Project := en_project (sv_environment s).
Definition Service_UserID (s : Service) : string := user_id (pr_user (en_project (sv_environment s))).
Definition Service_Role (s : Service) : Role := pr_role (en_project (sv_environment s)).
Definition Volume_EnvironmentID (v : Volume) : string := en_id (vo_environment v).
Definition Volume_ProjectID (v : Volume) : string := pr_id (en_project (vo_environment v)).
Definition Volume_WorkspaceID (v : Volume) : string := pr_workspaceID (en_project (vo_environment v)).
Definition DomainBinding_ServiceID (b : DomainBinding) : string := sv_id (bi_service b).
Definition DomainBinding_EnvironmentID (b : DomainBinding) : string := en_id (sv_environment (bi_service b)).
Definition DomainBinding_ProjectID (b : DomainBinding) : string := pr_id (en_project (sv_environment (bi_service b))).
Definition DomainBinding_WorkspaceID (b : DomainBinding) : string :=
  pr_workspaceID (en_project (sv_environment (bi_service b))).

(** ** Membership tables *)

Record workspaces_row := { w_id : string; w_name : string; w_personal_user_id : option string; w_created_at : time }.
Record membership_row := { m_workspace_id : string; m_user_id : string; m_role : Role; m_created_at : time }.
Record invitation_row := { i_id : string; i_workspace_id : string; i_email : string; i_role : Role;
  i_invited_by_user_id : string; i_created_at : time }.

Record db := {
  workspaces : list workspaces_row;
  workspace_memberships : list membership_row;
  workspace_invitations : list invitation_row;
  platform_operators : list string;
  catalog : tables
}.

#[export] Instance db_eta : Eta db := fun d =>
  Build_db (workspaces d) (workspace_memberships d) (workspace_invitations d) (platform_operators d) (catalog d).

(** ** Minting scopes *)

Definition validNeed (need : Access) : bool :=
  (need =? Read) || (need =? Write) || (need =? Manage) || (need =? ReadSecrets).

Definition check (user : User) (need : Access) : result error unit :=
  _ ← guard_err (str_eqb (user_id user) "") UserIDRequired;
  guard_err (negb (validNeed need)) (InvalidAccess need).

Definition AuthorizeOperator (d : db) (user : User) : result error Operator :=
  _ ← guard_err (str_eqb (user_id user) "") UserIDRequired;
  if bool_decide (user_id user ∈ platform_operators d) then Ok (Build_Operator user) else Err (deny "operator").

(** [Scan] of the first row, then the check of the role in it. *)
Definition granted {A} (op : string) (need : Access) (rows : list (Role * A)) : result error (Role * A) :=
  match rows with
  | [] => Err (deny op)
  | row :: _ => if Allows row.1 need then Ok row else Err (deny op)
  end.

Definition AuthorizeWorkspace (d : db) (user : User) (workspaceID : string) (need : Access) : result error Workspace :=
  _ ← check user need;
  row ← granted "workspace" need
    (map (fun m => (m_role m, tt))
       (List.filter (fun m => str_eqb (m_workspace_id m) workspaceID && str_eqb (m_user_id m) (user_id user)) (workspace_memberships d)));
  Ok (Build_Workspace user workspaceID row.1).

(** [JOIN workspace_memberships m ON m.workspace_id = p.workspace_id WHERE m.user_id = $2 AND p.kind = $3] *)
Definition memberships (d : db) (user : User) (p : projects_row) : list membership_row :=
  List.filter (fun m => bool_decide (p_workspace_id p = Some (m_workspace_id m)) && str_eqb (m_user_id m) (user_id user) &&
                        str_eqb (p_kind p) UserProjectKind) (workspace_memberships d).

Definition with_key {A} (key : A -> string) (id : string) (l : list A) : list A :=
  List.filter (fun r => str_eqb (key r) id) l.

(** [projects p] with this id joined to the memberships of the user. *)
Definition project_rows (d : db) (user : User) (projectID : string) : list (Role * (string * string)) :=
  p ← with_key p_id projectID (projects (catalog d));
  map (fun m => (m_role m, (projectID, m_workspace_id m))) (memberships d user p).

Definition environment_rows (d : db) (user : User) (environmentID : string) : list (Role * (string * string)) :=
  e ← with_key (fun e => Journal.env_ID (e_row e)) environmentID (environments (catalog d));
  project_rows d user (Journal.env_ProjectID (e_row e)).

Definition service_rows (d : db) (user : User) (serviceID : string) : list (Role * (string * (string * string))) :=
  s ← with_key s_id serviceID (services (catalog d));
  map (fun row => (row.1, (s_environment_id s, row.2))) (environment_rows d user (s_environment_id s)).

Definition volume_rows (d : db) (user : User) (volumeID : string) : list (Role * (string * (string * string))) :=
  v ← with_key v_id volumeID (volumes (catalog d));
  map (fun row => (row.1, (v_environment_id v, row.2))) (environment_rows d user (v_environment_id v)).

Definition domain_rows (d : db) (user : User) (hostname : string) : list (Role * (string * (string * (string * string)))) :=
  b ← with_key (fun b => Journal.dom_Hostname (db_row b)) hostname (domain_bindings (catalog d));
  map (fun row => (row.1, (Journal.dom_ServiceID (db_row b), row.2))) (service_rows d user (Journal.dom_ServiceID (db_row b))).

Definition AuthorizeProject (d : db) (user : User) (projectID : string) (need : Access) : result error Project :=
  _ ← check user need;
  row ← granted "project" need (project_rows d user projectID);
  Ok (Build_Project user projectID row.2.2 row.1).

Definition AuthorizeEnvironment (d : db) (user : User) (environmentID : string) (need : Access) : result error Environment :=
  _ ← check user need;
  row ← granted "environment" need (environment_rows d user environmentID);
  Ok (Build_Environment (Build_Project user row.2.1 row.2.2 row.1) environmentID).

Definition AuthorizeService (d : db) (user : User) (serviceID : string) (need : Access) : result error Service :=
  _ ← check user need;
  row ← granted "service" need (service_rows d user serviceID);
  let '(role, (environmentID, (projectID, workspaceID))) := row in
  let project := Build_Project user projectID workspaceID role in
  Ok (Build_Service (Build_Environment project environmentID) serviceID).

Definition AuthorizeVolume (d : db) (user : User) (volumeID : string) (need : Access) : result error Volume :=
  _ ← check user need;
  row ← granted "volume" need (volume_rows d user volumeID);
  let '(role, (environmentID, (projectID, workspaceID))) := row in
  let project := Build_Project user projectID workspaceID role in
  Ok (Build_Volume (Build_Environment project environmentID) volumeID).

Section Hostnames.
(** [unicode.ToLower] over a string that is not plain ASCII. *)
Variable unicode_lower : string -> string.

Definition is_ascii (s : string) : bool := forallb (fun c => (Ascii.nat_of_ascii c <? 128)%nat) (String.list_ascii_of_string s).
Definition lower_byte (c : Ascii.ascii) : Ascii.ascii :=
  let n := Ascii.nat_of_ascii c in if ((65 <=? n) && (n <=? 90))%nat then Ascii.ascii_of_nat (n + 32) else c.
Definition ToLower (s : string) : string :=
  if is_ascii s then String.string_of_list_ascii (map lower_byte (String.list_ascii_of_string s)) else unicode_lower s.

Definition TrimSuffix (s suffix : string) : string :=
  let n := (String.length s - String.length suffix)%nat in
  if str_eqb (String.substring n (String.length suffix) s) suffix && (String.length suffix <=? String.length s)%nat
  then String.substring 0 n s else s.

Definition normalize_hostname (hostname : string) : string := ToLower (TrimSuffix (TrimSpace hostname) ".").

Definition AuthorizeDomainBinding (d : db) (user : User) (hostname : string) (need : Access) : result error DomainBinding :=
  _ ← check user need;
  let hostname := normalize_hostname hostname in
  row ← granted "domain binding" need (domain_rows d user hostname);
  let '(role, (serviceID, (environmentID, (projectID, workspaceID)))) := row in
  let project := Build_Project user projectID workspaceID role in
  Ok (Build_DomainBinding (Build_Service (Build_Environment project environmentID) serviceID) hostname).

Example hostname_example : normalize_hostname " Example.COM. " = "example.com".
Proof. reflexivity. Qed.
End Hostnames.

(** ** What grants a scope *)

(** The keys of the membership tables. *)
Record directory_ok (d : db) : Prop := {
  do_catalog : schema_ok (catalog d);
  do_workspaces : NoDup (map w_id (workspaces d));
  do_personal : NoDup (omap w_personal_user_id (workspaces d));
  do_memberships : NoDup (map (fun m => (m_workspace_id m, m_user_id m)) (workspace_memberships d));
  do_invitations : NoDup (map i_id (workspace_invitations d));
  do_invited : NoDup (map (fun i => (i_workspace_id i, i_email i)) (workspace_invitations d))
}.

Lemma check_grants user need u : check user need = Ok u <-> user_id user <> "" /\ validNeed need = true.
Proof.
  unfold check. destruct (str_eqb (user_id user) "") eqn:E; cbn [guard_err mbind result_bind].
  - apply str_eqb_eq in E. split; [done|]. by intros [? _].
  - destruct (validNeed need); cbn; destruct u; [|split; [done|by intros [_ ?]]]. split; [|done]. intros _.
    split; [|done]. intros H. by rewrite H, (proj2 (str_eqb_eq _ _) eq_refl) in E.
Qed.

Lemma with_key_one {A} (key : A -> string) l r :
  NoDup (map key l) -> r ∈ l -> with_key key (key r) l = [r].
Proof.
  unfold with_key. induction l as [|x l IH]; [by intros _ ?%elem_of_nil|]. cbn. intros [Hx Hn]%NoDup_cons [->|Hr]%elem_of_cons.
  - rewrite (proj2 (str_eqb_eq _ _) eq_refl). f_equal. clear IH. induction l as [|y l IH]; [done|]. cbn in *.
    assert (str_eqb (key y) (key x) = false) as -> by (apply not_true_iff_false; rewrite str_eqb_eq; set_solver).
    apply NoDup_cons in Hn as [_ Hn]. apply IH; set_solver.
  - destruct (str_eqb (key x) (key r)) eqn:E; [|by apply IH]. apply str_eqb_eq in E. destruct Hx. rewrite E.
    by apply list_elem_of_fmap_2.
Qed.

Lemma with_key_in {A} (key : A -> string) k l r : r ∈ with_key key k l <-> r ∈ l /\ key r = k.
Proof. unfold with_key. rewrite !list_elem_of_In, filter_In, str_eqb_eq. done. Qed.

(** Role and workspace of a row of a project's join. *)
Lemma project_rows_in d user pid row :
  row ∈ project_rows d user pid <->
  exists p m, p ∈ projects (catalog d) /\ p_id p = pid /\ p_kind p = UserProjectKind /\ m ∈ workspace_memberships d /\
    p_workspace_id p = Some (m_workspace_id m) /\ m_user_id m = user_id user /\ row = (m_role m, (pid, m_workspace_id m)).
Proof.
  unfold project_rows. rewrite list_elem_of_bind. split.
  - intros (p & Hrow & [Hp Hid]%with_key_in). apply list_elem_of_fmap in Hrow as (m & -> & Hm).
    unfold memberships in Hm. rewrite list_elem_of_In, filter_In, <- list_elem_of_In in Hm. destruct Hm as [Hm Hc].
    rewrite !andb_true_iff, bool_decide_eq_true, !str_eqb_eq in Hc. destruct Hc as [[? ?] ?]. by exists p, m.
  - intros (p & m & Hp & Hid & Hk & Hm & Hw & Hu & ->). exists p. split; [|by apply with_key_in].
    apply list_elem_of_fmap. exists m. split; [done|]. unfold memberships. rewrite list_elem_of_In, filter_In, <- list_elem_of_In.
    split; [done|]. rewrite !andb_true_iff, bool_decide_eq_true, !str_eqb_eq. done.
Qed.

Lemma granted_ok {A} op need (rows : list (Role * A)) row :
  (forall a b, a ∈ rows -> b ∈ rows -> a = b) -> granted op need rows = Ok row <-> row ∈ rows /\ Allows row.1 need = true.
Proof.
  intros Huniq. destruct rows as [|a rows]; cbn.
  - split; [done|]. intros [H _]. by apply elem_of_nil in H.
  - destruct (Allows a.1 need) eqn:E.
    + split; [intros [=->]; split; [constructor|done]|]. intros [Hr _]. f_equal. by apply Huniq; [constructor|].
    + split; [done|]. intros [Hr Ha]. by rewrite <- (Huniq a row), E in Ha by (done || constructor).
Qed.

Lemma project_rows_unique d user pid a b :
  directory_ok d -> a ∈ project_rows d user pid -> b ∈ project_rows d user pid -> a = b.
Proof.
  intros Hok. rewrite !project_rows_in. intros (p & m & Hp & Ip & _ & Hm & Wp & Um & ->) (p2 & m2 & Hp2 & Ip2 & _ & Hm2 & Wp2 & Um2 & ->).
  assert (p = p2) as <-.
  { apply (NoDup_map_eq p_id (projects (catalog d))); [apply (pk_projects _ (do_catalog _ Hok))|done..|congruence]. }
  assert (m = m2) as <-; [|done].
  apply (NoDup_map_eq (fun m => (m_workspace_id m, m_user_id m)) (workspace_memberships d)); [apply (do_memberships _ Hok)|done..|].
  f_equal; congruence.
Qed.

(** C5: Membership is the only grant.  A user obtains a project scope exactly
    when the project is a user project of a workspace in which a membership of
    that user allows the access asked for; the scope names that project, its
    workspace and the stored role. *)
Theorem project_access_is_membership d user pid need scope :
  directory_ok d ->
  AuthorizeProject d user pid need = Ok scope <->
  user_id user <> "" /\ validNeed need = true /\
  exists p m, p ∈ projects (catalog d) /\ p_id p = pid /\ p_kind p = UserProjectKind /\
    m ∈ workspace_memberships d /\ p_workspace_id p = Some (m_workspace_id m) /\ m_user_id m = user_id user /\
    Allows (m_role m) need = true /\ scope = Build_Project user pid (m_workspace_id m) (m_role m).
Proof.
  intros Hok. unfold AuthorizeProject. split.
  - intros ([] & [Hu Hn]%check_grants & (row & [Hrow Ha]%granted_ok & [=<-])%bind_ok)%bind_ok; [|by intros a b; apply project_rows_unique].
    apply project_rows_in in Hrow as (p & m & Hp & Hid & Hk & Hm & Hw & Hmu & ->). split; [done|]. split; [done|]. by exists p, m.
  - intros (Hu & Hn & p & m & Hp & Hid & Hk & Hm & Hw & Hmu & Ha & ->). apply bind_ok. exists tt. split; [by apply check_grants|].
    apply bind_ok. exists (m_role m, (pid, m_workspace_id m)). split; [|done].
    apply granted_ok; [by intros a b; apply project_rows_unique|]. split; [|done]. apply project_rows_in. by exists p, m.
Qed.

(** The scope of a resource under its parent, with the parent's denials. *)
Definition under {A B} (op : string) (mk : A -> B) (r : result error A) : result error B :=
  match r with Ok a => Ok (mk a) | Err (Denied _) => Err (Denied op) | Err e => Err e end.

Lemma bind_one {A B} (x : A) (f : A -> list B) : [x] ≫= f = f x.
Proof. cbn. by rewrite app_nil_r. Qed.

Lemma granted_map {A B} op op2 need (rows : list (Role * A)) (f : A -> B) :
  granted op2 need (map (fun row => (row.1, f row.2)) rows) = under op2 (fun row => (row.1, f row.2)) (granted op need rows).
Proof. destruct rows as [|r rows]; [done|]. cbn. by destruct (Allows r.1 need). Qed.

Lemma granted_relabel {A} op op2 need (rows : list (Role * A)) : granted op2 need rows = under op2 (fun row => row) (granted op need rows).
Proof. destruct rows as [|r rows]; [done|]. cbn. by destruct (Allows r.1 need). Qed.

Lemma check_cases user need : check user need = Ok tt \/ exists e, check user need = Err e /\ forall op, e <> Denied op.
Proof.
  unfold check. destruct (str_eqb _ _); cbn; [right; by eexists|]. destruct (validNeed need); cbn; [by left|right; by eexists].
Qed.

(** A resource is as accessible as the project it is in.  Authorizing an
    environment, a service, a volume or a domain binding gives exactly the scope
    of its parent with the resource added: same user, project, workspace and
    role, and it is refused exactly when the parent is. *)
Theorem scopes_inherit_project unicode_lower d user need :
  directory_ok d ->
  (forall e, e ∈ environments (catalog d) ->
     AuthorizeEnvironment d user (Journal.env_ID (e_row e)) need =
       under "environment" (fun p => Build_Environment p (Journal.env_ID (e_row e)))
         (AuthorizeProject d user (Journal.env_ProjectID (e_row e)) need)) /\
  (forall s, s ∈ services (catalog d) ->
     AuthorizeService d user (s_id s) need =
       under "service" (fun e => Build_Service e (s_id s)) (AuthorizeEnvironment d user (s_environment_id s) need)) /\
  (forall v, v ∈ volumes (catalog d) ->
     AuthorizeVolume d user (v_id v) need =
       under "volume" (fun e => Build_Volume e (v_id v)) (AuthorizeEnvironment d user (v_environment_id v) need)) /\
  (forall b hostname, b ∈ domain_bindings (catalog d) -> normalize_hostname unicode_lower hostname = Journal.dom_Hostname (db_row b) ->
     AuthorizeDomainBinding unicode_lower d user hostname need =
       under "domain binding" (fun s => Build_DomainBinding s (Journal.dom_Hostname (db_row b)))
         (AuthorizeService d user (Journal.dom_ServiceID (db_row b)) need)).
Proof.
  intros [Hs _ _ _ _ _].
  destruct (check_cases user need) as [Hc|(e & Hc & He)].
  - split; [|split; [|split]].
    + intros e Hin. unfold AuthorizeEnvironment, AuthorizeProject. rewrite Hc. cbn [mbind result_bind].
      unfold environment_rows. rewrite (with_key_one (fun e => Journal.env_ID (e_row e))) by (apply (pk_environments _ Hs) || done).
      rewrite bind_one, (granted_relabel "project" "environment").
      destruct (granted "project" need _) as [[role [pid w]]|[]] eqn:E; try done. cbn.
      unfold granted in E. destruct (project_rows d user _) as [|r rows] eqn:Er; [done|].
      destruct (Allows r.1 need); [|done]. injection E as ->.
      assert (Hr : (role, (pid, w)) ∈ project_rows d user (Journal.env_ProjectID (e_row e))) by (rewrite Er; constructor).
      apply project_rows_in in Hr as (p & m & _ & _ & _ & _ & _ & _ & [=-> -> ->]). done.
    + intros s Hin. unfold AuthorizeService, AuthorizeEnvironment. rewrite Hc. cbn [mbind result_bind].
      unfold service_rows. rewrite (with_key_one s_id) by (apply (pk_services _ Hs) || done).
      rewrite bind_one, (granted_map "environment" "service" need _ (fun x => (s_environment_id s, x))).
      by destruct (granted "environment" need _) as [[role [pid w]]|[]].
    + intros v Hin. unfold AuthorizeVolume, AuthorizeEnvironment. rewrite Hc. cbn [mbind result_bind].
      unfold volume_rows. rewrite (with_key_one v_id) by (apply (pk_volumes _ Hs) || done).
      rewrite bind_one, (granted_map "environment" "volume" need _ (fun x => (v_environment_id v, x))).
      by destruct (granted "environment" need _) as [[role [pid w]]|[]].
    + intros b h Hin Hh. unfold AuthorizeDomainBinding, AuthorizeService. rewrite Hc. cbn [mbind result_bind]. rewrite Hh.
      unfold domain_rows. rewrite (with_key_one (fun b => Journal.dom_Hostname (db_row b))) by (apply (pk_domains _ Hs) || done).
      rewrite bind_one, (granted_map "service" "domain binding" need _ (fun x => (Journal.dom_ServiceID (db_row b), x))).
      by destruct (granted "service" need _) as [[role [env [pid w]]]|[]].
  - unfold AuthorizeEnvironment, AuthorizeProject, AuthorizeService, AuthorizeVolume, AuthorizeDomainBinding.
    rewrite Hc. cbn [mbind result_bind]. destruct e as [| | |op]; try (repeat split; done). by destruct (He op).
Qed.

(** What a denied request is told, by resource. *)
Definition denies {A} (op : string) (r : result error A) : Prop := r = Err (Denied op) \/ exists scope, r = Ok scope.

Lemma granted_denies {A} op need (rows : list (Role * A)) : denies op (granted op need rows).
Proof. destruct rows as [|r rows]; cbn; [by left|]. destruct (Allows r.1 need); [right; eauto|by left]. Qed.

Lemma denies_bind {A B} op (r : result error A) (f : A -> result error B) :
  denies op r -> (forall a, exists b, f a = Ok b) -> denies op (r ≫= f).
Proof. intros [->|[a ->]] Hf; [by left|]. right. cbn. apply Hf. Qed.

(** C32: A denial tells nothing about what exists.  For a valid request every
    refusal is the same value whether the resource is missing, belongs to
    another workspace, is not a user project, or the role is too weak. *)
Theorem denial_hides_existence unicode_lower d user need id :
  check user need = Ok tt ->
  denies "workspace" (AuthorizeWorkspace d user id need) /\ denies "project" (AuthorizeProject d user id need) /\
  denies "environment" (AuthorizeEnvironment d user id need) /\ denies "service" (AuthorizeService d user id need) /\
  denies "volume" (AuthorizeVolume d user id need) /\
  denies "domain binding" (AuthorizeDomainBinding unicode_lower d user id need) /\ denies "operator" (AuthorizeOperator d user).
Proof.
  intros Hc. unfold AuthorizeWorkspace, AuthorizeProject, AuthorizeEnvironment, AuthorizeService, AuthorizeVolume, AuthorizeDomainBinding.
  rewrite Hc. cbn [mbind result_bind].
  split; [|split; [|split; [|split; [|split; [|split]]]]]; try (apply (denies_bind _ (granted _ _ _)); [apply granted_denies|]).
  1-3: by intros; eexists.
  1-2: by intros [role [env [pid w]]]; eexists.
  1: by intros [role [svc [env [pid w]]]]; eexists.
  assert (user_id user <> "" /\ validNeed need = true) as [Hu _] by by apply (check_grants user need tt).
  unfold AuthorizeOperator. destruct (str_eqb (user_id user) "") eqn:E; [by apply str_eqb_eq in E|]. cbn.
  destruct (bool_decide _); [right; eauto|by left].
Qed.

Lemma Allows_weaker r need weaker :
  Allows r need = true -> weaker = Read \/ (need = Manage /\ (weaker = Write \/ weaker = ReadSecrets)) \/
    (need = Write /\ weaker = ReadSecrets) \/ (need = ReadSecrets /\ weaker = Write) -> Allows r weaker = true.
Proof.
  unfold Allows, Read, Write, Manage, ReadSecrets. intros H Hw.
  assert (Hany : str_eqb r RoleAdmin || str_eqb r RoleMember || str_eqb r RoleViewer = true).
  { destruct (need =? 1); [done|]. destruct ((need =? 2) || (need =? 4)); [by rewrite H|]. destruct (need =? 3); [by rewrite H|done]. }
  destruct Hw as [->|[[-> [->| ->]]|[[-> ->]|[-> ->]]]]; cbn in *; try done; by rewrite H.
Qed.

(** ** An example *)

Definition alice : User := Build_User "alice".
Definition demo_directory : db := {|
  workspaces := [Build_workspaces_row "w" "Team" None at0];
  workspace_memberships := [Build_membership_row "w" "alice" RoleMember at0];
  workspace_invitations := []; platform_operators := []; catalog := demo_tables
|}.

Lemma demo_directory_ok : directory_ok demo_directory.
Proof. split; [apply demo_schema_ok|..]; cbn; repeat constructor; set_solver. Qed.

Lemma project_access_is_membership_witness :
  AuthorizeProject demo_directory alice "p" Write = Ok (Build_Project alice "p" "w" RoleMember).
Proof.
  apply (proj2 (project_access_is_membership demo_directory alice "p" Write (Build_Project alice "p" "w" RoleMember) demo_directory_ok)).
  split; [done|]. split; [done|].
  eexists _, (Build_membership_row "w" "alice" RoleMember at0). split; [by apply list_elem_of_singleton|]. split; [done|]. split; [done|].
  split; [by apply list_elem_of_singleton|]. done.
Defined.

Lemma scopes_inherit_project_witness :
  AuthorizeService demo_directory alice "s" Read =
    under "service" (fun e => Build_Service e "s") (AuthorizeEnvironment demo_directory alice "e" Read) /\
  AuthorizeService demo_directory alice "s" Read = Ok (Build_Service (Build_Environment (Build_Project alice "p" "w" RoleMember) "e") "s").
Proof.
  split; [|reflexivity].
  apply (proj1 (proj2 (scopes_inherit_project (fun s => s) demo_directory alice Read demo_directory_ok)) demo_service).
  by apply list_elem_of_singleton.
Defined.

Lemma denial_hides_existence_witness :
  denies "project" (AuthorizeProject demo_directory alice "p" Manage) /\
  AuthorizeProject demo_directory alice "p" Manage = AuthorizeProject demo_directory alice "missing" Manage.
Proof.
  split; [|reflexivity].
  apply (denial_hides_existence (fun s => s) demo_directory alice Manage "p"). reflexivity.
Defined.

End Authz.
