(* ===== verification/Accounts.v ===== *)
(** * Billing accounts

    [internal/controlplane/billing/accounts.go]: a billing account with its
    first period for every workspace, the one trial grant of a user, the
    current period, plan changes, budgets and cancellation.  The tables are the
    ones of [ClosePeriod.v] and [Authz.v] with the trial grants beside them; a
    transaction that fails leaves them alone. *)

From S2P Require Import Prelude GoText DurableWork Billing ClosePeriod GoTime Journal Product Authz.

Module Accounts.
Import Product Authz.

(** ** Tables *)

Record trial_grant := { tg_user : string; tg_workspace : string; tg_account : string; tg_granted_at : time }.
Record user_profile := { up_user : string; up_github_created_at : option time; up_updated_at : time }.
Record notice := { no_id : string; no_account : string; no_period : string; no_percent : Z; no_dedup : string;
  no_gross : Z; no_budget : Z; no_dry_run : bool; no_created_at : time }.

Record state := {
  billing : BillingDB; directory : Authz.db; trial_grants : list trial_grant; user_profiles : list user_profile;
  notices : list notice
}.
#[export] Instance state_eta : Eta state := fun s =>
  Build_state (billing s) (directory s) (trial_grants s) (user_profiles s) (notices s).

Inductive error : Type := NoAccount | InvalidInput (message : string) | Failed (e : BillingError).

Definition lift {A} (r : result BillingError A) : result error A :=
  match r with Ok a => Ok a | Err e => Err (Failed e) end.

Definition Currency : string := "EUR".
Definition TrialCreditCents : Z := 500.
Definition TrialDuration : duration := 30 * 24 * hour.

Definition accountByWorkspace (s : state) (workspaceID : string) : result error Account :=
  match List.find (fun a => str_eqb (acWorkspace a) workspaceID) (dbAccounts (billing s)) with
  | Some a => Ok a
  | None => Err NoAccount
  end.

Definition accountByID (s : state) (accountID : string) : result error Account :=
  match List.find (fun a => str_eqb (acID a) accountID) (dbAccounts (billing s)) with
  | Some a => Ok a
  | None => Err NoAccount
  end.

Section Accounts.
(** What a [TIMESTAMPTZ] column keeps of an instant the driver sends it. *)
Variable stamp : time -> time.

(** ** Provisioning *)

Definition membership_leb (a b : membership_row) : bool :=
  if m_created_at a =? m_created_at b then String.leb (m_user_id a) (m_user_id b) else m_created_at a <? m_created_at b.

(** [SELECT user_id ... AND role = 'admin' ORDER BY created_at, user_id LIMIT 1] *)
Definition earliest_admin (s : state) (workspaceID : string) : string :=
  default "" (m_user_id <$> head (isort membership_leb
    (List.filter (fun m => str_eqb (m_workspace_id m) workspaceID && str_eqb (m_role m) RoleAdmin)
       (workspace_memberships (directory s))))).

Definition workspaceOwnerTx (s : state) (workspaceID : string) (personalUserID : option string) : string :=
  match personalUserID with
  | Some u => if str_eqb u "" then earliest_admin s workspaceID else u
  | None => earliest_admin s workspaceID
  end.

(** [INSERT INTO billing_trial_grants ... ON CONFLICT (user_id) DO NOTHING] *)
Definition claimTrialGrantTx (s : state) (userID : string) (account : Account) (now : time) : state * bool :=
  if existsb (fun g => str_eqb (tg_user g) userID) (trial_grants s) then (s, false)
  else (s <| trial_grants := trial_grants s ++ [Build_trial_grant userID (acWorkspace account) (acID account) (stamp now)] |>, true).

Definition update_account (id : string) (f : Account -> Account) (b : BillingDB) : BillingDB :=
  b <| dbAccounts := map (fun a => if str_eqb (acID a) id then f a else a) (dbAccounts b) |>.

Definition trial_key (accountID : string) : string := "trial-grant:" +:+ accountID.

(** The identities drawn while a workspace is provisioned. *)
Record draws := { new_account : string; new_credit : string; new_period_id : string }.

Definition trial_account (id : string) (w : workspaces_row) (now : time) : Account :=
  mkAccount id (w_id w) "" Currency PlanTrial "" AccountTrial (civil_of (w_created_at w))
    (Some (w_created_at w + TrialDuration)) None None false (stamp now) (stamp now).

(** One round of the loop of [EnsureAccounts]. *)
Definition provision (draw : string -> draws) (now : time) (s : state) (w : workspaces_row) : result BillingError (state * Z) :=
  let ids := draw (w_id w) in
  let account := trial_account (new_account ids) w now in
  if existsb (fun a => str_eqb (acWorkspace a) (w_id w)) (dbAccounts (billing s)) then Ok (s, 0)
  else
    _ ← guard_err (existsb (fun a => str_eqb (acID a) (acID account)) (dbAccounts (billing s))) (ErrConflict "billing_accounts");
    let s := s <| billing := (billing s) <| dbAccounts := dbAccounts (billing s) ++ [account] |> |> in
    let owner := workspaceOwnerTx s (w_id w) (w_personal_user_id w) in
    let s :=
      if str_eqb owner "" then s
      else
        let '(s, granted) := claimTrialGrantTx s owner account now in
        if granted then
          let b := update_account (acID account) (fun a => a <| acBudget := Some TrialCreditCents |>) (billing s) in
          s <| billing := b <| dbCredits :=
            grantCreditTx (new_credit ids) (acID account) "grant" TrialCreditCents (default zero_time (acTrialEnds account))
              (trial_key (acID account)) "initial trial credit" (stamp now) (dbCredits b) |> |>
        else s in
    r ← ensurePeriodTx (new_period_id ids) account 0 (billing s);
    Ok (s <| billing := r.2 |>, 1).

Fixpoint provision_all (draw : string -> draws) (now : time) (s : state) (ws : list workspaces_row) : result BillingError (state * Z) :=
  match ws with
  | [] => Ok (s, 0)
  | w :: ws =>
      r ← provision draw now s w;
      rest ← provision_all draw now r.1 ws;
      Ok (rest.1, r.2 + rest.2)
  end.

Definition workspace_leb (a b : workspaces_row) : bool :=
  if w_created_at a =? w_created_at b then String.leb (w_id a) (w_id b) else w_created_at a <? w_created_at b.

(** Workspaces [LEFT JOIN]ed to no account. *)
Definition missing (s : state) : list workspaces_row :=
  isort workspace_leb (List.filter (fun w => negb (existsb (fun a => str_eqb (acWorkspace a) (w_id w)) (dbAccounts (billing s))))
    (workspaces (directory s))).

Definition EnsureAccounts (mode : Mode) (draw : string -> draws) (now : time) (s : state) : state * result BillingError Z :=
  if bool_decide (mode = ModeDisabled) then (s, Ok 0)
  else match provision_all draw now s (missing s) with
       | Ok (s', created) => (s', Ok created)
       | Err e => (s, Err e)
       end.

(** ** The current period *)

(** [SELECT COALESCE(max(period_index), -1)] *)
Definition last_index (b : BillingDB) (accountID : string) : Z :=
  foldr (fun p n => if str_eqb (pdAccount p) accountID then Z.max (pdIndex p) n else n) (-1) (dbPeriods b).

Definition currentPeriodTx (uuid : string) (account : Account) (now : time) (b : BillingDB) : result BillingError (Period * BillingDB) :=
  let index := last_index b (acID account) in
  if index <? 0 then ensurePeriodTx uuid account 0 b
  else
    period ← query_row (period_key (acID account) index) (dbPeriods b);
    if bool_decide (pdState period = PeriodOpen) then Ok (period, b)
    else
      r ← ensurePeriodTx uuid account (index + 1) b;
      let '(next, b) := r in
      Ok (next,
          if negb (str_eqb (acPendingPlan account) "") && str_eqb (pdPlan next) (acPendingPlan account)
          then update_account (acID account)
                 (fun a => a <| acPlan := acPendingPlan account |> <| acPendingPlan := "" |> <| acUpdated := stamp now |>) b
          else b).

Definition AccountForWorkspace (mode : Mode) (draw : string -> draws) (uuid : string) (now : time) (workspaceID : string) (s : state)
    : state * result error (Account * Period) :=
  if bool_decide (mode = ModeDisabled) then (s, Err (Failed ErrDisabled))
  else match EnsureAccounts mode draw now s with
       | (s, Err e) => (s, Err (Failed e))
       | (s, Ok _) =>
           match (account ← accountByWorkspace s workspaceID;
                  r ← lift (currentPeriodTx uuid account now (billing s));
                  Ok (account, r)) with
           | Ok (account, (period, b)) => (s <| billing := b |>, Ok (account, period))
           | Err e => (s, Err e)
           end
       end.

(** ** Changes an owner asks for *)

Definition commit {A} (s : state) (r : result error (state * A)) : state * result error A :=
  match r with Ok (s', a) => (s', Ok a) | Err e => (s, Err e) end.

Definition ChangePlan (now : time) (workspaceID planID : string) (s : state) : state * result error unit :=
  let planID := TrimSpace planID in
  commit s (
    _ ← guard_err (str_eqb planID PlanTrial || str_eqb planID PlanStorage) (InvalidInput "plan cannot be selected");
    _ ← guard_err (match plan_of planID with None => true | Some _ => false end) (InvalidInput "unknown plan");
    account ← accountByWorkspace s workspaceID;
    _ ← guard_err (bool_decide (acState account = AccountCancelled)) (InvalidInput "account is cancelled");
    Ok (s <| billing := update_account (acID account)
          (fun a => a <| acPendingPlan := planID |> <| acUpdated := stamp now |>) (billing s) |>, tt)).

Definition SetBudget (now : time) (workspaceID : string) (stopCents : Z) (s : state) : state * result error unit :=
  commit s (
    _ ← guard_err (stopCents <? 0) (InvalidInput "budget must not be negative");
    account ← accountByWorkspace s workspaceID;
    let budget := if 0 <? stopCents then Some stopCents else None in
    Ok (s <| billing := update_account (acID account)
          (fun a => a <| acBudget := budget |> <| acUpdated := stamp now |>) (billing s) |>, tt)).

Definition Cancel (uuid : string) (now : time) (workspaceID : string) (s : state) : state * result error time :=
  commit s (
    account ← accountByWorkspace s workspaceID;
    r ← lift (currentPeriodTx uuid account now (billing s));
    let '(period, b) := r in
    let effective := pdEnds period in
    Ok (s <| billing := update_account (acID account)
          (fun a => a <| acState := AccountCancelled |> <| acCancelEffective := Some effective |> <| acPendingPlan := "" |>
                      <| acUpdated := stamp now |>) b |>, effective)).
End Accounts.

(** ** Trial credit *)

Definition trial_entry (e : creditEntry) : bool := String.prefix "trial-grant:" (ceDedup e).

Definition trial_credits (s : state) : list creditEntry := List.filter trial_entry (dbCredits (billing s)).

(** A credit entry that pays out a trial grant. *)
Definition pays (e : creditEntry) (g : trial_grant) : Prop :=
  ceDedup e = trial_key (tg_account g) /\ ceAccount e = tg_account g /\ ceAmount e = TrialCreditCents.

Record accounts_ok (s : state) : Prop := {
  ao_ids : NoDup (map acID (dbAccounts (billing s)));
  ao_workspaces : NoDup (map acWorkspace (dbAccounts (billing s)));
  ao_users : NoDup (map tg_user (trial_grants s));
  ao_grants : forall g, g ∈ trial_grants s -> tg_account g ∈ map acID (dbAccounts (billing s));
  ao_credits : Forall2 pays (trial_credits s) (trial_grants s)
}.

Lemma trial_key_inj a b : trial_key a = trial_key b -> a = b.
Proof. unfold trial_key. intros H. by apply (inj (String.append _)) in H. Qed.

Lemma trial_entry_key e id : ceDedup e = trial_key id -> trial_entry e = true.
Proof. unfold trial_entry, trial_key. intros ->. by destruct id. Qed.

(** What a change outside the trial grants must leave alone. *)
Lemma accounts_ok_frame s s' :
  map acID (dbAccounts (billing s')) = map acID (dbAccounts (billing s)) ->
  map acWorkspace (dbAccounts (billing s')) = map acWorkspace (dbAccounts (billing s)) ->
  trial_grants s' = trial_grants s -> trial_credits s' = trial_credits s -> accounts_ok s -> accounts_ok s'.
Proof. intros E1 E2 E3 E4 [H1 H2 H3 H4 H5]. split; rewrite ?E1, ?E2, ?E3, ?E4; done. Qed.

Lemma update_account_keys id f b :
  (forall a, acID (f a) = acID a /\ acWorkspace (f a) = acWorkspace a) ->
  map acID (dbAccounts (update_account id f b)) = map acID (dbAccounts b) /\
  map acWorkspace (dbAccounts (update_account id f b)) = map acWorkspace (dbAccounts b).
Proof.
  intros Hf. unfold update_account. cbn. rewrite !map_map.
  split; apply map_ext; intros a; destruct (str_eqb (acID a) id); try done; by apply Hf.
Qed.

Section Preserved.
Variable stamp : time -> time.

Lemma ensurePeriod_frame uuid a i b p b' :
  ensurePeriodTx uuid a i b = Ok (p, b') -> dbAccounts b' = dbAccounts b /\ dbCredits b' = dbCredits b.
Proof using stamp. intros (_ & _ & [->|(? & ? & _ & -> & _)])%(ensurePeriod_ok stamp); done. Qed.

(** The state after a workspace without an account was provisioned. *)
Lemma provision_new draw now s w s' n :
  provision stamp draw now s w = Ok (s', n) ->
  existsb (fun a => str_eqb (acWorkspace a) (w_id w)) (dbAccounts (billing s)) = false ->
  n = 1 /\ directory s' = directory s /\ user_profiles s' = user_profiles s /\ notices s' = notices s /\
  (new_account (draw (w_id w)) ∉ map acID (dbAccounts (billing s))) /\
  (exists budget, dbAccounts (billing s') = dbAccounts (billing s) ++
     [(trial_account stamp (new_account (draw (w_id w))) w now) <| acBudget := budget |>]) /\
  (exists p, p ∈ dbPeriods (billing s') /\ period_key (new_account (draw (w_id w))) 0 p = true) /\
  ((trial_grants s' = trial_grants s /\ dbCredits (billing s') = dbCredits (billing s)) \/
   (exists g, trial_grants s' = trial_grants s ++ [g] /\ tg_account g = new_account (draw (w_id w)) /\
      tg_user g ∉ map tg_user (trial_grants s) /\
      exists e, ceDedup e = trial_key (tg_account g) /\ ceAccount e = tg_account g /\ ceAmount e = TrialCreditCents /\
        dbCredits (billing s') = insert_entry e (dbCredits (billing s)))).
Proof.
  unfold provision. intros H Hno. rewrite Hno in H. set (id := new_account (draw (w_id w))) in *.
  set (acct := trial_account stamp id w now) in *.
  apply bind_ok in H as ([] & Hg & H). apply guard_err_ok in Hg.
  assert (Hfresh : id ∉ map acID (dbAccounts (billing s))).
  { intros Hin. apply list_elem_of_fmap in Hin as (a & Ea & Ha). apply list_elem_of_In in Ha.
    rewrite <- not_true_iff_false in Hg. apply Hg, existsb_exists. exists a. split; [done|]. by apply str_eqb_eq. }
  set (s1 := s <| billing := _ |>) in H. set (owner := workspaceOwnerTx _ _ _) in H.
  assert (Hupd : dbAccounts (update_account id (fun a => a <| acBudget := Some TrialCreditCents |>) (billing s1)) =
                 dbAccounts (billing s) ++ [acct <| acBudget := Some TrialCreditCents |>]).
  { unfold update_account, s1. cbn. rewrite map_app. cbn. rewrite (proj2 (str_eqb_eq _ _) eq_refl). f_equal.
    etransitivity; [|apply map_id]. apply map_ext_in. intros a Ha. apply list_elem_of_In in Ha.
    destruct (str_eqb (acID a) id) eqn:E; [|done]. apply str_eqb_eq in E. destruct Hfresh. rewrite <- E. by apply list_elem_of_fmap_2. }
  destruct (str_eqb owner ""); [|destruct (claimTrialGrantTx stamp s1 owner acct now) as [s2 granted] eqn:Ec].
  - apply bind_ok in H as ([p b] & Hp & [=<- <-]). pose proof (ensurePeriod_frame _ _ _ _ _ _ Hp) as [E1 E2].
    apply (ensurePeriod_ok stamp) in Hp as (Hp1 & Hp2 & _). repeat (split; [done|]). split.
    { exists None. cbn. rewrite E1. done. }
    split; [by exists p|]. left. split; [done|]. cbn. by rewrite E2.
  - unfold claimTrialGrantTx in Ec. destruct (existsb _ (trial_grants s1)) eqn:Eg; injection Ec as <- <-.
    + apply bind_ok in H as ([p b] & Hp & [=<- <-]). pose proof (ensurePeriod_frame _ _ _ _ _ _ Hp) as [E1 E2].
      apply (ensurePeriod_ok stamp) in Hp as (Hp1 & Hp2 & _). repeat (split; [done|]). split.
      { exists None. cbn. rewrite E1. done. }
      split; [by exists p|]. left. split; [done|]. cbn. by rewrite E2.
    + apply bind_ok in H as ([p b] & Hp & [=<- <-]). pose proof (ensurePeriod_frame _ _ _ _ _ _ Hp) as [E1 E2].
      apply (ensurePeriod_ok stamp) in Hp as (Hp1 & Hp2 & _). repeat (split; [done|]). split.
      { exists (Some TrialCreditCents). cbn [billing set_field]. rewrite E1. exact Hupd. }
      split; [by exists p|]. right. eexists. split; [reflexivity|]. split; [done|]. split.
      { cbn. intros Hin. apply list_elem_of_fmap in Hin as (g & Eu & Hin). apply list_elem_of_In in Hin.
        rewrite <- not_true_iff_false in Eg. apply Eg, existsb_exists. exists g. split; [done|]. by apply str_eqb_eq. }
      cbn [billing set_field]. rewrite E2. unfold grantCreditTx. cbn [dbCredits set_field].
      eexists. split; [|split; [|split; [|reflexivity]]]; done.
Qed.

Lemma provision_ok draw now s w s' n :
  provision stamp draw now s w = Ok (s', n) -> accounts_ok s ->
  accounts_ok s' /\ directory s' = directory s /\
  map acWorkspace (dbAccounts (billing s')) =
    map acWorkspace (dbAccounts (billing s)) ++ (if decide (w_id w ∈ map acWorkspace (dbAccounts (billing s))) then [] else [w_id w]) /\
  n = (if decide (w_id w ∈ map acWorkspace (dbAccounts (billing s))) then 0 else 1) /\
  (forall a, a ∈ dbAccounts (billing s) -> a ∈ dbAccounts (billing s')).
Proof.
  intros H Hok. destruct (existsb (fun a => str_eqb (acWorkspace a) (w_id w)) (dbAccounts (billing s))) eqn:Ex.
  - unfold provision in H. rewrite Ex in H. injection H as <- <-. apply existsb_exists in Ex as (a & Ha & E).
    apply list_elem_of_In in Ha. apply str_eqb_eq in E.
    assert (Hin : w_id w ∈ map acWorkspace (dbAccounts (billing s))) by (rewrite <- E; by apply list_elem_of_fmap_2).
    rewrite !decide_True by done. rewrite app_nil_r. done.
  - assert (Hno : w_id w ∉ map acWorkspace (dbAccounts (billing s))).
    { intros Hin. apply list_elem_of_fmap in Hin as (a & E & Ha). rewrite <- not_true_iff_false in Ex. apply Ex, existsb_exists.
      exists a. rewrite <- list_elem_of_In. split; [done|]. by apply str_eqb_eq. }
    rewrite !decide_False by done. destruct (provision_new _ _ _ _ _ _ H Ex) as (-> & Hd & _ & _ & Hfresh & [bg Ha] & _ & Hg).
    assert (Hids : map acID (dbAccounts (billing s')) = map acID (dbAccounts (billing s)) ++ [new_account (draw (w_id w))])
      by (rewrite Ha, map_app; done).
    assert (Hws : map acWorkspace (dbAccounts (billing s')) = map acWorkspace (dbAccounts (billing s)) ++ [w_id w])
      by (rewrite Ha, map_app; done).
    split; [|split; [done|split; [done|split; [done|]]]].
    2: { intros a Hin. rewrite Ha. set_solver. }
    destruct Hok as [H1 H2 H3 H4 H5]. split.
    + rewrite Hids. apply NoDup_app. split; [done|]. split; [set_solver|apply NoDup_singleton].
    + rewrite Hws. apply NoDup_app. split; [done|]. split; [set_solver|apply NoDup_singleton].
    + destruct Hg as [[-> _]|(g & -> & _ & Hu & _)]; [done|]. rewrite map_app. apply NoDup_app.
      split; [done|]. split; [set_solver|apply NoDup_singleton].
    + rewrite Hids. destruct Hg as [[-> _]|(g & -> & Eg & _)]; intros x Hx; [set_solver|].
      apply elem_of_app in Hx as [Hx|Hx]; [set_solver|]. apply list_elem_of_singleton in Hx as ->. set_solver.
    + unfold trial_credits. destruct Hg as [[-> ->]|(g & -> & Eg & _ & e & K1 & K2 & K3 & ->)]; [done|].
      assert (Hins : insert_entry e (dbCredits (billing s)) = dbCredits (billing s) ++ [e]).
      { unfold insert_entry. destruct (existsb _ (dbCredits (billing s))) eqn:Ee; [|done].
        apply existsb_exists in Ee as (x & Hx & E). apply str_eqb_eq in E. exfalso.
        assert (Hx' : x ∈ trial_credits s).
        { unfold trial_credits. rewrite list_elem_of_In, filter_In. split; [done|]. eapply trial_entry_key. rewrite E. exact K1. }
        apply list_elem_of_lookup in Hx' as [i Hi]. apply (Forall2_lookup_l _ _ _ _ _ H5) in Hi as (g' & Hg' & Hp & _).
        apply Hfresh. rewrite <- Eg. apply list_elem_of_lookup_2, H4 in Hg'. replace (tg_account g) with (tg_account g'); [done|].
        apply trial_key_inj. congruence. }
      rewrite Hins, List.filter_app. cbn. rewrite (trial_entry_key _ _ K1). apply Forall2_app; [done|]. by repeat constructor.
Qed.

Lemma provision_all_ok draw now ws : forall s s' n,
  provision_all stamp draw now s ws = Ok (s', n) -> accounts_ok s ->
  accounts_ok s' /\ directory s' = directory s /\
  (forall w, w ∈ map acWorkspace (dbAccounts (billing s')) <-> w ∈ map acWorkspace (dbAccounts (billing s)) \/ w ∈ map w_id ws) /\
  n = len (dbAccounts (billing s')) - len (dbAccounts (billing s)) /\
  (forall a, a ∈ dbAccounts (billing s) -> a ∈ dbAccounts (billing s')).
Proof.
  induction ws as [|w ws IH]; intros s s' n H Hok.
  - injection H as <- <-. split; [done|]. split; [done|]. split; [set_solver|]. split; [lia|done].
  - cbn in H. apply bind_ok in H as ([s1 n1] & H1 & H). apply bind_ok in H as ([s2 n2] & H2 & [=<- <-]).
    destruct (provision_ok _ _ _ _ _ _ H1 Hok) as (O1 & D1 & W1 & N1 & A1).
    destruct (IH _ _ _ H2 O1) as (O2 & D2 & W2 & N2 & A2). split; [done|]. split; [by rewrite D2|]. split; [|split].
    + intros x. rewrite W2. cbn [fst] in *. rewrite W1. cbn. destruct (decide _); set_solver.
    + cbn [fst] in *. rewrite <- (len_map acWorkspace (dbAccounts (billing s1))), W1 in N2. rewrite len_app, len_map in N2. cbn [fst snd].
      rewrite N2, N1. destruct (decide _); unfold len; cbn; lia.
    + intros a Ha. by apply A2, A1.
Qed.

Lemma missing_in s w : w ∈ missing s <-> w ∈ workspaces (directory s) /\ w_id w ∉ map acWorkspace (dbAccounts (billing s)).
Proof.
  unfold missing. rewrite isort_elem, list_elem_of_In, filter_In, <- list_elem_of_In, negb_true_iff, <- not_true_iff_false, existsb_exists.
  split; intros [Hw H]; (split; [done|]); contradict H.
  - apply list_elem_of_fmap in H as (a & E & Ha). exists a. rewrite <- list_elem_of_In. split; [done|]. by apply str_eqb_eq.
  - destruct H as (a & Ha & E). apply str_eqb_eq in E. rewrite <- E. apply list_elem_of_fmap_2. by rewrite list_elem_of_In.
Qed.

Lemma EnsureAccounts_ok mode draw now s s' r :
  EnsureAccounts stamp mode draw now s = (s', r) -> accounts_ok s -> accounts_ok s' /\ directory s' = directory s.
Proof.
  unfold EnsureAccounts. destruct (bool_decide _); [by intros [=<- <-]|]. destruct (provision_all _ _ _ _ _) as [[s1 n]|] eqn:E; [|by intros [=<- <-]].
  intros [=<- <-] Hok. destruct (provision_all_ok _ _ _ _ _ _ E Hok) as (? & ? & _). done.
Qed.

Lemma provision_one_each s : accounts_ok s -> forall w, w ∈ map acWorkspace (dbAccounts (billing s)) ->
  countb (fun a => str_eqb (acWorkspace a) w) (dbAccounts (billing s)) = 1.
Proof.
  intros [_ Hn _ _ _] w Hw. apply list_elem_of_fmap in Hw as (a & -> & Ha).
  apply (countb_one acWorkspace _ _ a); [done|done|by apply str_eqb_eq|]. by intros b _ E%str_eqb_eq.
Qed.

Lemma provisioned_all draw now s s1 n :
  provision_all stamp draw now s (missing s) = Ok (s1, n) -> accounts_ok s ->
  forall w, w ∈ workspaces (directory s1) -> w_id w ∈ map acWorkspace (dbAccounts (billing s1)).
Proof.
  intros E Hok w Hw. destruct (provision_all_ok _ _ _ _ _ _ E Hok) as (_ & D & W & _).
  rewrite D in Hw. apply W. destruct (decide (w_id w ∈ map acWorkspace (dbAccounts (billing s)))); [by left|right].
  apply list_elem_of_fmap_2, missing_in. done.
Qed.

(** *** Provisioning over any accounts

    What provisioning does to the workspaces of accounts, whatever their states
    are, from the unique workspace of an account alone. *)

Lemma provision_workspaces draw now s w s' n : provision stamp draw now s w = Ok (s', n) ->
  directory s' = directory s /\
  map acWorkspace (dbAccounts (billing s')) =
    map acWorkspace (dbAccounts (billing s)) ++ (if decide (w_id w ∈ map acWorkspace (dbAccounts (billing s))) then [] else [w_id w]).
Proof.
  intros H. destruct (existsb (fun a => str_eqb (acWorkspace a) (w_id w)) (dbAccounts (billing s))) eqn:Ex.
  - unfold provision in H. rewrite Ex in H. injection H as <- <-. apply existsb_exists in Ex as (a & Ha & E).
    apply list_elem_of_In in Ha. apply str_eqb_eq in E.
    rewrite decide_True by (rewrite <- E; by apply list_elem_of_fmap_2). by rewrite app_nil_r.
  - assert (Hno : w_id w ∉ map acWorkspace (dbAccounts (billing s))).
    { intros Hin. apply list_elem_of_fmap in Hin as (a & E & Ha). rewrite <- not_true_iff_false in Ex. apply Ex, existsb_exists.
      exists a. rewrite <- list_elem_of_In. split; [done|]. by apply str_eqb_eq. }
    rewrite decide_False by done. destruct (provision_new _ _ _ _ _ _ H Ex) as (_ & Hd & _ & _ & _ & [bg Ha] & _).
    split; [done|]. rewrite Ha, map_app. done.
Qed.

Lemma provision_all_workspaces draw now ws : forall s s' n, provision_all stamp draw now s ws = Ok (s', n) ->
  NoDup (map acWorkspace (dbAccounts (billing s))) ->
  directory s' = directory s /\ NoDup (map acWorkspace (dbAccounts (billing s'))) /\
  forall w, w ∈ map acWorkspace (dbAccounts (billing s')) <-> w ∈ map acWorkspace (dbAccounts (billing s)) \/ w ∈ map w_id ws.
Proof.
  induction ws as [|w ws IH]; intros s s' n H Hn.
  - injection H as <- <-. split; [done|]. split; [done|set_solver].
  - cbn in H. apply bind_ok in H as ([s1 n1] & H1 & H). apply bind_ok in H as ([s2 n2] & H2 & [=<- <-]).
    destruct (provision_workspaces _ _ _ _ _ _ H1) as [D1 W1]. cbn [fst] in *.
    assert (Hn1 : NoDup (map acWorkspace (dbAccounts (billing s1)))).
    { rewrite W1. destruct (decide _); [by rewrite app_nil_r|]. apply NoDup_app. split; [done|]. split; [set_solver|apply NoDup_singleton]. }
    destruct (IH _ _ _ H2 Hn1) as (D2 & N2 & W2). split; [by rewrite D2|]. split; [done|].
    intros x. rewrite W2, W1. cbn. destruct (decide _); set_solver.
Qed.

Lemma EnsureAccounts_workspaces mode draw now s s' n :
  EnsureAccounts stamp mode draw now s = (s', Ok n) -> mode <> ModeDisabled -> NoDup (map acWorkspace (dbAccounts (billing s))) ->
  NoDup (map acWorkspace (dbAccounts (billing s'))) /\
  forall w, w ∈ workspaces (directory s') -> exists a, a ∈ dbAccounts (billing s') /\ acWorkspace a = w_id w.
Proof.
  unfold EnsureAccounts. intros H Hm Hn. rewrite bool_decide_eq_false_2 in H by done.
  destruct (provision_all stamp draw now s (missing s)) as [[s1 n1]|] eqn:E; [|done]. injection H as <- <-.
  destruct (provision_all_workspaces _ _ _ _ _ _ E Hn) as (D & N & W). split; [done|]. intros w Hw. rewrite D in Hw.
  assert (Hin : w_id w ∈ map acWorkspace (dbAccounts (billing s1))).
  { apply W. destruct (decide (w_id w ∈ map acWorkspace (dbAccounts (billing s)))); [by left|right]. by apply list_elem_of_fmap_2, missing_in. }
  apply list_elem_of_fmap in Hin as (a & Ea & Ha). eauto.
Qed.

(** Provisioning is complete, exact and repeatable.  After it every
    workspace has exactly one account, the number reported is the number of
    accounts added, the accounts there before are untouched, and a second pass
    adds nothing. *)
Theorem accounts_provisioned mode draw now s s' n draw2 now2 :
  accounts_ok s -> mode <> ModeDisabled -> EnsureAccounts stamp mode draw now s = (s', Ok n) ->
  (forall w, w ∈ workspaces (directory s') -> countb (fun a => str_eqb (acWorkspace a) (w_id w)) (dbAccounts (billing s')) = 1) /\
  n = len (dbAccounts (billing s')) - len (dbAccounts (billing s)) /\
  (forall a, a ∈ dbAccounts (billing s) -> a ∈ dbAccounts (billing s')) /\
  EnsureAccounts stamp mode draw2 now2 s' = (s', Ok 0).
Proof.
  intros Hok Hm H. unfold EnsureAccounts in H. rewrite bool_decide_eq_false_2 in H by done.
  destruct (provision_all stamp draw now s (missing s)) as [[s1 n1]|] eqn:E; [|done]. injection H as <- <-.
  destruct (provision_all_ok _ _ _ _ _ _ E Hok) as (O & D & W & N & A).
  pose proof (provisioned_all _ _ _ _ _ E Hok) as Hall.
  split; [|split; [done|split; [done|]]].
  - intros w Hw. by apply provision_one_each, Hall.
  - unfold EnsureAccounts. rewrite bool_decide_eq_false_2 by done. assert (missing s1 = []) as ->; [|done].
    destruct (missing s1) as [|w l] eqn:Em; [done|]. assert (Hw : w ∈ missing s1) by (rewrite Em; constructor).
    apply missing_in in Hw as [Hw Hno]. by apply Hall in Hw.
Qed.

(** ** What else happens to the accounts *)

Lemma consume_keeps_trials acct st now want ids : forall grants applied tbl,
  List.filter trial_entry (consume_loop acct st now want applied ids grants tbl).1 = List.filter trial_entry tbl.
Proof.
  intros grants. revert ids. induction grants as [|g grants IH]; intros ids applied tbl; cbn [consume_loop]; [done|].
  destruct (want <=? applied); [done|]. cbv zeta. rewrite IH. unfold insert_entry. destruct (existsb _ tbl); [done|].
  rewrite List.filter_app. cbn. by rewrite app_nil_r.
Qed.

Lemma consumeCredit_keeps_trials acct st want now ids tbl :
  List.filter trial_entry (consumeCreditTx acct st want now ids tbl).1 = List.filter trial_entry tbl.
Proof. unfold consumeCreditTx. destruct (want <=? 0); [done|]. apply consume_keeps_trials. Qed.

Lemma ClosePeriod_frame env id b b' r : ClosePeriod stamp env id b = (b', r) ->
  map acID (dbAccounts b') = map acID (dbAccounts b) /\ map acWorkspace (dbAccounts b') = map acWorkspace (dbAccounts b) /\
  List.filter trial_entry (dbCredits b') = List.filter trial_entry (dbCredits b).
Proof.
  unfold ClosePeriod. destruct (bool_decide _); [by intros [=<- _]|].
  destruct (closePeriodTx stamp env id b) as [[b1 st]|] eqn:E; [|by intros [=<- _]]. intros [=<- _].
  unfold closePeriodTx in E. apply bind_ok in E as (period & _ & E). apply bind_ok in E as (account & _ & E).
  destruct (bool_decide _); [apply bind_ok in E as (? & _ & [=<- _]); done|].
  unfold freeze in E. apply bind_ok in E as (rates & Hr & E). destruct (rateWindow _ _ _ _) as [rated gross].
  destruct (consumeCreditTx _ _ _ _ _ _) as [credits applied] eqn:Ec.
  apply bind_ok in E as ([[[terminal nextMinimum] next] mid] & Hn & E).
  apply bind_ok in E as (sts & _ & E). apply bind_ok in E as (work & _ & E). injection E as <- _.
  cbn [dbAccounts dbCredits set_field]. pose proof (nextPeriod_ok stamp _ _ _ _ _ _ _ _ Hn) as (_ & F2 & _ & _ & _ & F).
  pose proof (consumeCredit_keeps_trials (acID account) (cxStatementID env)) as Hk.
  split; [|split].
  3: { change (List.filter trial_entry (dbCredits mid) = List.filter trial_entry (dbCredits b)). rewrite F2. cbn [dbCredits set_field].
       change (List.filter trial_entry credits = List.filter trial_entry (dbCredits b)).
       match type of Ec with consumeCreditTx _ _ ?w ?n ?i ?t = _ => specialize (Hk w n i t) end. by rewrite Ec in Hk. }
  all: change (dbAccounts (_ <| dbWork := _ |>)) with (dbAccounts mid).
  all: destruct F as [(_ & _ & _ & ->)|(next0 & db0 & He & _ & _ & _ & _ & Ha)]; [done|].
  all: apply ensurePeriod_frame in He as [E1 _].
  all: assert (E1' : dbAccounts db0 = dbAccounts b) by exact E1.
  all: destruct Ha as [->| ->]; [by rewrite E1'|]; rewrite map_map, E1'; apply map_ext; intros a;
    unfold apply_plan; by destruct (str_eqb _ _).
Qed.

Lemma currentPeriod_frame uuid a now b p b' : currentPeriodTx stamp uuid a now b = Ok (p, b') ->
  map acID (dbAccounts b') = map acID (dbAccounts b) /\ map acWorkspace (dbAccounts b') = map acWorkspace (dbAccounts b) /\
  dbCredits b' = dbCredits b.
Proof.
  unfold currentPeriodTx. destruct (_ <? 0); [intros [E1 E2]%ensurePeriod_frame; by rewrite E1|].
  intros (q & _ & H)%bind_ok. destruct (bool_decide _); [by injection H as <- <-|].
  apply bind_ok in H as ([next b1] & [E1 E2]%ensurePeriod_frame & [=<- <-]). destruct (_ && _); [|by rewrite E1, E2].
  edestruct update_account_keys as [K1 K2]; [|rewrite K1, K2, E1; split; [done|split; [done|exact E2]]]. done.
Qed.

Inductive step : state -> state -> Prop :=
| StepEnsure mode draw now s s' r : EnsureAccounts stamp mode draw now s = (s', r) -> step s s'
| StepAccountFor mode draw uuid now w s s' r : AccountForWorkspace stamp mode draw uuid now w s = (s', r) -> step s s'
| StepChangePlan now w plan s s' r : ChangePlan stamp now w plan s = (s', r) -> step s s'
| StepSetBudget now w stop s s' r : SetBudget stamp now w stop s = (s', r) -> step s s'
| StepCancel uuid now w s s' r : Cancel stamp uuid now w s = (s', r) -> step s s'
| StepClose env id s b' r : ClosePeriod stamp env id (billing s) = (b', r) -> step s (s <| billing := b' |>)
| StepDirectory s d : step s (s <| directory := d |>)
| StepProfiles s l : step s (s <| user_profiles := l |>)
| StepExternal id f s : (forall a, acID (f a) = acID a /\ acWorkspace (f a) = acWorkspace a) ->
    step s (s <| billing := update_account id f (billing s) |>).

Inductive reachable : state -> Prop :=
| reach_init s : dbAccounts (billing s) = [] -> trial_grants s = [] -> trial_credits s = [] -> reachable s
| reach_step s s' : reachable s -> step s s' -> reachable s'.

Lemma commit_frame {A} s (r : result error (state * A)) s' x :
  commit s r = (s', x) -> (forall s1 a, r = Ok (s1, a) -> accounts_ok s1) -> accounts_ok s -> accounts_ok s'.
Proof. unfold commit. destruct r as [[s1 a]|]; intros [=<- <-] H Hok; [by eapply H|done]. Qed.

Lemma update_ok s id f b : accounts_ok s -> map acID (dbAccounts b) = map acID (dbAccounts (billing s)) ->
  map acWorkspace (dbAccounts b) = map acWorkspace (dbAccounts (billing s)) ->
  List.filter trial_entry (dbCredits b) = trial_credits s ->
  (forall a, acID (f a) = acID a /\ acWorkspace (f a) = acWorkspace a) ->
  accounts_ok (s <| billing := update_account id f b |>).
Proof.
  intros Hok E1 E2 E3 Hf. destruct (update_account_keys id f b Hf) as [K1 K2].
  eapply accounts_ok_frame; [..|exact Hok]; cbn [billing set_field trial_grants]; [by rewrite K1|by rewrite K2|done|exact E3].
Qed.

Lemma accounts_step_ok s s' : step s s' -> accounts_ok s -> accounts_ok s'.
Proof.
  intros [mode draw now s1 s2 r H|mode draw uuid now w s1 s2 r H|now w plan s1 s2 r H|now w stop s1 s2 r H|uuid now w s1 s2 r H
         |env id s1 b r H|s1 d|s1 l|id f s1 Hf] Hok.
  - by eapply EnsureAccounts_ok.
  - unfold AccountForWorkspace in H. destruct (bool_decide _); [by injection H as <- _|].
    destruct (EnsureAccounts stamp mode draw now s1) as [s3 [n|e]] eqn:E; pose proof (EnsureAccounts_ok _ _ _ _ _ _ E Hok) as [O _];
      [|by injection H as <- _].
    destruct (accountByWorkspace s3 w ≫= _) as [[a [p b]]|] eqn:Ea; [|by injection H as <- _]. injection H as <- _.
    apply bind_ok in Ea as (a1 & _ & Ea). apply bind_ok in Ea as ([p1 b1] & Hc & [=-> -> ->]).
    unfold lift in Hc. destruct (currentPeriodTx stamp uuid a now (billing s3)) as [[p2 b2]|] eqn:Ec; [|done]. injection Hc as -> ->.
    apply currentPeriod_frame in Ec as (F1 & F2 & F3).
    eapply accounts_ok_frame; [..|exact O]; cbn [billing set_field trial_grants]; try done. unfold trial_credits. cbn. by rewrite F3.
  - unfold ChangePlan in H. eapply commit_frame; [exact H| |exact Hok]. intros s3 u Hr.
    apply bind_ok in Hr as (? & _ & Hr). apply bind_ok in Hr as (? & _ & Hr). apply bind_ok in Hr as (a & _ & Hr).
    apply bind_ok in Hr as (? & _ & [=<- _]). by apply update_ok.
  - unfold SetBudget in H. eapply commit_frame; [exact H| |exact Hok]. intros s3 u Hr.
    apply bind_ok in Hr as (? & _ & Hr). apply bind_ok in Hr as (a & _ & [=<- _]). by apply update_ok.
  - unfold Cancel in H. eapply commit_frame; [exact H| |exact Hok]. intros s3 u Hr.
    apply bind_ok in Hr as (a & _ & Hr). apply bind_ok in Hr as ([p b] & Hc & [=<- _]).
    unfold lift in Hc. destruct (currentPeriodTx stamp uuid a now (billing s1)) as [[p2 b2]|] eqn:Ec; [|done]. injection Hc as -> ->.
    apply currentPeriod_frame in Ec as (F1 & F2 & F3). apply update_ok; try done. by rewrite F3.
  - apply ClosePeriod_frame in H as (F1 & F2 & F3). eapply accounts_ok_frame; [..|exact Hok]; done.
  - eapply accounts_ok_frame; [..|exact Hok]; done.
  - eapply accounts_ok_frame; [..|exact Hok]; done.
  - by apply update_ok.
Qed.

Lemma accounts_reachable_ok s : reachable s -> accounts_ok s.
Proof.
  induction 1 as [s E1 E2 E3|s s' _ IH Hs]; [|by eapply accounts_step_ok].
  split; rewrite ?E1, ?E2, ?E3; try (by constructor). by intros g ?%elem_of_nil.
Qed.

(** C26: A user receives trial credit once.  Whatever accounts were provisioned,
    changed, cancelled or closed, activated or set past due by the payment
    provider (any change of an account's columns but its keys), and whatever happened to workspaces and
    memberships, the trial credits in the ledger are exactly one entry of the
    trial amount per recorded grant, no two grants are for the same user, and
    each went to an account that exists. *)
Theorem trial_credit_once s :
  reachable s ->
  NoDup (map tg_user (trial_grants s)) /\ Forall2 pays (trial_credits s) (trial_grants s) /\
  (forall g, g ∈ trial_grants s -> tg_account g ∈ map acID (dbAccounts (billing s))).
Proof. intros [_ _ H3 H4 H5]%accounts_reachable_ok. done. Qed.
End Preserved.


(** ** An example *)

Definition new_workspace : workspaces_row := Build_workspaces_row "w" "Team" None at0.
Definition no_billing : BillingDB := mkBillingDB [] [] [] [] [] [] [].
Definition signed_up : state := {|
  billing := no_billing; directory := demo_directory <| workspace_memberships := [Build_membership_row "w" "alice" RoleAdmin at0] |>;
  trial_grants := []; user_profiles := []; notices := []
|}.
Definition demo_draws (w : string) : draws := Build_draws ("acct-" +:+ w) ("credit-" +:+ w) ("period-" +:+ w).

Definition provisioned : state := (EnsureAccounts (fun t => t) ModeShadow demo_draws at0 signed_up).1.

Lemma signed_up_ok : accounts_ok signed_up.
Proof. split; try (by constructor). by intros g ?%elem_of_nil. Qed.

(** Alice is granted the trial with the first account. *)
Lemma provisioned_trial : trial_grants provisioned = [Build_trial_grant "alice" "w" "acct-w" at0].
Proof. vm_compute. reflexivity. Qed.

Lemma provisioned_eq : EnsureAccounts (fun t => t) ModeShadow demo_draws at0 signed_up = (provisioned, Ok 1).
Proof. vm_compute. reflexivity. Qed.

Lemma accounts_provisioned_witness :
  (forall w, w ∈ workspaces (directory provisioned) ->
     countb (fun a => str_eqb (acWorkspace a) (w_id w)) (dbAccounts (billing provisioned)) = 1) /\
  1 = len (dbAccounts (billing provisioned)) - len (dbAccounts (billing signed_up)) /\
  (forall a, a ∈ dbAccounts (billing signed_up) -> a ∈ dbAccounts (billing provisioned)) /\
  EnsureAccounts (fun t => t) ModeShadow demo_draws at0 provisioned = (provisioned, Ok 0).
Proof.
  apply (accounts_provisioned (fun t => t) ModeShadow demo_draws at0 signed_up provisioned 1 demo_draws at0 signed_up_ok); [done|].
  apply provisioned_eq.
Defined.

Lemma trial_credit_once_witness :
  NoDup (map tg_user (trial_grants provisioned)) /\ Forall2 pays (trial_credits provisioned) (trial_grants provisioned) /\
  (forall g, g ∈ trial_grants provisioned -> tg_account g ∈ map acID (dbAccounts (billing provisioned))).
Proof.
  apply (trial_credit_once (fun t => t) provisioned).
  eapply reach_step; [by apply (reach_init _ signed_up)|]. eapply StepEnsure. apply provisioned_eq.
Defined.

End Accounts.
