(* ===== verification/Restrictions.v ===== *)
(** * Spend restrictions

    [internal/controlplane/billing/restrictions.go]: the evaluation of an
    account from its rated usage, unpaid statements, trial and cancellation, the
    restriction rows it writes for the journal and delivery, budget notices, and
    the checks delivery and the handlers make.  The usage query is an input. *)

From S2P Require Import Prelude GoText DurableWork Billing ClosePeriod Journal Product Authz Accounts.

Module Restrictions.
Import Product Authz Accounts.
Import Journal (BillingRestriction, Build_BillingRestriction, rst_WorkspaceID, rst_AccountID, rst_Restricted, rst_GrowthBlocked,
  rst_DryRun, rst_Reason, rst_Since, rst_UpdatedAt, env_ID, env_ProjectID).

Definition Enforced (r : BillingRestriction) : bool := rst_Restricted r && negb (rst_DryRun r).
Definition EnforcedGrowth (r : BillingRestriction) : bool := (rst_Restricted r || rst_GrowthBlocked r) && negb (rst_DryRun r).

Definition restrictions (s : state) : list BillingRestriction := billing_restrictions (catalog (directory s)).

(** ** Reading *)

Definition of_workspace (s : state) (workspaceID : string) : option BillingRestriction :=
  List.find (fun r => str_eqb (rst_WorkspaceID r) workspaceID) (restrictions s).

Definition RestrictionForWorkspace (mode : Mode) (s : state) (workspaceID : string) : BillingRestriction * bool :=
  match of_workspace s workspaceID with
  | None => (Build_BillingRestriction workspaceID "" false false (negb (bool_decide (mode = ModeEnabled))) "" None zero_time, false)
  | Some r => (r, true)
  end.

(** [None] where growth is allowed, the reason otherwise. *)
Definition CheckGrowth (mode : Mode) (s : state) (workspaceID : string) : option string :=
  if negb (bool_decide (mode = ModeEnabled)) || str_eqb workspaceID "" then None
  else let '(r, found) := RestrictionForWorkspace mode s workspaceID in
       if found && EnforcedGrowth r then Some (rst_Reason r) else None.

(** [services s JOIN environments e JOIN projects p JOIN billing_restrictions r WHERE s.id = $1] *)
Definition service_restrictions (s : state) (serviceID : string) : list BillingRestriction :=
  svc ← with_key s_id serviceID (services (catalog (directory s)));
  e ← with_key (fun e => env_ID (e_row e)) (s_environment_id svc) (environments (catalog (directory s)));
  p ← with_key p_id (env_ProjectID (e_row e)) (projects (catalog (directory s)));
  List.filter (fun r => bool_decide (p_workspace_id p = Some (rst_WorkspaceID r))) (restrictions s).

Definition ServiceEnforcedTx (s : state) (serviceID : string) : bool * string :=
  match service_restrictions s serviceID with
  | [] => (false, "")
  | r :: _ => (rst_Restricted r && negb (rst_DryRun r), rst_Reason r)
  end.

Definition ServiceGrowthBlockedTx (s : state) (serviceID : string) : bool * string :=
  match service_restrictions s serviceID with
  | [] => (false, "")
  | r :: _ => ((rst_Restricted r || rst_GrowthBlocked r) && negb (rst_DryRun r), rst_Reason r)
  end.

Definition WorkspaceEnforcedTx (s : state) (workspaceID : string) : bool * string :=
  match of_workspace s workspaceID with
  | None => (false, "")
  | Some r => (rst_Restricted r && negb (rst_DryRun r), rst_Reason r)
  end.

(** ** Evaluating an account *)

Record evaluation := { restricted : bool; growthBlocked : bool; reason : string; grossCents : Z }.
Definition no_evaluation : evaluation := Build_evaluation false false "" 0.

Definition thresholdPercents : list Z := [75; 90; 100].
Definition TrialEgressCapBytes : Z := Z.shiftl 25 30.
Definition GitHubMinAccountAge : duration := 30 * 24 * hour.
Definition PaymentGrace : duration := 7 * 24 * hour.

Definition minTime (a b : time) : time := if a <? b then a else b.

Fixpoint egress_loop (lines : list RatedLine) (total : Z) : Z :=
  match lines with
  | [] => total
  | line :: lines =>
      if negb (bool_decide (rlMeter line = MeterEgress)) then egress_loop lines total
      else if negb ((-9223372036854775808 <=? rlQuantity line) && (rlQuantity line <=? 9223372036854775807))
      then TrialEgressCapBytes + 1
      else egress_loop lines (wrap64 (total + rlQuantity line))
  end.
Definition ratedEgressBytes (rated : list RatedLine) : Z := egress_loop rated 0.

Definition githubAccountTooNewTx (s : state) (userID : string) (now : time) : bool :=
  match List.find (fun u => str_eqb (up_user u) userID) (user_profiles s) with
  | None => false
  | Some u => match up_github_created_at u with
              | None => true
              | Some created => now <? created + GitHubMinAccountAge
              end
  end.

Definition period_geb (a b : Period) : bool := pdIndex b <=? pdIndex a.

(** [WHERE account_id = $1 AND state = 'open' ORDER BY period_index DESC LIMIT 1] *)
Definition open_period (b : BillingDB) (accountID : string) : option Period :=
  head (isort period_geb (List.filter (fun p => str_eqb (pdAccount p) accountID && bool_decide (pdState p = PeriodOpen)) (dbPeriods b))).

(** [SELECT min(finalized_at) ... WHERE state = 'payment_failed'] *)
Definition failed_since (b : BillingDB) (accountID : string) : option time :=
  foldr (fun st acc => match stFinalized st, acc with
                       | Some t, Some u => Some (Z.min t u)
                       | Some t, None => Some t
                       | None, _ => acc
                       end) None
    (List.filter (fun st => str_eqb (stAccount st) accountID && bool_decide (stState st = StatementPaymentFailed)) (dbStatements b)).

Section Evaluate.
Variable stamp : time -> time.
(** The usage query of [rateWindowTx] and the names of projects. *)
Variable usage : string -> time -> time -> list usageRow.
Variable names : string -> string.

(** The inputs of the switch in [evaluateAccount]. *)
Record findings := {
  fi_cancelled : bool; fi_trialUsedUp : bool; fi_githubTooNew : bool; fi_trialExpired : bool; fi_failedSince : option time;
  fi_graceElapsed : bool; fi_egressOver : bool; fi_gross : Z; fi_budgetReached : bool
}.

Definition is_trial (account : Account) : bool :=
  bool_decide (acState account = AccountTrial) || bool_decide (acState account = AccountPendingActivation).

Definition reached (limit : option time) (now : time) : bool :=
  match limit with Some t => negb (now <? t) | None => false end.

Definition inspect (s : state) (account : Account) (period : Period) (now : time) (rates : Meter -> QArith_base.Q) : findings :=
  let rows := usage (acWorkspace account) (pdStarts period) (minTime now (pdEnds period)) in
  let '(rated, grossExact) := rateWindow rates names (bool_decide (pdKind period = PeriodStorageOnly)) rows in
  let gross := RoundHalfUpCents grossExact in
  let failedSince := failed_since (billing s) (acID account) in
  let grant := List.find (fun g => str_eqb (tg_workspace g) (acWorkspace account)) (trial_grants s) in
  {| fi_cancelled := bool_decide (acState account = AccountCancelled) && reached (acCancelEffective account) now;
     fi_trialUsedUp := is_trial account && match grant with None => true | Some _ => false end;
     fi_githubTooNew := is_trial account && match grant with
                                            | None => false
                                            | Some g => githubAccountTooNewTx s (tg_user g) now
                                            end;
     fi_trialExpired := bool_decide (acState account = AccountTrial) && reached (acTrialEnds account) now;
     fi_failedSince := failedSince;
     fi_graceElapsed := match failedSince with Some t => PaymentGrace <=? time_sub now t | None => false end;
     fi_egressOver := str_eqb (acPlan account) PlanTrial && (TrialEgressCapBytes <? ratedEgressBytes rated);
     fi_gross := gross;
     fi_budgetReached := match acBudget account with Some b => b <=? gross | None => false end |}.

(** The switch, in order, and the growth block after it. *)
Definition decide_restriction (f : findings) : evaluation :=
  let '(r, why) :=
    if fi_cancelled f then (true, "account cancelled")
    else if fi_trialUsedUp f then (true, "trial credit already used")
    else if fi_githubTooNew f then (true, "github account is less than 30 days old")
    else if fi_trialExpired f then (true, "trial expired")
    else if fi_graceElapsed f then (true, "payment failed and grace period elapsed")
    else if fi_egressOver f then (true, "trial egress limit reached")
    else if fi_budgetReached f then (true, "budget stop threshold reached")
    else (false, "") in
  match fi_failedSince f with
  | Some _ => if negb r then Build_evaluation r true "payment failed" (fi_gross f) else Build_evaluation r false why (fi_gross f)
  | None => Build_evaluation r false why (fi_gross f)
  end.

Definition evaluateAccount (s : state) (account : Account) (now : time) : result BillingError (evaluation * Period) :=
  match open_period (billing s) (acID account) with
  | None => Ok (no_evaluation, zero_period)
  | Some period =>
      rates ← loadRatesTx (pdRateVersion period) (pdCurrency period) (dbRates (billing s));
      Ok (decide_restriction (inspect s account period now rates), period)
  end.

(** ** Applying an evaluation *)

Definition upsert (row : BillingRestriction) (l : list BillingRestriction) : list BillingRestriction :=
  if existsb (fun r => str_eqb (rst_WorkspaceID r) (rst_WorkspaceID row)) l then
    map (fun r =>
      if str_eqb (rst_WorkspaceID r) (rst_WorkspaceID row) &&
         (negb (Bool.eqb (rst_Restricted r) (rst_Restricted row)) || negb (Bool.eqb (rst_GrowthBlocked r) (rst_GrowthBlocked row)) ||
          negb (Bool.eqb (rst_DryRun r) (rst_DryRun row)) || negb (str_eqb (rst_Reason r) (rst_Reason row)))
      then row else r) l
  else l ++ [row].

(** Whether a service of the workspace has this delivery status. *)
Definition in_workspace (t : tables) (workspaceID serviceID : string) : bool :=
  existsb (fun svc => str_eqb (s_id svc) serviceID &&
    existsb (fun e => str_eqb (env_ID (e_row e)) (s_environment_id svc) &&
      existsb (fun p => str_eqb (p_id p) (env_ProjectID (e_row e)) && bool_decide (p_workspace_id p = Some workspaceID))
        (projects t)) (environments t)) (services t).

Definition nudge (workspaceID message : string) (now : time) (t : tables) : tables :=
  t <| service_delivery_status := map (fun ds =>
    if in_workspace t workspaceID (ds_service_id ds)
    then Build_service_delivery_status_row (ds_service_id ds) (ds_current_rollout_generation ds) (ds_current_artifact_id ds)
           (ds_last_successful_commit_sha ds) (ds_latest_build_id ds) (Some message) (stamp now)
    else ds) (service_delivery_status t) |>.

Definition notice_key (account period : string) (percent : Z) : string :=
  "budget:" +:+ account +:+ ":" +:+ period +:+ ":" +:+ pretty percent.

Definition add_notice (uuid : Z -> string) (account : Account) (period : Period) (ev : evaluation) (dryRun : bool) (now : time)
    (budget : Z) (l : list notice) (percent : Z) : list notice :=
  if wrap64 (grossCents ev * 100) <? wrap64 (budget * percent) then l
  else if existsb (fun n => str_eqb (no_dedup n) (notice_key (acID account) (pdID period) percent)) l then l
  else l ++ [Build_notice (uuid percent) (acID account) (pdID period) percent (notice_key (acID account) (pdID period) percent)
               (grossCents ev) budget dryRun (stamp now)].

Definition applyRestriction (mode : Mode) (uuid : Z -> string) (account : Account) (period : Period) (ev : evaluation) (now : time)
    (s : state) : state :=
  let dryRun := negb (bool_decide (mode = ModeEnabled)) in
  let previous := of_workspace s (acWorkspace account) in
  let since := previous ≫= rst_Since in
  let was := match previous with Some r => rst_Restricted r | None => false end in
  let since := if restricted ev && negb was then Some now else since in
  let since := if negb (restricted ev) then None else since in
  let row := Build_BillingRestriction (acWorkspace account) (acID account) (restricted ev) (growthBlocked ev) dryRun (reason ev)
               (stamp <$> since) (stamp now) in
  let t := catalog (directory s) in
  let t := t <| billing_restrictions := upsert row (billing_restrictions t) |> in
  let changed := match previous with
                 | None => true
                 | Some r => negb (Bool.eqb (rst_Restricted r) (restricted ev)) ||
                             negb (Bool.eqb (rst_GrowthBlocked r) (growthBlocked ev)) || negb (Bool.eqb (rst_DryRun r) dryRun)
                 end in
  let message := if restricted ev || growthBlocked ev then "billing restriction: " +:+ reason ev else "billing restriction cleared" in
  let t := if changed then nudge (acWorkspace account) message now t else t in
  let s := s <| directory := (directory s) <| catalog := t |> |> in
  match acBudget account with
  | Some budget => if str_eqb (pdID period) "" then s
                   else s <| notices := foldl (add_notice uuid account period ev dryRun now budget) (notices s) thresholdPercents |>
  | None => s
  end.

Definition account_leb (a b : Account) : bool := String.leb (acID a) (acID b).
Definition listAccounts (s : state) : list Account := isort account_leb (dbAccounts (billing s)).

(** The loop of [EvaluateRestrictions]: it stops at the first error and keeps
    what it applied. *)
Fixpoint evaluate_loop (mode : Mode) (uuid : string -> Z -> string) (now : time) (accounts : list Account) (s : state)
    : state * result BillingError unit :=
  match accounts with
  | [] => (s, Ok tt)
  | account :: accounts =>
      match evaluateAccount s account now with
      | Err e => (s, Err e)
      | Ok (ev, period) =>
          evaluate_loop mode uuid now accounts (applyRestriction mode (uuid (acID account)) account period ev now s)
      end
  end.

Definition EvaluateRestrictions (mode : Mode) (draw : string -> draws) (uuid : string -> Z -> string) (now : time) (s : state)
    : state * result BillingError unit :=
  if bool_decide (mode = ModeDisabled) then (s, Ok tt)
  else match EnsureAccounts stamp mode draw now s with
       | (s, Err e) => (s, Err e)
       | (s, Ok _) => evaluate_loop mode uuid now (listAccounts s) s
       end.
End Evaluate.

(** ** What an evaluation writes *)

(** A row says what an evaluation decided. *)
Definition records (mode : Mode) (ev : evaluation) (r : BillingRestriction) : Prop :=
  rst_Restricted r = restricted ev /\ rst_GrowthBlocked r = growthBlocked ev /\ rst_Reason r = reason ev /\
  rst_DryRun r = negb (bool_decide (mode = ModeEnabled)).

Lemma find_map_key {A} (f : A -> A) (p : A -> bool) l : (forall a, p (f a) = p a) -> List.find p (map f l) = f <$> List.find p l.
Proof. intros H. induction l as [|a l IH]; [done|]. cbn. rewrite H. by destruct (p a). Qed.

Lemma find_existsb {A} (p : A -> bool) l : existsb p l = match List.find p l with Some _ => true | None => false end.
Proof. induction l as [|a l IH]; [done|]. cbn. by destruct (p a). Qed.

Lemma upsert_other row l w : w <> rst_WorkspaceID row ->
  List.find (fun r => str_eqb (rst_WorkspaceID r) w) (upsert row l) = List.find (fun r => str_eqb (rst_WorkspaceID r) w) l.
Proof.
  intros Hw. unfold upsert. destruct (existsb _ l).
  - induction l as [|r l IH]; [done|]. cbn. destruct (str_eqb (rst_WorkspaceID r) (rst_WorkspaceID row)) eqn:E.
    + apply str_eqb_eq in E. destruct (true && _); rewrite ?E; cbn; destruct (str_eqb (rst_WorkspaceID row) w) eqn:E2;
        try (apply str_eqb_eq in E2; congruence); exact IH.
    + cbn. destruct (str_eqb (rst_WorkspaceID r) w); [done|exact IH].
  - rewrite find_app. destruct (List.find _ l); [done|]. cbn. destruct (str_eqb (rst_WorkspaceID row) w) eqn:E; [|done].
    apply str_eqb_eq in E. congruence.
Qed.

Lemma upsert_same mode ev row l : records mode ev row ->
  exists r, List.find (fun r => str_eqb (rst_WorkspaceID r) (rst_WorkspaceID row)) (upsert row l) = Some r /\ records mode ev r.
Proof.
  intros Hrow. unfold upsert. rewrite find_existsb. destruct (List.find _ l) as [r|] eqn:Ef.
  - rewrite find_map_key, Ef.
    + cbn. eexists. split; [reflexivity|]. apply find_some in Ef as [_ Ek]. rewrite Ek. cbn.
      destruct (_ || _ || _ || _) eqn:Ed; [done|]. rewrite !orb_false_iff, !negb_false_iff, !eqb_true_iff, str_eqb_eq in Ed.
      destruct Ed as [[[E1 E2] E3] E4]. unfold records in *. by rewrite E1, E2, E3, E4.
    + intros a. destruct (str_eqb (rst_WorkspaceID a) (rst_WorkspaceID row)) eqn:E; cbn; [|by rewrite E].
      destruct (_ || _ || _ || _); [by rewrite (proj2 (str_eqb_eq _ _) eq_refl)|by rewrite E].
  - rewrite find_app, Ef. cbn. rewrite (proj2 (str_eqb_eq _ _) eq_refl). eauto.
Qed.

Section Effects.
Variable stamp : time -> time.
Variable usage : string -> time -> time -> list usageRow.
Variable names : string -> string.

Lemma apply_frame mode uuid a p ev now s :
  let s' := applyRestriction stamp mode uuid a p ev now s in
  billing s' = billing s /\ trial_grants s' = trial_grants s /\ user_profiles s' = user_profiles s /\
  workspaces (directory s') = workspaces (directory s) /\ workspace_memberships (directory s') = workspace_memberships (directory s) /\
  services (catalog (directory s')) = services (catalog (directory s)) /\
  environments (catalog (directory s')) = environments (catalog (directory s)) /\
  projects (catalog (directory s')) = projects (catalog (directory s)).
Proof.
  unfold applyRestriction. destruct (acBudget a); [destruct (str_eqb (pdID p) "")|]; destruct (match of_workspace s _ with Some _ => _ | None => _ end); done.
Qed.

Lemma apply_restrictions mode uuid a p ev now s :
  exists row, rst_WorkspaceID row = acWorkspace a /\ records mode ev row /\
    restrictions (applyRestriction stamp mode uuid a p ev now s) = upsert row (restrictions s).
Proof.
  unfold applyRestriction. eexists. split; [|split]; cycle 2.
  { unfold restrictions. destruct (acBudget a); [destruct (str_eqb (pdID p) "")|];
      destruct (match of_workspace s _ with Some _ => _ | None => _ end); reflexivity. }
  all: done.
Qed.

Lemma evaluate_frame s s' a now :
  billing s' = billing s -> trial_grants s' = trial_grants s -> user_profiles s' = user_profiles s ->
  evaluateAccount usage names s' a now = evaluateAccount usage names s a now.
Proof.
  intros E1 E2 E3. unfold evaluateAccount, inspect, githubAccountTooNewTx. by rewrite E1, E2, E3.
Qed.

(** The loop leaves a row for every account it visited. *)
Lemma evaluate_loop_ok mode uuid now accounts : forall s s',
  evaluate_loop stamp usage names mode uuid now accounts s = (s', Ok tt) -> NoDup (map acWorkspace accounts) ->
  billing s' = billing s /\ trial_grants s' = trial_grants s /\ user_profiles s' = user_profiles s /\
  workspaces (directory s') = workspaces (directory s) /\
  (forall a, a ∈ accounts -> exists ev p r, evaluateAccount usage names s a now = Ok (ev, p) /\
     of_workspace s' (acWorkspace a) = Some r /\ records mode ev r) /\
  (forall w, w ∉ map acWorkspace accounts -> of_workspace s' w = of_workspace s w).
Proof.
  induction accounts as [|a accounts IH]; intros s s' H Hn.
  - injection H as <-. repeat (split; [done|]). split; [by intros a ?%elem_of_nil|done].
  - cbn in H, Hn. apply NoDup_cons in Hn as [Ha Hn].
    destruct (evaluateAccount usage names s a now) as [[ev p]|] eqn:Ee; [|done].
    set (s1 := applyRestriction stamp mode (uuid (acID a)) a p ev now s) in H.
    pose proof (apply_frame mode (uuid (acID a)) a p ev now s) as (F1 & F2 & F3 & F4 & _). fold s1 in F1, F2, F3, F4.
    destruct (IH _ _ H Hn) as (G1 & G2 & G3 & G4 & G5 & G6).
    destruct (apply_restrictions mode (uuid (acID a)) a p ev now s) as (row & Hw & Hrec & Hr). fold s1 in Hr.
    split; [by rewrite G1|]. split; [by rewrite G2|]. split; [by rewrite G3|]. split; [by rewrite G4|]. split.
    + intros b [->|Hb]%elem_of_cons.
      * exists ev, p. destruct (upsert_same mode ev row (restrictions s) Hrec) as (r & Hf & Hrr). exists r.
        split; [done|]. split; [|done]. rewrite G6 by done. unfold of_workspace. rewrite Hr, <- Hw. exact Hf.
      * destruct (G5 b Hb) as (ev' & p' & r & E1 & E2 & E3). exists ev', p', r. split; [|done].
        rewrite <- E1. symmetry. by apply evaluate_frame.
    + intros w Hno. cbn in Hno. rewrite G6 by set_solver. unfold of_workspace. rewrite Hr. apply upsert_other. rewrite Hw. set_solver.
Qed.

Lemma listAccounts_perm s : listAccounts s ≡ₚ dbAccounts (billing s).
Proof. apply isort_perm. Qed.

Lemma restrictions_written mode draw uuid now s s' :
  NoDup (map acWorkspace (dbAccounts (billing s))) -> mode <> ModeDisabled ->
  EvaluateRestrictions stamp usage names mode draw uuid now s = (s', Ok tt) ->
  forall w, w ∈ workspaces (directory s') ->
  exists a ev p r, a ∈ dbAccounts (billing s') /\ acWorkspace a = w_id w /\
    evaluateAccount usage names s' a now = Ok (ev, p) /\ of_workspace s' (w_id w) = Some r /\ records mode ev r.
Proof.
  intros Hu Hm H w Hw. unfold EvaluateRestrictions in H. rewrite bool_decide_eq_false_2 in H by done.
  destruct (EnsureAccounts stamp mode draw now s) as [s1 [n|e]] eqn:Ee; [|done].
  destruct (EnsureAccounts_workspaces _ _ _ _ _ _ _ Ee Hm Hu) as [O1 Hall].
  assert (Hn : NoDup (map acWorkspace (listAccounts s1))) by (by rewrite (Permutation_map acWorkspace (listAccounts_perm s1))).
  destruct (evaluate_loop_ok _ _ _ _ _ _ H Hn) as (G1 & G2 & G3 & G4 & G5 & _).
  rewrite G4 in Hw. destruct (Hall w Hw) as (a & Ha & Ew).
  assert (Hl : a ∈ listAccounts s1) by by rewrite listAccounts_perm.
  destruct (G5 a Hl) as (ev & p & r & E1 & E2 & E3). exists a, ev, p, r. rewrite G1, <- Ew. split; [done|]. split; [done|].
  split; [|done]. rewrite <- E1. by apply evaluate_frame.
Qed.

(** C27: Restrictions converge to the accounts.  Take accounts in any states
    (trial, pending, active, past due or cancelled), at most one for a workspace
    as the table requires, and a mode other than disabled.  After a pass that
    reports no error every workspace has an account and a restriction row, and
    the row says exactly what evaluating that account now decides, marked as a
    dry run unless billing is enabled.  (In the disabled mode a pass does
    nothing.) *)
Theorem restrictions_converge mode draw uuid now s s' :
  NoDup (map acWorkspace (dbAccounts (billing s))) -> mode <> ModeDisabled ->
  EvaluateRestrictions stamp usage names mode draw uuid now s = (s', Ok tt) ->
  forall w, w ∈ workspaces (directory s') ->
  exists a ev p r, a ∈ dbAccounts (billing s') /\ acWorkspace a = w_id w /\
    evaluateAccount usage names s' a now = Ok (ev, p) /\ of_workspace s' (w_id w) = Some r /\ records mode ev r.
Proof. apply restrictions_written. Qed.

(** The restriction a service's join finds is the one of its workspace. *)
Lemma service_restriction_head s id r rest : service_restrictions s id = r :: rest ->
  exists p, p ∈ projects (catalog (directory s)) /\ exists w, p_workspace_id p = Some w /\ of_workspace s w = Some r.
Proof.
  unfold service_restrictions. intros H.
  assert (Hhead : forall (A : Type) (l : list A) (f : A -> list BillingRestriction) r rest,
    l ≫= f = r :: rest -> exists a rest', a ∈ l /\ f a = r :: rest').
  { clear. intros A l f r rest. induction l as [|a l IH]; [done|]. cbn. destruct (f a) as [|x fa] eqn:E; cbn.
    - intros H. destruct (IH H) as (b & rest' & Hb & Eb). exists b, rest'. split; [by constructor|done].
    - intros [=-> _]. exists a, fa. split; [constructor|done]. }
  apply Hhead in H as (svc & r1 & _ & H). apply Hhead in H as (e & r2 & _ & H). apply Hhead in H as (p & r3 & Hp & H).
  apply with_key_in in Hp as [Hp _]. exists p. split; [done|].
  assert (Hin : r ∈ List.filter (fun r => bool_decide (p_workspace_id p = Some (rst_WorkspaceID r))) (restrictions s)) by (rewrite H; constructor).
  rewrite list_elem_of_In, filter_In in Hin. destruct Hin as [_ Hw%bool_decide_eq_true]. exists (rst_WorkspaceID r). split; [done|].
  unfold of_workspace. rewrite Hw in H. clear -H. revert H. induction (restrictions s) as [|x l IH]; [done|]. cbn.
  destruct (bool_decide_reflect (Some (rst_WorkspaceID r) = Some (rst_WorkspaceID x))) as [E|E].
  - intros [=-> _]. by rewrite (proj2 (str_eqb_eq _ _) eq_refl).
  - intros H. destruct (str_eqb (rst_WorkspaceID x) (rst_WorkspaceID r)) eqn:E2; [|by apply IH]. apply str_eqb_eq in E2. congruence.
Qed.

(** Outside enabled mode billing enforces nothing.  After a pass in shadow
    mode no workspace and no service is restricted or kept from growing,
    whatever the accounts owe. *)
Theorem shadow_never_enforces draw uuid now s s' :
  NoDup (map acWorkspace (dbAccounts (billing s))) -> EvaluateRestrictions stamp usage names ModeShadow draw uuid now s = (s', Ok tt) ->
  (forall p w, p ∈ projects (catalog (directory s')) -> p_workspace_id p = Some w -> w ∈ map w_id (workspaces (directory s'))) ->
  (forall w, w ∈ workspaces (directory s') ->
     (WorkspaceEnforcedTx s' (w_id w)).1 = false /\ CheckGrowth ModeShadow s' (w_id w) = None) /\
  (forall id, (ServiceEnforcedTx s' id).1 = false /\ (ServiceGrowthBlockedTx s' id).1 = false).
Proof.
  intros Hs H Hfk. assert (Hdry : forall w r, w ∈ map w_id (workspaces (directory s')) -> of_workspace s' w = Some r -> rst_DryRun r = true).
  { intros w r Hw Hr. apply list_elem_of_fmap in Hw as (row & -> & Hw).
    assert (Hm : ModeShadow <> ModeDisabled) by done.
    destruct (restrictions_written _ _ _ _ _ _ Hs Hm H row Hw) as (a & ev & p & r' & _ & _ & _ & E2 & _ & _ & _ & E3).
    assert (r' = r) as -> by congruence. done. }
  split.
  - intros w Hw. split; [|done]. unfold WorkspaceEnforcedTx. destruct (of_workspace s' (w_id w)) as [r|] eqn:E; [|done].
    cbn. rewrite (Hdry _ _ (list_elem_of_fmap_2 _ _ _ Hw) E). apply andb_false_r.
  - intros id. unfold ServiceEnforcedTx, ServiceGrowthBlockedTx. destruct (service_restrictions s' id) as [|r rest] eqn:E; [done|].
    apply service_restriction_head in E as (p & Hp & w & Hw & Hr). cbn. rewrite (Hdry _ _ (Hfk _ _ Hp Hw) Hr). by rewrite !andb_false_r.
Qed.
End Effects.


(** ** A cancelled account *)

Definition now_id (t : time) : time := t.
Definition no_usage (w : string) (a b : time) : list usageRow := [].
Definition demo_rates : list RateRow := map (fun m => mkRateRow 1 "EUR" (Meter_string m) (RateVersion1 m)) Meters.

Definition joined : state := signed_up <| billing := no_billing <| dbRates := demo_rates |> |>.
Definition subscribed : state := (EnsureAccounts now_id ModeEnabled demo_draws at0 joined).1.
Definition cancelling := Cancel now_id "unused" at0 "w" subscribed.
Definition cancelled : state := cancelling.1.

Definition evaluated (now : time) (s : state) : state :=
  (EvaluateRestrictions now_id no_usage (fun p => p) ModeEnabled demo_draws (fun a n => a +:+ pretty n) now s).1.

(** The first period ends a month after the workspace was created. *)
Definition effective : time := instant (mkCivil 1970 2 1 0).

Definition closing (s : state) : state :=
  s <| billing := (ClosePeriod now_id
    (mkCloseEnv (effective + 25 * hour) (effective + 25 * hour) ModeEnabled no_usage (fun p => p) (fun _ => false) false
       "statement" "next" "work" (fun _ => "line") []) "period-w" (billing s)).1 |>.

(** A cancelled account is released when its last period closes.  Once the
    cancellation is effective the workspace is restricted; but the close of the
    last period opens no other one when no volumes are kept, and the next pass,
    finding no open period, lifts the restriction. *)
Theorem cancelled_account_is_released :
  snd cancelling = Ok effective /\
  WorkspaceEnforcedTx (evaluated effective cancelled) "w" = (true, "account cancelled") /\
  WorkspaceEnforcedTx (evaluated (effective + 25 * hour) (closing (evaluated effective cancelled))) "w" = (false, "") /\
  map acState (dbAccounts (billing (closing (evaluated effective cancelled)))) = [AccountCancelled].
Proof. split; [|split; [|split]]; vm_compute; reflexivity. Qed.

(** A run in shadow mode. *)
Definition observing := EvaluateRestrictions now_id no_usage (fun p => p) ModeShadow demo_draws (fun a n => a +:+ pretty n) effective joined.
Definition observed : state := observing.1.

Lemma observing_ok : observing = (observed, Ok tt).
Proof.
  assert (H : is_ok observing.2 = true) by (vm_compute; reflexivity).
  unfold observed. destruct observing as [s [[]|e]]; [done|done].
Qed.

Lemma joined_unique : NoDup (map acWorkspace (dbAccounts (billing joined))).
Proof. vm_compute. constructor. Qed.

(** The trial has expired by then, so the row is a dry run of a restriction. *)
Lemma observed_row : map (fun r => (rst_Restricted r, rst_DryRun r)) (restrictions observed) = [(true, true)].
Proof. vm_compute. reflexivity. Qed.

(** A statement whose payment failed. *)
Definition unpaid (account : string) : Statement :=
  mkStatement "st" account "period" StatementPeriodClose "EUR" false StatementPaymentFailed 500 0 500 0 0 0 0 0 500 500 (mkCoverage 0 0 0 0) "" "" None "" (Some at0) at0 at0 [].

(** An active account whose statement could not be paid a week ago. *)
Definition overdue : state :=
  subscribed <| billing := (billing subscribed)
    <| dbAccounts := map (fun a => a <| acState := AccountActive |> <| acPlan := "hobby" |>) (dbAccounts (billing subscribed)) |>
    <| dbStatements := map (fun a => unpaid (acID a)) (dbAccounts (billing subscribed)) |> |>.

Definition evaluating_overdue :=
  EvaluateRestrictions now_id no_usage (fun p => p) ModeEnabled demo_draws (fun a n => a +:+ pretty n) (at0 + 8 * day) overdue.

Lemma evaluating_overdue_ok : evaluating_overdue = (evaluating_overdue.1, Ok tt).
Proof.
  assert (H : is_ok evaluating_overdue.2 = true) by (vm_compute; reflexivity). destruct evaluating_overdue as [s [[]|e]]; done.
Qed.

Lemma overdue_unique : NoDup (map acWorkspace (dbAccounts (billing overdue))).
Proof. vm_compute. apply NoDup_singleton. Qed.

Lemma overdue_row : map (fun r => (rst_Restricted r, rst_DryRun r, rst_Reason r)) (restrictions evaluating_overdue.1)
  = [(true, false, "payment failed and grace period elapsed")].
Proof. vm_compute. reflexivity. Qed.

Lemma restrictions_converge_witness :
  map acState (dbAccounts (billing evaluating_overdue.1)) = [AccountActive] /\
  exists a ev p r, a ∈ dbAccounts (billing evaluating_overdue.1) /\ acWorkspace a = "w" /\
    evaluateAccount no_usage (fun p => p) evaluating_overdue.1 a (at0 + 8 * day) = Ok (ev, p) /\
    of_workspace evaluating_overdue.1 "w" = Some r /\ records ModeEnabled ev r.
Proof.
  split; [vm_compute; reflexivity|].
  apply (restrictions_converge now_id no_usage (fun p => p) ModeEnabled demo_draws (fun a n => a +:+ pretty n) (at0 + 8 * day) overdue
    evaluating_overdue.1 overdue_unique) with (w := new_workspace); [done|exact evaluating_overdue_ok|].
  apply list_elem_of_singleton. vm_compute. reflexivity.
Defined.

Lemma observed_projects : forall p w, p ∈ projects (catalog (directory observed)) -> p_workspace_id p = Some w ->
  w ∈ map w_id (workspaces (directory observed)).
Proof.
  assert (E1 : projects (catalog (directory observed)) = projects demo_tables) by (vm_compute; reflexivity).
  assert (E2 : map w_id (workspaces (directory observed)) = ["w"]) by (vm_compute; reflexivity).
  rewrite E1, E2. intros p w Hp%list_elem_of_singleton. subst p. intros [=<-]. by apply list_elem_of_singleton.
Qed.

Lemma shadow_never_enforces_witness :
  (forall w, w ∈ workspaces (directory observed) ->
     (WorkspaceEnforcedTx observed (w_id w)).1 = false /\ CheckGrowth ModeShadow observed (w_id w) = None) /\
  (forall id, (ServiceEnforcedTx observed id).1 = false /\ (ServiceGrowthBlockedTx observed id).1 = false).
Proof.
  apply (shadow_never_enforces now_id no_usage (fun p => p) demo_draws (fun a n => a +:+ pretty n) effective joined observed
    joined_unique); [exact observing_ok|exact observed_projects].
Defined.

End Restrictions.
