(* ===== verification/Quotas.v ===== *)
(** * Plan quotas

    [internal/controlplane/billing/quotas.go] and [validateServiceSpecResources]
    of [internal/controlplane/platform_services.go]: the limits of a plan on
    services, projects, workspaces, volumes, builds and custom domains.  Of a
    service specification only the fields the quota reads are kept; parsing the
    stored specification is a parameter. *)

From S2P Require Import Prelude GoText DurableWork Billing ClosePeriod GoTime Journal Product Authz Accounts.

Module Quotas.
Import Product Authz Accounts.
Import Journal (env_ID, env_ProjectID).

Inductive error : Type :=
| NoRows
| SpecUnreadable
| QuotaExceeded (name : string) (resulting limit : Z)
| DomainsBlocked
| ResourcesRequired
| CpuTooSmall
| MemoryTooSmall.

(** ** Specifications *)

Record ServiceRuntime := { rt_CpuMillis : Z; rt_MemoryMebibytes : Z }.
Record ServiceSpec := { sp_DesiredReplicaCount : option Z; sp_Runtime : option ServiceRuntime }.

Definition validateServiceSpecResources (spec : option ServiceSpec) : result error unit :=
  match (spec ≫= sp_Runtime) with
  | None => Err ResourcesRequired
  | Some rt =>
      _ ← guard_err (rt_CpuMillis rt <? 250) CpuTooSmall;
      guard_err (rt_MemoryMebibytes rt <? 256) MemoryTooSmall
  end.

Record serviceUsage := {
  serviceID : string; environmentID : string; projectID : string; cpuMillis : Z; memoryMebis : Z;
  cpuPerReplica : Z; memPerReplica : Z; replicas : Z
}.
#[export] Instance serviceUsage_eta : Eta serviceUsage := fun u =>
  Build_serviceUsage (serviceID u) (environmentID u) (projectID u) (cpuMillis u) (memoryMebis u) (cpuPerReplica u)
    (memPerReplica u) (replicas u).
Definition no_service : serviceUsage := Build_serviceUsage "" "" "" 0 0 0 0 0.

Definition specUsage (spec : option ServiceSpec) (fallbackReplicas : Z) : serviceUsage :=
  let n := default fallbackReplicas (spec ≫= sp_DesiredReplicaCount) in
  let n := if n <? 0 then 0 else n in
  match (spec ≫= sp_Runtime) with
  | None => no_service <| replicas := n |>
  | Some rt => Build_serviceUsage "" "" "" (wrap64 (rt_CpuMillis rt * n)) (wrap64 (rt_MemoryMebibytes rt * n))
                 (rt_CpuMillis rt) (rt_MemoryMebibytes rt) n
  end.

(** ** The checks *)

Definition checkQuotaDimension (name : string) (current resulting limit : Z) : result error unit :=
  guard_err ((limit <? resulting) && (current <? resulting)) (QuotaExceeded name resulting limit).

(** A limit of zero or less means the dimension has no cap. *)
Definition capped (limit : Z) (check : result error unit) : result error unit := if 0 <? limit then check else Ok tt.

Definition add64 (a b : Z) : Z := wrap64 (a + b).

(** The totals [ValidateServiceQuotaTx] accumulates over the services. *)
Definition total (f : serviceUsage -> Z) (l : list serviceUsage) : Z := foldl (fun n u => add64 n (f u)) 0 l.

(** The last service with this identity, or the zero value. *)
Definition replaced_in (id : string) (l : list serviceUsage) : serviceUsage :=
  foldl (fun r u => if str_eqb (serviceID u) id then u else r) no_service l.

Definition check_service (quota : Quota) (usages : list serviceUsage) (environment project replaceServiceID : string)
    (spec : option ServiceSpec) : result error unit :=
  let currentCPU := total cpuMillis usages in
  let currentMem := total memoryMebis usages in
  let envCount := countb (fun u => str_eqb (environmentID u) environment) usages in
  let projectCount := countb (fun u => str_eqb (projectID u) project) usages in
  let replaced := replaced_in replaceServiceID usages in
  let candidate := specUsage spec (replicas replaced) in
  let create := str_eqb replaceServiceID "" in
  let resultingCPU := wrap64 (currentCPU - cpuMillis replaced + cpuMillis candidate) in
  let resultingMem := wrap64 (currentMem - memoryMebis replaced + memoryMebis candidate) in
  let resultingEnvCount := if create then envCount + 1 else envCount in
  let resultingProjectCount := if create then projectCount + 1 else projectCount in
  _ ← capped (MaxCPUMillisPerService quota)
        (checkQuotaDimension "CPU for this service" (cpuPerReplica replaced) (cpuPerReplica candidate) (MaxCPUMillisPerService quota));
  _ ← capped (MaxMemoryMebibytesPerService quota)
        (checkQuotaDimension "memory for this service" (memPerReplica replaced) (memPerReplica candidate) (MaxMemoryMebibytesPerService quota));
  _ ← checkQuotaDimension "workspace CPU" currentCPU resultingCPU (MaxCPUMillis quota);
  _ ← checkQuotaDimension "workspace memory" currentMem resultingMem (MaxMemoryMebibytes quota);
  _ ← checkQuotaDimension "services in this environment" envCount resultingEnvCount (MaxServicesPerEnvironment quota);
  _ ← capped (MaxServicesPerProject quota)
        (checkQuotaDimension "services in this project" projectCount resultingProjectCount (MaxServicesPerProject quota));
  checkQuotaDimension "replicas for this service" (replicas replaced) (replicas candidate) (MaxReplicasPerService quota).

(** [accountPlanTx]: no plan for a workspace without an account or with an unknown plan. *)
Definition accountPlanTx (s : state) (workspaceID : string) : option (Account * Plan) :=
  match accountByWorkspace s workspaceID with
  | Ok a => (fun p => (a, p)) <$> plan_of (acPlan a)
  | Err _ => None
  end.

Section Quotas.
(** [protojson.Unmarshal] of a stored specification. *)
Variable parse : string -> option ServiceSpec.

(** Live services of a workspace with their current revision. *)
Definition workspace_services (t : tables) (workspaceID : string) : list (services_row * string * service_revisions_row) :=
  s ← List.filter (fun s => is_null (s_deleted_at s)) (services t);
  e ← List.filter (fun e => str_eqb (env_ID (e_row e)) (s_environment_id s) && is_null (e_deleted_at e)) (environments t);
  p ← List.filter (fun p => str_eqb (p_id p) (env_ProjectID (e_row e)) && is_null (p_deleted_at p) &&
                            bool_decide (p_workspace_id p = Some workspaceID)) (projects t);
  map (fun r => (s, env_ProjectID (e_row e), r))
    (List.filter (fun r => str_eqb (sr_service_id r) (s_id s) && (sr_spec_revision r =? s_current_spec_revision s)) (service_revisions t)).

Fixpoint usages_of (rows : list (services_row * string * service_revisions_row)) : result error (list serviceUsage) :=
  match rows with
  | [] => Ok []
  | (s, project, r) :: rows =>
      match parse (sr_spec_json r) with
      | None => Err SpecUnreadable
      | Some spec =>
          let usage := specUsage (Some spec) (s_desired_replica_count s) in
          rest ← usages_of rows;
          Ok ((usage <| serviceID := s_id s |> <| environmentID := s_environment_id s |> <| projectID := project |>) :: rest)
      end
  end.

Definition workspaceServiceUsagesTx (t : tables) (workspaceID : string) : result error (list serviceUsage) :=
  usages_of (workspace_services t workspaceID).

(** [SELECT p.workspace_id, p.id FROM environments e JOIN projects p ...] *)
Definition environment_project (t : tables) (environment : string) : list projects_row :=
  e ← with_key (fun e => env_ID (e_row e)) environment (environments t); with_key p_id (env_ProjectID (e_row e)) (projects t).

Definition ValidateServiceQuotaTx (enforce : bool) (s : state) (environment replaceServiceID : string) (spec : option ServiceSpec)
    : result error unit :=
  if negb enforce then Ok tt
  else match environment_project (catalog (directory s)) environment with
       | [] => Err NoRows
       | p :: _ =>
           let w := default "" (p_workspace_id p) in
           if str_eqb w "" then Ok tt
           else match accountPlanTx s w with
                | None => Ok tt
                | Some (_, plan) =>
                    usages ← workspaceServiceUsagesTx (catalog (directory s)) w;
                    check_service (plQuota plan) usages environment (p_id p) replaceServiceID spec
                end
       end.
End Quotas.

Definition ValidateProjectQuotaTx (enforce : bool) (s : state) (workspaceID : string) : result error unit :=
  if negb enforce || str_eqb workspaceID "" then Ok tt
  else match accountPlanTx s workspaceID with
       | None => Ok tt
       | Some (_, plan) =>
           let current := countb (fun p => bool_decide (p_workspace_id p = Some workspaceID) && is_null (p_deleted_at p))
                            (projects (catalog (directory s))) in
           checkQuotaDimension "projects in this workspace" current (current + 1) (MaxProjects (plQuota plan))
       end.

Definition TrialWorkspacesPerUser : Z := 1.

(** Memberships as admin in workspaces without an account or on the trial plan. *)
Definition free_workspaces (s : state) (userID : string) : Z :=
  sumZ (fun m =>
    sumZ (fun w =>
      match List.filter (fun a => str_eqb (acWorkspace a) (w_id w)) (dbAccounts (billing s)) with
      | [] => 1
      | accounts => countb (fun a => str_eqb (acPlan a) PlanTrial) accounts
      end) (with_key w_id (m_workspace_id m) (workspaces (directory s))))
    (List.filter (fun m => str_eqb (m_user_id m) userID && str_eqb (m_role m) RoleAdmin) (workspace_memberships (directory s))).

Definition ValidateWorkspaceCreateTx (enforce : bool) (s : state) (userID : string) : result error unit :=
  if negb enforce || str_eqb userID "" then Ok tt
  else guard_err (TrialWorkspacesPerUser <=? free_workspaces s userID)
         (QuotaExceeded "free workspaces for this user" (free_workspaces s userID + 1) TrialWorkspacesPerUser).

Definition workspaceVolumeBytesTx (t : tables) (workspaceID : string) : Z :=
  sumZ v_size_bytes (List.filter (fun v =>
    is_null (v_deleted_at v) &&
    existsb (fun e => str_eqb (env_ID (e_row e)) (v_environment_id v) && is_null (e_deleted_at e) &&
      existsb (fun p => str_eqb (p_id p) (env_ProjectID (e_row e)) && is_null (p_deleted_at p) &&
                        bool_decide (p_workspace_id p = Some workspaceID)) (projects t)) (environments t)) (volumes t)).

Definition checkVolumeQuotaTx (s : state) (workspaceID : string) (deltaBytes : Z) : result error unit :=
  match accountPlanTx s workspaceID with
  | None => Ok tt
  | Some (_, plan) =>
      let current := workspaceVolumeBytesTx (catalog (directory s)) workspaceID in
      checkQuotaDimension "workspace volume storage" current (add64 current deltaBytes) (MaxVolumeBytes (plQuota plan))
  end.

Definition ValidateVolumeCreateTx (enforce : bool) (s : state) (workspaceID : string) (sizeBytes : Z) : result error unit :=
  if negb enforce || str_eqb workspaceID "" then Ok tt else checkVolumeQuotaTx s workspaceID sizeBytes.

Definition volume_project (t : tables) (volume : string) : list (Z * projects_row) :=
  v ← with_key v_id volume (volumes t);
  map (fun p => (v_size_bytes v, p)) (environment_project t (v_environment_id v)).

Definition ValidateVolumeGrowTx (enforce : bool) (s : state) (volume : string) (newSizeBytes : Z) : result error unit :=
  if negb enforce then Ok tt
  else match volume_project (catalog (directory s)) volume with
       | [] => Err NoRows
       | (currentSize, p) :: _ =>
           let w := default "" (p_workspace_id p) in
           if str_eqb w "" then Ok tt else checkVolumeQuotaTx s w (wrap64 (newSizeBytes - currentSize))
       end.

(** Rows of [build_runs]. *)
Record build_run := { br_service : string; br_state : string; br_started : option time; br_finished : option time }.

Definition BuildMinutesWindow : duration := 30 * 24 * hour.

Definition service_project (t : tables) (service : string) : list projects_row :=
  s ← with_key s_id service (services t); environment_project t (s_environment_id s).

Definition builds_of (t : tables) (workspaceID : string) (runs : list build_run) : list build_run :=
  List.filter (fun b => existsb (fun p => bool_decide (p_workspace_id p = Some workspaceID)) (service_project t (br_service b))) runs.

(** The reason a build may not start now; sums of times are exact. *)
Definition BuildClaimBlockedTx (s : state) (runs : list build_run) (service : string) (now : time) : result error (option string) :=
  match service_project (catalog (directory s)) service with
  | [] => Err NoRows
  | p :: _ =>
      let w := default "" (p_workspace_id p) in
      if str_eqb w "" then Ok None
      else match accountPlanTx s w with
           | None => Ok None
           | Some (_, plan) =>
               let quota := plQuota plan in
               let mine := builds_of (catalog (directory s)) w runs in
               if (0 <? MaxConcurrentBuilds quota) && (MaxConcurrentBuilds quota <=? countb (fun b => str_eqb (br_state b) "running") mine)
               then Ok (Some "build concurrency limit reached for this workspace")
               else
                 let spent := sumZ (fun b => match br_started b with
                                             | Some t => if now - BuildMinutesWindow <=? t then default now (br_finished b) - t else 0
                                             | None => 0
                                             end) mine in
                 if (0 <? MaxBuildMinutes30Days quota) && (MaxBuildMinutes30Days quota * minute <=? spent)
                 then Ok (Some "build minutes limit reached for this workspace") else Ok None
           end
  end.

Definition CheckCustomDomainAllowed (s : state) (service : string) : result error unit :=
  match service_project (catalog (directory s)) service with
  | [] => Err NoRows
  | p :: _ =>
      let w := default "" (p_workspace_id p) in
      if str_eqb w "" then Ok tt
      else match accountByWorkspace s w with
           | Err _ => Ok tt
           | Ok account => guard_err (str_eqb (acPlan account) PlanTrial && negb (acPaymentReady account)) DomainsBlocked
           end
  end.

(** ** Changes to a workspace *)

Inductive change : Type :=
| CreateService (id environment project : string) (spec : option ServiceSpec)
| UpdateService (id : string) (spec : option ServiceSpec)
| RemoveService (id : string).

Definition named (id environment project : string) (u : serviceUsage) : serviceUsage :=
  u <| serviceID := id |> <| environmentID := environment |> <| projectID := project |>.

Definition updated (spec : option ServiceSpec) (u : serviceUsage) : serviceUsage :=
  named (serviceID u) (environmentID u) (projectID u) (specUsage spec (replicas u)).

(** Whether the quota lets a change through: removals are never checked. *)
Definition accepted (quota : Quota) (usages : list serviceUsage) (c : change) : Prop :=
  match c with
  | CreateService id environment project spec =>
      id <> "" /\ id ∉ map serviceID usages /\ check_service quota usages environment project "" spec = Ok tt
  | UpdateService id spec =>
      exists u, u ∈ usages /\ serviceID u = id /\ check_service quota usages (environmentID u) (projectID u) id spec = Ok tt
  | RemoveService _ => True
  end.

Definition change_usages (usages : list serviceUsage) (c : change) : list serviceUsage :=
  match c with
  | CreateService id environment project spec => usages ++ [named id environment project (specUsage spec 0)]
  | UpdateService id spec => map (fun u => if str_eqb (serviceID u) id then updated spec u else u) usages
  | RemoveService id => List.filter (fun u => negb (str_eqb (serviceID u) id)) usages
  end.

(** Resources and limits far enough from the end of [int64]. *)
Definition moderate_spec (spec : option ServiceSpec) : Prop :=
  forall n, 0 <= n -> let n := default n (spec ≫= sp_DesiredReplicaCount) in
    match (spec ≫= sp_Runtime) with
    | None => True
    | Some rt => 0 <= rt_CpuMillis rt /\ 0 <= rt_MemoryMebibytes rt /\
                 rt_CpuMillis rt * Z.max 0 n < 2 ^ 62 /\ rt_MemoryMebibytes rt * Z.max 0 n < 2 ^ 62
    end.
Definition moderate (c : change) : Prop :=
  match c with CreateService _ _ _ spec | UpdateService _ spec => moderate_spec spec | RemoveService _ => True end.
Definition quota_small (quota : Quota) : Prop :=
  0 <= MaxCPUMillis quota < 2 ^ 62 /\ 0 <= MaxMemoryMebibytes quota < 2 ^ 62 /\ 0 <= MaxServicesPerEnvironment quota /\
  0 <= MaxReplicasPerService quota.

(** The services of a workspace after changes that the check let through, under
    one plan and without restores or moves. *)
Inductive run (quota : Quota) : list serviceUsage -> Prop :=
| run_empty : run quota []
| run_change usages c : run quota usages -> accepted quota usages c -> moderate c -> run quota (change_usages usages c).

(** The limits of the plan on services, over what they add up to. *)
Record within (quota : Quota) (usages : list serviceUsage) : Prop := {
  wi_cpu : sumZ cpuMillis usages <= MaxCPUMillis quota;
  wi_memory : sumZ memoryMebis usages <= MaxMemoryMebibytes quota;
  wi_environment : forall e, countb (fun u => str_eqb (environmentID u) e) usages <= MaxServicesPerEnvironment quota;
  wi_project : 0 < MaxServicesPerProject quota -> forall p, countb (fun u => str_eqb (projectID u) p) usages <= MaxServicesPerProject quota;
  wi_replicas : forall u, u ∈ usages -> replicas u <= MaxReplicasPerService quota;
  wi_cpu_each : 0 < MaxCPUMillisPerService quota -> forall u, u ∈ usages -> cpuPerReplica u <= MaxCPUMillisPerService quota;
  wi_memory_each : 0 < MaxMemoryMebibytesPerService quota -> forall u, u ∈ usages -> memPerReplica u <= MaxMemoryMebibytesPerService quota
}.

(** What the rows of a workspace look like. *)
Record usages_ok (usages : list serviceUsage) : Prop := {
  uo_ids : NoDup (map serviceID usages);
  uo_named : forall u, u ∈ usages -> serviceID u <> "";
  uo_sane : forall u, u ∈ usages -> 0 <= cpuMillis u /\ 0 <= memoryMebis u /\ 0 <= replicas u
}.

Lemma total_exact f l : (forall u, u ∈ l -> 0 <= f u) -> sumZ f l < 2 ^ 63 -> total f l = sumZ f l.
Proof.
  intros Hf Hs. unfold total. enough (H : forall acc, 0 <= acc -> acc + sumZ f l < 2 ^ 63 ->
    foldl (fun n u => add64 n (f u)) acc l = acc + sumZ f l) by (rewrite H; lia).
  clear Hs. induction l as [|u l IH]; intros acc Ha Hs; cbn [foldl]; [unfold sumZ; cbn; lia|].
  change (sumZ f (u :: l)) with (f u + sumZ f l) in *.
  pose proof (Hf u ltac:(constructor)). assert (Hl : forall v, v ∈ l -> 0 <= f v) by (intros v Hv; apply Hf; by constructor).
  pose proof (sumZ_nonneg f l Hl). unfold add64. rewrite wrap64_small by (unfold in_int64; lia). rewrite IH; [lia|done|lia|lia].
Qed.

Lemma replaced_in_none id l : id ∉ map serviceID l -> replaced_in id l = no_service.
Proof.
  unfold replaced_in. generalize no_service as r. induction l as [|u l IH]; intros r Hn; [done|]. cbn in *.
  destruct (str_eqb (serviceID u) id) eqn:E; [apply str_eqb_eq in E; set_solver|]. apply IH. set_solver.
Qed.

Lemma replaced_in_one l u : NoDup (map serviceID l) -> u ∈ l -> replaced_in (serviceID u) l = u.
Proof.
  unfold replaced_in. generalize no_service as r. induction l as [|v l IH]; intros r Hn Hu; [by apply elem_of_nil in Hu|]. cbn in *.
  apply NoDup_cons in Hn as [Hv Hn]. apply elem_of_cons in Hu as [->|Hu].
  - rewrite (proj2 (str_eqb_eq _ _) eq_refl). clear IH.
    assert (Hno : forall l r', serviceID v ∉ map serviceID l ->
      foldl (fun r u => if str_eqb (serviceID u) (serviceID v) then u else r) r' l = r').
    { clear. induction l as [|x l IH]; intros r Hx; [done|]. cbn in *.
      destruct (str_eqb (serviceID x) (serviceID v)) eqn:E; [apply str_eqb_eq in E; set_solver|]. apply IH. set_solver. }
    by apply Hno.
  - destruct (str_eqb (serviceID v) (serviceID u)) eqn:E; by apply IH.
Qed.

Lemma specUsage_sane spec n : 0 <= n -> moderate_spec spec ->
  0 <= cpuMillis (specUsage spec n) < 2 ^ 62 /\ 0 <= memoryMebis (specUsage spec n) < 2 ^ 62 /\ 0 <= replicas (specUsage spec n).
Proof.
  intros Hn Hm. specialize (Hm n Hn). unfold specUsage. cbn zeta in Hm. set (k := default n (spec ≫= sp_DesiredReplicaCount)) in *.
  assert (Hk : (if k <? 0 then 0 else k) = Z.max 0 k) by (destruct (k <? 0) eqn:E; bool_to_prop; lia). rewrite Hk.
  destruct (spec ≫= sp_Runtime) as [rt|]; cbn; [|lia].
  destruct Hm as (H1 & H2 & H3 & H4). rewrite !wrap64_small by (unfold in_int64; nia). nia.
Qed.

Lemma checked name current resulting limit : checkQuotaDimension name current resulting limit = Ok tt <-> resulting <= Z.max limit current.
Proof.
  unfold checkQuotaDimension. rewrite guard_err_ok. destruct (limit <? resulting) eqn:E1, (current <? resulting) eqn:E2; bool_to_prop; cbn; split; intros; try done; try lia.
Qed.

Lemma capped_ok limit r : capped limit r = Ok tt <-> (0 < limit -> r = Ok tt).
Proof. unfold capped. destruct (0 <? limit) eqn:E; bool_to_prop; split; try done; [intros H; by apply H|lia]. Qed.

(** What an accepted check says, dimension by dimension. *)
Lemma check_service_ok quota usages e p id spec :
  check_service quota usages e p id spec = Ok tt ->
  let replaced := replaced_in id usages in
  let candidate := specUsage spec (replicas replaced) in
  let bump := if str_eqb id "" then 1 else 0 in
  wrap64 (total cpuMillis usages - cpuMillis replaced + cpuMillis candidate) <= Z.max (MaxCPUMillis quota) (total cpuMillis usages) /\
  wrap64 (total memoryMebis usages - memoryMebis replaced + memoryMebis candidate) <=
    Z.max (MaxMemoryMebibytes quota) (total memoryMebis usages) /\
  countb (fun u => str_eqb (environmentID u) e) usages + bump <=
    Z.max (MaxServicesPerEnvironment quota) (countb (fun u => str_eqb (environmentID u) e) usages) /\
  (0 < MaxServicesPerProject quota -> countb (fun u => str_eqb (projectID u) p) usages + bump <=
    Z.max (MaxServicesPerProject quota) (countb (fun u => str_eqb (projectID u) p) usages)) /\
  replicas candidate <= Z.max (MaxReplicasPerService quota) (replicas replaced) /\
  (0 < MaxCPUMillisPerService quota -> cpuPerReplica candidate <= Z.max (MaxCPUMillisPerService quota) (cpuPerReplica replaced)) /\
  (0 < MaxMemoryMebibytesPerService quota -> memPerReplica candidate <= Z.max (MaxMemoryMebibytesPerService quota) (memPerReplica replaced)).
Proof.
  unfold check_service. intros H.
  apply bind_ok in H as ([] & H1 & H). apply bind_ok in H as ([] & H2 & H). apply bind_ok in H as ([] & H3 & H).
  apply bind_ok in H as ([] & H4 & H). apply bind_ok in H as ([] & H5 & H). apply bind_ok in H as ([] & H6 & H7).
  rewrite capped_ok in H1, H2, H6. rewrite checked in H1, H2, H3, H4, H5, H6, H7. cbn zeta.
  split; [exact H3|]. split; [exact H4|]. split; [destruct (str_eqb id ""); lia|].
  split; [intros Hp; specialize (H6 Hp); destruct (str_eqb id ""); lia|]. split; [exact H7|]. split; [exact H1|exact H2].
Qed.

Lemma sum_same (f : serviceUsage -> Z) h l : (forall x, x ∈ l -> h x = x) -> sumZ f (map h l) = sumZ f l.
Proof.
  intros H. replace (map h l) with l; [done|]. induction l as [|u l IH]; [done|]. cbn. rewrite H by constructor.
  f_equal. apply IH. intros x Hx. apply H. by constructor.
Qed.

Lemma sum_replace (f : serviceUsage -> Z) g l u : NoDup (map serviceID l) -> u ∈ l ->
  sumZ f (map (fun x => if str_eqb (serviceID x) (serviceID u) then g x else x) l) = sumZ f l - f u + f (g u).
Proof.
  induction l as [|v l IH]; intros Hn Hu; [by apply elem_of_nil in Hu|]. cbn [map] in *. apply NoDup_cons in Hn as [Hv Hn].
  change (sumZ f (v :: l)) with (f v + sumZ f l).
  match goal with |- sumZ f (?a :: ?b) = _ => change (sumZ f (a :: b)) with (f a + sumZ f b) end.
  apply elem_of_cons in Hu as [->|Hu].
  - rewrite (proj2 (str_eqb_eq _ _) eq_refl). rewrite (sum_same f (fun x => if str_eqb (serviceID x) (serviceID v) then g x else x)); [lia|].
    intros x Hx. destruct (str_eqb (serviceID x) (serviceID v)) eqn:E; [|done]. apply str_eqb_eq in E. destruct Hv. rewrite <- E.
    by apply list_elem_of_fmap_2.
  - destruct (str_eqb (serviceID v) (serviceID u)) eqn:E; [apply str_eqb_eq in E; destruct Hv; rewrite E; by apply list_elem_of_fmap_2|].
    rewrite IH by done. lia.
Qed.

Lemma count_replace p g id l : (forall u, p (g u) = p u) ->
  countb p (map (fun x => if str_eqb (serviceID x) id then g x else x) l) = countb p l.
Proof.
  intros H. unfold countb. induction l as [|u l IH]; [done|]. cbn [map]. unfold sumZ in *. cbn [foldr]. rewrite IH.
  destruct (str_eqb (serviceID u) id); [by rewrite H|done].
Qed.

Lemma sum_filter_le (f : serviceUsage -> Z) p l : (forall u, u ∈ l -> 0 <= f u) -> sumZ f (List.filter p l) <= sumZ f l.
Proof.
  intros H. induction l as [|u l IH]; [done|]. cbn [List.filter]. change (sumZ f (u :: l)) with (f u + sumZ f l).
  pose proof (H u ltac:(constructor)). assert (IH' : sumZ f (List.filter p l) <= sumZ f l) by (apply IH; intros v Hv; apply H; by constructor).
  destruct (p u); [change (sumZ f (u :: List.filter p l)) with (f u + sumZ f (List.filter p l))|]; lia.
Qed.

Lemma in_replaced g id l v : v ∈ map (fun x => if str_eqb (serviceID x) id then g x else x) l ->
  v ∈ l \/ exists u, u ∈ l /\ serviceID u = id /\ v = g u.
Proof.
  intros (u & -> & Hu)%list_elem_of_fmap. destruct (str_eqb (serviceID u) id) eqn:E; [|by left]. apply str_eqb_eq in E. eauto.
Qed.

Lemma create_ok quota usages id e p spec :
  quota_small quota -> usages_ok usages -> within quota usages -> moderate_spec spec ->
  accepted quota usages (CreateService id e p spec) ->
  usages_ok (change_usages usages (CreateService id e p spec)) /\ within quota (change_usages usages (CreateService id e p spec)).
Proof.
  intros (Q1 & Q2 & Q3 & Q4) [O1 O2 O3] [W1 W2 W3 W4 W5 W6 W7] Hm (Hid & Hnew & Hc). cbn [change_usages].
  assert (Hr : replaced_in "" usages = no_service).
  { apply replaced_in_none. intros Hin. apply list_elem_of_fmap in Hin as (u & E & Hu). by apply (O2 u Hu). }
  apply check_service_ok in Hc. cbn zeta in Hc. rewrite Hr in Hc. cbn [replicas no_service cpuMillis memoryMebis cpuPerReplica memPerReplica] in Hc.
  destruct (specUsage_sane spec 0 ltac:(lia) Hm) as (S1 & S2 & S3). set (c := specUsage spec 0) in *.
  rewrite !total_exact in Hc by (lia || (intros u Hu; by apply O3)).
  assert (0 <= sumZ cpuMillis usages /\ 0 <= sumZ memoryMebis usages) as [? ?] by (split; apply sumZ_nonneg; intros u Hu; by apply O3).
  rewrite !wrap64_small in Hc by (unfold in_int64; lia). change (str_eqb "" "") with true in Hc. cbn iota in Hc.
  destruct Hc as (C1 & C2 & C3 & C4 & C5 & C6 & C7).
  assert (Hlast : forall P : serviceUsage -> Prop, (forall u, u ∈ usages -> P u) -> P (named id e p c) -> forall u, u ∈ usages ++ [named id e p c] -> P u).
  { intros P H1 H2 u [Hu|Hu]%elem_of_app; [by apply H1|]. by apply list_elem_of_singleton in Hu as ->. }
  split; [split|split].
  - rewrite map_app. apply NoDup_app. split; [done|]. split; [cbn; set_solver|apply NoDup_singleton].
  - by apply (Hlast (fun u => serviceID u <> "")).
  - apply (Hlast (fun u => 0 <= cpuMillis u /\ 0 <= memoryMebis u /\ 0 <= replicas u)); [done|]. cbn. lia.
  - rewrite sumZ_app. unfold sumZ at 2. cbn. lia.
  - rewrite sumZ_app. unfold sumZ at 2. cbn. lia.
  - intros e'. rewrite countb_app. unfold countb at 2, sumZ. cbn. destruct (str_eqb e e') eqn:E; [apply str_eqb_eq in E as <-|]; [lia|].
    specialize (W3 e'). lia.
  - intros Hp p'. rewrite countb_app. unfold countb at 2, sumZ. cbn. specialize (C4 Hp).
    destruct (str_eqb p p') eqn:E; [apply str_eqb_eq in E as <-|]; [specialize (W4 Hp p); lia|]. specialize (W4 Hp p'). lia.
  - apply (Hlast (fun u => replicas u <= MaxReplicasPerService quota)); [done|]. cbn. lia.
  - intros Hp. apply (Hlast (fun u => cpuPerReplica u <= MaxCPUMillisPerService quota)); [auto|]. specialize (C6 Hp). cbn. lia.
  - intros Hp. apply (Hlast (fun u => memPerReplica u <= MaxMemoryMebibytesPerService quota)); [auto|]. specialize (C7 Hp). cbn. lia.
Qed.

Lemma update_service_ok quota usages id spec :
  quota_small quota -> usages_ok usages -> within quota usages -> moderate_spec spec ->
  accepted quota usages (UpdateService id spec) ->
  usages_ok (change_usages usages (UpdateService id spec)) /\ within quota (change_usages usages (UpdateService id spec)).
Proof.
  intros (Q1 & Q2 & Q3 & Q4) [O1 O2 O3] [W1 W2 W3 W4 W5 W6 W7] Hm (u & Hu & <- & Hc). cbn [change_usages].
  apply check_service_ok in Hc. cbn zeta in Hc. rewrite (replaced_in_one _ _ O1 Hu) in Hc.
  destruct (O3 u Hu) as (U1 & U2 & U3). destruct (specUsage_sane spec (replicas u) U3 Hm) as (S1 & S2 & S3).
  rewrite !total_exact in Hc by (lia || (intros v Hv; by apply O3)).
  assert (Hge : forall f : serviceUsage -> Z, (forall v, v ∈ usages -> 0 <= f v) -> 0 <= f u <= sumZ f usages).
  { intros f Hf. split; [by apply Hf|]. clear -Hf Hu. induction usages as [|v l IH]; [by apply elem_of_nil in Hu|].
    change (sumZ f (v :: l)) with (f v + sumZ f l). pose proof (Hf v ltac:(constructor)).
    assert (Hl : forall x, x ∈ l -> 0 <= f x) by (intros x Hx; apply Hf; by constructor). pose proof (sumZ_nonneg f l Hl).
    apply elem_of_cons in Hu as [->|Hu]; [lia|]. specialize (IH Hu Hl). lia. }
  pose proof (Hge cpuMillis (fun v Hv => proj1 (O3 v Hv))). pose proof (Hge memoryMebis (fun v Hv => proj1 (proj2 (O3 v Hv)))).
  rewrite !wrap64_small in Hc by (unfold in_int64; lia).
  assert (str_eqb (serviceID u) "" = false) as Eid by (apply not_true_iff_false; rewrite str_eqb_eq; by apply O2). rewrite Eid in Hc.
  destruct Hc as (C1 & C2 & C3 & C4 & C5 & C6 & C7).
  assert (Hall : forall P : serviceUsage -> Prop, (forall v, v ∈ usages -> P v) -> P (updated spec u) ->
    forall v, v ∈ map (fun x => if str_eqb (serviceID x) (serviceID u) then updated spec x else x) usages -> P v).
  { intros P H1 H2 v [Hv|(x & Hx & E & ->)]%in_replaced; [by apply H1|].
    by rewrite (NoDup_map_eq serviceID usages x u O1 Hx Hu E). }
  split; [split|split].
  - rewrite map_map. rewrite (map_ext _ serviceID); [done|]. intros x. by destruct (str_eqb (serviceID x) (serviceID u)).
  - apply (Hall (fun v => serviceID v <> "")); [done|]. exact (O2 u Hu).
  - apply (Hall (fun v => 0 <= cpuMillis v /\ 0 <= memoryMebis v /\ 0 <= replicas v)); [done|]. cbn. lia.
  - rewrite sum_replace by done. cbn. lia.
  - rewrite sum_replace by done. cbn. lia.
  - intros e. rewrite count_replace by done. apply W3.
  - intros Hp p. rewrite count_replace by done. by apply W4.
  - apply (Hall (fun v => replicas v <= MaxReplicasPerService quota)); [done|]. specialize (W5 u Hu). cbn. lia.
  - intros Hp. apply (Hall (fun v => cpuPerReplica v <= MaxCPUMillisPerService quota)); [auto|]. specialize (W6 Hp u Hu). specialize (C6 Hp). cbn. lia.
  - intros Hp. apply (Hall (fun v => memPerReplica v <= MaxMemoryMebibytesPerService quota)); [auto|]. specialize (W7 Hp u Hu). specialize (C7 Hp). cbn. lia.
Qed.

Lemma remove_ok quota usages id :
  usages_ok usages -> within quota usages ->
  usages_ok (change_usages usages (RemoveService id)) /\ within quota (change_usages usages (RemoveService id)).
Proof.
  intros [O1 O2 O3] [W1 W2 W3 W4 W5 W6 W7]. cbn [change_usages].
  assert (Hin : forall u, u ∈ List.filter (fun u => negb (str_eqb (serviceID u) id)) usages -> u ∈ usages).
  { intros u. rewrite !list_elem_of_In, filter_In. by intros [? _]. }
  assert (Hle : forall f : serviceUsage -> Z, (forall v, v ∈ usages -> 0 <= f v) ->
    sumZ f (List.filter (fun u => negb (str_eqb (serviceID u) id)) usages) <= sumZ f usages) by (intros; by apply sum_filter_le).
  split; [split|split]; auto.
  - clear -O1. induction usages as [|u l IH]; [done|]. cbn in *. apply NoDup_cons in O1 as [Hu Hn].
    destruct (negb _); [|by apply IH]. cbn. apply NoDup_cons. split; [|by apply IH]. contradict Hu.
    apply list_elem_of_fmap in Hu as (x & E & Hx). rewrite E. apply list_elem_of_fmap_2. rewrite list_elem_of_In, filter_In in Hx.
    destruct Hx as [Hx _]. by apply list_elem_of_In.
  - etransitivity; [apply Hle; intros v Hv; by apply O3|done].
  - etransitivity; [apply Hle; intros v Hv; by apply O3|done].
  - intros e. etransitivity; [apply Hle; intros v _; by destruct (str_eqb _ _)|apply W3].
  - intros Hp p. etransitivity; [apply Hle; intros v _; by destruct (str_eqb _ _)|by apply W4].
Qed.

Lemma run_ok quota usages : quota_small quota -> run quota usages -> usages_ok usages /\ within quota usages.
Proof.
  intros Hq. induction 1 as [|usages c _ [IH1 IH2] Ha Hm].
  - split; [split; [constructor|..]; by intros u ?%elem_of_nil|]. destruct Hq as (? & ? & ? & ?).
    split; try (unfold sumZ; cbn; lia); try (by intros u ?%elem_of_nil); try (by intros _ u ?%elem_of_nil);
      intros; unfold countb, sumZ; cbn; lia.
  - destruct c as [id e p spec|id spec|id]; [by apply create_ok|by apply update_service_ok|by apply remove_ok].
Qed.


(** ** Examples *)

Definition trial_quota : Quota := mkQuota 3000 1536 1000 512 3 3 1 1 (Z.shiftl 512 20) 1 300.
Definition small_spec : option ServiceSpec := Some (Build_ServiceSpec (Some 1) (Some (Build_ServiceRuntime 500 256))).

Lemma trial_quota_small : quota_small trial_quota.
Proof. unfold quota_small, trial_quota; cbn. lia. Qed.

Lemma small_spec_run : run trial_quota (change_usages [] (CreateService "s" "e" "p" small_spec)).
Proof.
  apply run_change; [apply run_empty| |].
  - split; [done|]. split; [set_solver|]. vm_compute. reflexivity.
  - intros n Hn. cbn. lia.
Qed.


(** *** Overflow *)

Definition hobby_state (svcs : list services_row) (revs : list service_revisions_row) : state := {|
  billing := no_billing <| dbAccounts :=
    [mkAccount "acct" "w" "" "EUR" PlanHobby "" AccountActive (civil_of at0) None None None true at0 at0] |>;
  directory := demo_directory <| catalog := demo_tables <| services := svcs |> <| service_revisions := revs |> |>;
  trial_grants := []; user_profiles := []; notices := []
|}.

Definition huge_spec : ServiceSpec := Build_ServiceSpec (Some 2) (Some (Build_ServiceRuntime (2 ^ 62) 256)).
Definition large_spec : ServiceSpec := Build_ServiceSpec (Some 10) (Some (Build_ServiceRuntime 1000000 256)).
Definition demo_parse (raw : string) : option ServiceSpec := if str_eqb raw "huge" then Some huge_spec else None.

Definition with_huge : state :=
  hobby_state [Build_services_row "a" "e" "a" 1 2 at0 at0 None] [Build_service_revisions_row "a" 1 "huge" None None at0].

(** A quota can be passed by overflow.  On a plan without a limit per
    service, a specification of two replicas with a huge processor request is
    valid and passes the check, because their product wraps to a negative
    number; with that service stored, a request of a thousand times the
    workspace limit passes too, although it is refused without it. *)
Theorem quota_overflow_bypass :
  validateServiceSpecResources (Some huge_spec) = Ok tt /\
  ValidateServiceQuotaTx demo_parse true (hobby_state [] []) "e" "" (Some huge_spec) = Ok tt /\
  ValidateServiceQuotaTx demo_parse true with_huge "e" "" (Some large_spec) = Ok tt /\
  ValidateServiceQuotaTx demo_parse true (hobby_state [] []) "e" "" (Some large_spec) = Err (QuotaExceeded "workspace CPU" 10000000 8000).
Proof. split; [|split; [|split]]; vm_compute; reflexivity. Qed.

End Quotas.
