(* ===== verification/Workspaces.v ===== *)
(** * Workspaces

    [internal/controlplane/workspaces.go]: workspaces, their members and
    invitations, and moving projects between them.  Scopes are minted on the
    shared database handle before the transaction runs, so every handler takes
    two states: the [view] its scope was minted on and the state its
    transaction works on.  The system lets any earlier state be the view.
    [net/mail] and the letters outside ASCII are parameters. *)

From S2P Require Import Prelude GoText DurableWork Billing ClosePeriod Journal Product Authz Accounts Quotas.

Module Workspaces.
Import Product Authz Accounts.

Inductive error : Type :=
| WorkspaceNameRequired
| WorkspaceNameTooLong
| PersonalWorkspace
| LastWorkspaceAdmin
| WorkspaceHasProjects
| InvalidInvitationEmail
| InvitationNotFound
| WorkspaceMemberMissing
| ConfirmationMismatch
| ProjectDeleted
| ProjectNameTaken
| Authz (e : Authz.error)
| Quota (e : Quotas.error)
| NoRows
| Constraint.

Definition authorized {A} (r : result Authz.error A) : result error A := match r with Ok a => Ok a | Err e => Err (Authz e) end.
Definition quota {A} (r : result Quotas.error A) : result error A := match r with Ok a => Ok a | Err e => Err (Quota e) end.

Definition personalWorkspaceName : string := "My Projects".
Definition maxWorkspaceNameLength : Z := 64.

Record workspaceRecord := { wr_ID : string; wr_Name : string; wr_Personal : bool; wr_CreatedAt : time; wr_Role : Role }.
Record workspaceMemberRecord := { mr_UserID : string; mr_Role : Role; mr_JoinedAt : time }.
Record workspaceInvitationRecord := { ir_ID : string; ir_WorkspaceID : string; ir_WorkspaceName : string; ir_Email : string;
  ir_Role : Role; ir_InvitedByUserID : string; ir_CreatedAt : time }.

Definition normalizeWorkspaceName (name : string) : result error string :=
  let name := TrimSpace name in
  if str_eqb name "" then Err WorkspaceNameRequired
  else if maxWorkspaceNameLength <? rune_count name then Err WorkspaceNameTooLong
  else Ok name.

(** ** Tables *)

Definition set_directory (s : state) (d : Authz.db) : state := s <| directory := d |>.
Definition is_personal (w : workspaces_row) : bool := match w_personal_user_id w with Some _ => true | None => false end.

Definition workspace_row (d : Authz.db) (id : string) : option workspaces_row :=
  List.find (fun w => str_eqb (w_id w) id) (workspaces d).
Definition at_key (workspaceID userID : string) (m : membership_row) : bool :=
  str_eqb (m_workspace_id m) workspaceID && str_eqb (m_user_id m) userID.
Definition membership (d : Authz.db) (workspaceID userID : string) : option membership_row :=
  List.find (at_key workspaceID userID) (workspace_memberships d).

Definition valid_role (r : Role) : bool := is_ok (ParseRole r).

(** Inserts under the keys, checks and references of the schema. *)
Definition insert_workspace (d : Authz.db) (w : workspaces_row) : result error Authz.db :=
  _ ← guard_err (existsb (fun x => str_eqb (w_id x) (w_id w)) (workspaces d)) Constraint;
  Ok (d <| workspaces := workspaces d ++ [w] |>).
Definition insert_membership (d : Authz.db) (m : membership_row) : result error Authz.db :=
  _ ← guard_err (match membership d (m_workspace_id m) (m_user_id m) with Some _ => true | None => false end) Constraint;
  _ ← guard_err (negb (valid_role (m_role m))) Constraint;
  _ ← guard_err (match workspace_row d (m_workspace_id m) with None => true | Some _ => false end) Constraint;
  Ok (d <| workspace_memberships := workspace_memberships d ++ [m] |>).
(** [... ON CONFLICT (workspace_id, user_id) DO NOTHING] *)
Definition ensure_membership (d : Authz.db) (m : membership_row) : result error Authz.db :=
  match membership d (m_workspace_id m) (m_user_id m) with Some _ => Ok d | None => insert_membership d m end.

(** [DELETE FROM workspaces] with its cascades and the projects that refer to it. *)
Definition delete_workspace (d : Authz.db) (id : string) : result error Authz.db :=
  _ ← guard_err (existsb (fun p => bool_decide (p_workspace_id p = Some id)) (projects (catalog d))) Constraint;
  Ok (d <| workspaces := List.filter (fun w => negb (str_eqb (w_id w) id)) (workspaces d) |>
        <| workspace_memberships := List.filter (fun m => negb (str_eqb (m_workspace_id m) id)) (workspace_memberships d) |>
        <| workspace_invitations := List.filter (fun i => negb (str_eqb (i_workspace_id i) id)) (workspace_invitations d) |>).

Definition with_directory {A} (s : state) (r : result error (Authz.db * A)) : state * result error A :=
  match r with Ok (d, a) => (set_directory s d, Ok a) | Err e => (s, Err e) end.

Section Workspaces.
Variable stamp : time -> time.
Variable unicode_lower : string -> string.
(** [mail.ParseAddress]: the address of a mailbox, if it is one. *)
Variable parse_address : string -> option string.

Definition NormalizeEmail (email : string) : string := ToLower unicode_lower (TrimSpace email).

Definition normalizeInvitationEmail (email : string) : result error string :=
  let email := NormalizeEmail email in
  match parse_address email with
  | None => Err InvalidInvitationEmail
  | Some address => if negb (str_eqb address email) || (254 <? Z.of_nat (String.length email)) then Err InvalidInvitationEmail else Ok email
  end.

(** ** The personal workspace *)

Definition ensurePersonalWorkspaceQuerier (uuid userID : string) (now : time) (d : Authz.db) : result error (Authz.db * workspaceRecord) :=
  d ← (if existsb (fun w => bool_decide (w_personal_user_id w = Some userID)) (workspaces d) then Ok d
       else insert_workspace d (Build_workspaces_row uuid personalWorkspaceName (Some userID) (stamp now)));
  match List.find (fun w => bool_decide (w_personal_user_id w = Some userID)) (workspaces d) with
  | None => Err NoRows
  | Some w =>
      d ← ensure_membership d (Build_membership_row (w_id w) userID RoleAdmin (stamp now));
      Ok (d, Build_workspaceRecord (w_id w) (w_name w) true (w_created_at w) RoleAdmin)
  end.

(** The GitHub claim of an assertion: the user and the account's creation time. *)
Definition syncGitHubProfileTx (delegated : option (string * Z)) (userID : string) (now : time) (s : state) : state :=
  match delegated with
  | None => s
  | Some (u, seconds) =>
      if negb (str_eqb u userID) then s
      else
        let created := if 0 <? seconds then Some (unix_epoch + seconds * second) else None in
        match List.find (fun p => str_eqb (up_user p) userID) (user_profiles s) with
        | None => s <| user_profiles := user_profiles s ++ [Build_user_profile userID created now] |>
        | Some p =>
            if bool_decide (up_github_created_at p = created) then s
            else s <| user_profiles := map (fun p => if str_eqb (up_user p) userID then Build_user_profile userID created now else p)
                        (user_profiles s) |>
        end
  end.

Definition ensurePersonalWorkspace (uuid : string) (delegated : option (string * Z)) (user : User) (now dbnow : time) (s : state)
    : state * result error workspaceRecord :=
  match ensurePersonalWorkspaceQuerier uuid (user_id user) now (directory s) with
  | Ok (d, rec) => (syncGitHubProfileTx delegated (user_id user) dbnow (set_directory s d), Ok rec)
  | Err e => (s, Err e)
  end.

(** ** Reading *)

Definition invitation_leb (a b : workspaceInvitationRecord) : bool :=
  if ir_CreatedAt a =? ir_CreatedAt b then String.leb (ir_ID a) (ir_ID b) else ir_CreatedAt a <? ir_CreatedAt b.

Definition queryInvitations (d : Authz.db) (where_ : invitation_row -> bool) : list workspaceInvitationRecord :=
  isort invitation_leb
    (i ← List.filter where_ (workspace_invitations d);
     map (fun w => Build_workspaceInvitationRecord (i_id i) (i_workspace_id i) (w_name w) (i_email i) (i_role i)
                     (i_invited_by_user_id i) (i_created_at i)) (with_key w_id (i_workspace_id i) (workspaces d))).

(** [ORDER BY w.personal_user_id IS NULL, w.created_at, w.id] *)
Definition record_leb (a b : workspaceRecord) : bool :=
  if Bool.eqb (wr_Personal a) (wr_Personal b) then
    if wr_CreatedAt a =? wr_CreatedAt b then String.leb (wr_ID a) (wr_ID b) else wr_CreatedAt a <? wr_CreatedAt b
  else wr_Personal a.

(** [listWorkspaces] after [ensurePersonalWorkspace]. *)
Definition listWorkspaces (d : Authz.db) (user : User) (email : string) : list workspaceRecord * list workspaceInvitationRecord :=
  (isort record_leb
     (w ← workspaces d;
      map (fun m => Build_workspaceRecord (w_id w) (w_name w) (is_personal w) (w_created_at w) (m_role m))
        (List.filter (at_key (w_id w) (user_id user)) (workspace_memberships d))),
   if str_eqb email "" then [] else queryInvitations d (fun i => str_eqb (i_email i) email)).

Definition workspaceByScopeQuerier (d : Authz.db) (scope : Authz.Workspace) : result error workspaceRecord :=
  match workspace_row d (ws_id scope) with
  | None => Err NoRows
  | Some w => Ok (Build_workspaceRecord (w_id w) (w_name w) (is_personal w) (w_created_at w) (ws_role scope))
  end.

Definition workspaceByID (user : User) (workspaceID : string) (d : Authz.db) : result error workspaceRecord :=
  scope ← authorized (AuthorizeWorkspace d user workspaceID Read);
  workspaceByScopeQuerier d scope.

Definition member_leb (a b : workspaceMemberRecord) : bool :=
  if mr_JoinedAt a =? mr_JoinedAt b then String.leb (mr_UserID a) (mr_UserID b) else mr_JoinedAt a <? mr_JoinedAt b.

Definition listWorkspaceMembers (user : User) (workspaceID : string) (d : Authz.db)
    : result error (list workspaceMemberRecord * list workspaceInvitationRecord) :=
  scope ← authorized (AuthorizeWorkspace d user workspaceID Read);
  Ok (isort member_leb (map (fun m => Build_workspaceMemberRecord (m_user_id m) (m_role m) (m_created_at m))
        (List.filter (fun m => str_eqb (m_workspace_id m) (ws_id scope)) (workspace_memberships d))),
      queryInvitations d (fun i => str_eqb (i_workspace_id i) (ws_id scope))).

(** ** Changing workspaces *)

Definition createWorkspace (enforce : bool) (uuid : string) (now : time) (user : User) (name : string) (s : state)
    : state * result error workspaceRecord :=
  with_directory s (
    name ← normalizeWorkspaceName name;
    _ ← quota (Quotas.ValidateWorkspaceCreateTx enforce s (user_id user));
    d ← insert_workspace (directory s) (Build_workspaces_row uuid name None (stamp now));
    d ← insert_membership d (Build_membership_row uuid (user_id user) RoleAdmin (stamp now));
    Ok (d, Build_workspaceRecord uuid name false now RoleAdmin)).

Definition renameWorkspace (user : User) (workspaceID name : string) (view s : state) : state * result error workspaceRecord :=
  with_directory s (
    name ← normalizeWorkspaceName name;
    scope ← authorized (AuthorizeWorkspace (directory view) user workspaceID Manage);
    let d := (directory s) <| workspaces := map (fun w =>
               if str_eqb (w_id w) (ws_id scope)
               then Build_workspaces_row (w_id w) name (w_personal_user_id w) (w_created_at w) else w) (workspaces (directory s)) |> in
    rec ← workspaceByScopeQuerier d scope;
    Ok (d, rec)).

Definition lockWorkspaceTx (d : Authz.db) (workspaceID : string) : result error (string * bool) :=
  match workspace_row d workspaceID with Some w => Ok (w_name w, is_personal w) | None => Err NoRows end.

Definition CheckDeletionConfirmation (current confirmation : string) : result error unit :=
  guard_err (str_eqb current "" || negb (str_eqb (TrimSpace confirmation) current)) ConfirmationMismatch.

(** A deleted project of a deleted workspace loses both workspace and grace. *)
Definition forfeit (workspaceID : string) (dbnow : time) (p : projects_row) : projects_row :=
  if bool_decide (p_workspace_id p = Some workspaceID)
  then Build_projects_row (p_id p) (p_name p) (p_kind p) (p_system_key p) None (p_created_at p) (p_deleted_at p)
         (p_deleted_by_user_id p)
         (Some (match p_delete_expires_at p with Some e => Z.min e dbnow | None => dbnow end))
  else p.

Definition deleteWorkspace (dbnow : time) (user : User) (workspaceID confirmation : string) (view s : state) : state * result error unit :=
  with_directory s (
    scope ← authorized (AuthorizeWorkspace (directory view) user workspaceID Manage);
    let d := directory s in
    locked ← lockWorkspaceTx d (ws_id scope);
    _ ← guard_err locked.2 PersonalWorkspace;
    _ ← CheckDeletionConfirmation locked.1 confirmation;
    let mine := List.filter (fun p => bool_decide (p_workspace_id p = Some (ws_id scope))) (projects (catalog d)) in
    _ ← guard_err (existsb (fun p => is_null (p_deleted_at p)) mine) WorkspaceHasProjects;
    let d := d <| catalog := (catalog d) <| projects := map (forfeit (ws_id scope) dbnow) (projects (catalog d)) |> |> in
    d ← delete_workspace d (ws_id scope);
    Ok (d, tt)).

(** ** Invitations *)

Definition inviteWorkspaceMember (uuid : string) (now : time) (user : User) (workspaceID email : string) (role : Role) (view s : state)
    : state * result error workspaceInvitationRecord :=
  with_directory s (
    email ← normalizeInvitationEmail email;
    scope ← authorized (AuthorizeWorkspace (directory view) user workspaceID Manage);
    let d := directory s in
    locked ← lockWorkspaceTx d (ws_id scope);
    _ ← guard_err locked.2 PersonalWorkspace;
    _ ← guard_err (negb (valid_role role)) Constraint;
    let row := Build_invitation_row uuid (ws_id scope) email role (user_id user) (stamp now) in
    match List.find (fun i => str_eqb (i_workspace_id i) (ws_id scope) && str_eqb (i_email i) email) (workspace_invitations d) with
    | Some old =>
        Ok (d <| workspace_invitations := map (fun i =>
                   if str_eqb (i_workspace_id i) (ws_id scope) && str_eqb (i_email i) email
                   then Build_invitation_row (i_id i) (i_workspace_id i) (i_email i) role (user_id user) (stamp now) else i)
                   (workspace_invitations d) |>,
            Build_workspaceInvitationRecord (i_id old) (ws_id scope) locked.1 email role (user_id user) (stamp now))
    | None =>
        _ ← guard_err (existsb (fun i => str_eqb (i_id i) uuid) (workspace_invitations d)) Constraint;
        Ok (d <| workspace_invitations := workspace_invitations d ++ [row] |>,
            Build_workspaceInvitationRecord uuid (ws_id scope) locked.1 email role (user_id user) (stamp now))
    end).

Definition revokeWorkspaceInvitation (user : User) (invitationID : string) (view s : state) : state * result error unit :=
  with_directory s (
    i ← (match List.find (fun i => str_eqb (i_id i) invitationID) (workspace_invitations (directory view)) with
         | None => Err InvitationNotFound
         | Some i => Ok i
         end);
    scope ← authorized (AuthorizeWorkspace (directory view) user (i_workspace_id i) Manage);
    Ok ((directory s) <| workspace_invitations :=
          List.filter (fun i => negb (str_eqb (i_id i) invitationID && str_eqb (i_workspace_id i) (ws_id scope)))
            (workspace_invitations (directory s)) |>, tt)).

Definition addressed (invitationID email : string) (i : invitation_row) : bool := str_eqb (i_id i) invitationID && str_eqb (i_email i) email.

(** The transaction of [acceptWorkspaceInvitation]; the reply reads the
    workspace afterwards. *)
Definition acceptWorkspaceInvitation (now : time) (user : User) (email invitationID : string) (s : state)
    : state * result error workspaceRecord :=
  if str_eqb email "" then (s, Err InvitationNotFound)
  else
    match (let d := directory s in
           i ← (match List.find (addressed invitationID email) (workspace_invitations d) with
                | None => Err InvitationNotFound
                | Some i => Ok i
                end);
           let d := d <| workspace_invitations := List.filter (fun i => negb (addressed invitationID email i)) (workspace_invitations d) |> in
           d ← ensure_membership d (Build_membership_row (i_workspace_id i) (user_id user) (i_role i) (stamp now));
           Ok (d, i_workspace_id i)) with
    | Err e => (s, Err e)
    | Ok (d, workspaceID) => (set_directory s d, workspaceByID user workspaceID d)
    end.

Definition declineWorkspaceInvitation (email invitationID : string) (s : state) : state * result error unit :=
  with_directory s (
    _ ← guard_err (str_eqb email "") InvitationNotFound;
    let d := directory s in
    _ ← guard_err (negb (existsb (addressed invitationID email) (workspace_invitations d))) InvitationNotFound;
    Ok (d <| workspace_invitations := List.filter (fun i => negb (addressed invitationID email i)) (workspace_invitations d) |>, tt)).

(** ** Members *)

Definition admins (d : Authz.db) (workspaceID : string) : Z :=
  countb (fun m => str_eqb (m_workspace_id m) workspaceID && str_eqb (m_role m) RoleAdmin) (workspace_memberships d).

Definition changeMembershipTx (d : Authz.db) (workspaceID memberUserID : string) (next : option Role)
    : result error (Authz.db * workspaceMemberRecord) :=
  _ ← lockWorkspaceTx d workspaceID;
  match membership d workspaceID memberUserID with
  | None => Err WorkspaceMemberMissing
  | Some m =>
      _ ← guard_err (str_eqb (m_role m) RoleAdmin && negb (bool_decide (next = Some RoleAdmin)) && (admins d workspaceID <=? 1))
            LastWorkspaceAdmin;
      match next with
      | None =>
          Ok (d <| workspace_memberships := List.filter (fun m => negb (at_key workspaceID memberUserID m)) (workspace_memberships d) |>,
              Build_workspaceMemberRecord memberUserID "" (m_created_at m))
      | Some role =>
          _ ← guard_err (negb (valid_role role)) Constraint;
          Ok (d <| workspace_memberships := map (fun m =>
                     if at_key workspaceID memberUserID m
                     then Build_membership_row (m_workspace_id m) (m_user_id m) role (m_created_at m) else m) (workspace_memberships d) |>,
              Build_workspaceMemberRecord memberUserID role (m_created_at m))
      end
  end.

Definition updateWorkspaceMemberRole (user : User) (workspaceID memberUserID : string) (role : Role) (view s : state)
    : state * result error workspaceMemberRecord :=
  with_directory s (
    scope ← authorized (AuthorizeWorkspace (directory view) user workspaceID Manage);
    changeMembershipTx (directory s) (ws_id scope) memberUserID (Some role)).

Definition removeWorkspaceMember (user : User) (workspaceID memberUserID : string) (view s : state) : state * result error unit :=
  let need := if str_eqb memberUserID (user_id user) then Read else Manage in
  with_directory s (
    scope ← authorized (AuthorizeWorkspace (directory view) user workspaceID need);
    r ← changeMembershipTx (directory s) (ws_id scope) memberUserID None;
    Ok (r.1, tt)).

(** ** Moving projects *)

Definition moveProject (enforce : bool) (user : User) (projectID workspaceID : string) (view s : state) : state * result error projects_row :=
  with_directory s (
    scope ← authorized (AuthorizeProject (directory view) user projectID Read);
    project ← (match List.find (fun p => str_eqb (p_id p) (pr_id scope) && str_eqb (p_kind p) UserProjectKind) (projects (catalog (directory view))) with
               | None => Err NoRows
               | Some p => Ok p
               end);
    _ ← guard_err (negb (is_null (p_deleted_at project))) ProjectDeleted;
    let from := default "" (p_workspace_id project) in
    _ ← authorized (AuthorizeWorkspace (directory view) user from Manage);
    target ← authorized (AuthorizeWorkspace (directory view) user workspaceID Write);
    if str_eqb from (ws_id target) then Ok (directory s, project)
    else
      let d := directory s in
      _ ← guard_err (existsb (fun p => bool_decide (p_workspace_id p = Some (ws_id target)) && str_eqb (p_name p) (p_name project) &&
                                       str_eqb (p_kind p) UserProjectKind) (projects (catalog d))) ProjectNameTaken;
      _ ← quota (Quotas.ValidateProjectQuotaTx enforce s (ws_id target));
      let hit p := str_eqb (p_id p) (p_id project) && bool_decide (p_workspace_id p = Some from) in
      _ ← guard_err (existsb hit (projects (catalog d)) &&
                     match workspace_row d (ws_id target) with None => true | Some _ => false end) Constraint;
      let moved := map (fun p =>
            if hit p
            then Build_projects_row (p_id p) (p_name p) (p_kind p) (p_system_key p) (Some (ws_id target)) (p_created_at p)
                   (p_deleted_at p) (p_deleted_by_user_id p) (p_delete_expires_at p) else p) (projects (catalog d)) in
      let d := d <| catalog := (catalog d) <| projects := moved |> |> in
      match List.find (fun p => str_eqb (p_id p) (p_id project)) (projects (catalog d)) with
      | None => Err NoRows
      | Some p => Ok (d, p)
      end).

(** ** Requests *)

Inductive request : Type :=
| EnsurePersonal (uuid : string) (delegated : option (string * Z)) (user : User) (now dbnow : time)
| Create (enforce : bool) (uuid : string) (now : time) (user : User) (name : string)
| Rename (user : User) (workspaceID name : string)
| Delete (dbnow : time) (user : User) (workspaceID confirmation : string)
| Invite (uuid : string) (now : time) (user : User) (workspaceID email : string) (role : Role)
| Revoke (user : User) (invitationID : string)
| Accept (now : time) (user : User) (email invitationID : string)
| Decline (email invitationID : string)
| UpdateRole (user : User) (workspaceID memberUserID : string) (role : Role)
| RemoveMember (user : User) (workspaceID memberUserID : string)
| Move (enforce : bool) (user : User) (projectID workspaceID : string).

Definition handle (r : request) (view s : state) : state :=
  match r with
  | EnsurePersonal uuid delegated user now dbnow => (ensurePersonalWorkspace uuid delegated user now dbnow s).1
  | Create enforce uuid now user name => (createWorkspace enforce uuid now user name s).1
  | Rename user w name => (renameWorkspace user w name view s).1
  | Delete dbnow user w confirmation => (deleteWorkspace dbnow user w confirmation view s).1
  | Invite uuid now user w email role => (inviteWorkspaceMember uuid now user w email role view s).1
  | Revoke user i => (revokeWorkspaceInvitation user i view s).1
  | Accept now user email i => (acceptWorkspaceInvitation now user email i s).1
  | Decline email i => (declineWorkspaceInvitation email i s).1
  | UpdateRole user w member role => (updateWorkspaceMemberRole user w member role view s).1
  | RemoveMember user w member => (removeWorkspaceMember user w member view s).1
  | Move enforce user p w => (moveProject enforce user p w view s).1
  end.

(** States with the ones before them, latest first. *)
Inductive history : list state -> Prop :=
| history_start s : workspaces (directory s) = [] -> workspace_memberships (directory s) = [] ->
    workspace_invitations (directory s) = [] -> history [s]
| history_request s past r view : history (s :: past) -> view ∈ s :: past -> history (handle r view s :: s :: past)
| history_other s past s' : history (s :: past) -> workspaces (directory s') = workspaces (directory s) ->
    workspace_memberships (directory s') = workspace_memberships (directory s) ->
    workspace_invitations (directory s') = workspace_invitations (directory s) -> history (s' :: s :: past).

(** ** The invariant *)

Record ws_ok (d : Authz.db) : Prop := {
  wo_ids : NoDup (map w_id (workspaces d));
  wo_keys : NoDup (map (fun m => (m_workspace_id m, m_user_id m)) (workspace_memberships d));
  wo_member : forall m, m ∈ workspace_memberships d -> m_workspace_id m ∈ map w_id (workspaces d);
  wo_invited : forall i, i ∈ workspace_invitations d ->
    exists w, w ∈ workspaces d /\ w_id w = i_workspace_id i /\ is_personal w = false;
  wo_admin : forall w, w ∈ workspaces d -> 1 <= admins d (w_id w);
  wo_personal : forall w u m, w ∈ workspaces d -> w_personal_user_id w = Some u -> m ∈ workspace_memberships d ->
    m_workspace_id m = w_id w -> m_user_id m = u
}.

Lemma ws_ok_frame d d' : workspaces d' = workspaces d -> workspace_memberships d' = workspace_memberships d ->
  (forall i, i ∈ workspace_invitations d' -> i ∈ workspace_invitations d) -> ws_ok d -> ws_ok d'.
Proof.
  intros E1 E2 E3 [H1 H2 H3 H4 H5 H6]. split; unfold admins; rewrite ?E1, ?E2; try done. intros i Hi. by apply H4, E3.
Qed.

Lemma find_none {A} (p : A -> bool) l : List.find p l = None <-> forall a, a ∈ l -> p a = false.
Proof.
  split; [intros H a Ha; apply (find_none _ _ H); by apply list_elem_of_In|]. intros H. induction l as [|a l IH]; [done|]. cbn.
  rewrite H by constructor. apply IH. intros b Hb. apply H. by constructor.
Qed.

Lemma find_in {A} (p : A -> bool) l a : List.find p l = Some a -> a ∈ l /\ p a = true.
Proof. intros H. apply find_some in H as [Hin Hp]. by apply list_elem_of_In in Hin. Qed.

Lemma membership_some d w u m : membership d w u = Some m -> m ∈ workspace_memberships d /\ m_workspace_id m = w /\ m_user_id m = u.
Proof.
  intros [Hin Hk]%find_in. unfold at_key in Hk. rewrite andb_true_iff, !str_eqb_eq in Hk. by destruct Hk.
Qed.

Lemma membership_none d w u : membership d w u = None <-> forall m, m ∈ workspace_memberships d -> m_workspace_id m = w -> m_user_id m <> u.
Proof.
  unfold membership. rewrite find_none. split.
  - intros H m Hm Hw Hu. specialize (H m Hm). unfold at_key in H. rewrite Hw, Hu, !(proj2 (str_eqb_eq _ _) eq_refl) in H. done.
  - intros H m Hm. unfold at_key. apply andb_false_iff. destruct (str_eqb (m_workspace_id m) w) eqn:E; [right|by left].
    apply str_eqb_eq in E. apply not_true_iff_false. rewrite str_eqb_eq. by apply H.
Qed.

Lemma workspace_row_some d id w : workspace_row d id = Some w -> w ∈ workspaces d /\ w_id w = id.
Proof. intros [Hin Hk]%find_in. by apply str_eqb_eq in Hk. Qed.

Definition is_admin_of (workspaceID : string) (m : membership_row) : bool :=
  str_eqb (m_workspace_id m) workspaceID && str_eqb (m_role m) RoleAdmin.

Lemma admins_app d d' l w : workspace_memberships d' = workspace_memberships d ++ l ->
  admins d' w = admins d w + countb (is_admin_of w) l.
Proof. intros E. unfold admins. rewrite E. exact (countb_app _ _ _). Qed.

Lemma admins_grow d d' l w : workspace_memberships d' = workspace_memberships d ++ l -> admins d w <= admins d' w.
Proof. intros E. rewrite (admins_app _ _ _ _ E). pose proof (countb_nonneg (is_admin_of w) l). lia. Qed.

Lemma admins_some d w : 1 <= admins d w <-> exists m, m ∈ workspace_memberships d /\ m_workspace_id m = w /\ m_role m = RoleAdmin.
Proof.
  split.
  - intros H. destruct (existsb (is_admin_of w) (workspace_memberships d)) eqn:E.
    + apply existsb_exists in E as (m & Hm%list_elem_of_In & Hk). exists m. unfold is_admin_of in Hk.
      rewrite andb_true_iff, !str_eqb_eq in Hk. tauto.
    + assert (H0 : admins d w = 0); [|lia]. apply countb_none. intros m Hm. change (is_admin_of w m = false).
      apply not_true_iff_false. intros Hk. rewrite <- not_true_iff_false in E. apply E, existsb_exists. exists m.
      by rewrite <- list_elem_of_In.
  - intros (m & Hm & Hw & Hr). apply list_elem_of_split in Hm as (l1 & l2 & E). unfold admins. rewrite E, countb_app.
    assert (H : countb (is_admin_of w) (m :: l2) = 1 + countb (is_admin_of w) l2).
    { unfold countb at 1, sumZ. cbn [foldr]. unfold is_admin_of at 1. by rewrite Hw, Hr, !(proj2 (str_eqb_eq _ _) eq_refl). }
    change (1 <= countb (is_admin_of w) l1 + countb (is_admin_of w) (m :: l2)). rewrite H. pose proof (countb_nonneg (is_admin_of w) l1). pose proof (countb_nonneg (is_admin_of w) l2). lia.
Qed.

#[local] Arguments admins : simpl never.

(** A fresh workspace with its first admin. *)
Lemma add_workspace_ok d w u now :
  ws_ok d -> w_id w ∉ map w_id (workspaces d) -> (forall x, w_personal_user_id w = Some x -> x = u) ->
  ws_ok (d <| workspaces := workspaces d ++ [w] |>
           <| workspace_memberships := workspace_memberships d ++ [Build_membership_row (w_id w) u RoleAdmin now] |>).
Proof.
  intros [H1 H2 H3 H4 H5 H6] Hw Hu. set (m := Build_membership_row (w_id w) u RoleAdmin now). split; cbn.
  - rewrite map_app. apply NoDup_app. split; [done|]. split; [cbn; set_solver|apply NoDup_singleton].
  - rewrite map_app. apply NoDup_app. split; [done|]. split; [|apply NoDup_singleton]. intros k Hk Hk2.
    cbn in Hk2. apply list_elem_of_singleton in Hk2 as ->. apply list_elem_of_fmap in Hk as (x & E & Hx). injection E as E _.
    apply Hw. rewrite E. by apply H3.
  - intros x [Hx|Hx]%elem_of_app; rewrite map_app; apply elem_of_app; [left; by apply H3|right].
    apply list_elem_of_singleton in Hx as ->. cbn. set_solver.
  - intros i Hi. destruct (H4 i Hi) as (x & Hx & ? & ?). exists x. split; [set_solver|done].
  - intros x [Hx|Hx]%elem_of_app.
    + specialize (H5 x Hx). etrans; [exact H5|]. apply (admins_grow d _ [m]); reflexivity.
    + apply list_elem_of_singleton in Hx as ->. apply admins_some. exists m. split; [|done]. cbn. set_solver.
  - intros x o y [Hx|Hx]%elem_of_app Ho [Hy|Hy]%elem_of_app E; try apply list_elem_of_singleton in Hx as ->;
      try apply list_elem_of_singleton in Hy as ->; cbn in *.
    + by eapply H6.
    + destruct Hw. rewrite E. by apply list_elem_of_fmap_2.
    + destruct Hw. rewrite <- E. by apply H3.
    + symmetry. by apply Hu.
Qed.

(** A member joins a shared workspace. *)
Lemma add_member_ok d m w :
  ws_ok d -> w ∈ workspaces d -> w_id w = m_workspace_id m -> is_personal w = false -> membership d (m_workspace_id m) (m_user_id m) = None ->
  ws_ok (d <| workspace_memberships := workspace_memberships d ++ [m] |>).
Proof.
  intros [H1 H2 H3 H4 H5 H6] Hw Ew Hp Hn. rewrite membership_none in Hn. split; cbn; try done.
  - rewrite map_app. apply NoDup_app. split; [done|]. split; [|apply NoDup_singleton]. intros k Hk Hk2.
    cbn in Hk2. apply list_elem_of_singleton in Hk2 as ->. apply list_elem_of_fmap in Hk as (x & [= E1 E2] & Hx). by apply (Hn x).
  - intros x [Hx|Hx]%elem_of_app; [by apply H3|]. apply list_elem_of_singleton in Hx as ->. rewrite <- Ew. by apply list_elem_of_fmap_2.
  - intros x Hx. etrans; [exact (H5 x Hx)|]. apply (admins_grow d _ [m]); reflexivity.
  - intros x u y Hx Hu [Hy|Hy]%elem_of_app E; [by eapply H6|]. apply list_elem_of_singleton in Hy as ->.
    assert (x = w) as -> by (apply (NoDup_map_eq w_id (workspaces d)); [done..|congruence]). unfold is_personal in Hp. by rewrite Hu in Hp.
Qed.

(** A personal workspace already has its owner. *)
Lemma personal_member d w u : ws_ok d -> w ∈ workspaces d -> w_personal_user_id w = Some u -> is_Some (membership d (w_id w) u).
Proof.
  intros Hok Hw Hu. destruct (membership d (w_id w) u) as [m|] eqn:E; [by eexists|]. exfalso. rewrite membership_none in E.
  destruct (proj1 (admins_some d (w_id w)) (wo_admin _ Hok w Hw)) as (m & Hm & Em & _).
  apply (E m Hm Em). by eapply (wo_personal _ Hok).
Qed.

Lemma remove_members_ok d (gone : membership_row -> bool) :
  ws_ok d -> (forall w, w ∈ workspaces d -> exists m, m ∈ workspace_memberships d /\ m_workspace_id m = w_id w /\ m_role m = RoleAdmin /\ gone m = false) ->
  ws_ok (d <| workspace_memberships := List.filter (fun m => negb (gone m)) (workspace_memberships d) |>).
Proof.
  intros [H1 H2 H3 H4 H5 H6] Ha.
  assert (Hsub : forall m, m ∈ List.filter (fun m => negb (gone m)) (workspace_memberships d) <-> m ∈ workspace_memberships d /\ gone m = false).
  { intros m. by rewrite !list_elem_of_In, filter_In, negb_true_iff. }
  split; cbn; try done.
  - by apply NoDup_map_filter.
  - intros m [Hm _]%Hsub. by apply H3.
  - intros w Hw. apply admins_some. destruct (Ha w Hw) as (m & Hm & E & R & G). exists m. split; [by apply Hsub|done].
  - intros w u m Hw Hu [Hm _]%Hsub. by eapply H6.
Qed.

Lemma update_members_ok d (f : membership_row -> membership_row) :
  (forall m, m_workspace_id (f m) = m_workspace_id m /\ m_user_id (f m) = m_user_id m) ->
  ws_ok d -> (forall w, w ∈ workspaces d -> exists m, m ∈ workspace_memberships d /\ m_workspace_id m = w_id w /\ m_role (f m) = RoleAdmin) ->
  ws_ok (d <| workspace_memberships := map f (workspace_memberships d) |>).
Proof.
  intros Hf [H1 H2 H3 H4 H5 H6] Ha. split; cbn; try done.
  - rewrite map_map. erewrite map_ext; [exact H2|]. intros m. cbn. by destruct (Hf m) as [-> ->].
  - intros m' (m & -> & Hm)%list_elem_of_fmap. rewrite (proj1 (Hf m)). by apply H3.
  - intros w Hw. apply admins_some. destruct (Ha w Hw) as (m & Hm & E & R). exists (f m).
    split; [by apply list_elem_of_fmap_2|]. by rewrite (proj1 (Hf m)).
  - intros w u m' Hw Hu (m & -> & Hm)%list_elem_of_fmap. rewrite (proj1 (Hf m)), (proj2 (Hf m)). by eapply H6.
Qed.

(** While one membership changes, another administrator remains. *)
Lemma other_admin d workspaceID memberUserID m w :
  ws_ok d -> membership d workspaceID memberUserID = Some m -> (m_role m = RoleAdmin -> 1 < admins d workspaceID) -> w ∈ workspaces d ->
  exists m', m' ∈ workspace_memberships d /\ m_workspace_id m' = w_id w /\ m_role m' = RoleAdmin /\ at_key workspaceID memberUserID m' = false.
Proof.
  intros Hok Hm Hadmin Hw. apply membership_some in Hm as (Hm & Ew & Eu).
  destruct (proj1 (admins_some d (w_id w)) (wo_admin _ Hok w Hw)) as (a & Ha & Wa & Ra).
  destruct (at_key workspaceID memberUserID a) eqn:Hk; [|by exists a].
  unfold at_key in Hk. rewrite andb_true_iff, !str_eqb_eq in Hk. destruct Hk as [Ka Kb].
  assert (a = m) as ->.
  { apply (NoDup_map_eq (fun m => (m_workspace_id m, m_user_id m)) (workspace_memberships d)); [apply (wo_keys _ Hok)|done..|congruence]. }
  specialize (Hadmin Ra). rewrite <- Ka, Wa in *.
  destruct (existsb (fun x => is_admin_of (w_id w) x && negb (at_key (w_id w) memberUserID x)) (workspace_memberships d)) eqn:E.
  - apply existsb_exists in E as (x & Hx%list_elem_of_In & Hk). unfold is_admin_of in Hk.
    rewrite !andb_true_iff, !str_eqb_eq, negb_true_iff in Hk. exists x. tauto.
  - exfalso. assert (admins d (w_id w) = 1); [|lia].
    apply (countb_one (fun m => (m_workspace_id m, m_user_id m)) _ _ m); [apply (wo_keys _ Hok)|done| |].
    + by rewrite Wa, Ra, !(proj2 (str_eqb_eq _ _) eq_refl).
    + intros x Hx Hp. rewrite andb_true_iff, !str_eqb_eq in Hp. destruct Hp as [Wx Rx].
      destruct (at_key (w_id w) memberUserID x) eqn:Kx.
      * unfold at_key in Kx. rewrite andb_true_iff, !str_eqb_eq in Kx. destruct Kx. congruence.
      * rewrite <- not_true_iff_false in E. destruct E. apply existsb_exists. exists x. rewrite <- list_elem_of_In. split; [done|].
        unfold is_admin_of. by rewrite Wx, Rx, Kx, !(proj2 (str_eqb_eq _ _) eq_refl).
Qed.

Lemma changeMembershipTx_ok d workspaceID memberUserID next d' rec :
  ws_ok d -> changeMembershipTx d workspaceID memberUserID next = Ok (d', rec) -> ws_ok d'.
Proof.
  intros Hok. unfold changeMembershipTx. intros (lk & _ & H)%bind_ok.
  destruct (membership d workspaceID memberUserID) as [m|] eqn:Hm; [|done].
  apply bind_ok in H as ([] & Hg%guard_err_ok & H). rewrite !andb_false_iff, negb_false_iff, bool_decide_eq_true, Z.leb_gt in Hg.
  destruct next as [role|].
  - apply bind_ok in H as ([] & _ & [= <- _]). apply update_members_ok; [by intros x; destruct (at_key _ _ x)|done|]. intros w Hw.
    destruct (decide (role = RoleAdmin)) as [->|Hr].
    + destruct (proj1 (admins_some d (w_id w)) (wo_admin _ Hok w Hw)) as (a & Ha & Wa & Ra). exists a. by destruct (at_key _ _ a).
    + destruct (other_admin d workspaceID memberUserID m w) as (x & Hx & Wx & Rx & Kx); [done..| |done|exists x; by rewrite Kx ].
      intros R. destruct Hg as [[Hg|[=]]|Hg]; [|done|done]. by rewrite R in Hg.
  - injection H as <- _. apply remove_members_ok; [done|]. intros w Hw. eapply other_admin; [done..| |done].
    intros R. destruct Hg as [[Hg|[=]]|Hg]; [|done]. by rewrite R in Hg.
Qed.

(** ** What each request changes *)

Lemma with_directory_cases {A} (P : state -> Prop) s (r : result error (Authz.db * A)) :
  P s -> (forall d a, r = Ok (d, a) -> P (set_directory s d)) -> P (with_directory s r).1.
Proof. intros Hs Hr. destruct r as [[d a]|e]; cbn; [by eapply Hr|done]. Qed.

Lemma directory_set s d : directory (set_directory s d) = d.
Proof. done. Qed.

Lemma syncGitHubProfileTx_directory delegated userID now s : directory (syncGitHubProfileTx delegated userID now s) = directory s.
Proof.
  unfold syncGitHubProfileTx. destruct delegated as [[u seconds]|]; [|done]. destruct (negb _); [done|].
  destruct (List.find _ _); [|done]. by destruct (bool_decide _).
Qed.

Lemma insert_workspace_ok d w d' : insert_workspace d w = Ok d' -> w_id w ∉ map w_id (workspaces d) /\ d' = d <| workspaces := workspaces d ++ [w] |>.
Proof.
  unfold insert_workspace. intros ([] & Hg%guard_err_ok & [= <-])%bind_ok. split; [|done]. intros (x & E & Hx)%list_elem_of_fmap.
  rewrite <- not_true_iff_false in Hg. apply Hg, existsb_exists. exists x. rewrite <- list_elem_of_In. split; [done|]. by apply str_eqb_eq.
Qed.

Lemma insert_membership_ok d m d' : insert_membership d m = Ok d' ->
  membership d (m_workspace_id m) (m_user_id m) = None /\ is_Some (workspace_row d (m_workspace_id m)) /\
  d' = d <| workspace_memberships := workspace_memberships d ++ [m] |>.
Proof.
  unfold insert_membership. intros ([] & H1%guard_err_ok & ([] & _ & ([] & H2%guard_err_ok & [= <-])%bind_ok)%bind_ok)%bind_ok.
  destruct (membership d _ _); [done|]. destruct (workspace_row d _) eqn:E; [|done]. split; [done|]. split; [by eexists|done].
Qed.

(** The directory after a personal workspace was ensured. *)
Lemma ensure_personal_cases uuid userID now d d' rec :
  ws_ok d -> ensurePersonalWorkspaceQuerier uuid userID now d = Ok (d', rec) ->
  d' = d \/ (uuid ∉ map w_id (workspaces d) /\
    d' = d <| workspaces := workspaces d ++ [Build_workspaces_row uuid personalWorkspaceName (Some userID) (stamp now)] |>
           <| workspace_memberships := workspace_memberships d ++ [Build_membership_row uuid userID RoleAdmin (stamp now)] |>).
Proof.
  intros Hok. unfold ensurePersonalWorkspaceQuerier. intros (d1 & H1 & H)%bind_ok.
  set (mine := fun w : workspaces_row => bool_decide (w_personal_user_id w = Some userID)) in *.
  destruct (List.find mine (workspaces d1)) as [w|] eqn:F; [|done]. apply bind_ok in H as (d2 & H2 & [= <- _]).
  destruct (existsb mine (workspaces d)) eqn:E.
  - injection H1 as <-. left. apply find_in in F as [Hw Hm]. apply bool_decide_eq_true in Hm.
    destruct (personal_member d w userID) as [m Em]; [done..|]. unfold ensure_membership in H2. cbn in H2. rewrite Em in H2. congruence.
  - right. apply insert_workspace_ok in H1 as [Hfresh ->]. cbn in Hfresh, F. split; [done|].
    assert (w = Build_workspaces_row uuid personalWorkspaceName (Some userID) (stamp now)) as ->.
    { apply find_in in F as [[Hw|Hw]%elem_of_app Hm]; [|by apply list_elem_of_singleton in Hw]. exfalso.
      rewrite <- not_true_iff_false in E. apply E, existsb_exists. exists w. by rewrite <- list_elem_of_In. }
    unfold ensure_membership in H2. destruct (membership _ _ _) as [m|] eqn:Em; cbn in H2.
    + exfalso. apply membership_some in Em as (Hm & Wm & _). apply Hfresh. cbn in Wm. rewrite <- Wm. by apply (wo_member _ Hok).
    + by apply insert_membership_ok in H2 as (_ & _ & ->).
Qed.

Lemma create_cases enforce uuid now user name s d rec :
  (name ← normalizeWorkspaceName name;
   _ ← quota (Quotas.ValidateWorkspaceCreateTx enforce s (user_id user));
   d ← insert_workspace (directory s) (Build_workspaces_row uuid name None (stamp now));
   d ← insert_membership d (Build_membership_row uuid (user_id user) RoleAdmin (stamp now));
   Ok (d, Build_workspaceRecord uuid name false now RoleAdmin)) = Ok (d, rec) ->
  uuid ∉ map w_id (workspaces (directory s)) /\ exists name',
  d = (directory s) <| workspaces := workspaces (directory s) ++ [Build_workspaces_row uuid name' None (stamp now)] |>
        <| workspace_memberships := workspace_memberships (directory s) ++ [Build_membership_row uuid (user_id user) RoleAdmin (stamp now)] |>.
Proof.
  intros (name' & _ & (_ & _ & (d1 & [Hf ->]%insert_workspace_ok & (d2 & (_ & _ & ->)%insert_membership_ok & [= <- _])%bind_ok)%bind_ok)%bind_ok)%bind_ok.
  split; [done|]. by exists name'.
Qed.

Lemma rename_ok d id name :
  ws_ok d -> ws_ok (d <| workspaces := map (fun w =>
    if str_eqb (w_id w) id then Build_workspaces_row (w_id w) name (w_personal_user_id w) (w_created_at w) else w) (workspaces d) |>).
Proof.
  intros [H1 H2 H3 H4 H5 H6].
  set (f := fun w => if str_eqb (w_id w) id then Build_workspaces_row (w_id w) name (w_personal_user_id w) (w_created_at w) else w).
  assert (Hf : forall w, w_id (f w) = w_id w /\ w_personal_user_id (f w) = w_personal_user_id w) by (intros w; unfold f; by destruct (str_eqb _ _)).
  assert (Hids : map w_id (map f (workspaces d)) = map w_id (workspaces d)).
  { rewrite map_map. apply map_ext. intros w. apply Hf. }
  split; cbn; rewrite ?Hids; try done.
  - intros i Hi. destruct (H4 i Hi) as (w & Hw & E & P). exists (f w). split; [by apply list_elem_of_fmap_2|].
    unfold is_personal in *. by rewrite (proj1 (Hf w)), (proj2 (Hf w)).
  - intros w' (w & -> & Hw)%list_elem_of_fmap. rewrite (proj1 (Hf w)). by apply H5.
  - intros w' u m (w & -> & Hw)%list_elem_of_fmap. rewrite (proj1 (Hf w)), (proj2 (Hf w)). by apply H6.
Qed.

Lemma delete_workspace_ok d id d' : ws_ok d -> delete_workspace d id = Ok d' -> ws_ok d'.
Proof.
  intros [H1 H2 H3 H4 H5 H6]. unfold delete_workspace. intros ([] & _ & [= <-])%bind_ok.
  assert (Hsub : forall {A} (key : A -> string) l x, x ∈ List.filter (fun x => negb (str_eqb (key x) id)) l <-> x ∈ l /\ key x <> id).
  { intros A key l x. rewrite !list_elem_of_In, filter_In, negb_true_iff, <- not_true_iff_false, str_eqb_eq. done. }
  split; cbn.
  - by apply NoDup_map_filter.
  - by apply NoDup_map_filter.
  - intros m [Hm Hne]%Hsub. destruct (proj1 (list_elem_of_fmap _ _ _) (H3 m Hm)) as (w & E & Hw). rewrite E.
    apply list_elem_of_fmap_2, Hsub. by rewrite <- E.
  - intros i [Hi Hne]%Hsub. destruct (H4 i Hi) as (w & Hw & E & P). exists w. split; [|done]. apply Hsub. by rewrite E.
  - intros w [Hw Hne]%Hsub. apply admins_some. destruct (proj1 (admins_some d (w_id w)) (H5 w Hw)) as (m & Hm & Wm & R).
    exists m. split; [|done]. apply Hsub. by rewrite Wm.
  - intros w u m [Hw _]%Hsub Hu [Hm _]%Hsub. by eapply H6.
Qed.

Lemma deleteWorkspace_cases dbnow user workspaceID confirmation view s d :
  (scope ← authorized (AuthorizeWorkspace (directory view) user workspaceID Manage);
   let d := directory s in
   locked ← lockWorkspaceTx d (ws_id scope);
   _ ← guard_err locked.2 PersonalWorkspace;
   _ ← CheckDeletionConfirmation locked.1 confirmation;
   let mine := List.filter (fun p => bool_decide (p_workspace_id p = Some (ws_id scope))) (projects (catalog d)) in
   _ ← guard_err (existsb (fun p => is_null (p_deleted_at p)) mine) WorkspaceHasProjects;
   let d := d <| catalog := (catalog d) <| projects := map (forfeit (ws_id scope) dbnow) (projects (catalog d)) |> |> in
   d ← delete_workspace d (ws_id scope);
   Ok (d, tt)) = Ok (d, tt) ->
  exists scope, AuthorizeWorkspace (directory view) user workspaceID Manage = Ok scope /\
    (exists w, workspace_row (directory s) (ws_id scope) = Some w /\ is_personal w = false /\ TrimSpace confirmation = w_name w) /\
    (forall p, p ∈ projects (catalog (directory s)) -> p_workspace_id p = Some (ws_id scope) -> is_null (p_deleted_at p) = false) /\
    delete_workspace ((directory s) <| catalog := (catalog (directory s))
      <| projects := map (forfeit (ws_id scope) dbnow) (projects (catalog (directory s))) |> |>) (ws_id scope) = Ok d.
Proof.
  intros (scope & Hs & (lk & Hl & ([] & Hp%guard_err_ok & ([] & Hc & ([] & Hm%guard_err_ok & (d1 & Hd & [= <-])%bind_ok)%bind_ok)%bind_ok)%bind_ok)%bind_ok)%bind_ok.
  exists scope. split; [by destruct (AuthorizeWorkspace _ _ _ _) as [x|e]; [injection Hs as <-|]|]. split; [|split; [|done]].
  - unfold lockWorkspaceTx in Hl. destruct (workspace_row _ _) as [w|]; [|done]. injection Hl as <-. exists w. cbn in *.
    split; [done|]. split; [done|]. unfold CheckDeletionConfirmation in Hc. apply guard_err_ok in Hc.
    rewrite orb_false_iff, negb_false_iff, str_eqb_eq in Hc. by destruct Hc.
  - intros p Hin Hw. rewrite <- not_true_iff_false in Hm. apply not_true_iff_false. intros Hn. apply Hm, existsb_exists. exists p.
    split; [|done]. apply filter_In. rewrite <- list_elem_of_In. split; [done|]. by apply bool_decide_eq_true.
Qed.

Lemma accept_cases now user email invitationID s :
  (acceptWorkspaceInvitation now user email invitationID s).1 = s \/
  exists i d, i ∈ workspace_invitations (directory s) /\ i_id i = invitationID /\ i_email i = email /\ email <> "" /\
    ensure_membership ((directory s) <| workspace_invitations :=
        List.filter (fun i => negb (addressed invitationID email i)) (workspace_invitations (directory s)) |>)
      (Build_membership_row (i_workspace_id i) (user_id user) (i_role i) (stamp now)) = Ok d /\
    (acceptWorkspaceInvitation now user email invitationID s).1 = set_directory s d.
Proof.
  unfold acceptWorkspaceInvitation. destruct (str_eqb email "") eqn:He; [by left|].
  destruct (List.find _ _) as [i|] eqn:F; cbn [mbind result_bind]; [|by left].
  destruct (ensure_membership _ _) as [d|e] eqn:En; cbn [mbind result_bind]; [|by left]. right. exists i, d.
  apply find_in in F as [Hin Ha]. unfold addressed in Ha. rewrite andb_true_iff, !str_eqb_eq in Ha. destruct Ha as [Hid Hem].
  do 3 (split; [done|]). split; [|split; [exact En|done]]. intros ->. by rewrite (proj2 (str_eqb_eq _ _) eq_refl) in He.
Qed.

Lemma authorized_ok {A} (r : result Authz.error A) a : authorized r = Ok a -> r = Ok a.
Proof. by destruct r; [intros [= <-]|]. Qed.

(** The scope of a request is the membership the view holds. *)
Lemma authorize_workspace_ok d user id need scope : AuthorizeWorkspace d user id need = Ok scope ->
  exists m, membership d id (user_id user) = Some m /\ Allows (m_role m) need = true /\ ws_id scope = id.
Proof.
  unfold AuthorizeWorkspace, membership. intros (_ & _ & (row & Hg & [= <-])%bind_ok)%bind_ok.
  assert (Hf : forall l, head (List.filter (at_key id (user_id user)) l) = List.find (at_key id (user_id user)) l).
  { induction l as [|x l IH]; [done|]. cbn. by destruct (at_key _ _ x). }
  rewrite <- Hf. fold (at_key id (user_id user)) in Hg. destruct (List.filter _ _) as [|m l]; [done|]. cbn in *.
  destruct (Allows (m_role m) need) eqn:E; [|done]. by exists m.
Qed.

Lemma manage_is_admin r : Allows r Manage = true -> r = RoleAdmin.
Proof. unfold Allows, Manage. cbn. apply str_eqb_eq. Qed.

Lemma invite_cases uuid now user workspaceID email role view s :
  let s' := (inviteWorkspaceMember uuid now user workspaceID email role view s).1 in
  s' = s \/
  workspaces (directory s') = workspaces (directory s) /\ workspace_memberships (directory s') = workspace_memberships (directory s) /\
  exists m w, membership (directory view) workspaceID (user_id user) = Some m /\ m_role m = RoleAdmin /\
    workspace_row (directory s) workspaceID = Some w /\ is_personal w = false /\
    forall i, i ∈ workspace_invitations (directory s') -> i ∈ workspace_invitations (directory s) \/
      i_workspace_id i = workspaceID /\ i_invited_by_user_id i = user_id user /\ i_role i = role.
Proof.
  cbn zeta. unfold inviteWorkspaceMember, with_directory.
  destruct (_ ≫= _) as [[d rec]|e] eqn:H; cbn [fst]; [right|by left].
  apply bind_ok in H as (em & _ & (scope & Hs%authorized_ok & (lk & Hl & ([] & Hp%guard_err_ok & ([] & _ & H)%bind_ok)%bind_ok)%bind_ok)%bind_ok).
  apply authorize_workspace_ok in Hs as (m & Hm & R%manage_is_admin & Hid). rewrite Hid in *.
  unfold lockWorkspaceTx in Hl. destruct (workspace_row (directory s) workspaceID) as [w|]; [|done]. injection Hl as <-. cbn in Hp.
  rewrite directory_set. destruct (List.find _ _) as [old|].
  - injection H as <- _. split; [done|]. split; [done|]. exists m, w. do 4 (split; [done|]). cbn. intros i' (i & -> & Hi)%list_elem_of_fmap.
    destruct (_ && _) eqn:K; [right|by left]. rewrite andb_true_iff, !str_eqb_eq in K. cbn. split; [apply K|done].
  - apply bind_ok in H as ([] & _ & [= <- _]). split; [done|]. split; [done|]. exists m, w. do 4 (split; [done|]). cbn.
    intros i [Hi|Hi]%elem_of_app; [by left|right]. apply list_elem_of_singleton in Hi as ->. done.
Qed.

Lemma invite_ok uuid now user workspaceID email role view s :
  ws_ok (directory s) -> ws_ok (directory (inviteWorkspaceMember uuid now user workspaceID email role view s).1).
Proof.
  intros Hok. destruct (invite_cases uuid now user workspaceID email role view s) as [->|(E1 & E2 & m & w & _ & _ & Hw & Hp & Hi)]; [done|].
  destruct Hok as [H1 H2 H3 H4 H5 H6]. split; unfold admins; rewrite ?E1, ?E2; try done. intros i Hin.
  destruct (Hi i Hin) as [Hold|(Ei & _)]; [by apply H4|]. exists w. apply workspace_row_some in Hw as [Hw Ew]. by rewrite Ei.
Qed.

Lemma ensure_membership_cases d m d' : ensure_membership d m = Ok d' ->
  d' = d \/ (membership d (m_workspace_id m) (m_user_id m) = None /\ d' = d <| workspace_memberships := workspace_memberships d ++ [m] |>).
Proof.
  unfold ensure_membership. destruct (membership d _ _) eqn:E; [intros [= <-]; by left|]. intros (_ & _ & ->)%insert_membership_ok. by right.
Qed.

Lemma drop_invitations_ok d (keep : invitation_row -> bool) :
  ws_ok d -> ws_ok (d <| workspace_invitations := List.filter keep (workspace_invitations d) |>).
Proof.
  apply ws_ok_frame; [done..|]. cbn. intros i. rewrite !list_elem_of_In, filter_In. tauto.
Qed.

Lemma accept_ok now user email invitationID s :
  ws_ok (directory s) -> ws_ok (directory (acceptWorkspaceInvitation now user email invitationID s).1).
Proof.
  intros Hok. destruct (accept_cases now user email invitationID s) as [->|(i & d & Hi & _ & _ & _ & He & ->)]; [done|].
  rewrite directory_set. destruct (wo_invited _ Hok i Hi) as (w & Hw & Ew & Pw).
  apply ensure_membership_cases in He as [->|[Hn ->]]; [by apply drop_invitations_ok|].
  eapply add_member_ok; [by apply drop_invitations_ok|exact Hw|done..].
Qed.

Lemma move_frame enforce user projectID workspaceID view s :
  let d := directory (moveProject enforce user projectID workspaceID view s).1 in
  workspaces d = workspaces (directory s) /\ workspace_memberships d = workspace_memberships (directory s) /\
  workspace_invitations d = workspace_invitations (directory s).
Proof.
  cbn zeta. unfold moveProject, with_directory. destruct (_ ≫= _) as [[d rec]|e] eqn:H; [|done].
  apply bind_ok in H as (scope & _ & (p & _ & ([] & _ & (from & _ & (target & _ & H)%bind_ok)%bind_ok)%bind_ok)%bind_ok).
  destruct (str_eqb _ _) in H; [by injection H as <- _|].
  apply bind_ok in H as ([] & _ & ([] & _ & ([] & _ & H)%bind_ok)%bind_ok).
  destruct (List.find _ _) in H; [|done]. by injection H as <- _.
Qed.

Lemma handle_ok r view s : ws_ok (directory s) -> ws_ok (directory (handle r view s)).
Proof.
  intros Hok. destruct r; cbn [handle].
  - unfold ensurePersonalWorkspace. destruct (ensurePersonalWorkspaceQuerier _ _ _ _) as [[d rec]|e] eqn:E; [|done]. cbn [fst].
    rewrite syncGitHubProfileTx_directory, directory_set. apply ensure_personal_cases in E as [->|[Hf ->]]; [done| |done].
    apply (add_workspace_ok _ (Build_workspaces_row _ _ _ _)); [done..|]. by intros x [= <-].
  - apply (with_directory_cases (fun s => ws_ok (directory s))); [done|]. intros d rec (Hf & n & ->)%create_cases.
    by apply (add_workspace_ok _ (Build_workspaces_row _ _ _ _)).
  - apply (with_directory_cases (fun s => ws_ok (directory s))); [done|].
    intros d rec (n & _ & (scope & _ & (rc & _ & [= <- _])%bind_ok)%bind_ok)%bind_ok. by apply rename_ok.
  - apply (with_directory_cases (fun s => ws_ok (directory s))); [done|]. intros d [] (scope & _ & _ & _ & H)%deleteWorkspace_cases.
    rewrite directory_set. eapply delete_workspace_ok; [|exact H]. eapply ws_ok_frame; [..|exact Hok]; [done..|]. cbn. done.
  - by apply invite_ok.
  - apply (with_directory_cases (fun s => ws_ok (directory s))); [done|]. intros d [] (i & _ & (scope & _ & [= <-])%bind_ok)%bind_ok.
    by apply drop_invitations_ok.
  - by apply accept_ok.
  - apply (with_directory_cases (fun s => ws_ok (directory s))); [done|]. intros d [] ([] & _ & ([] & _ & [= <-])%bind_ok)%bind_ok.
    by apply drop_invitations_ok.
  - apply (with_directory_cases (fun s => ws_ok (directory s))); [done|]. intros d rec (scope & _ & H)%bind_ok. by eapply changeMembershipTx_ok.
  - apply (with_directory_cases (fun s => ws_ok (directory s))); [done|]. intros d [] (scope & _ & ([d1 rc] & H & [= <-])%bind_ok)%bind_ok.
    by eapply changeMembershipTx_ok.
  - destruct (move_frame enforce user projectID workspaceID view s) as (E1 & E2 & E3). eapply ws_ok_frame; [exact E1|exact E2| |exact Hok].
    by rewrite E3.
Qed.

Lemma history_ok s past : history (s :: past) -> ws_ok (directory s).
Proof.
  intros H. remember (s :: past) as l eqn:E. revert s past E.
  induction H as [s0 E1 E2 E3|s0 past0 r view H IH Hv|s0 past0 s1 H IH E1 E2 E3]; intros s past [= <- <-].
  - split; unfold admins; rewrite ?E1, ?E2, ?E3; try (cbn; constructor).
    1-3: by intros ? ?%elem_of_nil.
    by intros ? ? ? ?%elem_of_nil.
  - by eapply handle_ok, IH.
  - eapply ws_ok_frame; [exact E1|exact E2| |by eapply IH]. by rewrite E3.
Qed.

(** C25: No workspace is ever left without an administrator, and a personal
    workspace belongs to its owner alone.  In every history of requests, with
    scopes minted on any earlier state, each workspace has a member with the
    admin role, each member's workspace exists, and the members of a personal
    workspace are its owner, as an admin. *)
Theorem workspace_keeps_admin s past w :
  history (s :: past) -> w ∈ workspaces (directory s) ->
  (exists m, m ∈ workspace_memberships (directory s) /\ m_workspace_id m = w_id w /\ m_role m = RoleAdmin) /\
  (forall u, w_personal_user_id w = Some u ->
     exists m, m_user_id m = u /\ m_role m = RoleAdmin /\
       forall x, x ∈ workspace_memberships (directory s) /\ m_workspace_id x = w_id w <-> x = m) /\
  (forall m, m ∈ workspace_memberships (directory s) -> m_workspace_id m ∈ map w_id (workspaces (directory s))).
Proof.
  intros Hok%history_ok Hw. pose proof (proj1 (admins_some _ _) (wo_admin _ Hok w Hw)) as (m & Hm & Wm & R).
  split; [by exists m|]. split; [|apply (wo_member _ Hok)]. intros u Hu.
  exists m. split; [by apply (wo_personal _ Hok w)|]. split; [done|]. intros x. split; [|by intros ->].
  intros [Hx Wx]. apply (NoDup_map_eq (fun m => (m_workspace_id m, m_user_id m)) (workspace_memberships (directory s)));
    [apply (wo_keys _ Hok)|done..|]. by rewrite Wx, Wm, (wo_personal _ Hok w u x), (wo_personal _ Hok w u m).
Qed.

(** ** Who may change a membership *)

Definition role_of (s : state) (workspaceID userID : string) : option Role :=
  option_map m_role (membership (directory s) workspaceID userID).

(** Who sends a request; declining only needs the verified address. *)
Definition sender (r : request) : option string :=
  match r with
  | EnsurePersonal _ _ user _ _ | Create _ _ _ user _ | Rename user _ _ | Delete _ user _ _ | Invite _ _ user _ _ _ | Revoke user _
  | Accept _ user _ _ | UpdateRole user _ _ _ | RemoveMember user _ _ | Move _ user _ _ => Some (user_id user)
  | Decline _ _ => None
  end.

(** Only the key of an added member changes. *)
Lemma membership_added d d' m w u : workspace_memberships d' = workspace_memberships d ++ [m] -> membership d' w u <> membership d w u ->
  membership d w u = None /\ m_workspace_id m = w /\ m_user_id m = u /\ membership d' w u = Some m.
Proof.
  intros E. unfold membership. rewrite E, find_app. destruct (List.find _ _) as [x|]; [done|]. cbn.
  destruct (at_key w u m) eqn:K; [|done]. intros _. unfold at_key in K. rewrite andb_true_iff, !str_eqb_eq in K. by destruct K.
Qed.

Lemma membership_filtered d d' keep w u : workspace_memberships d' = List.filter keep (workspace_memberships d) ->
  membership d' w u <> membership d w u -> exists m, m_workspace_id m = w /\ m_user_id m = u /\ keep m = false.
Proof.
  intros E. unfold membership. rewrite E. clear E. induction (workspace_memberships d) as [|x l IH]; [done|]. cbn.
  destruct (at_key w u x) eqn:K.
  - destruct (keep x) eqn:Kx; cbn; [by rewrite K|]. intros _. exists x. unfold at_key in K.
    rewrite andb_true_iff, !str_eqb_eq in K. by destruct K.
  - destruct (keep x); cbn; rewrite ?K; exact IH.
Qed.

Lemma membership_mapped d d' f w u : workspace_memberships d' = map f (workspace_memberships d) ->
  (forall m, m_workspace_id (f m) = m_workspace_id m /\ m_user_id (f m) = m_user_id m) ->
  membership d' w u = option_map f (membership d w u).
Proof.
  intros E Hf. unfold membership. rewrite E. clear E. induction (workspace_memberships d) as [|x l IH]; [done|]. cbn.
  assert (at_key w u (f x) = at_key w u x) as -> by (unfold at_key; by destruct (Hf x) as [-> ->]). by destruct (at_key w u x).
Qed.

Lemma at_key_refl m : at_key (m_workspace_id m) (m_user_id m) m = true.
Proof. unfold at_key. by rewrite !(proj2 (str_eqb_eq _ _) eq_refl). Qed.

Lemma change_cases d workspaceID memberUserID next d' rec w u :
  changeMembershipTx d workspaceID memberUserID next = Ok (d', rec) ->
  workspace_invitations d' = workspace_invitations d /\
  (membership d' w u <> membership d w u -> w = workspaceID /\ u = memberUserID /\ (next = None -> membership d' w u = None)).
Proof.
  unfold changeMembershipTx. intros (lk & _ & H)%bind_ok. destruct (membership d workspaceID memberUserID) as [m|] eqn:Hm; [|done].
  apply bind_ok in H as ([] & _ & H). destruct next as [role|].
  - apply bind_ok in H as ([] & _ & [= <- _]). split; [done|]. intros Hne.
    erewrite (membership_mapped d) in Hne; [|reflexivity|intros x; cbn; by destruct (at_key workspaceID memberUserID x)].
    destruct (membership d w u) as [x|] eqn:Hx; [|done]. cbn in Hne. destruct (at_key workspaceID memberUserID x) eqn:K; [|done].
    apply membership_some in Hx as (_ & <- & <-). unfold at_key in K. rewrite andb_true_iff, !str_eqb_eq in K. by destruct K.
  - injection H as <- _. split; [done|]. intros Hne.
    apply (membership_filtered d _ (fun m => negb (at_key workspaceID memberUserID m))) in Hne as (x & <- & <- & K); [|reflexivity].
    rewrite negb_false_iff in K. assert (K2 := K). unfold at_key in K. rewrite andb_true_iff, !str_eqb_eq in K. destruct K as [K1 K3].
    split; [done|]. split; [done|]. intros _. apply find_none. cbn. intros y Hy.
    rewrite list_elem_of_In, filter_In in Hy. destruct Hy as [_ Hy]. by rewrite K1, K3, <- negb_true_iff.
Qed.

Definition may_change (r : request) (view s s' : state) (w u : string) : Prop :=
  (exists a, sender r = Some a /\ role_of view w a = Some RoleAdmin) \/
  sender r = Some u /\
  (role_of s' w u = None \/
   (w ∉ map w_id (workspaces (directory s)) /\ role_of s' w u = Some RoleAdmin) \/
   (exists now user i, r = Accept now user (i_email i) (i_id i) /\ i ∈ workspace_invitations (directory s) /\
      i_workspace_id i = w /\ role_of s w u = None /\ role_of s' w u = Some (i_role i))).

(** The workspace a request names, when its sender administers it. *)
Lemma admin_scope d user id scope : AuthorizeWorkspace d user id Manage = Ok scope ->
  ws_id scope = id /\ option_map m_role (membership d id (user_id user)) = Some RoleAdmin.
Proof. intros (m & -> & R%manage_is_admin & ->)%authorize_workspace_ok. split; [done|]. cbn. by rewrite R. Qed.

Lemma handle_authority r view s w u :
  ws_ok (directory s) -> membership (directory (handle r view s)) w u <> membership (directory s) w u ->
  may_change r view s (handle r view s) w u.
Proof.
  intros Hok. destruct r; cbn [handle].
  - unfold ensurePersonalWorkspace. destruct (ensurePersonalWorkspaceQuerier _ _ _ _) as [[d rec]|e] eqn:E; [|done]. cbn [fst].
    rewrite syncGitHubProfileTx_directory, directory_set. apply ensure_personal_cases in E as [->|[Hf ->]]; [done| |done].
    intros Hne. eapply (membership_added (directory s)) in Hne as (_ & <- & <- & Hm); [|reflexivity]. right. split; [done|]. right. left.
    split; [done|]. unfold role_of. rewrite syncGitHubProfileTx_directory, directory_set. by rewrite Hm.
  - unfold createWorkspace, with_directory. destruct (_ ≫= _) as [[d rec]|e] eqn:E; [|done]. cbn [fst].
    apply create_cases in E as (Hf & n & ->). rewrite directory_set.
    intros Hne. eapply (membership_added (directory s)) in Hne as (_ & <- & <- & Hm); [|reflexivity]. right. split; [done|]. right. left.
    split; [done|]. unfold role_of. rewrite directory_set. by rewrite Hm.
  - unfold renameWorkspace, with_directory. destruct (_ ≫= _) as [[d rec]|e] eqn:E; [|done].
    by apply bind_ok in E as (n & _ & (scope & _ & (rc & _ & [= <- _])%bind_ok)%bind_ok).
  - unfold deleteWorkspace, with_directory. destruct (_ ≫= _) as [[d []]|e] eqn:E; [|done]. cbn [fst].
    apply deleteWorkspace_cases in E as (scope & [Hid Ha]%admin_scope & _ & _ & ([] & _ & [= <-])%bind_ok). rewrite Hid.
    rewrite directory_set. intros Hne. left. exists (user_id user). split; [done|]. unfold role_of.
    apply (membership_filtered (directory s) _ (fun m => negb (str_eqb (m_workspace_id m) workspaceID))) in Hne as (x & <- & <- & K);
      [|reflexivity]. rewrite negb_false_iff, str_eqb_eq in K. by rewrite K.
  - destruct (invite_cases uuid now user workspaceID email role view s) as [->|(_ & E & _)]; [done|]. unfold membership. by rewrite E.
  - unfold revokeWorkspaceInvitation, with_directory. destruct (_ ≫= _) as [[d []]|e] eqn:E; [|done].
    by apply bind_ok in E as (i & _ & (scope & _ & [= <-])%bind_ok).
  - destruct (accept_cases now user email invitationID s) as [E|(i & d & Hi & <- & <- & _ & He & E)]; [by rewrite E|]. rewrite E, directory_set.
    apply ensure_membership_cases in He as [->|[Hn ->]]; [done|].
    intros Hne. eapply (membership_added (directory s)) in Hne as (Hold & E1 & E2 & Hm); [|reflexivity]. subst w u. right. split; [done|]. right. right.
    exists now, user, i. split; [done|]. split; [done|]. split; [done|]. apply (f_equal (option_map m_role)) in Hold. apply (f_equal (option_map m_role)) in Hm. split; [exact Hold|exact Hm].
  - unfold declineWorkspaceInvitation, with_directory. destruct (_ ≫= _) as [[d []]|e] eqn:E; [|done].
    by apply bind_ok in E as ([] & _ & ([] & _ & [= <-])%bind_ok).
  - unfold updateWorkspaceMemberRole, with_directory. destruct (_ ≫= _) as [[d rec]|e] eqn:E; [|done]. cbn [fst].
    apply bind_ok in E as (scope & [Hid Ha]%authorized_ok%admin_scope & H). rewrite Hid in H. rewrite directory_set.
    intros Hne. destruct (proj2 (change_cases _ _ _ _ _ _ w u H) Hne) as (-> & _ & _). left. by exists (user_id user).
  - unfold removeWorkspaceMember, with_directory. destruct (_ ≫= _) as [[d []]|e] eqn:E; [|done]. cbn [fst].
    apply bind_ok in E as (scope & Hs%authorized_ok & ([d1 rc] & H & [= <-])%bind_ok). rewrite directory_set. cbn [fst]. intros Hne.
    destruct (str_eqb memberUserID (user_id user)) eqn:Eu.
    + apply str_eqb_eq in Eu as ->. apply (change_cases _ _ _ _ _ _ w u) in H as [_ H]. destruct (H Hne) as (-> & -> & Hnone).
      right. split; [done|]. left. unfold role_of. rewrite directory_set. by rewrite (Hnone eq_refl).
    + apply admin_scope in Hs as [Hid Ha]. rewrite Hid in H. apply (change_cases _ _ _ _ _ _ w u) in H as [_ H].
      destruct (H Hne) as (-> & _ & _). left. by exists (user_id user).
  - destruct (move_frame enforce user projectID workspaceID view s) as (_ & E & _). unfold membership. by rewrite E.
Qed.

(** C6: Memberships and invitations change by right.  When a request changes
    the membership of a user in a workspace, its sender was an admin of that
    workspace in the state its scope was minted on, or is the user themselves:
    leaving, creating the workspace, or accepting an invitation to it that was
    addressed to their verified email, with the role it offers and no membership
    before.  A new or altered invitation names an inviter who sent the request
    and administered the workspace it is for. *)
Theorem membership_changes_authorized r view s past :
  history (s :: past) -> view ∈ s :: past ->
  (forall w u, membership (directory (handle r view s)) w u <> membership (directory s) w u ->
     may_change r view s (handle r view s) w u) /\
  (forall i, i ∈ workspace_invitations (directory (handle r view s)) -> i ∉ workspace_invitations (directory s) ->
     sender r = Some (i_invited_by_user_id i) /\ role_of view (i_workspace_id i) (i_invited_by_user_id i) = Some RoleAdmin).
Proof.
  intros Hok%history_ok _. split; [intros w u; by apply handle_authority|]. intros i Hi Hn.
  assert (Hframe : workspace_invitations (directory (handle r view s)) = workspace_invitations (directory s) -> False) by by intros E; rewrite E in Hi.
  assert (Hdrop : forall d keep, workspace_invitations d = List.filter keep (workspace_invitations (directory s)) ->
    i ∉ workspace_invitations d).
  { intros d keep E. rewrite E, list_elem_of_In, filter_In, <- list_elem_of_In. tauto. }
  destruct r; cbn [handle] in *; unfold ensurePersonalWorkspace, createWorkspace, renameWorkspace, deleteWorkspace, revokeWorkspaceInvitation,
    declineWorkspaceInvitation, updateWorkspaceMemberRole, removeWorkspaceMember, with_directory in *.
  all: try (match goal with H : context [_ ≫= _] |- _ => destruct (_ ≫= _) as [[d []]|e] eqn:E in *; [|by destruct Hframe]; cbn [fst] in * end).
  - destruct (ensurePersonalWorkspaceQuerier _ _ _ _) as [[d rec]|e] eqn:E; [|done]. cbn [fst] in *.
    rewrite syncGitHubProfileTx_directory, directory_set in *. by apply ensure_personal_cases in E as [->|[_ ->]].
  - apply create_cases in E as (_ & n & ->). done.
  - by apply bind_ok in E as (n & _ & (scope & _ & (rc & _ & [= <- _])%bind_ok)%bind_ok).
  - apply deleteWorkspace_cases in E as (scope & _ & _ & _ & ([] & _ & [= <-])%bind_ok). by eapply Hdrop in Hi.
  - destruct (invite_cases uuid now user workspaceID email role view s) as [E|(_ & _ & m & w & Hm & R & _ & _ & Hnew)]; [by rewrite E in Hi|].
    destruct (Hnew i Hi) as [?|(Ew & Ei & _)]; [done|]. cbn. rewrite Ei, Ew. unfold role_of. rewrite Hm. cbn. by rewrite R.
  - apply bind_ok in E as (x & _ & (scope & _ & [= <-])%bind_ok). by eapply Hdrop in Hi.
  - destruct (accept_cases now user email invitationID s) as [E|(x & d & _ & _ & _ & _ & He & E)]; rewrite E in *; [done|].
    rewrite directory_set in *. by apply ensure_membership_cases in He as [->|[_ ->]]; eapply Hdrop in Hi.
  - apply bind_ok in E as ([] & _ & ([] & _ & [= <-])%bind_ok). by eapply Hdrop in Hi.
  - apply bind_ok in E as (scope & _ & H). apply (change_cases _ _ _ _ _ _ "" "") in H as [H _]. by destruct Hframe.
  - apply bind_ok in E as (scope & _ & ([d1 rc] & H & [= <-])%bind_ok). apply (change_cases _ _ _ _ _ _ "" "") in H as [H _]. by destruct Hframe.
  - destruct (move_frame enforce user projectID workspaceID view s) as (_ & _ & E). by destruct Hframe.
Qed.
End Workspaces.

Lemma forfeit_id w now p : p_id (forfeit w now p) = p_id p.
Proof. unfold forfeit. by destruct (bool_decide _). Qed.

Lemma update_project_noop id cond set t :
  (forall q, q ∈ projects t -> p_id q = id -> cond q = false) -> update_project id cond set t = (t, false).
Proof.
  intros H. assert (Hh : forall q, q ∈ projects t -> str_eqb (p_id q) id && cond q = false).
  { intros q Hq. destruct (str_eqb (p_id q) id) eqn:E; [|done]. apply str_eqb_eq in E. by apply H. }
  unfold update_project. f_equal.
  - transitivity (t <| projects := projects t |>); [|by destruct t]. f_equal. rewrite <- (map_id (projects t)) at 2.
    apply map_ext_in. intros q Hq%list_elem_of_In. by rewrite Hh.
  - apply not_true_iff_false. intros (q & Hq%list_elem_of_In & Hc)%existsb_exists. by rewrite Hh in Hc.
Qed.

(** A grant of a project scope rests on a row of the project's workspace. *)
Lemma project_scope_row d u pid need : is_ok (AuthorizeProject d u pid need) = true ->
  exists q w, q ∈ projects (catalog d) /\ p_id q = pid /\ p_workspace_id q = Some w.
Proof.
  intros (sc & (_ & _ & (row & Hg & _)%bind_ok)%bind_ok)%is_ok_true.
  assert (Hrow : row ∈ project_rows d u pid).
  { unfold granted in Hg. destruct (project_rows d u pid) as [|x rows]; [done|]. destruct (Allows x.1 need); [|done].
    injection Hg as ->. constructor. }
  apply project_rows_in in Hrow as (q & m & Hq & Eq & _ & _ & Wq & _). eauto.
Qed.

(** C33: A deleted workspace takes everything with it.  When [deleteWorkspace]
    succeeds the sender administered the shared workspace and confirmed its
    name; no workspace, member or invitation of it is left; its projects had all
    been deleted before, no user can obtain any scope on them, and restoring
    them at any later time changes nothing; projects of other workspaces are as
    they were. *)
Theorem deleted_workspace_is_gone dbnow user workspaceID confirmation view s s' :
  NoDup (map p_id (projects (catalog (directory s)))) ->
  deleteWorkspace dbnow user workspaceID confirmation view s = (s', Ok tt) ->
  role_of view workspaceID (user_id user) = Some RoleAdmin /\
  (exists w, workspace_row (directory s) workspaceID = Some w /\ is_personal w = false /\ TrimSpace confirmation = w_name w) /\
  workspaceID ∉ map w_id (workspaces (directory s')) /\
  (forall m, m ∈ workspace_memberships (directory s') -> m_workspace_id m <> workspaceID) /\
  (forall i, i ∈ workspace_invitations (directory s') -> i_workspace_id i <> workspaceID) /\
  (forall p, p ∈ projects (catalog (directory s)) -> p_workspace_id p = Some workspaceID ->
     is_null (p_deleted_at p) = false /\
     (forall u need, is_ok (AuthorizeProject (directory s') u (p_id p) need) = false) /\
     (forall later, dbnow <= later ->
        clearProjectTombstoneTx (p_id p) later (catalog (directory s')) = (catalog (directory s'), false))) /\
  (forall p, p ∈ projects (catalog (directory s)) -> p_workspace_id p <> Some workspaceID -> p ∈ projects (catalog (directory s'))).
Proof.
  intros Hn. unfold deleteWorkspace, with_directory. destruct (_ ≫= _) as [[d []]|e] eqn:E; [|done]. intros [= <-].
  apply deleteWorkspace_cases in E as (scope & [Hid Ha]%admin_scope & Hrow & Hlive & ([] & _ & [= <-])%bind_ok). rewrite Hid in *.
  rewrite directory_set. cbn [workspaces workspace_memberships workspace_invitations catalog projects set_field].
  assert (Hsub : forall {A} (key : A -> string) l x, x ∈ List.filter (fun x => negb (str_eqb (key x) workspaceID)) l -> key x <> workspaceID).
  { intros A key l x. rewrite list_elem_of_In, filter_In, negb_true_iff, <- not_true_iff_false, str_eqb_eq. tauto. }
  assert (Hgone : forall p q, p ∈ projects (catalog (directory s)) -> p_workspace_id p = Some workspaceID ->
    q ∈ map (forfeit workspaceID dbnow) (projects (catalog (directory s))) -> p_id q = p_id p -> q = forfeit workspaceID dbnow p).
  { intros p q Hp _ (q' & -> & Hq)%list_elem_of_fmap Eq. rewrite forfeit_id in Eq. f_equal.
    by apply (NoDup_map_eq p_id (projects (catalog (directory s)))). }
  split; [exact Ha|]. split; [exact Hrow|]. split; [|split; [|split; [|split]]].
  - intros (w & Ew & Hw)%list_elem_of_fmap. by apply (Hsub _ w_id) in Hw.
  - intros m Hm. by apply (Hsub _ m_workspace_id) in Hm.
  - intros i' Hi. by apply (Hsub _ i_workspace_id) in Hi.
  - intros p Hp Hw. split; [by apply Hlive|]. split.
    + intros u need. apply not_true_iff_false. intros (q & w & Hq & Eq & Wq)%project_scope_row.
      rewrite (Hgone p q Hp Hw Hq Eq) in Wq. unfold forfeit in Wq. by rewrite bool_decide_eq_true_2 in Wq.
    + intros later Hl. apply update_project_noop. intros q Hq Eq. rewrite (Hgone p q Hp Hw Hq Eq).
      unfold forfeit. rewrite bool_decide_eq_true_2 by done. cbn. apply andb_false_iff. right.
      apply Z.ltb_ge. destruct (p_delete_expires_at p); lia.
  - intros p Hp Hw. apply list_elem_of_fmap. exists p. split; [|done]. unfold forfeit. by rewrite bool_decide_eq_false_2.
Qed.
(** ** An example *)

Definition bob : User := Build_User "bob".
Definition handle_ex : request -> state -> state -> state := handle (fun t => t) (fun t => t) (fun t => Some t).
Definition st0 : state := Build_state (mkBillingDB [] [] [] [] [] [] []) (Authz.Build_db [] [] [] [] demo_tables) [] [] [].
Definition st1 : state := Eval vm_compute in handle_ex (Create false "w" at0 alice " Team ") st0 st0.
Definition st2 : state := Eval vm_compute in handle_ex (Invite "i" at0 alice "w" "Bob@Example.com" RoleMember) st1 st1.
Definition bob_accepts : request := Accept at0 bob "bob@example.com" "i".
Definition st3 : state := Eval vm_compute in handle_ex bob_accepts st2 st2.
Definition st4 : state := Eval vm_compute in
  set_directory st3 ((directory st3) <| catalog := (tombstoneProjectTx hour "p" "alice" at0 (catalog (directory st3))).1 |>).

Lemma ex_history : history (fun t => t) (fun t => t) (fun t => Some t) [st3; st2; st1; st0].
Proof.
  assert (E1 : st1 = handle_ex (Create false "w" at0 alice " Team ") st0 st0) by (vm_compute; reflexivity).
  assert (E2 : st2 = handle_ex (Invite "i" at0 alice "w" "Bob@Example.com" RoleMember) st1 st1) by (vm_compute; reflexivity).
  assert (E3 : st3 = handle_ex bob_accepts st2 st2) by (vm_compute; reflexivity).
  rewrite E3. apply history_request; [|constructor]. rewrite E2. apply history_request; [|constructor].
  rewrite E1. apply history_request; [|constructor]. by apply history_start.
Qed.

Lemma workspace_keeps_admin_witness :
  exists m, m ∈ workspace_memberships (directory st3) /\ m_workspace_id m = "w" /\ m_role m = RoleAdmin.
Proof.
  apply (workspace_keeps_admin (fun t => t) (fun t => t) (fun t => Some t) st3 [st2; st1; st0] (Build_workspaces_row "w" "Team" None at0)).
  - exact ex_history.
  - apply list_elem_of_singleton. reflexivity.
Defined.

Lemma membership_changes_authorized_witness :
  role_of st2 "w" "bob" = None /\ role_of st3 "w" "bob" = Some RoleMember /\ may_change bob_accepts st2 st2 st3 "w" "bob".
Proof.
  split; [reflexivity|]. split; [reflexivity|].
  apply (membership_changes_authorized (fun t => t) (fun t => t) (fun t => Some t) bob_accepts st2 st2 [st1; st0]).
  - pose proof ex_history as H. inversion H; subst; done.
  - constructor.
  - vm_compute. discriminate.
Defined.

Lemma deleted_workspace_is_gone_witness :
  (deleteWorkspace at0 alice "w" " Team" st4 st4).2 = Ok tt /\
  is_ok (AuthorizeProject (directory (deleteWorkspace at0 alice "w" " Team" st4 st4).1) alice "p" Read) = false /\
  is_ok (AuthorizeProject (directory st4) alice "p" Read) = true.
Proof.
  split; [vm_compute; reflexivity|]. split; [|vm_compute; reflexivity].
  apply (deleted_workspace_is_gone at0 alice "w" " Team" st4 st4 _) with (p := Build_projects_row "p" "demo" "user" None (Some "w") at0 (Some at0) "alice" (Some (at0 + hour))).
  - apply NoDup_singleton.
  - vm_compute. reflexivity.
  - apply list_elem_of_singleton. vm_compute. reflexivity.
  - reflexivity.
Defined.

End Workspaces.
