(* ===== verification/LogPipeline.v ===== *)
(** * The log pipeline beside the spool

    [internal/logpipeline]: page cursors ([cursor.go], with the unpadded URL
    alphabet of [encoding/base64]), line limits, identities and normalization
    ([line.go]), batches ([batch.go]), retry delays ([backoff.go]) and the rate
    limiter ([limiter.go]).  Bytes are their codes, as in [GoText]. *)

From S2P Require Import Prelude GoText GoFloat DurableWork Billing ClosePeriod GoTime Sha256.

Module LogPipeline.
Import Sha256.

(** ** [base64.RawURLEncoding] *)

Definition b64_char (v : Z) : Z :=
  if v <? 26 then 65 + v else if v <? 52 then 71 + v else if v <? 62 then v - 4 else if v =? 62 then 45 else 95.

Definition b64_value (c : Z) : option Z :=
  if within 65 90 c then Some (c - 65) else if within 97 122 c then Some (c - 71) else if within 48 57 c then Some (c + 4)
  else if c =? 45 then Some 62 else if c =? 95 then Some 63 else None.

Fixpoint b64_encode (l : list Z) : list Z :=
  match l with
  | a :: b :: c :: rest =>
      b64_char (a / 4) :: b64_char (a mod 4 * 16 + b / 16) :: b64_char (b mod 16 * 4 + c / 64) :: b64_char (c mod 64) :: b64_encode rest
  | [a; b] => [b64_char (a / 4); b64_char (a mod 4 * 16 + b / 16); b64_char (b mod 16 * 4)]
  | [a] => [b64_char (a / 4); b64_char (a mod 4 * 16)]
  | [] => []
  end.

(** Quanta of four characters; a last one of two or three may leave bits over. *)
Fixpoint b64_quanta (l : list Z) : option (list Z) :=
  match l with
  | a :: b :: c :: d :: rest =>
      a ← b64_value a; b ← b64_value b; c ← b64_value c; d ← b64_value d; rest ← b64_quanta rest;
      Some (a * 4 + b / 16 :: b mod 16 * 16 + c / 4 :: c mod 4 * 64 + d :: rest)
  | [a; b; c] => a ← b64_value a; b ← b64_value b; c ← b64_value c; Some [a * 4 + b / 16; b mod 16 * 16 + c / 4]
  | [a; b] => a ← b64_value a; b ← b64_value b; Some [a * 4 + b / 16]
  | [_] => None
  | [] => Some []
  end.

(** Line ends are skipped wherever they are. *)
Definition b64_decode (l : list Z) : option (list Z) := b64_quanta (List.filter (fun c => negb ((c =? 10) || (c =? 13))) l).

Definition is_byte (z : Z) : Prop := 0 <= z < 256.

Lemma b64_value_char v : 0 <= v < 64 -> b64_value (b64_char v) = Some v /\ b64_char v <> 10 /\ b64_char v <> 13.
Proof.
  intros H. assert (Hall : forallb (fun v => bool_decide (b64_value (b64_char v) = Some v) && negb (b64_char v =? 10) && negb (b64_char v =? 13))
    (map Z.of_nat (seq 0 64)) = true) by (vm_compute; reflexivity).
  rewrite forallb_forall in Hall. specialize (Hall v). rewrite !andb_true_iff, bool_decide_eq_true, !negb_true_iff, !Z.eqb_neq in Hall.
  destruct Hall as [[Hv H1] H2]; [|done]. apply in_map_iff. exists (Z.to_nat v). rewrite in_seq. lia.
Qed.

Lemma b64_value_of v : 0 <= v < 64 -> b64_value (b64_char v) = Some v.
Proof. apply b64_value_char. Qed.

Lemma b64_sextets a b c : is_byte a -> is_byte b -> is_byte c ->
  (0 <= a / 4 < 64 /\ 0 <= a mod 4 * 16 + b / 16 < 64 /\ 0 <= b mod 16 * 4 + c / 64 < 64 /\ 0 <= c mod 64 < 64) /\
  a / 4 * 4 + (a mod 4 * 16 + b / 16) / 16 = a /\
  (a mod 4 * 16 + b / 16) mod 16 * 16 + (b mod 16 * 4 + c / 64) / 4 = b /\
  (b mod 16 * 4 + c / 64) mod 4 * 64 + c mod 64 = c.
Proof.
  unfold is_byte. intros Ha Hb Hc.
  pose proof (Z.div_mod a 4 ltac:(lia)) as Ea. pose proof (Z.mod_pos_bound a 4 ltac:(lia)).
  pose proof (Z.div_mod b 16 ltac:(lia)) as Eb. pose proof (Z.mod_pos_bound b 16 ltac:(lia)).
  pose proof (Z.div_mod c 64 ltac:(lia)) as Ec. pose proof (Z.mod_pos_bound c 64 ltac:(lia)).
  assert (0 <= b / 16 < 16) by lia. assert (0 <= c / 64 < 4) by lia.
  assert ((a mod 4 * 16 + b / 16) / 16 = a mod 4) as -> by (symmetry; apply (Z.div_unique _ _ _ (b / 16)); lia).
  assert ((a mod 4 * 16 + b / 16) mod 16 = b / 16) as -> by (symmetry; apply (Z.mod_unique _ _ (a mod 4)); lia).
  assert ((b mod 16 * 4 + c / 64) / 4 = b mod 16) as -> by (symmetry; apply (Z.div_unique _ _ _ (c / 64)); lia).
  assert ((b mod 16 * 4 + c / 64) mod 4 = c / 64) as -> by (symmetry; apply (Z.mod_unique _ _ (b mod 16)); lia).
  lia.
Qed.

Lemma b64_encode_chars l c : Forall is_byte l -> c ∈ b64_encode l -> c <> 10 /\ c <> 13.
Proof.
  assert (Hc : forall v, 0 <= v < 64 -> c = b64_char v -> c <> 10 /\ c <> 13) by (intros v Hv ->; by apply b64_value_char).
  revert l. fix IH 1. intros [|a [|b [|x rest]]] Hl; cbn [b64_encode]; [by intros ?%elem_of_nil|..]; rewrite !elem_of_cons.
  - apply Forall_cons in Hl as [Ha _]. pose proof (b64_sextets a 0 0 Ha ltac:(done) ltac:(done)) as [(? & H1 & _) _].
    rewrite Z.add_0_r in H1. intros [E|[E|E%elem_of_nil]]; [by (eapply Hc; [|exact E])..|done].
  - rewrite !Forall_cons in Hl. destruct Hl as (Ha & Hb & _). pose proof (b64_sextets a b 0 Ha Hb ltac:(done)) as [(? & ? & H1 & _) _].
    rewrite Z.add_0_r in H1. intros [E|[E|[E|E%elem_of_nil]]]; [by (eapply Hc; [|exact E])..|done].
  - rewrite !Forall_cons in Hl. destruct Hl as (Ha & Hb & Hx & Hl). pose proof (b64_sextets a b x Ha Hb Hx) as [(? & ? & ? & ?) _].
    intros [E|[E|[E|[E|E]]]]; [by (eapply Hc; [|exact E])..|by eapply IH].
Qed.

Lemma b64_quanta_encode l : Forall is_byte l -> b64_quanta (b64_encode l) = Some l.
Proof.
  revert l. fix IH 1. intros [|a [|b [|x rest]]] Hl; cbn [b64_encode b64_quanta]; [done|..].
  - apply Forall_cons in Hl as [Ha _]. pose proof (b64_sextets a 0 0 Ha ltac:(done) ltac:(done)) as [(H1 & H2 & _) (E1 & _)].
    rewrite Z.add_0_r in H2, E1. rewrite !b64_value_of by done. cbn. by rewrite E1.
  - rewrite !Forall_cons in Hl. destruct Hl as (Ha & Hb & _).
    pose proof (b64_sextets a b 0 Ha Hb ltac:(done)) as [(H1 & H2 & H3 & _) (E1 & E2 & _)].
    rewrite Z.add_0_r in H3, E2. rewrite !b64_value_of by done. cbn. by rewrite E1, E2.
  - rewrite !Forall_cons in Hl. destruct Hl as (Ha & Hb & Hx & Hl). pose proof (b64_sextets a b x Ha Hb Hx) as [(? & ? & ? & ?) (E1 & E2 & E3)].
    rewrite !b64_value_of by done. cbn. rewrite (IH rest Hl). cbn. by rewrite E1, E2, E3.
Qed.

Lemma b64_roundtrip l : Forall is_byte l -> b64_decode (b64_encode l) = Some l.
Proof.
  intros Hl. unfold b64_decode. rewrite filter_all; [by apply b64_quanta_encode|]. intros c Hc.
  apply (b64_encode_chars l) in Hc as [H1 H2]; [|done]. by rewrite (proj2 (Z.eqb_neq _ _) H1), (proj2 (Z.eqb_neq _ _) H2).
Qed.

(** ** Page cursors *)

Inductive cursor_error : Type := InvalidPageToken | InvalidPageTimestamp.

Definition UnixNano (t : time) : Z := wrap64 (t - unix_epoch).

Definition EncodeCursor (observedAt : time) (lineID : string) : string :=
  of_codes (b64_encode (big_endian 8 (uwrap64 (UnixNano observedAt)) ++ big_endian 4 (len (codes lineID) mod two32) ++ codes lineID)).

Definition DecodeCursor (token : string) : result cursor_error (time * string) :=
  if str_eqb token "" then Ok (0, "")
  else
    match b64_decode (codes token) with
    | None => Err InvalidPageToken
    | Some raw =>
        if len raw <? 12 then Err InvalidPageToken
        else
          let nanos := wrap64 (from_big_endian (take 8 raw)) in
          let idLen := from_big_endian (take 4 (drop 8 raw)) in
          if (idLen <? 0) || negb (12 + idLen =? len raw) then Err InvalidPageToken
          else
            let observedAt := unix_epoch + nanos in
            if (Year observedAt <? 2000) || (2200 <? Year observedAt) then Err InvalidPageTimestamp
            else Ok (observedAt, of_codes (drop 12 raw))
    end.

Example cursor_example :
  DecodeCursor (EncodeCursor (instant (mkCivil 2024 2 29 5)) "ag:a:b") = Ok (instant (mkCivil 2024 2 29 5), "ag:a:b") /\
  DecodeCursor "A" = Err InvalidPageToken /\ DecodeCursor (EncodeCursor unix_epoch "x") = Err InvalidPageTimestamp.
Proof. vm_compute. done. Qed.

Lemma big_endian_fold n z acc : 0 <= z ->
  foldl (fun acc b => acc * 256 + b) acc (big_endian n z) = acc * 256 ^ Z.of_nat n + z mod 256 ^ Z.of_nat n.
Proof.
  intros Hz. revert acc. induction n as [|n IH]; intros acc; cbn [big_endian foldl].
  - cbn. rewrite Z.mod_1_r. lia.
  - rewrite IH. rewrite Z.shiftr_div_pow2 by lia. change 256 with (2 ^ 8) at 2.
    replace (2 ^ (8 * Z.of_nat n)) with (256 ^ Z.of_nat n) by (rewrite Z.pow_mul_r by lia; done).
    rewrite Nat2Z.inj_succ, Z.pow_succ_r by lia. change (2 ^ 8) with 256.
    rewrite (Z.mul_comm 256 (256 ^ Z.of_nat n)), (Z.rem_mul_r z (256 ^ Z.of_nat n) 256) by lia. lia.
Qed.

Lemma big_endian_value n z : 0 <= z < 256 ^ Z.of_nat n -> from_big_endian (big_endian n z) = z.
Proof. intros H. unfold from_big_endian. rewrite big_endian_fold by lia. rewrite Z.mod_small by done. lia. Qed.

Lemma big_endian_length n z : length (big_endian n z) = n.
Proof. induction n as [|n IH]; cbn; [done|]. by rewrite IH. Qed.

Lemma big_endian_bytes n z : Forall is_byte (big_endian n z).
Proof. induction n as [|n IH]; cbn; constructor; [|done]. apply Z.mod_pos_bound. lia. Qed.

Lemma b64_char_byte v : is_byte (b64_char v) \/ v < 0 \/ 64 <= v.
Proof.
  destruct (decide (0 <= v < 64)) as [H|H]; [left|lia]. unfold is_byte, b64_char.
  repeat (match goal with |- context [if ?c then _ else _] => destruct c eqn:?E end);
    rewrite ?Z.ltb_lt, ?Z.ltb_ge, ?Z.eqb_eq in *; lia.
Qed.

Lemma b64_encode_bytes l : Forall is_byte l -> Forall is_byte (b64_encode l).
Proof.
  assert (Hc : forall v, 0 <= v < 64 -> is_byte (b64_char v)) by (intros v Hv; destruct (b64_char_byte v); [done|lia]).
  revert l. fix IH 1. intros [|a [|b [|x rest]]] Hl; cbn [b64_encode]; rewrite ?Forall_cons in Hl.
  - constructor.
  - destruct Hl as [Ha _]. pose proof (b64_sextets a 0 0 Ha ltac:(done) ltac:(done)) as [(? & H2 & _) _].
    rewrite Z.add_0_r in H2. repeat constructor; by apply Hc.
  - destruct Hl as (Ha & Hb & _). pose proof (b64_sextets a b 0 Ha Hb ltac:(done)) as [(? & ? & H3 & _) _].
    rewrite Z.add_0_r in H3. repeat constructor; by apply Hc.
  - destruct Hl as (Ha & Hb & Hx & Hl). pose proof (b64_sextets a b x Ha Hb Hx) as [(? & ? & ? & ?) _].
    do 4 (constructor; [by apply Hc|]). by apply IH.
Qed.

(** A position a token can carry. *)
Definition pageable (t : time) (id : string) : Prop := 2000 <= Year t <= 2200 /\ len (codes id) < two32.

Lemma pageable_nanos t id : pageable t id -> in_int64 (t - unix_epoch).
Proof.
  intros [H _]. apply Year_days in H. vm_compute (days_before_year 2000) in H. vm_compute (days_before_year 2200) in H.
  assert (day = 86400000000000) as Hd by done. pose proof (Z.div_mod t day ltac:(by rewrite Hd)) as E.
  pose proof (Z.mod_pos_bound t day ltac:(by rewrite Hd)). rewrite Hd in *. unfold in_int64, unix_epoch, second. lia.
Qed.

(** Tokens round-trip. *)
Lemma cursor_inverse t id : pageable t id -> EncodeCursor t id <> "" /\ DecodeCursor (EncodeCursor t id) = Ok (t, id).
Proof.
  intros Hp. pose proof (pageable_nanos t id Hp) as Hn. destruct Hp as [Hy Hid]. unfold EncodeCursor, UnixNano. rewrite (wrap64_small _ Hn).
  set (raw := big_endian 8 _ ++ _).
  assert (Hraw : Forall is_byte raw).
  { unfold raw. rewrite !Forall_app. split; [apply big_endian_bytes|]. split; [apply big_endian_bytes|]. apply codes_range. }
  assert (Hne : of_codes (b64_encode raw) <> "").
  { unfold raw. cbn. done. }
  split; [done|]. unfold DecodeCursor. destruct (str_eqb _ "") eqn:E; [by apply str_eqb_eq in E|].
  rewrite codes_of_codes by by apply b64_encode_bytes. rewrite b64_roundtrip by done.
  assert (Hlen : len raw = 12 + len (codes id)).
  { unfold raw. rewrite !len_app. unfold len at 1 2. rewrite !big_endian_length. lia. }
  pose proof (len_nonneg (codes id)). rewrite Hlen. rewrite (proj2 (Z.ltb_ge _ _)) by lia.
  assert (take 8 raw = big_endian 8 (uwrap64 (t - unix_epoch))) as -> by (unfold raw; by rewrite take_app_length').
  assert (take 4 (drop 8 raw) = big_endian 4 (len (codes id))) as ->.
  { unfold raw. rewrite drop_app_length' by by rewrite big_endian_length. rewrite Z.mod_small by done.
    by rewrite take_app_length' by by rewrite big_endian_length. }
  assert (drop 12 raw = codes id) as ->.
  { unfold raw. rewrite app_assoc, drop_app_length'; [done|]. rewrite length_app, !big_endian_length. done. }
  rewrite !big_endian_value; [| |].
  - rewrite (proj2 (Z.ltb_ge _ _)), Z.eqb_refl by lia. cbn [orb negb].
    assert (wrap64 (uwrap64 (t - unix_epoch)) = t - unix_epoch) as ->.
    { unfold uwrap64, wrap64, two64. unfold in_int64 in Hn. rewrite Zplus_mod_idemp_l, Z.mod_small; lia. }
    replace (unix_epoch + (t - unix_epoch)) with t by lia.
    rewrite (proj2 (Z.ltb_ge (Year t) 2000)), (proj2 (Z.ltb_ge 2200 (Year t))) by lia. cbn. by rewrite of_codes_codes.
  - change (256 ^ Z.of_nat 8) with two64. unfold uwrap64. apply Z.mod_pos_bound. done.
  - change (256 ^ Z.of_nat 4) with two32. lia.
Qed.

(** ** Lines *)

Definition MaxLogLineBytes : nat := Z.to_nat (64 * 1024).
Definition MaxAttributesPerLine : nat := 16.
Definition MaxAttributeKeyBytes : Z := 128.
Definition MaxAttributeValueBytes : nat := Z.to_nat 1024.
Definition MaxEventNameBytes : Z := 64.
Definition MaxStageNameBytes : nat := 64.

Definition ReasonRateLimited : string := "rate_limited".
Definition ReasonSpoolOverflow : string := "spool_overflow".
Definition ReasonIngestOverflow : string := "ingest_overflow".
Definition ReasonCorruptSpool : string := "corrupt_spool".

(** [utf8.RuneStart] *)
Definition RuneStart (b : Z) : bool := negb (Z.land b 192 =? 128).

(** The loop of [TruncateLine], from the byte at [cut] down. *)
Fixpoint cut_back (line : list Z) (cut : nat) : nat :=
  match cut with
  | O => O
  | S below => if RuneStart (line !!! cut) then cut else cut_back line below
  end.

Definition truncate_at (max : nat) (line : list Z) : list Z * bool :=
  if (length line <=? max)%nat then (line, false) else (take (cut_back line max) line, true).

Definition TruncateLine (line : string) : string * bool :=
  let '(l, truncated) := truncate_at MaxLogLineBytes (codes line) in (of_codes l, truncated).

(** [hex.EncodeToString] *)
Definition hex_digit (d : Z) : Z := if d <? 10 then 48 + d else 87 + d.
Definition hex_encode (l : list Z) : string := of_codes (l ≫= (fun b => [hex_digit (b / 16); hex_digit (b mod 16)])).

Definition AgentLineID (agentID bootID allocationID stream : string) (seq : Z) : string :=
  "ag:" +:+ agentID +:+ ":" +:+ bootID +:+ ":" +:+ allocationID +:+ ":" +:+ stream +:+ ":" +:+ pretty seq.
Definition BuilderLineID (builderID buildID : string) (leaseEpoch seq : Z) : string :=
  "bd:" +:+ builderID +:+ ":" +:+ buildID +:+ ":" +:+ pretty leaseEpoch +:+ ":" +:+ pretty seq.
Definition nul : string := of_codes [0].
Definition StableEventID (parts : list string) : string :=
  "sy:" +:+ hex_encode (take 16 (Sum256 (foldr (fun p acc => p +:+ nul +:+ acc) "" parts))).

(** [attrs] in the order the map is ranged over. *)
Fixpoint normalize_loop (attrs : list (string * string)) (out : gmap string string) : gmap string string :=
  match attrs with
  | [] => out
  | (key, value) :: attrs =>
      if (MaxAttributesPerLine <=? size out)%nat then out
      else
        let key := TrimSpace key in
        if str_eqb key "" || (MaxAttributeKeyBytes <? len (codes key)) then normalize_loop attrs out
        else
          let value := if (MaxAttributeValueBytes <? length (codes value))%nat then of_codes (take MaxAttributeValueBytes (codes value)) else value in
          normalize_loop attrs (<[key := value]> out)
  end.
Definition NormalizeAttributes (attrs : list (string * string)) : option (gmap string string) :=
  let out := normalize_loop attrs ∅ in if (size out =? 0)%nat then None else Some out.

Definition event_byte (b : Z) : bool := within 97 122 b || within 48 57 b || (b =? 46) || (b =? 95) || (b =? 45).
Definition NormalizeEvent (event : string) : string :=
  let event := TrimSpace event in
  if str_eqb event "" || (MaxEventNameBytes <? len (codes event)) then ""
  else if forallb event_byte (codes event) then event else "".

Definition NormalizeDropReason (reason : string) : string :=
  let reason := TrimSpace reason in
  if str_eqb reason ReasonRateLimited then ReasonRateLimited
  else if str_eqb reason ReasonSpoolOverflow then ReasonSpoolOverflow
  else if str_eqb reason ReasonIngestOverflow then ReasonIngestOverflow
  else if str_eqb reason ReasonCorruptSpool then ReasonCorruptSpool
  else ReasonIngestOverflow.

(** *** A truncated line is text *)

(** Well-formed UTF-8. *)
Inductive valid_utf8 : list Z -> Prop :=
| valid_nil : valid_utf8 []
| valid_rune l w : rune_width l = Some w -> valid_utf8 (drop w l) -> valid_utf8 l.

Lemma within_true lo hi b : within lo hi b = true <-> lo <= b <= hi.
Proof. unfold within. rewrite andb_true_iff, !Z.leb_le. done. Qed.

Lemma RuneStart_cont b : within 128 191 b = true -> RuneStart b = false.
Proof.
  intros H%within_true. unfold RuneStart. rewrite negb_false_iff, Z.eqb_eq.
  assert (Hall : forallb (fun b => Z.land b 192 =? 128) (map Z.of_nat (seq 128 64)) = true) by (vm_compute; reflexivity).
  rewrite forallb_forall in Hall. apply Z.eqb_eq, Hall, in_map_iff. exists (Z.to_nat b). rewrite in_seq. lia.
Qed.

(** The bytes of a rune after its first are continuations, and a longer prefix
    has the same rune at its head. *)
Lemma rune_width_spec l w : rune_width l = Some w ->
  (1 <= w <= 4)%nat /\ (w <= length l)%nat /\ (forall n, (0 < n < w)%nat -> RuneStart (l !!! n) = false) /\
  (forall n, (w <= n)%nat -> rune_width (take n l) = Some w).
Proof.
  destruct l as [|b0 rest]; [done|]. cbn [rune_width]. destruct (b0 <? 128) eqn:E0.
  { intros [= <-]. split; [lia|]. split; [cbn; lia|]. split; [lia|]. intros [|n] Hn; [lia|]. cbn. by rewrite E0. }
  destruct rest as [|b1 rest]; [done|]. destruct (within 194 223 b0 && within 128 191 b1) eqn:E1.
  { intros [= <-]. apply andb_true_iff in E1 as E1'. destruct E1' as [_ C1]. split; [lia|]. split; [cbn; lia|]. split.
    - intros n Hn. assert (n = 1%nat) as -> by lia. by apply RuneStart_cont.
    - intros [|[|n]] Hn; [lia..|]. cbn. by rewrite E0, E1. }
  destruct rest as [|b2 rest]; [done|].
  set (ok3 := if b0 =? 224 then within 160 191 b1 else if b0 =? 237 then within 128 159 b1 else within 225 239 b0 && within 128 191 b1).
  assert (Hok3 : ok3 = true -> within 128 191 b1 = true).
  { unfold ok3. destruct (b0 =? 224); [|destruct (b0 =? 237); [|by intros []%andb_true_iff]]; rewrite !within_true; lia. }
  destruct (ok3 && within 128 191 b2) eqn:E2.
  { intros [= <-]. apply andb_true_iff in E2 as E2'. destruct E2' as [C1%Hok3 C2]. split; [lia|]. split; [cbn; lia|]. split.
    - intros n Hn. assert (n = 1%nat \/ n = 2%nat) as [->| ->] by lia; by apply RuneStart_cont.
    - intros [|[|[|n]]] Hn; [lia..|]. cbn. rewrite E0, E1. fold ok3. by rewrite E2. }
  destruct rest as [|b3 rest]; [done|].
  set (ok4 := if b0 =? 240 then within 144 191 b1 else if b0 =? 244 then within 128 143 b1 else within 241 243 b0 && within 128 191 b1).
  assert (Hok4 : ok4 = true -> within 128 191 b1 = true).
  { unfold ok4. destruct (b0 =? 240); [|destruct (b0 =? 244); [|by intros []%andb_true_iff]]; rewrite !within_true; lia. }
  destruct (ok4 && within 128 191 b2 && within 128 191 b3) eqn:E3; [|done].
  intros [= <-]. assert (E3' := E3). rewrite !andb_true_iff in E3'. destruct E3' as [[C1%Hok4 C2] C3]. split; [lia|]. split; [cbn; lia|]. split.
  - intros n Hn. assert (n = 1%nat \/ n = 2%nat \/ n = 3%nat) as [->|[->| ->]] by lia; by apply RuneStart_cont.
  - intros [|[|[|[|n]]]] Hn; [lia..|]. cbn. rewrite E0, E1. fold ok3 ok4. by rewrite E2, E3.
Qed.

(** Cutting valid text where a rune starts gives valid text. *)
Lemma cut_at_start l : valid_utf8 l -> forall n, (n < length l)%nat -> RuneStart (l !!! n) = true -> valid_utf8 (take n l).
Proof.
  induction 1 as [|l w Hw Hv IH]; intros n Hn Hs; [cbn in Hn; lia|].
  destruct (rune_width_spec l w Hw) as (H1 & H2 & Hc & Ht).
  destruct (decide (n = 0%nat)) as [->|Hn0]; [constructor|].
  destruct (decide (n < w)%nat) as [Hlt|Hge]; [by rewrite Hc in Hs by lia|].
  eapply valid_rune; [apply Ht; lia|]. rewrite skipn_firstn_comm. apply IH; [rewrite length_drop; lia|].
  rewrite lookup_total_drop. by replace (w + (n - w))%nat with n by lia.
Qed.

Lemma RuneStart_byte b : is_byte b -> RuneStart b = negb (within 128 191 b).
Proof.
  intros H. assert (Hall : forallb (fun b => Bool.eqb (RuneStart b) (negb (within 128 191 b))) (map Z.of_nat (seq 0 256)) = true) by (vm_compute; reflexivity).
  rewrite forallb_forall in Hall. apply Bool.eqb_prop, Hall, in_map_iff. exists (Z.to_nat b). unfold is_byte in H. rewrite in_seq. lia.
Qed.

Lemma rune_head l w : Forall is_byte l -> rune_width l = Some w -> RuneStart (l !!! 0%nat) = true.
Proof.
  destruct l as [|b0 rest]; [done|]. intros [Hb _]%Forall_cons H. cbn. rewrite RuneStart_byte, negb_true_iff by done.
  apply not_true_iff_false. rewrite within_true. intros Hc. cbn [rune_width] in H.
  rewrite (proj2 (Z.ltb_ge b0 128)) in H by lia. destruct rest as [|b1 rest]; [done|].
  assert (within 194 223 b0 = false) as E1 by (apply not_true_iff_false; rewrite within_true; lia).
  assert (within 225 239 b0 = false) as E2 by (apply not_true_iff_false; rewrite within_true; lia).
  assert (within 241 243 b0 = false) as E3 by (apply not_true_iff_false; rewrite within_true; lia).
  rewrite E1, E2, E3, !(proj2 (Z.eqb_neq b0 _)) in H by lia. cbn [andb] in H.
  destruct rest as [|b2 rest]; [done|]. by destruct rest.
Qed.

(** Among four bytes of valid text in a row a rune starts. *)
Lemma start_near l : valid_utf8 l -> Forall is_byte l -> forall n, (n < length l)%nat ->
  exists k, (k <= n)%nat /\ (n < k + 4)%nat /\ RuneStart (l !!! k) = true.
Proof.
  induction 1 as [|l w Hw Hv IH]; intros Hb n Hn; [cbn in Hn; lia|]. destruct (rune_width_spec l w Hw) as (H1 & H2 & _).
  destruct (decide (n < w)%nat) as [Hlt|Hge].
  - exists 0%nat. split; [lia|]. split; [lia|]. by eapply rune_head.
  - destruct (IH (Forall_drop _ _ _ Hb) (n - w)%nat) as (k & ? & ? & Hk); [rewrite length_drop; lia|].
    exists (w + k)%nat. split; [lia|]. split; [lia|]. by rewrite <- lookup_total_drop.
Qed.

Lemma cut_back_spec l n : (cut_back l n <= n)%nat /\ (cut_back l n = 0%nat \/ RuneStart (l !!! cut_back l n) = true) /\
  (forall k, (k <= n)%nat -> RuneStart (l !!! k) = true -> (k <= cut_back l n)%nat).
Proof.
  induction n as [|n IH]; cbn [cut_back]; [split; [lia|]; split; [by left|lia]|]. destruct (RuneStart (l !!! S n)) eqn:E.
  - split; [lia|]. split; [by right|lia].
  - destruct IH as (H1 & H2 & H3). split; [lia|]. split; [done|]. intros k Hk Hs. destruct (decide (k = S n)) as [->|]; [congruence|].
    apply H3; [lia|done].
Qed.

(** Truncating gives a prefix within the limit; of text, it is text and loses
    less than one rune of the bytes it could keep. *)
Lemma truncate_at_spec max l : Forall is_byte l -> valid_utf8 l ->
  let '(kept, truncated) := truncate_at max l in
  kept `prefix_of` l /\ (length kept <= max)%nat /\ valid_utf8 kept /\
  (truncated = true -> (max < length l)%nat /\ (max < length kept + 4)%nat) /\ (truncated = false -> kept = l).
Proof.
  intros Hb Hv. unfold truncate_at. destruct (length l <=? max)%nat eqn:E.
  - apply Nat.leb_le in E. done.
  - apply Nat.leb_gt in E. destruct (cut_back_spec l max) as (H1 & H2 & H3). rewrite length_take, Nat.min_l by lia.
    split; [exists (drop (cut_back l max) l); by rewrite take_drop|]. split; [lia|]. split; [|split; [|done]].
    + destruct H2 as [->|H2]; [constructor|]. apply cut_at_start; [done|lia|done].
    + intros _. split; [done|]. destruct (start_near l Hv Hb max E) as (k & Hk & Hn & Hs). specialize (H3 k Hk Hs). lia.
Qed.

(** A truncated line is text and keeps what it can.  For a line in UTF-8 the
    stored line is a prefix of it within the limit and is itself UTF-8, which
    the transport insists on; a line is cut only when it is too long, and then
    fewer than four bytes of the limit are left unused. *)
Theorem truncated_line_is_text line kept truncated :
  valid_utf8 (codes line) -> TruncateLine line = (kept, truncated) ->
  codes kept `prefix_of` codes line /\ len (codes kept) <= 65536 /\ valid_utf8 (codes kept) /\
  (truncated = true <-> 65536 < len (codes line)) /\
  (truncated = true -> 65536 - 4 < len (codes kept)) /\ (truncated = false -> kept = line).
Proof.
  intros Hv. unfold TruncateLine. pose proof (truncate_at_spec MaxLogLineBytes (codes line) (codes_range line) Hv) as H.
  assert (Hmax : Z.of_nat MaxLogLineBytes = 65536) by (unfold MaxLogLineBytes; by rewrite Z2Nat.id).
  destruct (truncate_at _ _) as [l b] eqn:E. intros [= <- <-]. destruct H as (Hp & Hl & Hu & Ht & Hf).
  assert (Hc : codes (of_codes l) = l).
  { apply codes_of_codes. destruct Hp as [k Hk]. pose proof (codes_range line) as Hr. rewrite Hk in Hr. by apply Forall_app in Hr as [? _]. }
  rewrite Hc. unfold len. split; [done|]. split; [lia|]. split; [done|]. split; [|split].
  - split; [intros Hb; destruct (Ht Hb); lia|]. intros Hlen. destruct b; [done|]. rewrite (Hf eq_refl) in Hl. lia.
  - intros Hb. destruct (Ht Hb). lia.
  - intros Hb. rewrite (Hf Hb). apply of_codes_codes.
Qed.

(** [utf8.Valid]; a round consumes a byte. *)
Fixpoint valid_fuel (fuel : nat) (l : list Z) : bool :=
  match fuel, l with
  | _, [] => true
  | O, _ => false
  | S fuel, _ => match rune_width l with Some w => valid_fuel fuel (drop w l) | None => false end
  end.

Lemma valid_fuel_iff n : forall l, (length l <= n)%nat -> valid_fuel n l = true <-> valid_utf8 l.
Proof.
  induction n as [|n IH]; intros [|b l] Hl; try (split; [constructor|done]).
  - cbn in Hl. lia.
  - cbn [valid_fuel]. destruct (rune_width (b :: l)) as [w|] eqn:E.
    + destruct (rune_width_spec _ _ E) as (H1 & H2 & _). rewrite IH by (rewrite length_drop; cbn in *; lia).
      split; [by apply valid_rune|]. inversion 1; subst. by replace w with w0 by congruence.
    + split; [done|]. inversion 1; congruence.
Qed.

(** Attributes are cut at a byte instead, so text may become something else. *)
Definition accented : string := of_codes (97 :: concat (repeat [195; 169] 512)).

Lemma attribute_cut_in_a_rune :
  valid_utf8 (codes accented) /\
  NormalizeAttributes [("k", accented)] = Some {[ "k" := of_codes (take 1024 (codes accented)) ]} /\
  ~ valid_utf8 (codes (of_codes (take 1024 (codes accented)))).
Proof.
  split; [|split].
  - apply (valid_fuel_iff (length (codes accented))); [done|]. vm_compute. reflexivity.
  - vm_compute. reflexivity.
  - intros H. apply (valid_fuel_iff 1024) in H; [vm_compute in H; done|]. vm_compute. repeat constructor.
Qed.

(** A line that is one byte longer than the limit, which falls within a rune. *)
Definition accents (n : nat) : list Z := concat (repeat [195; 169] n).
Definition half_of_it : nat := Z.to_nat 32767.
Definition a_long_line : string := of_codes (97 :: accents (S half_of_it)).

Lemma accents_valid n : valid_utf8 (accents n).
Proof. induction n as [|n IH]; [constructor|]. by apply (valid_rune _ 2). Qed.

Lemma accents_length n : length (accents n) = (2 * n)%nat.
Proof. induction n as [|n IH]; [done|]. unfold accents in *. cbn. lia. Qed.

Lemma accents_bytes n : Forall is_byte (accents n).
Proof. induction n as [|n IH]; [constructor|]. unfold accents in *. cbn. by repeat (constructor; [unfold is_byte; lia|]). Qed.

Lemma accents_lookup n k : (k < n)%nat -> accents n !!! (2 * k)%nat = 195 /\ accents n !!! S (2 * k) = 169.
Proof.
  revert k. induction n as [|n IH]; intros k Hk; [lia|]. destruct k as [|k]; [done|]. replace (2 * S k)%nat with (S (S (2 * k))) by lia. apply IH. lia.
Qed.

Lemma a_long_line_codes : codes a_long_line = 97 :: accents (S half_of_it).
Proof. apply codes_of_codes. constructor; [unfold is_byte; lia|apply accents_bytes]. Qed.

Lemma a_long_line_valid : valid_utf8 (codes a_long_line).
Proof. rewrite a_long_line_codes. apply (valid_rune _ 1); [done|]. apply accents_valid. Qed.

Lemma cut_accents k : cut_back (97 :: accents (S k)) (S (S (2 * k))) = S (2 * k).
Proof.
  destruct (accents_lookup (S k) k ltac:(lia)) as [H1 H2]. cbn [cut_back].
  change ((97 :: accents (S k)) !!! S (S (2 * k))) with (accents (S k) !!! S (2 * k)). rewrite H2.
  change (RuneStart 169) with false. cbn [cut_back].
  change ((97 :: accents (S k)) !!! S (2 * k)) with (accents (S k) !!! (2 * k)%nat). rewrite H1. done.
Qed.

Lemma truncate_accents max k : max = S (S (2 * k)) -> truncate_at max (97 :: accents (S k)) = (take (S (2 * k)) (97 :: accents (S k)), true).
Proof.
  intros ->. unfold truncate_at. rewrite cut_accents, (proj2 (Nat.leb_gt _ _)); [done|]. cbn [length]. rewrite accents_length. lia.
Qed.

Lemma limit_halved : MaxLogLineBytes = S (S (2 * half_of_it)).
Proof. unfold MaxLogLineBytes, half_of_it. lia. Qed.

Lemma a_long_line_truncated : truncate_at MaxLogLineBytes (codes a_long_line) = (take (S (2 * half_of_it)) (codes a_long_line), true).
Proof. rewrite a_long_line_codes. exact (truncate_accents _ _ limit_halved). Qed.

Lemma a_long_line_cut : TruncateLine a_long_line = ((TruncateLine a_long_line).1, true).
Proof. unfold TruncateLine. by rewrite a_long_line_truncated. Qed.

Lemma a_long_line_kept : len (codes (TruncateLine a_long_line).1) = 65535.
Proof.
  unfold TruncateLine. rewrite a_long_line_truncated. cbn [fst]. rewrite codes_of_codes by (apply Forall_take, codes_range).
  unfold len. rewrite length_take, a_long_line_codes. cbn [length]. rewrite accents_length.
  pose proof limit_halved as H. assert (Z.of_nat MaxLogLineBytes = 65536) by (unfold MaxLogLineBytes; lia). lia.
Qed.

Lemma truncated_line_is_text_witness :
  len (codes (TruncateLine a_long_line).1) = 65535 /\ valid_utf8 (codes (TruncateLine a_long_line).1).
Proof.
  exact (conj a_long_line_kept
    (proj1 (proj2 (proj2 (truncated_line_is_text a_long_line (TruncateLine a_long_line).1 true a_long_line_valid a_long_line_cut))))).
Defined.

(** ** Batches *)

Definition MaxBatchBytes : Z := 2 * 1024 * 1024.

Section Chunks.
Context {T : Type} (size : T -> Z) (max : Z).

Fixpoint chunk_loop (items : list T) (chunks : list (list T)) (cur : list T) (curBytes : Z) : list (list T) :=
  match items with
  | [] => if 0 <? len cur then chunks ++ [cur] else chunks
  | item :: items =>
      let n := size item in
      if (0 <? len cur) && (max <? curBytes + n) then chunk_loop items (chunks ++ [cur]) [item] n
      else chunk_loop items chunks (cur ++ [item]) (curBytes + n)
  end.
Definition ChunkByBytes (items : list T) : list (list T) := chunk_loop items [] [] 0.

(** A group fits, or is one item that does not. *)
Definition group_ok (g : list T) : Prop := g <> [] /\ (sumZ size g <= max \/ exists x, g = [x]).

Lemma chunk_loop_spec items : forall chunks cur curBytes,
  curBytes = sumZ size cur -> Forall group_ok chunks -> (cur = [] \/ group_ok cur) ->
  let out := chunk_loop items chunks cur curBytes in concat out = concat chunks ++ cur ++ items /\ Forall group_ok out.
Proof.
  induction items as [|x items IH]; intros chunks cur n Hn Hc Hcur; cbn [chunk_loop].
  - destruct Hcur as [->|Hcur]; cbn; [by rewrite app_nil_r|]. destruct cur as [|y cur]; [by destruct Hcur|].
    rewrite (proj2 (Z.ltb_lt _ _)) by (rewrite len_cons; pose proof (len_nonneg cur); lia).
    rewrite concat_app. cbn. rewrite !app_nil_r. split; [done|]. apply Forall_app. split; [done|by apply Forall_singleton].
  - destruct ((0 <? len cur) && (max <? n + size x)) eqn:E.
    + apply andb_true_iff in E as [E1 E2]. destruct Hcur as [->|Hcur]; [done|].
      destruct (IH (chunks ++ [cur]) [x] (size x)) as [H1 H2].
      * cbn. lia.
      * apply Forall_app. split; [done|by apply Forall_singleton].
      * right. split; [done|]. right. by exists x.
      * cbv zeta in *. rewrite H1, concat_app. cbn. rewrite app_nil_r, <- !app_assoc. done.
    + destruct (IH chunks (cur ++ [x]) (n + size x)) as [H1 H2]; [|done| |].
      * rewrite sumZ_app, Hn. cbn. lia.
      * right. split; [by destruct cur|]. destruct cur as [|y cur]; [right; by exists x|]. left.
        rewrite (proj2 (Z.ltb_lt _ _)) in E by (rewrite len_cons; pose proof (len_nonneg cur); lia). cbn [andb] in E.
        apply Z.ltb_ge in E. rewrite sumZ_app, <- Hn. cbn. lia.
      * cbv zeta in *. rewrite H1, <- app_assoc. done.
Qed.

(** Shipping splits a batch without losing anything.  The groups in order
    are the items in order; no group is empty, and each fits the limit unless it
    is a single item that exceeds it alone. *)
Theorem chunks_exact items : concat (ChunkByBytes items) = items /\ Forall group_ok (ChunkByBytes items).
Proof. apply (chunk_loop_spec items [] [] 0); [done|constructor|by left]. Qed.
End Chunks.

(** ** Retry delays *)

Record Backoff := { Initial : duration; Max : duration; failures : Z }.

(** [jitter] is the draw of [rng.Int63n(initial)]. *)
Definition Next (jitter : duration) (b : Backoff) : duration * Backoff :=
  let initial := if Initial b <=? 0 then 200 * millisecond else Initial b in
  let max := if Max b <=? 0 then 30 * second else Max b in
  let b' := Build_Backoff (Initial b) (Max b) (wrap64 (failures b + 1)) in
  let delay := wrap64 (initial * Z.shiftl 1 (Z.min (failures b) 6)) in
  let delay := if (max <? delay) || (delay <? 0) then max else delay in
  (if max <? wrap64 (delay + jitter) then max else wrap64 (delay + jitter), b').

Definition Reset (b : Backoff) : Backoff := Build_Backoff (Initial b) (Max b) 0.

Lemma Next_bounds jitter b initial max :
  initial = (if Initial b <=? 0 then 200 * millisecond else Initial b) ->
  max = (if Max b <=? 0 then 30 * second else Max b) ->
  initial <= max -> max < 2 ^ 56 -> 0 <= failures b -> 0 <= jitter < initial ->
  Z.min max (initial * 2 ^ Z.min (failures b) 6) <= (Next jitter b).1 <= max.
Proof.
  intros Ei Em H1 H2 Hf Hj. unfold Next. rewrite <- Ei, <- Em. cbn [fst].
  assert (Hs : Z.shiftl 1 (Z.min (failures b) 6) = 2 ^ Z.min (failures b) 6) by (rewrite Z.shiftl_mul_pow2 by lia; lia).
  assert (Hp : 1 <= 2 ^ Z.min (failures b) 6 <= 64).
  { split; [apply (Z.pow_le_mono_r 2 0); lia|]. change 64 with (2 ^ 6). apply Z.pow_le_mono_r; lia. }
  rewrite Hs. set (p := 2 ^ Z.min (failures b) 6) in *.
  assert (initial * p <= max * 64) by nia. assert (0 < initial * p) by nia.
  change (2 ^ 56) with 72057594037927936 in H2. rewrite (wrap64_small (initial * p)) by (unfold in_int64; lia).
  rewrite (proj2 (Z.ltb_ge (initial * p) 0)), orb_false_r by lia.
  destruct (max <? initial * p) eqn:E; rewrite wrap64_small by (unfold in_int64; rewrite ?Z.ltb_lt, ?Z.ltb_ge in E; lia);
    rewrite ?Z.ltb_lt, ?Z.ltb_ge in E; destruct (max <? _) eqn:E2; rewrite ?Z.ltb_lt, ?Z.ltb_ge in E2; lia.
Qed.

(** ** The rate limiter *)

Record tokenBucket := { tokens : float64; updated : time }.
Record Limiter := {
  ratePerSec : float64; burst : float64; maxKeys : Z;
  buckets : gmap string tokenBucket; dropped : gmap string Z
}.
#[export] Instance Limiter_eta : Eta Limiter := fun l => Build_Limiter (ratePerSec l) (burst l) (maxKeys l) (buckets l) (dropped l).

Definition newLimiter (rate : float64) (burst maxKeys : Z) : Limiter :=
  let burst := if burst <? 1 then 1 else burst in
  let maxKeys := if maxKeys <? 1 then 1 else maxKeys in
  Build_Limiter rate (of_int burst) maxKeys ∅ ∅.
Definition NewLimiter (rate : float64) (burst : Z) : Limiter := newLimiter rate burst 4096.

(** [Duration.Seconds] *)
Definition Seconds (d : duration) : float64 := fadd (of_int (Z.quot d second)) (fdiv (of_int (Z.rem d second)) (of_int second)).

(** The order a range over the buckets visits them in. *)
Definition ranging : Type := gmap string tokenBucket -> list (string * tokenBucket).
Definition ranges (r : ranging) : Prop := forall m, r m ≡ₚ map_to_list m.

Fixpoint oldest (l : list (string * tokenBucket)) (victim : option (string * time)) : option (string * time) :=
  match l with
  | [] => victim
  | (key, bucket) :: l =>
      oldest l (match victim with
                | None => Some (key, updated bucket)
                | Some (_, t) => if updated bucket <? t then Some (key, updated bucket) else victim
                end)
  end.

Definition evictOldestLocked (r : ranging) (l : Limiter) : Limiter :=
  match oldest (r (buckets l)) None with None => l | Some (victim, _) => l <| buckets := delete victim (buckets l) |> end.

(** [for len(l.buckets) >= l.maxKeys]; every round removes a bucket. *)
Fixpoint make_space (fuel : nat) (r : ranging) (l : Limiter) : Limiter :=
  match fuel with
  | O => l
  | S fuel => if maxKeys l <=? Z.of_nat (size (buckets l)) then make_space fuel r (evictOldestLocked r l) else l
  end.

Definition Allow (r : ranging) (key : string) (now : time) (l : Limiter) : bool * Limiter :=
  if fle (ratePerSec l) f_zero then (true, l)
  else
    let '(bucket, l) :=
      match buckets l !! key with
      | Some bucket => (bucket, l)
      | None => (Build_tokenBucket (burst l) now, make_space (size (buckets l)) r l)
      end in
    let elapsed := Seconds (time_sub now (updated bucket)) in
    let bucket :=
      if fgt elapsed f_zero then
        let t := fadd (tokens bucket) (fmul elapsed (ratePerSec l)) in
        Build_tokenBucket (if fgt t (burst l) then burst l else t) now
      else bucket in
    if flt (tokens bucket) f_one
    then (false, l <| buckets := <[key := bucket]> (buckets l) |> <| dropped := <[key := uwrap64 (default 0 (dropped l !! key) + 1)]> (dropped l) |>)
    else (true, l <| buckets := <[key := Build_tokenBucket (fsub (tokens bucket) f_one) (updated bucket)]> (buckets l) |>).

Definition DroppedSince (key : string) (l : Limiter) : Z := default 0 (dropped l !! key).
Definition DrainDrops (l : Limiter) : option (gmap string Z) * Limiter :=
  if (size (dropped l) =? 0)%nat then (None, l) else (Some (dropped l), l <| dropped := ∅ |>).
Definition Keys (l : Limiter) : Z := Z.of_nat (size (buckets l)).

Lemma oldest_in l : forall v,
  match oldest l v with None => v = None /\ l = [] | Some (k, _) => k ∈ l.*1 \/ exists t, v = Some (k, t) end.
Proof.
  induction l as [|[k b] l IH]; intros v; cbn [oldest]; [destruct v as [[k t]|]; [right; eauto|done]|].
  set (v' := match v with None => _ | _ => _ end). specialize (IH v').
  destruct (oldest l v') as [[k' t']|].
  - destruct IH as [Hin|[t E]]; [left; cbn; set_solver|]. unfold v' in E. destruct v as [[k0 t0]|].
    + destruct (updated b <? t0); [injection E as <- _; left; cbn; set_solver|right; eauto].
    + injection E as <- _. left. cbn. set_solver.
  - destruct IH as [E _]. unfold v' in E. destruct v as [[k0 t0]|]; [by destruct (updated b <? t0)|done].
Qed.

Lemma evict_shrinks r l : ranges r -> (0 < size (buckets l))%nat -> size (buckets (evictOldestLocked r l)) = (size (buckets l) - 1)%nat.
Proof.
  intros Hr Hs. unfold evictOldestLocked. pose proof (oldest_in (r (buckets l)) None) as H.
  destruct (oldest _ None) as [[k t]|].
  - destruct H as [Hin|[? [=]]]. cbn. rewrite map_size_delete_Some; [lia|].
    apply list_elem_of_fmap in Hin as ([k' b] & -> & Hin). rewrite (Hr (buckets l)) in Hin.
    apply elem_of_map_to_list in Hin. by exists b.
  - destruct H as [_ E]. pose proof (Hr (buckets l)) as Hp. rewrite E in Hp. apply Permutation_nil_l in Hp. symmetry in Hp. apply map_to_list_empty_iff in Hp.
    rewrite Hp, map_size_empty in Hs. lia.
Qed.

Lemma evict_frame r l : maxKeys (evictOldestLocked r l) = maxKeys l /\ dropped (evictOldestLocked r l) = dropped l.
Proof. unfold evictOldestLocked. by destruct (oldest _ _) as [[k t]|]. Qed.

Lemma make_space_spec r fuel : ranges r -> forall l, (size (buckets l) <= fuel)%nat -> 1 <= maxKeys l ->
  let l' := make_space fuel r l in Z.of_nat (size (buckets l')) < maxKeys l' /\ maxKeys l' = maxKeys l /\ dropped l' = dropped l.
Proof.
  intros Hr. induction fuel as [|fuel IH]; intros l Hl Hm; cbn [make_space]; [split; [lia|done]|].
  destruct (maxKeys l <=? Z.of_nat (size (buckets l))) eqn:E; [|by apply Z.leb_gt in E].
  apply Z.leb_le in E. destruct (evict_frame r l) as [E1 E2]. pose proof (evict_shrinks r l Hr ltac:(lia)) as Es.
  destruct (IH (evictOldestLocked r l)) as (H1 & H2 & H3); [lia..|]. cbv zeta in *. rewrite H2, H3. split; [lia|done].
Qed.

(** A limiter at work, with the keys of the lines denied since the last drain. *)
Inductive limiter_op : Type := AllowAt (r : ranging) (key : string) (now : time) | Drain.

Definition limiter_step (st : Limiter * list string) (op : limiter_op) : Limiter * list string :=
  let '(l, denied) := st in
  match op with
  | AllowAt r key now => let '(ok, l) := Allow r key now l in (l, if ok then denied else denied ++ [key])
  | Drain => ((DrainDrops l).2, [])
  end.

Definition op_ok (op : limiter_op) : Prop := match op with AllowAt r _ _ => ranges r | Drain => True end.

Definition limiter_ok (n : Z) (st : Limiter * list string) : Prop :=
  maxKeys st.1 = n /\ 1 <= maxKeys st.1 /\ Keys st.1 <= maxKeys st.1 /\ forall k, DroppedSince k st.1 = uwrap64 (countb (str_eqb k) st.2).

Lemma insert_size l key b : Keys l <= maxKeys l -> (is_Some (buckets l !! key) \/ Keys l < maxKeys l) ->
  Z.of_nat (size (<[key := b]> (buckets l))) <= maxKeys l.
Proof.
  unfold Keys. intros H [Hs|Hlt]; [by rewrite map_size_insert_Some|]. destruct (buckets l !! key) eqn:E.
  - rewrite map_size_insert_Some by by eexists. done.
  - rewrite map_size_insert_None by done. lia.
Qed.

(** The limiter when a bucket for the key is at hand. *)
Lemma space_for r key l : ranges r -> 1 <= maxKeys l -> Keys l <= maxKeys l ->
  let l' := match buckets l !! key with Some _ => l | None => make_space (size (buckets l)) r l end in
  (is_Some (buckets l' !! key) \/ Keys l' < maxKeys l') /\ Keys l' <= maxKeys l' /\ maxKeys l' = maxKeys l /\ dropped l' = dropped l.
Proof.
  intros Hr H1 H2. destruct (buckets l !! key) eqn:E; cbn; [rewrite E; split; [left; by eexists|done]|].
  destruct (make_space_spec r (size (buckets l)) Hr l) as (H3 & H4 & H5); [lia|lia|]. cbv zeta in *. unfold Keys. split; [by right|]. split; [lia|done].
Qed.

#[local] Arguments countb : simpl never.

Lemma countb_single {A} (p : A -> bool) x : countb p [x] = if p x then 1 else 0.
Proof. unfold countb, sumZ. cbn. by destruct (p x). Qed.

Lemma Allow_ok n r key now l denied : ranges r -> limiter_ok n (l, denied) -> limiter_ok n (limiter_step (l, denied) (AllowAt r key now)).
Proof.
  intros Hr (Hn & H1 & H2 & H3). cbn [fst snd limiter_step] in *. unfold Allow. destruct (fle (ratePerSec l) f_zero); [done|].
  pose proof (space_for r key l Hr H1 H2) as Hs. cbv zeta in Hs.
  set (l' := match buckets l !! key with Some _ => l | None => make_space (size (buckets l)) r l end) in *.
  assert (exists b, (match buckets l !! key with Some bucket => (bucket, l) | None => (Build_tokenBucket (burst l) now, make_space (size (buckets l)) r l) end)
    = (b, l')) as [b ->] by (unfold l'; destruct (buckets l !! key); eauto).
  destruct Hs as (Ha & Hb & Hc & Hd). destruct (flt _ f_one); cbn [fst snd].
  - split; [cbn; lia|]. split; [cbn; lia|]. split; [cbn; by apply insert_size|]. intros k. unfold DroppedSince. cbn. rewrite Hd, countb_app.
    specialize (H3 k). unfold DroppedSince in H3. destruct (decide (k = key)) as [->|Hk].
    + rewrite lookup_insert_eq, countb_single, (proj2 (str_eqb_eq key key) eq_refl). cbn [default]. rewrite H3.
      unfold uwrap64. rewrite Z.add_mod_idemp_l by done. done.
    + rewrite lookup_insert_ne by done. rewrite H3, countb_single.
      destruct (str_eqb k key) eqn:E; [by apply str_eqb_eq in E|]. by rewrite Z.add_0_r.
  - split; [cbn; lia|]. split; [cbn; lia|]. split; [cbn; by apply insert_size|]. intros k. unfold DroppedSince. cbn. rewrite Hd. apply H3.
Qed.

Lemma limiter_step_ok n st op : op_ok op -> limiter_ok n st -> limiter_ok n (limiter_step st op).
Proof.
  destruct st as [l denied], op as [r key now|]; [apply Allow_ok|]. intros _ (Hn & H1 & H2 & H3). cbn. unfold DrainDrops.
  destruct (size (dropped l) =? 0)%nat eqn:E; cbn; (split; [done|]; split; [done|]; split; [done|]); intros k; unfold DroppedSince; cbn.
  - apply Nat.eqb_eq, map_size_empty_inv in E. by rewrite E, lookup_empty.
  - by rewrite lookup_empty.
Qed.

(** The limiter is bounded and accounts for every line it denies.  Whatever
    keys ask, at whatever times, it keeps at most [maxKeys] buckets, and the
    count it reports for a key is the number of lines of that key it has denied
    since the counts were last drained. *)
Theorem limiter_accounts rate burst maxKeys ops l denied :
  Forall op_ok ops -> foldl limiter_step (newLimiter rate burst maxKeys, []) ops = (l, denied) ->
  Keys l <= Z.max 1 maxKeys /\ forall k, DroppedSince k l = uwrap64 (countb (str_eqb k) denied).
Proof.
  intros Hops E.
  assert (H : forall n ops st, Forall op_ok ops -> limiter_ok n st -> limiter_ok n (foldl limiter_step st ops)).
  { clear. induction ops as [|op ops IH]; intros st H Hst; [done|]. apply Forall_cons in H as [Ho H]. apply IH; [done|]. by apply limiter_step_ok. }
  specialize (H (Z.max 1 maxKeys) ops (newLimiter rate burst maxKeys, []) Hops). rewrite E in H.
  destruct H as (Hn & _ & Hk & Hd); [|cbn [fst snd] in *; split; [lia|done]].
  unfold limiter_ok, newLimiter, Keys, DroppedSince. cbn [fst snd LogPipeline.maxKeys buckets dropped]. rewrite map_size_empty. destruct (maxKeys <? 1) eqn:Em; rewrite ?Z.ltb_lt, ?Z.ltb_ge in Em;
    (split; [lia|]; split; [lia|]; split; [lia|]); intros k; by rewrite lookup_empty.
Qed.

(** The map of the model ranged over in the order of its list. *)
Definition in_order : ranging := map_to_list.
Definition three_lines : list limiter_op := [AllowAt in_order "a" 0; AllowAt in_order "a" 0; AllowAt in_order "b" 0].

Lemma limiter_accounts_witness :
  Keys (foldl limiter_step (newLimiter f_one 1 1, []) three_lines).1 <= Z.max 1 1 /\
  DroppedSince "a" (foldl limiter_step (newLimiter f_one 1 1, []) three_lines).1 = 1.
Proof.
  assert (H : Forall op_ok three_lines) by (repeat (apply Forall_cons; split; [by intros m|]); apply Forall_nil; done).
  destruct (limiter_accounts f_one 1 1 three_lines _ _ H (surjective_pairing _)) as [H1 H2]. split; [exact H1|].
  rewrite (H2 "a"). vm_compute. reflexivity.
Defined.

End LogPipeline.
