(* ===== verification/LogStore.v ===== *)
(** * Log rows of the control plane

    [internal/controlplane/logs/store.go] and [file_rows.go]: what a batch of an
    agent becomes before it is stored: lines and gaps with bounded fields,
    attributed to a project and given an expiry.  The resolver of projects, the
    order in which a Go map is ranged over, [strconv.Quote] and the letters
    outside ASCII are parameters.  The other backend is an SQL database of a
    third party and is not modelled. *)

From S2P Require Import Prelude GoText GoFloat DurableWork Billing ClosePeriod GoTime Sha256 Journal Product Authz LogPipeline.

Module LogStore.
Import Sha256 LogPipeline.

Definition LogType : Type := string.
Definition LogTypeRuntime : LogType := "runtime".
Definition LogTypeBuild : LogType := "build".
Definition LogTypeDeploy : LogType := "deploy".
Definition LogTypeHTTP : LogType := "http".
Definition LogTypeNetwork : LogType := "network".

Definition maxEntriesPerBatch : nat := Z.to_nat 2000.
Definition MinProjectRetentionDays : Z := 1.
Definition MaxProjectRetentionDays : Z := 90.

Record ProjectRetention := { pr_ProjectID : string; pr_RetentionDays : Z }.

Record LogLineInput := {
  li_ID : string; li_ObservedAt : time; li_ExpiresAt : time; li_ProjectID : string; li_EnvironmentID : string; li_ServiceID : string;
  li_AllocationID : string; li_AgentID : string; li_Stream : string; li_LogType : LogType; li_BuildID : string; li_Stage : string;
  li_Event : string; li_Attributes : option (gmap string string); li_Truncated : bool; li_RolloutGeneration : Z; li_Sequence : Z;
  li_Line : string
}.
#[export] Instance LogLineInput_eta : Eta LogLineInput := fun l =>
  Build_LogLineInput (li_ID l) (li_ObservedAt l) (li_ExpiresAt l) (li_ProjectID l) (li_EnvironmentID l) (li_ServiceID l)
    (li_AllocationID l) (li_AgentID l) (li_Stream l) (li_LogType l) (li_BuildID l) (li_Stage l)
    (li_Event l) (li_Attributes l) (li_Truncated l) (li_RolloutGeneration l) (li_Sequence l) (li_Line l).

Record GapInput := {
  gi_ProjectID : string; gi_ServiceID : string; gi_AllocationID : string; gi_BuildID : string; gi_LogType : LogType; gi_Stream : string;
  gi_WindowStart : time; gi_WindowEnd : time; gi_DroppedCount : Z; gi_Reason : string; gi_Reporter : string; gi_SummaryID : string;
  gi_ExpiresAt : time
}.
#[export] Instance GapInput_eta : Eta GapInput := fun g =>
  Build_GapInput (gi_ProjectID g) (gi_ServiceID g) (gi_AllocationID g) (gi_BuildID g) (gi_LogType g) (gi_Stream g)
    (gi_WindowStart g) (gi_WindowEnd g) (gi_DroppedCount g) (gi_Reason g) (gi_Reporter g) (gi_SummaryID g) (gi_ExpiresAt g).

(** One line of a segment file. *)
Record fileRecord := { fr_Line : option LogLineInput; fr_Gap : option GapInput; fr_ID : string; fr_ExpiresAt : time }.

#[export] Instance LogLineInput_eq_dec : EqDecision LogLineInput.
Proof. solve_decision. Defined.
#[export] Instance GapInput_eq_dec : EqDecision GapInput.
Proof. solve_decision. Defined.
#[export] Instance fileRecord_eq_dec : EqDecision fileRecord.
Proof. solve_decision. Defined.

(** ** Bounded fields *)

(** [platformv1.ServiceLogType] by its number. *)
Definition logTypeFromProto (t : Z) : LogType :=
  if t =? 1 then LogTypeRuntime else if t =? 2 then LogTypeBuild else if t =? 3 then LogTypeDeploy
  else if t =? 4 then LogTypeHTTP else if t =? 5 then LogTypeNetwork else "".

Definition TypeToProto (t : LogType) : Z :=
  if str_eqb t LogTypeRuntime then 1 else if str_eqb t LogTypeBuild then 2 else if str_eqb t LogTypeDeploy then 3
  else if str_eqb t LogTypeHTTP then 4 else if str_eqb t LogTypeNetwork then 5 else 1.

Definition clampRetentionDays (projectDays platformDefault : Z) : Z :=
  if 0 <? projectDays then
    if projectDays <? MinProjectRetentionDays then MinProjectRetentionDays
    else if MaxProjectRetentionDays <? projectDays then MaxProjectRetentionDays else projectDays
  else if platformDefault <=? 0 then 14 else platformDefault.

Section Rows.
Variable unicode_lower : string -> string.
#[local] Abbreviation ToLower := (Authz.ToLower unicode_lower).

Definition normalizeLogStream (stream : string) : string :=
  let s := TrimSpace (ToLower stream) in
  if str_eqb s "stdout" then "stdout" else if str_eqb s "stderr" then "stderr" else "combined".

Definition normalizeLogType (t : LogType) : LogType :=
  let t := TrimSpace (ToLower t) in
  if str_eqb t LogTypeBuild then LogTypeBuild else if str_eqb t LogTypeDeploy then LogTypeDeploy
  else if str_eqb t LogTypeHTTP then LogTypeHTTP else if str_eqb t LogTypeNetwork then LogTypeNetwork else LogTypeRuntime.

Definition normalizeStageName (stage : string) : string :=
  let stage := TrimSpace stage in
  if str_eqb stage "" then ""
  else ToLower (if (MaxStageNameBytes <? length (codes stage))%nat then of_codes (take MaxStageNameBytes (codes stage)) else stage).

(** ** Gaps *)

Definition sep : string := nul.
Definition gapIdentity (serviceID allocationID buildID logType stream reason reporter summaryID : string) (windowStart windowEnd : time) (count : Z) : string :=
  let head := serviceID +:+ sep +:+ allocationID +:+ sep +:+ buildID +:+ sep +:+ logType +:+ sep +:+ stream +:+ sep +:+
              NormalizeDropReason reason +:+ sep +:+ reporter +:+ sep in
  let payload := if str_eqb summaryID "" then head +:+ pretty (UnixNano windowStart) +:+ sep +:+ pretty (UnixNano windowEnd) +:+ sep +:+ pretty count
                 else head +:+ "sid" +:+ sep +:+ summaryID in
  "gap:" +:+ hex_encode (take 16 (Sum256 payload)).

(** The drop report of a producer. *)
Record LogDropSummary := {
  ds_ServiceId : string; ds_AllocationId : string; ds_BuildId : string; ds_LogType : Z; ds_Stream : string; ds_DroppedCount : Z;
  ds_Reason : string; ds_WindowStart : timestamp; ds_WindowEnd : timestamp; ds_SummaryId : string
}.

Definition dropSummariesToGaps (drops : list (option LogDropSummary)) (reporter : string) : list GapInput :=
  omap (fun drop =>
    d ← drop;
    if (ds_DroppedCount d =? 0) || str_eqb (TrimSpace (ds_ServiceId d)) "" then None
    else Some (Build_GapInput "" (ds_ServiceId d) (ds_AllocationId d) (ds_BuildId d) (logTypeFromProto (ds_LogType d)) (ds_Stream d)
                 (as_time (ds_WindowStart d)) (as_time (ds_WindowEnd d)) (ds_DroppedCount d) (ds_Reason d) reporter (ds_SummaryId d) zero_time)) drops.

(** ** Batches of an agent *)

Record LogEntry := {
  le_ObservedAt : timestamp; le_EnvironmentId : string; le_ServiceId : string; le_AllocationId : string; le_Stream : string;
  le_RolloutGeneration : Z; le_Sequence : Z; le_Line : string; le_LogType : Z; le_BuildId : string; le_Stage : string;
  le_Attributes : option (gmap string string); le_Truncated : bool; le_Event : string; le_LineId : string
}.
Record LogBatch := { lb_Entries : list (option LogEntry); lb_Drops : list (option LogDropSummary) }.

Definition convert_entry (agentID : string) (entry : option LogEntry) : option LogLineInput :=
  e ← entry;
  if str_eqb (TrimSpace (le_EnvironmentId e)) "" || str_eqb (TrimSpace (le_ServiceId e)) "" || str_eqb (TrimSpace (le_AllocationId e)) ""
  then None
  else
    let '(line, truncated) := TruncateLine (le_Line e) in
    Some (Build_LogLineInput (TrimSpace (le_LineId e)) (as_time (le_ObservedAt e)) zero_time "" (le_EnvironmentId e) (le_ServiceId e)
            (le_AllocationId e) agentID (le_Stream e) (logTypeFromProto (le_LogType e)) (le_BuildId e) (le_Stage e) (le_Event e)
            (le_Attributes e) (truncated || le_Truncated e) (le_RolloutGeneration e) (le_Sequence e) line).

(** What the cut tail of a batch is counted under. *)
Definition trimKey : Type := string * string * string * string.
Definition trim_key (e : LogEntry) : trimKey :=
  (le_ServiceId e, le_AllocationId e, logTypeFromProto (le_LogType e), normalizeLogStream (le_Stream e)).

Variable quote : string -> string.
Definition newline : string := of_codes [10].
Definition trim_fact (e : LogEntry) : string :=
  quote (le_LineId e) +:+ "|" +:+ pretty (UnixNano (as_time (le_ObservedAt e))) +:+ "|" +:+ pretty (le_Sequence e) +:+ "|" +:+
  quote (le_Line e) +:+ newline.

(** Counts and the text hashed so far, by key. *)
Definition trim_loop (trimmed : list (option LogEntry)) : gmap trimKey (Z * string) :=
  foldl (fun acc entry =>
    match entry with
    | None => acc
    | Some e =>
        if str_eqb (TrimSpace (le_ServiceId e)) "" then acc
        else let '(n, text) := default (0, "") (acc !! trim_key e) in <[trim_key e := (uwrap64 (n + 1), text +:+ trim_fact e)]> acc
    end) ∅ trimmed.

Definition trim_gap (agentID : string) (now : time) (row : trimKey * (Z * string)) : GapInput :=
  let '((serviceID, allocationID, logType, stream), (count, text)) := row in
  Build_GapInput "" serviceID allocationID "" logType stream now now count ReasonIngestOverflow agentID
    ("trim:" +:+ hex_encode (take 16 (Sum256 text))) zero_time.

(** [range] is the order in which the counts are ranged over. *)
Definition convertAgentBatch (range : gmap trimKey (Z * string) -> list (trimKey * (Z * string))) (agentID : string) (now : time)
    (batch : LogBatch) : list LogLineInput * list GapInput :=
  let entries := lb_Entries batch in
  (omap (convert_entry agentID) (take maxEntriesPerBatch entries),
   dropSummariesToGaps (lb_Drops batch) agentID ++ map (trim_gap agentID now) (range (trim_loop (drop maxEntriesPerBatch entries)))).

(** ** Attribution *)

(** [resolve]: no resolver, or what it answers for a list of services. *)
Variable resolve : option (list string -> result string (gmap string ProjectRetention)).
Variable defaultRetentionDays : Z.

Definition day : duration := 24 * hour.

Definition attribution (projectID : string) (expiresAt : time) (serviceID : string) (resolved : gmap string ProjectRetention) (now : time)
    : option (string * time) :=
  let projectID := TrimSpace projectID in
  r ← (match resolved !! serviceID with
       | Some policy =>
           Some (if str_eqb projectID "" then pr_ProjectID policy else projectID,
                 if is_zero expiresAt then now + clampRetentionDays (pr_RetentionDays policy) defaultRetentionDays * day else expiresAt)
       | None => if (match resolve with Some _ => true | None => false end) && str_eqb projectID "" then None else Some (projectID, expiresAt)
       end);
  let '(projectID, expiresAt) := r in
  Some (projectID, if is_zero expiresAt then now + clampRetentionDays 0 defaultRetentionDays * day else expiresAt).

(** The distinct services that need resolving, in order. *)
Fixpoint resolve_ids (inputs : list LogLineInput) (seen : list string) : list string :=
  match inputs with
  | [] => seen
  | li :: inputs =>
      if str_eqb (li_ServiceID li) "" || (negb (str_eqb (TrimSpace (li_ProjectID li)) "") && negb (is_zero (li_ExpiresAt li)))
         || existsb (str_eqb (li_ServiceID li)) seen
      then resolve_ids inputs seen else resolve_ids inputs (seen ++ [li_ServiceID li])
  end.

Definition resolveProjects (inputs : list LogLineInput) : result string (gmap string ProjectRetention) :=
  match resolve with
  | None => Ok ∅
  | Some f => let ids := resolve_ids inputs [] in if len ids =? 0 then Ok ∅ else f ids
  end.

(** ** Records of the file backend *)

(** [attrs] is the order in which a map of attributes is ranged over, and
    [synthetic] the identity drawn for the line at an index. *)
Variable attrs : gmap string string -> list (string * string).

Definition line_record (resolved : gmap string ProjectRetention) (now : time) (synthetic : string) (li : LogLineInput) : option fileRecord :=
  if str_eqb (TrimSpace (li_ServiceID li)) "" then None
  else
    a ← attribution (li_ProjectID li) (li_ExpiresAt li) (li_ServiceID li) resolved now;
    let '(project, expiry) := a in
    let '(line, truncated) := TruncateLine (li_Line li) in
    let id := if str_eqb (TrimSpace (li_ID li)) "" then synthetic else li_ID li in
    let stored := Build_LogLineInput id (if is_zero (li_ObservedAt li) then now else li_ObservedAt li) expiry project
      (li_EnvironmentID li) (li_ServiceID li) (li_AllocationID li) (li_AgentID li) (normalizeLogStream (li_Stream li))
      (normalizeLogType (li_LogType li)) (li_BuildID li) (normalizeStageName (li_Stage li)) (NormalizeEvent (li_Event li))
      (li_Attributes li ≫= (fun m => NormalizeAttributes (attrs m))) (li_Truncated li || truncated)
      (li_RolloutGeneration li) (li_Sequence li) line in
    Some (Build_fileRecord (Some stored) None id expiry).

Definition writeFileLines (now : time) (synthetic : nat -> string) (inputs : list LogLineInput) : result string (list fileRecord) :=
  resolved ← resolveProjects inputs;
  Ok (omap (fun x => x) (imap (fun i li => line_record resolved now (synthetic i) li) inputs)).

Definition gap_record (resolved : gmap string ProjectRetention) (now : time) (g : GapInput) : option fileRecord :=
  if str_eqb (gi_ServiceID g) "" || (gi_DroppedCount g =? 0) then None
  else
    a ← attribution (gi_ProjectID g) (gi_ExpiresAt g) (gi_ServiceID g) resolved now;
    let '(project, expiry) := a in
    let windowStart := if is_zero (gi_WindowStart g) then now else gi_WindowStart g in
    let windowEnd := if is_zero (gi_WindowEnd g) || (gi_WindowEnd g <? windowStart) then windowStart else gi_WindowEnd g in
    let logType := normalizeLogType (gi_LogType g) in
    let id := gapIdentity (gi_ServiceID g) (gi_AllocationID g) (gi_BuildID g) logType (gi_Stream g) (gi_Reason g) (gi_Reporter g)
                (gi_SummaryID g) windowStart windowEnd (gi_DroppedCount g) in
    Some (Build_fileRecord None
      (Some (Build_GapInput project (gi_ServiceID g) (gi_AllocationID g) (gi_BuildID g) logType (normalizeLogStream (gi_Stream g))
               windowStart windowEnd (gi_DroppedCount g) (NormalizeDropReason (gi_Reason g)) (gi_Reporter g) (gi_SummaryID g) expiry))
      id expiry).

Definition gap_inputs (gaps : list GapInput) : list LogLineInput :=
  map (fun g => Build_LogLineInput "" zero_time (gi_ExpiresAt g) (gi_ProjectID g) "" (gi_ServiceID g) "" "" "" "" "" "" "" None false 0 0 "") gaps.

Definition writeFileGaps (now : time) (gaps : list GapInput) : result string (list fileRecord) :=
  resolved ← resolveProjects (gap_inputs gaps);
  Ok (omap (gap_record resolved now) gaps).
End Rows.

(** ** Accounting of a batch *)

Section Accounting.
Context (unicode_lower quote : string -> string).
#[local] Abbreviation trim_key := (trim_key unicode_lower).
#[local] Abbreviation trim_loop := (trim_loop unicode_lower quote).

(** An entry cut from a batch that is counted under a key. *)
Definition counted (k : trimKey) (entry : option LogEntry) : bool :=
  match entry with
  | None => false
  | Some e => negb (str_eqb (TrimSpace (le_ServiceId e)) "") && bool_decide (trim_key e = k)
  end.

Definition gap_key (g : GapInput) : trimKey := (gi_ServiceID g, gi_AllocationID g, gi_LogType g, gi_Stream g).

Lemma trim_loop_snoc l e : trim_loop (l ++ [Some e]) =
  if str_eqb (TrimSpace (le_ServiceId e)) "" then trim_loop l
  else let '(n, text) := default (0, "") (trim_loop l !! trim_key e) in <[trim_key e := (uwrap64 (n + 1), text +:+ trim_fact quote e)]> (trim_loop l).
Proof. unfold LogStore.trim_loop. by rewrite foldl_snoc. Qed.

Lemma countb_snoc {A} (p : A -> bool) l x : countb p (l ++ [x]) = countb p l + if p x then 1 else 0.
Proof. rewrite countb_app. f_equal. unfold countb, sumZ. cbn. destruct (p x); lia. Qed.

Lemma trim_loop_counts k l : len l < two64 -> default 0 (fst <$> trim_loop l !! k) = countb (counted k) l.
Proof.
  induction l as [|entry l IH] using rev_ind; intros Hl; [done|]. rewrite len_app in Hl. pose proof (len_nonneg l). change (len [entry]) with 1 in Hl.
  specialize (IH ltac:(lia)). rewrite countb_snoc. destruct entry as [e|]; cbn [counted]; [|unfold LogStore.trim_loop; rewrite foldl_snoc; fold (trim_loop l); lia].
  rewrite trim_loop_snoc. destruct (str_eqb (TrimSpace (le_ServiceId e)) ""); cbn [negb andb]; [lia|].
  destruct (default (0, "") (trim_loop l !! trim_key e)) as [n text] eqn:Ed.
  case_bool_decide as Hk.
  - subst k. rewrite lookup_insert_eq. cbn. assert (n = countb (counted (trim_key e)) l) as ->.
    { rewrite <- IH. destruct (trim_loop l !! trim_key e) as [[a b]|]; cbn in *; congruence. }
    apply uwrap64_small. pose proof (countb_nonneg (counted (trim_key e)) l). pose proof (countb_le_len (counted (trim_key e)) l).
    unfold in_uint64. lia.
  - rewrite lookup_insert_ne by done. rewrite IH. symmetry. apply Z.add_0_r.
Qed.

Lemma trim_loop_keys k l : is_Some (trim_loop l !! k) -> countb (counted k) l <> 0.
Proof.
  induction l as [|entry l IH] using rev_ind; [by intros [? ?]|]. intros Hs. rewrite countb_snoc. pose proof (countb_nonneg (counted k) l).
  destruct entry as [e|]; cbn [counted].
  - rewrite trim_loop_snoc in Hs. destruct (str_eqb (TrimSpace (le_ServiceId e)) ""); cbn [negb andb]; [specialize (IH Hs); lia|].
    destruct (default (0, "") (trim_loop l !! trim_key e)) as [n text]. case_bool_decide as Hk; [lia|].
    rewrite lookup_insert_ne in Hs by done. specialize (IH Hs). lia.
  - unfold LogStore.trim_loop in Hs. rewrite foldl_snoc in Hs. specialize (IH Hs). lia.
Qed.

Lemma sum_at_key {V} (g : V -> Z) (k : string * string * string * string) (m : gmap (string * string * string * string) V) :
  sumZ (fun p => if bool_decide (p.1 = k) then g p.2 else 0) (map_to_list m) = default 0 (g <$> m !! k).
Proof.
  induction m as [|i x m Hi IH] using map_ind; [by rewrite map_to_list_empty, lookup_empty|].
  rewrite (sumZ_permutation _ _ _ (map_to_list_insert m i x Hi)). change (sumZ ?f (?a :: ?l)) with (f a + sumZ f l). cbn [fst snd]. rewrite IH.
  case_bool_decide as E.
  - subst i. rewrite lookup_insert_eq, Hi. cbn. lia.
  - rewrite lookup_insert_ne by done. lia.
Qed.

(** An entry that names an environment, a service and an allocation. *)
Definition placed_entries (entries : list (option LogEntry)) : list LogEntry :=
  List.filter (fun e => forallb (fun id => negb (str_eqb (TrimSpace id) "")) [le_EnvironmentId e; le_ServiceId e; le_AllocationId e]) (omap (fun e => e) entries).

(** A line says what its entry says. *)
Record carries (agentID : string) (e : LogEntry) (li : LogLineInput) : Prop := {
  ca_place : (li_EnvironmentID li, li_ServiceID li, li_AllocationID li, li_AgentID li) = (le_EnvironmentId e, le_ServiceId e, le_AllocationId e, agentID);
  ca_when : li_ObservedAt li = as_time (le_ObservedAt e) /\ li_Sequence li = le_Sequence e /\ li_RolloutGeneration li = le_RolloutGeneration e;
  ca_kind : (li_Stream li, li_LogType li, li_BuildID li, li_Stage li, li_Event li, li_Attributes li) =
            (le_Stream e, logTypeFromProto (le_LogType e), le_BuildId e, le_Stage e, le_Event e, le_Attributes e);
  ca_text : li_Line li = (TruncateLine (le_Line e)).1 /\ li_Truncated li = (TruncateLine (le_Line e)).2 || le_Truncated e /\ li_ID li = TrimSpace (le_LineId e)
}.

Lemma converted_entries agentID l : Forall2 (carries agentID) (placed_entries l) (omap (convert_entry agentID) l).
Proof.
  induction l as [|[e|] l IH]; [constructor| |exact IH]. unfold placed_entries. cbn [omap list_omap List.filter forallb convert_entry mbind option_bind].
  destruct (str_eqb (TrimSpace (le_EnvironmentId e)) "") eqn:E1, (str_eqb (TrimSpace (le_ServiceId e)) "") eqn:E2, (str_eqb (TrimSpace (le_AllocationId e)) "") eqn:E3; cbn [negb andb orb]; try exact IH.
  destruct (TruncateLine (le_Line e)) as [line truncated] eqn:Et. constructor; [|exact IH]. constructor; cbn; rewrite ?Et; done.
Qed.

(** C39: An agent's batch is accounted for.  Of its first [maxEntriesPerBatch]
    entries those that name an environment, a service and an allocation become
    lines, in their order and with what they say; the gaps stored with them add
    up, for every service, allocation, type and stream, to the entries beyond
    that were cut and name a service; the drops the agent reported itself are
    kept beside them.  (Entries without an environment, a service or an
    allocation are dropped and counted nowhere.) *)
Theorem batch_accounts range agentID now batch : (forall m, range m ≡ₚ map_to_list m) -> len (lb_Entries batch) < two64 ->
  exists lines gaps, convertAgentBatch unicode_lower quote range agentID now batch = (lines, dropSummariesToGaps (lb_Drops batch) agentID ++ gaps) /\
    Forall2 (carries agentID) (placed_entries (take maxEntriesPerBatch (lb_Entries batch))) lines /\
    (forall k, sumZ (fun g => if bool_decide (gap_key g = k) then gi_DroppedCount g else 0) gaps =
               countb (counted k) (drop maxEntriesPerBatch (lb_Entries batch))) /\
    Forall (fun g => gi_Reason g = ReasonIngestOverflow /\ 0 < gi_DroppedCount g) gaps.
Proof.
  intros Hr Hl. eexists _, _. split; [reflexivity|]. set (rest := drop maxEntriesPerBatch (lb_Entries batch)).
  assert (Hrest : len rest < two64).
  { rewrite <- (take_drop maxEntriesPerBatch (lb_Entries batch)), len_app in Hl. fold rest in Hl. pose proof (len_nonneg (take maxEntriesPerBatch (lb_Entries batch))). lia. }
  split; [|split].
  - apply converted_entries.
  - intros k. rewrite sumZ_map, (sumZ_permutation _ _ _ (Hr _)), <- trim_loop_counts by done. rewrite <- (sum_at_key fst). apply sumZ_ext.
    intros [[[[s a] t] st] [n text]] _. done.
  - apply Forall_forall. intros g ([[[[s a] t] st] [n text]] & -> & Hin)%list_elem_of_fmap. cbn. split; [done|]. rewrite Hr in Hin. apply elem_of_map_to_list in Hin.
    pose proof (trim_loop_counts (s, a, t, st) rest Hrest) as Hc. rewrite Hin in Hc. cbn in Hc. rewrite Hc.
    pose proof (countb_nonneg (counted (s, a, t, st)) rest) as Hn. destruct (Z.eq_dec (countb (counted (s, a, t, st)) rest) 0) as [E|]; [|lia].
    exfalso. revert E. apply trim_loop_keys. by eexists.
Qed.
End Accounting.

(** ** Attribution *)

Section Attribution.
Context (unicode_lower : string -> string) (f : list string -> result string (gmap string ProjectRetention)) (defaultRetentionDays : Z)
  (attrs : gmap string string -> list (string * string)).
#[local] Abbreviation attribution := (attribution (Some f) defaultRetentionDays).
#[local] Abbreviation line_record := (line_record unicode_lower (Some f) defaultRetentionDays attrs).
#[local] Abbreviation writeFileLines := (writeFileLines unicode_lower (Some f) defaultRetentionDays attrs).

Definition policies_named : Prop := forall ids m s p, f ids = Ok m -> m !! s = Some p -> pr_ProjectID p <> "".
Definition longest : Z := Z.max MaxProjectRetentionDays defaultRetentionDays.

Lemma clamp_bounds d : 1 <= defaultRetentionDays -> 1 <= clampRetentionDays d defaultRetentionDays <= longest.
Proof.
  unfold clampRetentionDays, longest, MinProjectRetentionDays, MaxProjectRetentionDays. intros H. destruct (0 <? d) eqn:E0; [apply Z.ltb_lt in E0|].
  - destruct (d <? 1) eqn:E1; [lia|]. apply Z.ltb_ge in E1. destruct (90 <? d) eqn:E2; [lia|]. apply Z.ltb_ge in E2. lia.
  - rewrite (proj2 (Z.leb_gt defaultRetentionDays 0)) by lia. lia.
Qed.

Lemma resolved_named inputs m : policies_named -> resolveProjects (Some f) inputs = Ok m -> forall s p, m !! s = Some p -> pr_ProjectID p <> "".
Proof.
  intros Hn H s p Hp. unfold resolveProjects in H. destruct (_ =? 0); [injection H as <-; by rewrite lookup_empty in Hp|]. by eapply Hn.
Qed.

Lemma attribution_spec project s m now project' expiry : 1 <= defaultRetentionDays -> 0 < now -> (forall s p, m !! s = Some p -> pr_ProjectID p <> "") ->
  attribution project zero_time s m now = Some (project', expiry) -> project' <> "" /\ now + day <= expiry <= now + longest * day.
Proof.
  intros Hd Hnow Hm. unfold LogStore.attribution, is_zero, zero_time. cbn [Z.eqb]. assert (Hday : 0 < day) by done.
  destruct (m !! s) as [p|] eqn:E; cbn.
  - pose proof (clamp_bounds (pr_RetentionDays p) Hd) as Hc. rewrite (proj2 (Z.eqb_neq (now + clampRetentionDays (pr_RetentionDays p) defaultRetentionDays * day) 0)) by nia. intros H. injection H as <- <-. split; [|nia].
    destruct (str_eqb (TrimSpace project) "") eqn:Ep; [by eapply Hm|by apply str_eqb_neq in Ep].
  - destruct (str_eqb (TrimSpace project) "") eqn:Ep; [done|]. cbn. pose proof (clamp_bounds 0 Hd) as Hc. intros H. injection H as <- <-.
    apply str_eqb_neq in Ep. split; [done|]. cbn in Hc. nia.
Qed.

Lemma truncate_bound s : len (codes (TruncateLine s).1) <= 65536.
Proof.
  unfold TruncateLine, truncate_at. assert (Hmax : Z.of_nat MaxLogLineBytes = 65536) by (unfold MaxLogLineBytes; by rewrite Z2Nat.id).
  destruct (length (codes s) <=? MaxLogLineBytes)%nat eqn:E; cbn [fst].
  - apply Nat.leb_le in E. rewrite of_codes_codes. unfold len. lia.
  - rewrite codes_of_codes by (apply Forall_take, codes_range). destruct (cut_back_spec (codes s) MaxLogLineBytes) as (H & _). unfold len.
    rewrite length_take. lia.
Qed.

(** A stored line: of a project, bounded and with a retention. *)
Definition filed (now : time) (r : fileRecord) : Prop :=
  exists l, r = Build_fileRecord (Some l) None (li_ID l) (li_ExpiresAt l) /\ li_ProjectID l <> "" /\
    now + day <= li_ExpiresAt l <= now + longest * day /\ len (codes (li_Line l)) <= 65536 /\
    li_Stream l ∈ ["stdout"; "stderr"; "combined"] /\ li_LogType l ∈ [LogTypeRuntime; LogTypeBuild; LogTypeDeploy; LogTypeHTTP; LogTypeNetwork].

Lemma line_record_filed m now synthetic li r : 1 <= defaultRetentionDays -> 0 < now -> (forall s p, m !! s = Some p -> pr_ProjectID p <> "") ->
  li_ExpiresAt li = zero_time -> line_record m now synthetic li = Some r ->
  filed now r /\ exists l, fr_Line r = Some l /\ li_ServiceID l = li_ServiceID li /\ li_Line l = (TruncateLine (li_Line li)).1.
Proof.
  intros Hd Hnow Hm Hz. unfold LogStore.line_record. destruct (str_eqb (TrimSpace (li_ServiceID li)) ""); [done|]. rewrite Hz.
  destruct (attribution _ _ _ _ _) as [[project expiry]|] eqn:Ea; [|done]. cbn. pose proof (truncate_bound (li_Line li)) as Ht.
  destruct (TruncateLine (li_Line li)) as [line truncated]. intros H. injection H as <-. split.
  - match goal with |- filed _ (Build_fileRecord (Some ?x) _ _ _) => exists x end. split; [reflexivity|]. cbn. destruct (attribution_spec _ _ _ _ _ _ Hd Hnow Hm Ea) as [H1 H2]. split; [done|]. split; [done|]. split; [done|].
    split; [unfold normalizeLogStream|unfold normalizeLogType]; repeat case_match; set_solver.
  - eexists. split; [reflexivity|]. done.
Qed.

Lemma omap_imap_elem {A B} (g : nat -> A -> option B) l b : b ∈ omap (fun x => x) (imap g l) <-> exists i a, l !! i = Some a /\ g i a = Some b.
Proof.
  rewrite list_elem_of_omap. split.
  - intros (x & Hx & ->). apply list_elem_of_lookup in Hx as [i Hi]. rewrite list_lookup_imap in Hi.
    destruct (l !! i) as [a|] eqn:E; [|done]. injection Hi as Hi. eauto.
  - intros (i & a & Hi & Hg). exists (Some b). split; [|done]. apply list_elem_of_lookup. exists i. by rewrite list_lookup_imap, Hi, <- Hg.
Qed.

(** Every stored line belongs to a project and has an end.  Of the lines an
    agent sent, what is written has a project, an expiry of at least a day and
    at most the longest retention, a line of at most 64 KiB, and one of the
    known streams and types; and every line of a service the resolver knows
    is among them. *)
Theorem stored_lines_attributed now synthetic inputs m records :
  policies_named -> 1 <= defaultRetentionDays -> 0 < now -> (forall li, li ∈ inputs -> li_ExpiresAt li = zero_time) ->
  resolveProjects (Some f) inputs = Ok m -> writeFileLines now synthetic inputs = Ok records ->
  Forall (filed now) records /\
  (forall li, li ∈ inputs -> TrimSpace (li_ServiceID li) <> "" -> is_Some (m !! li_ServiceID li) ->
     exists r l, r ∈ records /\ fr_Line r = Some l /\ li_ServiceID l = li_ServiceID li /\ li_Line l = (TruncateLine (li_Line li)).1).
Proof.
  intros Hn Hd Hnow Hz Hm H. unfold LogStore.writeFileLines in H. rewrite Hm in H. cbn in H. injection H as <-.
  pose proof (resolved_named inputs m Hn Hm) as Hp. split.
  - apply Forall_forall. intros r (i & li & Hi & Hr)%omap_imap_elem. apply list_elem_of_lookup_2 in Hi.
    by destruct (line_record_filed m now (synthetic i) li r Hd Hnow Hp (Hz li Hi) Hr).
  - intros li Hli Hs Hk. apply list_elem_of_lookup in Hli as [i Hi].
    assert (Hr : exists r, line_record m now (synthetic i) li = Some r).
    { unfold LogStore.line_record. rewrite (proj2 (str_eqb_neq _ _) Hs). destruct Hk as [p Hk]. unfold LogStore.attribution. rewrite Hk. cbn.
      destruct (TruncateLine (li_Line li)). eauto. }
    destruct Hr as [r Hr]. pose proof (list_elem_of_lookup_2 _ _ _ Hi) as Hin.
    destruct (line_record_filed m now (synthetic i) li r Hd Hnow Hp (Hz li Hin) Hr) as (_ & l & H1 & H2). exists r, l. split; [|done].
    apply omap_imap_elem. eauto.
Qed.
End Attribution.

(** Two entries of a service past the limit, one without a service. *)
Definition demo_entry (service line : string) : LogEntry :=
  Build_LogEntry None "e" service "a" "stdout" 1 1 line 1 "" "" None false "" "".
Definition demo_batch : LogBatch :=
  Build_LogBatch (repeat (Some (demo_entry "svc" "x")) maxEntriesPerBatch ++ [Some (demo_entry "svc" "y"); Some (demo_entry " " "z"); None; Some (demo_entry "svc" "w")]) [].
Definition demo_policy : ProjectRetention := Build_ProjectRetention "project" 200.
Definition demo_resolver (ids : list string) : result string (gmap string ProjectRetention) := Ok {["svc" := demo_policy]}.
Definition demo_input : LogLineInput :=
  Build_LogLineInput "" 0 zero_time "" "e" "svc" "a" "agent" "STDERR" "build" "" "" "" None false 1 1 "hello".

Lemma batch_accounts_witness :
  exists lines gaps, convertAgentBatch (fun s => s) (fun s => s) map_to_list "agent" 5 demo_batch = (lines, dropSummariesToGaps [] "agent" ++ gaps) /\
    Forall2 (carries "agent") (placed_entries (take maxEntriesPerBatch (lb_Entries demo_batch))) lines /\ length lines = 2000%nat /\
    sumZ (fun g => if bool_decide (gap_key g = ("svc", "a", "runtime", "stdout")) then gi_DroppedCount g else 0) gaps = 2.
Proof.
  destruct (batch_accounts (fun s => s) (fun s => s) map_to_list "agent" 5 demo_batch) as (lines & gaps & H1 & H2 & H3 & _).
  - reflexivity.
  - vm_compute. reflexivity.
  - exists lines, gaps. split; [exact H1|]. split; [exact H2|]. split; [rewrite <- (Forall2_length _ _ _ H2); vm_compute; reflexivity|]. rewrite H3. vm_compute. reflexivity.
Defined.

Lemma stored_lines_attributed_witness :
  exists records, writeFileLines (fun s => s) (Some demo_resolver) 14 map_to_list 5 (fun _ => "id") [demo_input] = Ok records /\
    Forall (filed 14 5) records /\
    exists r l, r ∈ records /\ fr_Line r = Some l /\ li_ServiceID l = "svc" /\ li_Line l = (TruncateLine "hello").1.
Proof.
  eexists. split; [reflexivity|].
  destruct (stored_lines_attributed (fun s => s) demo_resolver 14 map_to_list 5 (fun _ => "id") [demo_input] {["svc" := demo_policy]}
    (omap (fun x => x) (imap (fun i li => line_record (fun s => s) (Some demo_resolver) 14 map_to_list {["svc" := demo_policy]} 5 "id" li) [demo_input])))
    as [H1 H2].
  - intros ids m s p Hm Hp. injection Hm as <-. apply lookup_singleton_Some in Hp as [_ <-]. discriminate.
  - discriminate.
  - reflexivity.
  - intros li ->%list_elem_of_singleton. reflexivity.
  - reflexivity.
  - reflexivity.
  - split; [exact H1|]. apply (H2 demo_input); [constructor|vm_compute; discriminate|]. exists demo_policy. vm_compute. reflexivity.
Defined.

End LogStore.
