(* ===== verification/FileLogs.v ===== *)
(** * The file backend of log storage

    [internal/controlplane/logs/file_storage.go], [file_lock.go] and
    [file_query.go]: segments of JSON lines in a directory, their byte budget
    and expiry, recovery of an interrupted append, and pages of a query.  Every
    operation holds the directory lock from [acquire] to [release], so it is
    one step on the directory; what a process keeps between operations is only
    its list of segments.  A directory is the list of its segment files, a file
    its complete lines and the bytes after the last newline.  One reading of the
    clock decides which records an operation takes as expired; the readings made
    when an append creates segments, which their names carry, are given
    separately.  Paths are relative to the directory.  [encoding/json] on
    records, the random part of a new file's name and modification times are
    parameters. *)

From S2P Require Import Prelude GoText GoFloat DurableWork Billing ClosePeriod GoTime Sha256 RowMap Journal Product Authz LogPipeline LogStore.

Module FileLogs.
Import LogPipeline LogStore.

Record FileLogConfig := { MaxBytes : Z; SegmentBytes : Z }.

Record dfile := { df_path : string; df_lines : list string; df_tail : string; df_mtime : time }.
#[export] Instance dfile_eta : Eta dfile := fun f => Build_dfile (df_path f) (df_lines f) (df_tail f) (df_mtime f).
Definition directory : Type := list dfile.

Record fileSegment := { sg_path : string; sg_modified : time; sg_size : Z; sg_expiry : time }.
#[export] Instance fileSegment_eta : Eta fileSegment := fun s => Build_fileSegment (sg_path s) (sg_modified s) (sg_size s) (sg_expiry s).

Inductive error : Type :=
| NoDirectory | BadBudget | NotExist | OversizedTail | TooLong | BadJSON | Unencodable | RecordTooLarge
| BadCursor (e : cursor_error).

(** ** Bytes of a file *)

Definition slen (s : string) : Z := Z.of_nat (String.length s).
Definition line_bytes (s : string) : Z := slen s + 1.
Definition file_size (f : dfile) : Z := sumZ line_bytes (df_lines f) + slen (df_tail f).

Definition find_file (path : string) (d : directory) : option dfile := List.find (fun f => str_eqb (df_path f) path) d.
Definition set_file (f : dfile) (d : directory) : directory := map (fun g => if str_eqb (df_path g) (df_path f) then f else g) d.
Definition remove_file (path : string) (d : directory) : directory := List.filter (fun f => negb (str_eqb (df_path f) path)) d.

(** The largest line [bufio.Scanner] returns, its newline included. *)
Definition scanLimit : Z := 256 * 1024.

(** The lowest decimal digits of a number, the highest first. *)
Fixpoint digits (width : nat) (n : Z) : string :=
  match width with
  | O => ""
  | S w => String (Ascii.ascii_of_N (Z.to_N (48 + n / 10 ^ Z.of_nat w mod 10))) (digits w n)
  end.

(** [%020d] of an int64, which has at most 19 digits. *)
Definition format020 (n : Z) : string := if n <? 0 then "-" +:+ digits 19 (- n) else digits 20 n.

(** [os.CreateTemp] with the pattern [%020d-*.jsonl] of [time.Now().UnixNano()]. *)
Definition segment_name (created : time) (random : string) : string :=
  format020 (UnixNano created) +:+ "-" +:+ random +:+ ".jsonl".

Example segment_name_2026 : segment_name (unix_epoch + 1790000000 * second + 5) "123" = "01790000000000000005-123.jsonl".
Proof. vm_compute. reflexivity. Qed.

(** [filepath.Glob]: sorted by name. *)
Definition glob (d : directory) : list string := isort String.leb (map df_path d).

Definition earliestExpiry (a b : time) : time := if is_zero a || (b <? a) then b else a.

Definition repairFileTail (mtime : time) (f : dfile) : result error dfile :=
  if file_size f =? 0 then Ok f
  else if str_eqb (df_tail f) "" then Ok f
  else if (scanLimit <=? slen (df_tail f)) && (scanLimit <? file_size f) then Err OversizedTail
  else Ok (f <| df_tail := "" |> <| df_mtime := mtime |>).

Section Files.
(** [json.Marshal] and [json.Unmarshal] on a record. *)
Variable marshal : fileRecord -> option string.
Variable unmarshal : string -> option fileRecord.
(** The random part [os.CreateTemp] puts in a name, at a time and beside other
    files. *)
Variable random : time -> list string -> string.
(** The modification time a write leaves, which the file system draws. *)
Variable mtime : time.

Definition tokens (f : dfile) : list string := df_lines f ++ (if str_eqb (df_tail f) "" then [] else [df_tail f]).

Fixpoint scan_lines (l : list string) : result error (list fileRecord) :=
  match l with
  | [] => Ok []
  | s :: l =>
      if scanLimit <? line_bytes s then Err TooLong
      else match unmarshal s with
           | None => Err BadJSON
           | Some r => rs ← scan_lines l; Ok (r :: rs)
           end
  end.
Definition scanFile (path : string) (d : directory) : result error (list fileRecord) :=
  match find_file path d with None => Err NotExist | Some f => scan_lines (tokens f) end.

Definition expiry_of (rs : list fileRecord) : time := foldl (fun e r => earliestExpiry e (fr_ExpiresAt r)) zero_time rs.

(** ** Under the lock *)

(** One file of [refresh]; a changed or unknown one is repaired and scanned. *)
Definition refresh_one (previous : list fileSegment) (path : string) (d : directory) : directory * result error fileSegment :=
  match find_file path d with
  | None => (d, Err NotExist)
  | Some f =>
      match List.find (fun s => str_eqb (sg_path s) path) previous with
      | Some s => if (sg_size s =? file_size f) && (sg_modified s =? df_mtime f) then (d, Ok s) else
          match repairFileTail mtime f with
          | Err e => (d, Err e)
          | Ok f => let d := set_file f d in
              (d, rs ← scanFile path d; Ok (Build_fileSegment path (df_mtime f) (file_size f) (expiry_of rs)))
          end
      | None =>
          match repairFileTail mtime f with
          | Err e => (d, Err e)
          | Ok f => let d := set_file f d in
              (d, rs ← scanFile path d; Ok (Build_fileSegment path (df_mtime f) (file_size f) (expiry_of rs)))
          end
      end
  end.

Fixpoint refresh_loop (previous : list fileSegment) (paths : list string) (d : directory) (acc : list fileSegment)
    : directory * result error (list fileSegment) :=
  match paths with
  | [] => (d, Ok acc)
  | path :: paths =>
      match refresh_one previous path d with
      | (d, Err e) => (d, Err e)
      | (d, Ok s) => refresh_loop previous paths d (acc ++ [s])
      end
  end.
Definition refresh (previous : list fileSegment) (d : directory) : directory * result error (list fileSegment) :=
  refresh_loop previous (glob d) d [].

(** Segments and the directory while the lock is held. *)
Record world := { segs : list fileSegment; dir : directory }.

(** [acquire], an operation and [release]; the segments stay as refreshed or as
    the operation left them, also when it fails. *)
Definition locked {A} (op : world -> world * result error A) (previous : list fileSegment) (d : directory) : world * result error A :=
  match refresh previous d with
  | (d, Err e) => (Build_world previous d, Err e)
  | (d, Ok s) => op (Build_world s d)
  end.

(** The segments [trim] removes from the front. *)
Fixpoint trim_count (cfg : FileLogConfig) (l : list fileSegment) (total : Z) : nat :=
  match l with
  | [] => O
  | s :: l => if total <=? MaxBytes cfg then O else S (trim_count cfg l (total - sg_size s))
  end.
Definition trim (cfg : FileLogConfig) (w : world) : world :=
  let n := trim_count cfg (segs w) (sumZ sg_size (segs w)) in
  Build_world (drop n (segs w)) (foldl (fun d s => remove_file (sg_path s) d) (dir w) (take n (segs w))).

(** ** Rewriting *)

(** The scan of a segment: the lines written again, the records kept, and
    whether one was left out. *)
Fixpoint scan_rewrite (keep : fileRecord -> bool) (l : list string) : result error (list string * list fileRecord * bool) :=
  match l with
  | [] => Ok ([], [], false)
  | s :: l =>
      if scanLimit <? line_bytes s then Err TooLong
      else match unmarshal s with
           | None => Err BadJSON
           | Some r =>
               if keep r then
                 match marshal r with
                 | None => Err Unencodable
                 | Some data => '(lines, rs, modified) ← scan_rewrite keep l; Ok (data :: lines, r :: rs, modified)
                 end
               else '(lines, rs, _) ← scan_rewrite keep l; Ok (lines, rs, true)
           end
  end.

(** One segment of [rewriteSegments]: the segments it leaves in place of it. *)
Definition rewrite_one (keep : fileRecord -> bool) (s : fileSegment) (d : directory) : result error (list fileSegment * directory) :=
  match find_file (sg_path s) d with
  | None => Err NotExist
  | Some f =>
      '(lines, kept, modified) ← scan_rewrite keep (tokens f);
      let expiry := expiry_of kept in
      if negb modified then Ok ([s <| sg_expiry := expiry |>], d)
      else if len kept =? 0 then Ok ([], remove_file (sg_path s) d)
      else
        let f := Build_dfile (sg_path s) lines "" mtime in
        Ok ([s <| sg_size := file_size f |> <| sg_expiry := expiry |>], set_file f d)
  end.

Fixpoint rewrite_loop (selected : fileSegment -> bool) (keep : fileRecord -> bool) (before after : list fileSegment) (d : directory)
    : world * result error unit :=
  match after with
  | [] => (Build_world before d, Ok tt)
  | s :: after =>
      if selected s then
        match rewrite_one keep s d with
        | Err e => (Build_world (before ++ s :: after) d, Err e)
        | Ok (l, d) => rewrite_loop selected keep (before ++ l) after d
        end
      else rewrite_loop selected keep (before ++ [s]) after d
  end.
Definition rewriteSegments (selected : fileSegment -> bool) (keep : fileRecord -> bool) (w : world) : world * result error unit :=
  rewrite_loop selected keep [] (segs w) (dir w).
Definition rewrite (keep : fileRecord -> bool) (w : world) : world * result error unit := rewriteSegments (fun _ => true) keep w.

Definition expire (now : time) (w : world) : world * result error unit :=
  rewriteSegments (fun s => sg_expiry s <=? now) (fun r => now <? fr_ExpiresAt r) w.

Definition of_project (projectID : string) (r : fileRecord) : bool :=
  match fr_Line r with
  | Some l => str_eqb (li_ProjectID l) projectID
  | None => match fr_Gap r with Some g => str_eqb (gi_ProjectID g) projectID | None => false end
  end.
Definition purge (projectID : string) : list fileSegment -> directory -> world * result error unit :=
  locked (rewrite (fun r => negb (of_project projectID r))).
Definition sweep (now : time) : list fileSegment -> directory -> world * result error unit := locked (expire now).

(** ** Appending *)

Definition new_segment (cfg : FileLogConfig) (created : time) (w : world) : world :=
  let w := trim cfg w in
  let path := segment_name created (random created (map df_path (dir w))) in
  Build_world (segs w ++ [Build_fileSegment path zero_time 0 zero_time]) (dir w ++ [Build_dfile path [] "" mtime]).

(** Whether a line of this size needs a new segment. *)
Definition full (cfg : FileLogConfig) (n : Z) (w : world) : bool :=
  match last (segs w) with Some s => SegmentBytes cfg <? sg_size s + n | None => true end.

(** The segment a record goes to: the last one, or a new one after a trim. *)
Definition room (cfg : FileLogConfig) (created : time) (n : Z) (w : world) : world :=
  if full cfg n w then new_segment cfg created w else w.

Definition add_line (data : string) (f : dfile) : dfile :=
  f <| df_lines := df_lines f ++ [df_tail f +:+ data] |> <| df_tail := "" |> <| df_mtime := mtime |>.

(** [active.Write] of a whole line to the last segment. *)
Definition write_line (data : string) (expires : time) (w : world) : world :=
  match last (segs w) with
  | None => w
  | Some s =>
      Build_world
        (removelast (segs w) ++ [s <| sg_size := sg_size s + line_bytes data |> <| sg_expiry := earliestExpiry (sg_expiry s) expires |>])
        (map (fun f => if str_eqb (df_path f) (sg_path s) then add_line data f else f) (dir w))
  end.

(** [stamps] are the readings of the clock when segments are created. *)
Fixpoint append_loop (cfg : FileLogConfig) (now : time) (stamps : list time) (records : list fileRecord) (w : world) : world * result error unit :=
  match records with
  | [] => (w, Ok tt)
  | r :: records =>
      if fr_ExpiresAt r <=? now then append_loop cfg now stamps records w
      else
        match marshal r with
        | None => (w, Err Unencodable)
        | Some data =>
            if SegmentBytes cfg <? line_bytes data then (w, Err RecordTooLarge)
            else
              append_loop cfg now (if full cfg (line_bytes data) w then tail stamps else stamps) records
                (write_line data (fr_ExpiresAt r) (room cfg (default now (head stamps)) (line_bytes data) w))
        end
  end.

(** Gaps a batch reports again. *)
Definition replaced (records : list fileRecord) (r : fileRecord) : bool :=
  match fr_Gap r with
  | None => false
  | Some _ => existsb (fun n => match fr_Gap n with Some _ => str_eqb (fr_ID n) (fr_ID r) | None => false end) records
  end.

Definition append_op (cfg : FileLogConfig) (now : time) (stamps : list time) (records : list fileRecord) (w : world) : world * result error unit :=
  let gaps := existsb (fun r => match fr_Gap r with Some _ => true | None => false end) records in
  match (if gaps then rewrite (fun r => negb (replaced records r)) w else (w, Ok tt)) with
  | (w, Err e) => (w, Err e)
  | (w, Ok _) =>
      match append_loop cfg now stamps records w with
      | (w, Err e) => (w, Err e)
      | (w, Ok _) => (trim cfg w, Ok tt)
      end
  end.
Definition append (cfg : FileLogConfig) (now : time) (stamps : list time) (records : list fileRecord) (previous : list fileSegment) (d : directory) : world * result error unit :=
  if len records =? 0 then (Build_world previous d, Ok tt) else locked (append_op cfg now stamps records) previous d.

(** ** Opening *)

Definition budget (cfg : FileLogConfig) : FileLogConfig :=
  Build_FileLogConfig (if MaxBytes cfg =? 0 then 64 * 1024 * 1024 else MaxBytes cfg)
    (if SegmentBytes cfg =? 0 then 1024 * 1024 else SegmentBytes cfg).

Definition openFileStore (cfg : FileLogConfig) (now : time) (directory_name : string) (d : directory) : world * result error FileLogConfig :=
  if str_eqb (TrimSpace directory_name) "" then (Build_world [] d, Err NoDirectory)
  else
    let cfg := budget cfg in
    if (SegmentBytes cfg <? 256 * 1024) || (MaxBytes cfg <? SegmentBytes cfg) then (Build_world [] d, Err BadBudget)
    else locked (fun w => match expire now w with (w, Err e) => (w, Err e) | (w, Ok _) => (trim cfg w, Ok cfg) end) [] d.

(** ** Pages *)

Record ListServiceLogsRequest := {
  rq_ServiceId : string; rq_AllocationId : string; rq_StartTime : timestamp; rq_EndTime : timestamp; rq_Limit : Z; rq_LogType : Z;
  rq_BuildId : string; rq_Search : string; rq_PageToken : string; rq_GapPageToken : string
}.

Definition defaultLogQueryLimit : Z := 500.
Definition maxLogQueryLimit : Z := 5000.
Definition maxLogGapResults : nat := Z.to_nat 500.

Record filePageItem := { it_record : fileRecord; it_at : time; it_key : string }.

(** [sort.Search]: halving, with the length as fuel. *)
Fixpoint search_loop (fuel : nat) (f : nat -> bool) (i j : nat) : nat :=
  match fuel with
  | O => i
  | S fuel =>
      if (i <? j)%nat then let h := Nat.div2 (i + j) in if f h then search_loop fuel f i h else search_loop fuel f (S h) j
      else i
  end.
Definition Search (n : nat) (f : nat -> bool) : nat := search_loop n f 0 n.

(** Not newer than an item. *)
Definition not_after (item p : filePageItem) : bool :=
  (it_at p <? it_at item) || ((it_at p =? it_at item) && String.leb (it_key p) (it_key item)).
Definition same_key (item p : filePageItem) : bool := (it_at p =? it_at item) && str_eqb (it_key p) (it_key item).

Definition addFilePage (page : list filePageItem) (item : filePageItem) (limit : nat) : list filePageItem :=
  let i := Search (length page) (fun i => match page !! i with Some p => not_after item p | None => false end) in
  if match page !! i with Some p => same_key item p | None => false end then <[i := item]> page
  else if (limit <=? i)%nat then page
  else
    let page := take i page ++ item :: drop i page in
    if (limit <? length page)%nat then take limit page else page.

Variable unicode_lower : string -> string.
#[local] Abbreviation ToLower := (Authz.ToLower unicode_lower).

Fixpoint Contains (s sub : string) : bool :=
  String.prefix sub s || match s with EmptyString => false | String _ s => Contains s sub end.

(** The filters of a request on a line and on a gap, without its cursors. *)
Definition matches (req : ListServiceLogsRequest) (service allocation build : string) (t : LogType) (isGap : bool) : bool :=
  let kind := logTypeFromProto (rq_LogType req) in
  str_eqb service (rq_ServiceId req) &&
  (str_eqb (rq_AllocationId req) "" || str_eqb allocation (rq_AllocationId req) || (isGap && str_eqb allocation "")) &&
  (str_eqb (rq_BuildId req) "" || str_eqb build (rq_BuildId req) || (isGap && str_eqb build "")) &&
  (str_eqb kind "" || str_eqb kind t).

Definition before (t : time) (bound : timestamp) : bool := match bound with Some b => t <? b | None => false end.
Definition after (t : time) (bound : timestamp) : bool := match bound with Some b => b <? t | None => false end.

Definition line_item (req : ListServiceLogsRequest) (now : time) (r : fileRecord) : option filePageItem :=
  if fr_ExpiresAt r <=? now then None
  else
    l ← fr_Line r;
    let search := ToLower (TrimSpace (rq_Search req)) in
    if negb (matches req (li_ServiceID l) (li_AllocationID l) (li_BuildID l) (li_LogType l) false)
       || (negb (str_eqb search "") && negb (Contains (ToLower (li_Line l)) search))
       || before (li_ObservedAt l) (rq_StartTime req) || after (li_ObservedAt l) (rq_EndTime req)
    then None else Some (Build_filePageItem r (li_ObservedAt l) (fr_ID r)).

Definition gap_item (req : ListServiceLogsRequest) (now : time) (r : fileRecord) : option filePageItem :=
  if fr_ExpiresAt r <=? now then None
  else
    g ← fr_Gap r;
    if negb (matches req (gi_ServiceID g) (gi_AllocationID g) (gi_BuildID g) (gi_LogType g) true)
       || before (gi_WindowEnd g) (rq_StartTime req) || after (gi_WindowStart g) (rq_EndTime req)
    then None else Some (Build_filePageItem r (gi_WindowStart g) (fr_ID r)).

(** Below a cursor; the zero time is no cursor. *)
Definition older (cursor : time * string) (item : filePageItem) : bool :=
  is_zero cursor.1 || (it_at item <? cursor.1) || ((it_at item =? cursor.1) && String.ltb (it_key item) cursor.2).

Definition collect (limit : nat) (cursor : time * string) (items : list filePageItem) (page : list filePageItem) : list filePageItem :=
  foldl (fun page item => if older cursor item then addFilePage page item limit else page) page items.

Fixpoint scan_all (paths : list string) (d : directory) : result error (list fileRecord) :=
  match paths with
  | [] => Ok []
  | path :: paths => rs ← scanFile path d; rest ← scan_all paths d; Ok (rs ++ rest)
  end.

(** The rows of a page and the token of the next. *)
Definition cut_page (limit : nat) (items : list filePageItem) : list filePageItem * string :=
  if (limit <? length items)%nat
  then (take limit items, match items !! (limit - 1)%nat with Some it => EncodeCursor (it_at it) (it_key it) | None => "" end)
  else (items, "").

Record ServiceLog := {
  sl_ObservedAt : time; sl_ProjectID : string; sl_EnvironmentID : string; sl_ServiceID : string; sl_AllocationID : string;
  sl_AgentID : string; sl_Stream : string; sl_RolloutGeneration : Z; sl_Sequence : Z; sl_LineID : string; sl_Line : string;
  sl_LogType : string; sl_BuildID : string; sl_Stage : string; sl_Event : string; sl_Attributes : option (gmap string string); sl_Truncated : bool
}.
Definition service_log (l : LogLineInput) : ServiceLog :=
  Build_ServiceLog (li_ObservedAt l) (li_ProjectID l) (li_EnvironmentID l) (li_ServiceID l) (li_AllocationID l) (li_AgentID l) (li_Stream l)
    (li_RolloutGeneration l) (li_Sequence l) (li_ID l) (li_Line l) (li_LogType l) (li_BuildID l) (li_Stage l) (li_Event l)
    (li_Attributes l) (li_Truncated l).

Record ServiceLogGap := {
  sgp_AllocationID : string; sgp_BuildID : string; sgp_LogType : string; sgp_Stream : string; sgp_DroppedCount : Z; sgp_Reason : string;
  sgp_WindowStart : time; sgp_WindowEnd : time
}.
Definition service_gap (g : GapInput) : ServiceLogGap :=
  Build_ServiceLogGap (gi_AllocationID g) (gi_BuildID g) (gi_LogType g) (gi_Stream g) (gi_DroppedCount g) (gi_Reason g) (gi_WindowStart g)
    (gi_WindowEnd g).

Record ServiceLogPage := { pg_Lines : list ServiceLog; pg_Gaps : list ServiceLogGap; pg_NextPageToken : string; pg_NextGapPageToken : string }.

Definition logs_of (items : list filePageItem) : list ServiceLog := omap (fun it => service_log <$> fr_Line (it_record it)) items.
Definition gaps_of (items : list filePageItem) : list ServiceLogGap := omap (fun it => service_gap <$> fr_Gap (it_record it)) items.

Definition cursor_of (token : string) : result error (time * string) :=
  match DecodeCursor token with Ok c => Ok c | Err e => Err (BadCursor e) end.

Definition page_limit (req : ListServiceLogsRequest) : nat :=
  Z.to_nat (Z.min (if rq_Limit req <=? 0 then defaultLogQueryLimit else rq_Limit req) maxLogQueryLimit).

Definition list_op (now : time) (req : ListServiceLogsRequest) (cursor gapCursor : time * string) (w : world) : world * result error ServiceLogPage :=
  (w, rs ← scan_all (map sg_path (segs w)) (dir w);
      let limit := page_limit req in
      let '(lines, token) := cut_page limit (collect (S limit) cursor (omap (line_item req now) rs) []) in
      let '(gaps, gapToken) := cut_page maxLogGapResults (collect (S maxLogGapResults) gapCursor (omap (gap_item req now) rs) []) in
      Ok (Build_ServiceLogPage (logs_of lines) (gaps_of gaps) token gapToken)).

Definition list_logs (now : time) (req : ListServiceLogsRequest) (previous : list fileSegment) (d : directory) : world * result error ServiceLogPage :=
  match cursor_of (rq_PageToken req), cursor_of (rq_GapPageToken req) with
  | Err e, _ => (Build_world previous d, Err e)
  | _, Err e => (Build_world previous d, Err e)
  | Ok cursor, Ok gapCursor => locked (list_op now req cursor gapCursor) previous d
  end.

(** ** The store over its files *)

Inductive store_error : Type := ResolveFailed (message : string) | ProjectRequired | FileError (e : error).

Variable quote : string -> string.
Variable resolve : option (list string -> result string (gmap string ProjectRetention)).
Variable defaultRetentionDays : Z.
Variable attrs : gmap string string -> list (string * string).
Variable range : gmap trimKey (Z * string) -> list (trimKey * (Z * string)).

(** Records that were built go to the files; a failure to resolve changes nothing. *)
Definition store_records (cfg : FileLogConfig) (now : time) (stamps : list time) (records : result string (list fileRecord)) (w : world) : world * result store_error unit :=
  match records with
  | Err e => (w, Err (ResolveFailed e))
  | Ok records =>
      match append cfg now stamps records (segs w) (dir w) with
      | (w, Ok _) => (w, Ok tt)
      | (w, Err e) => (w, Err (FileError e))
      end
  end.

Definition WriteLogLines (cfg : FileLogConfig) (now : time) (stamps : list time) (synthetic : nat -> string) (inputs : list LogLineInput) (w : world) : world * result store_error unit :=
  if len inputs =? 0 then (w, Ok tt)
  else store_records cfg now stamps (writeFileLines unicode_lower resolve defaultRetentionDays attrs now synthetic inputs) w.

Definition WriteGaps (cfg : FileLogConfig) (now : time) (stamps : list time) (gaps : list GapInput) (w : world) : world * result store_error unit :=
  if len gaps =? 0 then (w, Ok tt)
  else store_records cfg now stamps (writeFileGaps unicode_lower resolve defaultRetentionDays now gaps) w.

Definition WriteAgentBatch (cfg : FileLogConfig) (now : time) (stamps gapStamps : list time) (synthetic : nat -> string) (agentID : string) (batch : option LogBatch) (w : world)
    : world * result store_error unit :=
  match batch with
  | None => (w, Ok tt)
  | Some batch =>
      let '(inputs, gaps) := convertAgentBatch unicode_lower quote range agentID now batch in
      match WriteLogLines cfg now stamps synthetic inputs w with
      | (w, Err e) => (w, Err e)
      | (w, Ok _) => WriteGaps cfg now gapStamps gaps w
      end
  end.

Definition PurgeProjectLogs (projectID : string) (w : world) : world * result store_error unit :=
  if str_eqb (TrimSpace projectID) "" then (w, Err ProjectRequired)
  else match purge projectID (segs w) (dir w) with (w, Ok _) => (w, Ok tt) | (w, Err e) => (w, Err (FileError e)) end.
End Files.

(** ** The order of a page *)

Definition newer (a b : filePageItem) : bool :=
  (it_at b <? it_at a) || ((it_at b =? it_at a) && String.ltb (it_key b) (it_key a)).

Lemma newer_spec a b : newer a b = true <-> it_at b < it_at a \/ (it_at b = it_at a /\ String.ltb (it_key b) (it_key a) = true).
Proof. unfold newer. rewrite orb_true_iff, andb_true_iff, Z.ltb_lt, Z.eqb_eq. done. Qed.

Lemma same_key_spec a b : same_key a b = true <-> it_at b = it_at a /\ it_key b = it_key a.
Proof. unfold same_key. rewrite andb_true_iff, Z.eqb_eq, str_eqb_eq. done. Qed.

Lemma newer_trans a b c : newer a b = true -> newer b c = true -> newer a c = true.
Proof.
  rewrite !newer_spec. intros [H|[H1 H2]] [G|[G1 G2]]; [left; lia..|]. right. split; [lia|]. by eapply string_ltb_trans.
Qed.

Lemma newer_irrefl a : newer a a = false.
Proof. apply not_true_iff_false. rewrite newer_spec, string_ltb_irrefl. intros [?|[_ ?]]; [lia|done]. Qed.

Lemma newer_asym a b : newer a b = true -> newer b a = false.
Proof. intros H. apply not_true_iff_false. intros G. pose proof (newer_trans _ _ _ H G) as K. by rewrite newer_irrefl in K. Qed.

Lemma newer_total a b : newer a b = false -> same_key a b = false -> newer b a = true.
Proof.
  intros H1 H2. rewrite <- not_true_iff_false, newer_spec in H1. rewrite <- not_true_iff_false, same_key_spec in H2.
  apply newer_spec. destruct (Z.lt_trichotomy (it_at a) (it_at b)) as [?|[E|?]]; [by left| |exfalso; by apply H1; left]. right. split; [done|].
  destruct (string_trichotomy (it_key a) (it_key b)) as [[? _]|[?|(? & K & _)]]; [done|..].
  - exfalso. apply H2. done.
  - exfalso. apply H1. right. done.
Qed.

Lemma newer_same a b c : same_key a b = true -> newer a c = newer b c /\ newer c a = newer c b.
Proof. rewrite same_key_spec. unfold newer. intros [-> ->]. done. Qed.

Lemma not_after_newer item p : not_after item p = negb (newer p item).
Proof.
  unfold not_after, newer. destruct (Z.lt_trichotomy (it_at p) (it_at item)) as [H|[H|H]].
  - rewrite (proj2 (Z.ltb_lt (it_at p) (it_at item)) H), (proj2 (Z.ltb_ge (it_at item) (it_at p))), (proj2 (Z.eqb_neq (it_at item) (it_at p))) by lia. done.
  - rewrite H, Z.ltb_irrefl, Z.eqb_refl, string_ltb_leb. cbn. by rewrite negb_involutive.
  - rewrite (proj2 (Z.ltb_ge (it_at p) (it_at item))), (proj2 (Z.eqb_neq (it_at p) (it_at item))), (proj2 (Z.ltb_lt (it_at item) (it_at p))) by lia. done.
Qed.

Definition descending (l : list filePageItem) : Prop := StronglySorted (fun a b => newer a b = true) l.

(** Insertion without a limit; an item with the same key is replaced. *)
Fixpoint place (item : filePageItem) (l : list filePageItem) : list filePageItem :=
  match l with
  | [] => [item]
  | p :: l' => if newer p item then p :: place item l' else if same_key item p then item :: l' else item :: p :: l'
  end.
Definition newest (items : list filePageItem) : list filePageItem := foldl (fun l it => place it l) [] items.

Lemma place_in item l x : x ∈ place item l -> x = item \/ x ∈ l.
Proof.
  induction l as [|p l IH]; cbn; [set_solver|]. destruct (newer p item); [set_solver|]. destruct (same_key item p); set_solver.
Qed.

Lemma place_descending item l : descending l -> descending (place item l).
Proof.
  induction l as [|p l IH]; intros H; cbn; [by repeat constructor|]. apply StronglySorted_inv in H as [Hl Hp].
  destruct (newer p item) eqn:E; [|destruct (same_key item p) eqn:K].
  - constructor; [by apply IH|]. apply Forall_forall. intros x [->|Hx]%place_in; [done|]. rewrite Forall_forall in Hp. by apply Hp.
  - constructor; [done|]. eapply Forall_impl; [exact Hp|]. intros x Hx. by rewrite (proj1 (newer_same _ _ x K)).
  - constructor; [by constructor|]. pose proof (newer_total p item E) as Ht.
    assert (newer item p = true).
    { apply Ht. apply not_true_iff_false. rewrite same_key_spec. intros [? ?]. rewrite <- not_true_iff_false, same_key_spec in K. by apply K. }
    constructor; [done|]. eapply Forall_impl; [exact Hp|]. intros x Hx. by eapply newer_trans.
Qed.

Lemma newest_descending items : descending (newest items).
Proof.
  unfold newest. assert (H : descending []) by constructor. revert H. generalize (@nil filePageItem).
  induction items as [|it items IH]; intros l H; cbn; [done|]. by apply IH, place_descending.
Qed.

(** *** [sort.Search] *)

Lemma search_loop_spec f n fuel : forall i j, (j - i <= fuel)%nat -> (i <= j <= n)%nat ->
  (forall k k', (k <= k' < n)%nat -> f k = true -> f k' = true) ->
  (forall k, (k < i)%nat -> f k = false) -> (j < n -> f j = true)%nat ->
  let r := search_loop fuel f i j in (r <= n)%nat /\ (forall k, (k < r)%nat -> f k = false) /\ ((r < n)%nat -> f r = true).
Proof.
  induction fuel as [|fuel IH]; intros i j Hf Hij Hm Hlo Hhi; cbn [search_loop].
  - assert (i = j) as -> by lia. split; [lia|done].
  - destruct (i <? j)%nat eqn:E; [|apply Nat.ltb_ge in E; assert (i = j) as -> by lia; split; [lia|done]].
    apply Nat.ltb_lt in E. assert (Hh : (i <= Nat.div2 (i + j) < j)%nat).
    { rewrite Nat.div2_div. split; [apply Nat.div_le_lower_bound; lia|apply Nat.div_lt_upper_bound; lia]. }
    destruct (f (Nat.div2 (i + j))) eqn:Ef.
    + apply IH; [lia|lia|done|done|done].
    + apply IH; [lia|lia|done| |done]. intros k Hk. destruct (f k) eqn:Ek; [|done].
      rewrite (Hm k (Nat.div2 (i + j))) in Ef; [done|lia|done].
Qed.

Lemma descending_lookup l : descending l -> forall i j a b, (i < j)%nat -> l !! i = Some a -> l !! j = Some b -> newer a b = true.
Proof.
  induction 1 as [|p l Hl IH Hp]; intros i j a b Hij Ha Hb; [done|]. destruct j as [|j]; [lia|]. cbn in Hb.
  destruct i as [|i]; cbn in Ha; [|eapply IH; [|done..]; lia]. injection Ha as <-. rewrite Forall_forall in Hp.
  by eapply Hp, list_elem_of_lookup_2.
Qed.

(** The place of an item in a page: what is before it is newer. *)
Lemma Search_page item page : descending page ->
  let i := Search (length page) (fun i => match page !! i with Some p => not_after item p | None => false end) in
  (i <= length page)%nat /\ (forall k p, (k < i)%nat -> page !! k = Some p -> newer p item = true) /\
  (forall p, page !! i = Some p -> newer p item = false).
Proof.
  intros Hd. set (f := fun i => match page !! i with Some p => not_after item p | None => false end).
  destruct (search_loop_spec f (length page) (length page) 0 (length page)) as (H1 & H2 & H3); [lia|lia| |lia|lia|].
  - intros k k' Hk Hfk. unfold f in *. destruct (page !! k) as [p|] eqn:E; [|done].
    destruct (lookup_lt_is_Some_2 page k') as [p' E']; [lia|]. rewrite E'. rewrite not_after_newer, negb_true_iff in *.
    destruct (decide (k = k')) as [->|Hne]; [congruence|].
    pose proof (descending_lookup page Hd k k' p p' ltac:(lia) E E') as Hn. apply not_true_iff_false. intros Hc.
    by rewrite (newer_trans _ _ _ Hn Hc) in Hfk.
  - unfold Search. cbv zeta in *. split; [done|]. split.
    + intros k p Hk Hp. specialize (H2 k Hk). unfold f in H2. by rewrite Hp, not_after_newer, negb_false_iff in H2.
    + intros p Hp. assert (Hi := lookup_lt_Some _ _ _ Hp). specialize (H3 Hi). unfold f in H3 at 1.
      by rewrite Hp, not_after_newer, negb_true_iff in H3.
Qed.

Lemma place_skip item l : forall i, (i <= length l)%nat -> (forall k p, (k < i)%nat -> l !! k = Some p -> newer p item = true) ->
  place item l = take i l ++ place item (drop i l).
Proof.
  induction l as [|p l IH]; intros [|i] Hi H; try (cbn in Hi; done || lia). cbn. rewrite (H 0%nat p) by (done || lia). f_equal.
  apply IH; [cbn in Hi; lia|]. intros k q Hk Hq. apply (H (S k)); [lia|done].
Qed.

(** A page with a limit is the front of the whole order. *)
Lemma addFilePage_take n item l : descending l -> addFilePage (take n l) item n = take n (place item l).
Proof.
  intros Hd. unfold addFilePage.
  assert (Hd' : descending (take n l)).
  { unfold descending in *. rewrite <- (take_drop n l) in Hd. by apply StronglySorted_app_1_l in Hd. }
  pose proof (Search_page item (take n l) Hd') as H. cbv zeta in H.
  set (i := Search _ _) in *. destruct H as (H1 & H2 & H3). rewrite length_take in H1.
  assert (Hskip : place item l = take i l ++ place item (drop i l)).
  { apply place_skip; [lia|]. intros k p Hk Hp. apply (H2 k p Hk). rewrite lookup_take_lt by lia. done. }
  destruct (take n l !! i) as [p|] eqn:E.
  - assert (Hin : (i < n)%nat /\ l !! i = Some p).
    { apply lookup_take_Some in E as [? ?]. done. }
    destruct Hin as [Hin Ep]. specialize (H3 p eq_refl). rewrite (drop_S l p i Ep) in Hskip. cbn [place] in Hskip. rewrite H3 in Hskip.
    rewrite Hskip. destruct (same_key item p).
    + rewrite insert_take_drop by (rewrite length_take; apply lookup_lt_Some in Ep; lia).
      rewrite take_take, Nat.min_l by lia. rewrite take_app, length_take_le by (apply lookup_lt_Some in Ep; lia).
      rewrite take_take, Nat.min_r by lia. f_equal. replace (n - i)%nat with (S (n - S i)) by lia. cbn [take]. f_equal.
      by rewrite skipn_firstn_comm.
    + rewrite (proj2 (Nat.leb_gt n i)) by lia.
      assert (Hcut : forall q : list filePageItem, (if (n <? length q)%nat then take n q else q) = take n q).
      { intros q. destruct (n <? length q)%nat eqn:Eq; [done|]. apply Nat.ltb_ge in Eq. by rewrite take_ge. }
      rewrite Hcut. rewrite take_take, Nat.min_l by lia. rewrite !take_app, !length_take_le by (apply lookup_lt_Some in Ep; lia). f_equal.
      replace (n - i)%nat with (S (n - S i)) by lia. cbn [take]. f_equal. rewrite <- (drop_S l p i Ep), skipn_firstn_comm, take_take.
      f_equal. lia.
  - apply lookup_ge_None in E. rewrite length_take in E. destruct (n <=? i)%nat eqn:En.
    + apply Nat.leb_le in En. rewrite Hskip. rewrite take_app, length_take_le by lia. replace (n - i)%nat with 0%nat by lia.
      rewrite take_0, app_nil_r, take_take. f_equal. lia.
    + apply Nat.leb_gt in En. assert (Hi : i = length l) by lia. rewrite (take_ge l n) by lia.
      rewrite Hskip, Hi, take_ge, drop_ge by lia. cbn [place]. destruct (n <? _)%nat eqn:Eq; [done|].
      apply Nat.ltb_ge in Eq. by rewrite (take_ge (l ++ [item])).
Qed.

Lemma collect_take n cursor items : forall l, descending l ->
  collect n cursor items (take n l) = take n (foldl (fun l it => place it l) l (List.filter (older cursor) items)).
Proof.
  induction items as [|it items IH]; intros l Hl; [done|]. cbn. destruct (older cursor it); [|by apply IH]. cbn.
  rewrite addFilePage_take by done. by apply IH, place_descending.
Qed.

(** *** Cursors *)

Lemma place_front item l : (forall p, p ∈ l -> newer item p = true) -> place item l = item :: l.
Proof.
  destruct l as [|p l]; [done|]. intros H. cbn. rewrite (newer_asym item p) by (apply H; constructor).
  destruct (same_key item p) eqn:E; [|done]. pose proof (H p ltac:(constructor)) as Hn. apply same_key_spec in E as [E1 E2].
  rewrite newer_spec, E1, E2, string_ltb_irrefl in Hn. destruct Hn as [?|[_ ?]]; [lia|done].
Qed.

Lemma filter_place (P : filePageItem -> bool) it l : (forall a b, same_key a b = true -> P a = P b) -> descending l ->
  List.filter P (place it l) = if P it then place it (List.filter P l) else List.filter P l.
Proof.
  intros HP. induction 1 as [|p l Hl IH Hp]; cbn; [by destruct (P it)|].
  destruct (newer p it) eqn:E; [|destruct (same_key it p) eqn:K].
  - cbn. rewrite IH. destruct (P p), (P it); try done. cbn. by rewrite E.
  - cbn. rewrite <- (HP it p K). destruct (P it); [|done]. cbn. by rewrite E, K.
  - cbn. destruct (P it); [|done]. assert (Hn : newer it p = true).
    { apply newer_total; [done|]. apply not_true_iff_false. rewrite same_key_spec. intros [? ?]. rewrite <- not_true_iff_false, same_key_spec in K. by apply K. }
    destruct (P p); cbn; [by rewrite E, K|]. symmetry. apply place_front. intros q Hq. rewrite list_elem_of_In, filter_In, <- list_elem_of_In in Hq.
    rewrite Forall_forall in Hp. eapply newer_trans; [exact Hn|]. apply Hp, Hq.
Qed.

Lemma newest_filter (P : filePageItem -> bool) items : (forall a b, same_key a b = true -> P a = P b) ->
  newest (List.filter P items) = List.filter P (newest items).
Proof.
  intros HP. unfold newest. assert (H : forall l, descending l ->
    foldl (fun l it => place it l) (List.filter P l) (List.filter P items) = List.filter P (foldl (fun l it => place it l) l items)).
  { induction items as [|it items IH]; intros l Hl; [done|]. cbn. rewrite <- IH by by apply place_descending.
    rewrite filter_place by done. by destruct (P it). }
  apply (H []). constructor.
Qed.

Lemma older_same cursor a b : same_key a b = true -> older cursor a = older cursor b.
Proof. rewrite same_key_spec. unfold older. intros [-> ->]. done. Qed.

(** Below the cursor of a row is what follows it. *)
Lemma older_drop l k it : descending l -> l !! k = Some it -> it_at it <> 0 ->
  List.filter (older (it_at it, it_key it)) l = drop (S k) l.
Proof.
  intros Hd Hk Hz. assert (Ho : forall q, older (it_at it, it_key it) q = newer it q).
  { intros q. unfold older, newer, is_zero. cbn [fst snd]. by rewrite (proj2 (Z.eqb_neq _ _) Hz). }
  rewrite <- (take_drop (S k) l) at 1. rewrite List.filter_app, (filter_all _ (drop (S k) l)).
  - assert (List.filter (older (it_at it, it_key it)) (take (S k) l) = []) as ->; [|done].
    assert (Hnil : forall q : list filePageItem, (forall a, a ∈ q -> older (it_at it, it_key it) a = false) -> List.filter (older (it_at it, it_key it)) q = []).
    { induction q as [|a q IH]; [done|]. cbn. intros H. rewrite (H a) by constructor. apply IH. intros b Hb. apply H. by constructor. }
    apply Hnil. intros a Ha. apply list_elem_of_lookup in Ha as [j Hj]. apply lookup_take_Some in Hj as [Hj Hlt]. rewrite Ho.
    destruct (decide (j = k)) as [->|]; [replace a with it by congruence; apply newer_irrefl|].
    apply newer_asym. eapply descending_lookup; [exact Hd| |exact Hj|exact Hk]. lia.
  - intros a Ha. apply list_elem_of_lookup in Ha as [j Hj]. rewrite lookup_drop in Hj. rewrite Ho.
    eapply descending_lookup; [exact Hd| |exact Hk|exact Hj]. lia.
Qed.

(** What a page shows is the front of the order below the cursor. *)
Lemma collect_page n cursor items : collect n cursor items [] = take n (List.filter (older cursor) (newest items)).
Proof.
  rewrite <- newest_filter by (intros a b; apply older_same). unfold newest. rewrite <- collect_take by constructor. by rewrite take_nil.
Qed.

(** The items of [newest]: the last one given with each key. *)
Lemma place_keeps item l x : x ∈ l -> same_key item x = false -> x ∈ place item l.
Proof.
  induction l as [|p l IH]; [by intros ?%elem_of_nil|]. intros Hx Hk. cbn. destruct (newer p item); [set_solver|].
  destruct (same_key item p) eqn:E; [|set_solver]. apply elem_of_cons in Hx as [->|Hx]; [congruence|set_solver].
Qed.

Lemma place_has item l : item ∈ place item l.
Proof. induction l as [|p l IH]; cbn; [set_solver|]. destruct (newer p item); [set_solver|]. destruct (same_key item p); set_solver. Qed.

Lemma place_drops item l x : descending l -> x ∈ place item l -> same_key item x = true -> x = item.
Proof.
  intros Hd Hx Hk. assert (Hs := place_descending item l Hd). pose proof (place_has item l) as Hi.
  apply list_elem_of_lookup in Hx as [i Hx]. apply list_elem_of_lookup in Hi as [j Hi].
  assert (Hno : newer x item = false /\ newer item x = false).
  { apply same_key_spec in Hk as [E1 E2]. split; apply not_true_iff_false; rewrite newer_spec, E1, E2, string_ltb_irrefl; intros [?|[_ ?]]; done || lia. }
  destruct (Nat.lt_trichotomy i j) as [H|[->|H]]; [|congruence|].
  - destruct Hno as [Hno _]. by rewrite (descending_lookup _ Hs i j x item H Hx Hi) in Hno.
  - destruct Hno as [_ Hno]. by rewrite (descending_lookup _ Hs j i item x H Hi Hx) in Hno.
Qed.

Lemma newest_elem items x : x ∈ newest items <->
  exists l1 l2, items = l1 ++ x :: l2 /\ forall y, y ∈ l2 -> same_key y x = false.
Proof.
  unfold newest. induction items as [|it items IH] using rev_ind; [split; [by intros ?%elem_of_nil|by intros ([] & l2 & ? & _)]|].
  rewrite foldl_snoc. fold (newest items) in *. split.
  - intros Hx. destruct (same_key it x) eqn:K.
    + apply place_drops in Hx; [|apply newest_descending|done]. subst. exists items, []. split; [done|]. by intros y ?%elem_of_nil.
    + apply place_in in Hx as [->|Hx].
      * exists items, []. split; [done|]. by intros y ?%elem_of_nil.
      * apply IH in Hx as (l1 & l2 & -> & H). exists l1, (l2 ++ [it]). split; [by rewrite <- app_assoc|].
        intros y [Hy|Hy]%elem_of_app; [by apply H|]. by apply list_elem_of_singleton in Hy as ->.
  - intros (l1 & l2 & E & H). destruct l2 as [|y l2] using rev_ind.
    + apply app_inj_tail in E as [-> ->]. apply place_has.
    + clear IHl2. rewrite app_comm_cons, app_assoc in E. apply app_inj_tail in E as [E ->]. apply place_keeps.
      * apply IH. exists l1, l2. split; [done|]. intros z Hz. apply H. set_solver.
      * apply H. set_solver.
Qed.

(** ** Files of a directory *)

Lemma find_file_path path d f : find_file path d = Some f -> df_path f = path.
Proof. intros H. apply find_some in H as [_ H]. by apply str_eqb_eq in H. Qed.

Lemma find_file_in path d : path ∈ map df_path d -> exists f, find_file path d = Some f.
Proof.
  intros H. destruct (find_file path d) eqn:E; [by eauto|]. apply list_elem_of_fmap in H as (f & -> & Hf). rewrite list_elem_of_In in Hf.
  pose proof (find_none _ _ E f Hf) as Hn. cbn beta in Hn. by rewrite (proj2 (str_eqb_eq _ _) eq_refl) in Hn.
Qed.

Lemma paths_set f d : map df_path (set_file f d) = map df_path d.
Proof.
  unfold set_file. rewrite map_map. apply map_ext_in. intros g _. destruct (str_eqb _ _) eqn:E; [|done]. by apply str_eqb_eq in E.
Qed.

Lemma find_set_other path f d : df_path f <> path -> find_file path (set_file f d) = find_file path d.
Proof.
  intros H. induction d as [|g d IH]; [done|]. cbn. destruct (str_eqb (df_path g) (df_path f)) eqn:E.
  - apply str_eqb_eq in E. rewrite (proj2 (str_eqb_neq (df_path f) path)), (proj2 (str_eqb_neq (df_path g) path)) by congruence. apply IH.
  - destruct (str_eqb (df_path g) path); [done|apply IH].
Qed.

Lemma find_set_same f g d : find_file (df_path f) d = Some g -> find_file (df_path f) (set_file f d) = Some f.
Proof.
  induction d as [|h d IH]; [done|]. cbn. destruct (str_eqb (df_path h) (df_path f)) eqn:E.
  - intros _. by rewrite (proj2 (str_eqb_eq _ _) eq_refl).
  - rewrite E. apply IH.
Qed.

(** ** A refreshed list of segments *)

(** A segment that a refresh takes as unchanged. *)
Definition unchanged (d : directory) (s : fileSegment) : Prop :=
  exists f, find_file (sg_path s) d = Some f /\ sg_size s = file_size f /\ sg_modified s = df_mtime f.

Lemma repair_path mt f f' : repairFileTail mt f = Ok f' -> df_path f' = df_path f.
Proof. unfold repairFileTail. repeat case_match; intros E; simplify_eq; done. Qed.

Section Refresh.
Context (unmarshal : string -> option fileRecord) (mt : time).
#[local] Abbreviation refresh_one := (refresh_one unmarshal mt).
#[local] Abbreviation refresh_loop := (refresh_loop unmarshal mt).
#[local] Abbreviation refresh := (refresh unmarshal mt).

Lemma refresh_one_ok previous path d d' s : refresh_one previous path d = (d', Ok s) ->
  sg_path s = path /\ unchanged d' s /\ map df_path d' = map df_path d /\ (forall q, q <> path -> find_file q d' = find_file q d).
Proof.
  unfold FileLogs.refresh_one. destruct (find_file path d) as [f|] eqn:Ef; [|done]. pose proof (find_file_path _ _ _ Ef) as Hp.
  assert (Hscan : (match repairFileTail mt f with
     | Err e => (d, Err e)
     | Ok f => (set_file f d, rs ← scanFile unmarshal path (set_file f d); Ok (Build_fileSegment path (df_mtime f) (file_size f) (expiry_of rs)))
     end = (d', Ok s)) ->
     sg_path s = path /\ unchanged d' s /\ map df_path d' = map df_path d /\ (forall q, q <> path -> find_file q d' = find_file q d)).
  { destruct (repairFileTail mt f) as [f'|e] eqn:Er; [|done]. pose proof (repair_path _ _ _ Er) as Hp'. intros H. injection H as <- H.
    apply bind_ok in H as (rs & _ & H). injection H as <-. split; [done|]. split; [|split; [apply paths_set|intros q Hq; apply find_set_other; congruence]].
    exists f'. split; [|done]. cbn. rewrite <- Hp, <- Hp'. eapply find_set_same. rewrite Hp', Hp. exact Ef. }
  destruct (List.find _ previous) as [s0|] eqn:Es; [|exact Hscan]. destruct ((_ =? _) && _) eqn:E; [|exact Hscan].
  intros H. injection H as <- <-. apply find_some in Es as [_ Es]. apply str_eqb_eq in Es. apply andb_true_iff in E as [E1%Z.eqb_eq E2%Z.eqb_eq].
  split; [done|]. split; [|done]. exists f. by rewrite Es.
Qed.

Lemma refresh_loop_ok previous paths : forall d acc d' l, NoDup paths -> refresh_loop previous paths d acc = (d', Ok l) ->
  exists l', l = acc ++ l' /\ map sg_path l' = paths /\ Forall (unchanged d') l' /\ map df_path d' = map df_path d /\
    (forall q, q ∉ paths -> find_file q d' = find_file q d).
Proof.
  induction paths as [|path paths IH]; intros d acc d' l Hd H; cbn in H.
  - injection H as <- <-. exists []. rewrite app_nil_r. done.
  - apply NoDup_cons in Hd as [Hn Hd]. destruct (refresh_one previous path d) as [d1 [s|e]] eqn:E; [|done].
    apply refresh_one_ok in E as (E1 & E2 & E3 & E4). apply IH in H as (l' & -> & H1 & H2 & H3 & H4); [|done].
    exists (s :: l'). split; [by rewrite <- app_assoc|]. cbn. split; [by rewrite E1, H1|]. split; [|split; [by rewrite H3|]].
    + constructor; [|done]. destruct E2 as (f & Ef & ?). exists f. split; [|done]. rewrite H4; [done|by rewrite E1].
    + intros q Hq. rewrite H4 by set_solver. apply E4. set_solver.
Qed.

Lemma refresh_loop_same previous d : forall l acc, Forall (unchanged d) l -> (forall s, s ∈ l -> List.find (fun s' => str_eqb (sg_path s') (sg_path s)) previous = Some s) ->
  refresh_loop previous (map sg_path l) d acc = (d, Ok (acc ++ l)).
Proof.
  induction l as [|s l IH]; intros acc Hu Hf; cbn; [by rewrite app_nil_r|]. apply Forall_cons in Hu as [(f & Ef & E1 & E2) Hu].
  unfold FileLogs.refresh_one. rewrite Ef, (Hf s) by constructor. rewrite E1, E2, !Z.eqb_refl. cbn [andb].
  rewrite IH; [by rewrite <- app_assoc|done|]. intros s' Hs'. apply Hf. by constructor.
Qed.

Lemma glob_perm d : glob d ≡ₚ map df_path d.
Proof. apply isort_perm. Qed.

Lemma glob_same d d' : map df_path d' = map df_path d -> glob d' = glob d.
Proof. unfold glob. by intros ->. Qed.

Lemma find_segment l s : NoDup (map sg_path l) -> s ∈ l -> List.find (fun s' => str_eqb (sg_path s') (sg_path s)) l = Some s.
Proof.
  intros Hd Hs. destruct (List.find _ l) as [s'|] eqn:E.
  - apply find_some in E as [H1 H2]. apply str_eqb_eq in H2. f_equal. eapply NoDup_map_eq; [exact Hd| |done|done]. by apply list_elem_of_In.
  - apply list_elem_of_In in Hs. pose proof (find_none _ _ E s Hs) as H. cbn beta in H. by rewrite (proj2 (str_eqb_eq _ _) eq_refl) in H.
Qed.

(** A refresh that succeeds finds nothing to do when it is made again. *)
Lemma refresh_again previous d d' l : NoDup (map df_path d) -> refresh previous d = (d', Ok l) ->
  map sg_path l = glob d /\ map df_path d' = map df_path d /\ Forall (unchanged d') l /\ refresh l d' = (d', Ok l).
Proof.
  intros Hd H. apply refresh_loop_ok in H as (l' & -> & H1 & H2 & H3 & _); [|by rewrite glob_perm]. cbn. split; [done|]. split; [done|].
  split; [done|]. unfold FileLogs.refresh. rewrite (glob_same d d' H3), <- H1. rewrite refresh_loop_same; [done|done|].
  intros s Hs. apply find_segment; [|done]. rewrite H1, glob_perm. done.
Qed.
End Refresh.

(** ** Pages of a query *)

#[export] Instance ListServiceLogsRequest_eta : Eta ListServiceLogsRequest := fun r =>
  Build_ListServiceLogsRequest (rq_ServiceId r) (rq_AllocationId r) (rq_StartTime r) (rq_EndTime r) (rq_Limit r) (rq_LogType r)
    (rq_BuildId r) (rq_Search r) (rq_PageToken r) (rq_GapPageToken r).

Section Paging.
Context (unmarshal : string -> option fileRecord) (mt : time) (unicode_lower : string -> string).
#[local] Abbreviation list_logs := (list_logs unmarshal mt unicode_lower).
#[local] Abbreviation line_item := (line_item unicode_lower).

(** A client that follows the token of each page at one time. *)
Fixpoint follow (fuel : nat) (now : time) (req : ListServiceLogsRequest) (previous : list fileSegment) (d : directory) : result error (list ServiceLog) :=
  match fuel with
  | O => Ok []
  | S fuel =>
      match list_logs now req previous d with
      | (_, Err e) => Err e
      | (w, Ok page) =>
          if str_eqb (pg_NextPageToken page) "" then Ok (pg_Lines page)
          else rest ← follow fuel now (req <| rq_PageToken := pg_NextPageToken page |>) (segs w) (dir w); Ok (pg_Lines page ++ rest)
      end
  end.

Lemma page_limit_pos req : (1 <= page_limit req)%nat.
Proof. unfold page_limit, defaultLogQueryLimit, maxLogQueryLimit. destruct (rq_Limit req <=? 0) eqn:E; lia. Qed.

Lemma newest_length items : (length (newest items) <= length items)%nat.
Proof.
  unfold newest. induction items as [|it items IH] using rev_ind; [done|]. rewrite foldl_snoc, length_app. cbn.
  assert (H : forall l, (length (place it l) <= S (length l))%nat).
  { induction l as [|p l IHl]; cbn; [lia|]. repeat case_match; cbn; lia. }
  specialize (H (foldl (fun l it => place it l) [] items)). lia.
Qed.

Lemma omap_length_le {A B} (f : A -> option B) l : (length (omap f l) <= length l)%nat.
Proof. induction l as [|a l IH]; cbn; [lia|]. destruct (f a); cbn; lia. Qed.

Lemma line_item_line req now r it : line_item req now r = Some it -> is_Some (fr_Line (it_record it)).
Proof.
  unfold FileLogs.line_item. destruct (fr_ExpiresAt r <=? now); [done|]. destruct (fr_Line r) as [l|] eqn:E; [|done]. cbn.
  destruct (_ || _); [done|]. intros H. injection H as <-. cbn. rewrite E. by eexists.
Qed.

Lemma logs_of_length items : (forall it, it ∈ items -> is_Some (fr_Line (it_record it))) -> length (logs_of items) = length items.
Proof.
  induction items as [|it items IH]; intros H; [done|]. unfold logs_of in *. cbn. destruct (H it) as [l El]; [set_solver|]. rewrite El. cbn.
  f_equal. apply IH. set_solver.
Qed.

(** One page below a cursor: the rows in front, and the token of the last when there are more. *)
Lemma cut_page_spec n l : (1 <= n)%nat -> cut_page n (take (S n) l) =
  if (n <? length l)%nat then (take n l, match l !! (n - 1)%nat with Some it => EncodeCursor (it_at it) (it_key it) | None => "" end)
  else (l, "").
Proof.
  intros Hn. unfold cut_page. rewrite length_take. destruct (n <? length l)%nat eqn:E.
  - apply Nat.ltb_lt in E. rewrite (proj2 (Nat.ltb_lt _ _)) by lia. rewrite take_take, Nat.min_l, lookup_take_lt by lia. done.
  - apply Nat.ltb_ge in E. rewrite (proj2 (Nat.ltb_ge _ _)) by lia. by rewrite take_ge by lia.
Qed.

Lemma pageable_nonzero t id : pageable t id -> t <> 0.
Proof. intros [H _] ->. assert (E : Year 0 = 1) by by vm_compute. rewrite E in H. lia. Qed.

(** The pages below a cursor are what the cursor has not passed. *)
Lemma follow_below now segments d rs gc N : refresh unmarshal mt segments d = (d, Ok segments) ->
  scan_all unmarshal (map sg_path segments) d = Ok rs ->
  forall fuel req c k, (length N - k < fuel)%nat -> newest (omap (line_item req now) rs) = N ->
  (forall it, it ∈ N -> pageable (it_at it) (it_key it)) ->
  cursor_of (rq_PageToken req) = Ok c -> cursor_of (rq_GapPageToken req) = Ok gc -> List.filter (older c) N = drop k N ->
  follow fuel now req segments d = Ok (logs_of (drop k N)).
Proof.
  intros Hr Hs. induction fuel as [|fuel IH]; intros req c k Hf HN Hp Hc Hg Hk; [lia|]. cbn [follow].
  pose proof (page_limit_pos req) as Hl. unfold FileLogs.list_logs. rewrite Hc, Hg. unfold locked. rewrite Hr. unfold list_op. cbn [segs dir].
  rewrite Hs. cbn [mbind result_bind]. rewrite (collect_page (S (page_limit req)) c), HN, Hk, cut_page_spec by done.
  destruct (page_limit req <? length (drop k N))%nat eqn:E; cbn [fst snd].
  - apply Nat.ltb_lt in E. destruct (lookup_lt_is_Some_2 (drop k N) (page_limit req - 1)) as [it Hit]; [lia|]. rewrite Hit.
    pose proof Hit as Hit'. rewrite lookup_drop in Hit'. pose proof (Hp it (list_elem_of_lookup_2 _ _ _ Hit')) as Hpg.
    pose proof (pageable_nonzero _ _ Hpg) as Hz. apply cursor_inverse in Hpg as [Hne Hdec].
    destruct (cut_page maxLogGapResults _) as [gs gt]. cbn [pg_NextPageToken pg_Lines segs dir].
    rewrite (proj2 (str_eqb_neq _ _) Hne).
    rewrite (IH _ (it_at it, it_key it) (S (k + (page_limit req - 1)))); [|rewrite length_drop in E; lia|exact HN|done| |exact Hg|].
    + cbn [mbind result_bind]. f_equal. unfold logs_of. rewrite <- omap_app. f_equal.
      replace (S (k + (page_limit req - 1)))%nat with (k + page_limit req)%nat by lia. rewrite <- drop_drop. apply take_drop.
    + unfold cursor_of. change (match DecodeCursor (EncodeCursor (it_at it) (it_key it)) with Ok c => Ok c | Err e => Err (BadCursor e) end = Ok (it_at it, it_key it)). by rewrite Hdec.
    + apply older_drop; [rewrite <- HN; apply newest_descending|done|done].
  - destruct (cut_page maxLogGapResults _) as [gs gt]. done.
Qed.

(** C8: Take a directory that nobody writes to, and a request whose matching
    unexpired lines were all observed in the years 2000 to 2200, the ones a page
    token can name ([DecodeCursor] refuses others), with identities shorter than
    4 GiB.  Following the page token of each answer from a request with none
    shows every unexpired line that matches the request: newest first, in a
    strict order by time and identity, and of several lines with one time and
    identity the last one stored. *)
Theorem paging_complete now req previous d w page rs :
  rq_PageToken req = "" -> NoDup (map df_path d) -> list_logs now req previous d = (w, Ok page) ->
  scan_all unmarshal (map sg_path (segs w)) (dir w) = Ok rs ->
  (forall it, it ∈ omap (line_item req now) rs -> pageable (it_at it) (it_key it)) ->
  exists items, follow (S (length rs)) now req (segs w) (dir w) = Ok (logs_of items) /\ length (logs_of items) = length items /\
    descending items /\
    (forall it, it ∈ items <-> exists l1 l2, omap (line_item req now) rs = l1 ++ it :: l2 /\ forall it', it' ∈ l2 -> same_key it' it = false).
Proof.
  intros Ht Hd H Hs Hp. unfold FileLogs.list_logs in H. rewrite Ht in H. cbn in H.
  destruct (cursor_of (rq_GapPageToken req)) as [gc|e] eqn:Hg; [|done]. unfold locked in H.
  destruct (refresh unmarshal mt previous d) as [d' [l|e]] eqn:Hr; [|done]. injection H as <- _. cbn [segs dir] in *.
  apply refresh_again in Hr as (_ & _ & _ & Hr); [|done].
  set (N := newest (omap (line_item req now) rs)). exists N.
  assert (HinN : forall it, it ∈ N -> it ∈ omap (line_item req now) rs).
  { intros it (l1 & l2 & -> & _)%newest_elem. set_solver. }
  split; [|split; [|split; [apply newest_descending|intros it; apply newest_elem]]].
  - rewrite (follow_below now l d' rs gc N Hr Hs (S (length rs)) req (zero_time, "") 0); [done| |done|by eauto|by rewrite Ht|done|].
    + pose proof (newest_length (omap (line_item req now) rs)). pose proof (omap_length_le (line_item req now) rs). unfold N. lia.
    + rewrite drop_0. apply filter_all. done.
  - apply logs_of_length. intros it Hit%HinN. apply list_elem_of_omap in Hit as (r & _ & Hi). by apply line_item_line in Hi.
Qed.
End Paging.

(** Three lines of a service in two segments, one of them stored twice. *)
Definition demo_time : time := unix_epoch + 1790000000 * second.
Definition demo_line (id : string) (at_ : time) : LogLineInput :=
  Build_LogLineInput id at_ zero_time "p" "e" "svc" "a" "agent" "stdout" LogTypeRuntime "" "" "" None false 1 1 id.
Definition demo_record (id : string) (at_ : time) : fileRecord := Build_fileRecord (Some (demo_line id at_)) None id (demo_time + hour).
Definition demo_unmarshal (s : string) : option fileRecord :=
  if str_eqb s "one" then Some (demo_record "l1" demo_time)
  else if str_eqb s "two" then Some (demo_record "l2" demo_time)
  else if str_eqb s "three" then Some (demo_record "l3" (demo_time + second)) else None.
Definition demo_directory : directory := [Build_dfile "2.jsonl" ["two"; "three"] "par" 5; Build_dfile "1.jsonl" ["one"; "two"] "" 4].
Definition demo_request : ListServiceLogsRequest := Build_ListServiceLogsRequest "svc" "" None None 1 0 "" "" "" "".

Lemma paging_complete_witness :
  exists items, follow demo_unmarshal 9 (fun s => s) 5 demo_time demo_request
      (segs (fst (list_logs demo_unmarshal 9 (fun s => s) demo_time demo_request [] demo_directory)))
      (dir (fst (list_logs demo_unmarshal 9 (fun s => s) demo_time demo_request [] demo_directory))) = Ok (logs_of items) /\
    length (logs_of items) = length items /\ descending items.
Proof.
  destruct (paging_complete demo_unmarshal 9 (fun s => s) demo_time demo_request [] demo_directory
    (fst (list_logs demo_unmarshal 9 (fun s => s) demo_time demo_request [] demo_directory))
    (Build_ServiceLogPage [service_log (demo_line "l3" (demo_time + second))] [] (EncodeCursor (demo_time + second) "l3") "")
    [demo_record "l1" demo_time; demo_record "l2" demo_time; demo_record "l2" demo_time; demo_record "l3" (demo_time + second)])
    as (items & H1 & H2 & H3 & _).
  - reflexivity.
  - vm_compute. repeat constructor; set_solver.
  - vm_compute. reflexivity.
  - vm_compute. reflexivity.
  - apply Forall_forall. cbn [omap list_omap]. repeat (apply Forall_cons; split); try apply Forall_nil_2; vm_compute; repeat split; done.
  - exists items. split; [exact H1|]. split; [exact H2|exact H3].
Defined.

Example paging_demo : exists rows, follow demo_unmarshal 9 (fun s => s) 5 demo_time demo_request [] demo_directory = Ok rows /\
  map sl_LineID rows = ["l3"; "l2"; "l1"].
Proof. eexists. split; [vm_compute; reflexivity|reflexivity]. Qed.

End FileLogs.
