(* ===== verification/FileStore.v ===== *)
(** * The log directory as a bounded log

    The invariant of [FileLogs] and what its operations do to the records a
    reader sees: an append adds its live records at the end, replaces the gaps
    it reports again and loses only the oldest segments; a purge and a sweep
    take out exactly their records; a partial line left by a crash is dropped
    and nothing else is.  A history of these operations is a run of an abstract
    log that is only a list of records. *)

From S2P Require Import Prelude GoText GoFloat DurableWork Billing ClosePeriod GoTime Sha256 RowMap Journal Product Authz LogPipeline LogStore FileLogs.

Module FileStore.
Import LogPipeline LogStore FileLogs.

Definition lines_at (d : directory) (path : string) : list string := match find_file path d with Some f => df_lines f | None => [] end.
Definition contents (w : world) : list string := concat (map (fun s => lines_at (dir w) (sg_path s)) (segs w)).

(** ** More on directories *)

Lemma find_remove_other path q d : q <> path -> find_file q (remove_file path d) = find_file q d.
Proof.
  intros H. induction d as [|g d IH]; [done|]. cbn. destruct (str_eqb (df_path g) path) eqn:E; cbn.
  - apply str_eqb_eq in E. rewrite (proj2 (str_eqb_neq (df_path g) q)) by congruence. apply IH.
  - destruct (str_eqb (df_path g) q); [done|apply IH].
Qed.

Lemma paths_remove path d : map df_path (remove_file path d) = List.filter (fun p => negb (str_eqb p path)) (map df_path d).
Proof. unfold remove_file. induction d as [|g d IH]; [done|]. cbn. destruct (negb _); cbn; by rewrite IH. Qed.

Lemma filter_perm {A} (p : A -> bool) l l' : l ≡ₚ l' -> List.filter p l ≡ₚ List.filter p l'.
Proof. induction 1; cbn; repeat case_match; try done; [by constructor|by constructor|by etrans]. Qed.

Lemma find_snoc_other q d f : df_path f <> q -> find_file q (d ++ [f]) = find_file q d.
Proof. intros H. unfold find_file. rewrite find_app. cbn. rewrite (proj2 (str_eqb_neq _ _) H). by destruct (List.find _ d). Qed.

Lemma find_file_none path d : path ∉ map df_path d -> find_file path d = None.
Proof.
  intros H. destruct (find_file path d) eqn:E; [|done]. destruct H. pose proof (find_file_path _ _ _ E) as <-.
  apply find_some in E as [E _]. apply list_elem_of_fmap_2. by apply list_elem_of_In.
Qed.

(** Changing the files of a path is setting it, as no two files share one. *)
Lemma map_at_path (g : dfile -> dfile) path d f : NoDup (map df_path d) -> find_file path d = Some f -> df_path (g f) = path ->
  map (fun h => if str_eqb (df_path h) path then g h else h) d = set_file (g f) d.
Proof.
  intros Hd Hf Hg. unfold set_file. rewrite Hg. apply map_ext_in. intros h Hh. destruct (str_eqb (df_path h) path) eqn:E; [|done].
  f_equal. apply str_eqb_eq in E. eapply NoDup_map_eq; [exact Hd|by apply list_elem_of_In| |by rewrite E, (find_file_path _ _ _ Hf)].
  apply find_some in Hf as [Hf _]. by apply list_elem_of_In.
Qed.

Lemma suffix_total {A} (f : A -> Z) lost kept all : (forall a, 0 <= f a) -> all = lost ++ kept -> sumZ f kept <= sumZ f all.
Proof. intros Hf ->. rewrite sumZ_app. pose proof (sumZ_nonneg f lost (fun a _ => Hf a)). lia. Qed.

Lemma slen_empty s : slen s = 0 -> s = "".
Proof. unfold slen. destruct s; cbn; [done|lia]. Qed.

(** Names in the order a directory is listed. *)
Definition ascending (l : list string) : Prop := StronglySorted (fun a b => String.ltb a b = true) l.

Lemma ascending_NoDup l : ascending l -> NoDup l.
Proof.
  induction 1 as [|a l _ IH H]; constructor; [|done]. intros Ha. rewrite Forall_forall in H. specialize (H a Ha). by rewrite string_ltb_irrefl in H.
Qed.

Lemma ascending_isort l l' : l ≡ₚ l' -> ascending l' -> isort String.leb l = l'.
Proof.
  intros Hp Ha. apply (StronglySorted_unique_strong (fun a b => String.leb a b = true)).
  - intros a b _ _ H1 H2. apply string_ltb_eq; rewrite string_ltb_leb; by rewrite ?H1, ?H2.
  - apply isort_strongly_sorted; [apply string_leb_total|apply string_leb_trans].
  - clear Hp. induction Ha as [|a l' _ IH H]; constructor; [done|]. eapply Forall_impl; [exact H|]. intros b. apply string_ltb_leb_weak.
  - by rewrite isort_perm.
Qed.

Lemma NoDup_ascending l : NoDup l -> ascending (isort String.leb l).
Proof.
  intros Hd. assert (Hs : StronglySorted (fun a b => String.leb a b = true) (isort String.leb l)).
  { apply isort_strongly_sorted; [apply string_leb_total|apply string_leb_trans]. }
  assert (Hd' : NoDup (isort String.leb l)) by by rewrite isort_perm. induction Hs as [|a k _ IH H]; [constructor|].
  apply NoDup_cons in Hd' as [Hn Hd']. constructor; [by apply IH|]. rewrite Forall_forall in *. intros b Hb. specialize (H b Hb).
  destruct (String.ltb a b) eqn:E; [done|]. rewrite string_ltb_leb, negb_false_iff in E. destruct Hn. replace a with b; [done|].
  apply string_ltb_eq; rewrite string_ltb_leb; by rewrite ?H, ?E.
Qed.

Lemma ascending_middle l1 a l2 : ascending (l1 ++ a :: l2) -> ascending (l1 ++ l2).
Proof.
  unfold ascending. rewrite !StronglySorted_app. intros (H1 & H2 & H3). apply StronglySorted_inv in H3 as [H3 _].
  split; [|done]. intros x y Hx Hy. apply H1; [done|]. by constructor.
Qed.

Lemma ascending_snoc l a : ascending l -> (forall b, b ∈ l -> String.ltb b a = true) -> ascending (l ++ [a]).
Proof.
  intros H1 H2. unfold ascending. rewrite StronglySorted_app. split; [|split; [done|by repeat constructor]].
  intros x y Hx ->%list_elem_of_singleton. by apply H2.
Qed.

(** ** Names of segments *)

(** Times whose [UnixNano] is positive and fits: the years 1970 to 2262. *)
Definition nameable (t : time) : Prop := 0 <= t - unix_epoch <= 9223372036854775807.

Lemma digit_compare a b : 0 <= a <= 9 -> 0 <= b <= 9 ->
  Ascii.compare (Ascii.ascii_of_N (Z.to_N (48 + a))) (Ascii.ascii_of_N (Z.to_N (48 + b))) = (a ?= b).
Proof.
  intros Ha Hb. unfold Ascii.compare. rewrite !Ascii.N_ascii_embedding by lia.
  rewrite <- (N2Z.inj_compare (Z.to_N (48 + a))), !Z2N.id by lia.
  destruct (Z.compare_spec a b); [subst; apply Z.compare_refl|apply Z.compare_lt_iff; lia|apply Z.compare_gt_iff; lia].
Qed.

(** Digits of one width are ordered as the numbers. *)
Lemma digits_lt w : forall n m x y, n mod 10 ^ Z.of_nat w < m mod 10 ^ Z.of_nat w ->
  String.compare (digits w n +:+ x) (digits w m +:+ y) = Lt.
Proof.
  induction w as [|w IH]; intros n m x y H; [change (10 ^ Z.of_nat 0) with 1 in H; rewrite !Z.mod_1_r in H; lia|].
  assert (Hp : 0 < 10 ^ Z.of_nat w) by (apply Z.pow_pos_nonneg; lia).
  rewrite Nat2Z.inj_succ, Z.pow_succ_r, (Z.mul_comm 10), !Z.rem_mul_r in H by lia.
  pose proof (Z.mod_pos_bound n _ Hp). pose proof (Z.mod_pos_bound m _ Hp).
  pose proof (Z.mod_pos_bound (n / 10 ^ Z.of_nat w) 10 ltac:(lia)). pose proof (Z.mod_pos_bound (m / 10 ^ Z.of_nat w) 10 ltac:(lia)).
  cbn [digits]. set (a := n / 10 ^ Z.of_nat w mod 10) in *. set (b := m / 10 ^ Z.of_nat w mod 10) in *.
  change (match Ascii.compare (Ascii.ascii_of_N (Z.to_N (48 + a))) (Ascii.ascii_of_N (Z.to_N (48 + b))) with
          | Eq => String.compare (digits w n +:+ x) (digits w m +:+ y) | c => c end = Lt).
  rewrite digit_compare by lia. destruct (Z.compare_spec a b) as [E|E|E]; [|done|nia]. apply IH. rewrite E in H. lia.
Qed.

(** A segment created later has a later name, whatever the random parts. *)
Lemma segment_name_lt t u r r' : nameable t -> nameable u -> t < u -> String.ltb (segment_name t r) (segment_name u r') = true.
Proof.
  intros Ht Hu Hlt. unfold String.ltb, segment_name. assert (H : forall v, nameable v -> format020 (UnixNano v) = digits 20 (v - unix_epoch)).
  { intros v [H1 H2]. unfold format020, UnixNano. rewrite wrap64_small by (unfold in_int64; lia).
    by rewrite (proj2 (Z.ltb_ge (v - unix_epoch) 0)) by lia. }
  rewrite !H by done. rewrite digits_lt; [done|]. unfold nameable in *. rewrite !Z.mod_small by lia. lia.
Qed.

(** Every file of a directory was created by this store, at a time up to [low]. *)
Definition dated (low : time) (d : directory) : Prop :=
  Forall (fun p => exists t r, p = segment_name t r /\ nameable t /\ t <= low) (map df_path d).

(** Readings of the clock that go on from [low], one for each of [n] records. *)
Definition clock_runs (low : time) (stamps : list time) (n : nat) : Prop :=
  StronglySorted Z.lt (low :: stamps) /\ Forall nameable stamps /\ (n <= length stamps)%nat.

(** The last reading. *)
Definition clock_after (low : time) (stamps : list time) : time := List.last stamps low.

Lemma dated_weaken low low' d : low <= low' -> dated low d -> dated low' d.
Proof. intros Hl Hd. eapply Forall_impl; [exact Hd|]. intros p (t & r & E & H1 & H2). exists t, r. split; [done|]. split; [done|lia]. Qed.

Lemma dated_subset low d d' : (forall p, p ∈ map df_path d' -> p ∈ map df_path d) -> dated low d -> dated low d'.
Proof. intros H. unfold dated. rewrite !Forall_forall. auto. Qed.

Lemma dated_newest low d u r p : dated low d -> nameable u -> low < u -> p ∈ map df_path d -> String.ltb p (segment_name u r) = true.
Proof.
  unfold dated. rewrite Forall_forall. intros Hd Hu Hlt Hp. destruct (Hd p Hp) as (t & r' & -> & H1 & H2). apply segment_name_lt; [done..|lia].
Qed.

Lemma clock_runs_le low stamps n : clock_runs low stamps n -> low <= clock_after low stamps.
Proof.
  intros (H & _ & _). unfold clock_after. destruct stamps as [|u stamps] using rev_ind; [done|]. rewrite last_last.
  apply StronglySorted_inv in H as [_ H]. apply Forall_app in H as [_ H]. apply Forall_cons in H as [H _]. lia.
Qed.

Lemma last_any {A} (l : list A) : l <> [] -> forall a b, List.last l a = List.last l b.
Proof. induction l as [|x [|y l] IH]; intros H a b; [done|done|]. change (List.last (y :: l) a = List.last (y :: l) b). by apply IH. Qed.

(** The next reading, and those after it. *)
Lemma clock_runs_next low stamps n : clock_runs low stamps (S n) ->
  exists u rest, stamps = u :: rest /\ low < u /\ nameable u /\ clock_runs u rest n /\ clock_after u rest = clock_after low stamps.
Proof.
  intros (H1 & H2 & H3). destruct stamps as [|u rest]; [cbn in H3; lia|]. exists u, rest. cbn in H3.
  apply StronglySorted_inv in H1 as [H1 H4]. apply Forall_cons in H2 as [H2 H5]. apply Forall_cons in H4 as [H4 _].
  split; [done|]. split; [done|]. split; [done|]. split; [split; [done|]; split; [done|lia]|]. unfold clock_after.
  destruct rest as [|v rest]; [done|]. by apply (last_any (v :: rest)) with (b := low).
Qed.

Lemma clock_runs_less low stamps n m : (m <= n)%nat -> clock_runs low stamps n -> clock_runs low stamps m.
Proof. intros Hm (H1 & H2 & H3). split; [done|]. split; [done|lia]. Qed.

Section Store.
Context (marshal : fileRecord -> option string) (unmarshal : string -> option fileRecord) (random : time -> list string -> string) (mt : time).

(** ** The invariant *)

(** A line this store wrote: it reads back as what it was written from. *)
Definition stored (s : string) (r : fileRecord) : Prop :=
  unmarshal s = Some r /\ marshal r = Some s /\ line_bytes s <= scanLimit /\ zero_time < fr_ExpiresAt r.
Definition written (lines : list string) : Prop := Forall (fun s => exists r, stored s r) lines.
Definition rows (lines : list string) : list fileRecord := omap unmarshal lines.

Definition current_file (s : fileSegment) (f : dfile) : Prop :=
  df_tail f = "" /\ sg_size s = file_size f /\ written (df_lines f) /\ sg_expiry s = expiry_of (rows (df_lines f)).
Definition current (d : directory) (s : fileSegment) : Prop := exists f, find_file (sg_path s) d = Some f /\ current_file s f.

(** What holds while an operation has the lock. *)
Record sound (w : world) : Prop := {
  sound_order : ascending (map sg_path (segs w));
  sound_files : map df_path (dir w) ≡ₚ map sg_path (segs w);
  sound_segments : Forall (current (dir w)) (segs w)
}.

Lemma sound_paths w : sound w -> NoDup (map sg_path (segs w)).
Proof. intros H. apply ascending_NoDup, H. Qed.

(** What holds between operations: complete lines were written by the store, a
    crash left less than a scanner's buffer after them, and the segments a
    process remembers are of files that did not change or that show it. *)
Record healthy (previous : list fileSegment) (d : directory) : Prop := {
  healthy_paths : NoDup (map df_path d);
  healthy_lines : Forall (fun f => written (df_lines f) /\ slen (df_tail f) < scanLimit) d;
  healthy_known : forall s f, s ∈ previous -> find_file (sg_path s) d = Some f -> sg_size s = file_size f -> sg_modified s = df_mtime f ->
    current_file s f
}.

(** The complete lines of a directory, in the order of its names. *)
Definition directory_lines (d : directory) : list string := concat (map (lines_at d) (glob d)).

Lemma rows_app l1 l2 : rows (l1 ++ l2) = rows l1 ++ rows l2.
Proof. apply omap_app. Qed.

Lemma written_app l1 l2 : written (l1 ++ l2) <-> written l1 /\ written l2.
Proof. apply Forall_app. Qed.

Lemma scan_written lines : written lines -> scan_lines unmarshal lines = Ok (rows lines).
Proof.
  induction 1 as [|s lines (r & H1 & _ & H2 & _) _ IH]; [done|]. cbn. rewrite (proj2 (Z.ltb_ge scanLimit (line_bytes s))) by done.
  rewrite H1, IH. done.
Qed.

Lemma tokens_empty f : df_tail f = "" -> tokens f = df_lines f.
Proof. unfold tokens. intros ->. apply app_nil_r. Qed.

Lemma scan_current d s : current d s -> scanFile unmarshal (sg_path s) d = Ok (rows (lines_at d (sg_path s))).
Proof.
  intros (f & Ef & Ht & _ & Hw & _). unfold scanFile, lines_at. rewrite Ef, tokens_empty by done. by apply scan_written.
Qed.

(** What a reader scans is the rows of the contents. *)
Lemma scan_contents w : sound w -> scan_all unmarshal (map sg_path (segs w)) (dir w) = Ok (rows (contents w)).
Proof.
  intros [_ _ H]. unfold contents. induction H as [|s l Hs _ IH]; [done|]. cbn. rewrite (scan_current _ _ Hs). cbn. rewrite IH. cbn.
  by rewrite rows_app.
Qed.

Lemma contents_written w : sound w -> written (contents w).
Proof.
  intros [_ _ H]. unfold contents. induction H as [|s l Hs _ IH]; [constructor|]. cbn. apply written_app. split; [|done].
  destruct Hs as (f & Ef & _ & _ & Hw & _). unfold lines_at. by rewrite Ef.
Qed.

Lemma current_size d s : current d s -> sg_size s = sumZ line_bytes (lines_at d (sg_path s)).
Proof. intros (f & Ef & Ht & -> & _). unfold lines_at, file_size. rewrite Ef, Ht. change (slen "") with 0. lia. Qed.

Lemma contents_size w : sound w -> sumZ sg_size (segs w) = sumZ line_bytes (contents w).
Proof.
  intros [_ _ H]. unfold contents. induction H as [|s l Hs _ IH]; [done|].
  cbn [map concat]. rewrite sumZ_app, <- IH, <- (current_size _ _ Hs). done.
Qed.

(** The bytes of the directory are those of its segments. *)
Lemma directory_size w : sound w -> sumZ file_size (dir w) = sumZ sg_size (segs w).
Proof.
  intros [H1 H2 H3]. assert (Hd : NoDup (map df_path (dir w))) by (rewrite H2; by apply ascending_NoDup).
  transitivity (sumZ (fun p => match find_file p (dir w) with Some f => file_size f | None => 0 end) (map df_path (dir w))).
  - rewrite sumZ_map. apply sumZ_ext. intros f Hf. destruct (find_file_in (df_path f) (dir w)) as [g Hg]; [by apply list_elem_of_fmap_2|].
    rewrite Hg. f_equal. eapply NoDup_map_eq; [exact Hd|done| |by rewrite (find_file_path _ _ _ Hg)].
    apply find_some in Hg as [Hg _]. by apply list_elem_of_In.
  - rewrite (sumZ_permutation _ _ _ H2), sumZ_map. apply sumZ_ext. intros s Hs. rewrite Forall_forall in H3.
    destruct (H3 s Hs) as (f & -> & _ & -> & _). done.
Qed.

(** ** Changing one segment *)

Lemma lines_at_ext d d' path : find_file path d' = find_file path d -> lines_at d' path = lines_at d path.
Proof. unfold lines_at. by intros ->. Qed.

Lemma frame d d' (l : list fileSegment) : (forall s, s ∈ l -> find_file (sg_path s) d' = find_file (sg_path s) d) ->
  map (fun s => lines_at d' (sg_path s)) l = map (fun s => lines_at d (sg_path s)) l /\ (Forall (current d) l -> Forall (current d') l).
Proof.
  intros H. split.
  - apply map_ext_in. intros s Hs. apply lines_at_ext, H. by apply list_elem_of_In.
  - rewrite !Forall_forall. intros Hc s Hs. destruct (Hc s Hs) as (f & Ef & Hf). exists f. by rewrite H.
Qed.

Lemma contents_split b s a d : contents (Build_world (b ++ s :: a) d) =
  contents (Build_world b d) ++ lines_at d (sg_path s) ++ contents (Build_world a d).
Proof. unfold contents. cbn [segs dir]. by rewrite map_app, concat_app. Qed.

Lemma middle_path b s a s' : NoDup (map sg_path (b ++ s :: a)) -> s' ∈ b ++ a -> sg_path s' <> sg_path s.
Proof.
  rewrite map_app. cbn. intros H Hs E. apply NoDup_app in H as (_ & H1 & H2). apply NoDup_cons in H2 as [H2 _].
  apply elem_of_app in Hs as [Hs|Hs].
  - apply (H1 (sg_path s')); [by apply list_elem_of_fmap_2|]. rewrite E. constructor.
  - apply H2. rewrite <- E. by apply list_elem_of_fmap_2.
Qed.

(** The file of a segment is replaced. *)
Lemma sound_update b s a d s' f : sound (Build_world (b ++ s :: a) d) -> sg_path s' = sg_path s -> df_path f = sg_path s -> current_file s' f ->
  sound (Build_world (b ++ s' :: a) (set_file f d)) /\
  contents (Build_world (b ++ s' :: a) (set_file f d)) = contents (Build_world b d) ++ df_lines f ++ contents (Build_world a d).
Proof.
  intros [H0 H2 H3] Hp Hf Hc. cbn [segs dir] in *. pose proof (ascending_NoDup _ H0) as H1.
  assert (Hfr : forall l : list fileSegment, (forall t, t ∈ l -> t ∈ b ++ a) -> forall t, t ∈ l -> find_file (sg_path t) (set_file f d) = find_file (sg_path t) d).
  { intros l Hl t Ht. apply find_set_other. rewrite Hf. apply not_eq_sym. eapply middle_path; [exact H1|by apply Hl]. }
  apply Forall_app in H3 as [Hb Ha]. apply Forall_cons in Ha as [(g & Eg & _) Ha].
  assert (Ef : find_file (sg_path s) (set_file f d) = Some f) by (rewrite <- Hf in *; by eapply find_set_same).
  assert (Hmap : map sg_path (b ++ s' :: a) = map sg_path (b ++ s :: a)) by by rewrite !map_app; cbn; rewrite Hp.
  split.
  - constructor; cbn [segs dir]; [by rewrite Hmap|by rewrite paths_set, Hmap|]. apply Forall_app. split; [|apply Forall_cons; split].
    + eapply frame; [|exact Hb]. apply Hfr. set_solver.
    + exists f. by rewrite Hp.
    + eapply frame; [|exact Ha]. apply Hfr. set_solver.
  - rewrite contents_split. unfold contents. cbn [segs dir]. rewrite Hp. unfold lines_at at 2. rewrite Ef.
    rewrite (proj1 (frame d (set_file f d) b (Hfr b ltac:(set_solver)))), (proj1 (frame d (set_file f d) a (Hfr a ltac:(set_solver)))). done.
Qed.

(** A segment and its file go. *)
Lemma sound_drop b s a d : sound (Build_world (b ++ s :: a) d) ->
  sound (Build_world (b ++ a) (remove_file (sg_path s) d)) /\
  contents (Build_world (b ++ a) (remove_file (sg_path s) d)) = contents (Build_world b d) ++ contents (Build_world a d).
Proof.
  intros [H0 H2 H3]. cbn [segs dir] in *. pose proof (ascending_NoDup _ H0) as H1.
  assert (Hfr : forall t, t ∈ b ++ a -> find_file (sg_path t) (remove_file (sg_path s) d) = find_file (sg_path t) d).
  { intros t Ht. apply find_remove_other. eapply middle_path; [exact H1|done]. }
  assert (Hba : Forall (current d) (b ++ a)).
  { apply Forall_app in H3 as [Hb Ha]. apply Forall_cons in Ha as [_ Ha]. by apply Forall_app. }
  split; [constructor; cbn [segs dir]|].
  - rewrite map_app in *. by apply ascending_middle in H0.
  - rewrite paths_remove, (filter_perm _ _ _ H2), !map_app, List.filter_app. cbn. rewrite (proj2 (str_eqb_eq _ _) eq_refl). cbn.
    rewrite <- List.filter_app, <- map_app. rewrite filter_all; [done|]. intros p Hp. apply list_elem_of_fmap in Hp as (t & -> & Ht).
    apply negb_true_iff, str_eqb_neq. eapply middle_path; [exact H1|done].
  - by eapply frame.
  - unfold contents. cbn [segs dir]. rewrite (proj1 (frame _ _ _ Hfr)). by rewrite map_app, concat_app.
Qed.

(** ** The byte budget *)

Definition bytes (lines : list string) : Z := sumZ line_bytes lines.
Definition bounded (cfg : FileLogConfig) (w : world) : Prop := Forall (fun s => sg_size s <= SegmentBytes cfg) (segs w).

(** A directory that holds lines, or what is left of them when they are more
    than the budget: the newest, and more than the budget less a segment. *)
Definition aged (cfg : FileLogConfig) (all : list string) (w : world) : Prop :=
  sound w /\ bounded cfg w /\ exists lost, all = lost ++ contents w /\
    (lost = [] \/ (MaxBytes cfg < bytes all /\ MaxBytes cfg - SegmentBytes cfg < bytes (contents w))).

Lemma bytes_nonneg l : 0 <= bytes l.
Proof. apply sumZ_nonneg. intros s _. unfold line_bytes, slen. lia. Qed.

Lemma bytes_app l1 l2 : bytes (l1 ++ l2) = bytes l1 + bytes l2.
Proof. apply sumZ_app. Qed.

Lemma aged_refl cfg w : sound w -> bounded cfg w -> aged cfg (contents w) w.
Proof. intros H1 H2. split; [done|]. split; [done|]. exists []. split; [done|by left]. Qed.

Lemma aged_trans cfg all more w1 w2 : aged cfg all w1 -> aged cfg (contents w1 ++ more) w2 -> aged cfg (all ++ more) w2.
Proof.
  intros (_ & _ & lost1 & -> & H1) (Hs & Hb & lost2 & E & H2). split; [done|]. split; [done|]. exists (lost1 ++ lost2).
  split; [by rewrite <- !app_assoc, E|]. pose proof (bytes_nonneg lost1). pose proof (bytes_nonneg lost2). pose proof (bytes_nonneg more).
  assert (bytes (contents w1 ++ more) = bytes (lost2 ++ contents w2)) as Eb by by rewrite E. rewrite !bytes_app in *.
  destruct H2 as [->|[H2 H2']]; [|right; lia]. destruct H1 as [->|[H1 H1']]; [by left|right]. cbn in *. lia.
Qed.

Lemma trim_count_spec cfg l : 0 <= MaxBytes cfg -> Forall (fun s => 0 <= sg_size s <= SegmentBytes cfg) l ->
  let n := trim_count cfg l (sumZ sg_size l) in
  sumZ sg_size (drop n l) <= MaxBytes cfg /\
  (n = 0%nat \/ (MaxBytes cfg < sumZ sg_size l /\ MaxBytes cfg - SegmentBytes cfg < sumZ sg_size (drop n l))).
Proof.
  intros Hm. induction 1 as [|s l Hs Hl IH]; [cbn; split; [done|by left]|]. cbn [trim_count].
  change (sumZ sg_size (s :: l)) with (sg_size s + sumZ sg_size l). destruct (_ <=? MaxBytes cfg) eqn:E.
  - apply Z.leb_le in E. split; [done|by left].
  - apply Z.leb_gt in E. replace (sg_size s + sumZ sg_size l - sg_size s) with (sumZ sg_size l) by lia. cbn [drop].
    cbv zeta in IH. destruct IH as [IH1 [IH2|IH2]]; (split; [done|]); right; (split; [done|]); [|lia]. rewrite IH2, drop_0. lia.
Qed.

Lemma drop_segments n : forall l d, sound (Build_world l d) ->
  sound (Build_world (drop n l) (foldl (fun d s => remove_file (sg_path s) d) d (take n l))) /\
  exists lost, contents (Build_world l d) = lost ++ contents (Build_world (drop n l) (foldl (fun d s => remove_file (sg_path s) d) d (take n l))).
Proof.
  induction n as [|n IH]; intros l d H; [rewrite drop_0; split; [done|by exists []]|].
  destruct l as [|s l]; [split; [done|by exists []]|]. destruct (sound_drop [] s l d H) as [H1 H2]. cbn [app] in *.
  destruct (IH l (remove_file (sg_path s) d) H1) as (H3 & lost & H4). split; [done|]. exists (lines_at d (sg_path s) ++ lost).
  cbn [drop take foldl]. rewrite <- app_assoc, <- H4, H2. apply (contents_split [] s l d).
Qed.

Lemma size_nonneg w s : sound w -> s ∈ segs w -> 0 <= sg_size s.
Proof. intros [_ _ H] Hs. rewrite Forall_forall in H. rewrite (current_size _ _ (H s Hs)). apply bytes_nonneg. Qed.

Lemma trim_spec cfg w : 0 <= MaxBytes cfg -> sound w -> bounded cfg w ->
  aged cfg (contents w) (trim cfg w) /\ bytes (contents (trim cfg w)) <= MaxBytes cfg.
Proof.
  intros Hm Hs Hb. destruct w as [l d]. destruct (trim_count_spec cfg l Hm) as [H1 H2].
  { apply Forall_forall. intros s Hin. split; [by eapply (size_nonneg (Build_world l d))|]. unfold bounded in Hb. cbn in Hb. rewrite Forall_forall in Hb. by apply Hb. }
  unfold trim. cbn [segs dir]. set (n := trim_count cfg l _) in *. destruct (drop_segments n l d Hs) as (H3 & lost & H4).
  unfold bytes. rewrite <- (contents_size _ H3). split; [|done]. split; [done|]. split; [unfold bounded in *; cbn in *; by apply Forall_drop|].
  destruct H2 as [->|H2].
  - exists []. split; [|by left]. cbn. by rewrite drop_0.
  - exists lost. split; [done|]. right. unfold bytes. rewrite <- !contents_size by done. done.
Qed.

(** ** Rewriting segments *)

Definition keep_line (keep : fileRecord -> bool) (s : string) : bool := match unmarshal s with Some r => keep r | None => false end.

Lemma scan_rewrite_spec keep lines : written lines ->
  scan_rewrite marshal unmarshal keep lines =
    Ok (List.filter (keep_line keep) lines, List.filter keep (rows lines), negb (forallb (keep_line keep) lines)).
Proof.
  induction 1 as [|s lines (r & H1 & H2 & H3 & _) _ IH]; [done|]. cbn. rewrite (proj2 (Z.ltb_ge scanLimit (line_bytes s))) by done.
  assert (Hk : keep_line keep s = keep r) by (unfold keep_line; by rewrite H1). rewrite Hk, H1. cbn.
  destruct (keep r); [rewrite H2|]; rewrite IH; done.
Qed.

Lemma rows_filter keep lines : written lines -> rows (List.filter (keep_line keep) lines) = List.filter keep (rows lines).
Proof.
  induction 1 as [|s lines (r & H1 & _) _ IH]; [done|]. cbn. assert (Hk : keep_line keep s = keep r) by (unfold keep_line; by rewrite H1).
  rewrite Hk, H1. cbn. unfold rows in IH. destruct (keep r); cbn; [|done]. rewrite H1. cbn. by rewrite IH.
Qed.

Lemma written_filter p lines : written lines -> written (List.filter p lines).
Proof. unfold written. rewrite !Forall_forall. intros H s Hs. apply H. rewrite list_elem_of_In, filter_In in Hs. apply list_elem_of_In, Hs. Qed.

Lemma rows_nil lines : written lines -> rows lines = [] -> lines = [].
Proof. destruct 1 as [|s l (r & H & _) _]; [done|]. unfold rows. cbn. rewrite H. cbn. intros E. discriminate. Qed.

Lemma filter_bytes p lines : bytes (List.filter p lines) <= bytes lines.
Proof.
  induction lines as [|s l IH]; [done|]. cbn [List.filter]. change (bytes (s :: l)) with (line_bytes s + bytes l).
  assert (0 <= line_bytes s) by (unfold line_bytes, slen; lia). destruct (p s); [change (bytes (s :: ?x)) with (line_bytes s + bytes x)|]; lia.
Qed.

(** One segment: what is left of it, the rest untouched. *)
Lemma rewrite_one_spec keep b s a d : sound (Build_world (b ++ s :: a) d) ->
  exists l d', rewrite_one marshal unmarshal mt keep s d = Ok (l, d') /\ sound (Build_world (b ++ l ++ a) d') /\
    contents (Build_world l d') = List.filter (keep_line keep) (lines_at d (sg_path s)) /\
    (forall t, t ∈ b ++ a -> find_file (sg_path t) d' = find_file (sg_path t) d) /\ (forall s', s' ∈ l -> sg_size s' <= sg_size s).
Proof.
  intros H. pose proof (sound_segments _ H) as Hall. cbn [segs dir] in Hall. apply Forall_app in Hall as [_ Hall].
  apply Forall_cons in Hall as [(f & Ef & Ht & Hsz & Hw & He) _]. unfold rewrite_one. rewrite Ef, (tokens_empty _ Ht), (scan_rewrite_spec keep _ Hw). cbn.
  assert (Hmid := middle_path b s a). assert (Hla : lines_at d (sg_path s) = df_lines f) by (unfold lines_at; by rewrite Ef). rewrite Hla.
  destruct (forallb (keep_line keep) (df_lines f)) eqn:Em; cbn [negb].
  - rewrite forallb_forall in Em. rewrite (filter_all (keep_line keep)) by (intros l Hl; apply Em; by apply list_elem_of_In).
    rewrite <- rows_filter, (filter_all (keep_line keep)), <- He by (done || (intros l Hl; apply Em; by apply list_elem_of_In)).
    eexists _, _. split; [reflexivity|]. change (s <| sg_expiry := sg_expiry s |>) with (Build_fileSegment (sg_path s) (sg_modified s) (sg_size s) (sg_expiry s)).
    destruct s as [p m z e]. cbn in *. split; [done|]. split; [unfold contents; cbn; by rewrite app_nil_r|]. split; [done|]. set_solver.
  - destruct (len (List.filter keep (rows (df_lines f))) =? 0) eqn:E0.
    + apply Z.eqb_eq in E0. destruct (List.filter keep (rows (df_lines f))) as [|r rs] eqn:Er; [|rewrite len_cons in E0; pose proof (len_nonneg rs); lia].
      rewrite <- rows_filter in Er by done. apply rows_nil in Er; [|by apply written_filter]. rewrite Er.
      eexists _, _. split; [reflexivity|]. split; [by apply sound_drop|]. split; [done|]. split; [|set_solver].
      intros t Ht'. apply find_remove_other. apply Hmid; [exact (sound_paths _ H)|done].
    + set (f' := Build_dfile (sg_path s) (List.filter (keep_line keep) (df_lines f)) "" mt).
      eexists _, _. split; [reflexivity|]. match goal with |- sound (Build_world (_ ++ [?x] ++ _) _) /\ _ => set (s' := x) end.
      assert (Hc : current_file s' f').
      { split; [done|]. split; [done|]. split; [by apply written_filter|]. cbn. by rewrite rows_filter. }
      destruct (sound_update b s a d s' f' H) as [H1 H2]; [done|done|done|]. split; [done|].
      assert (Hfind : find_file (sg_path s) (set_file f' d) = Some f') by (eapply (find_set_same f'); exact Ef).
      split; [unfold contents, lines_at; cbn [segs dir map concat]; change (sg_path s') with (sg_path s); rewrite Hfind; apply app_nil_r|].
      split; [intros t Ht'; apply find_set_other; apply not_eq_sym, Hmid; [exact (sound_paths _ H)|done]|].
      intros t ->%list_elem_of_singleton. rewrite Hsz. unfold s', file_size. cbn. rewrite Ht.
      change (bytes (List.filter (keep_line keep) (df_lines f)) + 0 <= bytes (df_lines f) + 0). pose proof (filter_bytes (keep_line keep) (df_lines f)). lia.
Qed.

Lemma contents_frame d d' l : (forall t, t ∈ l -> find_file (sg_path t) d' = find_file (sg_path t) d) ->
  contents (Build_world l d') = contents (Build_world l d).
Proof. intros H. unfold contents. cbn [segs dir]. by rewrite (proj1 (frame d d' l H)). Qed.

Lemma contents_app b a d : contents (Build_world (b ++ a) d) = contents (Build_world b d) ++ contents (Build_world a d).
Proof. unfold contents. cbn [segs dir]. by rewrite map_app, concat_app. Qed.

(** Segments that are not selected must have nothing to leave out. *)
Lemma rewrite_loop_spec selected keep a : forall b d, sound (Build_world (b ++ a) d) ->
  (forall s, s ∈ a -> selected s = false -> forall x, x ∈ lines_at d (sg_path s) -> keep_line keep x = true) ->
  exists w, rewrite_loop marshal unmarshal mt selected keep b a d = (w, Ok tt) /\ sound w /\
    contents w = contents (Build_world b d) ++ List.filter (keep_line keep) (contents (Build_world a d)) /\
    (forall cfg, bounded cfg (Build_world (b ++ a) d) -> bounded cfg w).
Proof.
  induction a as [|s a IH]; intros b d H Hk; cbn [rewrite_loop].
  - rewrite app_nil_r in H. eexists. split; [reflexivity|]. split; [done|]. split; [cbn; by rewrite app_nil_r|]. intros cfg. by rewrite app_nil_r.
  - assert (Hs : contents (Build_world (s :: a) d) = lines_at d (sg_path s) ++ contents (Build_world a d)) by done.
    rewrite Hs, List.filter_app. destruct (selected s) eqn:Es.
    + destruct (rewrite_one_spec keep b s a d H) as (l & d' & -> & H1 & H2 & H3 & H4). rewrite app_assoc in H1.
      destruct (IH (b ++ l) d' H1) as (w & -> & G1 & G2 & G3).
      { intros t Ht Hn x Hx. rewrite (lines_at_ext d d') in Hx by (apply H3; set_solver). eapply Hk; [|exact Hn|exact Hx]. set_solver. }
      exists w. split; [done|]. split; [done|]. split.
      * rewrite G2, contents_app, H2, (contents_frame d d' b), (contents_frame d d' a) by (intros t Ht; apply H3; set_solver). by rewrite <- app_assoc.
      * intros cfg Hb. apply G3. unfold bounded in *. cbn [segs] in *. rewrite !Forall_app, Forall_cons in *. destruct Hb as (Hb1 & Hb2 & Hb3).
        split; [split; [done|]|done]. apply Forall_forall. intros t Ht. specialize (H4 t Ht). lia.
    + destruct (IH (b ++ [s]) d) as (w & -> & G1 & G2 & G3); [by rewrite <- app_assoc|by intros t Ht; apply Hk; set_solver|].
      exists w. split; [done|]. split; [done|]. split; [|by rewrite <- app_assoc in G3]. rewrite G2, contents_app, <- app_assoc. f_equal.
      f_equal. rewrite (filter_all (keep_line keep) (lines_at d (sg_path s))); [unfold contents; cbn; by rewrite app_nil_r|].
      intros x Hx. eapply Hk; [|exact Es|exact Hx]. set_solver.
Qed.

(** Rewriting every segment filters the log. *)
Lemma rewrite_spec keep w : sound w ->
  exists w', rewrite marshal unmarshal mt keep w = (w', Ok tt) /\ sound w' /\
    contents w' = List.filter (keep_line keep) (contents w) /\ (forall cfg, bounded cfg w -> bounded cfg w').
Proof.
  intros H. destruct w as [l d]. destruct (rewrite_loop_spec (fun _ => true) keep l [] d H) as (w' & E & H1 & H2 & H3); [done|].
  exists w'. done.
Qed.

(** *** Expiry *)

Lemma earliest_le r rs : zero_time < fr_ExpiresAt r -> (forall q, q ∈ rs -> zero_time < fr_ExpiresAt q) ->
  forall e, (e = zero_time \/ zero_time < e) ->
  let x := foldl (fun e r => earliestExpiry e (fr_ExpiresAt r)) (earliestExpiry e (fr_ExpiresAt r)) rs in
  zero_time < x /\ (e = zero_time \/ x <= e) /\ x <= fr_ExpiresAt r /\ forall q, q ∈ rs -> x <= fr_ExpiresAt q.
Proof.
  unfold zero_time. revert r. induction rs as [|q rs IH]; intros r Hr Hrs e He.
  - cbn. unfold earliestExpiry, is_zero. destruct ((e =? 0) || (fr_ExpiresAt r <? e)) eqn:E.
    + apply orb_true_iff in E as [E|E]; [apply Z.eqb_eq in E|apply Z.ltb_lt in E]; (split; [lia|split; [lia|split; [lia|set_solver]]]).
    + apply orb_false_iff in E as [E1%Z.eqb_neq E2%Z.ltb_ge]. split; [lia|]. split; [lia|]. split; [lia|set_solver].
  - cbn [foldl]. set (e' := earliestExpiry e (fr_ExpiresAt r)).
    assert (He' : 0 < e' /\ (e = 0 \/ e' <= e) /\ e' <= fr_ExpiresAt r).
    { unfold e', earliestExpiry, is_zero. destruct ((e =? 0) || (fr_ExpiresAt r <? e)) eqn:E.
      - apply orb_true_iff in E as [E|E]; [apply Z.eqb_eq in E|apply Z.ltb_lt in E]; lia.
      - apply orb_false_iff in E as [E1%Z.eqb_neq E2%Z.ltb_ge]. lia. }
    destruct (IH q (Hrs q ltac:(set_solver)) (fun p Hp => Hrs p ltac:(set_solver)) e' ltac:(lia)) as (H1 & H2 & H3 & H4). cbv zeta in *.
    split; [done|]. split; [lia|]. split; [lia|]. intros p [->|Hp]%elem_of_cons; [done|by apply H4].
Qed.

(** The expiry of a segment is no later than that of its records. *)
Lemma expiry_earliest rs r : (forall q, q ∈ rs -> zero_time < fr_ExpiresAt q) -> r ∈ rs -> expiry_of rs <= fr_ExpiresAt r.
Proof.
  intros H Hr. destruct rs as [|q rs]; [by apply elem_of_nil in Hr|]. unfold expiry_of. cbn [foldl].
  destruct (earliest_le q rs (H q ltac:(set_solver)) (fun p Hp => H p ltac:(set_solver)) zero_time ltac:(by left)) as (_ & _ & H3 & H4).
  apply elem_of_cons in Hr as [->|Hr]; [done|by apply H4].
Qed.

Lemma rows_elem lines r : written lines -> r ∈ rows lines -> zero_time < fr_ExpiresAt r.
Proof.
  intros Hw Hr. apply list_elem_of_omap in Hr as (s & Hs & E). unfold written in Hw. rewrite Forall_forall in Hw.
  destruct (Hw s Hs) as (r' & H1 & _ & _ & H2). congruence.
Qed.

Definition live (now : time) (r : fileRecord) : bool := now <? fr_ExpiresAt r.

Lemma expire_spec now w : sound w ->
  exists w', expire marshal unmarshal mt now w = (w', Ok tt) /\ sound w' /\
    contents w' = List.filter (keep_line (live now)) (contents w) /\ (forall cfg, bounded cfg w -> bounded cfg w').
Proof.
  intros H. destruct w as [l d].
  destruct (rewrite_loop_spec (fun s => sg_expiry s <=? now) (live now) l [] d H) as (w' & E & H1 & H2 & H3).
  - intros s Hs Hn x Hx. apply Z.leb_gt in Hn. destruct H as [_ _ H]. cbn [segs dir] in H. rewrite Forall_forall in H.
    destruct (H s Hs) as (f & Ef & _ & _ & Hw & He). unfold lines_at in Hx. rewrite Ef in Hx.
    unfold written in Hw. pose proof Hw as Hw'. rewrite Forall_forall in Hw. destruct (Hw x Hx) as (r & Hr & _).
    unfold keep_line, live. rewrite Hr. apply Z.ltb_lt. assert (Hin : r ∈ rows (df_lines f)) by (apply list_elem_of_omap; by eexists).
    pose proof (expiry_earliest (rows (df_lines f)) r (fun q => rows_elem _ q Hw') Hin). lia.
  - exists w'. done.
Qed.

(** ** Appending *)

(** An empty file under a name of its own. *)
Lemma sound_add l d path : sound (Build_world l d) -> (forall p, p ∈ map df_path d -> String.ltb p path = true) ->
  sound (Build_world (l ++ [Build_fileSegment path zero_time 0 zero_time]) (d ++ [Build_dfile path [] "" mt])) /\
  contents (Build_world (l ++ [Build_fileSegment path zero_time 0 zero_time]) (d ++ [Build_dfile path [] "" mt])) = contents (Build_world l d).
Proof.
  intros [H1 H2 H3] Hlt. cbn [segs dir] in *.
  assert (Hn : path ∉ map df_path d) by (intros Hc; specialize (Hlt path Hc); by rewrite string_ltb_irrefl in Hlt).
  assert (Hn' : path ∉ map sg_path l) by by rewrite <- H2.
  assert (Hfr : forall t, t ∈ l -> find_file (sg_path t) (d ++ [Build_dfile path [] "" mt]) = find_file (sg_path t) d).
  { intros t Ht. apply find_snoc_other. cbn. intros ->. apply Hn'. by apply list_elem_of_fmap_2. }
  assert (Hnew : find_file path (d ++ [Build_dfile path [] "" mt]) = Some (Build_dfile path [] "" mt)).
  { unfold find_file. rewrite find_app. fold (find_file path d). rewrite (find_file_none path d Hn). cbn. by rewrite (proj2 (str_eqb_eq _ _) eq_refl). }
  split; [constructor; cbn [segs dir]|].
  - rewrite map_app. apply ascending_snoc; [done|]. intros p Hp. apply Hlt. by rewrite H2.
  - rewrite !map_app. cbn. by rewrite H2.
  - apply Forall_app. split; [by eapply frame|]. apply Forall_singleton. exists (Build_dfile path [] "" mt). split; [done|].
    split; [done|]. split; [done|]. split; [constructor|done].
  - rewrite contents_app, (contents_frame d) by done. unfold contents at 2. cbn [segs dir map concat]. unfold lines_at. cbn [sg_path]. rewrite Hnew.
    cbn. apply app_nil_r.
Qed.

Lemma trim_paths cfg w p : p ∈ map df_path (dir (trim cfg w)) -> p ∈ map df_path (dir w).
Proof.
  unfold trim. cbn [dir]. set (gone := take _ _). generalize (dir w). induction gone as [|s gone IH]; intros d Hp; [done|]. cbn [foldl] in Hp.
  apply IH in Hp. rewrite paths_remove in Hp. by apply list_elem_of_In, filter_In in Hp as [Hp%list_elem_of_In _].
Qed.

Lemma new_segment_spec cfg created w low : dated low (dir w) -> nameable created -> low < created ->
  0 <= MaxBytes cfg -> 0 <= SegmentBytes cfg -> sound w -> bounded cfg w ->
  aged cfg (contents w) (new_segment random mt cfg created w) /\ dated created (dir (new_segment random mt cfg created w)) /\
  exists b s, segs (new_segment random mt cfg created w) = b ++ [s] /\ sg_size s = 0.
Proof.
  intros Hdt Hc Hlow Hm Hg Hs Hb. destruct (trim_spec cfg w Hm Hs Hb) as [Ha _].
  pose proof (dated_subset low (dir w) (dir (trim cfg w)) (trim_paths cfg w) Hdt) as Hd'.
  unfold new_segment. destruct (trim cfg w) as [l d]. cbn [segs dir] in *. set (path := segment_name created _).
  assert (Hlt : forall p, p ∈ map df_path d -> String.ltb p path = true) by (intros p; by apply dated_newest with (low := low)).
  destruct Ha as (Hs' & Hb' & lost & E & H). destruct (sound_add l d path Hs' Hlt) as [H1 H2].
  split; [|split; [|by eexists _, _]].
  - split; [done|]. split; [|exists lost; by rewrite H2].
    unfold bounded in *. cbn [segs] in *. apply Forall_app. split; [done|]. by apply Forall_singleton.
  - unfold dated. rewrite map_app. apply Forall_app. split; [apply (dated_weaken low); [lia|done]|].
    apply Forall_singleton. eexists _, _. split; [reflexivity|]. split; [done|lia].
Qed.

Lemma room_spec cfg created n w low : dated low (dir w) -> nameable created -> low < created ->
  0 <= MaxBytes cfg -> 0 <= n <= SegmentBytes cfg -> sound w -> bounded cfg w ->
  aged cfg (contents w) (room random mt cfg created n w) /\
  dated (if full cfg n w then created else low) (dir (room random mt cfg created n w)) /\
  exists b s, segs (room random mt cfg created n w) = b ++ [s] /\ sg_size s + n <= SegmentBytes cfg.
Proof.
  intros Hd Hc Hlow Hm Hn Hs Hb. unfold room. destruct (full cfg n w) eqn:E.
  - destruct (new_segment_spec cfg created w low Hd Hc Hlow Hm ltac:(lia) Hs Hb) as (H1 & H2 & b & s & H3 & H4).
    split; [done|]. split; [done|]. exists b, s. split; [done|lia].
  - unfold full in E. destruct (last (segs w)) as [s|] eqn:El; [|done]. apply Z.ltb_ge in E.
    split; [by apply aged_refl|]. split; [done|]. apply last_Some in El as [b El]. by exists b, s.
Qed.

Lemma write_line_paths data expires w : map df_path (dir (write_line mt data expires w)) = map df_path (dir w).
Proof.
  unfold write_line. destruct (last (segs w)) as [s|]; [|done]. cbn [dir]. rewrite map_map. apply map_ext. intros f. by destruct (str_eqb _ _).
Qed.

Lemma write_spec cfg data r w b s : sound w -> bounded cfg w -> segs w = b ++ [s] -> stored data r -> sg_size s + line_bytes data <= SegmentBytes cfg ->
  aged cfg (contents w ++ [data]) (write_line mt data (fr_ExpiresAt r) w).
Proof.
  intros Hs Hb E Hd Hz. destruct w as [l d]. cbn [segs] in E. subst l. unfold write_line. cbn [segs dir].
  rewrite last_snoc, removelast_last. pose proof (sound_segments _ Hs) as Hc. cbn [segs dir] in Hc. apply Forall_app in Hc as [_ Hc].
  apply Forall_singleton in Hc as (f & Ef & Ht & Hsz & Hw & He).
  assert (Hl : df_lines (add_line mt data f) = df_lines f ++ [data]) by (cbn; by rewrite Ht).
  pose proof (sound_files _ Hs) as Hp. pose proof (sound_paths _ Hs) as Hn. cbn [segs dir] in *.
  rewrite (map_at_path (add_line mt data) (sg_path s) d f); [|by rewrite Hp|done|exact (find_file_path _ _ _ Ef)].
  set (s' := s <| sg_size := _ |> <| sg_expiry := _ |>).
  assert (Hcur : current_file s' (add_line mt data f)).
  { split; [done|]. split; [|split].
    - unfold s', file_size. rewrite Hl, sumZ_app. cbn. rewrite Hsz. unfold file_size. rewrite Ht. change (slen "") with 0. lia.
    - rewrite Hl. apply written_app. split; [done|]. apply Forall_singleton. by exists r.
    - unfold s'. rewrite Hl, rows_app. cbn. destruct Hd as [Hu _]. rewrite Hu. cbn. unfold expiry_of. rewrite foldl_snoc.
      fold (expiry_of (rows (df_lines f))). by rewrite He. }
  destruct (sound_update b s [] d s' (add_line mt data f) Hs) as [H1 H2]; [done|exact (find_file_path _ _ _ Ef)|done|].
  split; [done|]. split.
  - unfold bounded in *. cbn [segs] in *. apply Forall_app in Hb as [Hb _]. apply Forall_app. split; [done|]. apply Forall_singleton. exact Hz.
  - exists []. split; [|by left]. rewrite H2, Hl, contents_split. unfold lines_at. rewrite Ef. change (contents (Build_world [] d)) with (@nil string).
    rewrite !app_nil_r, <- app_assoc. done.
Qed.

(** A live record that an append can write. *)
Definition encodable (cfg : FileLogConfig) (r : fileRecord) (data : string) : Prop := stored data r /\ line_bytes data <= SegmentBytes cfg.

Definition encoded (rs : list fileRecord) : list string := omap marshal rs.

Lemma append_loop_spec cfg now records : 0 <= MaxBytes cfg ->
  forall stamps low w, clock_runs low stamps (length records) -> dated low (dir w) -> sound w -> bounded cfg w ->
  (forall r, r ∈ List.filter (live now) records -> exists data, encodable cfg r data) ->
  exists w', append_loop marshal random mt cfg now stamps records w = (w', Ok tt) /\
    aged cfg (contents w ++ encoded (List.filter (live now) records)) w' /\ dated (clock_after low stamps) (dir w').
Proof.
  intros Hm. induction records as [|r records IH]; intros stamps low w Hc Hdt Hs Hb He; cbn [append_loop].
  - eexists. split; [reflexivity|]. cbn. rewrite app_nil_r. split; [by apply aged_refl|].
    eapply dated_weaken; [by eapply clock_runs_le|done].
  - cbn [List.filter length] in *. unfold live at 1 in He. unfold live at 1. rewrite Z.leb_antisym.
    destruct (now <? fr_ExpiresAt r); cbn [negb]; [|apply (IH stamps low); [by eapply clock_runs_less; [|exact Hc]; lia|done..]].
    destruct (He r ltac:(set_solver)) as (data & Hd & Hz). pose proof Hd as (_ & Hmar & _). rewrite Hmar.
    rewrite (proj2 (Z.ltb_ge (SegmentBytes cfg) (line_bytes data))) by done.
    assert (Hn : 0 <= line_bytes data) by (unfold line_bytes, slen; lia).
    destruct (clock_runs_next _ _ _ Hc) as (u & rest & -> & U1 & U2 & U3 & U4). cbn [head tail].
    destruct (room_spec cfg u (line_bytes data) w low Hdt U2 U1 Hm ltac:(lia) Hs Hb) as (H1 & Hdr & b & s & H2 & H3).
    pose proof H1 as (G1 & G2 & _). pose proof (write_spec cfg data r _ b s G1 G2 H2 Hd H3) as H4. pose proof H4 as (K1 & K2 & _).
    assert (Hrest : exists w', append_loop marshal random mt cfg now (if full cfg (line_bytes data) w then rest else u :: rest) records
        (write_line mt data (fr_ExpiresAt r) (room random mt cfg u (line_bytes data) w)) = (w', Ok tt) /\
        aged cfg (contents (write_line mt data (fr_ExpiresAt r) (room random mt cfg u (line_bytes data) w)) ++
          encoded (List.filter (live now) records)) w' /\ dated (clock_after low (u :: rest)) (dir w')).
    { assert (Hd' : dated (if full cfg (line_bytes data) w then u else low)
        (dir (write_line mt data (fr_ExpiresAt r) (room random mt cfg u (line_bytes data) w)))).
      { unfold dated. by rewrite write_line_paths. }
      assert (He' : forall q, q ∈ List.filter (live now) records -> exists data, encodable cfg q data) by (intros q Hq; apply He; set_solver).
      destruct (full cfg (line_bytes data) w).
      - rewrite <- U4. by apply IH.
      - apply IH; [by eapply clock_runs_less; [|exact Hc]; lia|done..]. }
    destruct Hrest as (w' & E & H5 & H6). exists w'. change (default now (Some u)) with u. split; [exact E|]. split; [|exact H6].
    unfold encoded. cbn. rewrite Hmar. cbn.
    change (data :: omap marshal (List.filter (live now) records)) with ([data] ++ encoded (List.filter (live now) records)).
    rewrite app_assoc. eapply aged_trans; [|exact H5]. eapply aged_trans; [exact H1|exact H4].
Qed.

(** ** Taking the lock *)

Definition known (previous : list fileSegment) (path : string) (f : dfile) : Prop :=
  forall s, s ∈ previous -> sg_path s = path -> sg_size s = file_size f -> sg_modified s = df_mtime f -> current_file s f.

Lemma repair_written f : slen (df_tail f) < scanLimit -> exists f', repairFileTail mt f = Ok f' /\
  df_path f' = df_path f /\ df_lines f' = df_lines f /\ df_tail f' = "".
Proof.
  intros H. unfold repairFileTail. destruct (file_size f =? 0) eqn:E.
  - apply Z.eqb_eq in E. exists f. split; [done|]. split; [done|]. split; [done|]. apply slen_empty. unfold file_size in E.
    pose proof (bytes_nonneg (df_lines f)) as Hb. unfold bytes in Hb. assert (0 <= slen (df_tail f)) by (unfold slen; lia). lia.
  - destruct (str_eqb (df_tail f) "") eqn:Et; [apply str_eqb_eq in Et; by exists f|].
    rewrite (proj2 (Z.leb_gt scanLimit (slen (df_tail f)))) by done. cbn. by eexists.
Qed.

Lemma refresh_one_spec previous path d f : find_file path d = Some f -> written (df_lines f) -> slen (df_tail f) < scanLimit -> known previous path f ->
  exists s d', refresh_one unmarshal mt previous path d = (d', Ok s) /\ sg_path s = path /\ current d' s /\
    map df_path d' = map df_path d /\ (forall q, q <> path -> find_file q d' = find_file q d) /\ lines_at d' path = lines_at d path.
Proof.
  intros Hf Hw Ht Hk. unfold refresh_one. rewrite Hf. destruct (repair_written f Ht) as (f' & Er & Hp & Hl & Ht'). rewrite Er.
  pose proof (find_file_path _ _ _ Hf) as Hpath.
  assert (Hfind : find_file path (set_file f' d) = Some f') by (rewrite <- Hpath, <- Hp; eapply find_set_same; by rewrite Hp, Hpath).
  assert (Hrepaired : exists s d', (set_file f' d, rs ← scanFile unmarshal path (set_file f' d); Ok (Build_fileSegment path (df_mtime f') (file_size f') (expiry_of rs))) = (d', Ok s) /\
    sg_path s = path /\ current d' s /\
    map df_path d' = map df_path d /\ (forall q, q <> path -> find_file q d' = find_file q d) /\ lines_at d' path = lines_at d path).
  { unfold scanFile. rewrite Hfind, tokens_empty, scan_written by (done || by rewrite Hl). cbn. eexists _, _. split; [reflexivity|].
    split; [done|]. split; [exists f'; cbn; split; [done|]; split; [done|]; split; [done|]; by rewrite Hl|].
    split; [apply paths_set|]. split; [intros q Hq; apply find_set_other; congruence|]. unfold lines_at. by rewrite Hfind, Hf. }
  destruct (List.find _ previous) as [s|] eqn:Es; [|exact Hrepaired]. destruct ((_ =? _) && _) eqn:E; [|exact Hrepaired].
  apply find_some in Es as [Es1 Es2]. apply str_eqb_eq in Es2. apply andb_true_iff in E as [E1%Z.eqb_eq E2%Z.eqb_eq].
  exists s, d. split; [done|]. split; [done|]. split; [|done]. exists f. rewrite Es2. split; [done|]. apply Hk; [by apply list_elem_of_In|done..].
Qed.

Lemma refresh_loop_spec previous paths : forall d acc, NoDup paths ->
  (forall p, p ∈ paths -> exists f, find_file p d = Some f /\ written (df_lines f) /\ slen (df_tail f) < scanLimit /\ known previous p f) ->
  exists l d', refresh_loop unmarshal mt previous paths d acc = (d', Ok (acc ++ l)) /\ map sg_path l = paths /\ Forall (current d') l /\
    map df_path d' = map df_path d /\ (forall q, q ∉ paths -> find_file q d' = find_file q d) /\ (forall q, q ∈ paths -> lines_at d' q = lines_at d q).
Proof.
  induction paths as [|p paths IH]; intros d acc Hn H; cbn [refresh_loop].
  - exists [], d. rewrite app_nil_r. split; [done|]. split; [done|]. split; [constructor|]. split; [done|]. split; [done|]. by intros q ?%elem_of_nil.
  - apply NoDup_cons in Hn as [Hp Hn]. destruct (H p ltac:(set_solver)) as (f & Hf & Hw & Ht & Hk).
    destruct (refresh_one_spec previous p d f Hf Hw Ht Hk) as (s & d1 & -> & E1 & E2 & E3 & E4 & E5).
    destruct (IH d1 (acc ++ [s]) Hn) as (l & d' & -> & G1 & G2 & G3 & G4 & G5).
    { intros q Hq. rewrite E4 by (intros ->; done). apply H. set_solver. }
    exists (s :: l), d'. split; [by rewrite <- app_assoc|]. split; [cbn; by rewrite E1, G1|]. split; [|split; [by rewrite G3|split]].
    + apply Forall_cons. split; [|done]. destruct E2 as (g & Eg & Hg). exists g. rewrite G4 by by rewrite E1. done.
    + intros q Hq. rewrite G4 by set_solver. apply E4. set_solver.
    + intros q [->|Hq]%elem_of_cons; [by rewrite (lines_at_ext d1 d') by by apply G4|]. rewrite G5 by done. apply lines_at_ext, E4. by intros ->.
Qed.

(** A refresh drops the partial tails and nothing else. *)
Lemma refresh_spec previous d : healthy previous d ->
  exists l d', refresh unmarshal mt previous d = (d', Ok l) /\ sound (Build_world l d') /\ contents (Build_world l d') = directory_lines d /\
    map sg_path l = glob d /\ (forall p, p ∈ glob d -> lines_at d' p = lines_at d p).
Proof.
  intros [H1 H2 H3]. destruct (refresh_loop_spec previous (glob d) d []) as (l & d' & E & G1 & G2 & G3 & _ & G5).
  - by rewrite glob_perm.
  - intros p Hp. rewrite glob_perm in Hp. destruct (find_file_in p d Hp) as [f Hf]. exists f. rewrite Forall_forall in H2. split; [done|].
    pose proof Hf as Hin. apply find_some in Hin as [Hin _]. apply list_elem_of_In in Hin. destruct (H2 f Hin) as [Hw Ht]. split; [done|]. split; [done|].
    intros s Hs Hpath Hsz Hm. apply H3; [done|by rewrite Hpath|done|done].
  - exists l, d'. split; [done|]. split; [constructor; cbn [segs dir]; [rewrite G1; by apply NoDup_ascending|rewrite G1, G3; symmetry; apply glob_perm|done]|].
    split; [|done]. unfold contents, directory_lines. cbn [segs dir]. f_equal. rewrite <- G1, map_map. apply map_ext_in. intros s Hs. apply G5.
    rewrite <- G1. apply list_elem_of_fmap_2. by apply list_elem_of_In.
Qed.

(** What an operation leaves is healthy, and is found again as it was left. *)
Lemma sound_healthy w : sound w -> healthy (segs w) (dir w) /\ directory_lines (dir w) = contents w.
Proof.
  intros H. pose proof (sound_paths w H) as Hn. destruct H as [H1 H2 H3]. rewrite Forall_forall in H3. split; [constructor|].
  - by rewrite H2.
  - apply Forall_forall. intros f Hf. assert (Hp : df_path f ∈ map sg_path (segs w)) by (rewrite <- H2; by apply list_elem_of_fmap_2).
    apply list_elem_of_fmap in Hp as (s & Ep & Hs). destruct (H3 s Hs) as (g & Eg & Ht & _ & Hw & _).
    assert (f = g) as ->.
    { eapply NoDup_map_eq; [by rewrite H2|exact Hf| |by rewrite Ep, (find_file_path _ _ _ Eg)]. apply find_some in Eg as [Eg _]. by apply list_elem_of_In. }
    split; [done|]. rewrite Ht. done.
  - intros s f Hs Hf _ _. destruct (H3 s Hs) as (g & Eg & Hg). congruence.
  - unfold directory_lines, contents, glob. rewrite (ascending_isort _ _ H2 H1). f_equal. apply map_map.
Qed.

(** ** Histories *)

(** What a reader finds. *)
Definition read (previous : list fileSegment) (d : directory) : result error (list fileRecord) :=
  match refresh unmarshal mt previous d with
  | (_, Err e) => Err e
  | (d, Ok l) => scan_all unmarshal (map sg_path l) d
  end.

Definition fits (cfg : FileLogConfig) (d : directory) : Prop := Forall (fun f => bytes (df_lines f) <= SegmentBytes cfg) d.

(** The bytes records take. *)
Definition record_bytes (rs : list fileRecord) : Z := bytes (encoded rs).

Lemma encoded_rows lines : written lines -> encoded (rows lines) = lines.
Proof. induction 1 as [|s l (r & H1 & H2 & _) _ IH]; [done|]. unfold encoded, rows in *. cbn. rewrite H1. cbn. rewrite H2. cbn. by rewrite IH. Qed.

Lemma rows_encoded cfg rs : (forall r, r ∈ rs -> exists data, encodable cfg r data) -> rows (encoded rs) = rs /\ written (encoded rs).
Proof.
  induction rs as [|r rs IH]; intros H; [split; [done|constructor]|]. destruct IH as [IH1 IH2]; [by intros q Hq; apply H; set_solver|].
  destruct (H r ltac:(set_solver)) as (data & (H1 & H2 & H3) & _). unfold encoded, rows in *. cbn. rewrite H2. cbn. rewrite H1. cbn. rewrite IH1. split; [done|].
  apply Forall_cons. split; [by exists r|done].
Qed.

Lemma fits_bounded cfg d l d' : fits cfg d -> sound (Build_world l d') -> map sg_path l = glob d ->
  (forall p, p ∈ glob d -> lines_at d' p = lines_at d p) -> bounded cfg (Build_world l d').
Proof.
  intros Hf [_ _ H3] Hg Hl. cbn [segs dir] in *. unfold fits in Hf. unfold bounded. cbn [segs]. rewrite Forall_forall in *. intros s Hs. rewrite (current_size _ _ (H3 s Hs)).
  assert (Hp : sg_path s ∈ glob d) by (rewrite <- Hg; by apply list_elem_of_fmap_2). rewrite (Hl _ Hp). rewrite glob_perm in Hp.
  destruct (find_file_in _ _ Hp) as [f Ef]. unfold lines_at. rewrite Ef. apply find_some in Ef as [Ef _]. apply list_elem_of_In in Ef. by apply (proj1 (Forall_forall _ _) Hf).
Qed.

Lemma bounded_fits cfg w : sound w -> bounded cfg w -> fits cfg (dir w).
Proof.
  intros H Hb. pose proof (sound_paths w H) as Hn. destruct H as [H1 H2 H3]. unfold fits, bounded in *. rewrite Forall_forall in H3, Hb.
  apply Forall_forall. intros f Hf.
  assert (Hp : df_path f ∈ map sg_path (segs w)) by (rewrite <- H2; by apply list_elem_of_fmap_2).
  apply list_elem_of_fmap in Hp as (s & Ep & Hs). pose proof (H3 s Hs) as Hc. specialize (Hb s Hs). rewrite (current_size _ _ Hc) in Hb.
  destruct Hc as (g & Eg & _). unfold lines_at in Hb. rewrite Eg in Hb.
  assert (f = g) as ->; [|done]. eapply NoDup_map_eq; [by rewrite H2|exact Hf| |by rewrite Ep, (find_file_path _ _ _ Eg)].
  apply find_some in Eg as [Eg _]. by apply list_elem_of_In.
Qed.

(** The state of the directory that holds some records for readers. *)
Definition holds (cfg : FileLogConfig) (previous : list fileSegment) (d : directory) (rs : list fileRecord) : Prop :=
  healthy previous d /\ fits cfg d /\ rs = rows (directory_lines d).

Lemma holds_locked cfg previous d rs : holds cfg previous d rs ->
  exists l d', refresh unmarshal mt previous d = (d', Ok l) /\ sound (Build_world l d') /\ bounded cfg (Build_world l d') /\
    rs = rows (contents (Build_world l d')).
Proof.
  intros (H1 & H2 & ->). destruct (refresh_spec previous d H1) as (l & d' & E & Hs & Hc & G1 & G2). exists l, d'. split; [done|]. split; [done|].
  split; [by eapply fits_bounded|by rewrite Hc].
Qed.

Lemma sound_holds cfg w : sound w -> bounded cfg w -> holds cfg (segs w) (dir w) (rows (contents w)).
Proof. intros Hs Hb. destruct (sound_healthy w Hs) as [H1 H2]. split; [done|]. split; [by apply bounded_fits|]. by rewrite H2. Qed.

Lemma read_holds cfg previous d rs : holds cfg previous d rs -> read previous d = Ok rs.
Proof. intros H. destruct (holds_locked _ _ _ _ H) as (l & d' & E & Hs & _ & ->). unfold read. rewrite E. by apply (scan_contents (Build_world l d')). Qed.

(** *** Names that stay *)

Lemma filter_paths path d p : p ∈ map df_path (remove_file path d) -> p ∈ map df_path d.
Proof. rewrite paths_remove. intros Hp. by apply list_elem_of_In, filter_In in Hp as [Hp%list_elem_of_In _]. Qed.

Lemma rewrite_loop_paths selected keep a : forall b d w r p, rewrite_loop marshal unmarshal mt selected keep b a d = (w, r) ->
  p ∈ map df_path (dir w) -> p ∈ map df_path d.
Proof.
  induction a as [|s a IH]; intros b d w r p H Hp; cbn [rewrite_loop] in H; [by injection H as <- _|].
  destruct (selected s); [|by eapply IH]. destruct (rewrite_one _ _ _ keep s d) as [[l d1]|] eqn:E; [|by injection H as <- _].
  apply (IH _ _ _ _ p) in H; [|done]. unfold rewrite_one in E. destruct (find_file (sg_path s) d); [|done].
  apply bind_ok in E as ([[lines kept] modified] & _ & E). destruct (negb modified); [by injection E as _ <-|].
  destruct (len kept =? 0); injection E as _ <-; [by eapply filter_paths|by rewrite paths_set in H].
Qed.

Lemma refresh_paths previous d d' l : NoDup (map df_path d) -> refresh unmarshal mt previous d = (d', Ok l) -> map df_path d' = map df_path d.
Proof. intros Hd H. by apply refresh_again in H as (_ & H & _). Qed.

(** *** The operations *)

Definition left_in (cfg : FileLogConfig) (all rs : list fileRecord) : Prop :=
  exists lost, all = lost ++ rs /\ (lost = [] \/ (MaxBytes cfg < record_bytes all /\ MaxBytes cfg - SegmentBytes cfg < record_bytes rs)).

Lemma aged_left cfg all w : written all -> aged cfg all w -> left_in cfg (rows all) (rows (contents w)).
Proof.
  intros Hw (Hs & _ & lost & E & H). exists (rows lost). split; [by rewrite E, rows_app|]. unfold record_bytes.
  rewrite !encoded_rows by (done || by apply contents_written). destruct H as [->|H]; [by left|by right].
Qed.

Lemma append_holds cfg now stamps low records previous d rs : clock_runs low stamps (length records) -> dated low d -> 0 <= MaxBytes cfg -> holds cfg previous d rs -> records <> [] ->
  (forall r, r ∈ List.filter (live now) records -> exists data, encodable cfg r data) ->
  exists w rs', append marshal unmarshal random mt cfg now stamps records previous d = (w, Ok tt) /\ holds cfg (segs w) (dir w) rs' /\
    dated (clock_after low stamps) (dir w) /\ left_in cfg (List.filter (fun r => negb (replaced records r)) rs ++ List.filter (live now) records) rs' /\
    sumZ file_size (dir w) <= MaxBytes cfg.
Proof.
  intros Hf Hdt Hm Hh Hne He. destruct (holds_locked _ _ _ _ Hh) as (l & d' & E & Hs & Hb & ->). unfold append.
  assert (Hd' : dated low d') by (unfold dated; by rewrite (refresh_paths previous d d' l (healthy_paths _ _ (proj1 Hh)) E)).
  destruct (len records =? 0) eqn:El; [apply Z.eqb_eq in El; destruct records; [done|rewrite len_cons in El; pose proof (len_nonneg records); lia]|].
  unfold locked. rewrite E. unfold append_op.
  assert (Hstart : exists w1, (if existsb (fun r => match fr_Gap r with Some _ => true | None => false end) records
      then rewrite marshal unmarshal mt (fun r => negb (replaced records r)) (Build_world l d') else (Build_world l d', Ok tt)) = (w1, Ok tt) /\
      sound w1 /\ bounded cfg w1 /\ dated low (dir w1) /\ rows (contents w1) = List.filter (fun r => negb (replaced records r)) (rows (contents (Build_world l d')))).
  { destruct (existsb _ records) eqn:Eg.
    - destruct (rewrite_spec (fun r => negb (replaced records r)) _ Hs) as (w1 & E1 & H1 & H2 & H3). exists w1. split; [done|]. split; [done|].
      split; [by apply H3|]. split; [eapply dated_subset; [|exact Hd']; intros p; by apply (rewrite_loop_paths _ _ _ _ _ _ _ p E1)|]. rewrite H2. apply rows_filter. by apply contents_written.
    - exists (Build_world l d'). do 4 (split; [done|]). symmetry. apply filter_all. intros r _. unfold replaced.
      destruct (fr_Gap r); [|done]. apply negb_true_iff, not_true_iff_false. intros (n & Hn & Hc)%existsb_exists.
      rewrite <- not_true_iff_false, existsb_exists in Eg. apply Eg. exists n. split; [done|]. by destruct (fr_Gap n). }
  destruct Hstart as (w1 & -> & Hs1 & Hb1 & Hd1 & Hr1).
  destruct (append_loop_spec cfg now records Hm stamps low w1 Hf Hd1 Hs1 Hb1 He) as (w2 & -> & Ha & Hd2). pose proof Ha as (Hs2 & Hb2 & _).
  destruct (trim_spec cfg w2 Hm Hs2 Hb2) as [Ht Hmax]. pose proof Ht as (Hs3 & Hb3 & _).
  assert (Hall : aged cfg (contents w1 ++ encoded (List.filter (live now) records)) (trim cfg w2)).
  { rewrite <- (app_nil_r (contents w1 ++ _)). eapply aged_trans; [exact Ha|]. by rewrite app_nil_r. }
  destruct (rows_encoded cfg _ He) as [Hre Hwe]. apply aged_left in Hall; [|apply written_app; split; [by apply contents_written|done]].
  rewrite rows_app, Hr1, Hre in Hall. eexists _, _. split; [reflexivity|]. split; [by apply sound_holds|].
  split; [eapply dated_subset; [apply trim_paths|done]|]. split; [done|].
  rewrite directory_size, contents_size by done. exact Hmax.
Qed.

Lemma rewriting_holds cfg previous d rs keep (op : world -> world * result error unit) : holds cfg previous d rs ->
  (forall w, sound w -> exists w', op w = (w', Ok tt) /\ sound w' /\ contents w' = List.filter (keep_line keep) (contents w) /\ (forall cfg, bounded cfg w -> bounded cfg w')) ->
  (forall w w' r p, op w = (w', r) -> p ∈ map df_path (dir w') -> p ∈ map df_path (dir w)) ->
  exists w, locked unmarshal mt op previous d = (w, Ok tt) /\ holds cfg (segs w) (dir w) (List.filter keep rs) /\
    (forall low, dated low d -> dated low (dir w)).
Proof.
  intros Hh Hop Hpaths. destruct (holds_locked _ _ _ _ Hh) as (l & d' & E & Hs & Hb & ->). unfold locked. rewrite E.
  destruct (Hop _ Hs) as (w & Ew & H1 & H2 & H3). rewrite Ew. exists w. split; [done|]. split.
  - rewrite <- rows_filter, <- H2 by by apply contents_written. apply sound_holds; [done|by apply H3].
  - intros low Hl. eapply dated_subset; [|exact Hl]. intros p Hp. apply (Hpaths _ _ _ p Ew) in Hp. cbn [dir] in Hp.
    by rewrite <- (refresh_paths previous d d' l (healthy_paths _ _ (proj1 Hh)) E).
Qed.

(** *** A process that dies and one that starts *)

(** A write that was cut: bytes after the last newline of a file. *)
Definition tear (path partial : string) (d : directory) : directory :=
  map (fun f => if str_eqb (df_path f) path then f <| df_tail := partial |> <| df_mtime := mt |> else f) d.

Lemma find_tear path partial q d : exists g, find_file q (tear path partial d) = g <$> find_file q d /\ forall f, df_lines (g f) = df_lines f /\ df_path (g f) = df_path f.
Proof.
  exists (fun f => if str_eqb (df_path f) path then f <| df_tail := partial |> <| df_mtime := mt |> else f).
  split; [|intros f; by destruct (str_eqb _ _)]. induction d as [|f d IH]; [done|]. cbn.
  destruct (str_eqb (df_path f) path) eqn:E; cbn; (destruct (str_eqb (df_path f) q); [cbn; by rewrite E|apply IH]).
Qed.

Lemma tear_paths path partial d : map df_path (tear path partial d) = map df_path d.
Proof. unfold tear. rewrite map_map. apply map_ext. intros f. by destruct (str_eqb _ _). Qed.

Lemma tear_holds cfg path partial previous d rs : slen partial < scanLimit -> holds cfg previous d rs -> holds cfg [] (tear path partial d) rs.
Proof.
  intros Hp ([H1 H2 _] & Hf & ->).
  pose proof (tear_paths path partial d) as Hpaths.
  split; [constructor|split].
  - by rewrite Hpaths.
  - unfold tear. apply Forall_fmap. eapply Forall_impl; [exact H2|]. intros f [Hw Ht]. cbn. by destruct (str_eqb _ _).
  - by intros s f ?%elem_of_nil.
  - unfold fits, tear in *. apply Forall_fmap. eapply Forall_impl; [exact Hf|]. intros f Hb. cbn. by destruct (str_eqb _ _).
  - f_equal. unfold directory_lines. rewrite (glob_same d (tear path partial d) Hpaths). f_equal. apply map_ext. intros q. unfold lines_at.
    destruct (find_tear path partial q d) as (g & -> & Hg). destruct (find_file q d) as [f|]; [|done]. cbn. symmetry. apply Hg.
Qed.

Definition budgeted (cfg : FileLogConfig) : Prop := 256 * 1024 <= SegmentBytes cfg <= MaxBytes cfg.

Lemma open_holds cfg now name previous d rs : budgeted cfg -> str_eqb (TrimSpace name) "" = false -> holds cfg previous d rs ->
  exists w rs', openFileStore marshal unmarshal mt cfg now name d = (w, Ok cfg) /\ holds cfg (segs w) (dir w) rs' /\
    (forall low, dated low d -> dated low (dir w)) /\ left_in cfg (List.filter (live now) rs) rs' /\ sumZ file_size (dir w) <= MaxBytes cfg.
Proof.
  intros [B1 B2] Hname ([H1 H2 _] & Hf & Hr). unfold openFileStore. rewrite Hname.
  assert (Hcfg : budget cfg = cfg).
  { unfold budget. rewrite (proj2 (Z.eqb_neq (MaxBytes cfg) 0)), (proj2 (Z.eqb_neq (SegmentBytes cfg) 0)) by lia. by destruct cfg. }
  rewrite Hcfg, (proj2 (Z.ltb_ge (SegmentBytes cfg) (256 * 1024))), (proj2 (Z.ltb_ge (MaxBytes cfg) (SegmentBytes cfg))) by lia.
  cbn [orb].
  assert (Hh : holds cfg [] d rs) by (split; [constructor; [done|done|by intros s f ?%elem_of_nil]|done]).
  destruct (holds_locked _ _ _ _ Hh) as (l & d' & E & Hs & Hb & ->). unfold locked. rewrite E.
  destruct (expire_spec now _ Hs) as (w1 & Ew & G1 & G2 & G3). rewrite Ew. specialize (G3 cfg Hb).
  destruct (trim_spec cfg w1 ltac:(lia) G1 G3) as [Ht Hmax]. pose proof Ht as (K1 & K2 & _). eexists _, _. split; [reflexivity|].
  split; [by apply sound_holds|]. split.
  { intros low Hl. eapply dated_subset; [|exact Hl]. intros p Hp%trim_paths. apply (rewrite_loop_paths _ _ _ _ _ _ _ p Ew) in Hp.
    cbn [dir] in Hp. by rewrite <- (refresh_paths [] d d' l H1 E). }
  apply aged_left in Ht; [|by apply contents_written].
  rewrite G2, rows_filter in Ht by by apply contents_written. split; [done|]. rewrite directory_size, contents_size by done. exact Hmax.
Qed.

(** *** Runs *)

Inductive op : Type :=
| OOpen (now : time) (name : string)
| OAppend (now : time) (stamps : list time) (records : list fileRecord)
| OPurge (projectID : string)
| OSweep (now : time)
| OCrash (path partial : string).

Definition exec (cfg : FileLogConfig) (o : op) (previous : list fileSegment) (d : directory) : world * result error unit :=
  match o with
  | OOpen now name =>
      match openFileStore marshal unmarshal mt cfg now name d with (w, Ok _) => (w, Ok tt) | (w, Err e) => (w, Err e) end
  | OAppend now stamps records => append marshal unmarshal random mt cfg now stamps records previous d
  | OPurge projectID => purge marshal unmarshal mt projectID previous d
  | OSweep now => sweep marshal unmarshal mt now previous d
  | OCrash path partial => (Build_world [] (tear path partial d), Ok tt)
  end.

Fixpoint exec_all (cfg : FileLogConfig) (ops : list op) (previous : list fileSegment) (d : directory) : world * result error unit :=
  match ops with
  | [] => (Build_world previous d, Ok tt)
  | o :: ops => match exec cfg o previous d with (w, Ok _) => exec_all cfg ops (segs w) (dir w) | (w, Err e) => (w, Err e) end
  end.

(** What an operation is given. *)
Definition admissible (cfg : FileLogConfig) (o : op) : Prop :=
  match o with
  | OOpen _ name => str_eqb (TrimSpace name) "" = false
  | OAppend now _ records => forall r, r ∈ List.filter (live now) records -> exists data, encodable cfg r data
  | OCrash _ partial => slen partial < scanLimit
  | _ => True
  end.

(** What an append keeps of the records there are: all but the gaps with an
    identity that a gap among the new records has. *)
Definition gap_ids (records : list fileRecord) : list string :=
  map fr_ID (List.filter (fun n => match fr_Gap n with Some _ => true | None => false end) records).
Definition kept_by (records : list fileRecord) (r : fileRecord) : bool := bool_decide (fr_Gap r = None \/ fr_ID r ∉ gap_ids records).

Lemma filter_kept records rs : List.filter (kept_by records) rs = List.filter (fun r => negb (replaced records r)) rs.
Proof.
  apply filter_ext. intros r. unfold kept_by, replaced. destruct (fr_Gap r) as [g|]; [|by rewrite bool_decide_eq_true_2; [|left]].
  apply eq_iff_eq_true. rewrite bool_decide_eq_true, negb_true_iff, <- not_true_iff_false, existsb_exists. unfold gap_ids. split.
  - intros [?|H] (n & Hn & E); [done|]. apply H. destruct (fr_Gap n) as [g'|] eqn:Eg; [|done]. apply str_eqb_eq in E. rewrite <- E.
    apply list_elem_of_fmap_2, list_elem_of_In, filter_In. by rewrite Eg.
  - intros H. right. intros Hin. apply H. apply list_elem_of_fmap in Hin as (n & E & Hn). apply list_elem_of_In, filter_In in Hn as [Hn Hg].
    exists n. split; [done|]. destruct (fr_Gap n); [|done]. by apply str_eqb_eq.
Qed.

(** The project a record is of, and what a purge of one keeps. *)
Definition project_of (r : fileRecord) : option string :=
  match fr_Line r with Some l => Some (li_ProjectID l) | None => gi_ProjectID <$> fr_Gap r end.
Definition kept_from (projectID : string) (r : fileRecord) : bool := bool_decide (project_of r <> Some projectID).

Lemma filter_kept_from projectID rs : List.filter (kept_from projectID) rs = List.filter (fun r => negb (of_project projectID r)) rs.
Proof.
  apply filter_ext. intros r. unfold kept_from, of_project, project_of. apply eq_iff_eq_true. rewrite bool_decide_eq_true, negb_true_iff.
  destruct (fr_Line r) as [l|]; [rewrite str_eqb_neq; split; congruence|]. destruct (fr_Gap r) as [g|]; [|done]. cbn. rewrite str_eqb_neq. split; congruence.
Qed.

(** The clock went on when segments were created: their times ascend from
    those of the files there are, over the whole history, in the years a name
    can carry. *)
Definition clock_ok (low : time) (o : op) : Prop :=
  match o with OAppend _ stamps records => clock_runs low stamps (length records) | _ => True end.
Definition after_op (low : time) (o : op) : time := match o with OAppend _ stamps _ => clock_after low stamps | _ => low end.
Fixpoint clock_goes_on (low : time) (ops : list op) : Prop :=
  match ops with [] => True | o :: ops => clock_ok low o /\ clock_goes_on (after_op low o) ops end.

(** The log that a history is a run of. *)
Inductive log_run (cfg : FileLogConfig) : list op -> list fileRecord -> list fileRecord -> Prop :=
| run_nil rs : log_run cfg [] rs rs
| run_open now name ops rs rs' rs'' : left_in cfg (List.filter (live now) rs) rs' -> log_run cfg ops rs' rs'' -> log_run cfg (OOpen now name :: ops) rs rs''
| run_append now stamps records ops rs rs' rs'' :
    left_in cfg (List.filter (kept_by records) rs ++ List.filter (live now) records) rs' -> log_run cfg ops rs' rs'' ->
    log_run cfg (OAppend now stamps records :: ops) rs rs''
| run_purge projectID ops rs rs'' : log_run cfg ops (List.filter (kept_from projectID) rs) rs'' ->
    log_run cfg (OPurge projectID :: ops) rs rs''
| run_sweep now ops rs rs'' : log_run cfg ops (List.filter (live now) rs) rs'' -> log_run cfg (OSweep now :: ops) rs rs''
| run_crash path partial ops rs rs'' : log_run cfg ops rs rs'' -> log_run cfg (OCrash path partial :: ops) rs rs''.

Lemma left_in_all cfg rs : left_in cfg rs rs.
Proof. exists []. split; [done|by left]. Qed.

Lemma exec_holds cfg o low previous d rs : budgeted cfg -> admissible cfg o -> clock_ok low o -> dated low d -> holds cfg previous d rs ->
  exists w rs', exec cfg o previous d = (w, Ok tt) /\ holds cfg (segs w) (dir w) rs' /\ dated (after_op low o) (dir w) /\
    (forall ops rs'', log_run cfg ops rs' rs'' -> log_run cfg (o :: ops) rs rs'').
Proof.
  intros Hb Ha Hc Hd Hh. pose proof Hb as [B1 B2]. destruct o as [now name|now stamps records|projectID|now|path partial]; cbn [exec clock_ok after_op] in *.
  - destruct (open_holds cfg now name previous d rs Hb Ha Hh) as (w & rs' & -> & H1 & H2 & H3 & _). exists w, rs'. split; [done|]. split; [done|].
    split; [by apply H2|]. intros ops rs'' H. by eapply run_open.
  - destruct records as [|r records].
    + exists (Build_world previous d), rs. split; [done|]. split; [done|]. split; [eapply dated_weaken; [by eapply clock_runs_le|done]|].
      intros ops rs'' H. eapply run_append; [|exact H]. rewrite filter_kept. cbn.
      rewrite app_nil_r, filter_all; [apply left_in_all|]. intros r _. unfold replaced. by destruct (fr_Gap r).
    + destruct (append_holds cfg now stamps low (r :: records) previous d rs Hc Hd ltac:(lia) Hh ltac:(done) Ha) as (w & rs' & -> & H1 & H2 & H3 & _).
      exists w, rs'. split; [done|]. split; [done|]. split; [done|]. intros ops rs'' H. eapply run_append; [|exact H]. by rewrite filter_kept.
  - destruct (rewriting_holds cfg previous d rs (fun r => negb (of_project projectID r)) _ Hh (rewrite_spec _)) as (w & E & H & H').
    { intros w w' r p E. apply (rewrite_loop_paths _ _ _ _ _ _ _ p E). }
    exists w, (List.filter (fun r => negb (of_project projectID r)) rs). split; [exact E|]. split; [done|]. split; [by apply H'|].
    intros ops rs'' H1. apply run_purge. by rewrite filter_kept_from.
  - destruct (rewriting_holds cfg previous d rs (live now) _ Hh (expire_spec now)) as (w & E & H & H').
    { intros w w' r p E. apply (rewrite_loop_paths _ _ _ _ _ _ _ p E). }
    exists w, (List.filter (live now) rs). split; [exact E|]. split; [done|]. split; [by apply H'|]. intros ops rs''. apply run_sweep.
  - exists (Build_world [] (tear path partial d)), rs. split; [done|]. split; [by eapply tear_holds|].
    split; [unfold dated; cbn [dir]; by rewrite tear_paths|]. intros ops rs''. apply run_crash.
Qed.

(** C7: A log directory is a bounded list of records.  Take a store with a valid
    budget, and a history of opens, appends, purges, sweeps and crashes in
    mid-write in which every live record appended is encoded and read back by
    the codec in a line of at most 256 KiB (its newline included), a crash leaves
    less than that after the last newline, and the clock reads later each time
    a segment is created than for every segment there is (names carry the
    time).  Every operation of the history succeeds, and what readers find
    before and after it is a run of the abstract log: an append keeps what was
    there, replaces the gaps it reports again, adds its live records and loses
    only the oldest, and only when all of them are over the byte budget; a purge
    takes exactly a project's records, a sweep exactly the expired ones, a crash
    none. *)
Theorem store_refines_log cfg low ops : budgeted cfg -> Forall (admissible cfg) ops -> clock_goes_on low ops ->
  forall previous d rs, dated low d -> holds cfg previous d rs ->
  exists w rs', read previous d = Ok rs /\ exec_all cfg ops previous d = (w, Ok tt) /\ read (segs w) (dir w) = Ok rs' /\ log_run cfg ops rs rs'.
Proof.
  intros Hb Ho Hc previous d rs Hd Hh.
  assert (H : exists w rs', exec_all cfg ops previous d = (w, Ok tt) /\ holds cfg (segs w) (dir w) rs' /\ log_run cfg ops rs rs').
  { revert low previous d rs Hc Hd Hh. induction Ho as [|o ops Ha _ IH]; intros low previous d rs Hc Hd Hh.
    - exists (Build_world previous d), rs. split; [done|]. split; [done|constructor].
    - destruct Hc as [Hc Hcs]. destruct (exec_holds cfg o low previous d rs Hb Ha Hc Hd Hh) as (w & rs1 & E & H1 & H2 & H3).
      destruct (IH _ _ _ _ Hcs H2 H1) as (w' & rs' & E' & H4 & H5).
      exists w', rs'. cbn. rewrite E. split; [done|]. split; [done|]. by apply H3. }
  destruct H as (w & rs' & E & H1 & H2). exists w, rs'. split; [by eapply read_holds|]. split; [done|]. split; [by eapply read_holds|done].
Qed.

(** C9: The byte budget of log files.  Suppose every live record is encoded and
    read back by the codec in a line of at most 256 KiB, and the clock reads
    later each time a segment is created than for every segment there is.  Then
    an append succeeds and leaves files of at most [MaxBytes] in all; readers find
    the old records less the gaps reported again, then the live new ones, less
    some of the oldest; none is lost when all fit, and when some are, more than
    the budget less one segment is still kept. *)
Theorem append_within_budget cfg now stamps low records previous d rs : clock_runs low stamps (length records) -> dated low d ->
  budgeted cfg -> holds cfg previous d rs -> records <> [] ->
  (forall r, r ∈ List.filter (live now) records -> exists data, encodable cfg r data) ->
  let all := List.filter (kept_by records) rs ++ List.filter (live now) records in
  exists w lost kept, append marshal unmarshal random mt cfg now stamps records previous d = (w, Ok tt) /\
    read (segs w) (dir w) = Ok kept /\ all = lost ++ kept /\ sumZ file_size (dir w) <= MaxBytes cfg /\
    (record_bytes all <= MaxBytes cfg -> lost = []) /\ (lost <> [] -> MaxBytes cfg - SegmentBytes cfg < record_bytes kept).
Proof.
  intros Hf Hd [B1 B2] Hh Hne He all. unfold all. rewrite filter_kept. clear all.
  destruct (append_holds cfg now stamps low records previous d rs Hf Hd ltac:(lia) Hh Hne He) as (w & kept & E & H1 & _ & (lost & H2 & H3) & H4).
  exists w, lost, kept. split; [done|]. split; [by eapply read_holds|]. split; [done|]. split; [done|]. split.
  - intros Hfit. destruct H3 as [?|[H3 _]]; [done|lia].
  - intros Hl. by destruct H3 as [?|[_ H3]].
Qed.

(** ** A batch of an agent *)

Lemma record_bytes_app rs1 rs2 : record_bytes (rs1 ++ rs2) = record_bytes rs1 + record_bytes rs2.
Proof. unfold record_bytes, encoded. by rewrite omap_app, bytes_app. Qed.

Lemma record_bytes_filter p rs : record_bytes (List.filter p rs) <= record_bytes rs.
Proof.
  induction rs as [|r rs IH]; [done|]. change (r :: rs) with ([r] ++ rs) at 2. rewrite record_bytes_app. cbn [List.filter].
  pose proof (bytes_nonneg (encoded [r])) as Hr. fold (record_bytes [r]) in Hr.
  destruct (p r); [change (r :: List.filter p rs) with ([r] ++ List.filter p rs); rewrite record_bytes_app|]; lia.
Qed.

(** An append of records that fit loses none. *)
Lemma append_fits cfg now stamps low records w rs : clock_runs low stamps (length records) -> dated low (dir w) -> budgeted cfg -> holds cfg (segs w) (dir w) rs ->
  (forall r, r ∈ List.filter (live now) records -> exists data, encodable cfg r data) ->
  record_bytes (rs ++ List.filter (live now) records) <= MaxBytes cfg ->
  exists w', append marshal unmarshal random mt cfg now stamps records (segs w) (dir w) = (w', Ok tt) /\
    dated (clock_after low stamps) (dir w') /\ holds cfg (segs w') (dir w') (List.filter (fun r => negb (replaced records r)) rs ++ List.filter (live now) records).
Proof.
  intros Hf Hd [B1 B2] Hh He Hfit. destruct records as [|r records].
  - exists w. destruct w as [l d]. split; [done|]. split; [eapply dated_weaken; [by eapply clock_runs_le|done]|]. cbn [List.filter]. rewrite app_nil_r, filter_all; [done|]. intros r _. unfold replaced. by destruct (fr_Gap r).
  - destruct (append_holds cfg now stamps low (r :: records) (segs w) (dir w) rs Hf Hd ltac:(lia) Hh ltac:(done) He)
      as (w' & rs' & E & H1 & Hd' & (lost & H2 & H3) & _).
    exists w'. split; [done|]. split; [done|]. destruct H3 as [->|[H3 _]]; [by rewrite H2|]. exfalso. rewrite record_bytes_app in *.
    pose proof (record_bytes_filter (fun q => negb (replaced (r :: records) q)) rs). lia.
Qed.

End Store.

(** ** A line a scanner cannot read *)

(** C40: A record is accepted up to the size of a segment but read back only up
    to the buffer of the scanner.  After an append of a longer one every later
    operation, and every start of the control plane, fails: the directory has
    to be repaired by hand. *)
Theorem long_record_blocks marshal unmarshal random mt cfg now stamps r data :
  budgeted cfg -> marshal r = Some data -> scanLimit < line_bytes data <= SegmentBytes cfg -> live now r = true -> mt <> zero_time ->
  exists w, append marshal unmarshal random mt cfg now stamps [r] [] [] = (w, Ok tt) /\
    (forall A (o : world -> world * result error A), snd (locked unmarshal mt o (segs w) (dir w)) = Err TooLong) /\
    (forall now' name, str_eqb (TrimSpace name) "" = false -> snd (openFileStore marshal unmarshal mt cfg now' name (dir w)) = Err TooLong).
Proof.
  intros [B1 B2] Hm [L1 L2] Hl Hmt. unfold live in Hl. set (path := segment_name (default now (head stamps)) (random (default now (head stamps)) [])).
  set (f := Build_dfile path [data] "" mt). set (s := Build_fileSegment path zero_time (line_bytes data) (earliestExpiry zero_time (fr_ExpiresAt r))).
  assert (Hn : 0 <= line_bytes data) by (unfold line_bytes, slen; lia).
  assert (Happ : append marshal unmarshal random mt cfg now stamps [r] [] [] = (Build_world [s] [f], Ok tt)).
  { unfold append, locked, append_op. change (len [r] =? 0) with false. cbn [refresh glob refresh_loop map isort foldr].
    assert (Hg : (if existsb (fun r0 => match fr_Gap r0 with Some _ => true | None => false end) [r]
      then rewrite marshal unmarshal mt (fun r0 => negb (replaced [r] r0)) (Build_world [] []) else (Build_world [] [], Ok tt)) = (Build_world [] [], Ok tt)).
    { destruct (existsb _ [r]); done. }
    rewrite Hg. cbn [append_loop]. rewrite Z.leb_antisym, Hl. cbn [negb]. rewrite Hm, (proj2 (Z.ltb_ge (SegmentBytes cfg) (line_bytes data))) by lia.
    unfold room, full. cbn [segs last]. unfold new_segment, trim. cbn [segs dir trim_count drop take foldl map app]. unfold write_line. cbn [segs last dir map].
    fold path. cbn [sg_path df_path]. rewrite (proj2 (str_eqb_eq path path) eq_refl). unfold trim. cbn [segs dir removelast app].
    unfold sumZ. cbn [foldr trim_count]. rewrite (proj2 (Z.leb_le _ _)); [done|]. cbn. lia. }
  exists (Build_world [s] [f]). split; [done|]. cbn [segs dir].
  assert (Hfind : forall q, find_file path [f] = Some f /\ List.find (fun s' => str_eqb (sg_path s') path) [s] = Some s /\ q = q :> unit).
  { intros q. cbn. by rewrite (proj2 (str_eqb_eq path path) eq_refl). }
  destruct (Hfind tt) as (F1 & F2 & _).
  assert (Hrep : repairFileTail mt f = Ok f).
  { unfold repairFileTail. by destruct (file_size f =? 0). }
  assert (Hset : set_file f [f] = [f]) by (cbn; by rewrite (proj2 (str_eqb_eq path path) eq_refl)).
  assert (Hscan : scanFile unmarshal path [f] = Err TooLong).
  { unfold scanFile. rewrite F1. cbn. by rewrite (proj2 (Z.ltb_lt scanLimit (line_bytes data)) L1). }
  assert (Hfail : forall previous, previous = [s] \/ previous = [] -> refresh unmarshal mt previous [f] = ([f], Err TooLong)).
  { intros previous Hp. unfold refresh. change (glob [f]) with [path]. cbn [refresh_loop]. unfold refresh_one. rewrite F1, Hrep, Hset, Hscan.
    destruct Hp as [->| ->]; [|done]. rewrite F2. change (sg_modified s =? df_mtime f) with (zero_time =? mt).
    rewrite (proj2 (Z.eqb_neq zero_time mt)), andb_false_r by done. done. }
  split.
  - intros A o. unfold locked. by rewrite Hfail by by left.
  - intros now' name Hname. unfold openFileStore. rewrite Hname.
    assert (Hcfg : budget cfg = cfg).
    { unfold budget. rewrite (proj2 (Z.eqb_neq (MaxBytes cfg) 0)), (proj2 (Z.eqb_neq (SegmentBytes cfg) 0)) by lia. by destruct cfg. }
    rewrite Hcfg, (proj2 (Z.ltb_ge (SegmentBytes cfg) (256 * 1024))), (proj2 (Z.ltb_ge (MaxBytes cfg) (SegmentBytes cfg))) by lia.
    cbn [orb]. unfold locked. by rewrite Hfail by by right.
Qed.

(** ** Concrete stores *)

Definition demo_marshal (r : fileRecord) : option string :=
  if decide (r = demo_record "l1" demo_time) then Some "one"
  else if decide (r = demo_record "l2" demo_time) then Some "two"
  else if decide (r = demo_record "l3" (demo_time + second)) then Some "three" else None.
Definition demo_cfg : FileLogConfig := budget (Build_FileLogConfig 0 0).
Definition long_line : string := of_codes (repeat 97 (Z.to_nat scanLimit)).

Lemma demo_encodable id at_ line : demo_marshal (demo_record id at_) = Some line -> demo_unmarshal line = Some (demo_record id at_) ->
  slen line < 10 -> zero_time < fr_ExpiresAt (demo_record id at_) ->
  encodable demo_marshal demo_unmarshal demo_cfg (demo_record id at_) line.
Proof.
  intros H1 H2 H3 H4. assert (SegmentBytes demo_cfg = 1048576) by done. split; [split; [done|]; split; [done|]; split|]; unfold line_bytes, scanLimit; lia || done.
Qed.

(** The random part of every name. *)
Definition demo_random (_ : time) (_ : list string) : string := "123".
Definition seconds_later (n : Z) : time := demo_time + n * second.

Ltac solve_clock :=
  split; [repeat (constructor; [|repeat (constructor; [vm_compute; reflexivity|]); constructor]); repeat constructor
         |split; [repeat (constructor; [split; vm_compute; discriminate|]); constructor|cbn; lia]].

(** An append in a directory an earlier one wrote, over an interrupted write. *)
Definition demo_history : list op :=
  [OOpen demo_time "/logs"; OAppend demo_time [seconds_later 1] [demo_record "l1" demo_time];
   OCrash (segment_name (seconds_later 1) "123") "par"; OOpen demo_time "/logs";
   OAppend demo_time [seconds_later 2; seconds_later 3] [demo_record "l2" demo_time; demo_record "l3" (demo_time + second)];
   OPurge "q"; OSweep demo_time].

Lemma demo_encodes : encodable demo_marshal demo_unmarshal demo_cfg (demo_record "l1" demo_time) "one" /\
  encodable demo_marshal demo_unmarshal demo_cfg (demo_record "l2" demo_time) "two" /\
  encodable demo_marshal demo_unmarshal demo_cfg (demo_record "l3" (demo_time + second)) "three".
Proof. repeat split; try (vm_compute; reflexivity); vm_compute; discriminate. Qed.

Lemma demo_admissible : Forall (admissible demo_marshal demo_unmarshal demo_cfg) demo_history.
Proof.
  destruct demo_encodes as (E1 & E2 & E3). unfold demo_history.
  assert (Hl : forall r l, r ∈ List.filter (live demo_time) l -> r ∈ l).
  { intros r l Hr. by apply list_elem_of_In, filter_In in Hr as [Hr%list_elem_of_In _]. }
  repeat (apply Forall_cons; split); [reflexivity| |vm_compute; reflexivity|reflexivity| |exact I|exact I|apply Forall_nil_2].
  - intros r Hr%Hl. apply list_elem_of_singleton in Hr as ->. exists "one". exact E1.
  - intros r Hr%Hl. apply elem_of_cons in Hr as [->|Hr]; [exists "two"; exact E2|].
    apply list_elem_of_singleton in Hr as ->. exists "three". exact E3.
Qed.

Lemma demo_clock : clock_goes_on demo_time demo_history.
Proof. repeat (split; [first [exact I|solve_clock]|]); exact I. Qed.

Lemma empty_holds cfg : holds demo_marshal demo_unmarshal cfg [] [] [].
Proof. split; [constructor; [constructor|constructor|by intros s f ?%elem_of_nil]|]. split; [constructor|reflexivity]. Qed.

Lemma store_refines_log_witness :
  exists w rs', read demo_unmarshal 7 [] [] = Ok [] /\
    exec_all demo_marshal demo_unmarshal demo_random 7 demo_cfg demo_history [] [] = (w, Ok tt) /\
    read demo_unmarshal 7 (segs w) (dir w) = Ok rs' /\ log_run demo_marshal demo_cfg demo_history [] rs'.
Proof.
  apply (store_refines_log demo_marshal demo_unmarshal demo_random 7 demo_cfg demo_time demo_history).
  - vm_compute. split; discriminate.
  - exact demo_admissible.
  - exact demo_clock.
  - constructor.
  - apply empty_holds.
Defined.

Lemma append_within_budget_witness :
  exists w lost kept, append demo_marshal demo_unmarshal demo_random 7 demo_cfg demo_time [seconds_later 1] [demo_record "l1" demo_time] [] [] = (w, Ok tt) /\
    read demo_unmarshal 7 (segs w) (dir w) = Ok kept /\ [demo_record "l1" demo_time] = lost ++ kept /\ sumZ file_size (dir w) <= MaxBytes demo_cfg /\ lost = [].
Proof.
  destruct (append_within_budget demo_marshal demo_unmarshal demo_random 7 demo_cfg demo_time [seconds_later 1] demo_time [demo_record "l1" demo_time] [] [] [])
    as (w & lost & kept & H1 & H2 & H3 & H4 & H5 & _).
  - solve_clock.
  - constructor.
  - vm_compute. split; discriminate.
  - apply empty_holds.
  - discriminate.
  - intros r Hr. exists "one". apply list_elem_of_In, filter_In in Hr as [Hr%list_elem_of_In _].
    apply list_elem_of_singleton in Hr as ->. exact (proj1 demo_encodes).
  - exists w, lost, kept. split; [exact H1|]. split; [exact H2|]. split; [exact H3|]. split; [exact H4|]. apply H5. vm_compute. discriminate.
Defined.

(** The condition on the clock is needed.  With segments of one line, a clock
    that steps back gives the second record a name before the first; readers
    find it in front, and the next append over the budget removes it, the
    newest, instead of the oldest. *)
Definition small_cfg : FileLogConfig := Build_FileLogConfig 10 6.

Definition after_step_back (stamps : list time) : result error (list fileRecord) :=
  let w1 := fst (append demo_marshal demo_unmarshal demo_random 7 small_cfg demo_time stamps
                   [demo_record "l1" demo_time; demo_record "l2" demo_time] [] []) in
  let w2 := fst (append demo_marshal demo_unmarshal demo_random 8 small_cfg demo_time [seconds_later 10]
                   [demo_record "l3" (demo_time + second)] (segs w1) (dir w1)) in
  read demo_unmarshal 8 (segs w2) (dir w2).

Example clock_step_back_loses_newest :
  (map fr_ID <$> match after_step_back [seconds_later 2; seconds_later 3] with Ok l => Some l | Err _ => None end) = Some ["l2"; "l3"] /\
  (map fr_ID <$> match after_step_back [seconds_later 2; seconds_later 1] with Ok l => Some l | Err _ => None end) = Some ["l1"; "l3"].
Proof. split; vm_compute; reflexivity. Qed.

Lemma long_record_blocks_witness :
  exists w, append (fun _ => Some long_line) (fun _ => None) demo_random 7 demo_cfg demo_time [] [demo_record "l1" demo_time] [] [] = (w, Ok tt) /\
    snd (openFileStore (fun _ => Some long_line) (fun _ => None) 7 demo_cfg demo_time "/logs" (dir w)) = Err TooLong.
Proof.
  destruct (long_record_blocks (fun _ => Some long_line) (fun _ => None) demo_random 7 demo_cfg demo_time [] (demo_record "l1" demo_time) long_line)
    as (w & H1 & _ & H3).
  - vm_compute. split; discriminate.
  - reflexivity.
  - split; vm_compute; [reflexivity|discriminate].
  - vm_compute. reflexivity.
  - discriminate.
  - exists w. split; [exact H1|]. apply H3. vm_compute. reflexivity.
Defined.

(** A batch of one line, and a gap its agent reports. *)
Definition one_line : LogBatch :=
  Build_LogBatch [Some (demo_entry "svc" "hello")] [Some (Build_LogDropSummary "svc" "a" "" 1 "stdout" 3 "rate_limited" (Some demo_time) (Some demo_time) "sum")].
Definition one_line_records : list fileRecord :=
  match writeFileLines (fun s => s) (Some demo_resolver) 14 map_to_list demo_time (fun _ => "id")
          (convertAgentBatch (fun s => s) (fun s => s) map_to_list "agent" demo_time one_line).1 with Ok l => l | Err _ => [] end.
Definition one_line_gaps : list fileRecord :=
  match writeFileGaps (fun s => s) (Some demo_resolver) 14 demo_time
          (convertAgentBatch (fun s => s) (fun s => s) map_to_list "agent" demo_time one_line).2 with Ok l => l | Err _ => [] end.
Definition one_line_marshal (r : fileRecord) : option string :=
  match fr_Gap r with Some _ => if decide ([r] = one_line_gaps) then Some "gap" else None | None => if decide ([r] = one_line_records) then Some "line" else None end.
Definition one_line_unmarshal (s : string) : option fileRecord := if str_eqb s "gap" then head one_line_gaps else if str_eqb s "line" then head one_line_records else None.


End FileStore.
