(* ===== verification/UsageRecords.v ===== *)
(** * Usage records and their validation

    [api/proto/agentv1/usage.go] and [internal/controlplane/usage/validate.go]:
    the records in which an agent reports what a resource used, the digest that
    identifies one, and what the control plane checks before it counts one.
    [strconv.Quote] is a parameter of the digest. *)

From S2P Require Import Prelude GoText Sha256.

Module UsageRecords.
Import Sha256.

(** [google.protobuf.Timestamp] as it is on the wire. *)
Record Timestamp := { Seconds : Z; Nanos : Z }.

(** [Timestamp.AsTime]: [time.Unix] normalizes, and the seconds of a [Time] wrap. *)
Definition AsTime (ts : option Timestamp) : time :=
  match ts with
  | None => unix_epoch
  | Some t => wrap64 (Seconds t + Nanos t / second + 62135596800) * second + Nanos t mod second
  end.
(** [Timestamp.IsValid]: years 1 to 9999. *)
Definition IsValid (ts : option Timestamp) : bool :=
  match ts with
  | None => false
  | Some t => (-62135596800 <=? Seconds t) && (Seconds t <=? 253402300799) && (0 <=? Nanos t) && (Nanos t <? second)
  end.
(** [timestamppb.New] of an instant. *)
Definition NewTimestamp (t : time) : Timestamp := Build_Timestamp ((t - unix_epoch) / second) ((t - unix_epoch) mod second).

(** Enumerations by their numbers. *)
Definition KIND_MEASUREMENT : Z := 1.
Definition KIND_GAP : Z := 2.
Definition RESOURCE_ALLOCATION : Z := 1.
Definition RESOURCE_VOLUME : Z := 2.

Definition UNCERTAIN_TIMING : Z := 1.
Definition GAUGE_GAP : Z := 2.
Definition CLOCK_STEP : Z := 4.
Definition CLOCK_SKEW : Z := 8.
Definition EPOCH_START : Z := 16.
Definition EPOCH_END : Z := 32.
Definition CPU_UNAVAILABLE : Z := 64.
Definition MEMORY_UNAVAILABLE : Z := 128.
Definition EGRESS_UNAVAILABLE : Z := 256.
Definition VOLUME_UNKNOWN : Z := 512.

Record UsageEgress := {
  PublicDirectBytes : Z; PublicIngressBytes : Z; PrivateBytes : Z; PlatformBytes : Z; ProbeBytes : Z
}.
Definition no_egress : UsageEgress := Build_UsageEgress 0 0 0 0 0.
Definition egress_list (e : UsageEgress) : list Z :=
  [PublicDirectBytes e; PublicIngressBytes e; PrivateBytes e; PlatformBytes e; ProbeBytes e].

(** A missing [egress] reads as zeros. *)
Record UsageRecord := {
  InstallationId : string; ProducerId : string; Sequence : Z; Kind : Z; ResourceKind : Z; ResourceId : string;
  CounterEpoch : string; BootId : string; Start : option Timestamp; End_ : option Timestamp; DurationMs : Z;
  MeterVersion : string; Quality : Z; CpuMicroseconds : Z; MemoryByteMilliseconds : string; MemoryCoveredMs : Z;
  VolumeByteMilliseconds : string; VolumeCoveredMs : Z; Egress : UsageEgress; GapReason : string
}.
#[export] Instance UsageRecord_eta : Eta UsageRecord := fun r =>
  Build_UsageRecord (InstallationId r) (ProducerId r) (Sequence r) (Kind r) (ResourceKind r) (ResourceId r)
    (CounterEpoch r) (BootId r) (Start r) (End_ r) (DurationMs r) (MeterVersion r) (Quality r) (CpuMicroseconds r)
    (MemoryByteMilliseconds r) (MemoryCoveredMs r) (VolumeByteMilliseconds r) (VolumeCoveredMs r) (Egress r) (GapReason r).

Definition UsageMeterVersion : string := "usage/v1".
Definition MaxUsageRecordsPerReport : Z := 500.
Definition MaxUsageReportBytes : Z := 1024 * 1024.
Definition UsageGapCollectorDown : string := "collector_down".
Definition UsageGapEpochUnobserved : string := "epoch_end_unobserved".
Definition UsageQualityMask : Z := 1023.
Definition HasUsageQuality (quality flag : Z) : bool := negb (Z.land quality flag =? 0).

(** ** Decimal quantities *)

Definition parse_digits (l : list Z) : Z := foldl (fun acc b => acc * 10 + (b - 48)) 0 l.
Definition ParseUsageInteger (value : string) : option Z :=
  let l := codes value in
  if str_eqb value "" || (38 <? len l) || ((1 <? len l) && match l with b :: _ => b =? 48 | [] => false end) then None
  else if forallb digit l then Some (parse_digits l) else None.

(** [big.Int.String] of a number that is not negative. *)
Definition big_string (n : Z) : string := pretty (Z.to_N n).
Definition FormatUsageInteger (n : option Z) : string := match n with None => "0" | Some n => big_string n end.

(** ** The digest *)

Section Digest.
Variable quote : string -> string.
Definition field (name value : string) : string := name +:+ "=" +:+ quote value +:+ of_codes [10].
Definition number (name : string) (value : Z) : string := field name (pretty value).
Definition stamp_field (name : string) (ts : option Timestamp) : string :=
  field name (pretty (match ts with Some t => Seconds t | None => 0 end) +:+ "." +:+ pretty (match ts with Some t => Nanos t | None => 0 end)).

Definition UsageRecordDigest (r : UsageRecord) : list Z :=
  Sum256 (field "installation_id" (InstallationId r) +:+ field "producer_id" (ProducerId r) +:+ number "sequence" (Sequence r) +:+
    number "kind" (Kind r) +:+ number "resource_kind" (ResourceKind r) +:+ field "resource_id" (ResourceId r) +:+
    field "counter_epoch" (CounterEpoch r) +:+ field "boot_id" (BootId r) +:+ stamp_field "start" (Start r) +:+ stamp_field "end" (End_ r) +:+
    number "duration_ms" (DurationMs r) +:+ field "meter_version" (MeterVersion r) +:+ number "quality" (Quality r) +:+
    number "cpu_microseconds" (CpuMicroseconds r) +:+ field "memory_byte_milliseconds" (MemoryByteMilliseconds r) +:+
    number "memory_covered_ms" (MemoryCoveredMs r) +:+ field "volume_byte_milliseconds" (VolumeByteMilliseconds r) +:+
    number "volume_covered_ms" (VolumeCoveredMs r) +:+ number "public_direct_bytes" (PublicDirectBytes (Egress r)) +:+
    number "public_ingress_bytes" (PublicIngressBytes (Egress r)) +:+ number "private_bytes" (PrivateBytes (Egress r)) +:+
    number "platform_bytes" (PlatformBytes (Egress r)) +:+ number "probe_bytes" (ProbeBytes (Egress r)) +:+ field "gap_reason" (GapReason r)).
End Digest.

(** ** Validation *)

Definition RejectInvalid : string := "invalid".
Definition RejectImplausible : string := "implausible_quantity".
Definition RejectUnknownAttribution : string := "unknown_attribution".
Definition RejectForeignAgent : string := "foreign_agent".
Definition RejectBeforeAttribution : string := "before_attribution".
Definition RejectOverlap : string := "overlap".

Definition futureSkew : duration := 5 * minute.
Definition attributionSkew : duration := 10 * minute.
Definition maxRecordAge : duration := 400 * 24 * hour.
Definition samplingSlackMS : Z := 1200.
Definition capacityFactor : Z := 2.
Definition maxVolumeBytes : Z := Z.shiftl 1 50.
Definition maxEgressBytesPerMS : Z := 50000000.

Record nodeLimits := { cpuMillis : Z; memoryBytes : Z }.
Record quantities := { q_cpu : Z; q_memory : Z; q_volume : Z; q_egress : UsageEgress }.
Definition no_quantities : quantities := Build_quantities 0 0 0 no_egress.

Definition zeroAll (values : list Z) : bool := forallb (fun v => v =? 0) values.
Definition zero (q : quantities) : bool := (q_cpu q =? 0) && (q_memory q =? 0) && (q_volume q =? 0) && zeroAll (egress_list (q_egress q)).
Definition exceeds (value rate milliseconds : Z) : bool := rate * Z.max milliseconds 0 <? value.
Definition parseOptional (value : string) : option Z := if str_eqb value "" then Some 0 else ParseUsageInteger value.

Definition identifier_byte (b : Z) : bool :=
  within 97 122 b || within 65 90 b || within 48 57 b || existsb (Z.eqb b) [45; 95; 46; 58; 47].
(** A rune outside ASCII, or an invalid byte, is refused at its first byte. *)
Definition validIdentifier (value : string) (limit : Z) : bool :=
  negb (str_eqb value "") && (len (codes value) <=? limit) && forallb identifier_byte (codes value).

Definition validateRecord (r : UsageRecord) (now : time) (limits : nodeLimits) : result string quantities :=
  let invalid detail := Err (RejectInvalid +:+ ": " +:+ detail) in
  let implausible detail := Err (RejectImplausible +:+ ": " +:+ detail) in
  if negb (str_eqb (MeterVersion r) UsageMeterVersion) then invalid "unknown meter version"
  else if negb ((ResourceKind r =? RESOURCE_ALLOCATION) || (ResourceKind r =? RESOURCE_VOLUME)) then invalid "unknown resource kind"
  else if negb (validIdentifier (ResourceId r) 128) || negb (validIdentifier (CounterEpoch r) 160) || negb (validIdentifier (BootId r) 64)
  then invalid "resource, epoch, or boot identity"
  else if negb (Z.land (Quality r) (Z.lxor UsageQualityMask (two32 - 1)) =? 0) then invalid "unknown quality bits"
  else if negb (IsValid (Start r)) || negb (IsValid (End_ r)) then invalid "interval timestamps"
  else
    let start := AsTime (Start r) in
    let end_ := AsTime (End_ r) in
    let span := Z.quot (time_sub end_ start) millisecond in
    let duration := DurationMs r in
    if (end_ <? start) || (duration <? 0) || negb ((start mod second) mod millisecond =? 0) || negb ((end_ mod second) mod millisecond =? 0)
    then invalid "interval bounds"
    else if HasUsageQuality (Quality r) CLOCK_STEP && (span <? duration) then invalid "duration exceeds the stepped interval"
    else if negb (HasUsageQuality (Quality r) CLOCK_STEP) && negb (duration =? span) then invalid "duration differs from the interval"
    else if (now + futureSkew <? end_) || (start <? now - maxRecordAge) then invalid "interval outside the accepted window"
    else
      let memoryCovered := MemoryCoveredMs r in
      let volumeCovered := VolumeCoveredMs r in
      if (memoryCovered <? 0) || (volumeCovered <? 0) || (duration <? memoryCovered) || (duration <? volumeCovered)
      then invalid "coverage exceeds the duration"
      else
        match parseOptional (MemoryByteMilliseconds r) with
        | None => invalid "memory integer"
        | Some memory =>
            match parseOptional (VolumeByteMilliseconds r) with
            | None => invalid "volume integer"
            | Some volume =>
                let q := Build_quantities (CpuMicroseconds r) memory volume (Egress r) in
                if Kind r =? KIND_GAP then
                  if negb (zero q) || negb (memoryCovered =? 0) || negb (volumeCovered =? 0) || negb (validIdentifier (GapReason r) 64)
                  then invalid "gap with quantities or without a reason" else Ok q
                else if negb (Kind r =? KIND_MEASUREMENT) then invalid "unknown record kind"
                else if negb (str_eqb (GapReason r) "") then invalid "measurement with a gap reason"
                else if (ResourceKind r =? RESOURCE_VOLUME) && (negb (q_cpu q =? 0) || negb (q_memory q =? 0) || negb (memoryCovered =? 0) || negb (zeroAll (egress_list (q_egress q))))
                then invalid "volume record with compute or network quantities"
                else if negb (ResourceKind r =? RESOURCE_VOLUME) && (negb (q_volume q =? 0) || negb (volumeCovered =? 0))
                then invalid "allocation record with volume quantities"
                else if exceeds (q_cpu q) (wrap64 (capacityFactor * Z.max (cpuMillis limits) 1000)) (duration + samplingSlackMS) then implausible "cpu"
                else if exceeds (q_memory q) (wrap64 (capacityFactor * Z.max (memoryBytes limits) (Z.shiftl 1 30))) memoryCovered then implausible "memory"
                else if exceeds (q_volume q) maxVolumeBytes volumeCovered then implausible "volume"
                else if existsb (fun v => exceeds v maxEgressBytesPerMS (duration + samplingSlackMS)) (egress_list (q_egress q)) then implausible "egress"
                else Ok q
            end
        end.

(** ** What a valid record is *)

(** The facts a record that passed validation has. *)
Record plausible (r : UsageRecord) (now : time) (limits : nodeLimits) (q : quantities) : Prop := {
  pl_kind : Kind r = KIND_GAP \/ Kind r = KIND_MEASUREMENT;
  pl_resource : ResourceKind r = RESOURCE_ALLOCATION \/ ResourceKind r = RESOURCE_VOLUME;
  pl_id : validIdentifier (ResourceId r) 128 = true;
  pl_interval : AsTime (Start r) <= AsTime (End_ r) /\ now - maxRecordAge <= AsTime (Start r) /\ AsTime (End_ r) <= now + futureSkew;
  pl_stamps : IsValid (Start r) = true /\ IsValid (End_ r) = true;
  pl_duration : 0 <= DurationMs r <= (AsTime (End_ r) - AsTime (Start r)) / millisecond;
  pl_covered : 0 <= MemoryCoveredMs r <= DurationMs r /\ 0 <= VolumeCoveredMs r <= DurationMs r;
  pl_gap : Kind r = KIND_GAP -> zero q = true /\ MemoryCoveredMs r = 0 /\ VolumeCoveredMs r = 0;
  pl_volume : ResourceKind r = RESOURCE_VOLUME -> q_cpu q = 0 /\ q_memory q = 0 /\ Forall (eq 0) (egress_list (q_egress q));
  pl_allocation : ResourceKind r = RESOURCE_ALLOCATION -> q_volume q = 0;
  pl_cpu : Kind r = KIND_MEASUREMENT -> q_cpu q <= wrap64 (capacityFactor * Z.max (cpuMillis limits) 1000) * (DurationMs r + samplingSlackMS);
  pl_memory : Kind r = KIND_MEASUREMENT -> q_memory q <= wrap64 (capacityFactor * Z.max (memoryBytes limits) (Z.shiftl 1 30)) * MemoryCoveredMs r;
  pl_disk : Kind r = KIND_MEASUREMENT -> q_volume q <= maxVolumeBytes * VolumeCoveredMs r;
  pl_egress : Kind r = KIND_MEASUREMENT -> Forall (fun v => v <= maxEgressBytesPerMS * (DurationMs r + samplingSlackMS)) (egress_list (q_egress q))
}.

Lemma zeroAll_spec l : zeroAll l = true <-> Forall (eq 0) l.
Proof.
  unfold zeroAll. rewrite forallb_forall, Forall_forall. split; intros H x Hx; specialize (H x).
  - symmetry. apply Z.eqb_eq, H. by apply list_elem_of_In.
  - apply Z.eqb_eq. symmetry. apply H. by apply list_elem_of_In.
Qed.

Lemma exceeds_false v rate ms : 0 <= ms -> exceeds v rate ms = false -> v <= rate * ms.
Proof. unfold exceeds. intros H E%Z.ltb_ge. by rewrite Z.max_l in E. Qed.

Lemma span_bound a b : a <= b -> Z.quot (time_sub b a) millisecond <= (b - a) / millisecond.
Proof.
  intros H. unfold time_sub. rewrite Z.quot_div_nonneg by (unfold millisecond; lia). apply Z.div_le_mono; [done|]. lia.
Qed.

(** The cases of the validation as facts. *)
Ltac decide_guards :=
  repeat match goal with
  | H : (if ?b then Err _ else _) = Ok _ |- _ => let E := fresh "G" in destruct b eqn:E; [discriminate H|]
  | H : (_ || _) = false |- _ => apply orb_false_iff in H as [? ?]
  | H : negb _ = false |- _ => apply negb_false_iff in H
  | H : (_ <? _) = false |- _ => apply Z.ltb_ge in H
  | H : (_ =? _) = true |- _ => apply Z.eqb_eq in H
  end.

Lemma validated_is_plausible r now limits q : validateRecord r now limits = Ok q -> plausible r now limits q.
Proof.
  unfold validateRecord. cbv zeta. intros H. decide_guards.
  destruct (parseOptional (MemoryByteMilliseconds r)) as [memory|]; [|discriminate H].
  destruct (parseOptional (VolumeByteMilliseconds r)) as [volume|]; [|discriminate H].
  assert (Hspan : DurationMs r <= (AsTime (End_ r) - AsTime (Start r)) / millisecond).
  { pose proof (span_bound (AsTime (Start r)) (AsTime (End_ r)) ltac:(done)). destruct (HasUsageQuality (Quality r) CLOCK_STEP); cbn [negb andb] in *; decide_guards; lia. }
  assert (Hres : ResourceKind r = RESOURCE_ALLOCATION \/ ResourceKind r = RESOURCE_VOLUME).
  { apply orb_true_iff in G0 as [?%Z.eqb_eq|?%Z.eqb_eq]; auto. }
  destruct (Kind r =? KIND_GAP) eqn:Ek.
  - apply Z.eqb_eq in Ek. decide_guards. injection H as <-. match goal with E : zero _ = true |- _ => assert (Hz := E) end. unfold zero in Hz.
    rewrite !andb_true_iff, !Z.eqb_eq in Hz. destruct Hz as [[[Z1 Z2] Z3] Z4]. apply zeroAll_spec in Z4.
    constructor; rewrite ?Ek; try done; try (by left); try lia; by auto.
  - decide_guards. injection H as <-. apply Z.eqb_neq in Ek. cbn [q_cpu q_memory q_volume q_egress] in *.
    assert (Hm : Kind r = KIND_MEASUREMENT) by done. constructor; rewrite ?Hm; try done; try (by right); try lia; try by auto.
    + intros Ev. rewrite Ev in *. cbn in *. decide_guards. cbn. split; [done|]. split; [done|]. by apply zeroAll_spec.
    + intros Ev. rewrite Ev in *. cbn in *. decide_guards. done.
    + intros _. apply exceeds_false; [unfold samplingSlackMS; lia|done].
    + intros _. apply exceeds_false; [lia|done].
    + intros _. apply exceeds_false; [lia|done].
    + intros _. apply Forall_forall. intros v Hv. apply exceeds_false; [unfold samplingSlackMS; lia|].
      match goal with E : existsb _ _ = false |- _ => rename E into Ee end. rewrite <- not_true_iff_false, existsb_exists in Ee.
      apply not_true_iff_false. intros Hx. apply Ee. exists v. split; [by apply list_elem_of_In|done].
Qed.

End UsageRecords.
