(* ===== verification/UsageIngest.v ===== *)
(** * Accepting usage

    [internal/controlplane/usage]: [ingest.go], [attribution.go],
    [maintain.go] and the partitions of [schema.go].  A report of an agent is
    accepted in one transaction: its records continue the cursor of the agent's
    journal, every one is stored with its verdict, and the accepted ones are
    added to the hourly totals that billing reads.  The tables are a record of
    maps and lists; raw intervals are in daily partitions.  The time of the
    database, [protojson], [proto.Marshal] and [proto.Size], [uuid.Parse] and
    [strconv.Quote] are parameters.  A stored time keeps its microseconds.  Sums
    stay within the columns' widths. *)

From S2P Require Import Prelude GoText GoFloat DurableWork Billing ClosePeriod GoTime Sha256 RowMap Journal Product LogPipeline UsageRecords.

Module UsageIngest.
Import Journal UsageRecords.

Definition KindAllocation : string := "allocation".
Definition KindVolume : string := "volume".

(** ** Tables *)

Record producers_row := {
  up_agent_id : string; up_state : string; up_accepted_through : Z; up_sealed_through : option time; up_last_report_at : option time;
  up_last_accepted_at : option time; up_health : string; up_conflict : string; up_superseded_by : string; up_created_at : time; up_updated_at : time
}.
#[export] Instance producers_row_eta : Eta producers_row := fun r =>
  Build_producers_row (up_agent_id r) (up_state r) (up_accepted_through r) (up_sealed_through r) (up_last_report_at r)
    (up_last_accepted_at r) (up_health r) (up_conflict r) (up_superseded_by r) (up_created_at r) (up_updated_at r).

Record producer_gaps_row := {
  gp_installation : string; gp_producer : string; gp_agent : string; gp_first : Z; gp_last : Z; gp_start : time; gp_end : time;
  gp_reason : string; gp_recorded_at : time
}.

Record progress_row := { pg_end : time; pg_producer : string; pg_sequence : Z }.
#[export] Instance progress_row_eta : Eta progress_row := fun r =>
  Build_progress_row (pg_end r) (pg_producer r) (pg_sequence r).

Record intervals_row := {
  iv_installation : string; iv_producer : string; iv_sequence : Z; iv_digest : list Z; iv_accepted : bool; iv_rejection : string;
  iv_record_kind : string; iv_resource_kind : string; iv_resource_id : string; iv_epoch : string; iv_boot : string; iv_agent : string;
  iv_project : string; iv_environment : string; iv_service : string; iv_start : time; iv_end : time; iv_duration : Z; iv_meter : string;
  iv_quality : Z; iv_quantities : quantities; iv_memory_covered : Z; iv_volume_covered : Z; iv_retained : bool; iv_gap_reason : string;
  iv_payload : option string; iv_accepted_at : time; iv_partition : option Z
}.
#[export] Instance intervals_row_eta : Eta intervals_row := fun r =>
    Build_intervals_row (iv_installation r) (iv_producer r) (iv_sequence r) (iv_digest r) (iv_accepted r) (iv_rejection r) (iv_record_kind r)
    (iv_resource_kind r) (iv_resource_id r) (iv_epoch r) (iv_boot r) (iv_agent r) (iv_project r) (iv_environment r) (iv_service r) (iv_start r)
    (iv_end r) (iv_duration r) (iv_meter r) (iv_quality r) (iv_quantities r) (iv_memory_covered r) (iv_volume_covered r) (iv_retained r)
    (iv_gap_reason r) (iv_payload r) (iv_accepted_at r) (iv_partition r).

Record hourly_row := {
  h_project : string; h_environment : string; h_service : string; h_records : Z; h_measured : Z; h_gap : Z; h_uncertain : Z;
  h_memory_covered : Z; h_volume_covered : Z; h_cpu : Z; h_memory : Z; h_volume : Z; h_retained : Z; h_egress : UsageEgress;
  h_first : time; h_last : time
}.
#[export] Instance hourly_row_eta : Eta hourly_row := fun r =>
    Build_hourly_row (h_project r) (h_environment r) (h_service r) (h_records r) (h_measured r) (h_gap r) (h_uncertain r) (h_memory_covered r)
    (h_volume_covered r) (h_cpu r) (h_memory r) (h_volume r) (h_retained r) (h_egress r) (h_first r) (h_last r).

Record attributions_row := {
  at_agent : string; at_workspace : string; at_project : string; at_environment : string; at_service : string; at_deployment : string;
  at_environment_name : string; at_resource_name : string; at_created : time; at_ended : option time; at_deleted : option time
}.
#[export] Instance attributions_row_eta : Eta attributions_row := fun r =>
  Build_attributions_row (at_agent r) (at_workspace r) (at_project r) (at_environment r) (at_service r) (at_deployment r)
    (at_environment_name r) (at_resource_name r) (at_created r) (at_ended r) (at_deleted r).

(** A resource by kind and identity; an hour by its start and a resource. *)
Abbreviation resourceKey := (string * string)%type.
Abbreviation hourKey := (Z * (string * string))%type.

Record usage_db := {
  producers : gmap (string * string) producers_row; producer_gaps : list producer_gaps_row; progress : gmap resourceKey progress_row;
  intervals : list intervals_row; partitions : list Z; hourly : gmap hourKey hourly_row; attributions : gmap resourceKey attributions_row;
  catalog : Product.tables
}.
#[export] Instance usage_db_eta : Eta usage_db := fun d =>
  Build_usage_db (producers d) (producer_gaps d) (progress d) (intervals d) (partitions d) (hourly d) (attributions d) (catalog d).

(** A time as a column keeps it. *)
Definition stored (t : time) : time := t / microsecond * microsecond.

(** ** Messages *)

Section Ingest.
Variable Health : Type.
Variable health_json : Health -> option string.
Variable marshal : UsageRecord -> string.
Variable quote : string -> string.
Variable is_uuid : string -> bool.

Record Producer := { pd_InstallationID : string; pd_AgentID : string; pd_SessionIncarnation : Z }.

Record UsageReport := {
  rp_AgentId : string; rp_InstallationId : string; rp_ProducerId : string; rp_ReportId : Z; rp_Records : list UsageRecord;
  rp_SealedThrough : option Timestamp; rp_LostThrough : Z; rp_Health : option Health
}.
Variable report_size : UsageReport -> Z.

Record UsageAcknowledgement := { ack_ProducerId : string; ack_ReportId : Z; ack_AcceptedThrough : Z; ack_Rejections : list (Z * string); ack_Conflict : string }.

Inductive ingest_error : Type :=
| ErrInvalidReport (detail : string) | ErrStaleSession | ErrProducerSuperseded | ErrForeignProducer
| ErrHealth | ErrText | ErrNegativeCursor.

(** ** The envelope *)

Fixpoint check_records (report : UsageReport) (previous : option Z) (records : list UsageRecord) : result ingest_error unit :=
  match records with
  | [] => Ok tt
  | r :: records =>
      if negb (str_eqb (InstallationId r) (rp_InstallationId report)) || negb (str_eqb (ProducerId r) (rp_ProducerId report))
      then Err (ErrInvalidReport "record names another producer")
      else if (Sequence r =? 0) || match previous with Some p => negb (Sequence r =? uwrap64 (p + 1)) | None => false end
      then Err (ErrInvalidReport "record sequences must be positive and contiguous")
      else check_records report (Some (Sequence r)) records
  end.

Definition checkEnvelope (producer : Producer) (report : UsageReport) : result ingest_error unit :=
  if negb (str_eqb (rp_AgentId report) (pd_AgentID producer)) || negb (str_eqb (rp_InstallationId report) (pd_InstallationID producer))
  then Err (ErrInvalidReport "agent or installation differs from the session")
  else if negb (is_uuid (rp_ProducerId report)) then Err (ErrInvalidReport "producer_id must be a UUID")
  else if (MaxUsageRecordsPerReport <? len (rp_Records report)) || (MaxUsageReportBytes <? report_size report)
  then Err (ErrInvalidReport "report exceeds its limits")
  else check_records report None (rp_Records report).

(** ** Sessions and producers *)

Definition fenceSession (producer : Producer) (db : usage_db) : result ingest_error nodeLimits :=
  match List.find (fun a => str_eqb (agt_ID a) (pd_AgentID producer)) (Product.agent_registrations (catalog db)) with
  | None => Err ErrStaleSession
  | Some r =>
      match List.find (fun a => str_eqb (adm_AgentID a) (agt_ID r)) (Product.agent_administration (catalog db)) with
      | None => Err ErrStaleSession
      | Some ad =>
          if negb (uwrap64 (agt_SessionIncarnation r) =? pd_SessionIncarnation producer)
             || match adm_CredentialRevokedAt ad with Some _ => true | None => false end || str_eqb (adm_LifecycleState ad) "retired"
          then Err ErrStaleSession
          else Ok (Build_nodeLimits (agt_CPUMillisCapacity r + agt_ReservedCPUMillis r)
                     (wrap64 (Z.shiftl (agt_MemoryMebibytesCapacity r + agt_ReservedMemoryMebibytes r) 20)))
      end
  end.

Definition same_gap (g h : producer_gaps_row) : bool :=
  str_eqb (gp_installation g) (gp_installation h) && str_eqb (gp_producer g) (gp_producer h) && (gp_first g =? gp_first h) &&
  str_eqb (gp_reason g) (gp_reason h).
Definition store_gap (g : producer_gaps_row) : producer_gaps_row :=
  Build_producer_gaps_row (gp_installation g) (gp_producer g) (gp_agent g) (gp_first g) (gp_last g) (stored (gp_start g)) (stored (gp_end g))
    (gp_reason g) (gp_recorded_at g).
(** [ON CONFLICT DO NOTHING] *)
Definition insert_gap (g : producer_gaps_row) (db : usage_db) : usage_db :=
  if existsb (same_gap g) (producer_gaps db) then db else db <| producer_gaps := producer_gaps db ++ [store_gap g] |>.

Definition first_start (now : time) (records : list UsageRecord) : time :=
  match records with r :: _ => if AsTime (Start r) <? now then AsTime (Start r) else now | [] => now end.

(** The journal of the agent that is not superseded. *)
Definition current_journal (producer : Producer) (db : usage_db) : option (string * producers_row) :=
  match List.find (fun p => str_eqb p.1.1 (pd_InstallationID producer) && str_eqb (up_agent_id p.2) (pd_AgentID producer)
                            && negb (str_eqb (up_state p.2) "superseded")) (map_to_list (producers db)) with
  | Some (k, r) => Some (k.2, r)
  | None => None
  end.

Definition lockProducer (producer : Producer) (report : UsageReport) (now : time) (db : usage_db) : result ingest_error (usage_db * producers_row) :=
  let key := (pd_InstallationID producer, rp_ProducerId report) in
  match producers db !! key with
  | Some row =>
      if negb (str_eqb (up_agent_id row) (pd_AgentID producer)) then Err ErrForeignProducer
      else if str_eqb (up_state row) "superseded" then Err ErrProducerSuperseded
      else Ok (db, row)
  | None =>
      let db :=
        match current_journal producer db with
        | None => db
        | Some (previous, row) =>
            let db := db <| producers := <[(pd_InstallationID producer, previous) := row <| up_state := "superseded" |>
                        <| up_superseded_by := rp_ProducerId report |> <| up_updated_at := now |>]> (producers db) |> in
            let start := default (up_created_at row) (up_sealed_through row) in
            let end_ := first_start now (rp_Records report) in
            let end_ := if end_ <? start then start else end_ in
            insert_gap (Build_producer_gaps_row (pd_InstallationID producer) previous (pd_AgentID producer) 0 0 start end_ "journal_replaced" now) db
        end in
      let row := Build_producers_row (pd_AgentID producer) "active" 0 None None None "{}" "" "" now now in
      Ok (db <| producers := <[key := row]> (producers db) |>, row)
  end.

Definition update_producer (key : string * string) (f : producers_row -> producers_row) (db : usage_db) : usage_db :=
  db <| producers := alter f key (producers db) |>.

Definition recordHealth (report : UsageReport) (now : time) (db : usage_db) : result ingest_error usage_db :=
  match (match rp_Health report with Some h => health_json h | None => Some "{}" end) with
  | None => Err ErrHealth
  | Some health => Ok (update_producer (rp_InstallationId report, rp_ProducerId report)
                         (fun r => r <| up_health := health |> <| up_last_report_at := Some now |>) db)
  end.

(** ** Records of a report *)

(** The records up to the cursor, and those that continue it. *)
Fixpoint classify (cursor : Z) (records duplicates fresh : list UsageRecord) : list UsageRecord * list UsageRecord :=
  match records with
  | [] => (duplicates, fresh)
  | r :: records =>
      if Sequence r <=? cursor then classify cursor records (duplicates ++ [r]) fresh
      else if Sequence r =? uwrap64 (cursor + len fresh + 1) then classify cursor records duplicates (fresh ++ [r])
      else classify cursor records duplicates fresh
  end.

Definition stored_row (installation producer : string) (sequence : Z) (db : usage_db) : option intervals_row :=
  List.find (fun v => str_eqb (iv_installation v) installation && str_eqb (iv_producer v) producer && (iv_sequence v =? sequence)) (intervals db).

(** The first record that differs from the one stored under its sequence. *)
Fixpoint checkDuplicates (installation producer : string) (records : list UsageRecord) (db : usage_db) : string :=
  match records with
  | [] => ""
  | r :: records =>
      match stored_row installation producer (wrap64 (Sequence r)) db with
      | Some v => if negb (bool_decide (iv_digest v = UsageRecordDigest quote r))
                  then "sequence " +:+ pretty (Sequence r) +:+ " differs from the accepted record"
                  else checkDuplicates installation producer records db
      | None => checkDuplicates installation producer records db
      end
  end.

Definition resourceKind (kind : Z) : string := if kind =? RESOURCE_VOLUME then KindVolume else KindAllocation.
Definition recordKind (kind : Z) : string := if kind =? KIND_GAP then "gap" else "measurement".

(** What authorizes a resource; the deletion of a volume is that of the first
    of its rows, or the one captured before they were collected. *)
Record attribution := { a_agent : string; a_project : string; a_environment : string; a_service : string; a_created : time; a_deleted : option time }.

Definition least (a b : option time) : option time :=
  match a, b with Some a, Some b => Some (Z.min a b) | Some a, None => Some a | None, b => b end.
Definition volume_deletion (t : Product.tables) (id : string) : option (option time) :=
  v ← List.find (fun v => str_eqb (Product.v_id v) id) (Product.volumes t);
  e ← List.find (fun e => str_eqb (env_ID (Product.e_row e)) (Product.v_environment_id v)) (Product.environments t);
  p ← List.find (fun p => str_eqb (Product.p_id p) (env_ProjectID (Product.e_row e))) (Product.projects t);
  Some (least (least (Product.v_deleted_at v) (Product.e_deleted_at e)) (Product.p_deleted_at p)).

Definition load_attribution (db : usage_db) (key : resourceKey) : option attribution :=
  a ← attributions db !! key;
  let deleted := if str_eqb key.1 KindVolume
                 then match default None (volume_deletion (catalog db) key.2) with Some t => Some t | None => at_deleted a end
                 else None in
  Some (Build_attribution (at_agent a) (at_project a) (at_environment a) (at_service a) (at_created a) deleted).

Definition day : duration := 24 * hour.
Definition truncate_hour (t : time) : time := t / hour * hour.
Definition cut (limit : nat) (s : string) : string := if (limit <? String.length s)%nat then of_codes (take limit (codes s)) else s.

(** The columns of a record; [append] of a batch. *)
Definition interval_of (producer : Producer) (now : time) (parts : list Z) (r : UsageRecord) (accepted : bool) (rejection : string) (a : option attribution)
    (start end_ : time) (q : quantities) (retained : bool) (payload : option string) : intervals_row :=
  let day_of := start / day in
  Build_intervals_row (InstallationId r) (ProducerId r) (wrap64 (Sequence r)) (UsageRecordDigest quote r) accepted rejection
    (recordKind (Kind r)) (resourceKind (ResourceKind r)) (cut 128 (ResourceId r)) (cut 160 (CounterEpoch r)) (cut 64 (BootId r)) (pd_AgentID producer)
    (match a with Some a => if accepted then a_project a else "" | None => "" end)
    (match a with Some a => if accepted then a_environment a else "" | None => "" end)
    (match a with Some a => if accepted then a_service a else "" | None => "" end)
    start end_ (DurationMs r) (cut 32 (MeterVersion r)) (Quality r) q
    (if accepted then MemoryCoveredMs r else 0) (if accepted then VolumeCoveredMs r else 0) retained (cut 64 (GapReason r)) payload now
    (if existsb (Z.eqb day_of) parts then Some day_of else None).

Definition reject_row (producer : Producer) (now : time) (parts : list Z) (r : UsageRecord) (reason : string) (a : option attribution) : intervals_row :=
  let '(start, end_) := if IsValid (Start r) && IsValid (End_ r) && negb (AsTime (End_ r) <? AsTime (Start r))
                        then (AsTime (Start r), AsTime (End_ r)) else (now, now) in
  interval_of producer now parts r false reason a start end_ no_quantities false (Some (marshal r)).

Definition accept_row (producer : Producer) (now : time) (parts : list Z) (r : UsageRecord) (q : quantities) (a : attribution) : intervals_row :=
  let start := AsTime (Start r) in
  let retained := str_eqb (resourceKind (ResourceKind r)) KindVolume && match a_deleted a with Some t => negb (start <? t) | None => false end in
  interval_of producer now parts r true "" (Some a) start (AsTime (End_ r)) q retained None.

(** *** Hourly totals *)

Definition add_egress (a b : UsageEgress) : UsageEgress :=
  Build_UsageEgress (PublicDirectBytes a + PublicDirectBytes b) (PublicIngressBytes a + PublicIngressBytes b) (PrivateBytes a + PrivateBytes b)
    (PlatformBytes a + PlatformBytes b) (ProbeBytes a + ProbeBytes b).

(** One record added to the totals of its hour; the names are those of the first. *)
Definition add_record (r : UsageRecord) (q : quantities) (retained : bool) (start end_ : time) (h : hourly_row) : hourly_row :=
  let gap := Kind r =? KIND_GAP in
  let duration := DurationMs r in
  let quantity v := if zero q then 0 else v in
  Build_hourly_row (h_project h) (h_environment h) (h_service h) (h_records h + 1)
    (h_measured h + (if gap then 0 else duration)) (h_gap h + (if gap then duration else 0))
    (h_uncertain h + (if negb gap && HasUsageQuality (Quality r) UNCERTAIN_TIMING then duration else 0))
    (h_memory_covered h + MemoryCoveredMs r) (h_volume_covered h + VolumeCoveredMs r)
    (h_cpu h + quantity (q_cpu q)) (h_memory h + quantity (q_memory q)) (h_volume h + quantity (q_volume q))
    (h_retained h + (if retained then quantity (q_volume q) else 0)) (if zero q then h_egress h else add_egress (h_egress h) (q_egress q))
    (if start <? h_first h then start else h_first h) (if h_last h <? end_ then end_ else h_last h).

Definition empty_hour (a : attribution) (start end_ : time) : hourly_row :=
  Build_hourly_row (a_project a) (a_environment a) (a_service a) 0 0 0 0 0 0 0 0 0 0 no_egress start end_.

(** [ON CONFLICT DO UPDATE] of the hourly table. *)
Definition merge_hour (h x : hourly_row) : hourly_row :=
  Build_hourly_row (h_project h) (h_environment h) (h_service h) (h_records h + h_records x) (h_measured h + h_measured x) (h_gap h + h_gap x)
    (h_uncertain h + h_uncertain x) (h_memory_covered h + h_memory_covered x) (h_volume_covered h + h_volume_covered x) (h_cpu h + h_cpu x)
    (h_memory h + h_memory x) (h_volume h + h_volume x) (h_retained h + h_retained x) (add_egress (h_egress h) (h_egress x))
    (Z.min (h_first h) (h_first x)) (Z.max (h_last h) (h_last x)).

(** *** A batch *)

Record batch := { b_rows : list intervals_row; b_hourly : gmap hourKey hourly_row; b_progress : gmap resourceKey progress_row; b_rejections : list (Z * string) }.
Definition empty_batch : batch := Build_batch [] ∅ ∅ [].

Definition accept (producer : Producer) (now : time) (parts : list Z) (r : UsageRecord) (key : resourceKey) (q : quantities) (a : attribution) (b : batch) : batch :=
  let row := accept_row producer now parts r q a in
  let hk := (truncate_hour (iv_start row), key) in
  let h := default (empty_hour a (iv_start row) (iv_end row)) (b_hourly b !! hk) in
  Build_batch (b_rows b ++ [row]) (<[hk := add_record r q (iv_retained row) (iv_start row) (iv_end row) h]> (b_hourly b))
    (<[key := Build_progress_row (iv_end row) (ProducerId r) (Sequence r)]> (b_progress b)) (b_rejections b).

Definition reject (producer : Producer) (now : time) (parts : list Z) (r : UsageRecord) (reason : string) (a : option attribution) (b : batch) : batch :=
  Build_batch (b_rows b ++ [reject_row producer now parts r reason a]) (b_hourly b) (b_progress b) (b_rejections b ++ [(Sequence r, reason)]).

(** Why a record does not count, or what it measured. *)
Definition judge (producer : Producer) (now : time) (limits : nodeLimits) (db : usage_db) (ends : gmap resourceKey time) (r : UsageRecord) : result string (quantities * attribution) :=
  let key := (resourceKind (ResourceKind r), ResourceId r) in
  q ← validateRecord r now limits;
  match load_attribution db key with
  | None => Err RejectUnknownAttribution
  | Some a =>
      if negb (str_eqb (a_agent a) (pd_AgentID producer)) then Err RejectForeignAgent
      else if AsTime (Start r) <? a_created a - attributionSkew then Err RejectBeforeAttribution
      else if AsTime (Start r) <? default zero_time (ends !! key) then Err RejectOverlap
      else Ok (q, a)
  end.

Fixpoint prepare_loop (producer : Producer) (now : time) (limits : nodeLimits) (db : usage_db) (records : list UsageRecord) (ends : gmap resourceKey time) (b : batch) : batch :=
  match records with
  | [] => b
  | r :: records =>
      let key := (resourceKind (ResourceKind r), ResourceId r) in
      match judge producer now limits db ends r with
      | Err reason => prepare_loop producer now limits db records ends (reject producer now (partitions db) r reason (load_attribution db key) b)
      | Ok (q, a) => prepare_loop producer now limits db records (<[key := AsTime (End_ r)]> ends) (accept producer now (partitions db) r key q a b)
      end
  end.
Definition prepareBatch (producer : Producer) (records : list UsageRecord) (now : time) (limits : nodeLimits) (db : usage_db) : batch :=
  prepare_loop producer now limits db records (pg_end <$> progress db) empty_batch.

(** PostgreSQL stores text of valid UTF-8 without zero bytes. *)
Definition text_ok (s : string) : bool := let l := codes s in LogPipeline.valid_fuel (length l) l && negb (existsb (Z.eqb 0) l).
Definition row_ok (v : intervals_row) : bool :=
  forallb text_ok [iv_installation v; iv_producer v; iv_rejection v; iv_resource_id v; iv_epoch v; iv_boot v; iv_agent v; iv_project v; iv_environment v;
    iv_service v; iv_meter v; iv_gap_reason v].

Definition merge_progress (p x : progress_row) : progress_row := Build_progress_row (Z.max (pg_end p) (pg_end x)) (pg_producer x) (pg_sequence x).

(** The columns of a batch, with the precision they are kept in. *)
Definition store_row (v : intervals_row) : intervals_row := v <| iv_start := stored (iv_start v) |> <| iv_end := stored (iv_end v) |>.
Definition store_hour (h : hourly_row) : hourly_row := h <| h_first := stored (h_first h) |> <| h_last := stored (h_last h) |>.
Definition store_progress (p : progress_row) : progress_row := p <| pg_end := stored (pg_end p) |> <| pg_sequence := wrap64 (pg_sequence p) |>.
Definition store_batch (b : batch) : batch :=
  Build_batch (map store_row (b_rows b)) (store_hour <$> b_hourly b) (store_progress <$> b_progress b) (b_rejections b).

Definition write (b : batch) (db : usage_db) : result ingest_error usage_db :=
  let s := store_batch b in
  if len (b_rows b) =? 0 then Ok db
  else if negb (forallb row_ok (b_rows b)) then Err ErrText
  else Ok (db <| intervals := intervals db ++ b_rows s |>
              <| hourly := union_with (fun h x => Some (merge_hour h x)) (hourly db) (b_hourly s) |>
              <| progress := union_with (fun p x => Some (merge_progress p x)) (progress db) (b_progress s) |>).

(** ** The transaction *)

Definition ingestTx (producer : Producer) (report : UsageReport) (now : time) (db : usage_db) : result ingest_error (usage_db * UsageAcknowledgement) :=
  let key := (pd_InstallationID producer, rp_ProducerId report) in
  let ack through rejections conflict := Build_UsageAcknowledgement (rp_ProducerId report) (rp_ReportId report) through rejections conflict in
  limits ← fenceSession producer db;
  '(db, current) ← lockProducer producer report now db;
  if str_eqb (up_state current) "blocked" then
    db ← recordHealth report now db; Ok (db, ack (up_accepted_through current) [] (up_conflict current))
  else
    let cursor := up_accepted_through current in
    let lost := rp_LostThrough report in
    let '(db, cursor) :=
      if cursor <? lost then
        let end_ := first_start now (rp_Records report) in
        let start := match up_sealed_through current with Some t => if t <? end_ then t else end_ | None => end_ end in
        (insert_gap (Build_producer_gaps_row (pd_InstallationID producer) (rp_ProducerId report) (pd_AgentID producer)
                       (wrap64 (uwrap64 (cursor + 1))) (wrap64 lost) start end_ "acknowledged_records_lost" now) db, lost)
      else (db, cursor) in
    let '(duplicates, fresh) := classify cursor (rp_Records report) [] [] in
    let conflict := checkDuplicates (pd_InstallationID producer) (rp_ProducerId report) duplicates db in
    if negb (str_eqb conflict "") then
      if wrap64 cursor <? 0 then Err ErrNegativeCursor
      else
        db ← recordHealth report now (update_producer key (fun r => r <| up_state := "blocked" |> <| up_conflict := conflict |>
               <| up_accepted_through := wrap64 cursor |> <| up_updated_at := now |>) db);
        Ok (db, ack cursor [] conflict)
    else if negb (forallb (fun r => text_ok (ResourceId r)) fresh) then Err ErrText
    else
      let b := prepareBatch producer fresh now limits db in
      db ← write b db;
      let cursor := uwrap64 (cursor + len fresh) in
      let complete := match last (rp_Records report) with None => true | Some r => Sequence r <=? cursor end in
      let sealed := if complete && IsValid (rp_SealedThrough report) && negb (now + futureSkew <? AsTime (rp_SealedThrough report))
                    then Some (stored (AsTime (rp_SealedThrough report))) else None in
      let acceptedAt := match fresh with [] => None | _ => Some now end in
      if wrap64 cursor <? 0 then Err ErrNegativeCursor
      else
        db ← recordHealth report now (update_producer key (fun r => r <| up_accepted_through := wrap64 cursor |>
               <| up_sealed_through := match sealed with None => up_sealed_through r | Some t => Some (Z.max (default t (up_sealed_through r)) t) end |>
               <| up_last_accepted_at := match acceptedAt with Some t => Some t | None => up_last_accepted_at r end |>
               <| up_updated_at := now |>) db);
        Ok (db, ack cursor (b_rejections b) "").

Definition Ingest (producer : Producer) (report : UsageReport) (now : time) (db : usage_db) : result ingest_error (usage_db * UsageAcknowledgement) :=
  _ ← checkEnvelope producer report; ingestTx producer report now db.
End Ingest.

(** ** Attribution *)

Definition project_of (t : Product.tables) (environment : string) : option (Product.environments_row * Product.projects_row) :=
  e ← List.find (fun e => str_eqb (env_ID (Product.e_row e)) environment) (Product.environments t);
  p ← List.find (fun p => str_eqb (Product.p_id p) (env_ProjectID (Product.e_row e))) (Product.projects t);
  Some (e, p).

(** [ON CONFLICT DO NOTHING] *)
Definition insert_attribution (key : resourceKey) (a : attributions_row) (db : usage_db) : usage_db :=
  match attributions db !! key with Some _ => db | None => db <| attributions := <[key := a]> (attributions db) |> end.

Definition RecordAllocation (allocationID serviceID deploymentID agentID : string) (at_ : time) (db : usage_db) : usage_db :=
  match (s ← List.find (fun s => str_eqb (Product.s_id s) serviceID) (Product.services (catalog db));
         ep ← project_of (catalog db) (Product.s_environment_id s); Some (s, ep)) with
  | None => db
  | Some (s, (e, p)) =>
      insert_attribution (KindAllocation, allocationID)
        (Build_attributions_row agentID (default "" (Product.p_workspace_id p)) (env_ProjectID (Product.e_row e)) (env_ID (Product.e_row e)) (Product.s_id s)
           deploymentID (env_Name (Product.e_row e)) (Product.s_name s) (stored at_) None None) db
  end.

Definition RecordVolume (volumeID agentID : string) (now : time) (db : usage_db) : usage_db :=
  match (v ← List.find (fun v => str_eqb (Product.v_id v) volumeID) (Product.volumes (catalog db));
         ep ← project_of (catalog db) (Product.v_environment_id v); Some (v, ep)) with
  | None => db
  | Some (v, (e, p)) =>
      insert_attribution (KindVolume, volumeID)
        (Build_attributions_row agentID (default "" (Product.p_workspace_id p)) (env_ProjectID (Product.e_row e)) (env_ID (Product.e_row e)) "" ""
           (env_Name (Product.e_row e)) (Product.v_name v) now None None) db
  end.

Definition end_attribution (key : resourceKey) (now : time) (db : usage_db) : usage_db :=
  db <| attributions := alter (fun a => match at_ended a with None => a <| at_ended := Some now |> | Some _ => a end) key (attributions db) |>.
Definition EndAllocation (allocationID : string) (now : time) (db : usage_db) : usage_db := end_attribution (KindAllocation, allocationID) now db.
Definition EndVolume (volumeID : string) (now : time) (db : usage_db) : usage_db := end_attribution (KindVolume, volumeID) now db.

Definition CaptureVolumeDeletion (volumeIDs : list string) (db : usage_db) : usage_db :=
  db <| attributions := map_imap (fun key a =>
        if str_eqb key.1 KindVolume && existsb (str_eqb key.2) volumeIDs then
          match default None (volume_deletion (catalog db) key.2) with
          | Some t => Some (a <| at_deleted := match at_deleted a with Some d => Some d | None => Some t end |>)
          | None => Some a
          end
        else Some a) (attributions db) |>.

(** ** Maintenance *)

Record Config := { RawRetention : duration; HourlyRetention : duration; StaleAfter : duration }.
Definition withDefaults (c : Config) : Config :=
  Build_Config (if RawRetention c <=? 0 then 30 * 24 * hour else RawRetention c) (if HourlyRetention c <=? 0 then 90 * 24 * hour else HourlyRetention c)
    (if StaleAfter c <=? 0 then 90 * second else StaleAfter c).

Definition partitionsAhead : Z := 7.

(** A day that has rows in the default partition keeps them there. *)
Definition ensure_day (d : Z) (db : usage_db) : usage_db :=
  if existsb (Z.eqb d) (partitions db) then db
  else if existsb (fun v => Product.is_null (iv_partition v) && (d * day <=? iv_start v) && (iv_start v <? (d + 1) * day)) (intervals db) then db
  else db <| partitions := partitions db ++ [d] |>.
Definition EnsurePartitions (now : time) (db : usage_db) : usage_db :=
  foldl (fun db offset => ensure_day (now / day + offset) db) db [-1; 0; 1; 2; 3; 4; 5; 6; 7].

Definition expired_day (cutoff : time) (d : Z) : bool := (d + 1) * day <=? cutoff.
Definition dropExpiredPartitions (cutoff : time) (db : usage_db) : usage_db * Z :=
  (db <| intervals := List.filter (fun v => match iv_partition v with
                                            | Some d => negb (expired_day cutoff d)
                                            | None => negb (iv_start v <? cutoff) end) (intervals db) |>
      <| partitions := List.filter (fun d => negb (expired_day cutoff d)) (partitions db) |>,
   countb (expired_day cutoff) (partitions db)).

Record Retention := { DroppedPartitions : Z; HourlyRows : Z; Attributions : Z }.

Definition ended_before (cutoff : time) (a : attributions_row) : bool := match at_ended a with Some t => t <? cutoff | None => false end.

Definition ended_attributions (cutoff : time) (m : gmap resourceKey attributions_row) : gmap resourceKey attributions_row :=
  filter (fun p => ended_before cutoff p.2 = true) m.
Definition live_progress (cutoff : time) (m : gmap resourceKey attributions_row) (pr : gmap resourceKey progress_row) : gmap resourceKey progress_row :=
  filter (fun p => ended_attributions cutoff m !! p.1 = None) pr.

Definition Maintain (cfg : Config) (now : time) (db : usage_db) : usage_db * Retention :=
  let db := EnsurePartitions now db in
  let '(db, dropped) := dropExpiredPartitions (now - RawRetention cfg) db in
  let cutoff := now - HourlyRetention cfg in
  let ended := ended_attributions cutoff (attributions db) in
  (db <| hourly := filter (fun p => (p.1.1 <? cutoff) = false) (hourly db) |>
      <| producer_gaps := List.filter (fun g => negb (gp_end g <? cutoff)) (producer_gaps db) |>
      <| progress := live_progress cutoff (attributions db) (progress db) |>
      <| attributions := filter (fun p => ended_before cutoff p.2 = false) (attributions db) |>,
   Build_Retention dropped (Z.of_nat (size (filter (fun p => (p.1.1 <? cutoff) = true) (hourly db)))) (Z.of_nat (size ended))).

(** [RebuildHourly]: the totals of an interval row, summed by hour and resource. *)
Definition row_hour (v : intervals_row) : hourly_row :=
  let gap := str_eqb (iv_record_kind v) "gap" in
  let q := iv_quantities v in
  Build_hourly_row (iv_project v) (iv_environment v) (iv_service v) 1 (if gap then 0 else iv_duration v) (if gap then iv_duration v else 0)
    (if negb gap && negb (Z.land (iv_quality v) 1 =? 0) then iv_duration v else 0) (iv_memory_covered v) (iv_volume_covered v)
    (q_cpu q) (q_memory q) (q_volume q) (if iv_retained v then q_volume q else 0) (q_egress q) (iv_start v) (iv_end v).
Definition row_key (v : intervals_row) : hourKey := (truncate_hour (iv_start v), (iv_resource_kind v, iv_resource_id v)).

Definition min_string (a b : string) : string := if String.leb a b then a else b.
Definition group_hour (h x : hourly_row) : hourly_row :=
  let m := merge_hour h x in
  Build_hourly_row (min_string (h_project h) (h_project x)) (min_string (h_environment h) (h_environment x)) (min_string (h_service h) (h_service x))
    (h_records m) (h_measured m) (h_gap m) (h_uncertain m) (h_memory_covered m) (h_volume_covered m) (h_cpu m) (h_memory m) (h_volume m) (h_retained m)
    (h_egress m) (h_first m) (h_last m).
Definition add_row (acc : gmap hourKey hourly_row) (v : intervals_row) : gmap hourKey hourly_row :=
  <[row_key v := match acc !! row_key v with Some h => group_hour h (row_hour v) | None => row_hour v end]> acc.
Definition aggregate (rows : list intervals_row) : gmap hourKey hourly_row := foldl add_row ∅ rows.

Inductive rebuild_error : Type := PastRetention.

Definition RebuildHourly (cfg : Config) (from to_ now : time) (db : usage_db) : result rebuild_error usage_db :=
  let from := truncate_hour from in
  let to_ := truncate_hour to_ in
  if from <? now - RawRetention cfg + 24 * hour then Err PastRetention
  else
    let kept := filter (fun p => negb ((from <=? p.1.1) && (p.1.1 <? to_)) = true) (hourly db) in
    let fresh := aggregate (List.filter (fun v => iv_accepted v && (from <=? iv_start v) && (iv_start v <? to_)) (intervals db)) in
    Ok (db <| hourly := fresh ∪ kept |>).

End UsageIngest.
