(* ===== verification/UsageLedger.v ===== *)
(** * Usage is counted once

    Histories of [UsageIngest]: whatever is reported, retried, lost, expired
    or rebuilt, the hourly totals are the sums of the accepted intervals, the
    intervals of a resource do not overlap and come from the agent it was
    assigned to, and a sequence of a journal is stored at most once. *)

From S2P Require Import Prelude GoText GoFloat DurableWork Billing ClosePeriod GoTime Sha256 RowMap Journal Product LogPipeline UsageRecords UsageIngest.

Module UsageLedger.
Import Journal UsageRecords UsageIngest.

(** ** Sums by hour *)

Lemma min_string_id a : min_string a a = a.
Proof. unfold min_string. by destruct (String.leb a a). Qed.

Lemma min_string_assoc a b c : min_string a (min_string b c) = min_string (min_string a b) c.
Proof.
  unfold min_string. destruct (String.leb b c) eqn:E1, (String.leb a b) eqn:E2; rewrite ?E1, ?E2; try done.
  - by rewrite (string_leb_trans _ _ _ E2 E1).
  - destruct (String.leb a c) eqn:E3; [|done]. apply string_leb_total in E1. rewrite (string_leb_trans _ _ _ E3 E1) in E2. done.
Qed.

Lemma add_egress_assoc a b c : add_egress a (add_egress b c) = add_egress (add_egress a b) c.
Proof. unfold add_egress. cbn. f_equal; lia. Qed.

Lemma group_assoc a b c : group_hour a (group_hour b c) = group_hour (group_hour a b) c.
Proof. unfold group_hour. cbn. f_equal; try apply min_string_assoc; try apply add_egress_assoc; lia. Qed.

Definition same_names (h x : hourly_row) : Prop := h_project h = h_project x /\ h_environment h = h_environment x /\ h_service h = h_service x.

Lemma group_merge h x : same_names h x -> group_hour h x = merge_hour h x.
Proof. intros (E1 & E2 & E3). unfold group_hour. rewrite <- E1, <- E2, <- E3, !min_string_id. done. Qed.

(** The totals of one hour and resource. *)
Definition add_total (acc : option hourly_row) (v : intervals_row) : option hourly_row :=
  Some (match acc with Some h => group_hour h (row_hour v) | None => row_hour v end).
Definition total (k : hourKey) (rows : list intervals_row) : option hourly_row :=
  foldl add_total None (List.filter (fun v => bool_decide (row_key v = k)) rows).

Definition plus (a b : option hourly_row) : option hourly_row :=
  match a, b with Some h, Some x => Some (group_hour h x) | Some h, None => Some h | None, b => b end.

Lemma plus_assoc a b c : plus a (plus b c) = plus (plus a b) c.
Proof. destruct a, b, c; cbn; try done. by rewrite group_assoc. Qed.

Lemma foldl_total acc l : foldl add_total acc l = plus acc (foldl add_total None l).
Proof.
  induction l as [|v l IH] using rev_ind; [by destruct acc|]. rewrite !foldl_snoc, IH. destruct acc as [h|]; [|done]. cbn.
  destruct (foldl add_total None l) as [x|]; cbn; [by rewrite group_assoc|done].
Qed.

Lemma total_app k l1 l2 : total k (l1 ++ l2) = plus (total k l1) (total k l2).
Proof. unfold total. rewrite List.filter_app, foldl_app. apply foldl_total. Qed.

Lemma total_snoc k l v : total k (l ++ [v]) = if bool_decide (row_key v = k) then add_total (total k l) v else total k l.
Proof. unfold total. rewrite List.filter_app, foldl_app. cbn. by destruct (bool_decide _). Qed.

Lemma total_none k l : (forall v, v ∈ l -> row_key v <> k) -> total k l = None.
Proof.
  induction l as [|v l IH] using rev_ind; [done|]. intros H. rewrite total_snoc, bool_decide_false by (apply H; set_solver). apply IH. set_solver.
Qed.

Lemma aggregate_total rows k : aggregate rows !! k = total k rows.
Proof.
  unfold aggregate. induction rows as [|v rows IH] using rev_ind; [apply lookup_empty|]. rewrite foldl_snoc, total_snoc. unfold add_row at 1.
  case_bool_decide as E.
  - subst k. rewrite lookup_insert_eq, IH. done.
  - by rewrite lookup_insert_ne, IH.
Qed.

Definition accepted (rows : list intervals_row) : list intervals_row := List.filter iv_accepted rows.

Lemma accepted_app l1 l2 : accepted (l1 ++ l2) = accepted l1 ++ accepted l2.
Proof. apply List.filter_app. Qed.

(** Names that all rows of a key share are those of its totals. *)
Definition names_of (h : hourly_row) : string * string * string := (h_project h, h_environment h, h_service h).
Definition row_names (v : intervals_row) : string * string * string := (iv_project v, iv_environment v, iv_service v).

Lemma total_names k n rows h : (forall v, v ∈ rows -> row_key v = k -> row_names v = n) -> total k rows = Some h -> names_of h = n.
Proof.
  revert h. induction rows as [|v rows IH] using rev_ind; intros h Hn H; [done|]. rewrite total_snoc in H. case_bool_decide as E.
  - injection H as <-. pose proof (Hn v ltac:(set_solver) E) as Ev. destruct (total k rows) as [x|] eqn:Et; [|done].
    pose proof (IH x (fun w Hw => Hn w ltac:(set_solver)) eq_refl) as Hx. unfold names_of in *. cbn. unfold row_names in Ev.
    assert (h_project x = iv_project v /\ h_environment x = iv_environment v /\ h_service x = iv_service v) as (-> & -> & ->).
    { rewrite <- Ev in Hx. by injection Hx. }
    by rewrite !min_string_id.
  - apply IH; [|done]. intros w Hw. apply Hn. set_solver.
Qed.

(** ** A batch *)

Definition resource (v : intervals_row) : resourceKey := (iv_resource_kind v, iv_resource_id v).
Definition att_names (a : attributions_row) : string * string * string := (at_project a, at_environment a, at_service a).

(** Accepted intervals of one resource follow each other. *)
Definition follows (v w : intervals_row) : Prop :=
  iv_accepted v = true -> iv_accepted w = true -> resource v = resource w -> iv_end v <= iv_start w.
Definition disjoint (rows : list intervals_row) : Prop := StronglySorted follows rows.

Definition in_partition (v : intervals_row) : Prop := match iv_partition v with Some d => d = iv_start v / day | None => True end.
Definition attributed (db : usage_db) (v : intervals_row) : Prop :=
  iv_accepted v = true -> exists a, attributions db !! resource v = Some a /\ row_names v = att_names a /\ iv_agent v = at_agent a /\ iv_start v <= iv_end v.

Lemma codes_length s : length (codes s) = String.length s.
Proof. induction s as [|c s IH]; [done|]. unfold codes in *. cbn. by rewrite <- IH. Qed.

Lemma cut_short limit s : len (codes s) <= Z.of_nat limit -> cut limit s = s.
Proof. intros H. unfold len in H. rewrite codes_length in H. unfold cut. by rewrite (proj2 (Nat.ltb_ge _ _)) by lia. Qed.

Lemma load_attribution_ok db key a : load_attribution db key = Some a ->
  exists row, attributions db !! key = Some row /\ a_agent a = at_agent row /\ (a_project a, a_environment a, a_service a) = att_names row.
Proof.
  unfold load_attribution. destruct (attributions db !! key) as [row|]; [|done]. cbn. intros H. injection H as <-. by exists row.
Qed.

Lemma judge_ok producer now limits db ends r q a : judge producer now limits db ends r = Ok (q, a) ->
  plausible r now limits q /\ load_attribution db (resourceKind (ResourceKind r), ResourceId r) = Some a /\ a_agent a = pd_AgentID producer /\
  a_created a - attributionSkew <= AsTime (Start r) /\ default zero_time (ends !! (resourceKind (ResourceKind r), ResourceId r)) <= AsTime (Start r).
Proof.
  unfold judge. intros H. apply bind_ok in H as (q' & Hv & H). apply validated_is_plausible in Hv.
  destruct (load_attribution _ _) as [a'|]; [|done]. destruct (negb _) eqn:E1; [done|]. destruct (_ <? _) eqn:E2; [done|]. destruct (_ <? default _ _) eqn:E3; [done|].
  injection H as <- <-. apply negb_false_iff, str_eqb_eq in E1. apply Z.ltb_ge in E2, E3. done.
Qed.

Lemma partition_ok start parts d : (if existsb (Z.eqb (start / day)) parts then Some (start / day) else None) = Some d -> d = start / day.
Proof. destruct (existsb _ parts); [|done]. intros H. by injection H as <-. Qed.

Section Batch.
Context (marshal : UsageRecord -> string) (quote : string -> string).
#[local] Abbreviation accept := (accept quote).
#[local] Abbreviation accept_row := (accept_row quote).
#[local] Abbreviation reject_row := (reject_row marshal quote).
#[local] Abbreviation reject := (reject marshal quote).
#[local] Abbreviation prepare_loop := (prepare_loop marshal quote).
#[local] Abbreviation prepareBatch := (prepareBatch marshal quote).

Lemma accept_row_resource producer now parts r q a : validIdentifier (ResourceId r) 128 = true ->
  resource (accept_row producer now parts r q a) = (resourceKind (ResourceKind r), ResourceId r).
Proof.
  intros H. unfold validIdentifier in H. rewrite !andb_true_iff, Z.leb_le in H. destruct H as [[_ H] _]. unfold resource. cbn. by rewrite cut_short.
Qed.

Lemma in_partition_of producer now parts r acc rej a start end_ q ret pay :
  in_partition (interval_of quote producer now parts r acc rej a start end_ q ret pay).
Proof.
  unfold in_partition, interval_of. cbv zeta. cbn [iv_partition iv_start]. destruct (existsb _ parts); [done|done].
Qed.

Lemma reject_row_rejected producer now parts r reason a : iv_accepted (reject_row producer now parts r reason a) = false.
Proof. unfold UsageIngest.reject_row. by destruct (_ && _). Qed.

Lemma in_partition_reject producer now parts r reason a : in_partition (reject_row producer now parts r reason a).
Proof. unfold UsageIngest.reject_row. destruct (_ && _); apply in_partition_of. Qed.

Lemma zero_spec q : zero q = true -> q_cpu q = 0 /\ q_memory q = 0 /\ q_volume q = 0 /\ q_egress q = no_egress.
Proof.
  unfold zero. rewrite !andb_true_iff, !Z.eqb_eq. intros [[[H1 H2] H3] H4]. split; [done|]. split; [done|]. split; [done|].
  apply zeroAll_spec in H4. destruct (q_egress q) as [a b c d e]. unfold egress_list in H4. cbn in H4. rewrite !Forall_cons in H4.
  destruct H4 as (<- & <- & <- & <- & <- & _). done.
Qed.

Lemma add_no_egress e : add_egress e no_egress = e.
Proof. destruct e. unfold add_egress, no_egress. cbn. f_equal; lia. Qed.

Lemma no_egress_add e : add_egress no_egress e = e.
Proof. destruct e. done. Qed.

(** Adding a record to the totals of a batch is adding its row. *)
Lemma add_record_row producer now parts r q a h : names_of h = (a_project a, a_environment a, a_service a) ->
  let row := accept_row producer now parts r q a in
  add_record r q (iv_retained row) (iv_start row) (iv_end row) h = group_hour h (row_hour row).
Proof.
  intros Hn row. injection Hn as E1 E2 E3. unfold add_record, group_hour, row_hour, merge_hour.
  assert (Hkind : str_eqb (iv_record_kind row) "gap" = (Kind r =? KIND_GAP)) by (change (iv_record_kind row) with (recordKind (Kind r)); unfold recordKind; by destruct (Kind r =? KIND_GAP)).
  rewrite Hkind. cbn [h_project h_environment h_service h_records h_measured h_gap h_uncertain h_memory_covered h_volume_covered h_cpu h_memory h_volume h_retained h_egress h_first h_last].
  change (iv_quantities row) with q. change (iv_project row) with (a_project a). change (iv_environment row) with (a_environment a).
  change (iv_service row) with (a_service a). change (iv_duration row) with (DurationMs r). change (iv_quality row) with (Quality r).
  change (iv_memory_covered row) with (MemoryCoveredMs r). change (iv_volume_covered row) with (VolumeCoveredMs r).
  rewrite <- E1, <- E2, <- E3, !min_string_id. unfold HasUsageQuality, UNCERTAIN_TIMING.
  assert (Hq : (if zero q then 0 else q_cpu q) = q_cpu q /\ (if zero q then 0 else q_memory q) = q_memory q /\ (if zero q then 0 else q_volume q) = q_volume q /\
    (if zero q then h_egress h else add_egress (h_egress h) (q_egress q)) = add_egress (h_egress h) (q_egress q)).
  { destruct (zero q) eqn:Ez; [|done]. apply zero_spec in Ez as (-> & -> & -> & ->). by rewrite add_no_egress. }
  destruct Hq as (-> & -> & -> & ->). f_equal.
  - destruct (_ <? h_first h) eqn:E; [apply Z.ltb_lt in E|apply Z.ltb_ge in E]; lia.
  - destruct (h_last h <? _) eqn:E; [apply Z.ltb_lt in E|apply Z.ltb_ge in E]; lia.
Qed.

Lemma add_record_first producer now parts r q a :
  let row := accept_row producer now parts r q a in
  add_record r q (iv_retained row) (iv_start row) (iv_end row) (empty_hour a (iv_start row) (iv_end row)) = row_hour row.
Proof.
  intros row. unfold row. rewrite add_record_row by done. fold row. unfold group_hour, row_hour, merge_hour, empty_hour. cbn [h_project h_environment h_service h_records h_measured h_gap h_uncertain h_memory_covered h_volume_covered h_cpu h_memory h_volume h_retained h_egress h_first h_last].
  rewrite no_egress_add, Z.min_id, Z.max_id. change (iv_project row) with (a_project a). change (iv_environment row) with (a_environment a).
  change (iv_service row) with (a_service a). by rewrite !min_string_id.
Qed.
(** What holds of a batch while it is prepared; [ends0] is the progress it started from. *)
Record batch_inv (producer : Producer) (db : usage_db) (ends0 ends : gmap resourceKey time) (b : batch) : Prop := {
  bi_hourly : forall k, b_hourly b !! k = total k (accepted (b_rows b));
  bi_attributed : Forall (attributed db) (b_rows b);
  bi_partition : Forall in_partition (b_rows b);
  bi_ends : forall key, ends !! key = match b_progress b !! key with Some p => Some (pg_end p) | None => ends0 !! key end;
  bi_progress : forall key p, b_progress b !! key = Some p -> default zero_time (ends0 !! key) <= pg_end p;
  bi_after : forall v, v ∈ b_rows b -> iv_accepted v = true ->
    default zero_time (ends0 !! resource v) <= iv_start v /\ exists p, b_progress b !! resource v = Some p /\ iv_end v <= pg_end p;
  bi_disjoint : disjoint (b_rows b)
}.

Lemma disjoint_snoc rows w : disjoint rows -> (forall v, v ∈ rows -> follows v w) -> disjoint (rows ++ [w]).
Proof.
  intros H1 H2. unfold disjoint. apply StronglySorted_app. split; [|split; [done|by repeat constructor]].
  intros v x Hv ->%list_elem_of_singleton. by apply H2.
Qed.

Lemma empty_batch_inv producer db ends : batch_inv producer db ends ends empty_batch.
Proof.
  constructor; cbn; try by constructor.
  - intros key p. by rewrite (lookup_empty key).
  - by intros v ?%elem_of_nil.
Qed.

Lemma reject_inv producer now parts db ends0 ends b r reason a : batch_inv producer db ends0 ends b ->
  batch_inv producer db ends0 ends (reject producer now parts r reason a b).
Proof.
  intros [H1 H2 H3 H4 H5 H6 H7]. pose proof (reject_row_rejected producer now parts r reason a) as Hr. constructor; cbn [UsageIngest.reject b_rows b_hourly b_progress].
  - intros k. rewrite accepted_app. unfold accepted at 2. cbn. rewrite Hr. by rewrite app_nil_r, H1.
  - apply Forall_app. split; [done|]. apply Forall_singleton. intros Hc. congruence.
  - apply Forall_app. split; [done|]. apply Forall_singleton, in_partition_reject.
  - done.
  - done.
  - intros v [Hv|Hv]%elem_of_app Ha; [by apply H6|]. apply list_elem_of_singleton in Hv as ->. congruence.
  - apply disjoint_snoc; [done|]. intros v _ _ Hc. congruence.
Qed.

Lemma accept_inv producer now limits db ends0 ends b r q a : batch_inv producer db ends0 ends b ->
  judge producer now limits db ends r = Ok (q, a) ->
  batch_inv producer db ends0 (<[(resourceKind (ResourceKind r), ResourceId r) := AsTime (End_ r)]> ends)
    (accept producer now (partitions db) r (resourceKind (ResourceKind r), ResourceId r) q a b).
Proof.
  intros [H1 H2 H3 H4 H5 H6 H7] Hj. apply judge_ok in Hj as (Hp & Hl & Ha & _ & He). pose proof (load_attribution_ok _ _ _ Hl) as (arow & La & Lb & Lc).
  set (key := (resourceKind (ResourceKind r), ResourceId r)) in *. set (row := accept_row producer now (partitions db) r q a).
  assert (Hres : resource row = key) by (apply accept_row_resource, Hp).
  assert (Hacc : iv_accepted row = true) by done. assert (Hint : iv_start row <= iv_end row) by apply (pl_interval _ _ _ _ Hp).
  assert (Hstart : default zero_time (ends0 !! key) <= iv_start row).
  { change (iv_start row) with (AsTime (Start r)). rewrite H4 in He. destruct (b_progress b !! key) as [p|] eqn:Ep; [|done]. specialize (H5 _ _ Ep). cbn in He. lia. }
  assert (Hnames : forall h, b_hourly b !! row_key row = Some h -> names_of h = (a_project a, a_environment a, a_service a)).
  { intros h. rewrite H1. apply total_names. intros v Hv Hk. rewrite Lc. unfold accepted in Hv. rewrite list_elem_of_In, filter_In, <- list_elem_of_In in Hv.
    destruct Hv as [Hv Hva]. rewrite Forall_forall in H2. destruct (H2 v Hv Hva) as (a' & E1 & E2 & _).
    assert (resource v = key) as Ev by (change (resource v) with (row_key v).2; by rewrite Hk).
    rewrite Ev, La in E1. injection E1 as <-. done. }
  assert (Hkey : row_key row = (truncate_hour (iv_start row), key)) by (rewrite <- Hres; done).
  constructor; cbn [UsageIngest.accept b_rows b_hourly b_progress]; fold row.
  - intros k. rewrite accepted_app, (total_app k). change (accepted [row]) with [row].
    assert (Hone : total k [row] = if bool_decide (row_key row = k) then Some (row_hour row) else None).
    { unfold total. cbn. by destruct (bool_decide _). }
    rewrite Hone, <- H1, <- Hkey. case_bool_decide as E.
    + subst k. rewrite lookup_insert_eq. destruct (b_hourly b !! row_key row) as [h|] eqn:Eh; cbn [default plus].
      * f_equal. apply add_record_row. by apply Hnames.
      * f_equal. apply add_record_first.
    + rewrite lookup_insert_ne by done. by destruct (b_hourly b !! k).
  - apply Forall_app. split; [done|]. apply Forall_singleton. intros _. exists arow. rewrite Hres. split; [done|]. split; [by rewrite <- Lc|]. split; [|done].
    rewrite <- Lb. by rewrite Ha.
  - apply Forall_app. split; [done|]. apply Forall_singleton, in_partition_of.
  - intros key'. destruct (decide (key' = key)) as [->|Hne].
    + by rewrite !lookup_insert_eq.
    + rewrite !lookup_insert_ne by done. apply H4.
  - intros key' p. destruct (decide (key' = key)) as [->|Hne].
    + rewrite lookup_insert_eq. intros E. injection E as <-. exact (Z.le_trans _ _ _ Hstart Hint).
    + rewrite lookup_insert_ne by done. apply H5.
  - intros v [Hv|Hv]%elem_of_app Hva.
    + destruct (H6 v Hv Hva) as (G1 & p & G2 & G3). split; [done|]. destruct (decide (resource v = key)) as [E|E].
      * eexists. rewrite E, lookup_insert_eq. split; [reflexivity|]. cbn [pg_end]. rewrite E in G2. rewrite H4, G2 in He. cbn in He.
        change (iv_end row) with (AsTime (End_ r)) in *. change (iv_start row) with (AsTime (Start r)) in *. lia.
      * exists p. by rewrite lookup_insert_ne.
    + apply list_elem_of_singleton in Hv as ->. rewrite Hres. split; [done|]. eexists. rewrite lookup_insert_eq. split; [reflexivity|done].
  - apply disjoint_snoc; [done|]. intros v Hv Hva _ E. rewrite Hres in E. destruct (H6 v Hv Hva) as (_ & p & G2 & G3). rewrite E in G2.
    rewrite H4, G2 in He. cbn in He. change (iv_start row) with (AsTime (Start r)). lia.
Qed.

Lemma prepare_inv producer now limits db ends0 records : forall ends b, batch_inv producer db ends0 ends b ->
  exists ends', batch_inv producer db ends0 ends' (prepare_loop producer now limits db records ends b).
Proof.
  induction records as [|r records IH]; intros ends b H; [by exists ends|]. cbn [UsageIngest.prepare_loop].
  destruct (judge producer now limits db ends r) as [[q a]|reason] eqn:E.
  - eapply IH. by eapply accept_inv.
  - eapply IH. by apply reject_inv.
Qed.
End Batch.

(** *** Stored times *)

Lemma stored_mono a b : a <= b -> stored a <= stored b.
Proof. intros H. unfold stored, microsecond. pose proof (Z.div_le_mono a b 1000 ltac:(lia) H). lia. Qed.

Lemma stored_le a : stored a <= a.
Proof. unfold stored, microsecond. pose proof (Z.mul_div_le a 1000 ltac:(lia)). lia. Qed.

Lemma stored_idem a : stored (stored a) = stored a.
Proof. unfold stored, microsecond. by rewrite Z.div_mul. Qed.

(** Coarser units do not see the precision. *)
Lemma stored_div a n : 0 < n -> stored a / (microsecond * n) = a / (microsecond * n).
Proof. intros H. unfold stored, microsecond. rewrite <- !Z.div_div, Z.div_mul by lia. done. Qed.

Lemma stored_truncate_hour a : truncate_hour (stored a) = truncate_hour a.
Proof. unfold truncate_hour. change hour with (microsecond * 3600000000). by rewrite stored_div. Qed.

Lemma stored_day a : stored a / day = a / day.
Proof. unfold day. change (24 * hour) with (microsecond * 86400000000). by rewrite stored_div. Qed.

Lemma stored_min a b : stored (Z.min a b) = Z.min (stored a) (stored b).
Proof. destruct (Z.le_ge_cases a b) as [H|H]; pose proof (stored_mono _ _ H); [rewrite !Z.min_l|rewrite !Z.min_r]; lia. Qed.

Lemma stored_max a b : stored (Z.max a b) = Z.max (stored a) (stored b).
Proof. destruct (Z.le_ge_cases a b) as [H|H]; pose proof (stored_mono _ _ H); [rewrite !Z.max_r|rewrite !Z.max_l]; lia. Qed.

Lemma store_row_key v : row_key (store_row v) = row_key v.
Proof. unfold row_key. cbn. by rewrite stored_truncate_hour. Qed.

Lemma store_group h x : store_hour (group_hour h x) = group_hour (store_hour h) (store_hour x).
Proof. unfold store_hour, group_hour, merge_hour. cbn. by rewrite stored_min, stored_max. Qed.

Lemma total_store k rows : total k (map store_row rows) = store_hour <$> total k rows.
Proof.
  induction rows as [|v rows IH] using rev_ind; [done|]. rewrite map_app. cbn [map]. rewrite !total_snoc, IH, store_row_key.
  destruct (bool_decide _); [|done]. destruct (total k rows) as [h|]; [|done]. cbn [add_total fmap option_fmap option_map]. by rewrite store_group.
Qed.

Lemma accepted_store rows : accepted (map store_row rows) = map store_row (accepted rows).
Proof. unfold accepted. induction rows as [|v rows IH]; [done|]. cbn. destruct (iv_accepted v); cbn; by rewrite IH. Qed.

(** What a batch brings to tables in which the progress is [ends]. *)
Record batch_ok (db : usage_db) (ends : gmap resourceKey time) (b : batch) : Prop := {
  bo_hourly : forall k, b_hourly b !! k = total k (accepted (b_rows b));
  bo_attributed : Forall (attributed db) (b_rows b);
  bo_partition : Forall in_partition (b_rows b);
  bo_stored : forall key p, b_progress b !! key = Some p -> stored (pg_end p) = pg_end p;
  bo_after : forall v, v ∈ b_rows b -> iv_accepted v = true ->
    default zero_time (ends !! resource v) <= iv_start v /\ exists p, b_progress b !! resource v = Some p /\ iv_end v <= pg_end p;
  bo_disjoint : disjoint (b_rows b)
}.

Definition stamped (ends : gmap resourceKey time) : Prop := forall key t, ends !! key = Some t -> stored t = t.

Lemma stamped_default ends key : stamped ends -> stored (default zero_time (ends !! key)) = default zero_time (ends !! key).
Proof. intros H. destruct (ends !! key) as [t|] eqn:E; [by apply (H key)|done]. Qed.

Lemma store_batch_ok producer db ends0 ends b : stamped ends0 -> batch_inv producer db ends0 ends b -> batch_ok db ends0 (store_batch b).
Proof.
  intros Hs [H1 H2 H3 _ _ H6 H7]. unfold store_batch. constructor; cbn [b_rows b_hourly b_progress].
  - intros k. rewrite lookup_fmap, H1, accepted_store, total_store. done.
  - rewrite Forall_map. eapply Forall_impl; [exact H2|]. intros v Hv Ha. destruct (Hv Ha) as (a & E1 & E2 & E3 & E4). exists a. cbn.
    repeat split; try done. by apply stored_mono.
  - rewrite Forall_map. eapply Forall_impl; [exact H3|]. intros v Hv. unfold in_partition in *. cbn. by rewrite stored_day.
  - intros key p. rewrite lookup_fmap. destruct (b_progress b !! key) as [x|]; [|done]. cbn. intros E. injection E as <-. apply stored_idem.
  - intros v Hv Ha. apply list_elem_of_fmap in Hv as (w & -> & Hw). destruct (H6 w Hw Ha) as (G1 & p & G2 & G3). split.
    + rewrite <- stamped_default by done. by apply stored_mono.
    + exists (store_progress p). rewrite lookup_fmap. change (resource (store_row w)) with (resource w). rewrite G2. split; [done|]. by apply stored_mono.
  - unfold disjoint in *. clear -H7. induction H7 as [|v rows _ IH Hall]; [constructor|]. cbn. constructor; [done|]. rewrite Forall_map.
    eapply Forall_impl; [exact Hall|]. intros w Hw A B C. cbn. apply stored_mono. by apply Hw.
Qed.

(** ** What a transaction changes *)

(** Two states that differ in producers and their gaps only. *)
Definition same_usage (d e : usage_db) : Prop :=
  intervals d = intervals e /\ hourly d = hourly e /\ progress d = progress e /\ attributions d = attributions e /\ partitions d = partitions e /\ catalog d = catalog e.

Lemma same_usage_refl d : same_usage d d.
Proof. done. Qed.

Lemma same_usage_trans a b c : same_usage a b -> same_usage b c -> same_usage a c.
Proof. intros (?&?&?&?&?&?) (?&?&?&?&?&?). repeat split; congruence. Qed.

Lemma insert_gap_same g db : same_usage (insert_gap g db) db.
Proof. unfold insert_gap. by destruct (existsb _ _). Qed.

Lemma update_producer_same key f db : same_usage (update_producer key f db) db.
Proof. done. Qed.

(** A batch added to the tables. *)
Record extends (b : batch) (d e : usage_db) : Prop := {
  ex_intervals : intervals e = intervals d ++ b_rows b;
  ex_hourly : hourly e = union_with (fun h x => Some (merge_hour h x)) (hourly d) (b_hourly b);
  ex_progress : progress e = union_with (fun p x => Some (merge_progress p x)) (progress d) (b_progress b);
  ex_attributions : attributions e = attributions d;
  ex_partitions : partitions e = partitions d;
  ex_catalog : catalog e = catalog d
}.

Lemma extends_same b d d' e e' : same_usage d d' -> extends b d e -> same_usage e e' -> extends b d' e'.
Proof. intros (?&?&?&?&?&?) [] (?&?&?&?&?&?). constructor; congruence. Qed.

Lemma extends_empty d : extends empty_batch d d.
Proof.
  constructor; try done; cbn; [by rewrite app_nil_r|..].
  - apply map_eq. intros k. rewrite lookup_union_with, (lookup_empty k). by destruct (hourly d !! k).
  - apply map_eq. intros k. rewrite lookup_union_with, (lookup_empty k). by destruct (progress d !! k).
Qed.

Section Transaction.
Context (Health : Type) (health_json : Health -> option string) (marshal : UsageRecord -> string) (quote : string -> string)
  (is_uuid : string -> bool) (report_size : UsageReport Health -> Z).
#[local] Abbreviation ingestTx := (ingestTx Health health_json marshal quote).
#[local] Abbreviation Ingest := (Ingest Health health_json marshal quote is_uuid report_size).
#[local] Abbreviation prepareBatch := (prepareBatch marshal quote).

Lemma recordHealth_same report now db db' : recordHealth Health health_json report now db = Ok db' -> same_usage db' db.
Proof. unfold recordHealth. destruct (match rp_Health Health report with Some h => health_json h | None => Some "{}" end); [|done]. intros H. by injection H as <-. Qed.

Lemma lockProducer_same producer report now db db' row : lockProducer Health producer report now db = Ok (db', row) -> same_usage db' db.
Proof.
  unfold lockProducer. destruct (producers db !! _) as [r|].
  - destruct (negb _); [done|]. destruct (str_eqb _ _); [done|]. intros H. by injection H as <- <-.
  - intros H. injection H as <- _. destruct (current_journal producer db) as [[previous r]|]; [|done].
    unfold insert_gap. by destruct (existsb _ _).
Qed.

Lemma prepare_extends_write producer fresh now limits d e : stamped (pg_end <$> progress d) ->
  write (prepareBatch producer fresh now limits d) d = Ok e ->
  exists b, batch_ok d (pg_end <$> progress d) b /\ extends b d e.
Proof.
  unfold write. cbv zeta. intros Hs H. destruct (len _ =? 0) eqn:E0.
  - injection H as <-. exists empty_batch. split; [|apply extends_empty]. exact (store_batch_ok producer d _ _ _ Hs (empty_batch_inv producer d _)).
  - destruct (negb _); [done|]. injection H as <-.
    destruct (prepare_inv marshal quote producer now limits d (pg_end <$> progress d) fresh _ _ (empty_batch_inv producer d (pg_end <$> progress d))) as [ends He].
    exists (store_batch (prepareBatch producer fresh now limits d)). split; [|done]. by eapply store_batch_ok.
Qed.

Lemma batch_ok_same d d' ends b : attributions d = attributions d' -> batch_ok d ends b -> batch_ok d' ends b.
Proof.
  intros E [H1 H2 H3 H4 H5 H6]. constructor; try done. eapply Forall_impl; [exact H2|]. intros v Hv Ha. rewrite <- E. by apply Hv.
Qed.

Lemma empty_batch_ok d ends : batch_ok d ends empty_batch.
Proof.
  constructor; cbn; try by constructor.
  - intros key p. by rewrite (lookup_empty key).
  - by intros v ?%elem_of_nil.
Qed.

(** A report adds a batch, possibly an empty one, and nothing else that counts. *)
Lemma ingest_effect producer report now db db' ack : stamped (pg_end <$> progress db) -> Ingest producer report now db = Ok (db', ack) ->
  exists b, batch_ok db (pg_end <$> progress db) b /\ extends b db db'.
Proof.
  unfold UsageIngest.Ingest. intros Hs H. apply bind_ok in H as (_ & _ & H). unfold UsageIngest.ingestTx in H. cbv zeta in H.
  apply bind_ok in H as (limits & _ & H). apply bind_ok in H as ([d1 current] & Hl & H). apply lockProducer_same in Hl.
  assert (Hnothing : forall d2, same_usage d2 db -> exists b, batch_ok db (pg_end <$> progress db) b /\ extends b db d2).
  { intros d2 (E1&E2&E3&E4&E5&E6). exists empty_batch. split; [apply empty_batch_ok|].
    eapply (extends_same _ db); [apply same_usage_refl|apply extends_empty|]. repeat split; congruence. }
  destruct (str_eqb (up_state current) "blocked").
  { apply bind_ok in H as (d2 & Hh & H). injection H as <- _. apply Hnothing. eapply same_usage_trans; [by eapply recordHealth_same|done]. }
  destruct (if up_accepted_through current <? rp_LostThrough Health report then _ else _) as [d2 cursor] eqn:Ec in H.
  assert (H2 : same_usage d2 db).
  { destruct (_ <? _) in Ec; injection Ec as <- <-; [|done]. eapply same_usage_trans; [apply insert_gap_same|done]. }
  destruct (classify cursor (rp_Records Health report) [] []) as [duplicates fresh] eqn:Ecl.
  destruct (negb (str_eqb (checkDuplicates _ _ _ _ _) "")).
  { destruct (wrap64 cursor <? 0); [done|]. apply bind_ok in H as (d3 & Hh & H). injection H as <- _. apply Hnothing.
    eapply same_usage_trans; [by eapply recordHealth_same|]. eapply same_usage_trans; [apply update_producer_same|done]. }
  destruct (negb (forallb _ _)); [done|]. destruct H2 as (E1&E2&E3&E4&E5&E6). apply bind_ok in H as (d3 & Hw & H). rewrite <- E3 in Hs. apply prepare_extends_write in Hw as (b & Hb & He); [|done].
  destruct (wrap64 (uwrap64 _) <? 0); [done|]. apply bind_ok in H as (d4 & Hh & H). injection H as <- _. apply recordHealth_same in Hh.
  exists b. split.
  - rewrite <- E3. eapply batch_ok_same; [exact E4|exact Hb].
  - eapply extends_same; [|exact He|]; [by repeat split|]. destruct Hh as (?&?&?&?&?&?). by repeat split.
Qed.
End Transaction.

(** ** Histories *)

Section Histories.
Context (Health : Type) (health_json : Health -> option string) (marshal : UsageRecord -> string) (quote : string -> string)
  (is_uuid : string -> bool) (report_size : UsageReport Health -> Z) (cfg : Config).
#[local] Abbreviation Ingest := (Ingest Health health_json marshal quote is_uuid report_size).

(** What happens to the tables: reports, assignments and their ends, captured
    deletions, maintenance, rebuilds, and any change of the catalog. *)
Inductive event : Type :=
| EIngest (producer : Producer) (report : UsageReport Health)
| EAllocation (allocationID serviceID deploymentID agentID : string) (at_ : time)
| EVolume (volumeID agentID : string)
| EEndAllocation (allocationID : string)
| EEndVolume (volumeID : string)
| ECapture (volumeIDs : list string)
| EMaintain
| ERebuild (from to_ : time)
| ECatalog (t : Product.tables).

Definition occur (e : event) (now : time) (db : usage_db) : usage_db :=
  match e with
  | EIngest producer report => match Ingest producer report now db with Ok (db', _) => db' | Err _ => db end
  | EAllocation a s d g at_ => RecordAllocation a s d g at_ db
  | EVolume v g => RecordVolume v g now db
  | EEndAllocation a => EndAllocation a now db
  | EEndVolume v => EndVolume v now db
  | ECapture ids => CaptureVolumeDeletion ids db
  | EMaintain => (Maintain cfg now db).1
  | ERebuild from to_ => match RebuildHourly cfg from to_ now db with Ok db' => db' | Err _ => db end
  | ECatalog t => db <| catalog := t |>
  end.

(** Who a resource was assigned to, and what it belonged to then. *)
Definition assignment (a : attributions_row) : string * (string * string * string) := (at_agent a, att_names a).

(** The tables with the time of the last transaction, the time from which raw
    intervals are complete, and every assignment there has been. *)
Record ledger := { l_db : usage_db; l_clock : time; l_horizon : time; l_ever : gmap resourceKey (string * (string * string * string)) }.

Definition starts (e : event) : option resourceKey :=
  match e with EAllocation a _ _ _ _ => Some (KindAllocation, a) | EVolume v _ => Some (KindVolume, v) | _ => None end.

(** An identity is not assigned again once its assignment was forgotten. *)
Definition fresh_identity (e : event) (l : ledger) : Prop :=
  match starts e with Some key => attributions (l_db l) !! key = None -> l_ever l !! key = None | None => True end.

(** Sequences are 64-bit numbers. *)
Definition typed_report (report : UsageReport Health) : Prop :=
  0 <= rp_LostThrough Health report < two64 /\ Forall (fun r => 0 <= Sequence r < two64) (rp_Records Health report).
Definition typed (e : event) : Prop := match e with EIngest _ report => typed_report report | _ => True end.

Definition advance (e : event) (now : time) (l : ledger) : ledger :=
  let db := occur e now (l_db l) in
  Build_ledger db now (match e with EMaintain => Z.max (l_horizon l) (now - RawRetention cfg) | _ => l_horizon l end)
    ((assignment <$> attributions db) ∪ l_ever l).

Definition empty_usage (parts : list Z) (t : Product.tables) : usage_db := Build_usage_db ∅ [] ∅ [] parts ∅ ∅ t.

Inductive reachable : ledger -> Prop :=
| reach_init t0 parts t : reachable (Build_ledger (empty_usage parts t) t0 (t0 - RawRetention cfg) ∅)
| reach_step l e now : reachable l -> l_clock l <= now -> fresh_identity e l -> typed e -> reachable (advance e now l).

(** *** The invariant *)

Record ledger_ok (l : ledger) : Prop := {
  lk_ever : forall key a, attributions (l_db l) !! key = Some a -> l_ever l !! key = Some (assignment a);
  lk_rows : forall v, v ∈ intervals (l_db l) -> iv_accepted v = true -> l_ever l !! resource v = Some (iv_agent v, row_names v) /\ iv_start v <= iv_end v;
  lk_partition : Forall in_partition (intervals (l_db l));
  lk_disjoint : disjoint (intervals (l_db l));
  lk_progress : forall v, v ∈ intervals (l_db l) -> iv_accepted v = true -> is_Some (attributions (l_db l) !! resource v) ->
    exists p, progress (l_db l) !! resource v = Some p /\ iv_end v <= pg_end p;
  lk_stamped : stamped (pg_end <$> progress (l_db l));
  lk_hourly : forall k, l_horizon l <= k.1 -> hourly (l_db l) !! k = total k (accepted (intervals (l_db l)));
  lk_horizon : l_horizon l <= l_clock l - RawRetention cfg
}.

(** Attributions of [db] are those of [l], or new. *)
Definition assigns (l : ledger) (db : usage_db) : Prop := forall key a, attributions db !! key = Some a ->
  (exists a0, attributions (l_db l) !! key = Some a0 /\ assignment a0 = assignment a) \/ l_ever l !! key = None.

Lemma ever_grows l db : ledger_ok l -> assigns l db -> forall key x, l_ever l !! key = Some x -> ((assignment <$> attributions db) ∪ l_ever l) !! key = Some x.
Proof.
  intros H Ha key x Hx. rewrite lookup_union, lookup_fmap, Hx. destruct (attributions db !! key) as [a|] eqn:E; [|done].
  destruct (Ha _ _ E) as [(a0 & E0 & Eq)|G]; [|congruence]. apply (lk_ever _ H) in E0. rewrite Hx in E0. injection E0 as ->. by rewrite Eq.
Qed.

Lemma ever_has (l : ledger) db key a : attributions db !! key = Some a -> ((assignment <$> attributions db) ∪ l_ever l) !! key = Some (assignment a).
Proof. intros Ha. apply lookup_union_Some_l. by rewrite lookup_fmap, Ha. Qed.

(** Changes of attributions alone. *)
Lemma attribution_change l db now : ledger_ok l -> l_clock l <= now -> intervals db = intervals (l_db l) -> hourly db = hourly (l_db l) ->
  progress db = progress (l_db l) -> assigns l db ->
  ledger_ok (Build_ledger db now (l_horizon l) ((assignment <$> attributions db) ∪ l_ever l)).
Proof.
  intros H Hn E1 E2 E3 Ha. constructor; cbn; rewrite ?E1, ?E2, ?E3; try apply H.
  - intros key a. apply ever_has.
  - intros v Hv Hva. destruct (lk_rows _ H v Hv Hva) as [G1 G2]. split; [|done]. by apply ever_grows.
  - intros v Hv Hva [a Hs]. apply (lk_progress _ H v Hv Hva). destruct (Ha _ _ Hs) as [(a0 & G & _)|G]; [by exists a0|].
    destruct (lk_rows _ H v Hv Hva). congruence.
  - pose proof (lk_horizon _ H). lia.
Qed.

Lemma assigns_same l db : attributions db = attributions (l_db l) -> assigns l db.
Proof. intros E key a Ha. rewrite E in Ha. left. by exists a. Qed.

Lemma assigns_insert l key a : (attributions (l_db l) !! key = None -> l_ever l !! key = None) ->
  assigns l (insert_attribution key a (l_db l)).
Proof.
  intros Hf key' a'. unfold insert_attribution. destruct (attributions (l_db l) !! key) as [a0|] eqn:E.
  - intros Ha. left. by exists a'.
  - cbn. destruct (decide (key' = key)) as [->|Hne].
    + intros _. right. by apply Hf.
    + rewrite lookup_insert_ne by done. intros Ha. left. by exists a'.
Qed.

Lemma assigns_end l key now : assigns l (end_attribution key now (l_db l)).
Proof.
  intros key' a'. unfold end_attribution. cbn. rewrite lookup_alter_Some. intros [(-> & a0 & E & ->)|[_ E]]; left; [|by exists a'].
  exists a0. split; [done|]. by destruct (at_ended a0).
Qed.

Lemma assigns_capture l ids : assigns l (CaptureVolumeDeletion ids (l_db l)).
Proof.
  intros key' a'. unfold CaptureVolumeDeletion. cbn. rewrite map_lookup_imap. destruct (attributions (l_db l) !! key') as [a0|] eqn:E; [|done]. cbn.
  intros H. left. exists a0. split; [done|]. destruct (_ && _); [|by injection H as <-].
  destruct (default None _); injection H as <-; done.
Qed.
(** *** A report *)

Lemma union_hours (a b : option hourly_row) : (forall h x, a = Some h -> b = Some x -> same_names h x) ->
  union_with (fun h x => Some (merge_hour h x)) a b = plus a b.
Proof. intros H. destruct a as [h|], b as [x|]; cbn; try done. by rewrite group_merge by (by apply H). Qed.

Lemma accepted_elem v rows : v ∈ accepted rows <-> v ∈ rows /\ iv_accepted v = true.
Proof. unfold accepted. by rewrite !list_elem_of_In, filter_In. Qed.

Lemma merged_progress (a b : option progress_row) p : a = Some p \/ b = Some p ->
  exists q, union_with (fun p x => Some (merge_progress p x)) a b = Some q /\ pg_end p <= pg_end q.
Proof.
  intros [-> | ->]; [destruct b as [x|]|destruct a as [x|]]; eexists; (split; [reflexivity|]); cbn; lia.
Qed.

Lemma ledger_extend l b db now : ledger_ok l -> l_clock l <= now -> batch_ok (l_db l) (pg_end <$> progress (l_db l)) b -> extends b (l_db l) db ->
  ledger_ok (Build_ledger db now (l_horizon l) ((assignment <$> attributions db) ∪ l_ever l)).
Proof.
  intros H Hn Hb [E1 E2 E3 E4 _ _]. pose proof (assigns_same l db E4) as Ha.
  assert (Hnew : forall v, v ∈ b_rows b -> iv_accepted v = true -> exists a, attributions (l_db l) !! resource v = Some a /\ assignment a = (iv_agent v, row_names v) /\ iv_start v <= iv_end v).
  { intros v Hv Hva. pose proof (bo_attributed _ _ _ Hb) as Hf. rewrite Forall_forall in Hf. destruct (Hf v Hv Hva) as (a & G1 & G2 & G3 & G4).
    exists a. split; [done|]. split; [|done]. unfold assignment. by rewrite G2, G3. }
  assert (Hrows : forall v, v ∈ intervals db -> iv_accepted v = true ->
    ((assignment <$> attributions db) ∪ l_ever l) !! resource v = Some (iv_agent v, row_names v) /\ iv_start v <= iv_end v).
  { intros v. rewrite E1. intros [Hv|Hv]%elem_of_app Hva.
    - destruct (lk_rows _ H v Hv Hva) as [G1 G2]. split; [|done]. by apply ever_grows.
    - destruct (Hnew v Hv Hva) as (a & G1 & G2 & G3). split; [|done]. rewrite <- G2. apply ever_has. by rewrite E4. }
  constructor; cbn; try done.
  - intros key a. apply ever_has.
  - rewrite E1. apply Forall_app. split; [apply H|apply Hb].
  - rewrite E1. apply StronglySorted_app. split; [|split; [apply H|apply Hb]]. intros v w Hv Hw Hva Hwa Er.
    destruct (bo_after _ _ _ Hb w Hw Hwa) as [G _]. destruct (Hnew w Hw Hwa) as (a & G1 & _). rewrite <- Er in G1.
    destruct (lk_progress _ H v Hv Hva) as (p & Hp & Hle); [by exists a|]. rewrite <- Er, lookup_fmap, Hp in G. cbn in G. lia.
  - intros v Hv Hva [a Hs]. rewrite E3, lookup_union_with. rewrite E1 in Hv. rewrite E4 in Hs. apply elem_of_app in Hv as [Hv|Hv].
    + destruct (lk_progress _ H v Hv Hva) as (p & Hp & Hle); [by exists a|].
      destruct (merged_progress _ (b_progress b !! resource v) p (or_introl Hp)) as (q & Hq & Hpq). exists q. split; [done|lia].
    + destruct (bo_after _ _ _ Hb v Hv Hva) as (_ & p & Hp & Hle).
      destruct (merged_progress (progress (l_db l) !! resource v) _ p (or_intror Hp)) as (q & Hq & Hpq). exists q. split; [done|lia].
  - intros key t. rewrite lookup_fmap, E3, lookup_union_with. pose proof (lk_stamped _ H key) as Hs. rewrite lookup_fmap in Hs.
    destruct (progress (l_db l) !! key) as [p|], (b_progress b !! key) as [x|] eqn:Ex; cbn; intros Et; try done; injection Et as <-; cbn.
    + rewrite stored_max, (Hs (pg_end p) eq_refl), (bo_stored _ _ _ Hb _ _ Ex). done.
    + by apply Hs.
    + by eapply bo_stored.
  - intros k Hk. rewrite E2, E1, accepted_app, total_app, lookup_union_with, (lk_hourly _ H k Hk), (bo_hourly _ _ _ Hb k). apply union_hours.
    intros h x Hh Hx. destruct (((assignment <$> attributions db) ∪ l_ever l) !! k.2) as [[g n]|] eqn:Ek.
    + assert (Hn1 : forall v, v ∈ intervals db -> iv_accepted v = true -> row_key v = k -> row_names v = n).
      { intros v Hv Hva Hvk. destruct (Hrows v Hv Hva) as [G _]. change (resource v) with (row_key v).2 in G. rewrite Hvk, Ek in G. by injection G. }
      assert (names_of h = n) as Eh by (apply (total_names k n _ h) in Hh; [done|]; intros v [Hv Hva]%accepted_elem; apply Hn1; [rewrite E1; set_solver|done]).
      assert (names_of x = n) as Ex by (apply (total_names k n _ x) in Hx; [done|]; intros v [Hv Hva]%accepted_elem; apply Hn1; [rewrite E1; set_solver|done]).
      rewrite <- Ex in Eh. unfold names_of in Eh. by injection Eh as ? ? ?.
    + exfalso. rewrite total_none in Hh; [done|]. intros v [Hv Hva]%accepted_elem Hvk. destruct (Hrows v) as [G _]; [rewrite E1; set_solver|done|].
      change (resource v) with (row_key v).2 in G. rewrite Hvk, Ek in G. done.
  - pose proof (lk_horizon _ H). lia.
Qed.

(** *** Maintenance and rebuilds *)

Lemma total_filter k keep rows : (forall v, v ∈ rows -> row_key v = k -> keep v = true) -> total k (List.filter keep rows) = total k rows.
Proof.
  induction rows as [|v rows IH] using rev_ind; [done|]. intros H. rewrite List.filter_app, total_app, (total_app _ rows), IH by (intros w Hw; apply H; set_solver).
  f_equal. cbn [List.filter]. destruct (keep v) eqn:E; [done|]. symmetry. apply total_none. intros w ->%list_elem_of_singleton Hk. rewrite (H v ltac:(set_solver) Hk) in E. done.
Qed.

Lemma accepted_filter keep rows : accepted (List.filter keep rows) = List.filter keep (accepted rows).
Proof.
  unfold accepted. induction rows as [|v rows IH]; [done|]. cbn. destruct (keep v) eqn:E1, (iv_accepted v) eqn:E2; cbn; rewrite ?E1, ?E2, IH; done.
Qed.

Lemma disjoint_filter keep rows : disjoint rows -> disjoint (List.filter keep rows).
Proof.
  unfold disjoint. induction 1 as [|v rows _ IH Hall]; cbn; [constructor|]. destruct (keep v); [|done]. constructor; [done|].
  rewrite Forall_forall in *. intros w Hw. apply Hall. rewrite list_elem_of_In, filter_In in Hw. apply list_elem_of_In, Hw.
Qed.

Lemma truncate_hour_le t : truncate_hour t <= t.
Proof. unfold truncate_hour. pose proof (Z.mul_div_le t hour ltac:(done)). lia. Qed.

Lemma truncate_hour_range from t : truncate_hour from <= t <-> truncate_hour from <= truncate_hour t.
Proof.
  split; [|pose proof (truncate_hour_le t); lia]. unfold truncate_hour. intros H. apply Z.mul_le_mono_nonneg_r; [done|].
  apply Z.div_le_lower_bound; [done|]. lia.
Qed.

Definition usage_columns (d e : usage_db) : Prop :=
  intervals d = intervals e /\ hourly d = hourly e /\ progress d = progress e /\ attributions d = attributions e.

Lemma ensure_columns now db : usage_columns (EnsurePartitions now db) db.
Proof.
  unfold EnsurePartitions. generalize [-1; 0; 1; 2; 3; 4; 5; 6; 7]. intros l. revert db. induction l as [|o l IH]; intros db; [done|]. cbn [foldl].
  destruct (IH (ensure_day (now / day + o) db)) as (E1&E2&E3&E4). unfold usage_columns in *. cbn in *. rewrite E1, E2, E3, E4.
  unfold ensure_day. repeat destruct (existsb _ _); done.
Qed.

Definition kept (cutoff : time) (v : intervals_row) : bool :=
  match iv_partition v with Some d => negb (expired_day cutoff d) | None => negb (iv_start v <? cutoff) end.

Lemma maintain_columns now db :
  intervals (Maintain cfg now db).1 = List.filter (kept (now - RawRetention cfg)) (intervals db) /\
  hourly (Maintain cfg now db).1 = filter (fun p => (p.1.1 <? now - HourlyRetention cfg) = false) (hourly db) /\
  progress (Maintain cfg now db).1 = live_progress (now - HourlyRetention cfg) (attributions db) (progress db) /\
  attributions (Maintain cfg now db).1 = filter (fun p => ended_before (now - HourlyRetention cfg) p.2 = false) (attributions db).
Proof.
  destruct (ensure_columns now db) as (<-&<-&<-&<-). unfold Maintain. generalize (EnsurePartitions now db). intros d. cbv zeta.
  unfold dropExpiredPartitions. cbv beta iota zeta. split_and!; reflexivity.
Qed.

(** The rows that expire are older than the cutoff. *)
Lemma recent_kept cutoff v : in_partition v -> cutoff <= iv_start v -> kept cutoff v = true.
Proof.
  intros Hp Hs. unfold kept, in_partition in *. destruct (iv_partition v) as [d|]; apply negb_true_iff; [|by apply Z.ltb_ge].
  subst d. unfold expired_day. apply Z.leb_gt. pose proof (Z.mul_succ_div_gt (iv_start v) day ltac:(done)). lia.
Qed.

Lemma live_progress_Some cutoff m pr key p : live_progress cutoff m pr !! key = Some p <->
  pr !! key = Some p /\ forall a, m !! key = Some a -> ended_before cutoff a = false.
Proof.
  unfold live_progress. rewrite map_lookup_filter_Some. cbn. unfold ended_attributions. rewrite map_lookup_filter_None. apply and_iff_compat_l. split.
  - intros [E|E] a Ha; [congruence|]. apply not_true_is_false, (E a Ha).
  - intros E. right. intros a Ha. cbn. by rewrite (E a Ha).
Qed.

Lemma maintain_ok l now : RawRetention cfg <= HourlyRetention cfg -> ledger_ok l -> l_clock l <= now -> ledger_ok (advance EMaintain now l).
Proof.
  intros Hcfg H Hn. unfold advance. cbn [occur]. destruct (maintain_columns now (l_db l)) as (Hi&Eh&Ep&Ea). set (db := (Maintain cfg now (l_db l)).1) in *. clearbody db.
  assert (Hsub : forall v, v ∈ intervals db -> v ∈ intervals (l_db l)).
  { intros v. rewrite Hi, list_elem_of_In, filter_In, <- list_elem_of_In. tauto. }
  assert (Hat : forall key a, attributions db !! key = Some a <-> attributions (l_db l) !! key = Some a /\ ended_before (now - HourlyRetention cfg) a = false).
  { intros key a. by rewrite Ea, map_lookup_filter_Some. }
  assert (Ha : assigns l db) by (intros key a [Hk _]%Hat; left; by exists a).
  constructor; cbn [l_db l_clock l_horizon l_ever].
  - intros key a. apply ever_has.
  - intros v Hv Hva. destruct (lk_rows _ H v (Hsub v Hv) Hva) as [G1 G2]. split; [|done]. by apply ever_grows.
  - rewrite Forall_forall. intros v Hv. pose proof (lk_partition _ H) as Hp. rewrite Forall_forall in Hp. apply Hp, Hsub, Hv.
  - rewrite Hi. apply disjoint_filter, H.
  - intros v Hv Hva [a [Hs Hend]%Hat]. destruct (lk_progress _ H v (Hsub v Hv) Hva) as (p & Hp & Hle); [by exists a|]. exists p. split; [|done].
    rewrite Ep. apply live_progress_Some. split; [done|]. intros a' Ha'. rewrite Hs in Ha'. by injection Ha' as <-.
  - intros key t. rewrite lookup_fmap. intros Ht. apply (lk_stamped _ H key). rewrite lookup_fmap.
    destruct (progress db !! key) as [p|] eqn:E; [|done]. rewrite Ep in E. apply live_progress_Some in E as [-> _]. done.
  - intros k Hk. rewrite Eh, Hi, accepted_filter, total_filter.
    + rewrite <- (lk_hourly _ H k) by lia. destruct (hourly (l_db l) !! k) as [h|] eqn:E.
      * apply map_lookup_filter_Some. split; [done|]. cbn. apply Z.ltb_ge. lia.
      * apply map_lookup_filter_None. by left.
    + intros v [Hv Hva]%accepted_elem Hvk. pose proof (lk_partition _ H) as Hp. rewrite Forall_forall in Hp. apply recent_kept; [by apply Hp|].
      pose proof (truncate_hour_le (iv_start v)) as Ht. change (truncate_hour (iv_start v)) with (row_key v).1 in Ht. rewrite Hvk in Ht. lia.
  - pose proof (lk_horizon _ H). lia.
Qed.

(** Where the totals are those of the intervals, rebuilding them changes nothing. *)
Lemma rebuild_same l from to_ now db : ledger_ok l -> l_clock l <= now -> RebuildHourly cfg from to_ now (l_db l) = Ok db -> db = l_db l.
Proof.
  intros H Hn. unfold RebuildHourly. destruct (_ <? _) eqn:E; [done|]. intros Hr. injection Hr as <-. apply Z.ltb_ge in E. pose proof (lk_horizon _ H) as Hh.
  assert (Hd : 0 < 24 * hour) by done. destruct (l_db l) as [p1 p2 p3 rows parts hours atts cat] eqn:Edb.
  refine (f_equal (fun m => Build_usage_db p1 p2 p3 rows parts m atts cat) _). apply map_eq. intros k. rewrite lookup_union, aggregate_total.
  set (keep := fun v => iv_accepted v && (truncate_hour from <=? iv_start v) && (iv_start v <? truncate_hour to_)).
  assert (Hkey : forall v, row_key v = k -> truncate_hour (iv_start v) = k.1) by (intros v <-; done).
  destruct ((truncate_hour from <=? k.1) && (k.1 <? truncate_hour to_)) eqn:Er.
  - apply andb_true_iff in Er as Er'. destruct Er' as [Er1 Er2]. apply Z.leb_le in Er1. apply Z.ltb_lt in Er2.
    rewrite (proj2 (map_lookup_filter_None _ _ k)) by (right; cbn; rewrite Er; done). rewrite option_union_right_id.
    pose proof (lk_hourly _ H k ltac:(lia)) as Hk. rewrite Edb in Hk. cbn in Hk. rewrite Hk.
    transitivity (total k (List.filter keep (accepted rows))).
    + f_equal. unfold accepted. clear. change (List.filter keep rows = List.filter keep (List.filter iv_accepted rows)). induction rows as [|v rows IH]; [done|]. cbn [List.filter].
      destruct (iv_accepted v) eqn:Ev; cbn [List.filter]; [by rewrite IH|]. unfold keep at 1. by rewrite Ev, IH.
    + apply total_filter. intros v [Hv Hva]%accepted_elem Hvk%Hkey. unfold keep. rewrite Hva. cbn. apply andb_true_iff. split.
      * apply Z.leb_le, truncate_hour_range. lia.
      * apply Z.ltb_lt. destruct (Z.lt_ge_cases (iv_start v) (truncate_hour to_)) as [G|G]; [done|]. apply truncate_hour_range in G. lia.
  - rewrite total_none.
    + rewrite option_union_left_id. destruct (hours !! k) as [h|] eqn:Ek.
      * apply map_lookup_filter_Some. split; [done|]. cbn. by rewrite Er.
      * apply map_lookup_filter_None. by left.
    + intros v Hv Hvk%Hkey. rewrite list_elem_of_In, filter_In in Hv. destruct Hv as [_ Hv]. unfold keep in Hv. rewrite !andb_true_iff, Z.leb_le, Z.ltb_lt in Hv.
      destruct Hv as [[_ G1] G2]. apply truncate_hour_range in G1. pose proof (truncate_hour_le (iv_start v)).
      rewrite (proj2 (Z.leb_le _ _)), (proj2 (Z.ltb_lt k.1 (truncate_hour to_))) in Er by lia. done.
Qed.

Lemma ledger_step l e now : RawRetention cfg <= HourlyRetention cfg -> ledger_ok l -> l_clock l <= now -> fresh_identity e l -> ledger_ok (advance e now l).
Proof.
  intros Hcfg H Hn Hf. destruct e; unfold advance; cbn [occur]; try (by apply maintain_ok).
  - destruct (Ingest producer report now (l_db l)) as [[db ack]|err] eqn:E.
    + destruct (ingest_effect _ _ _ _ _ _ _ _ _ _ _ _ (lk_stamped _ H) E) as (b & Hb & He). by eapply ledger_extend.
    + apply attribution_change; try done. by apply assigns_same.
  - unfold RecordAllocation. destruct (List.find _ _ ≫= _) as [[s [ev p]]|]; (apply attribution_change; try done; try (by apply assigns_same)).
    + unfold insert_attribution. by destruct (attributions _ !! _).
    + unfold insert_attribution. by destruct (attributions _ !! _).
    + unfold insert_attribution. by destruct (attributions _ !! _).
    + by apply assigns_insert.
  - unfold RecordVolume. destruct (List.find _ _ ≫= _) as [[s [ev p]]|]; (apply attribution_change; try done; try (by apply assigns_same)).
    + unfold insert_attribution. by destruct (attributions _ !! _).
    + unfold insert_attribution. by destruct (attributions _ !! _).
    + unfold insert_attribution. by destruct (attributions _ !! _).
    + by apply assigns_insert.
  - apply attribution_change; try done. apply assigns_end.
  - apply attribution_change; try done. apply assigns_end.
  - apply attribution_change; try done. apply assigns_capture.
  - destruct (RebuildHourly cfg from to_ now (l_db l)) as [db|err] eqn:E; (apply attribution_change; try done); try (by apply assigns_same);
      apply (rebuild_same l) in E as ->; try done. by apply assigns_same.
  - apply attribution_change; try done. by apply assigns_same.
Qed.

Lemma ledger_reachable l : RawRetention cfg <= HourlyRetention cfg -> reachable l -> ledger_ok l.
Proof.
  intros Hcfg. induction 1 as [t0 parts t|l e now _ IH Hn Hf _]; [|by apply ledger_step]. constructor; cbn; try by constructor.
  - intros key a. by rewrite (lookup_empty key).
  - by intros v ?%elem_of_nil.
  - by intros v ?%elem_of_nil.
  - intros key t'. by rewrite lookup_fmap, (lookup_empty key).
  - lia.
Qed.

(** ** Claims on totals and intervals *)

(** C16: whatever was reported, retried, expired or rebuilt before, rebuilding
    the hourly totals from the stored intervals either is refused, because it
    reaches hours whose intervals may have expired, or changes nothing at all:
    the totals kept report by report are the sums over the accepted intervals. *)
Theorem rebuild_changes_nothing l now from to_ : RawRetention cfg <= HourlyRetention cfg -> reachable l -> l_clock l <= now ->
  RebuildHourly cfg from to_ now (l_db l) =
    if truncate_hour from <? now - RawRetention cfg + 24 * hour then Err PastRetention else Ok (l_db l).
Proof.
  intros Hcfg Hr Hn. apply ledger_reachable in Hr; [|done]. destruct (RebuildHourly cfg from to_ now (l_db l)) as [db|[]] eqn:E.
  - pose proof E as E'. apply rebuild_same in E' as ->; [|done|done]. unfold RebuildHourly in E. by destruct (_ <? _).
  - unfold RebuildHourly in E. by destruct (_ <? _).
Qed.

(** C17: of two accepted intervals of one resource the one stored first ends
    before the other starts, whatever journals they came from; both come from
    one agent, are billed to the same project, environment and service, and
    these are what the resource was assigned to for as long as the assignment is
    kept. *)
Theorem intervals_of_resource_disjoint l i j v w : RawRetention cfg <= HourlyRetention cfg -> reachable l ->
  intervals (l_db l) !! i = Some v -> intervals (l_db l) !! j = Some w -> (i < j)%nat -> iv_accepted v = true -> iv_accepted w = true ->
  resource v = resource w ->
  iv_start v <= iv_end v /\ iv_end v <= iv_start w /\ iv_agent v = iv_agent w /\ row_names v = row_names w /\
  forall a, attributions (l_db l) !! resource v = Some a -> iv_agent v = at_agent a /\ row_names v = att_names a.
Proof.
  intros Hcfg Hr Hi Hj Hij Hv Hw E. apply ledger_reachable in Hr; [|done].
  pose proof (list_elem_of_lookup_2 _ _ _ Hi) as Ei. pose proof (list_elem_of_lookup_2 _ _ _ Hj) as Ej.
  destruct (lk_rows _ Hr v Ei Hv) as [Gv Gle]. destruct (lk_rows _ Hr w Ej Hw) as [Gw _]. split; [done|]. split.
  { pose proof (lk_disjoint _ Hr) as Hd. unfold disjoint in Hd. rewrite <- (take_drop (S i) (intervals (l_db l))) in Hd. apply StronglySorted_app in Hd as [Hd _].
    apply (Hd v w); try done.
    - apply (list_elem_of_lookup_2 _ i). rewrite lookup_take_lt by lia. done.
    - apply (list_elem_of_lookup_2 _ (j - S i)%nat). rewrite lookup_drop. rewrite <- Hj. f_equal. lia. }
  rewrite <- E, Gv in Gw. injection Gw as E1 E2 E3 E4. split; [done|]. split; [unfold row_names; by rewrite E2, E3, E4|].
  intros a Ha. apply (lk_ever _ Hr) in Ha. rewrite Gv in Ha. injection Ha as F1 F2 F3 F4. split; [done|]. unfold row_names, att_names. by rewrite F2, F3, F4.
Qed.

End Histories.

(** ** An example *)

Module Example.
#[local] Existing Instance Product.tables_eta.

Definition quoted (s : string) : string := "'" +:+ s +:+ "'".
Definition T : time := unix_epoch + 365 * day.
Definition agent_row : AgentRegistration :=
  Build_AgentRegistration "agent" "node" "store" 7 "eu" "a" "rack" 100 256 "" "" "" "" 51820 "" "" 2000 4096 "" "v1" T T 1.
Definition tables0 : Product.tables :=
  Product.demo_tables <| Product.agent_registrations := [agent_row] |>
    <| Product.agent_administration := [Build_AgentAdministration "vm" "agent" "active" "" "" None T] |>.
Definition cfg0 : Config := withDefaults (Build_Config 0 0 0).
Definition producer : Producer := Build_Producer "inst" "agent" 7.

(** One minute of an allocation. *)
Definition record (sequence from : Z) : UsageRecord :=
  Build_UsageRecord "inst" "journal" sequence KIND_MEASUREMENT RESOURCE_ALLOCATION "a1" "epoch" "boot" (Some (NewTimestamp (T + from * minute)))
    (Some (NewTimestamp (T + (from + 1) * minute))) 60000 UsageMeterVersion 0 1000 "5000" 60000 "" 0 no_egress "".
(** Two records were lost before the first that is sent. *)
Definition report : UsageReport unit := Build_UsageReport unit "agent" "inst" "journal" 1 [record 3 0; record 4 1] (Some (NewTimestamp (T + 2 * minute))) 2 None.

#[local] Abbreviation advance := (advance unit (fun _ => Some "{}") ResourceId quoted (fun _ => true) (fun _ => 100) cfg0).
#[local] Abbreviation reachable := (reachable unit (fun _ => Some "{}") ResourceId quoted (fun _ => true) (fun _ => 100) cfg0).
Definition l0 : ledger := Build_ledger (empty_usage [] tables0) T (T - RawRetention cfg0) ∅.
Definition l1 : ledger := advance (EAllocation unit "a1" "s" "d1" "agent" T) T l0.
Definition l2 : ledger := advance (EIngest unit producer report) (T + 5 * minute) l1.

Lemma report_typed : typed_report unit report.
Proof. split; [done|]. repeat apply Forall_cons_2; done. Qed.

Lemma l2_reachable : reachable l2.
Proof.
  apply reach_step; [|by vm_compute|done|apply report_typed]. apply reach_step; [apply reach_init|by vm_compute|by intros _|done].
Qed.

Lemma lookup_default {A} (o : option A) d : Product.is_null o = false -> o = Some (default d o).
Proof. by destruct o. Qed.

Definition no_row : intervals_row :=
  Build_intervals_row "" "" 0 [] false "" "" "" "" "" "" "" "" "" "" 0 0 0 "" 0 no_quantities 0 0 false "" None 0 None.
Definition row (i : nat) : intervals_row := default no_row (intervals (l_db l2) !! i).

Lemma row_0 : intervals (l_db l2) !! 0%nat = Some (row 0).
Proof. unfold row. refine (lookup_default (intervals (l_db l2) !! _) no_row _). vm_compute. reflexivity. Qed.

Lemma row_1 : intervals (l_db l2) !! 1%nat = Some (row 1).
Proof. unfold row. refine (lookup_default (intervals (l_db l2) !! _) no_row _). vm_compute. reflexivity. Qed.

Lemma rebuild_changes_nothing_witness : RebuildHourly cfg0 T (T + hour) (T + 10 * minute) (l_db l2) = Ok (l_db l2) /\
  h_cpu <$> hourly (l_db l2) !! (truncate_hour T, ("allocation", "a1")) = Some 2000.
Proof.
  split; [|vm_compute; reflexivity]. rewrite (rebuild_changes_nothing unit (fun _ => Some "{}") ResourceId quoted (fun _ => true) (fun _ => 100) cfg0 l2 (T + 10 * minute) T (T + hour)).
  - replace (truncate_hour T <? T + 10 * minute - RawRetention cfg0 + 24 * hour) with false by (vm_compute; reflexivity). reflexivity.
  - vm_compute. discriminate.
  - exact l2_reachable.
  - vm_compute. discriminate.
Defined.

Lemma intervals_of_resource_disjoint_witness : iv_end (row 0) <= iv_start (row 1) /\ iv_agent (row 0) = iv_agent (row 1) /\ iv_start (row 1) = T + minute.
Proof.
  destruct (intervals_of_resource_disjoint unit (fun _ => Some "{}") ResourceId quoted (fun _ => true) (fun _ => 100) cfg0 l2 0 1 (row 0) (row 1)) as (_ & H1 & H2 & _).
  - vm_compute. discriminate.
  - exact l2_reachable.
  - exact row_0.
  - exact row_1.
  - lia.
  - vm_compute. reflexivity.
  - vm_compute. reflexivity.
  - vm_compute. reflexivity.
  - split; [exact H1|]. split; [exact H2|]. vm_compute. reflexivity.
Defined.
End Example.

End UsageLedger.
