(* ===== verification/UsageCursors.v ===== *)
(** * Acknowledged usage is recorded

    The cursor of a journal in [internal/controlplane/usage/ingest.go]: it only
    advances, every sequence it passes is stored with its digest or is part of a
    recorded loss, no sequence is stored twice, and a report that is sent again
    changes nothing that counts. *)

From S2P Require Import Prelude GoText GoFloat DurableWork Billing ClosePeriod GoTime Sha256 RowMap Journal Product LogPipeline UsageRecords UsageIngest UsageLedger.

Module UsageCursors.
Import Journal UsageRecords UsageIngest UsageLedger.

(** ** Records that continue the cursor *)

Lemma classify_continues cursor records : 0 <= cursor -> Forall (fun r => 0 <= Sequence r < two64) records -> forall duplicates fresh,
  cursor + len fresh < two64 -> map Sequence fresh = seqZ (cursor + 1) (len fresh) ->
  let fresh' := (classify cursor records duplicates fresh).2 in
  cursor + len fresh' < two64 /\ map Sequence fresh' = seqZ (cursor + 1) (len fresh').
Proof.
  intros Hc. induction 1 as [|r records Hr _ IH]; intros duplicates fresh Hl Hm; [done|]. cbn [classify].
  destruct (Sequence r <=? cursor) eqn:E1; [by apply IH|]. destruct (_ =? _) eqn:E2; [|by apply IH]. apply Z.leb_gt in E1. apply Z.eqb_eq in E2.
  pose proof (len_nonneg fresh). assert (Hn : cursor + len fresh + 1 < two64).
  { destruct (Z.lt_ge_cases (cursor + len fresh + 1) two64) as [G|G]; [done|]. replace (cursor + len fresh + 1) with (1 * two64) in E2 by lia.
    unfold uwrap64 in E2. rewrite Z.mod_mul in E2 by done. lia. }
  rewrite uwrap64_small in E2 by (unfold in_uint64; lia). assert (El : len (fresh ++ [r]) = len fresh + 1) by (unfold len; rewrite length_app; cbn; lia).
  apply IH; rewrite El; [lia|]. rewrite map_app, Hm. cbn. rewrite seqZ_app by lia. f_equal. rewrite seqZ_cons, seqZ_nil by lia. f_equal. lia.
Qed.

Lemma classify_from cursor records : forall duplicates fresh r, r ∈ (classify cursor records duplicates fresh).2 -> r ∈ fresh \/ r ∈ records.
Proof.
  induction records as [|x records IH]; intros duplicates fresh r; [by left|]. cbn [classify].
  destruct (Sequence x <=? cursor); [intros [G|G]%IH; set_solver|]. destruct (_ =? _); intros [G|G]%IH; set_solver.
Qed.

Lemma classify_old cursor records : Forall (fun r => Sequence r <= cursor) records -> forall duplicates fresh, (classify cursor records duplicates fresh).2 = fresh.
Proof. induction 1 as [|r records Hr _ IH]; intros duplicates fresh; [done|]. cbn [classify]. rewrite (proj2 (Z.leb_le _ _)) by done. apply IH. Qed.

(** ** The rows of a batch *)

(** A sequence of a journal with the digest of its record. *)
Definition row_id (v : intervals_row) : string * string * Z * list Z := (iv_installation v, iv_producer v, iv_sequence v, iv_digest v).

Section Rows.
Context (Health : Type) (health_json : Health -> option string) (marshal : UsageRecord -> string) (quote : string -> string)
  (is_uuid : string -> bool) (report_size : UsageReport Health -> Z).
#[local] Abbreviation Ingest := (Ingest Health health_json marshal quote is_uuid report_size).
#[local] Abbreviation prepare_loop := (prepare_loop marshal quote).
#[local] Abbreviation prepareBatch := (prepareBatch marshal quote).
#[local] Abbreviation check_records := (check_records Health).

Definition record_id (r : UsageRecord) : string * string * Z * list Z := (InstallationId r, ProducerId r, wrap64 (Sequence r), UsageRecordDigest quote r).

Lemma prepare_rows producer now limits db records : forall ends b,
  map row_id (b_rows (prepare_loop producer now limits db records ends b)) = map row_id (b_rows b) ++ map record_id records.
Proof.
  induction records as [|r records IH]; intros ends b; cbn [UsageIngest.prepare_loop map]; [by rewrite app_nil_r|].
  destruct (judge producer now limits db ends r) as [[q a]|reason]; rewrite IH; cbn [accept reject b_rows]; rewrite map_app, <- app_assoc; f_equal; cbn [map app]; f_equal.
  unfold reject_row. by destruct (_ && _).
Qed.

Lemma write_rows producer fresh now limits d e : write (prepareBatch producer fresh now limits d) d = Ok e ->
  exists rows, intervals e = intervals d ++ rows /\ map row_id rows = map record_id fresh /\ producers e = producers d /\ producer_gaps e = producer_gaps d.
Proof.
  unfold write. cbv zeta. pose proof (prepare_rows producer now limits d fresh (pg_end <$> progress d) empty_batch) as Hr.
  change (UsageIngest.prepare_loop marshal quote producer now limits d fresh (pg_end <$> progress d) empty_batch) with (prepareBatch producer fresh now limits d) in Hr.
  destruct (len _ =? 0) eqn:E0.
  - intros H. injection H as <-. exists []. apply Z.eqb_eq in E0. destruct (b_rows (prepareBatch producer fresh now limits d)); [|done]. by rewrite app_nil_r.
  - destruct (negb _); [done|]. intros H. injection H as <-. exists (map store_row (b_rows (prepareBatch producer fresh now limits d))). split; [done|].
    split; [|done]. rewrite map_map. exact Hr.
Qed.

Lemma checked_records report records : forall previous, check_records report previous records = Ok tt ->
  Forall (fun r => InstallationId r = rp_InstallationId Health report /\ ProducerId r = rp_ProducerId Health report) records.
Proof.
  induction records as [|r records IH]; intros previous H; [done|]. cbn in H. destruct (negb _ || negb _) eqn:E; [done|]. destruct ((Sequence r =? 0) || _) in H; [done|].
  apply orb_false_iff in E as [E1 E2]. apply negb_false_iff, str_eqb_eq in E1, E2. constructor; [done|]. by eapply IH.
Qed.
End Rows.

(** ** What a report does to the cursors *)

Definition two63 : Z := 9223372036854775808.
Definition LostReason : string := "acknowledged_records_lost".

Definition cursor_of (db : usage_db) (key : string * string) : Z :=
  match producers db !! key with Some r => up_accepted_through r | None => 0 end.

(** The place of a row in its journal. *)
Definition position (v : intervals_row) : string * string * Z := (iv_installation v, iv_producer v, iv_sequence v).

Record cursors_ok (db : usage_db) : Prop := {
  co_row : forall key r, producers db !! key = Some r -> 0 <= up_accepted_through r < two63;
  co_sequence : forall v, v ∈ intervals db -> 0 < iv_sequence v <= cursor_of db (iv_installation v, iv_producer v);
  co_once : NoDup (map position (intervals db));
  co_gaps : forall g, g ∈ producer_gaps db -> gp_reason g = LostReason -> gp_first g <= cursor_of db (gp_installation g, gp_producer g)
}.

Lemma cursor_bounds db key : cursors_ok db -> 0 <= cursor_of db key < two63.
Proof. intros H. unfold cursor_of. destruct (producers db !! key) as [r|] eqn:E; [by apply (co_row _ H key)|done]. Qed.

Lemma cursor_alter f key db k : (forall r, up_accepted_through (f r) = up_accepted_through r) -> cursor_of (update_producer key f db) k = cursor_of db k.
Proof.
  intros Hf. unfold cursor_of, update_producer. cbn. destruct (decide (k = key)) as [->|Hne].
  - rewrite lookup_alter_eq. destruct (producers db !! key); [by apply Hf|done].
  - by rewrite lookup_alter_ne.
Qed.

Lemma cursor_update f key db r c : producers db !! key = Some r -> (forall r, up_accepted_through (f r) = c) ->
  cursor_of (update_producer key f db) key = c /\ forall k, k <> key -> cursor_of (update_producer key f db) k = cursor_of db k.
Proof.
  intros Hr Hf. unfold cursor_of, update_producer. cbn. rewrite lookup_alter_eq, Hr. split; [apply Hf|]. intros k Hk. by rewrite lookup_alter_ne.
Qed.

(** Gaps and positions stay when a step leaves them alone. *)
Definition same_records (d e : usage_db) : Prop := intervals d = intervals e /\ producer_gaps d = producer_gaps e.

Section Outcome.
Context (Health : Type) (health_json : Health -> option string) (marshal : UsageRecord -> string) (quote : string -> string)
  (is_uuid : string -> bool) (report_size : UsageReport Health -> Z).
#[local] Abbreviation Ingest := (Ingest Health health_json marshal quote is_uuid report_size).
#[local] Abbreviation record_id := (record_id quote).

Lemma recordHealth_cursor report now db db' : recordHealth Health health_json report now db = Ok db' ->
  same_records db' db /\ forall k, cursor_of db' k = cursor_of db k.
Proof.
  unfold recordHealth. destruct (match rp_Health Health report with Some h => health_json h | None => Some "{}" end); [|done].
  intros H. injection H as <-. split; [done|]. intros k. by apply cursor_alter.
Qed.

Lemma current_journal_in producer db previous r : current_journal producer db = Some (previous, r) -> producers db !! (pd_InstallationID producer, previous) = Some r.
Proof.
  unfold current_journal. destruct (List.find _ _) as [[[i p] x]|] eqn:E; [|done]. intros H. injection H as <- <-.
  apply find_some in E as [Hin Hp]. apply list_elem_of_In, elem_of_map_to_list in Hin. cbn in Hp. rewrite !andb_true_iff in Hp. destruct Hp as [[Hp _] _].
  apply str_eqb_eq in Hp as ->. done.
Qed.

(** Taking the journal's row changes no cursor; a journal it replaces leaves a gap. *)
Lemma lockProducer_cursor producer report now db db' row : lockProducer Health producer report now db = Ok (db', row) ->
  let key := (pd_InstallationID producer, rp_ProducerId Health report) in
  producers db' !! key = Some row /\ up_accepted_through row = cursor_of db key /\ (forall k, cursor_of db' k = cursor_of db k) /\ intervals db' = intervals db /\
  exists gaps, producer_gaps db' = producer_gaps db ++ gaps /\ forall g, g ∈ gaps -> gp_reason g <> LostReason.
Proof.
  unfold lockProducer. cbv zeta. set (key := (pd_InstallationID producer, rp_ProducerId Health report)). destruct (producers db !! key) as [r|] eqn:E.
  - destruct (negb _); [done|]. destruct (str_eqb _ _); [done|]. intros H. injection H as <- <-. split; [done|]. split; [unfold cursor_of; by rewrite E|].
    split; [done|]. split; [done|]. exists []. rewrite app_nil_r. split; [done|]. by intros g ?%elem_of_nil.
  - intros H. injection H as <- <-. cbn [producers intervals producer_gaps]. split; [apply lookup_insert_eq|]. split; [unfold cursor_of; by rewrite E|].
    assert (Hnew : forall d, (forall k, k <> key -> cursor_of d k = cursor_of db k) ->
      forall k, cursor_of (d <| producers := <[key := Build_producers_row (pd_AgentID producer) "active" 0 None None None "{}" "" "" now now]> (producers d) |>) k = cursor_of db k).
    { intros d Hd k. unfold cursor_of at 1. cbn. destruct (decide (k = key)) as [->|Hne].
      - rewrite lookup_insert_eq. unfold cursor_of. by rewrite E.
      - rewrite lookup_insert_ne by done. by apply Hd. }
    destruct (current_journal producer db) as [[previous r]|] eqn:Ep.
    + apply current_journal_in in Ep. unfold insert_gap. destruct (existsb _ _).
      * split; [apply Hnew|]. 2:{ split; [done|]. exists []. rewrite app_nil_r. split; [done|]. by intros g ?%elem_of_nil. }
        intros k _. unfold cursor_of. cbn. destruct (decide (k = (pd_InstallationID producer, previous))) as [->|Hne]; [by rewrite lookup_insert_eq, Ep|by rewrite lookup_insert_ne].
      * split; [apply Hnew|]. 2:{ split; [done|]. eexists. split; [reflexivity|]. by intros g ->%list_elem_of_singleton. }
        intros k _. unfold cursor_of. cbn. destruct (decide (k = (pd_InstallationID producer, previous))) as [->|Hne]; [by rewrite lookup_insert_eq, Ep|by rewrite lookup_insert_ne].
    + split; [by apply Hnew|]. split; [done|]. exists []. rewrite app_nil_r. split; [done|]. by intros g ?%elem_of_nil.
Qed.

(** What an accepted report leaves: the cursor passes a recorded loss up to
    [mid] and then the records [fresh], stored as [rows]. *)
Record recorded (producer : Producer) (report : UsageReport Health) (db db' : usage_db) (mid : Z) (rows : list intervals_row) (fresh : list UsageRecord) : Prop := {
  rc_cursor : cursor_of db' (pd_InstallationID producer, rp_ProducerId Health report) = mid + len rows;
  rc_bounds : cursor_of db (pd_InstallationID producer, rp_ProducerId Health report) <= mid /\ mid + len rows < two63;
  rc_others : forall k, k <> (pd_InstallationID producer, rp_ProducerId Health report) -> cursor_of db' k = cursor_of db k;
  rc_rows : intervals db' = intervals db ++ rows;
  rc_ids : map row_id rows = map record_id fresh;
  rc_sequences : map Sequence fresh = seqZ (mid + 1) (len rows);
  rc_fresh : forall r, r ∈ fresh -> r ∈ rp_Records Health report /\ InstallationId r = pd_InstallationID producer /\ ProducerId r = rp_ProducerId Health report;
  rc_gaps : exists gaps, producer_gaps db' = producer_gaps db ++ gaps /\
    (forall g, g ∈ gaps -> gp_reason g = LostReason ->
      gp_installation g = pd_InstallationID producer /\ gp_producer g = rp_ProducerId Health report /\
      gp_first g = cursor_of db (pd_InstallationID producer, rp_ProducerId Health report) + 1 /\ gp_first g <= gp_last g /\ gp_last g = mid) /\
    (cursor_of db (pd_InstallationID producer, rp_ProducerId Health report) < mid -> exists g, g ∈ gaps /\ gp_reason g = LostReason)
}.
Lemma nothing_lost (gaps : list producer_gaps_row) : (forall g, g ∈ gaps -> gp_reason g <> LostReason) -> forall (P : producer_gaps_row -> Prop) g, g ∈ gaps -> gp_reason g = LostReason -> P g.
Proof. intros H P g Hg Hr. by destruct (H g Hg). Qed.

(** The gap of a loss is new: its first sequence is beyond those of the others. *)
Lemma loss_recorded producer report c0 lost start end_ now d : c0 + 1 < two63 -> 0 <= c0 ->
  (forall g, g ∈ producer_gaps d -> gp_reason g = LostReason -> gp_installation g = pd_InstallationID producer -> gp_producer g = rp_ProducerId Health report -> gp_first g <= c0) ->
  let g := Build_producer_gaps_row (pd_InstallationID producer) (rp_ProducerId Health report) (pd_AgentID producer) (wrap64 (uwrap64 (c0 + 1))) (wrap64 lost) start end_ LostReason now in
  producer_gaps (insert_gap g d) = producer_gaps d ++ [store_gap g].
Proof.
  intros Hc H0 Hg g. assert (Hf : gp_first g = c0 + 1).
  { cbn. unfold two63 in Hc. rewrite uwrap64_small by (unfold in_uint64, two64; lia). apply wrap64_small. unfold in_int64. lia. }
  unfold insert_gap. destruct (existsb (same_gap g) (producer_gaps d)) eqn:E; [|done]. apply existsb_exists in E as (x & Hx & Hs).
  unfold same_gap in Hs. rewrite !andb_true_iff, !str_eqb_eq, Z.eqb_eq in Hs. destruct Hs as [[[S1 S2] S3] S4]. cbn [gp_installation gp_producer gp_reason] in *.
  specialize (Hg x (proj2 (list_elem_of_In _ _) Hx) (eq_sym S4) (eq_sym S1) (eq_sym S2)). lia.
Qed.

Lemma ingest_recorded producer report now db db' ack : cursors_ok db -> typed_report Health report -> Ingest producer report now db = Ok (db', ack) ->
  exists mid rows fresh, recorded producer report db db' mid rows fresh /\
    ack_AcceptedThrough ack = cursor_of db' (pd_InstallationID producer, rp_ProducerId Health report).
Proof.
  intros Hok [Hlost Htyped] H. unfold UsageIngest.Ingest in H. apply bind_ok in H as ([] & Henv & H).
  unfold checkEnvelope in Henv. destruct (negb _ || negb _) eqn:Ei; [done|]. apply orb_false_iff in Ei as [_ Ei]. apply negb_false_iff, str_eqb_eq in Ei.
  destruct (negb (is_uuid _)); [done|]. destruct (_ || _) in Henv; [done|]. apply checked_records in Henv.
  unfold UsageIngest.ingestTx in H. cbv zeta in H. apply bind_ok in H as (limits & _ & H). apply bind_ok in H as ([d1 current] & Hl & H).
  apply lockProducer_cursor in Hl as (Hrow & Hcur & Hall & Hint & gs1 & Hgs1 & Hg1). cbv zeta in Hrow, Hcur.
  set (key := (pd_InstallationID producer, rp_ProducerId Health report)) in *. pose proof (cursor_bounds db key Hok) as Hb. rewrite Hcur in H.
  set (c0 := cursor_of db key) in *.
  assert (Hsame : forall d2, intervals d2 = intervals d1 -> producer_gaps d2 = producer_gaps d1 -> (forall k, cursor_of d2 k = cursor_of d1 k) ->
    recorded producer report db d2 c0 [] []).
  { intros d2 E1 E2 E3. constructor; fold key; fold c0; rewrite ?E1, ?E2, ?E3, ?Hall; try fold c0; try change (len []) with 0.
    - lia.
    - lia.
    - intros k _. by rewrite E3.
    - by rewrite app_nil_r, Hint.
    - done.
    - by rewrite seqZ_nil.
    - by intros r ?%elem_of_nil.
    - exists gs1. split; [done|]. split; [by apply nothing_lost|lia]. }
  destruct (str_eqb (up_state current) "blocked").
  { apply bind_ok in H as (d2 & Hh & H). injection H as <- <-. apply recordHealth_cursor in Hh as ([E1 E2] & E3). exists c0, [], []. split; [by apply Hsame|].
    cbn. by rewrite E3, Hall. }
  set (lost := rp_LostThrough Health report) in *.
  destruct (if c0 <? lost then _ else _) as [d2 mid] eqn:Ec in H.
  assert (Hmid : mid < two63 -> c0 <= mid /\ intervals d2 = intervals db /\ producers d2 = producers d1 /\ exists gaps, producer_gaps d2 = producer_gaps db ++ gaps /\
    (forall g, g ∈ gaps -> gp_reason g = LostReason -> gp_installation g = pd_InstallationID producer /\ gp_producer g = rp_ProducerId Health report /\ gp_first g = c0 + 1 /\ gp_first g <= gp_last g /\ gp_last g = mid) /\
    (c0 < mid -> exists g, g ∈ gaps /\ gp_reason g = LostReason)).
  { intros Hm. destruct (c0 <? lost) eqn:El in Ec; [apply Z.ltb_lt in El|apply Z.ltb_ge in El].
    - injection Ec as <- <-. split; [lia|]. split; [unfold insert_gap; destruct (existsb _ _); done|]. split; [unfold insert_gap; destruct (existsb _ _); done|].
      rewrite loss_recorded; [|lia|lia|].
      + rewrite Hgs1, <- app_assoc. eexists. split; [reflexivity|]. split.
        * intros g [Hg|Hg]%elem_of_app Hr; [by destruct (Hg1 g Hg)|]. apply list_elem_of_singleton in Hg as ->. cbn. unfold two63 in *.
          rewrite uwrap64_small by (unfold in_uint64, two64; lia). rewrite !wrap64_small by (unfold in_int64; lia). repeat split; lia.
        * intros _. eexists. split; [apply elem_of_app; right; by apply list_elem_of_singleton|done].
      + intros g Hg Hr E1 E2. rewrite Hgs1 in Hg. apply elem_of_app in Hg as [Hg|Hg]; [|by destruct (Hg1 g Hg)].
        pose proof (co_gaps _ Hok g Hg Hr) as Hf. rewrite E1, E2 in Hf. done.
    - injection Ec as <- <-. split; [lia|]. split; [done|]. split; [done|]. exists gs1. split; [done|]. split; [by apply nothing_lost|lia]. }
  assert (Hmid0 : 0 <= mid < two64).
  { destruct (c0 <? lost) eqn:El in Ec; injection Ec as <- <-; [done|]. unfold two63, two64 in *. lia. }
  destruct (classify mid (rp_Records Health report) [] []) as [duplicates fresh] eqn:Ecl.
  destruct (classify_continues mid (rp_Records Health report) (proj1 Hmid0) Htyped [] []) as [Hf1 Hf2]; [change (len []) with 0; rewrite Z.add_0_r; apply Hmid0|by rewrite seqZ_nil|]. rewrite Ecl in Hf1, Hf2.
  cbn [snd] in Hf1, Hf2. pose proof (len_nonneg fresh) as Hnn.
  assert (Hsmall : forall c, 0 <= c < two64 -> (wrap64 c <? 0) = false -> wrap64 c = c /\ c < two63).
  { intros c Hc Hw. apply Z.ltb_ge in Hw. unfold wrap64, two63, two64 in *. destruct (Z.lt_ge_cases c 9223372036854775808) as [G|G].
    - rewrite Z.mod_small by lia. lia.
    - rewrite <- (Z.mod_unique (c + 9223372036854775808) 18446744073709551616 1 (c - 9223372036854775808)) in Hw by lia. lia. }
  destruct (negb (str_eqb (checkDuplicates _ _ _ _ _) "")).
  { destruct (wrap64 mid <? 0) eqn:Ew; [done|]. destruct (Hsmall mid Hmid0 Ew) as [Hw Hm]. destruct (Hmid Hm) as (M1 & M2 & M3 & M4).
    apply bind_ok in H as (d3 & Hh & H). injection H as <- <-. apply recordHealth_cursor in Hh as ([E1 E2] & E3). cbn [ack_AcceptedThrough].
    rewrite <- M3 in Hrow.
    edestruct (cursor_update (fun r => r <| up_state := "blocked" |> <| up_conflict := checkDuplicates quote (pd_InstallationID producer) (rp_ProducerId Health report) duplicates d2 |>
               <| up_accepted_through := wrap64 mid |> <| up_updated_at := now |>) key d2 current (wrap64 mid) Hrow) as [F1 F2]; [done|].
    exists mid, [], []. rewrite E3, F1, Hw. split; [|done]. constructor; fold key; fold c0; rewrite ?E1, ?E2, ?E3, ?F1, ?Hw; try change (len []) with 0.
    - lia.
    - lia.
    - intros k Hk. rewrite E3, F2 by done. unfold cursor_of. rewrite M3. apply Hall.
    - rewrite app_nil_r. done.
    - done.
    - by rewrite seqZ_nil.
    - by intros r ?%elem_of_nil.
    - exact M4. }
  destruct (negb (forallb _ _)); [done|]. apply bind_ok in H as (d3 & Hw & H). apply write_rows in Hw as (rows & W1 & W2 & W3 & W4).
  assert (Elen : len rows = len fresh) by (apply (f_equal length) in W2; rewrite !length_map in W2; unfold len; lia).
  rewrite uwrap64_small in H by (unfold in_uint64; lia). destruct (wrap64 (mid + len fresh) <? 0) eqn:Ew in H; [done|].
  destruct (Hsmall (mid + len fresh) ltac:(lia) Ew) as [Hw Hm]. destruct (Hmid ltac:(lia)) as (M1 & M2 & M3 & M4).
  apply bind_ok in H as (d4 & Hh & H). injection H as <- <-. apply recordHealth_cursor in Hh as ([E1 E2] & E3). cbn [ack_AcceptedThrough].
  rewrite <- M3, <- W3 in Hrow. match type of E3 with context [update_producer key ?g d3] =>
    destruct (cursor_update g key d3 current (wrap64 (mid + len fresh)) Hrow ltac:(done)) as [F1 F2] end.
  exists mid, rows, fresh. rewrite E3, F1, Hw. split; [|done]. constructor; fold key; fold c0; rewrite ?E3, ?F1, ?Hw, ?Elen; try done.
  - intros k Hk. rewrite E3, F2 by done. unfold cursor_of. rewrite W3, M3. apply Hall.
  - rewrite E1. change (intervals d3 = intervals db ++ rows). by rewrite W1, M2.
  - intros r Hr. pose proof (classify_from mid (rp_Records Health report) [] [] r) as Hin. rewrite Ecl in Hin. destruct (Hin Hr) as [G|G]; [by apply elem_of_nil in G|].
    rewrite Forall_forall in Henv. destruct (Henv r G) as [G1 G2]. rewrite Ei in G1. done.
  - rewrite E2. change (exists gaps, producer_gaps d3 = producer_gaps db ++ gaps /\
      (forall g, g ∈ gaps -> gp_reason g = LostReason -> gp_installation g = pd_InstallationID producer /\ gp_producer g = rp_ProducerId Health report /\ gp_first g = c0 + 1 /\ gp_first g <= gp_last g /\ gp_last g = mid) /\
      (c0 < mid -> exists g, g ∈ gaps /\ gp_reason g = LostReason)). by rewrite W4.
Qed.

Lemma recorded_grows producer report db db' mid rows fresh k : recorded producer report db db' mid rows fresh -> cursor_of db k <= cursor_of db' k.
Proof.
  intros H. destruct (decide (k = (pd_InstallationID producer, rp_ProducerId Health report))) as [->|Hne].
  - rewrite (rc_cursor _ _ _ _ _ _ _ H). pose proof (len_nonneg rows). pose proof (rc_bounds _ _ _ _ _ _ _ H). lia.
  - by rewrite (rc_others _ _ _ _ _ _ _ H).
Qed.

(** Where the new rows are in their journal. *)
Lemma recorded_positions producer report db db' mid rows fresh : 0 <= mid -> recorded producer report db db' mid rows fresh ->
  map position rows = map (fun s => (pd_InstallationID producer, rp_ProducerId Health report, s)) (seqZ (mid + 1) (len rows)).
Proof.
  intros H0 H. transitivity (map (fun i : string * string * Z * list Z => i.1) (map row_id rows)); [by rewrite map_map|].
  rewrite (rc_ids _ _ _ _ _ _ _ H), <- (rc_sequences _ _ _ _ _ _ _ H), !map_map. apply map_ext_in. intros r Hr%list_elem_of_In. cbn.
  destruct (rc_fresh _ _ _ _ _ _ _ H r Hr) as (_ & -> & ->). do 2 f_equal. apply wrap64_small. unfold in_int64.
  assert (Hs : Sequence r ∈ seqZ (mid + 1) (len rows)) by (rewrite <- (rc_sequences _ _ _ _ _ _ _ H); by apply list_elem_of_fmap_2).
  apply elem_of_seqZ in Hs. pose proof (rc_bounds _ _ _ _ _ _ _ H). unfold two63 in *. lia.
Qed.

Lemma recorded_row producer report db db' mid rows fresh v : 0 <= mid -> recorded producer report db db' mid rows fresh -> v ∈ rows ->
  iv_installation v = pd_InstallationID producer /\ iv_producer v = rp_ProducerId Health report /\ mid < iv_sequence v <= mid + len rows.
Proof.
  intros H0 H Hv. apply (list_elem_of_fmap_2 position) in Hv. change (position <$> rows) with (map position rows) in Hv.
  rewrite (recorded_positions _ _ _ _ _ _ _ H0 H) in Hv. apply list_elem_of_fmap in Hv as (s & Hp & Hs). apply elem_of_seqZ in Hs.
  unfold position in Hp. injection Hp as -> -> ->. split; [done|]. split; [done|]. lia.
Qed.

Lemma recorded_cursors producer report db db' mid rows fresh : cursors_ok db -> recorded producer report db db' mid rows fresh -> cursors_ok db'.
Proof.
  intros Hok H. pose proof (cursor_bounds db (pd_InstallationID producer, rp_ProducerId Health report) Hok) as Hb.
  destruct (rc_bounds _ _ _ _ _ _ _ H) as [Hm1 Hm2]. pose proof (len_nonneg rows) as Hn. assert (H0 : 0 <= mid) by lia. constructor.
  - intros k r Hr. assert (up_accepted_through r = cursor_of db' k) as -> by (unfold cursor_of; by rewrite Hr).
    destruct (decide (k = (pd_InstallationID producer, rp_ProducerId Health report))) as [->|Hne].
    + rewrite (rc_cursor _ _ _ _ _ _ _ H). lia.
    + rewrite (rc_others _ _ _ _ _ _ _ H) by done. by apply cursor_bounds.
  - intros v. rewrite (rc_rows _ _ _ _ _ _ _ H). intros [Hv|Hv]%elem_of_app.
    + pose proof (co_sequence _ Hok v Hv). pose proof (recorded_grows _ _ _ _ _ _ _ (iv_installation v, iv_producer v) H). lia.
    + destruct (recorded_row _ _ _ _ _ _ _ v H0 H Hv) as (-> & -> & Hs). rewrite (rc_cursor _ _ _ _ _ _ _ H). lia.
  - rewrite (rc_rows _ _ _ _ _ _ _ H), map_app. apply NoDup_app. split; [apply Hok|]. split.
    + intros p Hp Hp'. apply list_elem_of_fmap in Hp as (v & -> & Hv). apply list_elem_of_fmap in Hp' as (w & E & Hw).
      destruct (recorded_row _ _ _ _ _ _ _ w H0 H Hw) as (E1 & E2 & Hs). unfold position in E. injection E as G1 G2 G3.
      pose proof (co_sequence _ Hok v Hv) as Hc. rewrite G1, G2, G3, E1, E2 in Hc. lia.
    + rewrite (recorded_positions _ _ _ _ _ _ _ H0 H). apply NoDup_fmap_2; [|apply NoDup_seqZ]. intros a b E. by injection E.
  - destruct (rc_gaps _ _ _ _ _ _ _ H) as (gaps & Eg & Hg & _). intros g. rewrite Eg. intros [Hin|Hin]%elem_of_app Hr.
    + pose proof (co_gaps _ Hok g Hin Hr). pose proof (recorded_grows _ _ _ _ _ _ _ (gp_installation g, gp_producer g) H). lia.
    + destruct (Hg g Hin Hr) as (-> & -> & _ & G1 & G2). rewrite (rc_cursor _ _ _ _ _ _ _ H). lia.
Qed.

(** A report of sequences the cursor has passed adds nothing. *)
Lemma ingest_replay producer report now db db' ack : let key := (pd_InstallationID producer, rp_ProducerId Health report) in
  rp_LostThrough Health report <= cursor_of db key -> Forall (fun r => Sequence r <= cursor_of db key) (rp_Records Health report) -> cursors_ok db ->
  Ingest producer report now db = Ok (db', ack) -> same_usage db' db /\ cursor_of db' key = cursor_of db key /\ ack_AcceptedThrough ack = cursor_of db key.
Proof.
  intros key Hlost Hold Hok H. pose proof (cursor_bounds db key Hok) as Hb. unfold UsageIngest.Ingest in H. apply bind_ok in H as ([] & _ & H).
  unfold UsageIngest.ingestTx in H. cbv zeta in H. apply bind_ok in H as (limits & _ & H). apply bind_ok in H as ([d1 current] & Hl & H).
  pose proof (lockProducer_same _ _ _ _ _ _ _ Hl) as Hu. apply lockProducer_cursor in Hl as (Hrow & Hcur & Hall & Hint & _). cbv zeta in Hrow, Hcur.
  fold key in Hrow, Hcur, H. rewrite Hcur in H. unfold two63 in Hb. assert (Hw : wrap64 (cursor_of db key) = cursor_of db key) by (apply wrap64_small; unfold in_int64; lia).
  assert (Hend : forall d2 d3 f, same_usage d2 d1 -> producers d2 = producers d1 -> (forall r, up_accepted_through (f r) = cursor_of db key) ->
    recordHealth Health health_json report now (update_producer key f d2) = Ok d3 -> same_usage d3 db /\ cursor_of d3 key = cursor_of db key).
  { intros d2 d3 f E1 E2 Hf Hh. pose proof (recordHealth_cursor _ _ _ _ Hh) as [_ Hc]. apply recordHealth_same in Hh. split.
    - eapply same_usage_trans; [exact Hh|]. eapply same_usage_trans; [apply update_producer_same|]. by eapply same_usage_trans.
    - rewrite Hc. rewrite <- E2 in Hrow. by eapply cursor_update. }
  destruct (str_eqb (up_state current) "blocked").
  { apply bind_ok in H as (d2 & Hh & H). injection H as <- <-. pose proof (recordHealth_cursor _ _ _ _ Hh) as [_ Hc]. apply recordHealth_same in Hh.
    split; [by eapply same_usage_trans|]. split; [by rewrite Hc, Hall|done]. }
  rewrite (proj2 (Z.ltb_ge (cursor_of db key) (rp_LostThrough Health report))) in H by done.
  pose proof (classify_old (cursor_of db key) (rp_Records Health report) Hold [] []) as Hc. destruct (classify _ _ _ _) as [duplicates fresh]. cbn [snd] in Hc. subst fresh.
  destruct (negb (str_eqb (checkDuplicates _ _ _ _ _) "")).
  { destruct (wrap64 (cursor_of db key) <? 0); [done|]. apply bind_ok in H as (d3 & Hh & H). injection H as <- <-.
    eapply (Hend d1) in Hh as [G1 G2]; [|done|done|done]. done. }
  destruct (negb (forallb _ _)); [done|]. apply bind_ok in H as (d3 & Hwr & H). cbn in Hwr. injection Hwr as <-. rewrite Z.add_0_r, uwrap64_small in H by (unfold in_uint64, two64; lia).
  destruct (wrap64 (cursor_of db key) <? 0); [done|]. apply bind_ok in H as (d4 & Hh & H). injection H as <- <-.
  eapply (Hend d1) in Hh as [G1 G2]; [|done|done|done]. done.
Qed.

End Outcome.

(** ** Histories *)

Section Histories.
Context (Health : Type) (health_json : Health -> option string) (marshal : UsageRecord -> string) (quote : string -> string)
  (is_uuid : string -> bool) (report_size : UsageReport Health -> Z) (cfg : Config).
#[local] Abbreviation Ingest := (Ingest Health health_json marshal quote is_uuid report_size).
#[local] Abbreviation occur := (occur Health health_json marshal quote is_uuid report_size cfg).
#[local] Abbreviation reachable := (reachable Health health_json marshal quote is_uuid report_size cfg).

(** Cursors stay, intervals and gaps are some of those before. *)
Lemma cursors_subset db db' : cursors_ok db -> producers db' = producers db -> (exists keep, intervals db' = List.filter keep (intervals db)) ->
  (forall g, g ∈ producer_gaps db' -> g ∈ producer_gaps db) -> cursors_ok db'.
Proof.
  intros [H1 H2 H3 H4] E1 [keep E2] E3. unfold cursor_of in *. constructor; rewrite ?E1; try done; unfold cursor_of; rewrite ?E1.
  - intros v Hv. apply H2. rewrite E2, list_elem_of_In, filter_In, <- list_elem_of_In in Hv. tauto.
  - rewrite E2. clear -H3. induction (intervals db) as [|v rows IH]; [done|]. cbn in *. apply NoDup_cons in H3 as [Hn H3]. destruct (keep v); [|by apply IH].
    cbn. apply NoDup_cons. split; [|by apply IH]. intros Hp. apply Hn. apply list_elem_of_fmap in Hp as (w & E & Hw).
    rewrite list_elem_of_In, filter_In, <- list_elem_of_In in Hw. rewrite E. apply list_elem_of_fmap_2, Hw.
  - intros g Hg. apply H4. by apply E3.
Qed.

Lemma filter_true {A} (l : list A) : l = List.filter (fun _ => true) l.
Proof. induction l as [|a l IH]; [done|]. cbn. by rewrite <- IH. Qed.

Lemma ensure_producers now db : producers (EnsurePartitions now db) = producers db /\ producer_gaps (EnsurePartitions now db) = producer_gaps db.
Proof.
  unfold EnsurePartitions. generalize [-1; 0; 1; 2; 3; 4; 5; 6; 7]. intros l. revert db. induction l as [|o l IH]; intros db; [done|]. cbn [foldl].
  destruct (IH (ensure_day (now / day + o) db)) as [E1 E2]. rewrite E1, E2. unfold ensure_day. repeat destruct (existsb _ _); done.
Qed.

Lemma maintain_producers now db : producers (Maintain cfg now db).1 = producers db /\
  producer_gaps (Maintain cfg now db).1 = List.filter (fun g => negb (gp_end g <? now - HourlyRetention cfg)) (producer_gaps db).
Proof.
  destruct (ensure_producers now db) as [<- <-]. unfold Maintain. generalize (EnsurePartitions now db). intros d. cbv zeta.
  unfold dropExpiredPartitions. cbv beta iota zeta. split; reflexivity.
Qed.

Lemma maintain_cursors now db : cursors_ok db -> cursors_ok (Maintain cfg now db).1 /\ producers (Maintain cfg now db).1 = producers db.
Proof.
  intros H. destruct (maintain_columns cfg now db) as (Hi & _). destruct (maintain_producers now db) as [Hp Hg].
  split; [|done]. apply (cursors_subset db); [done|done|by eexists|]. intros g. rewrite Hg, !list_elem_of_In, filter_In. tauto.
Qed.

(** The events other than reports leave the cursors alone. *)
Lemma occur_cursors e now db : cursors_ok db -> typed Health e -> cursors_ok (occur e now db) /\ forall k, cursor_of db k <= cursor_of (occur e now db) k.
Proof.
  intros H Ht. assert (Hsame : forall d, producers d = producers db -> intervals d = intervals db -> producer_gaps d = producer_gaps db ->
    cursors_ok d /\ forall k, cursor_of db k <= cursor_of d k).
  { intros d E1 E2 E3. split; [|intros k; unfold cursor_of; by rewrite E1]. apply (cursors_subset db); [done|done| |by rewrite E3].
    rewrite E2. exists (fun _ => true). apply filter_true. }
  destruct e; cbn [UsageLedger.occur]; try (by apply Hsame).
  - destruct (Ingest producer report now db) as [[d ack]|err] eqn:E; [|by apply Hsame].
    apply ingest_recorded in E as (mid & rows & fresh & Hr & _); [|done|done]. split; [by eapply recorded_cursors|]. intros k. by eapply recorded_grows.
  - unfold RecordAllocation. destruct (List.find _ _ ≫= _) as [[s [ev p]]|]; [|by apply Hsame]. unfold insert_attribution. by destruct (attributions _ !! _); apply Hsame.
  - unfold RecordVolume. destruct (List.find _ _ ≫= _) as [[s [ev p]]|]; [|by apply Hsame]. unfold insert_attribution. by destruct (attributions _ !! _); apply Hsame.
  - destruct (maintain_cursors now db H) as [G1 G2]. split; [done|]. intros k. unfold cursor_of. by rewrite G2.
  - unfold RebuildHourly. destruct (_ <? _); by apply Hsame.
Qed.

Lemma cursors_reachable l : reachable l -> cursors_ok (l_db l).
Proof.
  induction 1 as [t0 parts t|l e now _ IH _ _ Ht]; [|by apply occur_cursors]. constructor; cbn; try by constructor.
  - by intros v ?%elem_of_nil.
  - by intros g ?%elem_of_nil.
Qed.

(** C19: no sequence of a journal is stored twice, however often its record is
    sent, although no constraint of the tables says so; and no event ever moves
    a cursor back. *)
Theorem sequence_stored_once l : reachable l ->
  NoDup (map position (intervals (l_db l))) /\
  forall e now k, typed Health e -> cursor_of (l_db l) k <= cursor_of (occur e now (l_db l)) k.
Proof.
  intros Hr. apply cursors_reachable in Hr. split; [apply Hr|]. intros e now k Ht. by apply occur_cursors.
Qed.

(** C18: an acknowledgement is a receipt.  It is the cursor the report left, not
    before the old one, and every sequence in between is a record of the report
    that is stored with its digest, whatever the verdict on it was, or lies in a
    loss that was recorded. *)
Theorem acknowledged_is_recorded l producer report now db ack : reachable l -> typed_report Health report ->
  Ingest producer report now (l_db l) = Ok (db, ack) ->
  let key := (pd_InstallationID producer, rp_ProducerId Health report) in
  ack_AcceptedThrough ack = cursor_of db key /\ cursor_of (l_db l) key <= ack_AcceptedThrough ack /\
  forall s, cursor_of (l_db l) key < s <= ack_AcceptedThrough ack ->
    (exists r v, r ∈ rp_Records Health report /\ Sequence r = s /\ v ∈ intervals db /\ position v = (key.1, key.2, s) /\ iv_digest v = UsageRecordDigest quote r) \/
    (exists g, g ∈ producer_gaps db /\ (gp_installation g, gp_producer g) = key /\ gp_reason g = LostReason /\ gp_first g <= s <= gp_last g).
Proof.
  intros Hr Ht Hi key. apply cursors_reachable in Hr. pose proof (cursor_bounds (l_db l) key Hr) as Hb.
  apply ingest_recorded in Hi as (mid & rows & fresh & H & Ha); [|done|done]. fold key in Ha. split; [done|]. rewrite Ha. split; [by eapply recorded_grows|].
  intros s Hs. destruct (rc_bounds _ _ _ _ _ _ _ _ _ H) as [Hm _]. fold key in Hm. assert (H0 : 0 <= mid) by lia.
  destruct (Z.le_gt_cases s mid) as [Hle|Hgt].
  - right. destruct (rc_gaps _ _ _ _ _ _ _ _ _ H) as (gaps & Eg & Hg & Hex). fold key in Hg, Hex. destruct Hex as (g & Hin & Hreason); [lia|].
    destruct (Hg g Hin Hreason) as (G1 & G2 & G3 & _ & G4). exists g. rewrite Eg, G1, G2. split; [set_solver|]. split; [done|]. split; [done|]. lia.
  - left. unfold key in Hs. rewrite (rc_cursor _ _ _ _ _ _ _ _ _ H) in Hs. assert (Hin : s ∈ map Sequence fresh).
    { rewrite (rc_sequences _ _ _ _ _ _ _ _ _ H). apply elem_of_seqZ. lia. }
    apply list_elem_of_fmap in Hin as (r & -> & Hf). pose proof Hf as Hf'. apply (list_elem_of_fmap_2 (record_id quote)) in Hf.
    change (record_id quote <$> fresh) with (map (record_id quote) fresh) in Hf. rewrite <- (rc_ids _ _ _ _ _ _ _ _ _ H) in Hf.
    apply list_elem_of_fmap in Hf as (v & Ev & Hv). destruct (rc_fresh _ _ _ _ _ _ _ _ _ H r Hf') as (Hin & E1 & E2). exists r, v. split; [done|]. split; [done|].
    destruct (recorded_row _ _ _ _ _ _ _ _ _ v H0 H Hv) as (F1 & F2 & F3).
    unfold row_id, record_id in Ev. injection Ev as _ _ Es Ed. rewrite (rc_rows _ _ _ _ _ _ _ _ _ H). split; [set_solver|]. split; [|done].
    unfold position. rewrite F1, F2, <- Es. cbn. f_equal. apply wrap64_small. unfold in_int64. pose proof (rc_bounds _ _ _ _ _ _ _ _ _ H). unfold two63 in *. lia.
Qed.

(** C20: a report that was acknowledged, sent again at any later time, changes
    neither intervals, totals, progress nor the cursor, and is acknowledged with
    the cursor again; this also holds when the intervals have expired since. *)
Theorem replayed_report_ignored l producer report now db ack : reachable l ->
  let key := (pd_InstallationID producer, rp_ProducerId Health report) in
  rp_LostThrough Health report <= cursor_of (l_db l) key -> Forall (fun r => Sequence r <= cursor_of (l_db l) key) (rp_Records Health report) ->
  Ingest producer report now (l_db l) = Ok (db, ack) ->
  intervals db = intervals (l_db l) /\ hourly db = hourly (l_db l) /\ progress db = progress (l_db l) /\
  cursor_of db key = cursor_of (l_db l) key /\ ack_AcceptedThrough ack = cursor_of (l_db l) key.
Proof.
  intros Hr key H1 H2 H. apply cursors_reachable in Hr. eapply ingest_replay in H as ((E1&E2&E3&_) & G1 & G2); [|exact H1|exact H2|done]. done.
Qed.
End Histories.

(** ** An example *)

Module Example.
Import UsageLedger.Example.

#[local] Abbreviation Ingest := (Ingest unit (fun _ => Some "{}") ResourceId quoted (fun _ => true) (fun _ => 100)).

Lemma l1_reachable : reachable unit (fun _ => Some "{}") ResourceId quoted (fun _ => true) (fun _ => 100) cfg0 l1.
Proof. apply reach_step; [apply reach_init|by vm_compute|by intros _|done]. Qed.

Lemma sequence_stored_once_witness : NoDup (map position (intervals (l_db l2))) /\ map iv_sequence (intervals (l_db l2)) = [3; 4] /\
  cursor_of (l_db l2) ("inst", "journal") <= cursor_of (occur unit (fun _ => Some "{}") ResourceId quoted (fun _ => true) (fun _ => 100) cfg0 (EMaintain unit) (T + 365 * day) (l_db l2)) ("inst", "journal").
Proof.
  destruct (sequence_stored_once unit (fun _ => Some "{}") ResourceId quoted (fun _ => true) (fun _ => 100) cfg0 l2 l2_reachable) as [H1 H2].
  split; [exact H1|]. split; [vm_compute; reflexivity|]. apply H2. exact I.
Defined.

Definition ok_or {E A} (d : A) (r : result E A) : A := match r with Ok a => a | Err _ => d end.
Definition is_ok {E A} (r : result E A) : bool := match r with Ok _ => true | Err _ => false end.
Definition no_ack : UsageAcknowledgement := Build_UsageAcknowledgement "" 0 0 [] "".

Lemma is_ok_or {E A} (d : A) (r : result E A) : is_ok r = true -> r = Ok (ok_or d r).
Proof. by destruct r. Qed.

(** The transaction of the report. *)
Definition after : usage_db * UsageAcknowledgement :=
  ok_or (l_db l1, no_ack) (Ingest producer report (T + 5 * minute) (l_db l1)).

Lemma records_of_report r : r ∈ rp_Records unit report -> r = record 3 0 \/ r = record 4 1.
Proof. change (rp_Records unit report) with [record 3 0; record 4 1]. rewrite !elem_of_cons. intros [?|[?|?%elem_of_nil]]; tauto. Qed.

Lemma ingest_after : Ingest producer report (T + 5 * minute) (l_db l1) = Ok (after.1, after.2).
Proof.
  rewrite <- surjective_pairing. unfold after.
  exact (is_ok_or (l_db l1, no_ack) (Ingest producer report (T + 5 * minute) (l_db l1)) ltac:(vm_compute; reflexivity)).
Qed.

Lemma acknowledged_is_recorded_witness : ack_AcceptedThrough after.2 = 4 /\
  (exists v, v ∈ intervals after.1 /\ position v = ("inst", "journal", 4) /\ iv_digest v = UsageRecordDigest quoted (record 4 1)) /\
  (exists g, g ∈ producer_gaps after.1 /\ gp_first g <= 2 <= gp_last g).
Proof.
  destruct (acknowledged_is_recorded unit (fun _ => Some "{}") ResourceId quoted (fun _ => true) (fun _ => 100) cfg0 l1 producer report (T + 5 * minute) after.1 after.2
    l1_reachable report_typed ingest_after) as (_ & _ & H).
  assert (Ha : ack_AcceptedThrough after.2 = 4) by (vm_compute; reflexivity). assert (Hc : cursor_of (l_db l1) ("inst", "journal") = 0) by (vm_compute; reflexivity).
  change (pd_InstallationID producer, rp_ProducerId unit report) with ("inst", "journal") in H. rewrite Ha, Hc in H. split; [exact Ha|]. split.
  - destruct (H 4 ltac:(lia)) as [(r & v & Hr & Hs & Hv & Hp & Hd)|(g & Hg & _ & _ & Hb)].
    + exists v. apply records_of_report in Hr as [-> | ->]; [discriminate Hs|]. split; [exact Hv|]. split; [exact Hp|exact Hd].
    + exfalso. apply (list_elem_of_fmap_2 gp_last) in Hg. assert (Hl : gp_last <$> producer_gaps after.1 = [2]) by (vm_compute; reflexivity).
      rewrite Hl in Hg. apply list_elem_of_singleton in Hg. lia.
  - destruct (H 2 ltac:(lia)) as [(r & v & Hr & Hs & _)|(g & Hg & _ & _ & Hb)].
    + exfalso. apply records_of_report in Hr as [-> | ->]; discriminate Hs.
    + exists g. split; [exact Hg|exact Hb].
Defined.

(** A part of the report, sent again. *)
Definition resent : UsageReport unit := Build_UsageReport unit "agent" "inst" "journal" 2 [record 4 1] None 2 None.
Definition again : usage_db * UsageAcknowledgement :=
  ok_or (l_db l1, no_ack) (Ingest producer resent (T + 6 * minute) (l_db l2)).

Lemma ingest_again : Ingest producer resent (T + 6 * minute) (l_db l2) = Ok (again.1, again.2).
Proof.
  rewrite <- surjective_pairing. unfold again.
  exact (is_ok_or (l_db l1, no_ack) (Ingest producer resent (T + 6 * minute) (l_db l2)) ltac:(vm_compute; reflexivity)).
Qed.

Lemma replayed_report_ignored_witness : hourly again.1 = hourly (l_db l2) /\ ack_AcceptedThrough again.2 = cursor_of (l_db l2) ("inst", "journal") /\
  cursor_of (l_db l2) ("inst", "journal") = 4.
Proof.
  assert (Hc : cursor_of (l_db l2) ("inst", "journal") = 4) by (vm_compute; reflexivity).
  destruct (replayed_report_ignored unit (fun _ => Some "{}") ResourceId quoted (fun _ => true) (fun _ => 100) cfg0 l2 producer resent (T + 6 * minute) again.1 again.2 l2_reachable) as (_ & H1 & _ & _ & H2).
  - change (pd_InstallationID producer, rp_ProducerId unit resent) with ("inst", "journal"). rewrite Hc. vm_compute. discriminate.
  - change (pd_InstallationID producer, rp_ProducerId unit resent) with ("inst", "journal"). rewrite Hc. repeat apply Forall_cons_2; [vm_compute; discriminate..|constructor].
  - exact ingest_again.
  - split; [exact H1|]. split; [exact H2|exact Hc].
Defined.

(** A record whose identity is cut inside a letter is not stored as a rejection:
    the statement fails, and with it every report that carries the record. *)
Definition long_identity : string := of_codes (repeat 97 127 ++ [195; 169]).
Definition unstorable : UsageReport unit :=
  Build_UsageReport unit "agent" "inst" "journal" 1 [(record 3 0) <| ResourceId := long_identity |>] None 2 None.

Example unstorable_record : text_ok long_identity = true /\ text_ok (cut 128 long_identity) = false /\
  Ingest producer unstorable (T + 5 * minute) (l_db l1) = Err ErrText.
Proof. vm_compute. done. Qed.
End Example.

End UsageCursors.
