(* ===== verification/Metering.v ===== *)
(** * Metering on an agent

    [internal/metering]: [clock.go], [journal.go], [collector.go] and
    [delivery.go].  A meter samples the allocations and volumes of its host,
    folds the samples into one open record per counter epoch, seals a record
    every minute into a durable journal, and delivers the journal to the control
    plane until it is acknowledged.  A bbolt transaction is a function that
    returns the journal or an error.  Readings of clocks, cgroups, file systems
    and kernel counters are arguments, as is the order in which Go walks a map.
    The length of an encoded record is a parameter ([None] where
    [proto.Marshal] fails).  The decimal text of an integral is its number, and
    counts of records, reports and clock steps do not reach the end of [uint64]. *)

From S2P Require Import Prelude GoText GoFloat DurableWork Billing ClosePeriod GoTime Sha256 RowMap Journal Product LogPipeline UsageRecords UsageIngest.

Module Metering.
Import UsageRecords UsageIngest.

(** ** Clock *)

Record Instant := { in_Boot : string; in_Mono : duration; in_Wall : time }.
Definition stepToleranceMS : Z := 1000.
Definition UnixMilli (t : time) : Z := (t - unix_epoch) / millisecond.
Definition from_milli (ms : Z) : time := unix_epoch + ms * millisecond.

Record timeline := { tl_Boot : string; tl_AnchorMono : Z; tl_AnchorMS : Z; tl_LastMS : Z; tl_Steps : Z; tl_Skewed : bool }.
Record point := { pt_Boot : string; pt_Mono : Z; pt_MS : Z; pt_Steps : Z; pt_Skewed : bool }.

(** A reading is placed on the timeline of its boot, anchored anew on a boot. *)
Definition anchored (t : timeline) (now : Instant) : timeline :=
  let wall := UnixMilli (in_Wall now) in
  if str_eqb (in_Boot now) (tl_Boot t) then t
  else Build_timeline (in_Boot now) (in_Mono now) (if wall <? tl_LastMS t then tl_LastMS t else wall) (tl_LastMS t) (tl_Steps t) (wall <? tl_LastMS t).

Definition at_ (t : timeline) (now : Instant) : timeline * point :=
  let wall := UnixMilli (in_Wall now) in
  let mono := in_Mono now in
  let t := anchored t now in
  let derived := tl_AnchorMS t + Z.quot (mono - tl_AnchorMono t) millisecond in
  let deviation := wall - derived in
  let '(t, derived) :=
    if stepToleranceMS <? deviation then (Build_timeline (tl_Boot t) mono wall (tl_LastMS t) (tl_Steps t + 1) false, wall)
    else (Build_timeline (tl_Boot t) (tl_AnchorMono t) (tl_AnchorMS t) (tl_LastMS t) (tl_Steps t) (deviation <? - stepToleranceMS), derived) in
  let derived := if derived <? tl_LastMS t then tl_LastMS t else derived in
  let t := Build_timeline (tl_Boot t) (tl_AnchorMono t) (tl_AnchorMS t) derived (tl_Steps t) (tl_Skewed t) in
  (t, Build_point (in_Boot now) mono derived (tl_Steps t) (tl_Skewed t)).

Definition interval (from to_ : point) : Z * Z :=
  let quality := if pt_Skewed from || pt_Skewed to_ then CLOCK_SKEW else 0 in
  if negb (pt_Steps from =? pt_Steps to_) && str_eqb (pt_Boot from) (pt_Boot to_) && (pt_Mono from <=? pt_Mono to_)
  then (Z.quot (pt_Mono to_ - pt_Mono from) millisecond, Z.lor quality CLOCK_STEP)
  else (pt_MS to_ - pt_MS from, quality).

(** ** Journal *)

Record epochState := {
  ResourceKind_ : string; ResourceID : string; Epoch : string; BootID : string; CgroupID : Z; OpenStart : point; Last : point; Quality_ : Z;
  LastCPU : option Z; LastMem : option Z; LastVol : option Z; HasEgress : bool; LastEgress : UsageEgress; CPUMicros : Z; MemIntegral : Z;
  MemCoveredMS : Z; VolIntegral : Z; VolCoveredMS : Z; EgressDelta : UsageEgress
}.
#[export] Instance epochState_eta : Eta epochState := fun s =>
  Build_epochState (ResourceKind_ s) (ResourceID s) (Epoch s) (BootID s) (CgroupID s) (OpenStart s) (Last s) (Quality_ s) (LastCPU s) (LastMem s)
    (LastVol s) (HasEgress s) (LastEgress s) (CPUMicros s) (MemIntegral s) (MemCoveredMS s) (VolIntegral s) (VolCoveredMS s) (EgressDelta s).

Record journalMeta := {
  jm_ProducerID : string; jm_InstallationID : string; jm_AgentID : string; NextSequence : Z; AckedThrough : Z; LowestRetained : Z; RecordBytes : Z;
  Timeline : timeline; LastTick : option point; SealedThroughMS : Z; ExhaustedSinceMS : Z; GapRecords : Z; Unattributed : Z; LastError : string
}.
#[export] Instance journalMeta_eta : Eta journalMeta := fun m =>
  Build_journalMeta (jm_ProducerID m) (jm_InstallationID m) (jm_AgentID m) (NextSequence m) (AckedThrough m) (LowestRetained m) (RecordBytes m)
    (Timeline m) (LastTick m) (SealedThroughMS m) (ExhaustedSinceMS m) (GapRecords m) (Unattributed m) (LastError m).

(** The three buckets; keys of records are ordered as numbers. *)
Record journal := { meta : journalMeta; records : list (Z * UsageRecord); checkpoints : gmap string epochState }.
#[export] Instance journal_eta : Eta journal := fun j => Build_journal (meta j) (records j) (checkpoints j).

Inductive meter_error : Type := ErrJournalFull | ErrMarshal | ErrNeverProduced.

Definition recordOverhead : Z := 48.
Definition no_timeline : timeline := Build_timeline "" 0 0 0 0 false.
Definition newMeta (producer installation agent : string) : journalMeta :=
  Build_journalMeta producer installation agent 1 0 1 0 no_timeline None 0 0 0 0 "".

(** [openJournal] on a file that is missing or unreadable ([None]), of another
    installation or agent, or usable; [uuid] is a fresh identity. *)
Definition openJournal (file : option journal) (installation agent uuid : string) : option journal :=
  if str_eqb installation "" || str_eqb agent "" then None
  else
    let fresh := Build_journal (newMeta uuid installation agent) [] ∅ in
    match file with
    | None => Some fresh
    | Some j => if (NextSequence (meta j) =? 0) || negb (str_eqb (jm_InstallationID (meta j)) installation) || negb (str_eqb (jm_AgentID (meta j)) agent)
                then Some fresh else Some j
    end.

(** [Bucket.Put] under a sequence. *)
Fixpoint put_record (k : Z) (r : UsageRecord) (l : list (Z * UsageRecord)) : list (Z * UsageRecord) :=
  match l with
  | [] => [(k, r)]
  | (k', r') :: l' => if k <? k' then (k, r) :: l else if k =? k' then (k, r) :: l' else (k', r') :: put_record k r l'
  end.

Section Meter.
Variable encoded : UsageRecord -> option Z.
Definition stored_size (r : UsageRecord) : Z := default 0 (encoded r).

Record Config := {
  MaxBytes : Z; AckedRetention : duration; SampleInterval : duration; VolumeInterval : duration;
  has_allocations : bool; has_volumes : bool; has_egress : bool
}.
(** The defaults that [Open] fills in. *)
Definition openConfig (c : Config) : Config :=
  Build_Config (if MaxBytes c <=? 0 then Z.shiftl 256 20 else MaxBytes c) (if AckedRetention c <=? 0 then 24 * hour else AckedRetention c)
    (if SampleInterval c <=? 0 then 5 * second else SampleInterval c) (if VolumeInterval c <=? 0 then 60 * second else VolumeInterval c)
    (has_allocations c) (has_volumes c) (has_egress c).

Variable cfg : Config.
Definition capacity : Z := MaxBytes cfg.
Definition periodMS : Z := Z.quot (SampleInterval cfg) millisecond.
Definition volumePeriodMS : Z := Z.quot (VolumeInterval cfg) millisecond.

(** The loop of [pruneAcknowledged] over the records from the first one on. *)
Fixpoint prune_loop (pressure : bool) (cutoff : time) (l : list (Z * UsageRecord)) (m : journalMeta) : list (Z * UsageRecord) * journalMeta :=
  match l with
  | [] => ([], m)
  | (k, r) :: l' =>
      if AckedThrough m <? k then (l, m)
      else if negb pressure && (cutoff <? AsTime (End_ r)) then (l, m)
      else
        let m := m <| RecordBytes := RecordBytes m - (stored_size r + recordOverhead) |> <| LowestRetained := k + 1 |> in
        if pressure && (RecordBytes m <? Z.quot (wrap64 (capacity * 9)) 10) then (l', m)
        else prune_loop pressure cutoff l' m
  end.
Definition pruneAcknowledged (pressure : bool) (clock : time) (j : journal) : journal :=
  let '(l, m) := prune_loop pressure (clock - AckedRetention cfg) (records j) (meta j) in
  j <| records := l |> <| meta := m |>.

Definition over (size : Z) (j : journal) : bool := capacity <? RecordBytes (meta j) + size + recordOverhead.

Definition append (record : UsageRecord) (j : journal) : result meter_error journal :=
  let record := record <| InstallationId := jm_InstallationID (meta j) |> <| ProducerId := jm_ProducerID (meta j) |>
                       <| Sequence := NextSequence (meta j) |> <| MeterVersion := UsageMeterVersion |> in
  match encoded record with
  | None => Err ErrMarshal
  | Some size =>
      let j := if over size j then pruneAcknowledged true zero_time j else j in
      if over size j then Err ErrJournalFull
      else
        let m := meta j in
        Ok (j <| records := put_record (Sequence record) record (records j) |>
              <| meta := (m <| NextSequence := NextSequence m + 1 |> <| RecordBytes := RecordBytes m + (size + recordOverhead) |>
                            <| GapRecords := if Kind record =? KIND_GAP then GapRecords m + 1 else GapRecords m |>) |>)
  end.

(** [acknowledge] and the [update] in it, whose metadata was copied before its
    transaction began. *)
Definition acknowledge_from (copied : journalMeta) (clock : time) (cursor : Z) (j : journal) : result meter_error journal :=
  if NextSequence copied <=? cursor then Err ErrNeverProduced
  else if cursor =? AckedThrough copied then Ok j
  else Ok (pruneAcknowledged false clock (j <| meta := (copied <| AckedThrough := cursor |>) |>)).

(** An acknowledgement that overlaps no other update. *)
Definition acknowledge (clock : time) (cursor : Z) (j : journal) : result meter_error journal := acknowledge_from (meta j) clock cursor j.

(** The records of a batch, from the first key that is not below. *)
Fixpoint batch_loop (count size : Z) (l : list (Z * UsageRecord)) : list UsageRecord :=
  match l with
  | [] => []
  | (_, r) :: l =>
      if (count =? MaxUsageRecordsPerReport) || (Z.quot MaxUsageReportBytes 2 <? size + stored_size r) then []
      else r :: batch_loop (count + 1) (size + stored_size r) l
  end.
Definition seek (from : Z) (l : list (Z * UsageRecord)) : list (Z * UsageRecord) := List.filter (fun p => from <=? p.1) l.
Definition journal_batch (from : Z) (j : journal) : list UsageRecord * Z :=
  let lost := from <? LowestRetained (meta j) in
  let from := if lost then LowestRetained (meta j) else from in
  (batch_loop 0 0 (seek from (records j)), if lost then LowestRetained (meta j) - 1 else 0).

(** ** Collector *)

Record AllocationSample := { as_AllocationID : string; as_CgroupID : Z; as_CPUMicros : option Z; as_MemoryBytes : option Z }.

Definition allocKey (id : string) (cgroupID : Z) : string := "a/" +:+ id +:+ "/" +:+ pretty cgroupID.
Definition volumeKey (id : string) : string := "v/" +:+ id.

(** The journal of the transaction, the epochs in memory, and the counters of
    the kernel that are no longer needed. *)
Record folder := { f_j : journal; f_states : gmap string epochState; f_forget : list Z }.
#[export] Instance folder_eta : Eta folder := fun f => Build_folder (f_j f) (f_states f) (f_forget f).

Definition putState (key : string) (st : epochState) (j : journal) : journal := j <| checkpoints := <[key := st]> (checkpoints j) |>.
Definition deleteState (key : string) (j : journal) : journal := j <| checkpoints := delete key (checkpoints j) |>.

(** An epoch that is kept: the state in memory is the one that is stored. *)
Definition keep (key : string) (st : epochState) (f : folder) : folder :=
  f <| f_j := putState key st (f_j f) |> <| f_states := <[key := st]> (f_states f) |>.
Definition forget_state (key : string) (f : folder) : folder :=
  f <| f_j := deleteState key (f_j f) |> <| f_states := delete key (f_states f) |>.

Definition crossedMinute (startMS endMS : Z) : bool := Z.quot startMS 60000 <? Z.quot endMS 60000.
Definition nonzero (n : Z) : string := if n =? 0 then "" else big_string n.
Definition addProduct (current value ms : Z) : Z := current + value * ms.
Definition resource_kind (st : epochState) : Z := if str_eqb (ResourceKind_ st) KindVolume then RESOURCE_VOLUME else RESOURCE_ALLOCATION.
Definition stamp_ms (ms : Z) : option Timestamp := Some (NewTimestamp (from_milli ms)).

(** A measurement of what was folded since [OpenStart]. *)
Definition measurement (st : epochState) (end_ : point) (duration quality : Z) : UsageRecord :=
  Build_UsageRecord "" "" 0 KIND_MEASUREMENT (resource_kind st) (ResourceID st) (Epoch st) (BootID st) (stamp_ms (pt_MS (OpenStart st))) (stamp_ms (pt_MS end_))
    duration "" quality (CPUMicros st) (nonzero (MemIntegral st)) (MemCoveredMS st) (nonzero (VolIntegral st)) (VolCoveredMS st) (EgressDelta st) "".

Definition sealAt (key : string) (st : epochState) (end_ : point) (final : bool) (f : folder) : result meter_error folder :=
  let '(duration, clockQ) := interval (OpenStart st) end_ in
  f ← (if 0 <? duration then
         let quality := Z.lor (Quality_ st) clockQ in
         let quality := if final then Z.lor quality EPOCH_END else quality in
         let quality := if (str_eqb (ResourceKind_ st) KindAllocation && (MemCoveredMS st <? duration))
                           || (str_eqb (ResourceKind_ st) KindVolume && (VolCoveredMS st <? duration))
                        then Z.lor quality GAUGE_GAP else quality in
         j ← append (measurement st end_ duration quality) (f_j f); Ok (f <| f_j := j |>)
       else Ok f);
  if final then Ok (forget_state key f)
  else Ok (keep key (st <| OpenStart := end_ |> <| Quality_ := 0 |> <| CPUMicros := 0 |> <| MemIntegral := 0 |> <| MemCoveredMS := 0 |>
                        <| VolIntegral := 0 |> <| VolCoveredMS := 0 |> <| EgressDelta := no_egress |>) f).

Definition gapFrom (st : epochState) (end_ : point) (reason : string) (f : folder) : result meter_error folder :=
  if pt_MS end_ <=? pt_MS (OpenStart st) then Ok f
  else
    j ← append (Build_UsageRecord "" "" 0 KIND_GAP (resource_kind st) (ResourceID st) (Epoch st) (BootID st) (stamp_ms (pt_MS (OpenStart st)))
                  (stamp_ms (pt_MS end_)) (pt_MS end_ - pt_MS (OpenStart st)) "" 0 0 "" 0 "" 0 no_egress reason) (f_j f);
    Ok (f <| f_j := j |>).

Definition sealKeep (st : epochState) (end_ : point) (epochEnd : bool) (f : folder) : result meter_error folder :=
  let '(duration, clockQ) := interval (OpenStart st) end_ in
  if duration <=? 0 then Ok f
  else
    let quality := Z.lor (Quality_ st) clockQ in
    let quality := if epochEnd then Z.lor quality EPOCH_END else quality in
    j ← append (measurement st end_ duration quality) (f_j f); Ok (f <| f_j := j |>).

Definition endUnobserved (p : point) (key : string) (st : epochState) (f : folder) : result meter_error folder :=
  '(st, f) ← (if pt_MS (OpenStart st) <? pt_MS (Last st) then
                f ← sealKeep st (Last st) true f; Ok (st <| OpenStart := Last st |>, f)
              else Ok (st, f));
  f ← gapFrom st p UsageGapEpochUnobserved f;
  Ok (forget_state key f).

(** The counters of the kernel, by cgroup, or that they could not be read. *)
Record egress_reading := { eg_counters : gmap Z UsageEgress; eg_unattributed : Z; eg_failed : bool }.

Definition newAllocState (p : point) (eg : egress_reading) (s : AllocationSample) (start : point) : epochState :=
  let quality := if pt_MS start <? pt_MS p then Z.lor EPOCH_START UNCERTAIN_TIMING else EPOCH_START in
  let counters := if eg_failed eg then None else eg_counters eg !! as_CgroupID s in
  Build_epochState KindAllocation (as_AllocationID s) (pt_Boot p +:+ "/" +:+ pretty (as_CgroupID s)) (pt_Boot p) (as_CgroupID s) start p quality
    (as_CPUMicros s) (as_MemoryBytes s) None (match counters with Some _ => true | None => false end) (default no_egress counters) 0 0 0 0 0 no_egress.

(** The growth of a counter that did not go back, added up in [uint64]. *)
Definition grow (acc last current : Z) : Z := if last <=? current then uwrap64 (acc + (current - last)) else acc.
Definition grow_egress (acc last current : UsageEgress) : UsageEgress :=
  Build_UsageEgress (grow (PublicDirectBytes acc) (PublicDirectBytes last) (PublicDirectBytes current))
    (grow (PublicIngressBytes acc) (PublicIngressBytes last) (PublicIngressBytes current))
    (grow (PrivateBytes acc) (PrivateBytes last) (PrivateBytes current)) (grow (PlatformBytes acc) (PlatformBytes last) (PlatformBytes current))
    (grow (ProbeBytes acc) (ProbeBytes last) (ProbeBytes current)).
Definition flag (b : bool) (q : Z) (st : epochState) : epochState := if b then st <| Quality_ := Z.lor (Quality_ st) q |> else st.
Definition covered (period duration : Z) : Z := Z.min (Z.max duration 0) (2 * period).

Definition fold_cpu (sample : option Z) (st : epochState) : epochState :=
  match sample, LastCPU st with
  | Some c, Some l => if l <=? c then st <| CPUMicros := uwrap64 (CPUMicros st + (c - l)) |> else st <| Quality_ := Z.lor (Quality_ st) UNCERTAIN_TIMING |>
  | _, _ => st <| Quality_ := Z.lor (Quality_ st) CPU_UNAVAILABLE |>
  end.
Definition fold_memory (duration : Z) (st : epochState) : epochState :=
  match LastMem st with
  | Some l => st <| MemIntegral := addProduct (MemIntegral st) l (covered periodMS duration) |> <| MemCoveredMS := MemCoveredMS st + covered periodMS duration |>
  | None => st <| Quality_ := Z.lor (Quality_ st) MEMORY_UNAVAILABLE |>
  end.
Definition fold_counters (c : UsageEgress) (st : epochState) : epochState :=
  let st := if HasEgress st then st <| EgressDelta := grow_egress (EgressDelta st) (LastEgress st) c |> else st in
  st <| HasEgress := true |> <| LastEgress := c |>.
Definition fold_egress (eg : egress_reading) (st : epochState) : epochState :=
  match (if negb (has_egress cfg) || eg_failed eg then None else eg_counters eg !! CgroupID st) with
  | Some c => fold_counters c st
  | None => st <| Quality_ := Z.lor (Quality_ st) EGRESS_UNAVAILABLE |>
  end.

Definition foldAllocSample (p : point) (eg : egress_reading) (key : string) (st : epochState) (s : AllocationSample) (f : folder) : result meter_error folder :=
  let '(duration, clockQ) := interval (Last st) p in
  let overrun := 2 * periodMS <? duration in
  let st := fold_egress eg (fold_memory duration (fold_cpu (as_CPUMicros s) (st <| Quality_ := Z.lor (Quality_ st) clockQ |>))) in
  let st := flag overrun UNCERTAIN_TIMING (st <| LastCPU := as_CPUMicros s |> <| LastMem := as_MemoryBytes s |> <| Last := p |>) in
  if overrun || crossedMinute (pt_MS (OpenStart st)) (pt_MS p) then sealAt key st p false f else Ok (keep key st f).

(** Folding without a flag for what is unavailable, at a lifecycle edge. *)
Definition foldAllocSampleNoSeal (p : point) (eg : egress_reading) (st : epochState) (s : AllocationSample) : epochState :=
  let '(duration, clockQ) := interval (Last st) p in
  let st := st <| Quality_ := Z.lor (Quality_ st) clockQ |> in
  let st := match as_CPUMicros s, LastCPU st with
            | Some c, Some l => if l <=? c then st <| CPUMicros := uwrap64 (CPUMicros st + (c - l)) |> else st
            | _, _ => st end in
  let st := match LastMem st with Some _ => fold_memory duration st | None => st end in
  let st := match (if eg_failed eg then None else eg_counters eg !! CgroupID st) with Some c => fold_counters c st | None => st end in
  st <| LastCPU := as_CPUMicros s |> <| LastMem := as_MemoryBytes s |> <| Last := p |>.

(** [for ... { if err := ...; err != nil { return err } }] *)
Fixpoint each {A} (step : A -> folder -> result meter_error folder) (l : list A) (f : folder) : result meter_error folder :=
  match l with [] => Ok f | a :: l => f ← step a f; each step l f end.

Definition alloc_step (p : point) (eg : egress_reading) (scanStart : point) (s : AllocationSample) (f : folder) : result meter_error folder :=
  if str_eqb (as_AllocationID s) "" || (as_CgroupID s =? 0) then Ok f
  else
    let key := allocKey (as_AllocationID s) (as_CgroupID s) in
    match f_states f !! key with
    | None => Ok (keep key (newAllocState p eg s scanStart) f)
    | Some st => foldAllocSample p eg key st s f
    end.

Definition by_id (a b : AllocationSample) : bool := String.leb (as_AllocationID a) (as_AllocationID b).
Definition seen_allocations (samples : list AllocationSample) : list string :=
  map (fun s => allocKey (as_AllocationID s) (as_CgroupID s)) (List.filter (fun s => negb (str_eqb (as_AllocationID s) "" || (as_CgroupID s =? 0))) samples).

(** The epochs of a kind that the scan no longer sees, sorted by key. *)
Definition ended_keys (kind : string) (seen : list string) (states : gmap string epochState) : list string :=
  isort String.leb (map fst (List.filter (fun p => str_eqb (ResourceKind_ p.2) kind && negb (existsb (str_eqb p.1) seen)) (map_to_list states))).

Definition end_step (p : point) (key : string) (f : folder) : result meter_error folder :=
  match f_states f !! key with
  | None => Ok f
  | Some st =>
      f ← endUnobserved p key st f;
      Ok (if CgroupID st =? 0 then f else f <| f_forget := f_forget f ++ [CgroupID st] |>)
  end.

Definition foldAllocations (p : point) (eg : egress_reading) (samples : list AllocationSample) (scanStart : point) (f : folder) : result meter_error folder :=
  f ← each (alloc_step p eg scanStart) (isort by_id samples) f;
  each (end_step p) (ended_keys KindAllocation (seen_allocations samples) (f_states f)) f.

Definition newVolumeState (id : string) (start p : point) (used : option Z) (unknown : Z) : epochState :=
  Build_epochState KindVolume id "volume" (pt_Boot p) 0 start p (match used with Some _ => EPOCH_START | None => Z.lor EPOCH_START unknown end)
    None None used false no_egress 0 0 0 0 0 no_egress.

Definition fold_volume (duration : Z) (st : epochState) : epochState :=
  match LastVol st with
  | Some l => st <| VolIntegral := addProduct (VolIntegral st) (Z.max l 0) (covered volumePeriodMS duration) |>
                 <| VolCoveredMS := VolCoveredMS st + covered volumePeriodMS duration |>
  | None => st
  end.

Definition foldVolumeSample (p : point) (key : string) (st : epochState) (used : option Z) (f : folder) : result meter_error folder :=
  let '(duration, clockQ) := interval (Last st) p in
  let unknown := match LastVol st with Some _ => false | None => true end in
  let st := flag unknown VOLUME_UNKNOWN (fold_volume duration (st <| Quality_ := Z.lor (Quality_ st) clockQ |>)) in
  let st := flag (2 * volumePeriodMS <? duration) UNCERTAIN_TIMING st in
  let st := flag (match used with Some _ => false | None => true end) VOLUME_UNKNOWN (st <| LastVol := used |>) in
  let st := st <| Last := p |> in
  if crossedMinute (pt_MS (OpenStart st)) (pt_MS p) then sealAt key st p false f else Ok (keep key st f).

Definition volume_step (p : point) (used : string -> option Z) (scanStart : point) (id : string) (f : folder) : result meter_error folder :=
  let key := volumeKey id in
  match f_states f !! key with
  | None => Ok (keep key (newVolumeState id scanStart p (used id) VOLUME_UNKNOWN) f)
  | Some st => if pt_MS p - pt_MS (Last st) <? volumePeriodMS then Ok f else foldVolumeSample p key st (used id) f
  end.

Definition foldVolumes (p : point) (ids : list string) (used : string -> option Z) (scanStart : point) (f : folder) : result meter_error folder :=
  if negb (has_volumes cfg) then Ok f
  else
    f ← each (volume_step p used scanStart) (isort String.leb ids) f;
    each (end_step p) (ended_keys KindVolume (map volumeKey ids) (f_states f)) f.

(** *** Transactions of the meter *)

(** The order of [range] over a map. *)
Variable range : gmap string epochState -> list (string * epochState).

(** Epochs of an earlier boot end with a gap to the start of this one. *)
Definition boot_step (bootStart : point) (e : string * epochState) (f : folder) : result meter_error folder :=
  let '(key, st) := e in
  if str_eqb (BootID st) (pt_Boot bootStart) then Ok f
  else
    f ← gapFrom st bootStart UsageGapCollectorDown f;
    let f := forget_state key f in
    Ok (if CgroupID st =? 0 then f else f <| f_forget := f_forget f ++ [CgroupID st] |>).

Definition boot_start (now : Instant) (p : point) : point :=
  Build_point (in_Boot now) 0 (pt_MS p - Z.quot (pt_Mono p) millisecond) (pt_Steps p) (pt_Skewed p).
Definition scan_start (m : journalMeta) (bootStart : point) : point :=
  match LastTick m with Some t => if str_eqb (pt_Boot t) (pt_Boot bootStart) then t else bootStart | None => bootStart end.

Definition sealed_through (p : point) (states : gmap string epochState) : Z :=
  foldr (fun e sealed => if pt_MS (OpenStart e.2) <? sealed then pt_MS (OpenStart e.2) else sealed) (pt_MS p) (map_to_list states).

Definition set_meta (g : journalMeta -> journalMeta) (f : folder) : folder := f <| f_j := (f_j f) <| meta := g (meta (f_j f)) |> |>.

(** What one scan of the host reads. *)
Record scan := { sc_allocations : list AllocationSample; sc_volumes : list string; sc_used : string -> option Z; sc_egress : egress_reading }.

Definition fold_tx (clock : time) (now : Instant) (sc : scan) (volumesOnly : bool) (f : folder) : result meter_error folder :=
  let '(tl, p) := at_ (Timeline (meta (f_j f))) now in
  let f := set_meta (fun m => m <| Timeline := tl |>) f in
  let bootStart := boot_start now p in
  let scanStart := scan_start (meta (f_j f)) bootStart in
  f ← each (boot_step bootStart) (range (f_states f)) f;
  f ← (if volumesOnly then Ok f else foldAllocations p (sc_egress sc) (sc_allocations sc) scanStart f);
  f ← foldVolumes p (sc_volumes sc) (sc_used sc) scanStart f;
  let f := set_meta (fun m => m <| LastTick := Some p |> <| Unattributed := eg_unattributed (sc_egress sc) |> <| LastError := "" |>
                               <| SealedThroughMS := sealed_through p (f_states f) |>) f in
  Ok (f <| f_j := pruneAcknowledged false clock (f_j f) |>).

(** A meter: its journal, the open epochs, and what delivery keeps. *)
Record Meter := {
  m_journal : journal; m_states : gmap string epochState; session : option (string * string); reportSeq : Z; sendFrom : Z; conflict : bool
}.
#[export] Instance Meter_eta : Eta Meter := fun m =>
  Build_Meter (m_journal m) (m_states m) (session m) (reportSeq m) (sendFrom m) (conflict m).

(** [journal.update]: the metadata is copied before the transaction begins, and
    the transaction runs on that copy, over the records and checkpoints it
    finds.  What it leaves is stored, or nothing is. *)
Definition update_from (copied : journalMeta) (tx : folder -> result meter_error folder) (m : Meter) : Meter * result meter_error (list Z) :=
  match tx (Build_folder ((m_journal m) <| meta := copied |>) (m_states m) []) with
  | Ok f => (m <| m_journal := f_j f |> <| m_states := f_states f |>, Ok (f_forget f))
  | Err e => (m, Err e)
  end.

(** An update that overlaps no other: its copy is of the metadata it finds. *)
Definition update (tx : folder -> result meter_error folder) (m : Meter) : Meter * result meter_error (list Z) :=
  update_from (meta (m_journal m)) tx m.

Lemma update_current tx m : update tx m =
  match tx (Build_folder (m_journal m) (m_states m) []) with
  | Ok f => (m <| m_journal := f_j f |> <| m_states := f_states f |>, Ok (f_forget f))
  | Err e => (m, Err e)
  end.
Proof.
  unfold update, update_from. assert ((m_journal m) <| meta := meta (m_journal m) |> = m_journal m) as ->; [by destruct (m_journal m)|done].
Qed.

Definition with_meta (g : journalMeta -> journalMeta) (m : Meter) : Meter := m <| m_journal := (m_journal m) <| meta := g (meta (m_journal m)) |> |>.

(** The meter after a transaction, and the kernel counters to delete. *)
Definition afterFold (now : Instant) (r : Meter * result meter_error (list Z)) : Meter * list Z :=
  let '(m, outcome) := r in
  match outcome with
  | Err ErrJournalFull =>
      (with_meta (fun k => k <| ExhaustedSinceMS := if ExhaustedSinceMS k =? 0 then UnixMilli (in_Wall now) else ExhaustedSinceMS k |>
                             <| LastError := "usage journal is full" |>) m, [])
  | Err _ => (m, [])
  | Ok forget => (if ExhaustedSinceMS (meta (m_journal m)) =? 0 then m else with_meta (fun k => k <| ExhaustedSinceMS := 0 |>) m,
                  if has_egress cfg then forget else [])
  end.

Definition no_reading : egress_reading := Build_egress_reading ∅ 0 false.
Definition readEgress (eg : egress_reading) : egress_reading := if has_egress cfg then eg else no_reading.
Definition recordError (err : string) (m : Meter) : Meter := with_meta (fun k => k <| LastError := err |>) m.

(** [Tick]; a source that fails gives its error. *)
Definition Tick_from (copied : journalMeta) (clock : time) (now : Instant) (allocations : result string (list AllocationSample)) (inventory : result string (list string))
    (used : string -> option Z) (eg : egress_reading) (m : Meter) : Meter * list Z :=
  match (if has_allocations cfg then allocations else Ok []) with
  | Err e => (recordError e m, [])
  | Ok allocs =>
      match (if has_volumes cfg then inventory else Ok []) with
      | Err e => (recordError e m, [])
      | Ok ids => afterFold now (update_from copied (fold_tx clock now (Build_scan allocs ids used (readEgress eg)) false) m)
      end
  end.

Definition Tick (clock : time) (now : Instant) (allocations : result string (list AllocationSample)) (inventory : result string (list string))
    (used : string -> option Z) (eg : egress_reading) (m : Meter) : Meter * list Z :=
  Tick_from (meta (m_journal m)) clock now allocations inventory used eg m.

Definition observe_end (p : point) (allocationID : string) (e : string * epochState) (f : folder) : result meter_error folder :=
  let '(key, st) := e in
  if str_eqb (ResourceKind_ st) KindAllocation && str_eqb (ResourceID st) allocationID
  then f ← endUnobserved p key st f; Ok (f <| f_forget := f_forget f ++ [CgroupID st] |>)
  else Ok f.

(** [sample] is the reading of the allocation, if it was found. *)
Definition observe_tx (now : Instant) (allocationID : string) (sample : option AllocationSample) (eg : egress_reading) (final : bool) (f : folder) : result meter_error folder :=
  let '(tl, p) := at_ (Timeline (meta (f_j f))) now in
  let f := set_meta (fun m => m <| Timeline := tl |>) f in
  match sample with
  | Some s =>
      let key := allocKey (as_AllocationID s) (as_CgroupID s) in
      match f_states f !! key with
      | None =>
          let f := keep key (newAllocState p eg s p) f in
          Ok (if final then forget_state key f else f)
      | Some st =>
          let st := foldAllocSampleNoSeal p eg st s in
          if final then sealAt key st p true (f <| f_forget := f_forget f ++ [CgroupID st] |>) else Ok (keep key st f)
      end
  | None => if final then each (observe_end p allocationID) (range (f_states f)) f else Ok f
  end.

Definition ObserveAllocation_from (copied : journalMeta) (now : Instant) (allocationID : string) (sample : option AllocationSample) (eg : egress_reading) (final : bool) (m : Meter) : Meter * list Z :=
  if negb (has_allocations cfg) then (m, []) else afterFold now (update_from copied (observe_tx now allocationID sample (readEgress eg) final) m).

(** The sample was read before the meter's lock was taken. *)
Definition ObserveAllocation (now : Instant) (allocationID : string) (sample : option AllocationSample) (eg : egress_reading) (final : bool) (m : Meter) : Meter * list Z :=
  ObserveAllocation_from (meta (m_journal m)) now allocationID sample eg final m.

Definition observe_volume_tx (now : Instant) (volumeID : string) (used : option Z) (final : bool) (f : folder) : result meter_error folder :=
  let '(tl, p) := at_ (Timeline (meta (f_j f))) now in
  let f := set_meta (fun m => m <| Timeline := tl |>) f in
  let key := volumeKey volumeID in
  match f_states f !! key with
  | None => if final then Ok f else Ok (keep key (newVolumeState volumeID p p used 0) f)
  | Some st =>
      let '(duration, clockQ) := interval (Last st) p in
      let st := (fold_volume duration (st <| Quality_ := Z.lor (Quality_ st) clockQ |>)) <| Last := p |> in
      if final then sealAt key st p true f
      else Ok (keep key (match used with Some _ => st <| LastVol := used |> | None => st end) f)
  end.

Definition ObserveVolume_from (copied : journalMeta) (now : Instant) (volumeID : string) (used : option Z) (final : bool) (m : Meter) : Meter * list Z :=
  if negb (has_volumes cfg) then (m, []) else afterFold now (update_from copied (observe_volume_tx now volumeID used final) m).

Definition ObserveVolume (now : Instant) (volumeID : string) (used : option Z) (final : bool) (m : Meter) : Meter * list Z :=
  ObserveVolume_from (meta (m_journal m)) now volumeID used final m.

(** ** Delivery *)

Definition ackTimeout : duration := 30 * second.
Definition healthInterval : duration := 60 * second.

Definition Open (file : option journal) (installation agent uuid : string) : option Meter :=
  j ← openJournal file installation agent uuid;
  Some (Build_Meter j (checkpoints j) None 0 (AckedThrough (meta j) + 1) false).

Definition Attach (agent sessionID : string) (m : Meter) : Meter := m <| session := Some (agent, sessionID) |>.
Definition Detach (m : Meter) : Meter := m <| session := None |>.

(** It takes no lock of the meter: its update may overlap one of a [Tick]. *)
Definition Acknowledge_from (copied : journalMeta) (clock : time) (ack : UsageAcknowledgement) (m : Meter) : Meter :=
  if negb (str_eqb (ack_ProducerId ack) (jm_ProducerID (meta (m_journal m)))) then m
  else
    let m := if str_eqb (ack_Conflict ack) "" then m else m <| conflict := true |> in
    match acknowledge_from copied clock (ack_AcceptedThrough ack) (m_journal m) with
    | Err _ => m
    | Ok j => m <| m_journal := j |> <| sendFrom := ack_AcceptedThrough ack + 1 |>
    end.
Definition Acknowledge (clock : time) (ack : UsageAcknowledgement) (m : Meter) : Meter := Acknowledge_from (meta (m_journal m)) clock ack m.

Variable Health : Type.
Variable health : Meter -> option Health.

(** The sealing time is reported when the report reaches the newest record. *)
Definition reported_seal (m : Meter) (batch : list UsageRecord) : option Timestamp :=
  let k := meta (m_journal m) in
  let reaches := match last batch with None => true | Some r => NextSequence k - 1 <=? Sequence r end in
  if reaches && (0 <? SealedThroughMS k) then stamp_ms (SealedThroughMS k) else None.

Definition usage_report (agent : string) (m : Meter) (batch : list UsageRecord) (lost : Z) : UsageReport Health :=
  let k := meta (m_journal m) in
  Build_UsageReport Health agent (jm_InstallationID k) (jm_ProducerID k) (reportSeq m) batch (reported_seal m batch) lost (health m).

(** What the loop of [Deliver] keeps between its rounds. *)
Record courier := { inFlight : bool; inFlightSince : time; lastHealth : time }.

(** One round of [Deliver] at the time [now]: what is sent, if anything.
    [sent] is whether the session took the report. *)
Definition deliver_round (now : time) (sent : bool) (c : courier) (m : Meter) : courier * Meter * option (UsageReport Health) :=
  match session m with
  | None => (c, m, None)
  | Some (agent, _) =>
      if conflict m then (c, m, None)
      else if inFlight c && (now - inFlightSince c <? ackTimeout) then (c, m, None)
      else
        let c := Build_courier false (inFlightSince c) (lastHealth c) in
        let '(batch, lost) := journal_batch (sendFrom m) (m_journal m) in
        if (len batch =? 0) && (now - lastHealth c <? healthInterval) then (c, m, None)
        else
          let m := m <| reportSeq := reportSeq m + 1 |> in
          let report := usage_report agent m batch lost in
          if sent then ((if len batch =? 0 then Build_courier false (inFlightSince c) now else Build_courier true now now), m, Some report)
          else (c, m, None)
  end.

End Meter.
End Metering.
