(* ===== verification/MeterJournal.v ===== *)
(** * What the journal of a meter keeps

    Invariants of [Metering]: over any sequence of ticks, lifecycle edges,
    acknowledgements, rounds of delivery and restarts in which updates of the
    journal do not overlap, the journal holds a
    contiguous run of records within its budget, its byte count is exact, the
    epochs in memory are the stored ones, and no record is lost or changed before
    it was acknowledged.  The timeline never moves back.  The last part has what
    happens when an acknowledgement does overlap a tick. *)

From S2P Require Import Prelude GoText GoFloat DurableWork Billing ClosePeriod GoTime Sha256 RowMap Journal Product LogPipeline UsageRecords UsageIngest Metering.

Module MeterJournal.
Import UsageRecords UsageIngest Metering.

(** ** The timeline *)

Lemma at_advances t now : let '(t', p) := at_ t now in tl_LastMS t <= tl_LastMS t' /\ pt_MS p = tl_LastMS t' /\ pt_Boot p = in_Boot now /\ pt_Mono p = in_Mono now.
Proof.
  unfold at_. cbv zeta. assert (E : tl_LastMS (anchored t now) = tl_LastMS t) by (unfold anchored; by destruct (str_eqb _ _)).
  destruct (stepToleranceMS <? _); cbn; rewrite E; destruct (_ <? tl_LastMS t) eqn:El; (split; [|done]); try lia; apply Z.ltb_ge in El; lia.
Qed.

(** Readings placed one after the other. *)
Fixpoint points (t : timeline) (l : list Instant) : list point :=
  match l with [] => [] | now :: l => let '(t', p) := at_ t now in p :: points t' l end.

(** C15: whatever the clocks of the host do, steps back and reboots included, the
    points of the timeline never go back. *)
Theorem timeline_never_goes_back t l : StronglySorted Z.le (map pt_MS (points t l)) /\ Forall (fun p => tl_LastMS t <= pt_MS p) (points t l).
Proof.
  revert t. induction l as [|now l IH]; intros t; [repeat constructor|]. cbn [points]. pose proof (at_advances t now) as Ha. destruct (at_ t now) as [t' p].
  destruct Ha as (H1 & H2 & _). destruct (IH t') as [I1 I2]. cbn [map]. split.
  - constructor; [done|]. rewrite Forall_map. eapply Forall_impl; [exact I2|]. intros q Hq. cbn in *. lia.
  - constructor; [lia|]. eapply Forall_impl; [exact I2|]. intros q Hq. cbn in *. lia.
Qed.

(** ** The journal *)

Section Journal.
Context (encoded : UsageRecord -> option Z) (cfg : Config).
#[local] Abbreviation append := (append encoded cfg).
#[local] Abbreviation prune_loop := (prune_loop encoded cfg).
#[local] Abbreviation pruneAcknowledged := (pruneAcknowledged encoded cfg).
#[local] Abbreviation stored_size := (stored_size encoded).

Hypothesis encoded_nonneg : forall r n, encoded r = Some n -> 0 <= n.

Definition weight (l : list (Z * UsageRecord)) : Z := sumZ (fun p => stored_size p.2 + recordOverhead) l.

(** A record under its key. *)
Definition filed (m : journalMeta) (p : Z * UsageRecord) : Prop :=
  Sequence p.2 = p.1 /\ InstallationId p.2 = jm_InstallationID m /\ ProducerId p.2 = jm_ProducerID m.

Record journal_ok (j : journal) : Prop := {
  jo_keys : map fst (records j) = seqZ (LowestRetained (meta j)) (NextSequence (meta j) - LowestRetained (meta j));
  jo_filed : Forall (filed (meta j)) (records j);
  jo_bytes : RecordBytes (meta j) = weight (records j);
  jo_bound : RecordBytes (meta j) <= Z.max 0 (MaxBytes cfg);
  jo_range : 1 <= LowestRetained (meta j) <= NextSequence (meta j) /\ 0 <= AckedThrough (meta j) < NextSequence (meta j)
}.

(** How a journal changes between acknowledgements. *)
Record evolves (j j' : journal) : Prop := {
  ev_ids : jm_ProducerID (meta j') = jm_ProducerID (meta j) /\ jm_InstallationID (meta j') = jm_InstallationID (meta j) /\ jm_AgentID (meta j') = jm_AgentID (meta j);
  ev_acked : AckedThrough (meta j') = AckedThrough (meta j);
  ev_next : NextSequence (meta j) <= NextSequence (meta j');
  ev_lowest : LowestRetained (meta j) <= LowestRetained (meta j') <= Z.max (LowestRetained (meta j)) (AckedThrough (meta j) + 1);
  ev_kept : forall k r, (k, r) ∈ records j -> LowestRetained (meta j') <= k -> (k, r) ∈ records j'
}.

#[export] Instance evolves_preorder : PreOrder evolves.
Proof.
  split.
  - intros j. constructor; try done. lia.
  - intros a b c [A1 A2 A3 A4 A5] [B1 B2 B3 B4 B5]. constructor.
    + destruct A1 as (<- & <- & <-). done.
    + congruence.
    + lia.
    + rewrite A2 in B4. lia.
    + intros k r Hk Hl. apply B5; [|done]. apply A5; [done|lia].
Qed.

Lemma stored_size_nonneg r : 0 <= stored_size r.
Proof. unfold Metering.stored_size. destruct (encoded r) as [n|] eqn:E; [by apply (encoded_nonneg r)|done]. Qed.

Lemma weight_cons p l : weight (p :: l) = (stored_size p.2 + recordOverhead) + weight l.
Proof. done. Qed.

Lemma weight_app l1 l2 : weight (l1 ++ l2) = weight l1 + weight l2.
Proof. apply sumZ_app. Qed.

Lemma weight_nonneg l : 0 <= weight l.
Proof. apply sumZ_nonneg. intros p _. pose proof (stored_size_nonneg p.2). unfold recordOverhead. lia. Qed.

Lemma set_bytes_twice (m : journalMeta) a b c d : m <| RecordBytes := a |> <| LowestRetained := b |> <| RecordBytes := c |> <| LowestRetained := d |>
  = m <| RecordBytes := c |> <| LowestRetained := d |>.
Proof. by destruct m. Qed.

(** The prefix of acknowledged records that a pass deletes. *)
Lemma prune_split pressure cutoff l : forall m, let '(l', m') := prune_loop pressure cutoff l m in
  exists old, l = old ++ l' /\ Forall (fun p => p.1 <= AckedThrough m) old /\
    m' = m <| RecordBytes := RecordBytes m - weight old |> <| LowestRetained := match last old with Some p => p.1 + 1 | None => LowestRetained m end |>.
Proof.
  induction l as [|[k r] l IH]; intros m; cbn [Metering.prune_loop].
  - exists []. split; [done|]. split; [done|]. unfold weight. cbn. rewrite Z.sub_0_r. by destruct m.
  - destruct (AckedThrough m <? k) eqn:Ea; [exists []; split; [done|]; split; [done|]; unfold weight; cbn; rewrite Z.sub_0_r; by destruct m|].
    destruct (negb pressure && _); [exists []; split; [done|]; split; [done|]; unfold weight; cbn; rewrite Z.sub_0_r; by destruct m|].
    apply Z.ltb_ge in Ea. cbv zeta. destruct (pressure && _).
    + exists [(k, r)]. split; [done|]. split; [by constructor|]. rewrite weight_cons. unfold weight. cbn. by rewrite Z.add_0_r.
    + specialize (IH (m <| RecordBytes := RecordBytes m - (stored_size r + recordOverhead) |> <| LowestRetained := k + 1 |>)).
      destruct (prune_loop pressure cutoff l _) as [l' m']. destruct IH as (old & -> & Hold & ->). exists ((k, r) :: old). split; [done|].
      split; [by constructor|]. rewrite weight_cons. etransitivity; [apply set_bytes_twice|].
      match goal with |- _ <| RecordBytes := ?x |> <| LowestRetained := ?a |> = _ <| RecordBytes := ?y |> <| LowestRetained := ?b |> =>
        replace y with x by (cbn; lia); replace b with a by (rewrite last_cons; by destruct (last old)); reflexivity end.
Qed.

(** A run of sequences, cut in two. *)
Lemma run_split (old l : list (Z * UsageRecord)) : forall lo n, 0 <= n -> map fst (old ++ l) = seqZ lo n ->
  len old <= n /\ map fst l = seqZ (lo + len old) (n - len old) /\ match last old with Some p => p.1 + 1 | None => lo end = lo + len old /\
  Forall (fun p => lo <= p.1 < lo + len old) old.
Proof.
  induction old as [|[k r] old IH]; intros lo n Hn H.
  - cbn in *. rewrite Z.add_0_r, Z.sub_0_r. done.
  - cbn [app map] in H. destruct (decide (0 < n)) as [Hpos|Hneg]; [|by rewrite seqZ_nil in H by lia]. rewrite seqZ_cons in H by done. injection H as Hk H. cbn in Hk. subst k.
    destruct (IH (Z.succ lo) (Z.pred n) ltac:(lia) H) as (H1 & H2 & H3 & H4). rewrite len_cons, last_cons. split; [lia|]. split; [|split].
    + rewrite H2. apply (f_equal2 seqZ); lia.
    + destruct (last old); cbn in *; lia.
    + constructor; [cbn; pose proof (len_nonneg old); lia|]. eapply Forall_impl; [exact H4|]. cbn. intros. lia.
Qed.

Lemma prune_ok pressure clock j : journal_ok j -> journal_ok (pruneAcknowledged pressure clock j) /\ evolves j (pruneAcknowledged pressure clock j).
Proof.
  intros [K F B U [R1 R2]]. unfold Metering.pruneAcknowledged. pose proof (prune_split pressure (clock - AckedRetention cfg) (records j) (meta j)) as H.
  destruct (prune_loop pressure (clock - AckedRetention cfg) (records j) (meta j)) as [l m]. destruct H as (old & El & Hold & ->).
  rewrite El in K, F, B. destruct (run_split old l (LowestRetained (meta j)) (NextSequence (meta j) - LowestRetained (meta j)) ltac:(lia) K) as (S1 & S2 & S3 & S4). rewrite S3. pose proof (len_nonneg old) as Hn.
  apply Forall_app in F as [_ F]. rewrite weight_app in B. pose proof (weight_nonneg old).
  assert (Hacked : LowestRetained (meta j) + len old <= Z.max (LowestRetained (meta j)) (AckedThrough (meta j) + 1)).
  { destruct old as [|p old _] using rev_ind; [change (len []) with 0; lia|]. rewrite last_snoc in S3. apply Forall_app in Hold as [_ Hold]. apply Forall_cons in Hold as [Hold _]. cbn beta iota in S3, Hold. lia. }
  split; constructor; cbn; try done; try lia.
  - rewrite S2. f_equal. lia.
  - change (RecordBytes (meta j) - weight old = weight l). lia.
  - intros k r Hk Hl. rewrite El in Hk. apply elem_of_app in Hk as [Hk|Hk]; [|done]. rewrite Forall_forall in S4. specialize (S4 _ Hk). cbn in S4. lia.
Qed.

Lemma put_newest k r l : Forall (fun p => p.1 < k) l -> put_record k r l = l ++ [(k, r)].
Proof.
  induction 1 as [|[k' r'] l Hk _ IH]; [done|]. cbn in *. rewrite (proj2 (Z.ltb_ge k k')) by lia. rewrite (proj2 (Z.eqb_neq k k')) by lia. by rewrite IH.
Qed.

Lemma keys_below j : journal_ok j -> Forall (fun p => LowestRetained (meta j) <= p.1 < NextSequence (meta j)) (records j).
Proof.
  intros H. rewrite Forall_forall. intros p Hp. apply (list_elem_of_fmap_2 fst) in Hp. change (fst <$> records j) with (map fst (records j)) in Hp.
  rewrite (jo_keys _ H) in Hp. apply elem_of_seqZ in Hp. lia.
Qed.

(** The record as it is stored. *)
Definition sealed (j : journal) (r : UsageRecord) : UsageRecord :=
  r <| InstallationId := jm_InstallationID (meta j) |> <| ProducerId := jm_ProducerID (meta j) |>
    <| Sequence := NextSequence (meta j) |> <| MeterVersion := UsageMeterVersion |>.

Lemma append_effect record j j' : journal_ok j -> append record j = Ok j' ->
  journal_ok j' /\ evolves j j' /\ NextSequence (meta j') = NextSequence (meta j) + 1 /\ (NextSequence (meta j), sealed j record) ∈ records j' /\
  checkpoints j' = checkpoints j /\ is_Some (encoded (sealed j record)) /\ Timeline (meta j') = Timeline (meta j).
Proof.
  intros H. unfold Metering.append. cbv zeta. fold (sealed j record). destruct (encoded (sealed j record)) as [size|] eqn:Es; [|done].
  set (j1 := if over cfg size j then pruneAcknowledged true zero_time j else j).
  assert (H1 : journal_ok j1 /\ evolves j j1 /\ NextSequence (meta j1) = NextSequence (meta j) /\ checkpoints j1 = checkpoints j /\ Timeline (meta j1) = Timeline (meta j)).
  { unfold j1. destruct (over cfg size j); [|split; [exact H|split; [reflexivity|done]]]. destruct (prune_ok true zero_time j H) as [G1 G2]. split; [done|]. split; [done|].
    unfold Metering.pruneAcknowledged. pose proof (prune_split true (zero_time - AckedRetention cfg) (records j) (meta j)) as Hs.
    destruct (prune_loop true (zero_time - AckedRetention cfg) (records j) (meta j)) as [l m]. destruct Hs as (old & _ & _ & ->). done. }
  destruct H1 as (H1 & E1 & En & Ec & Et). destruct (over cfg size j1) eqn:Eo; [done|]. intros E. injection E as <-. unfold over in Eo. apply Z.ltb_ge in Eo. unfold capacity in Eo.
  pose proof (keys_below _ H1) as Hk. change (Sequence (sealed j record)) with (NextSequence (meta j)). rewrite <- En.
  rewrite put_newest by (eapply Forall_impl; [exact Hk|]; cbn; intros; lia).
  assert (Hsize : stored_size (sealed j record) = size) by (unfold Metering.stored_size; by rewrite Es). pose proof (encoded_nonneg _ _ Es).
  destruct H1 as [K F B U [R1 R2]]. split; [|split; [|split; [|split; [|split; [|split]]]]].
  - constructor; cbn.
    + rewrite map_app, K. cbn. replace (NextSequence (meta j1) + 1 - LowestRetained (meta j1)) with (NextSequence (meta j1) - LowestRetained (meta j1) + 1) by lia.
      rewrite seqZ_app by lia. f_equal. rewrite seqZ_cons, seqZ_nil by lia. f_equal. lia.
    + apply Forall_app. split; [done|]. apply Forall_singleton. unfold filed. cbn. destruct (ev_ids _ _ E1) as (<- & <- & _). done.
    + change (RecordBytes (meta j1) + (size + recordOverhead) = weight (records j1 ++ [(NextSequence (meta j1), sealed j record)])). rewrite weight_app, B.
      unfold weight at 3, sumZ. cbn. rewrite Hsize. lia.
    + lia.
    + lia.
  - etransitivity; [exact E1|]. constructor; cbn; try done; try lia. intros k r Hk' _. apply elem_of_app. by left.
  - cbn. lia.
  - cbn. apply elem_of_app. right. by apply list_elem_of_singleton.
  - cbn. exact Ec.
  - by eexists.
  - cbn. exact Et.
Qed.

(** ** Transactions *)

#[local] Abbreviation sealAt := (sealAt encoded cfg).
#[local] Abbreviation gapFrom := (gapFrom encoded cfg).
#[local] Abbreviation sealKeep := (sealKeep encoded cfg).
#[local] Abbreviation endUnobserved := (endUnobserved encoded cfg).

Record folder_ok (f : folder) : Prop := { fo_journal : journal_ok (f_j f); fo_states : f_states f = checkpoints (f_j f) }.

(** A step of a transaction that fails, or leaves a good journal. *)
Definition sound (f : folder) (r : result meter_error folder) : Prop :=
  match r with Ok f' => folder_ok f' /\ evolves (f_j f) (f_j f') | Err _ => True end.

Lemma sound_ret f : folder_ok f -> sound f (Ok f).
Proof. intros H. by split. Qed.

Lemma sound_bind f r k : sound f r -> (forall f', folder_ok f' -> sound f' (k f')) -> sound f (r ≫= k).
Proof.
  intros Hr Hk. destruct r as [f1|e]; [|done]. destruct Hr as [H1 E1]. specialize (Hk f1 H1). cbn. unfold sound in *. destruct (k f1) as [f2|e]; [|done].
  destruct Hk as [H2 E2]. split; [done|]. by etransitivity.
Qed.

Lemma sound_after f f1 r : evolves (f_j f) (f_j f1) -> sound f1 r -> sound f r.
Proof. intros E. unfold sound. destruct r as [f2|]; [|done]. intros [H1 H2]. split; [done|]. by etransitivity. Qed.

(** Changes of what the journal keeps beside its records. *)
Lemma evolves_same j j' : records j' = records j -> NextSequence (meta j') = NextSequence (meta j) -> LowestRetained (meta j') = LowestRetained (meta j) ->
  AckedThrough (meta j') = AckedThrough (meta j) -> jm_ProducerID (meta j') = jm_ProducerID (meta j) /\ jm_InstallationID (meta j') = jm_InstallationID (meta j) /\ jm_AgentID (meta j') = jm_AgentID (meta j) ->
  evolves j j'.
Proof. intros E1 E2 E3 E4 E5. constructor; rewrite ?E1, ?E2, ?E3, ?E4; try done; lia. Qed.

Lemma journal_same j j' : records j' = records j -> NextSequence (meta j') = NextSequence (meta j) -> LowestRetained (meta j') = LowestRetained (meta j) ->
  AckedThrough (meta j') = AckedThrough (meta j) -> RecordBytes (meta j') = RecordBytes (meta j) ->
  jm_ProducerID (meta j') = jm_ProducerID (meta j) /\ jm_InstallationID (meta j') = jm_InstallationID (meta j) ->
  journal_ok j -> journal_ok j'.
Proof.
  intros E1 E2 E3 E4 E5 [E6 E7] [K F B U R]. constructor; rewrite ?E1, ?E2, ?E3, ?E4, ?E5; try done.
  eapply Forall_impl; [exact F|]. intros p (A1 & A2 & A3). unfold filed. by rewrite E6, E7.
Qed.

Lemma keep_sound key st f : folder_ok f -> sound f (Ok (keep key st f)).
Proof.
  intros [H1 H2]. split; [split|]; [by apply (journal_same (f_j f))|cbn; by rewrite H2|by apply evolves_same].
Qed.

Lemma forget_sound key f : folder_ok f -> sound f (Ok (forget_state key f)).
Proof.
  intros [H1 H2]. split; [split|]; [by apply (journal_same (f_j f))|cbn; by rewrite H2|by apply evolves_same].
Qed.

Lemma forgotten_sound l f : folder_ok f -> sound f (Ok (f <| f_forget := l |>)).
Proof. intros [H1 H2]. split; [by split|reflexivity]. Qed.

Lemma appended_sound record f : folder_ok f -> sound f (j ← append record (f_j f); Ok (f <| f_j := j |>)).
Proof.
  intros [H1 H2]. destruct (append record (f_j f)) as [j|e] eqn:E; [|done]. apply append_effect in E as (G1 & G2 & _ & _ & G3 & _); [|done].
  split; [split; [done|cbn; congruence]|done].
Qed.
#[local] Hint Resolve sound_ret keep_sound forget_sound forgotten_sound appended_sound : meter.

Lemma sealAt_sound key st end_ final f : folder_ok f -> sound f (sealAt key st end_ final f).
Proof.
  intros H. unfold Metering.sealAt. destruct (interval (OpenStart st) end_) as [duration clockQ]. apply sound_bind.
  - destruct (0 <? duration); auto with meter.
  - intros f' H'. destruct final; auto with meter.
Qed.

Lemma gapFrom_sound st end_ reason f : folder_ok f -> sound f (gapFrom st end_ reason f).
Proof. intros H. unfold Metering.gapFrom. destruct (_ <=? _); auto with meter. Qed.

Lemma sealKeep_sound st end_ b f : folder_ok f -> sound f (sealKeep st end_ b f).
Proof. intros H. unfold Metering.sealKeep. destruct (interval (OpenStart st) end_) as [duration clockQ]. destruct (_ <=? _); auto with meter. Qed.
#[local] Hint Resolve sealAt_sound gapFrom_sound sealKeep_sound : meter.

Lemma endUnobserved_sound p key st f : folder_ok f -> sound f (endUnobserved p key st f).
Proof.
  intros H. unfold Metering.endUnobserved. destruct (_ <? _).
  - pose proof (sealKeep_sound st (Last st) true f H) as Hs. destruct (sealKeep st (Last st) true f) as [f1|e]; [|done]. cbn. destruct Hs as [H1 E1].
    eapply sound_after; [exact E1|]. apply sound_bind; auto with meter.
  - cbn. apply sound_bind; auto with meter.
Qed.

Lemma each_sound {A} (step : A -> folder -> result meter_error folder) l : (forall a f, folder_ok f -> sound f (step a f)) -> forall f, folder_ok f -> sound f (each step l f).
Proof. intros Hs. induction l as [|a l IH]; intros f H; cbn [each]; [auto with meter|]. apply sound_bind; auto. Qed.
#[local] Hint Resolve endUnobserved_sound each_sound : meter.

Lemma set_meta_sound g f : (forall m, NextSequence (g m) = NextSequence m /\ LowestRetained (g m) = LowestRetained m /\ AckedThrough (g m) = AckedThrough m /\ RecordBytes (g m) = RecordBytes m /\
    jm_ProducerID (g m) = jm_ProducerID m /\ jm_InstallationID (g m) = jm_InstallationID m /\ jm_AgentID (g m) = jm_AgentID m) ->
  folder_ok f -> sound f (Ok (set_meta g f)).
Proof.
  intros Hg [H1 H2]. destruct (Hg (meta (f_j f))) as (E1&E2&E3&E4&E5&E6&E7). split; [split|]; [|done|by apply evolves_same]. by apply (journal_same (f_j f)).
Qed.

Lemma flagged_forget_sound (b : bool) l f : folder_ok f -> sound f (Ok (if b then f else f <| f_forget := l |>)).
Proof. destruct b; auto with meter. Qed.
#[local] Hint Resolve flagged_forget_sound : meter.

Context (range : gmap string epochState -> list (string * epochState)).
#[local] Abbreviation fold_tx := (fold_tx encoded cfg range).
#[local] Abbreviation observe_tx := (observe_tx encoded cfg range).
#[local] Abbreviation observe_volume_tx := (observe_volume_tx encoded cfg).

Lemma alloc_step_sound p eg scanStart s f : folder_ok f -> sound f (alloc_step encoded cfg p eg scanStart s f).
Proof.
  intros H. unfold alloc_step. destruct (_ || _); [auto with meter|]. destruct (f_states f !! _) as [st|]; [|auto with meter].
  unfold foldAllocSample. destruct (interval (Last st) p) as [duration clockQ]. cbv zeta. destruct (_ || _); auto with meter.
Qed.

Lemma end_step_sound p key f : folder_ok f -> sound f (end_step encoded cfg p key f).
Proof.
  intros H. unfold end_step. destruct (f_states f !! key) as [st|]; [|auto with meter]. apply sound_bind; auto with meter.
Qed.

Lemma volume_step_sound p used scanStart id f : folder_ok f -> sound f (volume_step encoded cfg p used scanStart id f).
Proof.
  intros H. unfold volume_step. cbv zeta. destruct (f_states f !! _) as [st|]; [|auto with meter]. destruct (_ <? _); [auto with meter|].
  unfold foldVolumeSample. destruct (interval (Last st) p) as [duration clockQ]. cbv zeta. destruct (crossedMinute _ _); auto with meter.
Qed.

Lemma boot_step_sound bootStart e f : folder_ok f -> sound f (boot_step encoded cfg bootStart e f).
Proof.
  intros H. unfold boot_step. destruct e as [key st]. destruct (str_eqb _ _); [auto with meter|]. apply sound_bind; [auto with meter|]. intros f' H'.
  destruct (forget_sound key f' H') as [H1 E1]. eapply sound_after; [exact E1|]. auto with meter.
Qed.

Lemma observe_end_sound p id e f : folder_ok f -> sound f (observe_end encoded cfg p id e f).
Proof. intros H. unfold observe_end. destruct e as [key st]. destruct (_ && _); [|auto with meter]. apply sound_bind; auto with meter. Qed.
#[local] Hint Resolve alloc_step_sound end_step_sound volume_step_sound boot_step_sound observe_end_sound : meter.

Lemma timeline_sound tl f : folder_ok f -> sound f (Ok (set_meta (fun m => m <| Timeline := tl |>) f)).
Proof. apply set_meta_sound. by intros m. Qed.

Lemma prune_sound clock f : folder_ok f -> sound f (Ok (f <| f_j := pruneAcknowledged false clock (f_j f) |>)).
Proof.
  intros [H1 H2]. destruct (prune_ok false clock _ H1) as [G1 G2]. split; [split; [done|]|done]. cbn. rewrite H2.
  unfold Metering.pruneAcknowledged. by destruct (prune_loop false _ _ _).
Qed.

Lemma fold_tx_sound clock now sc v f : folder_ok f -> sound f (fold_tx clock now sc v f).
Proof.
  intros H. unfold Metering.fold_tx. destruct (at_ _ now) as [tl p]. cbv zeta. destruct (timeline_sound tl f H) as [H1 E1]. eapply sound_after; [exact E1|].
  apply sound_bind; [auto with meter|]. intros f2 H2. apply sound_bind.
  { destruct v; [auto with meter|]. apply sound_bind; auto with meter. }
  intros f3 H3. apply sound_bind.
  { unfold foldVolumes. destruct (negb _); [auto with meter|]. apply sound_bind; auto with meter. }
  intros f4 H4. match goal with |- sound _ (Ok (set_field _ (set_meta ?g f4))) => destruct (set_meta_sound g f4 ltac:(done) H4) as [H5 E5] end.
  eapply sound_after; [exact E5|]. by apply prune_sound.
Qed.

Lemma observe_tx_sound now id sample eg final f : folder_ok f -> sound f (observe_tx now id sample eg final f).
Proof.
  intros H. unfold Metering.observe_tx. destruct (at_ _ now) as [tl p]. cbv zeta. destruct (timeline_sound tl f H) as [H1 E1]. eapply sound_after; [exact E1|].
  destruct sample as [s|]; [|destruct final; auto with meter]. destruct (f_states _ !! _) as [st|].
  - destruct final; [|auto with meter]. match goal with |- sound ?a (Metering.sealAt _ _ _ _ _ _ (set_field ?l ?b)) => destruct (forgotten_sound l a H1) as [H2 E2] end.
    eapply sound_after; [exact E2|]. auto with meter.
  - destruct (keep_sound (allocKey (as_AllocationID s) (as_CgroupID s)) (newAllocState p eg s p) _ H1) as [H2 E2]. eapply sound_after; [exact E2|].
    destruct final; auto with meter.
Qed.

Lemma observe_volume_tx_sound now id used final f : folder_ok f -> sound f (observe_volume_tx now id used final f).
Proof.
  intros H. unfold Metering.observe_volume_tx. destruct (at_ _ now) as [tl p]. cbv zeta. destruct (timeline_sound tl f H) as [H1 E1]. eapply sound_after; [exact E1|].
  destruct (f_states _ !! _) as [st|]; [|destruct final; auto with meter]. destruct (interval (Last st) p) as [duration clockQ]. destruct final; auto with meter.
Qed.

(** ** Histories of a meter *)

Context (Health : Type) (health : Meter -> option Health) (installation agent : string).
#[local] Abbreviation deliver_round := (deliver_round encoded Health health).

Inductive event : Type :=
| MTick (clock : time) (now : Instant) (allocations : result string (list AllocationSample)) (inventory : result string (list string))
    (used : string -> option Z) (eg : egress_reading)
| MObserveAllocation (now : Instant) (allocationID : string) (sample : option AllocationSample) (eg : egress_reading) (final : bool)
| MObserveVolume (now : Instant) (volumeID : string) (used : option Z) (final : bool)
| MAcknowledge (clock : time) (ack : UsageAcknowledgement)
| MAttach (sessionID : string)
| MDetach
| MDeliver (now : time) (sent : bool)
| MRestart (now : time) (uuid : string).

(** A meter and the loop that delivers for it. *)
Definition agent_state : Type := courier * Meter.

(** An event whose update of the journal, if it makes one, began with a copy of
    the metadata. *)
Definition step_from (copied : journalMeta) (e : event) (s : agent_state) : agent_state :=
  let '(c, m) := s in
  match e with
  | MTick clock now allocations inventory used eg => (c, (Tick_from encoded cfg range copied clock now allocations inventory used eg m).1)
  | MObserveAllocation now id sample eg final => (c, (ObserveAllocation_from encoded cfg range copied now id sample eg final m).1)
  | MObserveVolume now id used final => (c, (ObserveVolume_from encoded cfg copied now id used final m).1)
  | MAcknowledge clock ack => (c, Acknowledge_from encoded cfg copied clock ack m)
  | MAttach sessionID => (c, Attach agent sessionID m)
  | MDetach => (c, Detach m)
  | MDeliver now sent => (deliver_round now sent c m).1
  | MRestart now uuid => (Build_courier false zero_time now, default m (Open (Some (m_journal m)) installation agent uuid))
  end.

(** An event whose update overlaps no other one. *)
Definition step (e : event) (s : agent_state) : agent_state := step_from (meta (m_journal s.2)) e s.

Definition start (now : time) (uuid : string) : agent_state :=
  (Build_courier false zero_time now, Build_Meter (Build_journal (newMeta uuid installation agent) [] ∅) ∅ None 0 1 false).

Lemma start_is_open now uuid : installation <> "" -> agent <> "" -> Open None installation agent uuid = Some (start now uuid).2.
Proof.
  intros H1 H2. unfold Open, openJournal. rewrite (proj2 (str_eqb_neq installation "")), (proj2 (str_eqb_neq agent "")) by done. done.
Qed.

(** Acknowledgements carry 64-bit cursors. *)
Definition typed (e : event) : Prop := match e with MAcknowledge _ ack => 0 <= ack_AcceptedThrough ack | _ => True end.

(** Histories in which updates of the journal do not overlap: each begins with
    a copy of the metadata the one before it left. *)
Inductive reachable : agent_state -> Prop :=
| reach_start now uuid : reachable (start now uuid)
| reach_step s e : reachable s -> typed e -> reachable (step e s).

Record meter_ok (m : Meter) : Prop := {
  mo_journal : journal_ok (m_journal m);
  mo_states : m_states m = checkpoints (m_journal m);
  mo_ids : jm_InstallationID (meta (m_journal m)) = installation /\ jm_AgentID (meta (m_journal m)) = agent;
  mo_from : sendFrom m = AckedThrough (meta (m_journal m)) + 1
}.

Lemma transaction_ok tx m : (forall f, folder_ok f -> sound f (tx f)) -> meter_ok m -> let m' := (update tx m).1 in meter_ok m' /\ evolves (m_journal m) (m_journal m').
Proof.
  intros Htx [H1 H2 [H3 H4] H5]. cbv zeta. rewrite update_current. pose proof (Htx (Build_folder (m_journal m) (m_states m) []) (Build_folder_ok (Build_folder (m_journal m) (m_states m) []) H1 H2)) as Hs. unfold sound in Hs.
  destruct (tx _) as [f|e]; cbn; [|split; [by constructor|reflexivity]]. destruct Hs as [[G1 G2] E]. cbn in E. split; [|done].
  destruct (ev_ids _ _ E) as (I1 & I2 & I3). pose proof (ev_acked _ _ E) as Ha. cbn in Ha. constructor; cbn; [done|done|split; congruence|lia].
Qed.

Lemma with_meta_ok g m : (forall k, NextSequence (g k) = NextSequence k /\ LowestRetained (g k) = LowestRetained k /\ AckedThrough (g k) = AckedThrough k /\ RecordBytes (g k) = RecordBytes k /\
    jm_ProducerID (g k) = jm_ProducerID k /\ jm_InstallationID (g k) = jm_InstallationID k /\ jm_AgentID (g k) = jm_AgentID k) ->
  meter_ok m -> meter_ok (with_meta g m) /\ evolves (m_journal m) (m_journal (with_meta g m)).
Proof.
  intros Hg [H1 H2 [H3 H4] H5]. destruct (Hg (meta (m_journal m))) as (E1&E2&E3&E4&E5&E6&E7). split; [|by apply evolves_same].
  constructor; cbn; [by apply (journal_same (m_journal m))|done|split; congruence|lia].
Qed.

Lemma afterFold_ok now tx m : (forall f, folder_ok f -> sound f (tx f)) -> meter_ok m ->
  let m' := (afterFold cfg now (update tx m)).1 in meter_ok m' /\ evolves (m_journal m) (m_journal m').
Proof.
  intros Htx H. destruct (transaction_ok tx m Htx H) as [H1 E1]. cbv zeta in H1, E1. destruct (update tx m) as [m1 outcome]. cbn in H1, E1. unfold afterFold.
  destruct outcome as [forget|[]]; cbn [fst]; try done.
  - destruct (_ =? 0); [done|]. destruct (with_meta_ok (fun k => k <| ExhaustedSinceMS := 0 |>) m1 ltac:(done) H1) as [H2 E2]. split; [done|]. by etransitivity.
  - match goal with |- meter_ok (with_meta ?g m1) /\ _ => destruct (with_meta_ok g m1 ltac:(done) H1) as [H2 E2] end. split; [done|]. by etransitivity.
Qed.

Lemma acknowledge_ok clock ack m : 0 <= ack_AcceptedThrough ack -> meter_ok m -> let m' := Acknowledge encoded cfg clock ack m in meter_ok m' /\
  forall k r, (k, r) ∈ records (m_journal m) -> AckedThrough (meta (m_journal m)) < k -> ack_AcceptedThrough ack < k -> (k, r) ∈ records (m_journal m').
Proof.
  intros Hpos H. unfold Acknowledge, Acknowledge_from. destruct (negb _); [done|]. cbv zeta.
  set (m1 := if str_eqb (ack_Conflict ack) "" then m else m <| conflict := true |>).
  assert (H1 : meter_ok m1 /\ m_journal m1 = m_journal m) by (unfold m1; destruct (str_eqb _ _); [done|]; split; [destruct H; by constructor|done]).
  destruct H1 as [H1 <-]. unfold acknowledge_from. destruct (_ <=? ack_AcceptedThrough ack) eqn:En; [done|]. apply Z.leb_gt in En. destruct H1 as [J1 S1 [I1 I2] F1].
  destruct (ack_AcceptedThrough ack =? _) eqn:Ea; [apply Z.eqb_eq in Ea; split; [constructor; cbn; try done; lia|done]|].
  assert (J2 : journal_ok ((m_journal m1) <| meta := ((meta (m_journal m1)) <| AckedThrough := ack_AcceptedThrough ack |>) |>)).
  { destruct J1 as [K F B U [R1 R2]]. constructor; done. }
  destruct (prune_ok false clock _ J2) as [J3 E3]. split.
  - destruct (ev_ids _ _ E3) as (G1 & G2 & G3). pose proof (ev_acked _ _ E3) as G4. cbn in G1, G2, G3, G4. constructor; cbn; [exact J3| |split; congruence|lia].
    rewrite S1. unfold Metering.pruneAcknowledged. by destruct (prune_loop false _ _ _).
  - intros k r Hk Hak Hck. apply (ev_kept _ _ E3); [done|]. destruct (ev_lowest _ _ E3) as [_ G]. cbn in G.
    pose proof (keys_below _ J1) as Hb. rewrite Forall_forall in Hb. specialize (Hb _ Hk). cbn in Hb. lia.
Qed.

Lemma prune_next clock j : NextSequence (meta (pruneAcknowledged false clock j)) = NextSequence (meta j) /\
  forall p, p ∈ records (pruneAcknowledged false clock j) -> p ∈ records j.
Proof.
  unfold Metering.pruneAcknowledged. pose proof (prune_split false (clock - AckedRetention cfg) (records j) (meta j)) as H.
  destruct (prune_loop false (clock - AckedRetention cfg) (records j) (meta j)) as [l m]. destruct H as (old & -> & _ & ->). split; [done|]. cbn. set_solver.
Qed.

(** An acknowledgement of records that were produced is applied. *)
Lemma acknowledge_effect clock ack m : meter_ok m -> ack_ProducerId ack = jm_ProducerID (meta (m_journal m)) -> ack_Conflict ack = "" ->
  0 <= ack_AcceptedThrough ack < NextSequence (meta (m_journal m)) ->
  let m' := Acknowledge encoded cfg clock ack m in
  sendFrom m' = ack_AcceptedThrough ack + 1 /\ NextSequence (meta (m_journal m')) = NextSequence (meta (m_journal m)) /\
  jm_ProducerID (meta (m_journal m')) = jm_ProducerID (meta (m_journal m)) /\ session m' = session m /\ conflict m' = conflict m /\
  LowestRetained (meta (m_journal m')) <= Z.max (LowestRetained (meta (m_journal m))) (ack_AcceptedThrough ack + 1) /\
  forall p, p ∈ records (m_journal m') -> p ∈ records (m_journal m).
Proof.
  intros H E1 E2 Hr. unfold Acknowledge, Acknowledge_from. rewrite E1, E2, (proj2 (str_eqb_eq _ _) eq_refl). cbn [negb]. change (str_eqb "" "") with true. cbv iota zeta.
  unfold acknowledge_from. rewrite (proj2 (Z.leb_gt _ _)) by lia. destruct (_ =? _) eqn:Ea; [split_and!; try done; cbn; lia|].
  destruct H as [J1 S1 I1 F1].
  assert (J2 : journal_ok ((m_journal m) <| meta := ((meta (m_journal m)) <| AckedThrough := ack_AcceptedThrough ack |>) |>)).
  { destruct J1 as [K F B U [R1 R2]]. constructor; done. }
  destruct (prune_ok false clock _ J2) as [_ E3]. destruct (prune_next clock ((m_journal m) <| meta := ((meta (m_journal m)) <| AckedThrough := ack_AcceptedThrough ack |>) |>)) as [G1 G2].
  destruct (ev_ids _ _ E3) as (I2 & _). destruct (ev_lowest _ _ E3) as [_ G3]. split_and!; try done.
Qed.

Lemma round_journal now sent c m : let m' := (deliver_round now sent c m).1.2 in m_journal m' = m_journal m /\ m_states m' = m_states m /\ sendFrom m' = sendFrom m.
Proof.
  unfold Metering.deliver_round. destruct (session m) as [[a s]|]; [|done]. destruct (conflict m); [done|]. destruct (_ && _); [done|]. cbv zeta.
  destruct (journal_batch _ _ _) as [batch lost]. destruct (_ && _); [done|]. by destruct sent.
Qed.

(** What a step keeps: a record that no acknowledgement covers. *)
Definition uncovered (e : event) (k : Z) : Prop := match e with MAcknowledge _ ack => ack_AcceptedThrough ack < k | _ => True end.

Lemma evolves_uncovered j j' k r : journal_ok j -> evolves j j' -> (k, r) ∈ records j -> AckedThrough (meta j) < k -> (k, r) ∈ records j'.
Proof.
  intros H E Hk Ha. apply (ev_kept _ _ E); [done|]. pose proof (ev_lowest _ _ E). pose proof (keys_below _ H) as Hb. rewrite Forall_forall in Hb.
  specialize (Hb _ Hk). cbn in Hb. lia.
Qed.

Lemma event_ok e s : meter_ok s.2 -> typed e -> meter_ok (step e s).2 /\
  forall k r, (k, r) ∈ records (m_journal s.2) -> AckedThrough (meta (m_journal s.2)) < k -> uncovered e k -> (k, r) ∈ records (m_journal (step e s).2).
Proof.
  destruct s as [c m]. cbn [snd]. intros H Ht. assert (Hev : forall m', meter_ok m' /\ evolves (m_journal m) (m_journal m') -> meter_ok m' /\
    forall k r, (k, r) ∈ records (m_journal m) -> AckedThrough (meta (m_journal m)) < k -> uncovered e k -> (k, r) ∈ records (m_journal m')).
  { intros m' [H1 E1]. split; [done|]. intros k r Hk Ha _. eapply evolves_uncovered; [apply H|done|done|done]. }
  unfold step. cbn [snd]. destruct e; cbn [step_from snd fst].
  - unfold Tick_from. assert (Herr : forall err, meter_ok (recordError err m) /\ evolves (m_journal m) (m_journal (recordError err m))) by (intros err; by apply with_meta_ok).
    destruct (if has_allocations cfg then _ else _) as [allocs|]; [|apply Hev, Herr]. destruct (if has_volumes cfg then _ else _) as [ids|]; [|apply Hev, Herr].
    apply Hev, afterFold_ok; [|done]. intros f. apply fold_tx_sound.
  - unfold ObserveAllocation_from. destruct (negb _); [apply Hev; split; [exact H|reflexivity]|]. apply Hev, afterFold_ok; [|done]. intros f. apply observe_tx_sound.
  - unfold ObserveVolume_from. destruct (negb _); [apply Hev; split; [exact H|reflexivity]|]. apply Hev, afterFold_ok; [|done]. intros f. apply observe_volume_tx_sound.
  - destruct (acknowledge_ok clock ack m Ht H) as [G1 G2]. split; [done|]. intros k r Hk Ha Hu. by apply G2.
  - apply Hev. split; [|reflexivity]. destruct H. by constructor.
  - apply Hev. split; [|reflexivity]. destruct H. by constructor.
  - destruct (round_journal now sent c m) as (E1 & E2 & E3). cbv zeta in E1, E2, E3. destruct (deliver_round now sent c m) as [[c' m'] rep]. cbn in *. rewrite E1.
    split; [|done]. destruct H as [H1 H2 H3 H4]. constructor; rewrite ?E1, ?E2, ?E3; done.
  - destruct H as [H1 H2 [H3 H4] H5]. destruct (jo_range _ H1) as [R1 R2]. unfold Open, openJournal. destruct (str_eqb installation "" || str_eqb agent ""); [by cbn|].
    rewrite (proj2 (Z.eqb_neq (NextSequence (meta (m_journal m))) 0)) by lia. rewrite H3, H4, !(proj2 (str_eqb_eq _ _) eq_refl). cbn.
    split; [|done]. by constructor.
Qed.

Lemma meter_reachable s : reachable s -> meter_ok s.2.
Proof.
  induction 1 as [now uuid|s e _ IH Ht]; [|by apply event_ok]. constructor; cbn; try done. constructor; cbn; try done; lia.
Qed.

(** C14: after any history of ticks, lifecycle edges, acknowledgements, rounds of
    delivery and restarts in which updates of the journal do not overlap (each
    begins with a copy of the metadata the one before it left; [Acknowledge]
    takes no lock that would enforce this), the journal holds one record for
    every sequence from the lowest retained to the newest, each under its own
    identity; its byte count is exact and within the budget; and the open epochs
    in memory are the stored ones, so a restart resumes with them. *)
Theorem meter_journal_invariant s : reachable s ->
  let m := s.2 in let j := m_journal m in
  map fst (records j) = seqZ (LowestRetained (meta j)) (NextSequence (meta j) - LowestRetained (meta j)) /\
  (forall k r, (k, r) ∈ records j -> Sequence r = k /\ InstallationId r = installation /\ ProducerId r = jm_ProducerID (meta j)) /\
  RecordBytes (meta j) = weight (records j) /\ RecordBytes (meta j) <= Z.max 0 (MaxBytes cfg) /\ m_states m = checkpoints j /\
  (installation <> "" -> agent <> "" -> forall uuid, exists m', Open (Some j) installation agent uuid = Some m' /\ m_journal m' = j /\ m_states m' = m_states m).
Proof.
  intros Hr m j. apply meter_reachable in Hr. fold m in Hr. destruct Hr as [[K F B U [R1 R2]] Hs [I1 I2] Hf]. fold j in K, F, B, U, R1, R2, Hs, I1, I2, Hf.
  split; [done|]. split; [|split; [done|split; [done|split; [done|]]]].
  - intros k r Hk. rewrite Forall_forall in F. destruct (F _ Hk) as (A1 & A2 & A3). cbn in *. split; [done|]. split; [congruence|done].
  - intros N1 N2 uuid. unfold Open, openJournal. rewrite (proj2 (str_eqb_neq installation "")), (proj2 (str_eqb_neq agent "")) by done.
    rewrite (proj2 (Z.eqb_neq (NextSequence (meta j)) 0)) by lia. rewrite I1, I2, !(proj2 (str_eqb_eq _ _) eq_refl). cbn. eexists. split; [reflexivity|]. done.
Qed.

(** C13: as long as updates of the journal do not overlap (each begins with a copy
    of the metadata the one before it left), a record stays in the journal,
    unchanged, until an acknowledgement covers it, whatever else happens, a full
    journal and restarts included.  [overlap_loses_record] below shows what an
    overlapping acknowledgement does. *)
Theorem unacknowledged_never_lost s e k r : reachable s -> typed e ->
  (k, r) ∈ records (m_journal s.2) -> AckedThrough (meta (m_journal s.2)) < k -> uncovered e k -> (k, r) ∈ records (m_journal (step e s).2).
Proof. intros Hr Ht. apply meter_reachable in Hr. by apply event_ok. Qed.

End Journal.
(** ** An agent that runs out of journal *)

Module Example.

(** Two records of a hundred bytes fit. *)
Definition cfg0 : Config := Build_Config 300 (24 * hour) (5 * second) (60 * second) true true false.
Definition size0 (r : UsageRecord) : option Z := Some 100.
Definition T : time := unix_epoch + 365 * day.
Definition reading (boot : string) (mono wall : duration) : Instant := Build_Instant boot mono (T + wall).
Definition sample (cpu : Z) : AllocationSample := Build_AllocationSample "a1" 42 (Some cpu) (Some 4096).
Definition tick (at_second cpu : Z) : event :=
  MTick (T + at_second * second) (reading "boot" (at_second * second) (at_second * second)) (Ok [sample cpu]) (Ok []) (fun _ => None) no_reading.

#[local] Abbreviation step := (step size0 cfg0 map_to_list unit (fun _ => None) "inst" "agent").
#[local] Abbreviation reachable := (reachable size0 cfg0 map_to_list unit (fun _ => None) "inst" "agent").

Definition s0 : agent_state := start "inst" "agent" T "journal".
Definition s1 : agent_state := step (tick 130 500) (step (tick 70 200) (step (tick 10 0) s0)).
Definition no_record : UsageRecord := Build_UsageRecord "" "" 0 0 0 "" "" "" None None 0 "" 0 0 "" 0 "" 0 no_egress "".
Definition first : UsageRecord := default no_record (snd <$> records (m_journal s1.2) !! 0%nat).

Lemma size0_nonneg r n : size0 r = Some n -> 0 <= n.
Proof. intros E. by injection E as <-. Qed.

Lemma s1_reachable : reachable s1.
Proof. do 3 (apply reach_step; [|done]). apply reach_start. Qed.

Lemma first_stored : (1, first) ∈ records (m_journal s1.2).
Proof. apply list_elem_of_lookup. exists 0%nat. vm_compute. reflexivity. Qed.

Lemma meter_journal_invariant_witness : map fst (records (m_journal s1.2)) = [1; 2] /\ RecordBytes (meta (m_journal s1.2)) = 296 /\
  (forall k r, (k, r) ∈ records (m_journal s1.2) -> Sequence r = k /\ InstallationId r = "inst") /\
  exists m', Open (Some (m_journal s1.2)) "inst" "agent" "other" = Some m' /\ m_journal m' = m_journal s1.2 /\ m_states m' = m_states s1.2.
Proof.
  destruct (meter_journal_invariant size0 cfg0 size0_nonneg map_to_list unit (fun _ => None) "inst" "agent" s1 s1_reachable) as (_ & H2 & _ & _ & _ & H6).
  split; [vm_compute; reflexivity|]. split; [vm_compute; reflexivity|]. split; [intros k r Hk; destruct (H2 k r Hk) as (A & B & _); by split|]. by apply H6.
Defined.

(** The third minute does not fit: the first is kept. *)
Lemma unacknowledged_never_lost_witness : (1, first) ∈ records (m_journal (step (tick 190 900) s1).2) /\
  map fst (records (m_journal (step (tick 190 900) s1).2)) = [1; 2] /\ LastError (meta (m_journal (step (tick 190 900) s1).2)) = "usage journal is full".
Proof.
  split; [|split; vm_compute; reflexivity].
  apply (unacknowledged_never_lost size0 cfg0 size0_nonneg map_to_list unit (fun _ => None) "inst" "agent" s1 (tick 190 900) 1 first s1_reachable I first_stored).
  - vm_compute. reflexivity.
  - exact I.
Defined.

(** *** An acknowledgement that overlaps a tick

    [Acknowledge] copies the metadata when one record is stored, a tick stores
    the second, and then the transaction of the acknowledgement runs on the
    copy: the next sequence goes back, and the next tick writes over the second
    record, which nobody acknowledged. *)

Definition roomy : Config := Build_Config 100000 (24 * hour) (5 * second) (60 * second) true true false.
#[local] Abbreviation run e s := (MeterJournal.step size0 roomy map_to_list unit (fun _ => None) "inst" "agent" e s).
Definition one_stored : agent_state := run (tick 70 200) (run (tick 10 0) s0).
Definition two_stored : agent_state := run (tick 130 500) one_stored.
Definition ack_first : event := MAcknowledge (T + 131 * second) (Build_UsageAcknowledgement "journal" 1 1 [] "").
Definition overlapped : agent_state :=
  step_from size0 roomy map_to_list unit (fun _ => None) "inst" "agent" (meta (m_journal one_stored.2)) ack_first two_stored.
Definition stored_charges (s : agent_state) : list (Z * Z) := map (fun p => (p.1, CpuMicroseconds p.2)) (records (m_journal s.2)).

Example overlap_loses_record :
  stored_charges two_stored = [(1, 200); (2, 300)] /\
  AckedThrough (meta (m_journal overlapped.2)) = 1 /\ NextSequence (meta (m_journal overlapped.2)) = 2 /\
  stored_charges (run (tick 190 900) overlapped) = [(1, 200); (2, 400)] /\
  stored_charges (run (tick 190 900) (run ack_first two_stored)) = [(1, 200); (2, 300); (3, 400)].
Proof. repeat split; vm_compute; reflexivity. Qed.

(** *** A stepped clock

    The wall clock jumps an hour between two samples.  The duration is the whole
    monotonic time, rounded once, and the covered time the sum of two roundings:
    it is a millisecond longer, and the control plane refuses the record. *)

Definition micro_tick (mono wall : Z) : event :=
  MTick (T + wall * microsecond) (reading "boot" (mono * microsecond) (wall * microsecond)) (Ok [sample 0]) (Ok []) (fun _ => None) no_reading.
Definition stepped : agent_state :=
  fold_left (fun s e => step e s)
    [micro_tick 0 0; micro_tick 60000900 60000900; micro_tick 65000000 65000000; micro_tick 70000000 (70000000 + 3600 * 1000000)] s0.

Example covered_exceeds_duration : map (fun p => (DurationMs p.2, MemoryCoveredMs p.2)) (records (m_journal stepped.2)) = [(60000, 10000); (9999, 10000)].
Proof. vm_compute. reflexivity. Qed.

Example stepped_minute_refused :
  map (fun p => match validateRecord p.2 (T + 2 * hour) (Build_nodeLimits 0 0) with Ok _ => "" | Err e => e end) (records (m_journal stepped.2)) = [""; "invalid: coverage exceeds the duration"].
Proof. vm_compute. reflexivity. Qed.

(** *** A reboot with the clock behind

    A host reboots, and its wall clock starts two minutes behind the timeline.
    The volume's new epoch starts at the boot, placed before the last sealed
    minute. *)

Definition volume_tick (boot : string) (mono wall : Z) : event :=
  MTick (T + wall * second) (reading boot (mono * second) (wall * second)) (Ok []) (Ok ["v1"]) (fun _ => Some 1000) no_reading.
Definition rebooted : agent_state :=
  fold_left (fun s e => step e s) [volume_tick "one" 0 0; volume_tick "one" 120 120; volume_tick "two" 90 0; volume_tick "two" 150 180] s0.

Example epochs_overlap : map (fun p => (AsTime (Start p.2) - T, AsTime (End_ p.2) - T)) (records (m_journal rebooted.2)) = [(0, 120 * second); (30 * second, 180 * second)].
Proof. vm_compute. reflexivity. Qed.

End Example.

End MeterJournal.
