(* ===== verification/MeterCounters.v ===== *)
(** * What an agent charges for

    The counters of the kernel against the records of [Metering]: over any
    history of ticks, lifecycle edges, acknowledgements, full journals, restarts
    and reboots in which the samples of a task are folded in the order in which
    they were read, the processor time of all records of a task is at most what
    its counter read.  A tick reads its samples under the lock of the meter; a
    lifecycle edge reads its sample before it takes the lock, and the last part
    has what happens when a tick overtakes it. *)

From S2P Require Import Prelude GoText GoFloat DurableWork Billing ClosePeriod GoTime Sha256 RowMap Journal Product LogPipeline UsageRecords UsageIngest Metering MeterJournal.

Module MeterCounters.
Import UsageRecords UsageIngest Metering MeterJournal.

(** ** Names that end in a number *)

Definition slash : Ascii.ascii := Ascii.ascii_of_nat 47.
Fixpoint slashed (s : string) : bool := match s with "" => false | String c s => Ascii.eqb c slash || slashed s end.

Lemma slashed_app a b : slashed (a +:+ String slash b) = true.
Proof. induction a as [|c a IH]; [done|]. change (Ascii.eqb c slash || slashed (a +:+ String slash b) = true). by rewrite IH, orb_true_r. Qed.

Lemma digits_plain x : forall s, slashed s = false -> slashed (pretty_N_go x s) = false.
Proof.
  induction (N.lt_wf_0 x) as [x _ IH]. intros s Hs. destruct (decide (x = 0%N)) as [->|]; [by rewrite pretty_N_go_0|].
  rewrite pretty_N_go_step by lia. apply IH; [apply N.div_lt; lia|]. cbn. rewrite Hs, orb_false_r. unfold pretty_N_char. by repeat case_match.
Qed.

Lemma pretty_plain (z : Z) : slashed (pretty z) = false.
Proof.
  assert (H : forall n : N, slashed (pretty n) = false) by (intros n; unfold pretty, pretty_N; case_decide; [done|by apply digits_plain]).
  destruct z as [|p|p]; [done|apply (H (Npos p))|]. cbn. apply (H (Npos p)).
Qed.

Lemma cut_last a : forall b (x y : string), slashed x = false -> slashed y = false -> a +:+ String slash x = b +:+ String slash y -> a = b /\ x = y.
Proof.
  induction a as [|c a IH]; intros [|d b] x y Hx Hy E; cbn in E.
  - by injection E as <-.
  - injection E as _ ->. by rewrite slashed_app in Hx.
  - injection E as _ <-. by rewrite slashed_app in Hy.
  - injection E as <- E. by destruct (IH b x y Hx Hy E) as [-> ->].
Qed.

Lemma numbered_inj (a b : string) (x y : Z) : a +:+ "/" +:+ pretty x = b +:+ "/" +:+ pretty y -> a = b /\ x = y.
Proof. intros E. apply cut_last in E as [-> E]; [|apply pretty_plain..]. by apply (inj pretty) in E as ->. Qed.

Lemma allocKey_inj id id' cg cg' : allocKey id cg = allocKey id' cg' -> id = id' /\ cg = cg'.
Proof. unfold allocKey. cbn. intros E. injection E as E. by apply numbered_inj. Qed.

Lemma keys_apart id cg id' : allocKey id cg <> volumeKey id'.
Proof. done. Qed.

(** ** Records that a transaction adds *)

Section Counters.
Context (encoded : UsageRecord -> option Z) (cfg : Config) (range : gmap string epochState -> list (string * epochState)).
Hypothesis encoded_nonneg : forall r n, encoded r = Some n -> 0 <= n.
Hypothesis range_all : forall m, range m ≡ₚ map_to_list m.
#[local] Abbreviation append := (append encoded cfg).
#[local] Abbreviation journal_ok := (journal_ok encoded cfg).
#[local] Abbreviation folder_ok := (folder_ok encoded cfg).
#[local] Abbreviation sound := (sound encoded cfg).
#[local] Abbreviation pruneAcknowledged := (pruneAcknowledged encoded cfg).

(** The records from a sequence on. *)
Definition since (n : Z) (j : journal) : list UsageRecord := map snd (List.filter (fun p => n <=? p.1) (records j)).

(** [j'] has the records of [j] and [l] after them, beyond what is acknowledged. *)
Definition emits (j j' : journal) (l : list UsageRecord) : Prop :=
  forall n, AckedThrough (meta j) < n <= NextSequence (meta j) -> since n j' = since n j ++ l.

Lemma emits_same j j' : records j' = records j -> emits j j' [].
Proof. intros E n _. unfold since. by rewrite E, app_nil_r. Qed.

Lemma emits_trans j1 j2 j3 l1 l2 : evolves j1 j2 -> emits j1 j2 l1 -> emits j2 j3 l2 -> emits j1 j3 (l1 ++ l2).
Proof.
  intros E H1 H2 n Hn. pose proof (ev_acked _ _ E). pose proof (ev_next _ _ E). rewrite H2 by lia. rewrite H1 by done. by rewrite app_assoc.
Qed.

Lemma since_app n l1 l2 (j1 j2 : journal) : records j2 = records j1 ++ l2 -> l1 = List.filter (fun p => n <=? p.1) l2 -> since n j2 = since n j1 ++ map snd l1.
Proof. intros E ->. unfold since. by rewrite E, List.filter_app, map_app. Qed.

Lemma emits_prune pressure clock j : emits j (pruneAcknowledged pressure clock j) [].
Proof.
  intros n Hn. rewrite app_nil_r. unfold since, Metering.pruneAcknowledged. pose proof (prune_split encoded cfg pressure (clock - AckedRetention cfg) (records j) (meta j)) as H.
  destruct (prune_loop encoded cfg pressure _ _ _) as [l m]. destruct H as (old & -> & Hold & _). cbn. rewrite List.filter_app, map_app.
  replace (List.filter (fun p => n <=? p.1) old) with (@nil (Z * UsageRecord)); [done|]. symmetry. induction Hold as [|p old Hp _ IH]; [done|]. cbn.
  rewrite (proj2 (Z.leb_gt n p.1)) by lia. exact IH.
Qed.

Lemma emits_append record j j' : journal_ok j -> append record j = Ok j' -> emits j j' [sealed j record].
Proof.
  intros H. unfold Metering.append. cbv zeta. fold (sealed j record). destruct (encoded (sealed j record)) as [size|]; [|done].
  set (j1 := if over cfg size j then pruneAcknowledged true zero_time j else j).
  assert (H1 : journal_ok j1 /\ emits j j1 [] /\ NextSequence (meta j1) = NextSequence (meta j)).
  { unfold j1. destruct (over cfg size j); [|split; [exact H|split; [by apply emits_same|done]]]. split; [by apply prune_ok|]. split; [apply emits_prune|].
    unfold Metering.pruneAcknowledged. pose proof (prune_split encoded cfg true (zero_time - AckedRetention cfg) (records j) (meta j)) as Hs.
    destruct (prune_loop encoded cfg true _ _ _) as [l m]. by destruct Hs as (old & _ & _ & ->). }
  destruct H1 as (H1 & E1 & En). destruct (over cfg size j1); [done|]. intros E. injection E as <-. intros n Hn.
  rewrite <- (app_nil_r (since n j)), <- (E1 n Hn). pose proof (keys_below _ _ _ H1) as Hk.
  apply (since_app n [(NextSequence (meta j), sealed j record)] [(NextSequence (meta j), sealed j record)]).
  - cbn. apply put_newest. eapply Forall_impl; [exact Hk|]. cbn. intros. lia.
  - cbn. by rewrite (proj2 (Z.leb_le _ _)) by lia.
Qed.

(** ** The counters of tasks

    [cpu cg n] is what the kernel's counter of the cgroup [cg] reads at the time
    of the [n]th event, and [boot_of cg] the boot in which the cgroup lives.
    Below, [n cg] is the time at which the sample of [cg] that was folded last
    had been read. *)

Context (boot_of : Z -> string) (cpu : Z -> nat -> Z).
Hypothesis cpu_range : forall cg n, in_uint64 (cpu cg n).
Hypothesis cpu_grows : forall cg n, cpu cg n <= cpu cg (S n).

Lemma cpu_mono cg n k : (n <= k)%nat -> cpu cg n <= cpu cg k.
Proof using cpu_grows. induction 1 as [|k _ IH]; [lia|]. pose proof (cpu_grows cg k). lia. Qed.

Definition epoch (cg : Z) : string := boot_of cg +:+ "/" +:+ pretty cg.
Definition is_of (id : string) (cg : Z) (r : UsageRecord) : bool := str_eqb (ResourceId r) id && str_eqb (CounterEpoch r) (epoch cg).

(** The processor time of a task in records. *)
Definition charged (l : list UsageRecord) (id : string) (cg : Z) : Z := sumZ CpuMicroseconds (List.filter (is_of id cg) l).
Definition also (B : string -> Z -> Z) (l : list UsageRecord) : string -> Z -> Z := fun id cg => B id cg + charged l id cg.

Lemma is_of_spec id cg r : is_of id cg r = true <-> ResourceId r = id /\ CounterEpoch r = epoch cg.
Proof. unfold is_of. by rewrite andb_true_iff, !str_eqb_eq. Qed.

Lemma charged_app l1 l2 id cg : charged (l1 ++ l2) id cg = charged l1 id cg + charged l2 id cg.
Proof. unfold charged. by rewrite List.filter_app, sumZ_app. Qed.

Lemma charged_one r id cg : charged [r] id cg = if is_of id cg r then CpuMicroseconds r else 0.
Proof. unfold charged. cbn. destruct (is_of id cg r); unfold sumZ; cbn; lia. Qed.

(** An open epoch whose time, with what is charged, stays below its counter. *)
Inductive funded (n : Z -> nat) (B : string -> Z -> Z) : string -> epochState -> Prop :=
| funded_task id cg st : ResourceID st = id -> Epoch st = epoch cg -> 0 <= CPUMicros st ->
    B id cg + CPUMicros st <= default (cpu cg (n cg)) (LastCPU st) <= cpu cg (n cg) -> funded n B (allocKey id cg) st
| funded_volume id st : Epoch st = "volume" -> CPUMicros st = 0 -> funded n B (volumeKey id) st.

Record balanced (n : Z -> nat) (B : string -> Z -> Z) (states : gmap string epochState) : Prop := {
  ba_states : forall key st, states !! key = Some st -> funded n B key st;
  ba_charged : forall id cg, 0 <= B id cg <= cpu cg (n cg)
}.

Lemma funded_task_inv n B id cg st : funded n B (allocKey id cg) st ->
  ResourceID st = id /\ Epoch st = epoch cg /\ 0 <= CPUMicros st /\ B id cg + CPUMicros st <= default (cpu cg (n cg)) (LastCPU st) <= cpu cg (n cg).
Proof.
  intros H. remember (allocKey id cg) as key eqn:E. destruct H as [id' cg' st H1 H2 H3 H4|id' st]; [|by destruct (keys_apart id cg id')].
  by apply allocKey_inj in E as [-> ->].
Qed.

Lemma funded_volume_inv n B id st : funded n B (volumeKey id) st -> Epoch st = "volume" /\ CPUMicros st = 0.
Proof. intros H. remember (volumeKey id) as key eqn:E. destruct H as [id' cg' st H1 H2 H3 H4|id' st]; [by destruct (keys_apart id' cg' id)|done]. Qed.

Lemma balanced_ext n B B' states : (forall id cg, B' id cg = B id cg) -> balanced n B states -> balanced n B' states.
Proof.
  intros E [H1 H2]. split; [|intros id cg; rewrite E; apply H2]. intros key st Hk. destruct (H1 key st Hk) as [id cg st R1 R2 R3 R4|id st R1 R2]; constructor; try done. by rewrite E.
Qed.

(** Counters grow, so what was funded stays funded. *)
Lemma balanced_later n k B states : (forall cg, (n cg <= k cg)%nat) -> balanced n B states -> balanced k B states.
Proof.
  intros Hk [H1 H2]. split.
  - intros key st Hst. destruct (H1 key st Hst) as [id cg st R1 R2 R3 [R4 R5]|id st R1 R2]; [|by constructor].
    pose proof (cpu_mono cg _ _ (Hk cg)). constructor; try done.
    destruct (LastCPU st); cbn in *; lia.
  - intros id cg. pose proof (cpu_mono cg _ _ (Hk cg)). pose proof (H2 id cg). lia.
Qed.

(** A record without processor time charges nothing. *)
Lemma also_free B r : CpuMicroseconds r = 0 -> forall id cg, also B [r] id cg = B id cg.
Proof. intros E id cg. unfold also. rewrite charged_one, E. destruct (is_of _ _ _); lia. Qed.

Lemma balanced_insert n B key st states : funded n B key st -> balanced n B states -> balanced n B (<[key := st]> states).
Proof. intros Hf [H1 H2]. split; [|done]. intros k s. destruct (decide (k = key)) as [->|]; [|rewrite lookup_insert_ne by done; auto]. rewrite lookup_insert_eq. by intros [= <-]. Qed.

Lemma balanced_delete n B key states : balanced n B states -> balanced n B (delete key states).
Proof. intros [H1 H2]. split; [|done]. intros k s [_ Hk]%lookup_delete_Some. auto. Qed.

(** A record of an open epoch charges what the epoch holds. *)
Lemma charge n B key st r states : funded n B key st -> balanced n B states -> ResourceId r = ResourceID st -> CounterEpoch r = Epoch st -> CpuMicroseconds r = CPUMicros st ->
  balanced n (also B [r]) (delete key states) /\
  forall st0, ResourceID st0 = ResourceID st -> Epoch st0 = Epoch st -> LastCPU st0 = LastCPU st -> CPUMicros st0 = 0 -> funded n (also B [r]) key st0.
Proof.
  intros Hf Hb E1 E2 E3. destruct Hf as [id cg st R1 R2 R3 [R4 R5]|id st R1 R2].
  - assert (Hmine : also B [r] id cg = B id cg + CPUMicros st).
    { unfold also. rewrite charged_one, (proj2 (is_of_spec id cg r)) by (split; congruence). by rewrite E3. }
    assert (Hother : forall id' cg', (id', cg') <> (id, cg) -> also B [r] id' cg' = B id' cg').
    { intros id' cg' Hne. unfold also. rewrite charged_one. destruct (is_of id' cg' r) eqn:Ei; [|lia]. apply is_of_spec in Ei as [G1 G2]. exfalso. apply Hne.
      assert (Ee : epoch cg' = epoch cg) by congruence. apply numbered_inj in Ee as [_ ->]. congruence. }
    destruct Hb as [H1 H2]. split; [split|].
    + intros k s [Hk Hs]%lookup_delete_Some. destruct (H1 k s Hs) as [id' cg' s Q1 Q2 Q3 Q4|id' s Q1 Q2]; constructor; try done. by rewrite Hother by (intros [= -> ->]; done).
    + intros id' cg'. destruct (decide ((id', cg') = (id, cg))) as [[= -> ->]|Hne]; [rewrite Hmine; pose proof (H2 id cg); lia|by rewrite Hother].
    + intros st0 S1 S2 S3 S4. constructor; [congruence|congruence|lia|]. rewrite Hmine, S3, S4. lia.
  - assert (Hfree : forall id cg, also B [r] id cg = B id cg) by (apply also_free; congruence). split; [apply balanced_delete; by eapply balanced_ext|].
    intros st0 S1 S2 S3 S4. constructor; [congruence|done].
Qed.

(** ** Transactions stay balanced *)

Definition good (n : Z -> nat) (B : string -> Z -> Z) (f : folder) (r : result meter_error folder) : Prop :=
  sound f r /\ match r with Ok f' => exists l, emits (f_j f) (f_j f') l /\ balanced n (also B l) (f_states f') | Err _ => True end.
Definition ready n B (f : folder) : Prop := folder_ok f /\ balanced n B (f_states f).

Lemma also_nil B id cg : also B [] id cg = B id cg.
Proof. unfold also, charged, sumZ. cbn. lia. Qed.

Lemma also_app B l1 l2 id cg : also (also B l1) l2 id cg = also B (l1 ++ l2) id cg.
Proof. unfold also. rewrite charged_app. lia. Qed.

Lemma good_after n B f f1 r : good n B f (Ok f1) -> (forall B', ready n B' f1 -> good n B' f1 r) -> good n B f r.
Proof.
  intros [[O1 V1] (l1 & M1 & B1)] Hr. destruct (Hr _ (conj O1 B1)) as [S2 G2]. split; [by eapply sound_after|]. destruct r as [f2|e]; [|done]. destruct G2 as (l2 & M2 & B2).
  exists (l1 ++ l2). split; [by eapply emits_trans|]. eapply balanced_ext; [|exact B2]. intros id' cg. by rewrite also_app.
Qed.

Lemma good_bind n B f r k : good n B f r -> (forall B' f', ready n B' f' -> good n B' f' (k f')) -> good n B f (r ≫= k).
Proof. intros Hr Hk. destruct r as [f1|e]; [|done]. apply (good_after n B f f1); [done|]. intros B'. apply Hk. Qed.

(** A step that adds no record. *)
Lemma good_quiet n B f f' : sound f (Ok f') -> records (f_j f') = records (f_j f) -> balanced n B (f_states f') -> good n B f (Ok f').
Proof.
  intros Hs E Hb. split; [done|]. exists []. split; [by apply emits_same|]. eapply balanced_ext; [|exact Hb]. exact (also_nil B).
Qed.

Lemma good_ret n B f : ready n B f -> good n B f (Ok f).
Proof. intros [H1 H2]. apply good_quiet; [by apply sound_ret|done|done]. Qed.

Lemma good_keep n B key st f : ready n B f -> funded n B key st -> good n B f (Ok (keep key st f)).
Proof. intros [H1 H2] Hf. apply good_quiet; [by apply keep_sound|done|]. by apply balanced_insert. Qed.

Lemma good_forget n B key f : ready n B f -> good n B f (Ok (forget_state key f)).
Proof. intros [H1 H2]. apply good_quiet; [by apply forget_sound|done|]. by apply balanced_delete. Qed.

Lemma good_forgotten n B l f : ready n B f -> good n B f (Ok (f <| f_forget := l |>)).
Proof. intros [H1 H2]. apply good_quiet; [by apply forgotten_sound|done|done]. Qed.

Lemma good_flagged n B (b : bool) l f : ready n B f -> good n B f (Ok (if b then f else f <| f_forget := l |>)).
Proof. destruct b; [apply good_ret|apply good_forgotten]. Qed.
Lemma good_ready n B l f : ready n B f -> ready n B (f <| f_forget := l |>).
Proof. intros [[H1 H2] H3]. by split. Qed.
#[local] Hint Resolve good_ret good_keep good_forget good_forgotten good_flagged : counters.

Lemma gapFrom_effect st end_ reason f f' : folder_ok f -> gapFrom encoded cfg st end_ reason f = Ok f' ->
  f_states f' = f_states f /\ exists l, emits (f_j f) (f_j f') l /\ forall B id cg, also B l id cg = B id cg.
Proof.
  intros H. unfold gapFrom. destruct (_ <=? _).
  - intros E. injection E as <-. split; [done|]. exists []. split; [by apply emits_same|]. exact also_nil.
  - destruct (append _ (f_j f)) as [j|e] eqn:E; [|done]. intros E'. injection E' as <-. split; [done|]. apply emits_append in E; [|apply H]. eexists. split; [exact E|].
    intros B. by apply also_free.
Qed.

Lemma gapFrom_good n B st end_ reason f : ready n B f -> good n B f (gapFrom encoded cfg st end_ reason f).
Proof.
  intros [H1 H2]. split; [by apply gapFrom_sound|]. destruct (gapFrom encoded cfg st end_ reason f) as [f'|e] eqn:E; [|done].
  apply gapFrom_effect in E as (-> & l & M & Hl); [|done]. exists l. split; [done|]. exact (balanced_ext n B _ _ (Hl B) H2).
Qed.

(** A measurement that is appended charges the epoch it measures. *)
Lemma append_charges n B key st end_ duration quality f j : ready n B f -> funded n B key st -> append (measurement st end_ duration quality) (f_j f) = Ok j ->
  exists l, emits (f_j f) j l /\ balanced n (also B l) (delete key (f_states f)) /\
    forall st0, ResourceID st0 = ResourceID st -> Epoch st0 = Epoch st -> LastCPU st0 = LastCPU st -> CPUMicros st0 = 0 -> funded n (also B l) key st0.
Proof.
  intros [H1 H2] Hf E. apply emits_append in E; [|apply H1]. eexists. split; [exact E|]. by eapply charge.
Qed.

Lemma sealAt_good n B key st end_ final f : ready n B f -> funded n B key st -> good n B f (sealAt encoded cfg key st end_ final f).
Proof.
  intros H Hf. split; [apply sealAt_sound; [exact encoded_nonneg|apply H]|]. unfold sealAt. destruct (interval (OpenStart st) end_) as [duration clockQ]. destruct (0 <? duration).
  - match goal with |- context [measurement st end_ duration ?q] => set (quality := q) end. destruct (append (measurement st end_ duration quality) (f_j f)) as [j|e] eqn:E; [|done].
    destruct (append_charges n B key st end_ duration quality f j H Hf E) as (l & M & Bd & Hst). cbn. destruct final; exists l; (split; [exact M|]); cbn; [exact Bd|].
    rewrite <- insert_delete_eq. apply balanced_insert; [by apply Hst|done].
  - cbn. destruct final; [exact (proj2 (good_forget n B key f H))|]. refine (proj2 (good_keep n B key _ f H _)). destruct Hf as [id cg st R1 R2 R3 R4|id st R1 R2]; constructor; try done. cbn. lia.
Qed.
#[local] Hint Resolve gapFrom_good sealAt_good : counters.

(** Until an epoch is forgotten, its record and the epoch itself count twice. *)
Lemma sealKeep_effect n B key st end_ b f f' : ready n B f -> funded n B key st -> sealKeep encoded cfg st end_ b f = Ok f' ->
  f_states f' = f_states f /\ exists l, emits (f_j f) (f_j f') l /\ balanced n (also B l) (delete key (f_states f)).
Proof.
  intros H Hf. unfold sealKeep. destruct (interval (OpenStart st) end_) as [duration clockQ]. destruct (_ <=? _).
  - intros E. injection E as <-. split; [done|]. exists []. split; [by apply emits_same|]. apply balanced_delete. eapply balanced_ext; [|apply H]. exact (also_nil B).
  - destruct (append _ (f_j f)) as [j|e] eqn:E; [|done]. intros E'. injection E' as <-. split; [done|].
    eapply append_charges in E as (l & M & Hb & _); [|done|done]. by exists l.
Qed.

Lemma endUnobserved_good n B p key st f : ready n B f -> funded n B key st -> good n B f (endUnobserved encoded cfg p key st f).
Proof.
  intros H Hf. split; [by apply endUnobserved_sound, H|]. unfold endUnobserved. destruct (_ <? _).
  - pose proof (sealKeep_sound encoded cfg encoded_nonneg st (Last st) true f (proj1 H)) as Hs. destruct (sealKeep encoded cfg st (Last st) true f) as [f1|e] eqn:E1; [|done].
    destruct Hs as [O1 V1]. eapply sealKeep_effect in E1 as (S1 & l1 & M1 & B1); [|done|done]. cbn.
    destruct (gapFrom encoded cfg _ p UsageGapEpochUnobserved f1) as [f2|e] eqn:E2; [|done]. apply gapFrom_effect in E2 as (S2 & l2 & M2 & Hl); [|done]. cbn.
    exists (l1 ++ l2). split; [exact (emits_trans _ _ _ _ _ V1 M1 M2)|]. rewrite S2, S1. eapply balanced_ext; [|exact B1]. intros id cg. by rewrite <- also_app, Hl.
  - cbn. refine (proj2 (good_bind n B f _ _ (gapFrom_good n B st p UsageGapEpochUnobserved f H) _)). auto with counters.
Qed.

Lemma each_good {A} n (step : A -> folder -> result meter_error folder) l : (forall a B f, a ∈ l -> ready n B f -> good n B f (step a f)) -> forall B f, ready n B f -> good n B f (each step l f).
Proof.
  induction l as [|a l IH]; intros Hs B f H; cbn [each]; [auto with counters|]. apply good_bind; [apply Hs; [set_solver|done]|]. intros B' f' H'. apply IH; [|done].
  intros a' B1 f1 Ha. apply Hs. set_solver.
Qed.
#[local] Hint Resolve endUnobserved_good : counters.

Lemma found n B f key st : ready n B f -> f_states f !! key = Some st -> funded n B key st.
Proof. intros [_ H]. apply H. Qed.

(** ** Samples *)

(** A sample of a task: its cgroup lives in this boot, and the counter, where it
    could be read, is the kernel's at the time of the reading. *)
Definition honest (n : Z -> nat) (boot : string) (s : AllocationSample) : Prop :=
  boot_of (as_CgroupID s) = boot /\ forall c, as_CPUMicros s = Some c -> c = cpu (as_CgroupID s) (n (as_CgroupID s)).

Definition grown (sample last : option Z) (total : Z) : Z :=
  match sample, last with Some c, Some l => if l <=? c then uwrap64 (total + (c - l)) else total | _, _ => total end.

Definition same_task (st st' : epochState) : Prop :=
  ResourceID st' = ResourceID st /\ Epoch st' = Epoch st /\ CPUMicros st' = CPUMicros st /\ LastCPU st' = LastCPU st.

Lemma funded_same n B key st st' : same_task st st' -> funded n B key st -> funded n B key st'.
Proof.
  intros E Hf. destruct Hf as [id cg st R1 R2 R3 R4|id st R1 R2]; destruct E as (E1 & E2 & E3 & E4).
  - constructor; [congruence|congruence|by rewrite E3|by rewrite E3, E4].
  - constructor; congruence.
Qed.

Lemma funded_sampled n B s st st' : 0 <= B (as_AllocationID s) (as_CgroupID s) -> (forall c, as_CPUMicros s = Some c -> c = cpu (as_CgroupID s) (n (as_CgroupID s))) ->
  funded n B (allocKey (as_AllocationID s) (as_CgroupID s)) st -> ResourceID st' = ResourceID st -> Epoch st' = Epoch st -> LastCPU st' = as_CPUMicros s ->
  CPUMicros st' = grown (as_CPUMicros s) (LastCPU st) (CPUMicros st) -> funded n B (allocKey (as_AllocationID s) (as_CgroupID s)) st'.
Proof.
  intros HB Hh Hf E1 E2 E3 E4. apply funded_task_inv in Hf as (R1 & R2 & R3 & R4). pose proof (cpu_range (as_CgroupID s) (n (as_CgroupID s))) as Hr. unfold in_uint64 in Hr.
  assert (Hc : 0 <= CPUMicros st' /\ B (as_AllocationID s) (as_CgroupID s) + CPUMicros st' <= default (cpu (as_CgroupID s) (n (as_CgroupID s))) (as_CPUMicros s) <= cpu (as_CgroupID s) (n (as_CgroupID s))).
  { rewrite E4. unfold grown. destruct (as_CPUMicros s) as [c|]; cbn in *; [|destruct (LastCPU st); cbn in *; lia]. specialize (Hh c eq_refl). subst c.
    destruct (LastCPU st) as [l|]; cbn in *; [|lia]. rewrite (proj2 (Z.leb_le _ _)) by lia. rewrite uwrap64_small by (unfold in_uint64; lia). lia. }
  constructor; [congruence|congruence|apply Hc|]. rewrite E3. apply Hc.
Qed.

Lemma flag_same b q st : same_task st (flag b q st).
Proof. unfold flag. by destruct b. Qed.

Lemma fold_memory_same d st : same_task st (fold_memory cfg d st).
Proof. unfold fold_memory. by destruct (LastMem st). Qed.

Lemma fold_counters_same c st : same_task st (fold_counters c st).
Proof. unfold fold_counters. by destruct (HasEgress st). Qed.

Lemma fold_egress_same eg st : same_task st (fold_egress cfg eg st).
Proof. unfold fold_egress. case_match; [apply fold_counters_same|done]. Qed.

Lemma fold_volume_same d st : same_task st (fold_volume cfg d st).
Proof. unfold fold_volume. by destruct (LastVol st). Qed.

Lemma fold_cpu_grown sample st : let st' := fold_cpu sample st in
  ResourceID st' = ResourceID st /\ Epoch st' = Epoch st /\ LastCPU st' = LastCPU st /\ CPUMicros st' = grown sample (LastCPU st) (CPUMicros st).
Proof. unfold fold_cpu, grown. destruct sample as [c|], (LastCPU st) as [l|] eqn:E; cbn; try done. by destruct (l <=? c). Qed.

Lemma funded_new n B p eg s start : B (as_AllocationID s) (as_CgroupID s) <= cpu (as_CgroupID s) (n (as_CgroupID s)) -> honest n (pt_Boot p) s ->
  funded n B (allocKey (as_AllocationID s) (as_CgroupID s)) (newAllocState p eg s start).
Proof.
  intros HB [Hb Hc]. constructor; cbn; [done|unfold epoch; by rewrite Hb|done|]. destruct (as_CPUMicros s) as [c|]; cbn; [rewrite (Hc c eq_refl); lia|lia].
Qed.

Lemma foldAllocSample_good n B p eg s st f : ready n B f -> honest n (pt_Boot p) s -> funded n B (allocKey (as_AllocationID s) (as_CgroupID s)) st ->
  good n B f (foldAllocSample encoded cfg p eg (allocKey (as_AllocationID s) (as_CgroupID s)) st s f).
Proof.
  intros H Hh Hf. unfold foldAllocSample. destruct (interval (Last st) p) as [duration clockQ]. cbv zeta.
  match goal with |- context [fold_egress cfg eg (fold_memory cfg duration (fold_cpu _ ?x))] => set (st1 := x) end.
  destruct (fold_cpu_grown (as_CPUMicros s) st1) as (G1 & G2 & G3 & G4). set (st2 := fold_cpu (as_CPUMicros s) st1) in *.
  destruct (fold_memory_same duration st2) as (M1 & M2 & M3 & M4). destruct (fold_egress_same eg (fold_memory cfg duration st2)) as (X1 & X2 & X3 & X4).
  set (st3 := fold_egress cfg eg (fold_memory cfg duration st2)) in *.
  match goal with |- context [flag ?b ?q ?x] => assert (Hn : funded n B (allocKey (as_AllocationID s) (as_CgroupID s)) (flag b q x)) end.
  { eapply funded_same; [apply flag_same|]. eapply (funded_sampled n B s st); [apply H|apply Hh|done|..]; cbn; [by rewrite X1, M1, G1|by rewrite X2, M2, G2|done|by rewrite X3, M3, G4]. }
  destruct (_ || _); auto with counters.
Qed.

Lemma foldAllocSampleNoSeal_funded n B p eg s st : 0 <= B (as_AllocationID s) (as_CgroupID s) -> honest n (pt_Boot p) s -> funded n B (allocKey (as_AllocationID s) (as_CgroupID s)) st ->
  funded n B (allocKey (as_AllocationID s) (as_CgroupID s)) (foldAllocSampleNoSeal cfg p eg st s).
Proof.
  intros HB Hh Hf. unfold foldAllocSampleNoSeal. destruct (interval (Last st) p) as [duration clockQ]. cbv zeta.
  set (st1 := st <| Quality_ := Z.lor (Quality_ st) clockQ |>).
  match goal with |- context [LastMem ?x] => set (st2 := x) end.
  assert (G : ResourceID st2 = ResourceID st1 /\ Epoch st2 = Epoch st1 /\ LastCPU st2 = LastCPU st1 /\ CPUMicros st2 = grown (as_CPUMicros s) (LastCPU st1) (CPUMicros st1)).
  { unfold st2, grown. destruct (as_CPUMicros s) as [c|], (LastCPU st1) as [l|] eqn:E; try done. by destruct (l <=? c). }
  destruct G as (G1 & G2 & G3 & G4). set (st3 := match LastMem st2 with Some _ => _ | None => _ end).
  assert (M : same_task st2 st3) by (unfold st3; destruct (LastMem st2); [apply fold_memory_same|done]). destruct M as (M1 & M2 & M3 & M4).
  set (reading := if eg_failed eg then None else eg_counters eg !! CgroupID st3). set (st4 := match reading with Some c => fold_counters c st3 | None => st3 end).
  assert (X : same_task st3 st4) by (unfold st4; case_match; [apply fold_counters_same|done]). destruct X as (X1 & X2 & X3 & X4).
  eapply (funded_sampled n B s st); [done|apply Hh|done|..]; cbn; [by rewrite X1, M1, G1|by rewrite X2, M2, G2|done|by rewrite X3, M3, G4].
Qed.

(** ** Steps and transactions *)

Lemma alloc_step_good n B p eg scanStart s f : honest n (pt_Boot p) s -> ready n B f -> good n B f (alloc_step encoded cfg p eg scanStart s f).
Proof.
  intros Hh H. unfold alloc_step. destruct (_ || _); [auto with counters|]. cbv zeta. destruct (f_states f !! _) as [st|] eqn:E.
  - apply foldAllocSample_good; [done|done|]. by eapply found.
  - apply good_keep; [done|]. apply funded_new; [apply H|done].
Qed.

Lemma end_step_good n B p key f : ready n B f -> good n B f (end_step encoded cfg p key f).
Proof.
  intros H. unfold end_step. destruct (f_states f !! key) as [st|] eqn:E; [|auto with counters]. eapply found in E; [|done].
  apply good_bind; auto with counters.
Qed.

Lemma volume_step_good n B p used scanStart id f : ready n B f -> good n B f (volume_step encoded cfg p used scanStart id f).
Proof.
  intros H. unfold volume_step. cbv zeta. destruct (f_states f !! _) as [st|] eqn:E; [|apply good_keep; [done|by constructor]].
  destruct (_ <? _); [auto with counters|]. eapply found in E; [|done]. unfold foldVolumeSample. destruct (interval (Last st) p) as [duration clockQ]. cbv zeta.
  match goal with |- context [sealAt _ _ _ ?st' _ _ _] => assert (Hst : funded n B (volumeKey id) st') end.
  { apply funded_volume_inv in E as [E1 E2]. destruct (fold_volume_same duration (st <| Quality_ := Z.lor (Quality_ st) clockQ |>)) as (_ & V2 & V3 & _).
    constructor; unfold flag; repeat case_match; cbn; rewrite ?V2, ?V3; done. }
  destruct (crossedMinute _ _); auto with counters.
Qed.

Lemma boot_step_good n B bootStart e f : ready n B f -> good n B f (boot_step encoded cfg bootStart e f).
Proof.
  intros H. unfold boot_step. destruct e as [key st]. destruct (str_eqb _ _); [auto with counters|]. apply good_bind; [auto with counters|]. intros B1 f1 H1. cbv zeta.
  apply (good_bind n B1 f1 (Ok (forget_state key f1)) (fun f' => Ok (if CgroupID st =? 0 then f' else f' <| f_forget := f_forget f' ++ [CgroupID st] |>))); auto with counters.
Qed.

Lemma gapFrom_states st end_ reason f f' : gapFrom encoded cfg st end_ reason f = Ok f' -> f_states f' = f_states f.
Proof. unfold gapFrom. destruct (_ <=? _); [by intros [= <-]|]. destruct (append _ _) as [j|e]; [|done]. by intros [= <-]. Qed.

Lemma sealKeep_states st end_ b f f' : sealKeep encoded cfg st end_ b f = Ok f' -> f_states f' = f_states f.
Proof. unfold sealKeep. destruct (interval _ _). destruct (_ <=? _); [by intros [= <-]|]. destruct (append _ _) as [j|e]; [|done]. by intros [= <-]. Qed.

Lemma endUnobserved_states p key st f f' : endUnobserved encoded cfg p key st f = Ok f' -> f_states f' = delete key (f_states f).
Proof.
  unfold endUnobserved. destruct (_ <? _).
  - destruct (sealKeep encoded cfg st (Last st) true f) as [f1|e] eqn:E1; [|done]. cbn. destruct (gapFrom _ _ _ _ _ f1) as [f2|e] eqn:E2; [|done]. intros [= <-].
    cbn. by rewrite (gapFrom_states _ _ _ _ _ E2), (sealKeep_states _ _ _ _ _ E1).
  - cbn. destruct (gapFrom _ _ _ _ _ f) as [f2|e] eqn:E2; [|done]. intros [= <-]. cbn. by rewrite (gapFrom_states _ _ _ _ _ E2).
Qed.

(** The states that a range over the map shows are those of the map. *)
Lemma observe_ends_good n p id l : NoDup (map fst l) -> forall B f, Forall (fun e => f_states f !! e.1 = Some e.2) l -> ready n B f -> good n B f (each (observe_end encoded cfg p id) l f).
Proof.
  induction l as [|[key st] l IH]; intros Hn B f Hl H; cbn [each]; [auto with counters|]. apply NoDup_cons in Hn as [Hk Hn]. apply Forall_cons in Hl as [Hst Hl]. cbn in Hst.
  assert (Hrest : forall f1, observe_end encoded cfg p id (key, st) f = Ok f1 -> Forall (fun e => f_states f1 !! e.1 = Some e.2) l).
  { intros f1 E. assert (Hs : f_states f1 = f_states f \/ f_states f1 = delete key (f_states f)).
    { unfold observe_end in E. destruct (_ && _); [|left; by injection E as <-]. destruct (endUnobserved _ _ _ _ _ f) as [f2|e] eqn:E2; [|done]. injection E as <-. right. by apply endUnobserved_states in E2. }
    rewrite Forall_forall in *. intros e He. destruct Hs as [-> | ->]; [by apply Hl|]. rewrite lookup_delete_ne; [by apply Hl|]. intros Ek. apply Hk. rewrite Ek. exact (list_elem_of_fmap_2 fst l e He). }
  assert (Hstep : good n B f (observe_end encoded cfg p id (key, st) f)).
  { unfold observe_end. destruct (_ && _); [|auto with counters]. eapply found in Hst; [|done]. apply good_bind; auto with counters. }
  destruct (observe_end encoded cfg p id (key, st) f) as [f1|e]; [|done]. apply (good_after n B f f1); [done|]. intros B' H'. apply IH; [done|by apply Hrest|done].
Qed.

Lemma set_meta_good n B g f : (forall m, NextSequence (g m) = NextSequence m /\ LowestRetained (g m) = LowestRetained m /\ AckedThrough (g m) = AckedThrough m /\ RecordBytes (g m) = RecordBytes m /\
    jm_ProducerID (g m) = jm_ProducerID m /\ jm_InstallationID (g m) = jm_InstallationID m /\ jm_AgentID (g m) = jm_AgentID m) -> ready n B f -> good n B f (Ok (set_meta g f)).
Proof. intros Hg [H1 H2]. apply good_quiet; [by apply set_meta_sound|done|done]. Qed.

Lemma timeline_good n B tl f : ready n B f -> good n B f (Ok (set_meta (fun m => m <| Timeline := tl |>) f)).
Proof. apply set_meta_good. by intros m. Qed.

Lemma prune_good n B clock f : ready n B f -> good n B f (Ok (f <| f_j := pruneAcknowledged false clock (f_j f) |>)).
Proof.
  intros [H1 H2]. split; [by apply prune_sound|]. exists []. split; [apply emits_prune|]. eapply balanced_ext; [exact (also_nil B)|exact H2].
Qed.

Lemma fold_tx_good n B clock now sc v f : Forall (honest n (in_Boot now)) (sc_allocations sc) -> ready n B f -> good n B f (fold_tx encoded cfg range clock now sc v f).
Proof.
  intros Hs H. unfold fold_tx. pose proof (at_advances (Timeline (meta (f_j f))) now) as Ha. destruct (at_ _ now) as [tl p]. destruct Ha as (_ & _ & Hb & _). cbv zeta.
  eapply good_after; [by apply timeline_good|]. intros B1 H1. apply good_bind; [apply each_good; [|done]; intros; by apply boot_step_good|]. intros B2 f2 H2. apply good_bind.
  { destruct v; [auto with counters|]. unfold foldAllocations. apply good_bind; [|intros B3 f3 H3; apply each_good; [|done]; intros; by apply end_step_good].
    apply each_good; [|done]. intros s B3 f3 Hin H3. apply alloc_step_good; [|done]. rewrite Hb. rewrite Forall_forall in Hs. apply Hs. by rewrite isort_elem in Hin. }
  intros B3 f3 H3. apply good_bind.
  { unfold foldVolumes. destruct (negb _); [auto with counters|]. apply good_bind; [apply each_good; [|done]; intros; by apply volume_step_good|].
    intros B4 f4 H4. apply each_good; [|done]. intros; by apply end_step_good. }
  intros B4 f4 H4. eapply good_after; [apply set_meta_good; [|exact H4]|].
  2:{ intros B5 H5. by apply prune_good. }
  done.
Qed.

Lemma observe_tx_good n B now id sample eg final f : match sample with Some s => honest n (in_Boot now) s | None => True end -> ready n B f ->
  good n B f (observe_tx encoded cfg range now id sample eg final f).
Proof.
  intros Hs H. unfold observe_tx. pose proof (at_advances (Timeline (meta (f_j f))) now) as Ha. destruct (at_ _ now) as [tl p]. destruct Ha as (_ & _ & Hb & _). cbv zeta.
  eapply good_after; [by apply timeline_good|]. intros B1 H1. destruct sample as [s|].
  - rewrite <- Hb in Hs. destruct (f_states _ !! _) as [st|] eqn:E.
    + eapply found in E; [|done]. assert (Hn := foldAllocSampleNoSeal_funded n B1 p eg s st (proj1 (ba_charged _ _ _ (proj2 H1) _ _)) Hs E).
      destruct final; [|auto with counters]. match goal with |- good _ _ ?a (sealAt _ _ _ _ _ _ ?b) => change (good n B1 b (sealAt encoded cfg (allocKey (as_AllocationID s) (as_CgroupID s)) (foldAllocSampleNoSeal cfg p eg st s) p true b)) end.
      apply sealAt_good; [|done]. exact (good_ready _ _ _ _ H1).
    + eapply good_after; [apply good_keep; [done|]; apply funded_new; [apply H1|done]|]. intros B2 H2. destruct final; auto with counters.
  - destruct final; [|auto with counters]. apply observe_ends_good; [| |done].
    + rewrite (range_all _). apply NoDup_fst_map_to_list.
    + rewrite (range_all _). apply Forall_forall. intros [k st] Hk. by apply elem_of_map_to_list in Hk.
Qed.

Lemma observe_volume_tx_good n B now id used final f : ready n B f -> good n B f (observe_volume_tx encoded cfg now id used final f).
Proof.
  intros H. unfold observe_volume_tx. destruct (at_ _ now) as [tl p]. cbv zeta. eapply good_after; [by apply timeline_good|]. intros B1 H1.
  destruct (f_states _ !! _) as [st|] eqn:E; [|destruct final; [auto with counters|]; apply good_keep; [done|by constructor]]. eapply found in E; [|done].
  destruct (interval (Last st) p) as [duration clockQ]. assert (Hst : funded n B1 (volumeKey id) ((fold_volume cfg duration (st <| Quality_ := Z.lor (Quality_ st) clockQ |>)) <| Last := p |>)).
  { apply funded_volume_inv in E as [E1 E2]. destruct (fold_volume_same duration (st <| Quality_ := Z.lor (Quality_ st) clockQ |>)) as (_ & V2 & V3 & _). constructor; cbn; rewrite ?V2, ?V3; done. }
  destruct final; [auto with counters|]. destruct used as [u|]; [|auto with counters]. apply good_keep; [done|]. by eapply funded_same; [|exact Hst].
Qed.

(** ** Histories *)

Context (Health : Type) (health : Meter -> option Health) (installation agent : string).
#[local] Abbreviation step := (MeterJournal.step encoded cfg range Health health installation agent).
#[local] Abbreviation meter_ok := (meter_ok encoded cfg installation agent).
#[local] Abbreviation next m := (NextSequence (meta (m_journal m))).

(** The records a step appends. *)
Definition produced (s s' : agent_state) : list UsageRecord := since (next s.2) (m_journal s'.2).

(** The samples of the event at time [n]: [at_ cg] is the time at which the one of
    [cg] was read.  A tick reads under the lock, so then; a lifecycle edge read
    before it had the lock. *)
Definition honest_event (n : nat) (at_ : Z -> nat) (e : event) : Prop :=
  match e with
  | MTick _ now (Ok samples) _ _ _ => Forall (fun s => honest at_ (in_Boot now) s /\ at_ (as_CgroupID s) = n) samples
  | MObserveAllocation now _ (Some s) _ _ => honest at_ (in_Boot now) s
  | _ => True
  end.

(** After [n] events an agent is in a state and has produced a list of records;
    [seen cg] is when the sample of [cg] folded last was read.  The sample of an
    event was read no earlier: no other fold of the cgroup overtook it. *)
Inductive history : nat -> (Z -> nat) -> agent_state -> list UsageRecord -> Prop :=
| history_start now uuid : history 0 (fun _ => O) (start installation agent now uuid) []
| history_step n seen at_ s log e : history n seen s log -> typed e -> (forall cg, (seen cg <= at_ cg <= n)%nat) -> honest_event n at_ e ->
    history (S n) at_ (step e s) (log ++ produced s (step e s)).

Lemma since_none n j : journal_ok j -> NextSequence (meta j) <= n -> since n j = [].
Proof.
  intros H Hn. unfold since. pose proof (keys_below _ _ _ H) as Hk. induction Hk as [|p l Hp _ IH]; [done|]. cbn [List.filter]. by rewrite (proj2 (Z.leb_gt n p.1)) by lia.
Qed.

(** A step that leaves the open epochs and adds no record. *)
Lemma quiet_balanced n B m m' : balanced n B (m_states m) -> m_states m' = m_states m -> since (next m) (m_journal m') = [] ->
  balanced n (also B (since (next m) (m_journal m'))) (m_states m').
Proof. intros Hb -> ->. eapply balanced_ext; [exact (also_nil B)|exact Hb]. Qed.

Lemma transaction_balanced n B now tx m : (forall B f, ready n B f -> good n B f (tx f)) -> meter_ok m -> balanced n B (m_states m) ->
  let m' := (afterFold cfg now (update tx m)).1 in balanced n (also B (since (next m) (m_journal m'))) (m_states m').
Proof.
  intros Htx Hm Hb. pose proof (mo_journal _ _ _ _ _ Hm) as Hj. destruct (jo_range _ _ _ Hj) as [_ R2]. pose proof (since_none _ _ Hj (Z.le_refl _)) as Hnone.
  assert (Hr : ready n B (Build_folder (m_journal m) (m_states m) [])) by (split; [|done]; split; [exact Hj|apply Hm]).
  rewrite update_current. destruct (Htx B _ Hr) as [_ G]. destruct (tx _) as [f|e].
  - destruct G as (l & M & Hf). assert (Hl : since (next m) (f_j f) = l) by (cbn in M; rewrite (M (next m)) by lia; by rewrite Hnone).
    unfold afterFold. cbn. destruct (_ =? 0); cbn; [by rewrite Hl|]. change (balanced n (also B (since (next m) (f_j f))) (f_states f)). by rewrite Hl.
  - destruct e; cbn; by apply quiet_balanced.
Qed.

Lemma acknowledge_quiet clock ack m : meter_ok m -> m_states (Acknowledge encoded cfg clock ack m) = m_states m /\ since (next m) (m_journal (Acknowledge encoded cfg clock ack m)) = [].
Proof.
  intros Hm. pose proof (mo_journal _ _ _ _ _ Hm) as Hj. pose proof (since_none _ _ Hj (Z.le_refl _)) as Hnone. unfold Acknowledge, Acknowledge_from. destruct (negb _); [done|]. cbv zeta.
  set (m1 := if str_eqb (ack_Conflict ack) "" then m else m <| conflict := true |>). assert (E : m_journal m1 = m_journal m /\ m_states m1 = m_states m) by (unfold m1; by destruct (str_eqb _ _)).
  destruct E as [E1 E2]. unfold acknowledge_from. rewrite E1. destruct (_ <=? _) eqn:En; [rewrite E1; done|]. destruct (_ =? _); [done|]. cbn. split; [done|]. apply Z.leb_gt in En.
  rewrite emits_prune by (cbn; lia). rewrite app_nil_r. exact Hnone.
Qed.

Lemma event_balanced n at_ B e s : meter_ok s.2 -> balanced at_ B (m_states s.2) -> honest_event n at_ e ->
  balanced at_ (also B (produced s (step e s))) (m_states (step e s).2).
Proof.
  destruct s as [c m]. unfold produced. cbn [snd]. intros Hm Hb Hh. pose proof (mo_journal _ _ _ _ _ Hm) as Hj. pose proof (since_none _ _ Hj (Z.le_refl _)) as Hnone.
  unfold MeterJournal.step. cbn [snd].
  destruct e as [clock now allocations inventory used eg|now id sample eg final|now id used final|clock ack|sid| |now sent|now uuid]; cbn [MeterJournal.step_from snd fst].
  - unfold Tick_from. assert (Hs : forall l, (if has_allocations cfg then allocations else Ok []) = Ok l -> Forall (honest at_ (in_Boot now)) l).
    { intros l. destruct (has_allocations cfg); [intros ->; eapply Forall_impl; [exact Hh|by intros s [? _]]|intros [= <-]; constructor]. }
    destruct (if has_allocations cfg then _ else _) as [l|]; [|by apply quiet_balanced]. specialize (Hs l eq_refl). destruct (if has_volumes cfg then _ else _) as [ids|]; [|by apply quiet_balanced].
    apply transaction_balanced; [|done|done]. intros B' f. by apply fold_tx_good.
  - unfold ObserveAllocation_from. destruct (negb _); [by apply quiet_balanced|]. apply transaction_balanced; [|done|done]. intros B' f. apply observe_tx_good. by destruct sample.
  - unfold ObserveVolume_from. destruct (negb _); [by apply quiet_balanced|]. apply transaction_balanced; [|done|done]. intros B' f. apply observe_volume_tx_good.
  - destruct (acknowledge_quiet clock ack m Hm). by apply quiet_balanced.
  - by apply quiet_balanced.
  - by apply quiet_balanced.
  - destruct (round_journal encoded Health health now sent c m) as (E1 & E2 & _). cbv zeta in E1, E2. destruct (deliver_round encoded Health health now sent c m) as [[c' m'] rep]. cbn in *.
    apply quiet_balanced; [done|done|by rewrite E1].
  - destruct (jo_range _ _ _ Hj) as [R1 R2]. destruct (mo_ids _ _ _ _ _ Hm) as [I1 I2]. unfold Open, openJournal. destruct (_ || _); [by apply quiet_balanced|].
    rewrite (proj2 (Z.eqb_neq (next m) 0)) by lia. rewrite I1, I2, !(proj2 (str_eqb_eq _ _) eq_refl). cbn. apply (quiet_balanced at_ B m (Build_Meter (m_journal m) (checkpoints (m_journal m)) None 0 (AckedThrough (meta (m_journal m)) + 1) false)); [done| |done].
    symmetry. apply Hm.
Qed.

Lemma history_balanced n seen s log : history n seen s log ->
  meter_ok s.2 /\ balanced seen (charged log) (m_states s.2) /\ forall cg, (seen cg <= pred n)%nat.
Proof.
  induction 1 as [now uuid|n seen at_ s log e _ (IH1 & IH2 & _) Ht Hat Hh].
  - split; [apply (meter_reachable encoded cfg encoded_nonneg range Health health installation agent), MeterJournal.reach_start|]. split; [|done].
    split; [done|]. intros id cg. pose proof (cpu_range cg 0). unfold in_uint64 in *. unfold charged, sumZ. cbn. lia.
  - split; [by apply event_ok|]. split; [|intros cg; apply Hat].
    assert (Hb : balanced at_ (charged log) (m_states s.2)) by (eapply balanced_later; [intros cg; apply Hat|exact IH2]).
    eapply balanced_ext; [|by eapply event_balanced]. intros id cg. by rewrite charged_app.
Qed.

(** The time of a task's open epoch. *)
Definition open_time (s : agent_state) (id : string) (cg : Z) : Z :=
  match m_states s.2 !! allocKey id cg with Some st => CPUMicros st | None => 0 end.


End Counters.

(** ** Three readings of a task *)

Module Example.
Import MeterJournal.Example.

Definition boot0 (cg : Z) : string := "boot".
Definition readings (cg : Z) (n : nat) : Z := match n with O => 0 | S O => 200 | _ => 500 end.
#[local] Abbreviation advance := (MeterJournal.step size0 cfg0 map_to_list unit (fun _ => None) "inst" "agent").
#[local] Abbreviation history := (history size0 cfg0 map_to_list boot0 readings unit (fun _ => None) "inst" "agent").
Definition t1 : agent_state := advance (tick 10 0) s0.
Definition t2 : agent_state := advance (tick 70 200) t1.

(** A lifecycle edge of the task that folds this reading of its counter. *)
Definition edge (at_second cpu : Z) (final : bool) : event :=
  MObserveAllocation (reading "boot" (at_second * second) (at_second * second)) "a1" (Some (sample cpu)) no_reading final.

Lemma tick_honest n at_ at_second c : c = readings 42 n -> at_ 42 = n -> honest_event boot0 readings n at_ (tick at_second c).
Proof. intros E Ht. apply Forall_singleton. split; [|exact Ht]. split; [done|]. intros c' E'. injection E' as <-. cbn. rewrite Ht. exact E. Qed.

Lemma edge_honest n at_ at_second c final : c = readings 42 (at_ 42) -> honest_event boot0 readings n at_ (edge at_second c final).
Proof. intros E. split; [done|]. intros c' E'. injection E' as <-. exact E. Qed.

(** Two ticks, an edge whose sample is as old as the second tick, and a tick. *)
Definition t3 : agent_state := advance (edge 80 200 false) t2.
Definition t4 : agent_state := advance (tick 130 500) t3.
Definition log4 : list UsageRecord := ((([] ++ produced s0 t1) ++ produced t1 t2) ++ produced t2 t3) ++ produced t3 t4.

Lemma history_4 : history 4 (fun _ => 3%nat) t4 log4.
Proof.
  apply (history_step _ _ _ _ _ _ _ _ _ 3 (fun _ => 1%nat) (fun _ => 3%nat)); [|done|intros cg; lia|by apply tick_honest].
  apply (history_step _ _ _ _ _ _ _ _ _ 2 (fun _ => 1%nat) (fun _ => 1%nat)); [|done|intros cg; lia|by apply edge_honest].
  apply (history_step _ _ _ _ _ _ _ _ _ 1 (fun _ => 0%nat) (fun _ => 1%nat)); [|done|intros cg; lia|by apply tick_honest].
  apply (history_step _ _ _ _ _ _ _ _ _ 0 (fun _ => 0%nat) (fun _ => 0%nat)); [|done|intros cg; lia|by apply tick_honest]. apply history_start.
Qed.


(** *** A sample that was overtaken

    The edge read 0 before the first tick read 200, and is folded after it: the
    last counter goes back to 0, and the next tick charges the 200 again.  The
    task ran for 500 microseconds and is charged 700. *)
Definition overtaken : agent_state := advance (tick 130 500) (advance (edge 71 0 false) t2).

Example overtaken_sample_overcharges : map (fun p => CpuMicroseconds p.2) (records (m_journal overtaken.2)) = [200; 500].
Proof. vm_compute. reflexivity. Qed.

End Example.

End MeterCounters.
