(* ===== verification/UsageSystem.v ===== *)
(** * Usage from an agent to the control plane

    [Metering] and [UsageIngest] joined: a round of [Deliver] sends a batch of
    the journal, [Ingest] accepts it, and [Acknowledge] moves the journal on.
    While the session is live and nothing new is recorded, rounds deliver the
    whole journal, every record once. *)

From S2P Require Import Prelude GoText GoFloat DurableWork Billing ClosePeriod GoTime Sha256 RowMap Journal Product LogPipeline UsageRecords UsageIngest UsageLedger UsageCursors Metering MeterJournal.

Module UsageSystem.
Import UsageRecords UsageIngest UsageLedger UsageCursors Metering MeterJournal.

(** ** Text of ASCII letters *)

Definition plain (s : string) : bool := forallb (fun b => (0 <? b) && (b <? 128)) (codes s).

Lemma plain_valid l : forallb (fun b => (0 <? b) && (b <? 128)) l = true -> LogPipeline.valid_fuel (length l) l && negb (existsb (Z.eqb 0) l) = true.
Proof.
  induction l as [|b l IH]; [done|]. cbn [forallb]. rewrite !andb_true_iff, !Z.ltb_lt. intros [[H1 H2] H]. specialize (IH H). apply andb_true_iff in IH as [I1 I2].
  split.
  - cbn [length LogPipeline.valid_fuel]. unfold rune_width. rewrite (proj2 (Z.ltb_lt b 128)) by lia. exact I1.
  - cbn [existsb]. rewrite (proj2 (Z.eqb_neq 0 b)) by lia. exact I2.
Qed.

Lemma plain_text s : plain s = true -> text_ok s = true.
Proof. apply plain_valid. Qed.

Lemma plain_cut n s : plain s = true -> text_ok (cut n s) = true.
Proof.
  intros H. unfold cut. destruct (_ <? _)%nat; [|by apply plain_text]. apply plain_text. unfold plain in *.
  rewrite codes_of_codes by (apply Forall_take, codes_range). rewrite <- (take_drop n (codes s)), forallb_app in H. by apply andb_true_iff in H as [H _].
Qed.

Lemma validate_plain r now limits reason : validateRecord r now limits = Err reason -> plain reason = true.
Proof. unfold validateRecord. cbv zeta. intros H. repeat (case_match; try discriminate); injection H as <-; vm_compute; reflexivity. Qed.

(** ** A report that continues the cursor is accepted *)

Definition plain_record (r : UsageRecord) : bool :=
  forallb plain [InstallationId r; ProducerId r; ResourceId r; CounterEpoch r; BootId r; MeterVersion r; GapReason r].
Definition plain_attributions (db : usage_db) : Prop := forall key a, attributions db !! key = Some a -> forallb plain [at_project a; at_environment a; at_service a] = true.

Section Accepted.
Context (Health : Type) (health_json : Health -> option string) (marshal : UsageRecord -> string) (quote : string -> string)
  (is_uuid : string -> bool) (report_size : UsageReport Health -> Z).
#[local] Abbreviation Ingest := (Ingest Health health_json marshal quote is_uuid report_size).
#[local] Abbreviation prepare_loop := (prepare_loop marshal quote).
#[local] Abbreviation prepareBatch := (prepareBatch marshal quote).
#[local] Abbreviation check_records := (check_records Health).

Lemma interval_row_ok producer now parts r accepted rejection a start end_ q retained payload : plain_record r = true -> plain (pd_AgentID producer) = true -> plain rejection = true ->
  match a with Some a => forallb plain [a_project a; a_environment a; a_service a] = true | None => True end ->
  row_ok (interval_of quote producer now parts r accepted rejection a start end_ q retained payload) = true.
Proof.
  intros Hr Hg Hj Ha. unfold plain_record in Hr. cbn [forallb] in Hr. rewrite !andb_true_iff in Hr. destruct Hr as (R1 & R2 & R3 & R4 & R5 & R6 & R7 & _).
  assert (Hn : forall g, (forall x, a = Some x -> plain (g x) = true) -> text_ok (match a with Some a => if accepted then g a else "" | None => "" end) = true).
  { intros g Hgx. destruct a as [x|]; [|done]. destruct accepted; [|done]. by apply plain_text, Hgx. }
  assert (Hx : forall x, a = Some x -> plain (a_project x) = true /\ plain (a_environment x) = true /\ plain (a_service x) = true).
  { intros x ->. cbn [forallb] in Ha. rewrite !andb_true_iff in Ha. tauto. }
  unfold row_ok, interval_of. cbv zeta. cbn [iv_installation iv_producer iv_rejection iv_resource_id iv_epoch iv_boot iv_agent iv_project iv_environment iv_service iv_meter iv_gap_reason forallb].
  rewrite !andb_true_iff. repeat split; try (by apply plain_text); try (by apply plain_cut); apply Hn; intros x Ex; by apply Hx.
Qed.

Lemma load_plain db key a : plain_attributions db -> load_attribution db key = Some a -> forallb plain [a_project a; a_environment a; a_service a] = true.
Proof.
  intros Hp Hl. apply load_attribution_ok in Hl as (row & Hk & _ & E). unfold att_names in E. injection E as -> -> ->. by apply (Hp key).
Qed.

Lemma judge_plain producer now limits db ends r reason : judge producer now limits db ends r = Err reason -> plain reason = true.
Proof.
  unfold judge. destruct (validateRecord r now limits) as [q|e] eqn:E; cbn.
  - intros H. repeat (case_match; try discriminate); injection H as <-; reflexivity.
  - intros H. injection H as <-. by eapply validate_plain.
Qed.

Lemma prepared_rows_ok producer now limits db records : plain (pd_AgentID producer) = true -> plain_attributions db -> Forall (fun r => plain_record r = true) records ->
  forall ends b, forallb row_ok (b_rows b) = true -> forallb row_ok (b_rows (prepare_loop producer now limits db records ends b)) = true.
Proof.
  intros Hg Hp. induction 1 as [|r records Hr _ IH]; intros ends b Hb; [done|]. cbn [UsageIngest.prepare_loop].
  destruct (judge producer now limits db ends r) as [[q a]|reason] eqn:Ej; apply IH; cbn [accept reject b_rows]; rewrite forallb_app, Hb; cbn [forallb andb]; rewrite andb_true_r.
  - apply judge_ok in Ej as (_ & Hl & _). apply interval_row_ok; try done. by eapply load_plain.
  - apply judge_plain in Ej. unfold reject_row. destruct (_ && _); (apply interval_row_ok; try done); (destruct (load_attribution db _) as [a|] eqn:El; [by eapply load_plain|done]).
Qed.

Lemma write_succeeds producer records now limits db : plain (pd_AgentID producer) = true -> plain_attributions db -> Forall (fun r => plain_record r = true) records ->
  exists db', write (prepareBatch producer records now limits db) db = Ok db' /\ producers db' = producers db /\ attributions db' = attributions db /\ catalog db' = catalog db.
Proof.
  intros Hg Hp Hr. unfold write. cbv zeta. destruct (len _ =? 0); [by exists db|].
  rewrite (prepared_rows_ok producer now limits db records Hg Hp Hr (pg_end <$> progress db) empty_batch eq_refl : forallb row_ok (b_rows (prepareBatch producer records now limits db)) = true).
  eexists. split; [reflexivity|]. done.
Qed.

Lemma continuing_records report records : forall previous c, c + len records < two64 -> 0 <= c ->
  map Sequence records = seqZ (c + 1) (len records) -> Forall (fun r => InstallationId r = rp_InstallationId Health report /\ ProducerId r = rp_ProducerId Health report) records ->
  match previous with Some p => p = c | None => True end -> check_records report previous records = Ok tt.
Proof.
  induction records as [|r records IH]; intros previous c Hc H0 Hm Hf Hp; [done|]. rewrite len_cons in *. pose proof (len_nonneg records).
  cbn [map] in Hm. rewrite seqZ_cons in Hm by lia. injection Hm as Hs Hm. apply Forall_cons in Hf as [[F1 F2] Hf]. cbn [UsageIngest.check_records].
  rewrite F1, F2, !(proj2 (str_eqb_eq _ _) eq_refl). cbn [negb orb]. rewrite (proj2 (Z.eqb_neq (Sequence r) 0)) by lia.
  assert (Hprev : match previous with Some p => negb (Sequence r =? uwrap64 (p + 1)) | None => false end = false).
  { destruct previous as [p|]; [|done]. subst p. rewrite uwrap64_small by (unfold in_uint64; lia). by rewrite Hs, Z.eqb_refl. }
  rewrite Hprev. cbn [orb]. apply (IH (Some (Sequence r)) (Sequence r)); try done; try lia. rewrite Hm, Hs. apply (f_equal2 seqZ); lia.
Qed.

Lemma classify_continuing c records : forall fresh, 0 <= c -> c + len fresh + len records < two64 -> map Sequence records = seqZ (c + len fresh + 1) (len records) ->
  classify c records [] fresh = ([], fresh ++ records).
Proof.
  induction records as [|r records IH]; intros fresh H0 Hc Hm; [by rewrite app_nil_r|]. rewrite len_cons in *. pose proof (len_nonneg records). pose proof (len_nonneg fresh).
  cbn [map] in Hm. rewrite seqZ_cons in Hm by lia. injection Hm as Hs Hm. cbn [classify]. rewrite (proj2 (Z.leb_gt (Sequence r) c)) by lia.
  rewrite uwrap64_small by (unfold in_uint64; lia). rewrite (proj2 (Z.eqb_eq _ _)) by lia. rewrite IH.
  - by rewrite <- app_assoc.
  - done.
  - rewrite len_app, len_cons. change (len []) with 0. lia.
  - rewrite Hm, len_app, len_cons. change (len []) with 0. apply (f_equal2 seqZ); lia.
Qed.

(** The journal is the agent's and not blocked, or not known yet. *)
Definition journal_open (producer : Producer) (id : string) (db : usage_db) : Prop :=
  match producers db !! (pd_InstallationID producer, id) with Some r => up_agent_id r = pd_AgentID producer /\ up_state r = "active" | None => True end.

Lemma lock_succeeds producer report now db : journal_open producer (rp_ProducerId Health report) db ->
  exists d row, lockProducer Health producer report now db = Ok (d, row) /\ up_agent_id row = pd_AgentID producer /\ up_state row = "active".
Proof.
  unfold journal_open, lockProducer. cbv zeta. destruct (producers db !! _) as [row|].
  - intros [E1 E2]. rewrite E1, E2, (proj2 (str_eqb_eq _ _) eq_refl). cbn. by exists db, row.
  - intros _. eexists _, _. split; [reflexivity|]. done.
Qed.

Record welcome (producer : Producer) (report : UsageReport Health) (db : usage_db) (limits : nodeLimits) : Prop := {
  wc_agent : rp_AgentId Health report = pd_AgentID producer /\ rp_InstallationId Health report = pd_InstallationID producer;
  wc_uuid : is_uuid (rp_ProducerId Health report) = true;
  wc_limits : len (rp_Records Health report) <= MaxUsageRecordsPerReport /\ report_size report <= MaxUsageReportBytes;
  wc_ids : Forall (fun r => InstallationId r = rp_InstallationId Health report /\ ProducerId r = rp_ProducerId Health report) (rp_Records Health report);
  wc_lost : rp_LostThrough Health report = 0;
  wc_session : fenceSession producer db = Ok limits;
  wc_open : journal_open producer (rp_ProducerId Health report) db;
  wc_plain : plain (pd_AgentID producer) = true /\ plain_attributions db /\ Forall (fun r => plain_record r = true) (rp_Records Health report);
  wc_health : match rp_Health Health report with Some h => is_Some (health_json h) | None => True end
}.

Lemma health_succeeds report now db : match rp_Health Health report with Some h => is_Some (health_json h) | None => True end ->
  exists d, recordHealth Health health_json report now db = Ok d /\
    producers d = alter (fun r => r <| up_health := default "{}" (rp_Health Health report ≫= health_json) |> <| up_last_report_at := Some now |>)
      (rp_InstallationId Health report, rp_ProducerId Health report) (producers db) /\ attributions d = attributions db /\ catalog d = catalog db /\ intervals d = intervals db.
Proof.
  unfold recordHealth. destruct (rp_Health Health report) as [h|]; [|intros _; eexists; split; [reflexivity|]; done].
  intros [t Et]. cbn [option_bind mbind]. rewrite Et. eexists. split; [reflexivity|]. done.
Qed.

Lemma ingest_succeeds producer report now db limits : cursors_ok db -> welcome producer report db limits ->
  let key := (pd_InstallationID producer, rp_ProducerId Health report) in
  map Sequence (rp_Records Health report) = seqZ (cursor_of db key + 1) (len (rp_Records Health report)) ->
  cursor_of db key + len (rp_Records Health report) < two63 ->
  exists db' ack, Ingest producer report now db = Ok (db', ack) /\ ack_AcceptedThrough ack = cursor_of db key + len (rp_Records Health report) /\
    ack_Conflict ack = "" /\ ack_ProducerId ack = rp_ProducerId Health report /\ attributions db' = attributions db /\ catalog db' = catalog db /\
    journal_open producer (rp_ProducerId Health report) db' /\
    exists rows, intervals db' = intervals db ++ rows /\ map row_id rows = map (record_id quote) (rp_Records Health report).
Proof.
  intros Hok W key Hseq Hbound. destruct W as [[A1 A2] Hu [L1 L2] Hids Hlost Hs Ho (P1 & P2 & P3) Hh]. pose proof (cursor_bounds db key Hok) as Hc.
  unfold two63 in *. pose proof (len_nonneg (rp_Records Health report)) as Hn.
  unfold UsageIngest.Ingest, checkEnvelope. rewrite A1, A2, !(proj2 (str_eqb_eq _ _) eq_refl), Hu. cbn [negb orb].
  rewrite (proj2 (Z.ltb_ge _ _) L1), (proj2 (Z.ltb_ge _ _) L2). cbn [orb].
  rewrite (continuing_records report _ None (cursor_of db key)) by (unfold two64; lia || done).
  change (Ok tt ≫= ?k) with (k tt). cbv beta. unfold UsageIngest.ingestTx. cbv zeta. rewrite Hs. cbn [mbind result_bind].
  destruct (lock_succeeds producer report now db Ho) as (d1 & row & El & Ra & Rs). rewrite El. cbn [mbind result_bind].
  pose proof (lockProducer_same _ _ _ _ _ _ _ El) as (U1&_&_&U4&_&U6). apply lockProducer_cursor in El as (Er & Ec & Eall & _). cbv zeta in Er, Ec. fold key in Er, Ec.
  rewrite Rs. change (str_eqb "active" "blocked") with false. cbv iota. rewrite Hlost, Ec. rewrite (proj2 (Z.ltb_ge (cursor_of db key) 0)) by lia.
  rewrite (classify_continuing (cursor_of db key) (rp_Records Health report) []) by (try (unfold two64; change (len []) with 0; lia); rewrite Hseq; change (len []) with 0; apply (f_equal2 seqZ); lia).
  cbn [checkDuplicates app]. change (str_eqb "" "") with true. cbn [negb].
  assert (Htext : forallb (fun r => text_ok (ResourceId r)) (rp_Records Health report) = true).
  { apply forallb_forall. intros r Hr%list_elem_of_In. rewrite Forall_forall in P3. specialize (P3 r Hr). unfold plain_record in P3. cbn [forallb] in P3.
    rewrite !andb_true_iff in P3. apply plain_text. tauto. }
  rewrite Htext. cbn [negb]. assert (P2' : plain_attributions d1) by (intros k a; rewrite U4; apply P2).
  destruct (write_succeeds producer (rp_Records Health report) now limits d1 P1 P2' P3) as (d2 & Ew & W1 & W2 & W3). pose proof (write_rows _ _ _ _ _ _ _ _ Ew) as (rows & X1 & X2 & _).
  rewrite Ew. cbn [mbind result_bind].
  rewrite uwrap64_small by (unfold in_uint64, two64; lia). rewrite (wrap64_small (cursor_of db key + _)) by (unfold in_int64; lia).
  rewrite (proj2 (Z.ltb_ge (cursor_of db key + len (rp_Records Health report)) 0)) by lia.
  match goal with |- context [recordHealth Health health_json report now ?d] => destruct (health_succeeds report now d Hh) as (d3 & -> & H1 & H2 & H3 & H4) end.
  cbn [mbind result_bind]. eexists _, _. split; [reflexivity|]. cbn. split; [done|]. split; [done|]. split; [done|]. rewrite H2, H3. cbn.
  split; [congruence|]. split; [congruence|]. split; [|exists rows; split; [rewrite H4; cbn; congruence|done]]. unfold journal_open. fold key. rewrite H1, A2. fold key. rewrite lookup_alter_eq. unfold update_producer. cbn.
  rewrite lookup_alter_eq, W1, Er. cbn. done.
Qed.
End Accepted.

(** ** Batches of a journal *)

Section Batches.
Context (encoded : UsageRecord -> option Z) (cfg : Config).
#[local] Abbreviation batch_loop := (batch_loop encoded).
#[local] Abbreviation stored_size := (stored_size encoded).
#[local] Abbreviation journal_ok := (journal_ok encoded cfg).

Definition half : Z := Z.quot MaxUsageReportBytes 2.

Lemma batch_prefix l : forall count size, exists rest, map snd l = batch_loop count size l ++ rest.
Proof.
  induction l as [|[k r] l IH]; intros count size; [by exists []|]. cbn [Metering.batch_loop]. destruct (_ || _); [by eexists|].
  destruct (IH (count + 1) (size + stored_size r)) as [rest Hr]. exists rest. cbn. by rewrite Hr.
Qed.

Lemma batch_limits l : forall count size, count <= MaxUsageRecordsPerReport -> size <= half ->
  count + len (batch_loop count size l) <= MaxUsageRecordsPerReport /\ size + sumZ stored_size (batch_loop count size l) <= half.
Proof.
  induction l as [|[k r] l IH]; intros count size Hc Hs; cbn [Metering.batch_loop]; [change (len []) with 0; unfold sumZ; cbn; lia|].
  destruct ((count =? MaxUsageRecordsPerReport) || (half <? size + stored_size r)) eqn:E; unfold half in E; rewrite E; [change (len []) with 0; unfold sumZ; cbn; lia|].
  apply orb_false_iff in E as [E1 E2]. apply Z.eqb_neq in E1. apply Z.ltb_ge in E2.
  destruct (IH (count + 1) (size + stored_size r) ltac:(lia) E2) as [H1 H2]. rewrite len_cons. unfold sumZ in *. cbn [foldr]. lia.
Qed.

Lemma batch_nonempty k r l : stored_size r <= half -> batch_loop 0 0 ((k, r) :: l) <> [].
Proof. intros H. cbn [Metering.batch_loop]. rewrite Z.add_0_l. unfold half in H. rewrite (proj2 (Z.ltb_ge _ _) H). done. Qed.

Lemma seek_keys l : forall lo n from, map fst l = seqZ lo n -> lo <= from <= lo + n -> map fst (seek from l) = seqZ from (lo + n - from).
Proof.
  unfold seek. induction l as [|[k r] l IH]; intros lo n from Hm Hf.
  - cbn in *. destruct (decide (0 < n)) as [Hp|Hp]; [by rewrite seqZ_cons in Hm|]. by rewrite seqZ_nil by lia.
  - destruct (decide (0 < n)) as [Hp|Hp]; [|by rewrite seqZ_nil in Hm by lia]. pose proof Hm as Hm0. rewrite seqZ_cons in Hm by done. cbn [map fst] in Hm. injection Hm as -> Hm. cbn [List.filter fst].
    destruct (from <=? lo) eqn:E.
    + apply Z.leb_le in E. assert (from = lo) as -> by lia. assert (Hall : List.filter (fun p => lo <=? p.1) l = l).
      { apply Prelude.filter_all. intros p Hp'. apply Z.leb_le. apply (list_elem_of_fmap_2 fst) in Hp'. change (fst <$> l) with (map fst l) in Hp'. rewrite Hm in Hp'. apply elem_of_seqZ in Hp'. lia. }
      rewrite Hall, Hm0. apply (f_equal2 seqZ); lia.
    + apply Z.leb_gt in E. rewrite (IH (Z.succ lo) (Z.pred n) from Hm) by lia. apply (f_equal2 seqZ); lia.
Qed.

(** What a batch from [from] on is. *)
Lemma batch_of_journal j from : journal_ok j -> LowestRetained (meta j) <= from <= NextSequence (meta j) ->
  Forall (fun p => stored_size p.2 <= half) (records j) ->
  let '(batch, lost) := journal_batch encoded from j in
  lost = 0 /\ map Sequence batch = seqZ from (len batch) /\ from + len batch <= NextSequence (meta j) /\ (from < NextSequence (meta j) -> batch <> []) /\
  len batch <= MaxUsageRecordsPerReport /\ sumZ stored_size batch <= half /\
  (forall r, r ∈ batch -> (Sequence r, r) ∈ records j) /\ (forall k r, (k, r) ∈ records j -> from <= k < from + len batch -> r ∈ batch).
Proof.
  intros H Hf Hsize. unfold journal_batch. rewrite (proj2 (Z.ltb_ge _ _)) by apply Hf. cbv zeta.
  pose proof (seek_keys _ _ _ from (jo_keys _ _ _ H) ltac:(lia)) as Hk. set (l := seek from (records j)) in *.
  replace (LowestRetained (meta j) + (NextSequence (meta j) - LowestRetained (meta j)) - from) with (NextSequence (meta j) - from) in Hk by lia.
  assert (Hin : forall p, p ∈ l -> p ∈ records j) by (intros p; unfold l, seek; rewrite !list_elem_of_In, filter_In; tauto).
  assert (Hseq : map Sequence (map snd l) = seqZ from (NextSequence (meta j) - from)).
  { rewrite map_map, <- Hk. apply map_ext_in. intros p Hp%list_elem_of_In%Hin. pose proof (jo_filed _ _ _ H) as Hfl. rewrite Forall_forall in Hfl. by destruct (Hfl p Hp) as [-> _]. }
  destruct (batch_prefix l 0 0) as [rest Hrest]. destruct (batch_limits l 0 0 ltac:(done) ltac:(done)) as [B1 B2]. set (batch := batch_loop 0 0 l) in *.
  rewrite Hrest, map_app in Hseq. assert (Hlen : len batch + len rest = NextSequence (meta j) - from).
  { apply (f_equal length) in Hseq. rewrite length_app, !length_map, length_seqZ in Hseq. unfold len. lia. }
  pose proof (len_nonneg rest) as Hr0. pose proof (len_nonneg batch) as Hb0. rewrite <- Hlen, seqZ_app in Hseq by lia. apply app_inj_1 in Hseq as [Hs1 Hs2].
  2:{ rewrite length_map, length_seqZ. unfold len. lia. }
  split; [done|]. split; [done|]. split; [lia|]. split; [|split; [lia|split; [lia|split]]].
  - intros Hlt. destruct l as [|[k r] l'] eqn:El; [|apply batch_nonempty].
    + cbn in Hk. rewrite seqZ_cons in Hk by lia. done.
    + rewrite Forall_forall in Hsize. apply (Hsize (k, r)), Hin. set_solver.
  - intros r Hr. assert (Hr' : r ∈ map snd l) by (rewrite Hrest; set_solver). apply list_elem_of_fmap in Hr' as ([k r'] & -> & Hp). cbn.
    apply Hin in Hp. pose proof (jo_filed _ _ _ H) as Hfl. rewrite Forall_forall in Hfl. destruct (Hfl _ Hp) as [E _]. cbn in E. by rewrite E.
  - intros k r Hkr Hrange. assert (Hp : (k, r) ∈ l).
    { unfold l, seek. rewrite list_elem_of_In, filter_In. split; [by apply list_elem_of_In|]. cbn. apply Z.leb_le. lia. }
    apply (list_elem_of_fmap_2 snd) in Hp. change (snd <$> l) with (map snd l) in Hp. rewrite Hrest in Hp. apply elem_of_app in Hp as [Hp|Hp]; [done|]. exfalso.
    cbn in Hp. pose proof (jo_filed _ _ _ H) as Hfl. rewrite Forall_forall in Hfl. destruct (Hfl _ Hkr) as [E _]. cbn in E.
    apply (list_elem_of_fmap_2 Sequence) in Hp. change (Sequence <$> rest) with (map Sequence rest) in Hp. rewrite Hs2 in Hp. apply elem_of_seqZ in Hp. lia.
Qed.
End Batches.

(** ** Rounds of delivery *)

Section System.
Context (encoded : UsageRecord -> option Z) (cfg : Metering.Config).
Hypothesis encoded_nonneg : forall r n, encoded r = Some n -> 0 <= n.
Context (Health : Type) (health : Meter -> option Health) (health_json : Health -> option string) (marshal : UsageRecord -> string) (quote : string -> string)
  (is_uuid : string -> bool) (report_size : UsageReport Health -> Z) (producer : Producer) (limits : nodeLimits).
#[local] Abbreviation Ingest := (Ingest Health health_json marshal quote is_uuid report_size).
#[local] Abbreviation deliver_round := (deliver_round encoded Health health).
#[local] Abbreviation Acknowledge := (Acknowledge encoded cfg).
#[local] Abbreviation stored_size := (stored_size encoded).
#[local] Abbreviation installation := (pd_InstallationID producer).
#[local] Abbreviation agent := (pd_AgentID producer).

Hypothesis health_encodes : forall m h, health m = Some h -> is_Some (health_json h).

Definition system : Type := courier * Meter * usage_db.
Definition producer_of (m : Meter) : string := jm_ProducerID (meta (m_journal m)).
Definition newest (m : Meter) : Z := NextSequence (meta (m_journal m)).

(** A report of a meter is larger than its records, but the framing of its
    records, its identities and its health stay within the other half. *)
Hypothesis report_fits : forall m batch, is_uuid (producer_of m) = true -> jm_InstallationID (meta (m_journal m)) = installation ->
  len batch <= MaxUsageRecordsPerReport -> sumZ stored_size batch <= half -> report_size (usage_report Health health agent m batch 0) <= MaxUsageReportBytes.

(** One round: what [Deliver] sends at [now] is ingested at [dbnow], and the
    acknowledgement is applied at [clock]. *)
Definition round (t : time * time * time) (s : system) : system :=
  let '(now, dbnow, clock) := t in
  let '(c, m, db) := s in
  match deliver_round now true c m with
  | (c, m, None) => (c, m, db)
  | (c, m, Some report) =>
      match Ingest producer report dbnow db with
      | Ok (db', ack) => (c, Acknowledge clock ack m, db')
      | Err _ => (c, m, db)
      end
  end.
Definition rounds (l : list (time * time * time)) (s : system) : system := foldl (fun s t => round t s) s l.

(** Both sides agree on the cursor, the session is live, and nothing in the
    journal is too large or unreadable for the control plane. *)
Record synced (m : Meter) (db : usage_db) : Prop := {
  sy_meter : meter_ok encoded cfg installation agent m;
  sy_cursors : cursors_ok db;
  sy_cursor : cursor_of db (installation, producer_of m) + 1 = sendFrom m;
  sy_retained : LowestRetained (meta (m_journal m)) <= sendFrom m;
  sy_width : newest m <= two63;
  sy_session : exists sid, session m = Some (agent, sid);
  sy_conflict : conflict m = false;
  sy_fence : fenceSession producer db = Ok limits;
  sy_open : journal_open producer (producer_of m) db;
  sy_uuid : is_uuid (producer_of m) = true;
  sy_plain : plain agent = true /\ plain_attributions db;
  sy_records : Forall (fun p => plain_record p.2 = true /\ stored_size p.2 <= half) (records (m_journal m))
}.

(** A record of the journal that the control plane has. *)
Definition received (m : Meter) (db : usage_db) (k : Z) (r : UsageRecord) : Prop :=
  exists v, v ∈ intervals db /\ position v = (installation, producer_of m, k) /\ iv_digest v = UsageRecordDigest quote r.

Lemma fence_catalog db db' : catalog db' = catalog db -> fenceSession producer db' = fenceSession producer db.
Proof. intros E. unfold fenceSession. by rewrite E. Qed.

(** A report of the next batch is accepted and acknowledged in full. *)
Lemma exchange m db dbnow clock : synced m db ->
  let '(batch, lost) := journal_batch encoded (sendFrom m) (m_journal m) in
  let m1 := m <| reportSeq := reportSeq m + 1 |> in
  exists db' ack, Ingest producer (usage_report Health health agent m1 batch lost) dbnow db = Ok (db', ack) /\
    let m2 := Acknowledge clock ack m1 in
    synced m2 db' /\ producer_of m2 = producer_of m /\ newest m2 = newest m /\ sendFrom m2 = sendFrom m + len batch /\
    (forall v, v ∈ intervals db -> v ∈ intervals db') /\ (forall k r, (k, r) ∈ records (m_journal m) -> sendFrom m <= k < sendFrom m2 -> received m2 db' k r) /\
    (forall k r, (k, r) ∈ records (m_journal m) -> sendFrom m2 <= k -> (k, r) ∈ records (m_journal m2)).
Proof.
  intros [Hm Hc Hcur Hret Hw [sid Hsid] Hconf Hf Ho Hu [Hp Hpa] Hrec]. pose proof (mo_journal _ _ _ _ _ Hm) as Hj. destruct (jo_range _ _ _ Hj) as [R1 R2].
  pose proof (mo_from _ _ _ _ _ Hm) as Hfrom. destruct (mo_ids _ _ _ _ _ Hm) as [I1 I2].
  assert (Hsizes : Forall (fun p => stored_size p.2 <= half) (records (m_journal m))) by (eapply Forall_impl; [exact Hrec|]; by intros p [_ ?]).
  pose proof (batch_of_journal encoded cfg (m_journal m) (sendFrom m) Hj ltac:(lia) Hsizes) as Hb.
  destruct (journal_batch encoded (sendFrom m) (m_journal m)) as [batch lost]. destruct Hb as (-> & B1 & B2 & B3 & B4 & B5 & B6 & B7). cbv zeta.
  set (m1 := m <| reportSeq := reportSeq m + 1 |>). set (report := usage_report Health health agent m1 batch 0). set (key := (installation, producer_of m)) in *.
  assert (Hbr : forall r, r ∈ batch -> InstallationId r = installation /\ ProducerId r = producer_of m /\ plain_record r = true /\ 0 <= Sequence r < two64).
  { intros r Hr. apply B6 in Hr. pose proof (jo_filed _ _ _ Hj) as Hfl. rewrite Forall_forall in Hfl. destruct (Hfl _ Hr) as (_ & F2 & F3). cbn in F2, F3.
    rewrite Forall_forall in Hrec. destruct (Hrec _ Hr) as [P1 _]. pose proof (keys_below _ _ _ Hj) as Hk. rewrite Forall_forall in Hk. specialize (Hk _ Hr). cbn in Hk, P1.
    unfold newest, two63, two64 in *. split; [congruence|]. split; [done|]. split; [done|]. lia. }
  assert (W : welcome Health health_json is_uuid report_size producer report db limits).
  { constructor; try done.
    - split; [done|]. by apply report_fits.
    - rewrite Forall_forall. intros r Hr. destruct (Hbr r Hr) as (G1 & G2 & _). split; [rewrite G1; by symmetry|done].
    - split; [done|]. split; [done|]. rewrite Forall_forall. intros r Hr. by destruct (Hbr r Hr) as (_ & _ & G & _).
    - change (rp_Health Health report) with (health m1). destruct (health m1) as [h|] eqn:Eh; [by eapply health_encodes|done]. }
  assert (Hlen : cursor_of db key + len batch < two63) by (unfold newest in Hw; lia).
  destruct (ingest_succeeds Health health_json marshal quote is_uuid report_size producer report dbnow db limits Hc W) as (db' & ack & Ei & A1 & A2 & A3 & A4 & A5 & A6 & rows & A7 & A8).
  { change (map Sequence batch = seqZ (cursor_of db key + 1) (len batch)). rewrite Hcur. done. }
  { exact Hlen. }
  change (ack_AcceptedThrough ack = cursor_of db key + len batch) in A1. change (ack_ProducerId ack = producer_of m) in A3. change (map row_id rows = map (record_id quote) batch) in A8.
  exists db', ack. split; [done|]. pose proof (cursor_bounds db key Hc) as Hc0. pose proof (len_nonneg batch) as Hn.
  assert (Hm1 : meter_ok encoded cfg installation agent m1) by (destruct Hm; by constructor).
  destruct (acknowledge_ok encoded cfg encoded_nonneg installation agent clock ack m1 ltac:(lia) Hm1) as [M1 M2].
  destruct (acknowledge_effect encoded cfg encoded_nonneg installation agent clock ack m1 Hm1 A3 A2 ltac:(unfold m1; cbn; lia)) as (N1 & N2 & N3 & N4 & N5 & N6 & N7).
  set (m2 := Acknowledge clock ack m1) in *. cbv zeta. change (NextSequence (meta (m_journal m1))) with (newest m) in N2. change (jm_ProducerID (meta (m_journal m1))) with (producer_of m) in N3.
  assert (Hs2 : sendFrom m2 = sendFrom m + len batch) by lia. change (records (m_journal m1)) with (records (m_journal m)) in *. change (meta (m_journal m1)) with (meta (m_journal m)) in *.
  destruct (ingest_recorded Health health_json marshal quote is_uuid report_size producer report dbnow db db' ack Hc) as (mid & rows' & fresh & Hrec' & Hack); [|exact Ei|].
  { split; [done|]. rewrite Forall_forall. intros r Hr. by apply Hbr. }
  change (pd_InstallationID producer, rp_ProducerId Health report) with key in Hack.
  split; [|split; [done|split; [done|split; [done|split; [|split]]]]].
  - constructor; try done.
    + by eapply recorded_cursors.
    + unfold producer_of. rewrite N3. fold (producer_of m). change (cursor_of db' key + 1 = sendFrom m2). lia.
    + lia.
    + unfold newest. by rewrite N2.
    + exists sid. by rewrite N4.
    + by rewrite N5.
    + by rewrite (fence_catalog db).
    + unfold producer_of. by rewrite N3.
    + unfold producer_of. by rewrite N3.
    + split; [done|]. intros k a. rewrite A4. apply Hpa.
    + rewrite Forall_forall in *. intros p Hin. by apply Hrec, N7.
  - intros v Hv. rewrite A7. set_solver.
  - intros k r Hk Hrange. assert (Hrb : r ∈ batch) by (apply (B7 k r Hk); lia). pose proof (jo_filed _ _ _ Hj) as Hfl. rewrite Forall_forall in Hfl. destruct (Hfl _ Hk) as (F1 & _). cbn in F1.
    pose proof Hrb as Hrb'. apply (list_elem_of_fmap_2 (record_id quote)) in Hrb'. change (record_id quote <$> batch) with (map (record_id quote) batch) in Hrb'. rewrite <- A8 in Hrb'.
    apply list_elem_of_fmap in Hrb' as (v & Ev & Hv). exists v. rewrite A7. split; [set_solver|]. unfold row_id, record_id in Ev. injection Ev as E1 E2 E3 E4. split; [|done].
    destruct (Hbr r Hrb) as (G1 & G2 & _). unfold position. rewrite <- E1, <- E2, <- E3, G1, G2. unfold producer_of. rewrite N3. fold (producer_of m). f_equal.
    rewrite F1. apply wrap64_small. unfold in_int64, newest, two63 in *. lia.
  - intros k r Hk Hge. apply M2; [done|lia|lia].
Qed.

(** The courier may send again at [now]. *)
Definition ready (now : time) (c : courier) : Prop := inFlight c = true -> ackTimeout <= now - inFlightSince c.

(** What a round gives, whether it sends or not. *)
Record advanced (m : Meter) (db : usage_db) (m' : Meter) (db' : usage_db) : Prop := {
  ad_synced : synced m' db';
  ad_producer : producer_of m' = producer_of m;
  ad_newest : newest m' = newest m;
  ad_from : sendFrom m <= sendFrom m';
  ad_intervals : forall v, v ∈ intervals db -> v ∈ intervals db';
  ad_received : forall k r, (k, r) ∈ records (m_journal m) -> sendFrom m <= k < sendFrom m' -> received m' db' k r;
  ad_kept : forall k r, (k, r) ∈ records (m_journal m) -> sendFrom m' <= k -> (k, r) ∈ records (m_journal m')
}.

Lemma advanced_refl m m' db : synced m' db -> m_journal m' = m_journal m -> sendFrom m' = sendFrom m -> advanced m db m' db.
Proof. intros H E1 E2. constructor; unfold producer_of, newest; rewrite ?E1, ?E2; try done; try lia. Qed.

Lemma round_advances now dbnow clock c m db : synced m db ->
  let '(c', m', db') := round (now, dbnow, clock) (c, m, db) in
  advanced m db m' db' /\ (inFlight c' = true -> inFlightSince c' = now \/ (inFlight c = true /\ inFlightSince c' = inFlightSince c)) /\
  (ready now c -> sendFrom m < newest m -> sendFrom m < sendFrom m').
Proof.
  intros H. cbn [round]. unfold Metering.deliver_round. destruct (sy_session _ _ H) as [sid ->]. rewrite (sy_conflict _ _ H).
  destruct (inFlight c && (now - inFlightSince c <? ackTimeout)) eqn:Eflight.
  { split; [by apply advanced_refl|]. apply andb_true_iff in Eflight as [E1 E2]. apply Z.ltb_lt in E2. split; [auto|]. intros Hr _. specialize (Hr E1). lia. }
  cbv zeta. pose proof (exchange m db dbnow clock H) as Hx. pose proof (mo_journal _ _ _ _ _ (sy_meter _ _ H)) as Hj. destruct (jo_range _ _ _ Hj) as [R1 R2].
  pose proof (mo_from _ _ _ _ _ (sy_meter _ _ H)) as Hfrom. pose proof (sy_retained _ _ H) as Hret.
  assert (Hsizes : Forall (fun p => stored_size p.2 <= half) (records (m_journal m))) by (eapply Forall_impl; [exact (sy_records _ _ H)|]; by intros p [_ ?]).
  pose proof (batch_of_journal encoded cfg (m_journal m) (sendFrom m) Hj ltac:(lia) Hsizes) as Hb.
  destruct (journal_batch encoded (sendFrom m) (m_journal m)) as [batch lost]. destruct Hb as (_ & _ & _ & B4 & _).
  destruct ((len batch =? 0) && _) eqn:Equiet.
  { split; [by apply advanced_refl|]. split; [done|]. intros _ Hlt. apply andb_true_iff in Equiet as [E1 _]. apply Z.eqb_eq in E1. specialize (B4 Hlt). by destruct batch. }
  destruct Hx as (db' & ack & Ei & Hx). rewrite Ei. destruct Hx as (X1 & X2 & X3 & X4 & X5 & X6 & X7). pose proof (len_nonneg batch). split; [|split].
  - constructor; [exact X1|exact X2|exact X3|lia|exact X5|exact X6|exact X7].
  - destruct (len batch =? 0); cbn; [done|auto].
  - intros _ Hlt. specialize (B4 Hlt). destruct batch as [|r batch]; [done|]. rewrite len_cons in X4. pose proof (len_nonneg batch). lia.
Qed.

Lemma rounds_grow l : forall c m db, synced m db -> let '(_, _, db') := rounds l (c, m, db) in forall v, v ∈ intervals db -> v ∈ intervals db'.
Proof.
  induction l as [|[[now dbnow] clock] l IH]; intros c m db H; [by intros v|]. pose proof (round_advances now dbnow clock c m db H) as Hr.
  change (rounds ((now, dbnow, clock) :: l) (c, m, db)) with (rounds l (round (now, dbnow, clock) (c, m, db))).
  destruct (round (now, dbnow, clock) (c, m, db)) as [[c1 m1] db1]. destruct Hr as (Ha & _). specialize (IH c1 m1 db1 (ad_synced _ _ _ _ Ha)).
  destruct (rounds l (c1, m1, db1)) as [[c2 m2] db2]. intros v Hv. apply IH. by apply (ad_intervals _ _ _ _ Ha).
Qed.

(** Rounds at least an acknowledgement's time apart, the first after [t]. *)
Fixpoint paced (t : time) (l : list (time * time * time)) : Prop :=
  match l with [] => True | (now, _, _) :: l => t + ackTimeout <= now /\ paced now l end.

(** C11: delivery is live.  Suppose agent and control plane agree on the cursor,
    the session holds and is not superseded, no conflict stopped delivery,
    nothing from the cursor on was pruned, the producer is known and open, all
    texts of the records and of the attributions are plain ASCII, each record
    takes at most half of a report and a report with such a batch keeps within
    its size limit ([synced] and the hypotheses of this section; a record whose
    text is not valid is refused for ever).  Then as many rounds as there are
    records to send, each an acknowledgement time-out apart, deliver the whole
    journal: the cursor reaches the newest sequence, and every record is stored
    with its digest. *)
Theorem journal_is_delivered l t c m db : synced m db -> paced t l -> (inFlight c = true -> inFlightSince c <= t) -> newest m - sendFrom m <= len l ->
  let '(_, m', db') := rounds l (c, m, db) in
  cursor_of db' (installation, producer_of m) = newest m - 1 /\ sendFrom m' = newest m /\
  forall k r, (k, r) ∈ records (m_journal m) -> sendFrom m <= k -> received m db' k r.
Proof.
  intros H. revert t c m db H. induction l as [|[[now dbnow] clock] l IH]; intros t c m db H Hp Hc Hn.
  - change (len []) with 0 in Hn. pose proof (mo_journal _ _ _ _ _ (sy_meter _ _ H)) as Hj. destruct (jo_range _ _ _ Hj) as [R1 R2].
    pose proof (mo_from _ _ _ _ _ (sy_meter _ _ H)) as Hfrom. pose proof (sy_cursor _ _ H) as Hcur. unfold newest in *. cbn. split; [lia|]. split; [lia|].
    intros k r Hk Hge. pose proof (keys_below _ _ _ Hj) as Hk'. rewrite Forall_forall in Hk'. specialize (Hk' _ Hk). cbn in Hk'. lia.
  - destruct Hp as [Hp1 Hp2]. rewrite len_cons in Hn. pose proof (round_advances now dbnow clock c m db H) as Hr. change (rounds ((now, dbnow, clock) :: l) (c, m, db)) with (rounds l (round (now, dbnow, clock) (c, m, db))).
    destruct (round (now, dbnow, clock) (c, m, db)) as [[c1 m1] db1]. destruct Hr as (Ha & Hf & Hadv). assert (Hready : ready now c).
    { intros E. specialize (Hc E). lia. }
    assert (Hn1 : newest m1 - sendFrom m1 <= len l).
    { rewrite (ad_newest _ _ _ _ Ha). destruct (Z.lt_ge_cases (sendFrom m) (newest m)) as [Hlt|Hge]; [specialize (Hadv Hready Hlt); lia|].
      pose proof (ad_from _ _ _ _ Ha). pose proof (len_nonneg l). lia. }
    assert (Hc1 : inFlight c1 = true -> inFlightSince c1 <= now).
    { intros E. destruct (Hf E) as [->|[E' ->]]; [lia|]. specialize (Hc E'). unfold ackTimeout, second in Hp1. lia. }
    specialize (IH now c1 m1 db1 (ad_synced _ _ _ _ Ha) Hp2 Hc1 Hn1). destruct (rounds l (c1, m1, db1)) as [[c2 m2] db2] eqn:Er.
    rewrite (ad_newest _ _ _ _ Ha), (ad_producer _ _ _ _ Ha) in IH. destruct IH as (I1 & I2 & I3). split; [done|]. split; [done|]. intros k r Hk Hge.
    destruct (Z.lt_ge_cases k (sendFrom m1)) as [Hlt|Hge1].
    + destruct (ad_received _ _ _ _ Ha k r Hk ltac:(lia)) as (v & V1 & V2 & V3). exists v. split; [|rewrite (ad_producer _ _ _ _ Ha) in V2; done].
      pose proof (rounds_grow l c1 m1 db1 (ad_synced _ _ _ _ Ha)) as Hg. rewrite Er in Hg. by apply Hg.
    + destruct (I3 k r (ad_kept _ _ _ _ Ha k r Hk Hge1) Hge1) as (v & V1 & V2 & V3). exists v. by rewrite (ad_producer _ _ _ _ Ha) in V2.
Qed.
End System.

(** ** Two minutes of an agent, delivered *)

Module Example.
Import UsageLedger.Example.
#[local] Abbreviation size0 := MeterJournal.Example.size0.
#[local] Abbreviation meter_cfg := MeterJournal.Example.cfg0.

(** The meter of the journal's example, attached to a session. *)
Definition m1 : Meter := Attach "agent" "session" MeterJournal.Example.s1.2.
Definition c1 : courier := Build_courier true T T.
Definition report_bytes (report : UsageReport unit) : Z := 200 + sumZ (stored_size size0) (rp_Records unit report).
Definition limits1 : nodeLimits := UsageCursors.Example.ok_or (Build_nodeLimits 0 0) (fenceSession producer (l_db l1)).
Definition times : list (time * time * time) := [(T + 30 * second, T + hour, T + hour); (T + 60 * second, T + hour, T + hour)].
#[local] Abbreviation rounds := (rounds size0 meter_cfg unit (fun _ => None) (fun _ => Some "{}") ResourceId quoted (fun _ => true) report_bytes producer).

Lemma attach_journal agent session m : m_journal (Attach agent session m) = m_journal m.
Proof. done. Qed.

Lemma m1_journal : m_journal m1 = m_journal MeterJournal.Example.s1.2.
Proof. exact (attach_journal "agent" "session" _). Qed.

Lemma m1_ok : meter_ok size0 meter_cfg "inst" "agent" m1.
Proof.
  refine (meter_reachable size0 meter_cfg MeterJournal.Example.size0_nonneg map_to_list unit (fun _ => None) "inst" "agent"
    (MeterJournal.step size0 meter_cfg map_to_list unit (fun _ => None) "inst" "agent" (MAttach "session") MeterJournal.Example.s1) _).
  apply MeterJournal.reach_step; [exact MeterJournal.Example.s1_reachable|done].
Qed.

Lemma plain_l1 : plain_attributions (l_db l1).
Proof.
  intros key a H. assert (Hall : map_Forall (fun _ a => forallb plain [at_project a; at_environment a; at_service a] = true) (attributions (l_db l1))).
  { apply (bool_decide_unpack _). vm_compute. exact I. }
  by apply (Hall key).
Qed.

Lemma readable (l : list (Z * UsageRecord)) : forallb (fun p => plain_record p.2) l = true -> Forall (fun p => plain_record p.2 = true /\ stored_size size0 p.2 <= half) l.
Proof. intros H. apply Forall_forall. intros p Hp. rewrite forallb_forall in H. split; [by apply H, list_elem_of_In|]. vm_compute. discriminate. Qed.

Lemma synced_1 : synced size0 meter_cfg (fun _ => true) producer limits1 m1 (l_db l1).
Proof.
  constructor.
  - exact m1_ok.
  - refine (cursors_reachable unit (fun _ => Some "{}") ResourceId quoted (fun _ => true) (fun _ => 100) cfg0 l1 UsageCursors.Example.l1_reachable).
  - vm_compute. reflexivity.
  - vm_compute. discriminate.
  - vm_compute. discriminate.
  - by exists "session".
  - vm_compute. reflexivity.
  - apply UsageCursors.Example.is_ok_or. vm_compute. reflexivity.
  - vm_compute. exact I.
  - reflexivity.
  - split; [vm_compute; reflexivity|exact plain_l1].
  - refine (readable (records (m_journal m1)) _). vm_compute. reflexivity.
Qed.

Lemma bytes_fit m batch : len batch <= MaxUsageRecordsPerReport -> sumZ (stored_size size0) batch <= half ->
  report_bytes (usage_report unit (fun _ => None) "agent" m batch 0) <= MaxUsageReportBytes.
Proof.
  intros _ H. change (200 + sumZ (stored_size size0) batch <= MaxUsageReportBytes). change half with 524288 in H. change MaxUsageReportBytes with 1048576. lia.
Qed.

Lemma journal_is_delivered_witness : let s := rounds times (c1, m1, l_db l1) in
  cursor_of s.2 ("inst", "journal") = 2 /\ sendFrom s.1.2 = 3 /\ received quoted producer m1 s.2 1 MeterJournal.Example.first.
Proof.
  intros s. pose proof (journal_is_delivered size0 meter_cfg MeterJournal.Example.size0_nonneg unit (fun _ => None) (fun _ => Some "{}") ResourceId quoted (fun _ => true)
    report_bytes producer limits1 ltac:(discriminate) (fun m batch _ _ => bytes_fit m batch) times T c1 m1 (l_db l1) synced_1) as H.
  fold s in H. destruct s as [[c' m'] db'].
  assert (Hn : newest m1 = 3) by (vm_compute; reflexivity). assert (Hs : sendFrom m1 = 1) by (vm_compute; reflexivity). rewrite Hn, Hs in H.
  destruct H as (H1 & H2 & H3).
  - split; [reflexivity|]. split; [reflexivity|exact I].
  - intros _. reflexivity.
  - vm_compute. discriminate.
  - split; [exact H1|]. split; [exact H2|]. apply H3; [|lia]. rewrite m1_journal. exact MeterJournal.Example.first_stored.
Defined.

End Example.

End UsageSystem.
